(* ===== verification/_CoqProject ===== *)
-Q . S2P
Prelude.v
Triples.v
Tables.v
PyStr.v
PyText.v
PathNames.v
SessionStats.v
Udpbd.v
UdpbdFacts.v
RawStorage.v
RawStorageFacts.v
Wire.v
Compressed.v
CompressedFacts.v
HostOs.v
Exfat.v
ExfatFacts.v
ExfatDirFacts.v
ExfatReadFacts.v
ExfatDiskFacts.v
ChdCue.v
ChdCueFacts.v
Session.v
Transport.v
TransportFacts.v
TransferFacts.v
ReplyFacts.v
Paths.v
Handlers.v
Server.v
HandlersFacts.v
Toy.v
PathsFacts.v
WriteFacts.v
Core.v
CoreFacts.v
LoopFacts.v
Catalogue.v
Http.v
CatalogueFacts.v
HttpFacts.v
HttpServeFacts.v
PyHash.v
PyGlob.v
Smb2Wire.v
Smb2Crypto.v
Smb2Auth.v
Smb2Srvsvc.v
Smb2Paths.v
Smb2Server.v
Smb2Facts.v
Smb2LogonFacts.v
Smb2SignFacts.v
Smb2WireFacts.v
Smb2FileFacts.v
Smb2SrvsvcFacts.v
Smb1Wire.v
Smb1Server.v
Smb1Facts.v
Smb1AnswerFacts.v
Smb1FileFacts.v
HttpWitnesses.v
Smb2Witnesses.v
Ipv4.v
RaProtocol.v
RaFrames.v
RaReceiver.v
RaReceiverFacts.v
RaEvaluator.v
RaEvaluatorFacts.v
RaWitnesses.v
Dhcp.v
DirectLink.v
DirectLinkFacts.v
DhcpResponder.v
DhcpResponderFacts.v
DirectLinkWitnesses.v
Smb1Witnesses.v
ExfatWitnesses.v
Witnesses.v
