(* ===== verification/Prelude.v ===== *)
(** * PS2-Servers: a verification library for the Python game servers

    PS2-Servers serves game images and files to PlayStation 2 consoles.  This library
    models the Python servers as executable definitions, translated from the sources
    under [src/], and proves what makes them correct.

    ** The program and the files that model it

    - The UDPFS file server, [udpfs_server/udpfs_server.py], is modelled in layers.
      [Wire]: the packet headers ([Header], [DataHeader], [DiscHeader]) and, from
      [router_status.py], the status protocol.  [Session]: the fields of one client's
      session, its handle table, and the [world] its worker thread runs in: host,
      sockets, clock and queue.  [Transport]: sends with retries, acknowledgements, the
      send window, the waits, and the windowed transfer of a read reply.  [Paths]: how a
      client path becomes a host path, the aliases of compressed images, the stat fields.
      [Handlers]: one definition per request ([_handle_open] ... [_handle_bwrite_req])
      with the write state machine and the response builders.  [Server]: the dispatch of
      a datagram, the worker's turn, the table of sessions with eviction and idle sweep,
      discovery, status and the receive loop.
    - The Core server, [udpfs_server/ps2servers_core.py], inherits these handlers and
      finds out which protocol profile a console speaks.  [Core] models what it replaces,
      and the running system: the [event]s (a datagram, a worker's turn, a timer, the
      sweep, a shutdown, time, changes by others) and the states [reachable] by them.
    - Compressed disc images, [udpfs_server/compressed_iso/]: [Compressed] models the
      block cache, CSO, ZSO and CHD readers; [ChdCue] the virtual CUE/BIN views of CD
      images.  The handlers of [Handlers] read through them.
    - The UDPBD block server, [udpbd_server/udpbd_server.py]: [Udpbd].  It serves any
      [BlockDevice]; [RawStorage] models the raw disks of [launcher/raw_storage.py] and
      [Exfat] the disk that presents a folder, [launcher/virtual_exfat.py];
      [RawStorageFacts] and [ExfatReadFacts] show that they keep that contract.
    - The HTTP server, [http_server/http_server.py]: [Catalogue] models the index of the
      games folder in both profiles (scan, change token, entries, the two list formats,
      lookup), [Http] the handler of one keep-alive connection, which answers from the
      index: ranges, the cached handle, [sendfile] with its partial sends and faults.
    - The SMB2 server, [smb2_server/]: [Smb2Wire] the framing, the header and the encoders
      of file information ([smb2_wire.py]); [Smb2Paths] how a client's name becomes a host
      path; [Smb2Crypto] and [Smb2Auth] signing, NTLMv2 and its messages;
      [Smb2Srvsvc] the pipe that lists the shares; and [Smb2Server] the connection: its
      tables, one definition per request, compound messages, signing and credits, from the
      first byte to the closing of the handles.  [PyHash] models the hashes it computes
      with, [PyGlob] the patterns of a listing.
    - The SMB1 server, [smbv1_server/smbserver_opl.py]: [Smb1Wire] the messages, [Smb1Server]
      the share, one definition per command, the tables of commands and the connection, with
      the unfinished SMB2 mode of this server.  [Tables] holds the dictionaries by number
      that both SMB servers keep.
    - The RetroAchievements companion of the launcher: [RaProtocol] the messages of a console,
      the assembler of memory snapshots ([ra_protocol.py]) and the lists of addresses it watches
      ([ra_watchlist.py]), [RaReceiver] the state machine of the receiver ([ra_receiver.py]);
      [RaEvaluator] the owner of the native runtime ([ra_evaluator.py]) and the receiver that
      feeds it ([ra_evaluated_receiver.py]).
    - The direct link of the launcher to a console on a cable, [launcher/directlink.py]: [Ipv4]
      addresses and networks, [DirectLink] the ports of the host, which of them can be a link,
      the subnet to take and the move aside, [Dhcp] the packets, [DhcpResponder] the responder,
      its socket, its turns and its processes.
    - The session summary, [launcher/session_stats.py]: [SessionStats], which the
      servers report to.
    - [PyStr] models the strings and [os.path] functions of Python that the sources use,
      [PyText] texts as code points with the codecs, [PathNames] the laws of normalised
      paths, [HostOs] the operating system as an interface.

    ** Conventions

    Python integers are [Z]; fields of a packet are cut to their width where the code
    masks or packs them.  Byte strings and texts are lists of [Z]; a [str] is its UTF-8
    encoding, a [text] its code points.  Code that may raise returns [result], with the exceptions of [exn];
    stateful code is in the monad [M S A] = [S -> result A * S], where an exception keeps
    the changes made before it.  Names follow the sources, without leading underscores.
    Code outside [src/] is an argument: the host is a [HostOs] instance, the codecs (lz4,
    zlib, libchdr) a [Codecs] instance; the theorems hold for every instance.  [Toy] is a
    small concrete host, on which [Witnesses] shows that the hypotheses of the theorems
    can hold together, and on which the defects found are evaluated.

    Threads: a worker handles its client's datagrams one at a time on its own session, so
    a turn is one step; what the receive loop queues meanwhile is an argument of the step,
    with arrival times, and a wait inside the turn sees it when the clock reaches it.

    ** Loops and fuel

    A loop without a structural argument takes fuel and ends in the exception [Hang]
    when it runs out, which no code catches.  The send attempts are at most
    [MAX_SEND_RETRIES]; a wait takes one queued datagram per turn, so [wait_fuel] is the
    length of the queue plus one; [chunks_fuel] bounds a transfer by its chunks, the
    acknowledgements possible and [MAX_WINDOW_RETRIES] ([TransferFacts.transfer_returns]
    proves that it is enough); the sector loop of [ChdCue.bin_read] makes at least a byte
    of progress per turn ([ChdCueFacts.bin_read_correct]); the read loop of compressed
    images can really run forever ([CompressedFacts.short_last_block_hangs]).  The folder
    recursion of the exFAT disk goes down at most 65 levels, [bitmap_fuel] is a logarithm of
    its size, and its read loop makes a byte of progress per turn ([ExfatDiskFacts.init_ends],
    [ExfatReadFacts.disk_loop_spec]).  [walk_fuel] is the number of directories a
    recursive scan may list ([CatalogueFacts.walk_dirs_bounded]), and the copy loop of the
    HTTP server sends at least a byte per turn ([HttpServeFacts.connection_answered]).
    The search for a free host meets an address to avoid per turn ([DirectLinkFacts.first_free_spec])
    and the options of a DHCP packet take a byte each ([Dhcp.parse_options_ends]).
    In the SMB2 server [recv] gives a byte per turn ([Smb2WireFacts.framed_received]), a key
    grows by a hash ([Smb2SignFacts.signing_key_total]), a fragment carries a byte
    ([Smb2SrvsvcFacts.response_reassembles]); [serve_requests] moves on by at least a byte
    and [client_loop] takes at least one arrival per turn, so the length of the message and
    the number of arrivals are their fuel.

    ** The theorems

    - [UdpbdFacts], [RawStorageFacts], [CompressedFacts], [ChdCueFacts]: reads return
      exactly the bytes of the device or image, writes store exactly the bytes sent, and
      nothing else is touched; chosen packet sizes are optimal; a CD layout tiles its image.
    - [ExfatFacts], [ExfatDirFacts], [ExfatReadFacts], [ExfatDiskFacts]:
      every cluster of the exFAT disk has at most one owner and the bitmap marks those that
      have one; a reader written from the format, given nothing but the device's sectors,
      follows each directory's chain in the FAT and finds its children; the clusters of a file hold its content; construction ends.
    - [Wire]: packets read back as packed.  [TransportFacts], [TransferFacts],
      [ReplyFacts]: acknowledgements refine unbounded sequence numbers; every transfer ends;
      a receiver that takes packets in order reassembles exactly the reply.
    - [HandlersFacts]: every run of a handler is a sequence of [effect]s, from which: a
      read-only server never writes, handle tables stay sound, a repeated datagram is not
      executed (but for number 0, by which a console restarts).  [WriteFacts]: a refused write leaves nothing behind, an accepted one stores
      the concatenation of its chunks.  [PathsFacts]: resolved paths stay in the share and
      deletions hit exactly the entry named, through no link, also by way of [..].
    - [CoreFacts]: in all reachable states sessions are bounded and sound; eviction and
      sweep take the right ones; clients do not disturb each other; a discovery does not
      disturb a stream; negotiation fixes the right profile.  [LoopFacts]: the standalone
      server's loop survives every datagram.
    - [CatalogueFacts]: the lists stay within the console's limits and read back as the
      rows meant, and the index serves exactly the rows it lists, from inside the folder.
      [HttpFacts]: the reference answer to a request and a client that reads by the framing
      headers; a listed row is answered with exactly its bytes.  [HttpServeFacts]: a whole
      connection sends exactly the reference answers.  [HttpWitnesses]: a folder where all
      this holds, and the responses that faults make.
    - [Triples] states what it is for code in [M] to keep an invariant.  With it [Smb2Facts]
      shows that every message leaves the tables of an SMB2 connection well formed and acts
      on the host only by the operations of [touch], on paths inside a share
      ([Smb2Paths]) and, on read-only shares, never to write; [Smb2LogonFacts] that
      without a proof of the password nothing is served; [Smb2SignFacts] that signatures
      verify exactly what was signed and forged requests are refused; [Smb2WireFacts] and
      [Smb2SrvsvcFacts] that frames, headers, texts, compound replies and fragments read
      back; [Smb2FileFacts] that READ is exact and a listing tells every name once.
      [Smb2Witnesses]: whole connections on a small host, and the defects found.
    - The same for SMB1: [Smb1Facts] what a client can make the server do to the host,
      [Smb1AnswerFacts] that messages, statuses and TRANS2 answers read back, that a request
      has exactly one answer and that the loop of a connection ends, [Smb1FileFacts] that READ_ANDX is exact and a search tells every name
      once; [Smb1Witnesses]: whole connections and the defects found.
    - [RaFrames]: the parts of a snapshot that arrive make exactly one frame, and what comes out
      is one.  [RaReceiverFacts]: the invariant of the receiver over every run; what it hands on
      is a frame for a list that was transferred whole, another console waits for the lease (unless the program drops the first), and
      the chunks of a list read back.  [RaEvaluatorFacts], against the interface [Rcheevos] of
      the native library and its laws: the runtime sees consecutive frames, an achievement is
      reported once, runtimes are released.  Receiver and evaluator always
      agree on the list, and a datagram that completes a newer frame has it evaluated.  [RaWitnesses]: a console played through, and the defect found.
    - [Ipv4]: addresses read back, and networks overlap if they share an address.
      [DirectLinkFacts]: the subnet chosen is free, the setting without DHCP and the move aside
      are hosts nobody has, only wired ports without router or lease are offered.
      [Dhcp]: a client reads back a reply, and a reply to a probe is recognised.
      [DhcpResponderFacts]: over every run there is one console, one address and no reply without
      a probe, replies are rare, a second responder that starts is found, a console is served, and the
      address is removed at the end.  [DirectLinkWitnesses]: a console that boots, and the
      defects found.
    - [SessionStats] carries its own theorems: bounded tables, conserved counts.

    ** Not modelled

    Socket set-up, logging and command lines; the disk cache of CD views; the Windows and
    macOS backends of raw disks; of the SMB2 server the accept loop, the takeover of port 445
    on Windows and the AES libraries it may load; of the SMB1 server these and its diagnostic
    counters; of the direct link the running of the tools of the host and the scripts that configure a
    port on Windows; and the other programs of the repository: the launcher with its windows and
    its game library, the web service, the socket thread and the accounts of its
    RetroAchievements companion, the build tools, and Edge, which is written in Go.  Python's own
    exhaustion of memory or stack is not modelled, save the recursion of
    [posixpath.realpath]. *)

From Stdlib Require Export ZArith Lia Bool.
From stdpp Require Export prelude strings gmap numbers list.
#[export] Set Default Goal Selector "!".
Open Scope Z_scope.

(** [lia] on goals with [/] and [mod] by constants or variables. *)
Ltac divlia := Z.to_euclidean_division_equations; nia.

(** Names a remainder, so that the equations about it stay linear. *)
Ltac abstract_mod x m := let r := fresh "r" in generalize dependent (x mod m); intros r.

(** ** Bytes, lengths and slices *)

(** Python [bytes] and [bytearray] values: lists of integers, each meant to be
    in [0, 256) (see [is_bytes]). *)
Abbreviation bytes := (list Z).

Definition is_byte (b : Z) : Prop := 0 <= b < 256.
Definition is_bytes (bs : bytes) : Prop := Forall is_byte bs.

(** [len(l)] *)
Definition zlen {A} (l : list A) : Z := Z.of_nat (length l).
(** [l[:n]] and [l[n:]] for [n >= 0] *)
Definition ztake {A} (n : Z) (l : list A) : list A := take (Z.to_nat n) l.
Definition zdrop {A} (n : Z) (l : list A) : list A := drop (Z.to_nat n) l.
(** [l[a:b]] for [a >= 0] *)
Definition slice {A} (l : list A) (a b : Z) : list A := ztake (b - a) (zdrop a l).
(** [b"\x00" * n] (empty for [n <= 0]) *)
Definition zeros (n : Z) : bytes := replicate (Z.to_nat n) 0.
(** [l[i]] for [i >= 0] *)
Definition zlookup {A} (l : list A) (i : Z) : option A :=
  if i <? 0 then None else l !! Z.to_nat i.
(** [bs.ljust(n, b"\x00")] *)
Definition ljust (bs : bytes) (n : Z) : bytes := bs ++ zeros (n - zlen bs).
(** [-(-a // b)] and [math.ceil(a / b)] on integers *)
Definition ceil_div (a b : Z) : Z := - ((- a) / b).

#[global] Arguments zlen : simpl never.
#[global] Arguments ztake : simpl never.
#[global] Arguments zdrop : simpl never.
#[global] Arguments slice : simpl never.
#[global] Arguments zeros : simpl never.
#[global] Arguments ljust : simpl never.

Lemma zlen_nil {A} : zlen (@nil A) = 0.
Proof. done. Qed.
Lemma zlen_cons {A} (x : A) l : zlen (x :: l) = 1 + zlen l.
Proof. unfold zlen; cbn; lia. Qed.
Lemma zlen_app {A} (l k : list A) : zlen (l ++ k) = zlen l + zlen k.
Proof. unfold zlen; rewrite length_app; lia. Qed.
Lemma zlen_nonneg {A} (l : list A) : 0 <= zlen l.
Proof. unfold zlen; lia. Qed.
Lemma zlen_zeros n : zlen (zeros n) = Z.max 0 n.
Proof. unfold zlen, zeros; rewrite length_replicate; lia. Qed.
Lemma zlen_ztake {A} n (l : list A) : zlen (ztake n l) = Z.max 0 (Z.min n (zlen l)).
Proof. unfold zlen, ztake; rewrite length_take; lia. Qed.
Lemma zlen_zdrop {A} n (l : list A) : zlen (zdrop n l) = Z.max 0 (zlen l - Z.max 0 n).
Proof. unfold zlen, zdrop; rewrite length_drop; lia. Qed.
Lemma zlen_slice {A} (l : list A) a b :
  0 <= a -> zlen (slice l a b) = Z.max 0 (Z.min (b - a) (zlen l - a)).
Proof. intros; unfold slice; rewrite zlen_ztake, zlen_zdrop; pose proof (zlen_nonneg l); lia. Qed.
Lemma zlen_ljust bs n : zlen (ljust bs n) = Z.max (zlen bs) n.
Proof. unfold ljust; rewrite zlen_app, zlen_zeros; lia. Qed.
Lemma zlen_map {A B} (f : A -> B) (l : list A) : zlen (map f l) = zlen l.
Proof. unfold zlen; rewrite length_map; lia. Qed.
Lemma zlen_0_nil {A} (l : list A) : zlen l = 0 -> l = [].
Proof. destruct l; [done|rewrite zlen_cons; pose proof (zlen_nonneg l); lia]. Qed.

Lemma ztake_all {A} n (l : list A) : zlen l <= n -> ztake n l = l.
Proof. unfold zlen, ztake; intros; apply take_ge; lia. Qed.
Lemma zdrop_all {A} n (l : list A) : zlen l <= n -> zdrop n l = [].
Proof. unfold zlen, zdrop; intros; apply drop_ge; lia. Qed.
Lemma zdrop_0 {A} (l : list A) : zdrop 0 l = l.
Proof. done. Qed.
Lemma ztake_0 {A} (l : list A) : ztake 0 l = [].
Proof. done. Qed.
Lemma ztake_neg {A} n (l : list A) : n <= 0 -> ztake n l = [].
Proof. intros; unfold ztake; replace (Z.to_nat n) with 0%nat by lia; done. Qed.
Lemma ztake_zdrop {A} n (l : list A) : ztake n l ++ zdrop n l = l.
Proof. apply take_drop. Qed.
Lemma ztake_app_le {A} n (l k : list A) : n <= zlen l -> ztake n (l ++ k) = ztake n l.
Proof. unfold zlen, ztake; intros; apply take_app_le; lia. Qed.
Lemma ztake_app_length {A} n (l k : list A) : n = zlen l -> ztake n (l ++ k) = l.
Proof. intros ->; unfold zlen, ztake; rewrite Nat2Z.id; apply take_app_length. Qed.
Lemma zdrop_app_length {A} n (l k : list A) : n = zlen l -> zdrop n (l ++ k) = k.
Proof. intros ->; unfold zlen, zdrop; rewrite Nat2Z.id; apply drop_app_length. Qed.
Lemma zdrop_zdrop {A} a b (l : list A) :
  0 <= a -> 0 <= b -> zdrop a (zdrop b l) = zdrop (a + b) l.
Proof. intros; unfold zdrop; rewrite drop_drop; f_equal; lia. Qed.
Lemma ztake_ztake {A} a b (l : list A) : ztake a (ztake b l) = ztake (Z.min a b) l.
Proof. unfold ztake; rewrite take_take; f_equal; lia. Qed.
Lemma ztake_split {A} a b (l : list A) :
  0 <= a -> 0 <= b -> ztake (a + b) l = ztake a l ++ ztake b (zdrop a l).
Proof.
  intros; unfold ztake, zdrop.
  replace (Z.to_nat (a + b)) with (Z.to_nat a + Z.to_nat b)%nat by lia.
  by rewrite take_take_drop.
Qed.

Lemma zdrop_app_le {A} n (l k : list A) : n <= zlen l -> zdrop n (l ++ k) = zdrop n l ++ k.
Proof. unfold zlen, zdrop; intros; apply drop_app_le; lia. Qed.

Lemma slice_app {A} (l : list A) a b c :
  0 <= a -> a <= b -> b <= c -> slice l a b ++ slice l b c = slice l a c.
Proof.
  intros; unfold slice.
  replace (c - a) with ((b - a) + (c - b)) by lia.
  rewrite ztake_split by lia. rewrite zdrop_zdrop by lia. by replace (b - a + a) with b by lia.
Qed.
Lemma slice_empty {A} (l : list A) a b : b <= a -> slice l a b = [].
Proof. intros; apply ztake_neg; lia. Qed.
Lemma slice_all {A} (l : list A) n : zlen l <= n -> slice l 0 n = l.
Proof. intros; unfold slice; rewrite zdrop_0, Z.sub_0_r; by apply ztake_all. Qed.

(** ** Machine integers: little- and big-endian fields *)

Fixpoint le_bytes (n : nat) (v : Z) : bytes :=
  match n with
  | O => []
  | S n => v mod 256 :: le_bytes n (v / 256)
  end.

Fixpoint le_int (bs : bytes) : Z :=
  match bs with
  | [] => 0
  | b :: bs => b + 256 * le_int bs
  end.

Lemma length_le_bytes n v : length (le_bytes n v) = n.
Proof. revert v; induction n; intros; cbn; auto. Qed.
Lemma is_bytes_le_bytes n v : is_bytes (le_bytes n v).
Proof.
  revert v; induction n; intros; constructor; [|apply IHn].
  apply Z.mod_pos_bound; lia.
Qed.
Lemma le_int_bound bs : is_bytes bs -> 0 <= le_int bs < 256 ^ zlen bs.
Proof.
  induction 1 as [|b bs Hb _ IH]; [vm_compute; split; [discriminate|done]|].
  cbn [le_int]; rewrite zlen_cons, Z.pow_add_r, Z.pow_1_r by (pose proof (zlen_nonneg bs); lia).
  unfold is_byte in Hb; lia.
Qed.
Lemma le_int_le_bytes n v : le_int (le_bytes n v) = v mod 256 ^ Z.of_nat n.
Proof.
  revert v; induction n as [|n IH]; intros v; [cbn; by rewrite Z.mod_1_r|].
  cbn [le_bytes le_int]; rewrite IH, Nat2Z.inj_succ, Z.pow_succ_r by lia.
  rewrite Z.rem_mul_r by (try apply Z.pow_pos_nonneg; lia). lia.
Qed.
Lemma le_bytes_le_int bs : is_bytes bs -> le_bytes (length bs) (le_int bs) = bs.
Proof.
  induction 1 as [|b bs Hb _ IH]; [done|]; cbn [le_int length le_bytes].
  unfold is_byte in Hb.
  rewrite (Z.mul_comm 256), Z_mod_plus, Z_div_plus, Z.mod_small, Z.div_small by lia.
  by rewrite Z.add_0_l, IH.
Qed.

(** The field codes of [struct] that the servers use; [Sg w] is a signed field
    of [w] bytes, [Un w] an unsigned one. *)
Inductive fmt := Un (w : nat) | Sg (w : nat).
Abbreviation fB := (Un 1).
Abbreviation fH := (Un 2).
Abbreviation fI := (Un 4).
Abbreviation fQ := (Un 8).
Abbreviation fi := (Sg 4).
Abbreviation fq := (Sg 8).

Definition fsize (f : fmt) : nat := match f with Un w | Sg w => w end.
Definition fmts_size (fs : list fmt) : nat := sum_list_with fsize fs.

(** The values a field accepts; [struct.pack] raises [struct.error] outside. *)
Definition fits (f : fmt) (v : Z) : bool :=
  match f with
  | Un w => (0 <=? v) && (v <? 256 ^ Z.of_nat w)
  | Sg w => (- (256 ^ Z.of_nat w / 2) <=? v) && (v <? 256 ^ Z.of_nat w / 2)
  end.

Definition to_signed (w : nat) (v : Z) : Z :=
  if v <? 256 ^ Z.of_nat w / 2 then v else v - 256 ^ Z.of_nat w.

Definition unpack1 (f : fmt) (bs : bytes) : Z :=
  match f with
  | Un _ => le_int bs
  | Sg w => to_signed w (le_int bs)
  end.

(** [struct.pack('<...', v1, ..., vn)]; [None] is [struct.error]. *)
Fixpoint pack (fvs : list (fmt * Z)) : option bytes :=
  match fvs with
  | [] => Some []
  | (f, v) :: fvs =>
      if fits f v then rest ← pack fvs; Some (le_bytes (fsize f) v ++ rest) else None
  end.

(** [struct.unpack('<...', bs)]: [None] ([struct.error]) unless the length is
    exactly the format's. *)
Fixpoint unpack (fs : list fmt) (bs : bytes) : option (list Z) :=
  match fs with
  | [] => match bs with [] => Some [] | _ => None end
  | f :: fs =>
      if Z.of_nat (fsize f) <=? zlen bs then
        rest ← unpack fs (drop (fsize f) bs);
        Some (unpack1 f (take (fsize f) bs) :: rest)
      else None
  end.

(** [struct.unpack_from('<...', bs, off)] *)
Definition unpack_from (fs : list fmt) (bs : bytes) (off : Z) : option (list Z) :=
  unpack fs (slice bs off (off + Z.of_nat (fmts_size fs))).

(** Big-endian fields ([struct.unpack('>I', ...)]). *)
Definition be_int (bs : bytes) : Z := le_int (rev bs).
Definition be_bytes (n : nat) (v : Z) : bytes := rev (le_bytes n v).

Lemma fmts_size_cons f fs : fmts_size (f :: fs) = (fsize f + fmts_size fs)%nat.
Proof. done. Qed.

Lemma length_pack fvs bs :
  pack fvs = Some bs -> length bs = fmts_size (map fst fvs).
Proof.
  revert bs; induction fvs as [|[f v] fvs IH]; intros bs; cbn; [intros [= <-]; done|].
  destruct (fits f v); [|done]. destruct (pack fvs) as [r|]; cbn; [|done].
  intros [= <-]. rewrite length_app, length_le_bytes, (IH r) by done. done.
Qed.

Lemma is_bytes_pack fvs bs : pack fvs = Some bs -> is_bytes bs.
Proof.
  revert bs; induction fvs as [|[f v] fvs IH]; intros bs; cbn; [intros [= <-]; constructor|].
  destruct (fits f v); [|done]. destruct (pack fvs) as [r|]; cbn; [|done].
  intros [= <-]. apply Forall_app; split; [apply is_bytes_le_bytes|by apply IH].
Qed.

Lemma unpack1_le_bytes f v : fits f v = true -> unpack1 f (le_bytes (fsize f) v) = v.
Proof.
  destruct f as [w|w]; unfold fits, unpack1, fsize;
    rewrite andb_true_iff, ?Z.leb_le, Z.ltb_lt; intros [??];
    rewrite le_int_le_bytes; [by rewrite Z.mod_small|].
  assert (0 < 256 ^ Z.of_nat w) by (apply Z.pow_pos_nonneg; lia).
  unfold to_signed. generalize dependent (256 ^ Z.of_nat w); intros m ???.
  destruct (Z.le_gt_cases 0 v).
  - rewrite Z.mod_small by divlia. destruct (Z.ltb_spec v (m / 2)); lia.
  - replace (v mod m) with (v + m).
    + destruct (Z.ltb_spec (v + m) (m / 2)); divlia.
    + replace v with ((v + m) + (-1) * m) at 2 by lia.
      rewrite Z_mod_plus_full, Z.mod_small; divlia.
Qed.

(** What [struct.pack] wrote, [struct.unpack] with the same format reads back. *)
Lemma unpack_pack fvs bs : pack fvs = Some bs -> unpack (map fst fvs) bs = Some (map snd fvs).
Proof.
  revert bs; induction fvs as [|[f v] fvs IH]; intros bs; cbn; [by intros [= <-]|].
  destruct (fits f v) eqn:Hf; [|done]. destruct (pack fvs) as [r|] eqn:Hr; cbn; [|done].
  intros [= <-].
  rewrite zlen_app, (proj2 (Z.leb_le _ _))
    by (unfold zlen; rewrite length_le_bytes; lia).
  rewrite drop_app_length', take_app_length' by (by rewrite length_le_bytes).
  rewrite (IH r eq_refl); cbn. by rewrite unpack1_le_bytes.
Qed.

Lemma unpack_length fs bs vs : unpack fs bs = Some vs -> length bs = fmts_size fs.
Proof.
  revert bs vs; induction fs as [|f fs IH]; intros bs vs; cbn [unpack].
  - destruct bs; [done|done].
  - destruct (Z.leb_spec (Z.of_nat (fsize f)) (zlen bs)) as [Hl|]; [|done].
    destruct (unpack fs _) as [r|] eqn:Hr; cbn; [|done]. intros _.
    apply IH in Hr. rewrite length_drop in Hr. unfold zlen in Hl.
    change (length bs = (fsize f + fmts_size fs)%nat). lia.
Qed.

Lemma unpack_total fs bs : length bs = fmts_size fs -> is_Some (unpack fs bs).
Proof.
  revert bs; induction fs as [|f fs IH]; intros bs; cbn [unpack].
  - destruct bs; [eauto|done].
  - rewrite fmts_size_cons; intros Hl.
    rewrite (proj2 (Z.leb_le _ _)) by (unfold zlen; lia).
    destruct (IH (drop (fsize f) bs)) as [r ->]; [rewrite length_drop; lia|cbn; eauto].
Qed.

Lemma unpack1_fits f bs :
  (0 < fsize f)%nat -> is_bytes bs -> length bs = fsize f -> fits f (unpack1 f bs) = true.
Proof.
  intros Hf Hb Hl. pose proof (le_int_bound bs Hb) as Hi. unfold zlen in Hi; rewrite Hl in Hi.
  destruct f as [w|w]; unfold fits, unpack1, fsize in *;
    rewrite andb_true_iff, Z.leb_le, Z.ltb_lt; [lia|].
  assert (0 < 256 ^ Z.of_nat w) by (apply Z.pow_pos_nonneg; lia).
  unfold to_signed. destruct (Z.ltb_spec (le_int bs) (256 ^ Z.of_nat w / 2)); [lia|].
  destruct w as [|w]; [cbn in Hf; lia|]. rewrite Nat2Z.inj_succ, Z.pow_succ_r in * by lia.
  divlia.
Qed.

(** Fields read from bytes hold values of their width. *)
Lemma unpack_fits fs bs vs :
  Forall (fun f => (0 < fsize f)%nat) fs -> is_bytes bs -> unpack fs bs = Some vs ->
  Forall2 (fun f v => fits f v = true) fs vs.
Proof.
  intros Hfs. revert bs vs. induction Hfs as [|f fs Hf _ IH]; intros bs vs Hb; cbn [unpack].
  - destruct bs; [by intros [= <-]|done].
  - destruct (Z.leb_spec (Z.of_nat (fsize f)) (zlen bs)) as [Hl|]; [|done].
    destruct (unpack fs _) as [r|] eqn:Hr; cbn; [|done]. intros [= <-]. constructor.
    + apply unpack1_fits; [done|by apply Forall_take|]. rewrite length_take. unfold zlen in Hl. lia.
    + eapply IH; [|exact Hr]. by apply Forall_drop.
Qed.

Lemma fits_nonneg w v : fits (Un w) v = true -> 0 <= v < 256 ^ Z.of_nat w.
Proof. unfold fits. rewrite andb_true_iff, Z.leb_le, Z.ltb_lt. lia. Qed.

Lemma unpack_from_app fvs bs rest :
  pack fvs = Some bs -> unpack_from (map fst fvs) (bs ++ rest) 0 = Some (map snd fvs).
Proof.
  intros H. unfold unpack_from, slice. rewrite zdrop_0, Z.add_0_l, Z.sub_0_r.
  rewrite ztake_app_length by (unfold zlen; by rewrite (length_pack _ _ H)).
  by apply unpack_pack.
Qed.

Lemma pack_single f v : fits f v = true -> pack [(f, v)] = Some (le_bytes (fsize f) v).
Proof. intros H. cbn. rewrite H. cbn. by rewrite app_nil_r. Qed.

Lemma fits_unsigned w v : 0 <= v < 256 ^ Z.of_nat w -> fits (Un w) v = true.
Proof. intros [??]. unfold fits. by rewrite (proj2 (Z.leb_le _ _)), (proj2 (Z.ltb_lt _ _)). Qed.

Lemma pack_cons f v fvs bs :
  fits f v = true -> pack fvs = Some bs -> pack ((f, v) :: fvs) = Some (le_bytes (fsize f) v ++ bs).
Proof. intros Hf Hp. cbn. by rewrite Hf, Hp. Qed.

(** Fields found behind a prefix *)
Lemma unpack_from_mid fvs bs pre rest off :
  off = zlen pre -> pack fvs = Some bs -> unpack_from (map fst fvs) (pre ++ bs ++ rest) off = Some (map snd fvs).
Proof.
  intros -> H. rewrite <- (unpack_from_app fvs bs rest H). unfold unpack_from, slice.
  by rewrite zdrop_app_length, Z.add_simpl_l, zdrop_0, Z.sub_0_r, Z.add_0_l.
Qed.

Lemma unpack_prefix_app fvs bs rest :
  pack fvs = Some bs -> unpack (map fst fvs) (ztake (Z.of_nat (fmts_size (map fst fvs))) (bs ++ rest)) = Some (map snd fvs).
Proof.
  intros H. rewrite ztake_app_length by (unfold zlen; by rewrite (length_pack _ _ H)).
  by apply unpack_pack.
Qed.

(** ** Bit fields *)

Lemma land_mask v k m : 0 <= k -> m = Z.ones k -> Z.land v m = v mod 2 ^ k.
Proof. intros ? ->. by rewrite Z.land_ones. Qed.

(** [a | (b << k)] when [a] fits below bit [k]. *)
Lemma lor_shiftl_add a b k : 0 <= k -> 0 <= a < 2 ^ k -> Z.lor a (Z.shiftl b k) = a + b * 2 ^ k.
Proof.
  intros Hk Ha. assert (Hz : Z.land a (Z.shiftl b k) = 0).
  { apply Z.bits_inj'; intros n Hn. rewrite Z.land_spec, Z.bits_0.
    destruct (Z.lt_ge_cases n k).
    - rewrite Z.shiftl_spec_low by lia. apply andb_false_r.
    - rewrite <- (Z.mod_small a (2 ^ k)) by lia. by rewrite Z.mod_pow2_bits_high by lia. }
  rewrite <- Z.lxor_lor, <- Z.add_nocarry_lxor by done. by rewrite Z.shiftl_mul_pow2.
Qed.

(** ** Python exceptions and the state-and-exception monad *)

(** The exceptions the code raises or catches by class.  [OSError e] carries
    [errno], which is [None] when the exception was built from a message alone
    ([IOError("...")]); [IOError] and [PermissionError] are the same class.
    [UnicodeError] is raised by encoding a name that is not Unicode; it is a subclass
    of [ValueError], kept apart because some handlers name it.  [InspectionLimit] and
    [ChdCueError] are subclasses of [ValueError] that no handler tells apart from it.
    [DirectLinkRefused] and [WindowsSetupError] are subclasses of [RuntimeError] that the direct link
    tells apart.  [RangeError] is the [_RangeError] of the HTTP server; [RpcError] is that of the pipe of
    the SMB2 server, and [NtStatus] stands for its [Smb2Error], [PathError] and [AuthError],
    with the status they carry to the wire.
    [Hang] is no exception: it marks a loop whose fuel ran out, and no handler
    catches it. *)
Inductive exn :=
  | OSError (errno : option Z)
  | ValueError
  | TypeError
  | IndexError
  | Hang
  | StructError
  | ImportError
  | OverflowError
  | KeyError
  | InterruptedError
  | RecursionError
  | AttributeError
  | UnicodeError
  | RangeError
  | AssertionError
  | MemoryError
  | RuntimeError
  | DirectLinkRefused
  | WindowsSetupError
  | RpcError
  | NtStatus (status : Z).

Inductive result (A : Type) :=
  | Ok (a : A)
  | Err (e : exn).
Arguments Ok {A} _.
Arguments Err {A} _.

#[export] Instance exn_eq_dec : EqDecision exn.
Proof. solve_decision. Defined.

#[export] Instance result_ret : MRet result := fun A a => Ok a.
#[export] Instance result_bind : MBind result := fun A B k m =>
  match m with Ok a => k a | Err e => Err e end.

(** [OSError] with a number, as system calls raise it *)
Definition oserror {A} (e : Z) : result A := Err (OSError (Some e)).

(** [l[i]] for [i >= 0] *)
Definition index_result {A} (l : list A) (i : Z) : result A :=
  match zlookup l i with Some a => Ok a | None => Err IndexError end.

Lemma Ok_inj {A} (x y : A) : Ok x = Ok y -> x = y.
Proof. by intros [= ->]. Qed.

(** [struct.error] from a failed [pack] or [unpack] *)
Definition struct_result {A} (o : option A) : result A :=
  match o with Some a => Ok a | None => Err StructError end.

(** Code that updates a state [S] and may raise; the state reached before an
    exception is kept, as in Python. *)
Definition M (S A : Type) : Type := S -> result A * S.

#[export] Instance M_ret S : MRet (M S) := fun A a s => (Ok a, s).
#[export] Instance M_bind S : MBind (M S) := fun A B k m s =>
  match m s with
  | (Ok a, s) => k a s
  | (Err e, s) => (Err e, s)
  end.

Section monad.
Context {S : Type}.
Definition mget {A} (f : S -> A) : M S A := fun s => (Ok (f s), s).
Definition mmod (f : S -> S) : M S unit := fun s => (Ok tt, f s).
Definition raise {A} (e : exn) : M S A := fun s => (Err e, s).
Definition lift {A} (r : result A) : M S A := fun s => (r, s).
(** [try: m except ...: h e] for the exceptions [h] answers *)
Definition mcatch {A} (m : M S A) (h : exn -> option (M S A)) : M S A := fun s =>
  match m s with
  | (Err e, s') => match h e with Some k => k s' | None => (Err e, s') end
  | r => r
  end.
Definition mwhen (b : bool) (m : M S unit) : M S unit := if b then m else mret tt.
End monad.

(** ** Record update *)

(** [r <| f := v |>] is [r] with field [f] set to [v]; a record takes part by an
    [Eta] instance that rebuilds it from its projections. *)
Class Eta (R : Type) := eta : R -> R.
#[global] Typeclasses Opaque Eta.
Class Setter {R T : Type} (proj : R -> T) := set_field : (T -> T) -> R -> R.
Arguments set_field {R T} proj {_} f r.

Ltac solve_setter :=
  match goal with
  | |- @Setter ?R ?T ?proj =>
    let i := constr:(_ : Eta R) in
    let e := eval red in i in
    let p := eval pattern proj in e in
    match p with ?f proj => exact (fun (g : T -> T) => f (fun x => g (proj x))) end
  end.
#[export] Hint Extern 0 (Setter _) => solve_setter : typeclass_instances.

Notation "r <| proj := v |>" := (set_field proj (fun _ => v) r)
  (at level 1, left associativity, format "r <| proj  :=  v |>").
Notation "r <| proj ::= f |>" := (set_field proj f r)
  (at level 1, left associativity, format "r <| proj  ::=  f |>").

(** ** Byte streams as functions of the offset *)

(** [l[i]], 0 outside *)
Definition znth (l : bytes) (i : Z) : Z := nth (Z.to_nat i) l 0.

(** The [n] bytes of stream [f] from offset [a]. *)
Definition stream (f : Z -> Z) (a n : Z) : bytes := map f (seqZ a n).

Lemma zlen_stream f a n : zlen (stream f a n) = Z.max 0 n.
Proof. unfold stream; rewrite zlen_map; unfold zlen; rewrite length_seqZ; lia. Qed.
Lemma stream_nonpos f a n : n <= 0 -> stream f a n = [].
Proof. intros; unfold stream. by rewrite seqZ_nil. Qed.
Lemma stream_app f a n m :
  0 <= n -> 0 <= m -> stream f a (n + m) = stream f a n ++ stream f (a + n) m.
Proof. intros; unfold stream. by rewrite seqZ_app, map_app. Qed.
Lemma slice_of_stream f a u i n : 0 <= i -> 0 <= n -> i + n <= u -> slice (stream f a u) i (i + n) = stream f (a + i) n.
Proof.
  intros Hi Hn Hu. replace u with (i + (n + (u - (i + n)))) by lia. rewrite !stream_app by lia.
  unfold slice. rewrite zdrop_app_length by (rewrite zlen_stream; lia).
  rewrite ztake_app_length by (rewrite zlen_stream; lia). done.
Qed.
Lemma stream_ext f g a n :
  (forall i, a <= i < a + n -> f i = g i) -> stream f a n = stream g a n.
Proof.
  intros H. unfold stream. apply map_ext_in. intros i Hi%list_elem_of_In%elem_of_seqZ. by apply H.
Qed.
Lemma stream_shift f a b n :
  stream (fun i => f (i + b)) a n = stream f (a + b) n.
Proof.
  unfold stream. rewrite <- (Z.add_comm b), <- fmap_add_seqZ.
  change (Z.add b <$> seqZ a n) with (map (Z.add b) (seqZ a n)).
  rewrite map_map. apply map_ext; intros; f_equal; lia.
Qed.
Lemma slice_stream (l : bytes) a n :
  0 <= a -> a + n <= zlen l -> slice l a (a + n) = stream (znth l) a n.
Proof.
  intros Ha Hn. destruct (Z.le_gt_cases n 0).
  { by rewrite stream_nonpos, slice_empty by lia. }
  unfold slice. replace (a + n - a) with n by lia.
  apply list_eq; intros i. unfold stream, ztake, zdrop.
  change (map (znth l) (seqZ a n)) with (znth l <$> seqZ a n).
  rewrite list_lookup_fmap. destruct (decide (i < Z.to_nat n)%nat) as [Hi|Hi].
  - rewrite lookup_take_lt, lookup_drop by lia.
    rewrite (proj2 (lookup_seqZ a n i (a + Z.of_nat i))) by lia. cbn. unfold znth.
    replace (Z.to_nat (a + Z.of_nat i)) with (Z.to_nat a + i)%nat by lia.
    destruct (nth_lookup_or_length l (Z.to_nat a + i) 0) as [->|]; [done|].
    unfold zlen in Hn. lia.
  - rewrite lookup_take_ge by lia. rewrite lookup_seqZ_ge by lia. done.
Qed.

Lemma slice_slice0 {A} (l : list A) n a b : 0 <= a -> b <= n -> slice (slice l 0 n) a b = slice l a b.
Proof.
  intros Ha Hb. unfold slice, ztake, zdrop. rewrite drop_0, skipn_firstn_comm, take_take.
  f_equal. lia.
Qed.

Lemma slice_of_slice {A} (l : list A) c m a n :
  0 <= c <= a -> 0 <= n -> a + n <= c + m -> slice (slice l c (c + m)) (a - c) (a - c + n) = slice l a (a + n).
Proof.
  intros Hc Hn Hm. unfold slice, ztake, zdrop.
  rewrite skipn_firstn_comm, take_take, drop_drop. f_equal; [lia|]. f_equal. lia.
Qed.

Lemma is_bytes_slice l a b : is_bytes l -> is_bytes (slice l a b).
Proof. intros H. unfold slice, ztake, zdrop. by apply Forall_take, Forall_drop. Qed.

Lemma le_int_nonneg bs : is_bytes bs -> 0 <= le_int bs.
Proof. intros H. by apply le_int_bound. Qed.

Lemma be_int_nonneg bs : is_bytes bs -> 0 <= be_int bs.
Proof. intros H. apply le_int_nonneg. by apply Forall_rev. Qed.

Lemma znth_app l k i : 0 <= i -> znth (l ++ k) i = if i <? zlen l then znth l i else znth k (i - zlen l).
Proof.
  intros. unfold znth, zlen. destruct (Z.ltb_spec i (Z.of_nat (length l))).
  - apply app_nth1. lia.
  - rewrite app_nth2 by lia. f_equal. lia.
Qed.

Lemma znth_zdrop l n i : 0 <= n -> 0 <= i -> znth (zdrop n l) i = znth l (n + i).
Proof.
  intros. unfold znth, zdrop. rewrite nth_skipn. f_equal. lia.
Qed.

Lemma znth_overflow l i : zlen l <= i -> znth l i = 0.
Proof. intros. unfold znth. apply nth_overflow. unfold zlen in *. lia. Qed.

Lemma znth_ztake l n i : 0 <= i -> i < n -> znth (ztake n l) i = znth l i.
Proof.
  intros. unfold znth, ztake. destruct (Nat.lt_ge_cases (Z.to_nat i) (length l)).
  - rewrite <- (take_drop (Z.to_nat n) l) at 2. rewrite app_nth1; [done|]. rewrite length_take. lia.
  - rewrite !nth_overflow; [done|lia|rewrite length_take; lia].
Qed.

Lemma znth_zeros n i : znth (zeros n) i = 0.
Proof.
  unfold znth, zeros. rewrite nth_lookup.
  destruct (replicate _ 0 !! _) eqn:E; [|done]. by apply lookup_replicate in E as [-> _].
Qed.

(** ** Invariants of stateful code *)

(** A computation that keeps a property of the state, whether or not it raises. *)
Definition keeps {S A} (P : S -> Prop) (m : M S A) : Prop :=
  forall s r s', P s -> m s = (r, s') -> P s'.

Section keeps.
Context {S : Type} (P : S -> Prop).

Lemma keeps_ret {A} (a : A) : keeps P (mret a).
Proof. by intros s r s' H [= _ <-]. Qed.
Lemma keeps_lift {A} (x : result A) : keeps P (lift x).
Proof. by intros s r s' H [= _ <-]. Qed.
Lemma keeps_raise {A} e : keeps (A := A) P (raise e).
Proof. by intros s r s' H [= _ <-]. Qed.
Lemma keeps_mget {A} (f : S -> A) : keeps P (mget f).
Proof. by intros s r s' H [= _ <-]. Qed.
Lemma keeps_mmod f : (forall s, P s -> P (f s)) -> keeps P (mmod f).
Proof. intros Hf s r s' H [= _ <-]. auto. Qed.
Lemma keeps_bind {A B} (m : M S A) (k : A -> M S B) :
  keeps P m -> (forall a, keeps P (k a)) -> keeps P (m ≫= k).
Proof.
  intros Hm Hk s r s' H. unfold mbind, M_bind.
  destruct (m s) as [[a|e] s1] eqn:E; intros Hr.
  - eapply Hk; [|exact Hr]. eauto.
  - injection Hr as <- <-. eauto.
Qed.
Lemma keeps_mwhen b m : keeps P m -> keeps P (mwhen b m).
Proof. intros Hm. destruct b; [done|apply keeps_ret]. Qed.
Lemma keeps_mcatch {A} (m : M S A) h :
  keeps P m -> (forall e k, h e = Some k -> keeps P k) -> keeps P (mcatch m h).
Proof.
  intros Hm Hh s r s' H. unfold mcatch. destruct (m s) as [[a|e] s1] eqn:E.
  - intros [= <- <-]. eauto.
  - destruct (h e) as [k|] eqn:Ek; [|intros [= <- <-]; eauto]. intros Hr.
    exact (Hh e k Ek s1 r s' (Hm _ _ _ H E) Hr).
Qed.
Lemma keeps_lift_bind {A B} (x : result A) (k : A -> M S B) :
  (forall a, x = Ok a -> keeps P (k a)) -> keeps P (lift x ≫= k).
Proof.
  intros Hk s r s' H. unfold mbind, M_bind, lift. destruct x as [a|e].
  - by apply Hk.
  - by intros [= _ <-].
Qed.
(** Once [f] has established the stronger [Q], what follows may rely on it. *)
Lemma keeps_stage {B} (Q : S -> Prop) f (k : unit -> M S B) :
  (forall s, P s -> Q (f s)) -> (forall s, Q s -> P s) -> keeps Q (k tt) -> keeps P (mmod f ≫= k).
Proof. intros Hf HQ Hk s r s' H Hr. eapply HQ, Hk; [by apply Hf|exact Hr]. Qed.
End keeps.

Create HintDb keeps discriminated.
#[export] Hint Constants Opaque : keeps.
#[export] Hint Resolve keeps_ret keeps_lift keeps_raise keeps_mget keeps_bind keeps_mwhen : keeps.

(** Splits the [match] on a [result] or [option] bind in a hypothesis that says a
    computation succeeded. *)
Ltac bind_inv H :=
  match type of H with
  | context [mbind _ ?m] =>
      let E := fresh "E" in
      destruct m eqn:E; cbn [mbind result_bind option_bind] in H; [|discriminate H]
  end.

(** Decides the outermost [if] of a hypothesis, discarding the impossible branch. *)
Ltac if_inv H :=
  match type of H with
  | (if ?b then _ else _) = _ =>
      let E := fresh "E" in destruct b eqn:E; try discriminate H
  end.
