(* ===== verification/Triples.v ===== *)
(** * Invariants of code in [M]

    [holds I Q m]: from a state where [I] holds [m] comes to one where it does, whether it
    returns or raises, and what it returns satisfies [Q].  Where nothing is to be said of the
    result, [Prelude.keeps] is enough.  [stays] says the same of code that acts on a host by
    listed operations. *)

From stdpp Require Import relations.
From S2P Require Import Prelude.

Section holds.
Context {S : Type} (I : S -> Prop).

Definition holds {A} (Q : A -> Prop) (m : M S A) : Prop := forall w,
  I w -> I (snd (m w)) /\ forall a, fst (m w) = Ok a -> Q a.

Lemma holds_weaken {A} (P Q : A -> Prop) (m : M S A) : holds P m -> (forall a, P a -> Q a) -> holds Q m.
Proof. intros Hm HPQ w Hw. destruct (Hm w Hw). auto. Qed.

Lemma holds_true {A} (P : A -> Prop) (m : M S A) : holds P m -> holds (fun _ => True) m.
Proof. intros Hm. by eapply holds_weaken. Qed.

Lemma holds_ret {A} (Q : A -> Prop) (a : A) : Q a -> holds Q (mret a).
Proof. intros Ha w Hw. split; [done|]. by intros ? [= <-]. Qed.

Lemma holds_raise {A} (Q : A -> Prop) e : holds Q (raise e).
Proof. intros w Hw. by split. Qed.

Lemma holds_lift {A} (r : result A) : holds (fun a => r = Ok a) (lift r).
Proof. intros w Hw. by split. Qed.

Lemma holds_mget {A} (f : S -> A) : holds (fun a => exists w, I w /\ a = f w) (mget f).
Proof. intros w Hw. split; [done|]. intros ? [= <-]. by exists w. Qed.

Lemma holds_mmod f : (forall w, I w -> I (f w)) -> holds (fun _ => True) (mmod f).
Proof. intros Hf w Hw. split; [by apply Hf|done]. Qed.

Lemma holds_bind {A B} (P : A -> Prop) (Q : B -> Prop) (m : M S A) (k : A -> M S B) :
  holds P m -> (forall a, P a -> holds Q (k a)) -> holds Q (m ≫= k).
Proof.
  intros Hm Hk w Hw. destruct (Hm w Hw) as (K1 & K2). unfold mbind, M_bind.
  destruct (m w) as [[a|e] w1]; cbn in *; [|done]. by apply (Hk a (K2 a eq_refl) w1).
Qed.

Lemma holds_mcatch {A} (Q : A -> Prop) (m : M S A) h :
  holds Q m -> (forall e k, h e = Some k -> holds Q k) -> holds Q (mcatch m h).
Proof.
  intros Hm Hh w Hw. destruct (Hm w Hw) as (K1 & K2). unfold mcatch.
  destruct (m w) as [[a|e] w1]; cbn in *; [done|]. destruct (h e) as [k|] eqn:Ek; [|done]. by apply (Hh e k Ek w1).
Qed.

Lemma holds_when (b : bool) (m : M S unit) :
  (b = true -> holds (fun _ => True) m) -> holds (fun _ => True) (mwhen b m).
Proof. destruct b; [auto|]. intros _. by apply holds_ret. Qed.
End holds.

(** ** Runs that act on a host

    [stays Q m]: from a state that is [ok] the code comes to one that is, by operations of
    [touch] on the host, whether it returns or raises, and what it returns satisfies [Q]. *)

Section runs.
Context {W Os : Type} (host : W -> Os) (ok : W -> Prop) (touch : relation Os).

Definition reached (o : Os) (w : W) : Prop := ok w /\ rtc touch o (host w).

Definition stays {A} (Q : A -> Prop) (m : M W A) : Prop := forall o, holds (reached o) Q m.

Lemma stays_iff {A} (Q : A -> Prop) (m : M W A) : stays Q m <-> forall w,
  ok w -> ok (snd (m w)) /\ rtc touch (host w) (host (snd (m w))) /\ forall a, fst (m w) = Ok a -> Q a.
Proof.
  split.
  - intros Hm w Hw. destruct (Hm (host w) w) as [[K1 K2] K3]; [by split|done].
  - intros Hm o w [Hw Ho]. destruct (Hm w Hw) as (K1 & K2 & K3). split; [|done]. split; [done|by etrans].
Qed.

Lemma stays_weaken {A} (P Q : A -> Prop) (m : M W A) : stays P m -> (forall a, P a -> Q a) -> stays Q m.
Proof. intros Hm HPQ o. by eapply holds_weaken. Qed.

Lemma stays_sound {A} (P : A -> Prop) (m : M W A) : stays P m -> stays (fun _ => True) m.
Proof. intros Hm. by eapply stays_weaken. Qed.

Lemma stays_ret {A} (Q : A -> Prop) (a : A) : Q a -> stays Q (mret a).
Proof. intros Ha o. by apply holds_ret. Qed.

Lemma stays_raise {A} (Q : A -> Prop) e : stays Q (raise e : M W A).
Proof. intros o. apply holds_raise. Qed.

Lemma stays_lift {A} (r : result A) : stays (fun a => r = Ok a) (lift r).
Proof. intros o. apply holds_lift. Qed.

Lemma stays_mget {A} (f : W -> A) : stays (fun _ => True) (mget f).
Proof. intros o. eapply holds_true, holds_mget. Qed.

Lemma stays_mmod f : (forall w, ok w -> ok (f w)) -> (forall w, host (f w) = host w) -> stays (fun _ => True) (mmod f).
Proof. intros Hf Hh. apply stays_iff. intros w Hw. cbn. rewrite Hh. split_and!; [by apply Hf|apply rtc_refl|done]. Qed.

Lemma stays_bind {A B} (P : A -> Prop) (Q : B -> Prop) (m : M W A) (k : A -> M W B) :
  stays P m -> (forall a, P a -> stays Q (k a)) -> stays Q (m ≫= k).
Proof. intros Hm Hk o. eapply holds_bind; [apply Hm|]. intros a Ha. by apply Hk. Qed.

Lemma stays_mcatch {A} (Q : A -> Prop) (m : M W A) h :
  stays Q m -> (forall e k, h e = Some k -> stays Q k) -> stays Q (mcatch m h).
Proof. intros Hm Hh o. apply holds_mcatch; [apply Hm|]. intros e k E. by eapply Hh. Qed.

Lemma stays_when (b : bool) (m : M W unit) : (b = true -> stays (fun _ => True) m) -> stays (fun _ => True) (mwhen b m).
Proof. intros Hm o. apply holds_when. intros E. by apply Hm. Qed.
End runs.
Arguments stays_iff {W Os host ok touch A}.
Arguments stays_weaken {W Os host ok touch A}.
Arguments stays_sound {W Os host ok touch A}.
Arguments stays_ret {W Os host ok touch A}.
Arguments stays_raise {W Os host ok touch A}.
Arguments stays_bind {W Os host ok touch A B}.
Arguments stays_mcatch {W Os host ok touch A}.
Arguments stays_when {W Os host ok touch}.
