(* ===== verification/Tables.v ===== *)
(** * Dictionaries by number

    The dictionaries of a connection ([conn.trees], [conn.handles], [conn.files],
    [conn.searches]) as association lists in the order of insertion: lookup, [d.pop(k, None)],
    a change of a value in place, and [d[k] = a]. *)

From S2P Require Import Prelude.

Fixpoint alookup {A} (k : Z) (l : list (Z * A)) : option A :=
  match l with
  | [] => None
  | (j, a) :: l => if j =? k then Some a else alookup k l
  end.

Definition adelete {A} (k : Z) (l : list (Z * A)) : list (Z * A) := List.filter (fun ja => negb (fst ja =? k)) l.

Definition aupdate {A} (k : Z) (f : A -> A) (l : list (Z * A)) : list (Z * A) :=
  map (fun ja => if fst ja =? k then (fst ja, f (snd ja)) else ja) l.

(** [d[k] = a]: a key that is there keeps its place. *)
Definition aset {A} (k : Z) (a : A) (l : list (Z * A)) : list (Z * A) :=
  match alookup k l with
  | Some _ => aupdate k (fun _ => a) l
  | None => l ++ [(k, a)]
  end.

Lemma alookup_in {A} k (l : list (Z * A)) a : alookup k l = Some a -> (k, a) ∈ l.
Proof.
  induction l as [|[j b] l IH]; [done|]. cbn. destruct (Z.eqb_spec j k) as [->|]; [intros [= ->]; by left|right; auto].
Qed.

Lemma alookup_aupdate {A} k (f : A -> A) l : alookup k (aupdate k f l) = f <$> alookup k l.
Proof.
  induction l as [|[j a] l IH]; [done|]. cbn. destruct (Z.eqb_spec j k) as [->|Hne]; cbn; [by rewrite Z.eqb_refl|].
  by rewrite (proj2 (Z.eqb_neq j k)).
Qed.

Lemma aupdate_twice {A} k (f g : A -> A) l : aupdate k f (aupdate k g l) = aupdate k (fun a => f (g a)) l.
Proof.
  unfold aupdate. rewrite map_map. apply map_ext. intros [j a]. cbn. destruct (j =? k) eqn:E; cbn; by rewrite E.
Qed.

Lemma alookup_app_none {A} k (l m : list (Z * A)) : alookup k l = None -> alookup k (l ++ m) = alookup k m.
Proof. induction l as [|[j a] l IH]; [done|]. cbn. destruct (j =? k); [done|auto]. Qed.

Lemma alookup_aset {A} k (a : A) l : alookup k (aset k a l) = Some a.
Proof.
  unfold aset. destruct (alookup k l) as [b|] eqn:E; [by rewrite alookup_aupdate, E|].
  rewrite alookup_app_none by done. cbn. by rewrite Z.eqb_refl.
Qed.

Lemma alookup_aset_ne {A} j k (a : A) l : j <> k -> alookup j (aset k a l) = alookup j l.
Proof.
  intros Hne. unfold aset. destruct (alookup k l) eqn:E.
  - clear E. induction l as [|[i b] l IH]; [done|]. cbn [aupdate map fst snd]. fold (aupdate k (fun _ => a) l).
    destruct (Z.eqb_spec i k) as [->|]; cbn [alookup]; [|by rewrite IH]. by rewrite (proj2 (Z.eqb_neq k j)), IH by done.
  - clear E. induction l as [|[i b] l IH]; cbn; [by rewrite (proj2 (Z.eqb_neq k j)) by done|by rewrite IH].
Qed.

Lemma alookup_adelete_ne {A} j k (l : list (Z * A)) : j <> k -> alookup j (adelete k l) = alookup j l.
Proof.
  intros Hne. induction l as [|[i b] l IH]; [done|]. cbn [adelete List.filter fst]. fold (adelete k l).
  destruct (Z.eqb_spec i k) as [->|]; cbn [negb alookup]; [|by rewrite IH]. by rewrite (proj2 (Z.eqb_neq k j)) by done.
Qed.

(** ** Invariants of all the values *)

Lemma Forall_adelete {A} (P : Z * A -> Prop) k l : Forall P l -> Forall P (adelete k l).
Proof.
  intros Hl. apply Forall_forall. intros ja [Hin%list_elem_of_In _]%list_elem_of_In%filter_In. by apply (proj1 (Forall_forall _ _) Hl).
Qed.

Lemma Forall_aset {A} (P : A -> Prop) k a l :
  P a -> Forall (fun ja => P (snd ja)) l -> Forall (fun ja : Z * A => P (snd ja)) (aset k a l).
Proof.
  intros Ha Hl. unfold aset. destruct (alookup k l).
  - apply Forall_map. eapply Forall_impl; [exact Hl|]. intros [j b] Hb. cbn. by destruct (j =? k).
  - apply Forall_app. split; [done|]. apply Forall_cons. split; [done|apply Forall_nil_2].
Qed.

Lemma Forall_alookup {A} (P : A -> Prop) k l a : Forall (fun ja : Z * A => P (snd ja)) l -> alookup k l = Some a -> P a.
Proof. intros Hl E%alookup_in. exact (proj1 (Forall_forall _ _) Hl _ E). Qed.
