(* ===== verification/PyStr.v ===== *)
(** * Python strings and POSIX paths

    Names and paths reach the servers as UTF-8 bytes and are handed to the
    operating system as such; the model keeps a Python [str] as the byte list of
    its UTF-8 encoding, so a literal is [lit "..."].  Splitting on ['/'], prefix
    and suffix tests and joins commute with the encoding.  [lower] folds the
    ASCII letters only; it is used to compare extensions made of ASCII letters,
    where no other code point folds to one of the letters compared
    ([.zso .ziso .cso .ciso .chd .cue .bin .iso]).

    The second half models the functions of [os.path] (POSIX flavour) the code
    calls: [join], [split], [splitext], [normpath], [abspath], [relpath]. *)

From Stdlib Require Import Ascii.
From S2P Require Import Prelude.

(** ** Strings *)

Abbreviation str := (list Z).

Definition lit (s : String.string) : str :=
  map (fun a => Z.of_nat (nat_of_ascii a)) (String.list_ascii_of_string s).

#[global] Arguments lit : simpl never.

Definition SLASH : Z := 47.
Definition BACKSLASH : Z := 92.
Definition DOT : Z := 46.
Definition DOTDOT : str := [DOT; DOT].

Definition lower1 (c : Z) : Z := if (65 <=? c) && (c <=? 90) then c + 32 else c.
(** [s.lower()], on ASCII letters *)
Definition lower (s : str) : str := map lower1 s.

Fixpoint startswith (s p : str) : bool :=
  match p, s with
  | [], _ => true
  | a :: p, b :: s => (a =? b) && startswith s p
  | _ :: _, [] => false
  end.
Definition endswith (s p : str) : bool := startswith (rev s) (rev p).

(** [s.replace(a, b)] for one-character strings *)
Definition replace_char (a b : Z) (s : str) : str := map (fun c => if c =? a then b else c) s.

(** [s.split(sep)] for a one-character separator; never the empty list *)
Fixpoint split_on (sep : Z) (s : str) : list str :=
  match s with
  | [] => [[]]
  | c :: s =>
      if c =? sep then [] :: split_on sep s
      else match split_on sep s with
           | w :: ws => (c :: w) :: ws
           | [] => [[c]]
           end
  end.

(** [sep.join(ws)] *)
Fixpoint join_with (sep : Z) (ws : list str) : str :=
  match ws with
  | [] => []
  | [w] => w
  | w :: ws => w ++ sep :: join_with sep ws
  end.

(** [s.rfind(c)]: the last index, or -1 *)
Fixpoint rfind_from (c : Z) (s : str) (i : Z) (best : Z) : Z :=
  match s with
  | [] => best
  | d :: s => rfind_from c s (i + 1) (if d =? c then i else best)
  end.
Definition rfind (c : Z) (s : str) : Z := rfind_from c s 0 (-1).

(** [s.partition(sep)] without the separator itself *)
Fixpoint partition_on (sep : Z) (s : str) : str * str :=
  match s with
  | [] => ([], [])
  | c :: s => if c =? sep then ([], s) else
      let '(a, b) := partition_on sep s in (c :: a, b)
  end.

(** [while s.startswith('/') or s.startswith('\\'): s = s[1:]] *)
Fixpoint strip_leading (P : Z -> bool) (s : str) : str :=
  match s with
  | [] => []
  | c :: t => if P c then strip_leading P t else s
  end.

Definition rstrip (c : Z) (s : str) : str := rev (strip_leading (Z.eqb c) (rev s)).

Definition str_eqb (a b : str) : bool := bool_decide (a = b).

#[global] Arguments str_eqb : simpl never.

(** [payload.split(b'\x00')[0]] *)
Definition before_nul (bs : bytes) : bytes := fst (partition_on 0 bs).

(** *** UTF-8 decoding with [errors='replace'] *)

Definition REPLACEMENT : str := [239; 191; 189].

(** The number of continuation bytes a leading byte announces and the range its
    first continuation byte must lie in (Unicode table 3-7); [None] for a byte
    that cannot start a sequence. *)
Definition utf8_lead (b : Z) : option (nat * Z * Z) :=
  if (194 <=? b) && (b <=? 223) then Some (1%nat, 128, 191)
  else if b =? 224 then Some (2%nat, 160, 191)
  else if b =? 237 then Some (2%nat, 128, 159)
  else if (225 <=? b) && (b <=? 239) then Some (2%nat, 128, 191)
  else if b =? 240 then Some (3%nat, 144, 191)
  else if (241 <=? b) && (b <=? 243) then Some (3%nat, 128, 191)
  else if b =? 244 then Some (3%nat, 128, 143)
  else None.

(** Consumes up to [n] continuation bytes, the first in [lo, hi] and the others
    in [128, 191]; returns those consumed and whether all [n] were there. *)
Fixpoint utf8_tail (n : nat) (lo hi : Z) (bs : bytes) : bytes * bool :=
  match n, bs with
  | O, _ => ([], true)
  | S n, b :: bs =>
      if (lo <=? b) && (b <=? hi) then
        let '(t, ok) := utf8_tail n 128 191 bs in (b :: t, ok)
      else ([], false)
  | S _, [] => ([], false)
  end.

(** [bs.decode('utf-8', errors='replace')], as the UTF-8 bytes of the result:
    every maximal ill-formed prefix becomes U+FFFD. *)
Fixpoint utf8_replace_fuel (fuel : nat) (bs : bytes) : str :=
  match fuel, bs with
  | O, _ | _, [] => []
  | S fuel, b :: bs =>
      if b <? 128 then b :: utf8_replace_fuel fuel bs
      else match utf8_lead b with
           | None => REPLACEMENT ++ utf8_replace_fuel fuel bs
           | Some (n, lo, hi) =>
               let '(t, ok) := utf8_tail n lo hi bs in
               (if ok then b :: t else REPLACEMENT) ++
               utf8_replace_fuel fuel (drop (length t) bs)
           end
  end.
Definition utf8_replace (bs : bytes) : str := utf8_replace_fuel (length bs) bs.

(** ** [os.path] *)

Definition isabs (p : str) : bool := startswith p [SLASH].

(** [posixpath.join(a, b)] *)
Definition path_join (a b : str) : str :=
  if isabs b then b
  else match a with
       | [] => b
       | _ => if endswith a [SLASH] then a ++ b else a ++ SLASH :: b
       end.

(** [posixpath.split(p)] *)
Definition path_split (p : str) : str * str :=
  let i := rfind SLASH p + 1 in
  let head := ztake i p in
  let tail := zdrop i p in
  if forallb (Z.eqb SLASH) head then (head, tail) else (rstrip SLASH head, tail).
Definition dirname (p : str) : str := fst (path_split p).
Definition basename (p : str) : str := snd (path_split p).

(** [os.path.splitext(p)]: the last dot of the last component splits, unless only
    dots precede it there. *)
Definition splitext (p : str) : str * str :=
  let sep := rfind SLASH p in
  let dot := rfind DOT p in
  if (sep <? dot) && negb (forallb (Z.eqb DOT) (slice p (sep + 1) dot))
  then (ztake dot p, zdrop dot p) else (p, []).

(** One step of the component loop of [posixpath.normpath]; [comps] is
    [new_comps] reversed. *)
Definition norm_step (abs : bool) (comps : list str) (c : str) : list str :=
  if str_eqb c [] || str_eqb c [DOT] then comps
  else if negb (str_eqb c [DOT; DOT]) then c :: comps
  else match comps with
       | [] => if abs then [] else [c]
       | d :: rest => if str_eqb d [DOT; DOT] then c :: comps else rest
       end.

Definition norm_comps (abs : bool) (cs : list str) : list str :=
  rev (foldl (norm_step abs) [] cs).

Definition normpath (p : str) : str :=
  let slashes : str :=
    if startswith p [SLASH; SLASH] && negb (startswith p [SLASH; SLASH; SLASH])
    then [SLASH; SLASH] else if isabs p then [SLASH] else [] in
  match p with
  | [] => [DOT]
  | _ =>
      match slashes ++ join_with SLASH (norm_comps (isabs p) (split_on SLASH p)) with
      | [] => [DOT]
      | q => q
      end
  end.

Definition abspath (cwd p : str) : str :=
  normpath (if isabs p then p else path_join cwd p).

Fixpoint common_prefix_len (a b : list str) : nat :=
  match a, b with
  | x :: a, y :: b => if str_eqb x y then S (common_prefix_len a b) else O
  | _, _ => O
  end.

Definition nonempty (c : str) : bool := negb (str_eqb c []).

(** [os.path.relpath(path, start)] *)
Definition relpath (cwd p start : str) : str :=
  let sl := List.filter nonempty (split_on SLASH (abspath cwd start)) in
  let pl := List.filter nonempty (split_on SLASH (abspath cwd p)) in
  let i := common_prefix_len sl pl in
  match replicate (length sl - i) [DOT; DOT] ++ drop i pl with
  | [] => [DOT]
  | rel => join_with SLASH rel
  end.

(** ** Lemmas *)

Lemma startswith_app s p : startswith (p ++ s) p = true.
Proof. induction p as [|a p IH]; cbn; [by destruct s|]. by rewrite Z.eqb_refl, IH. Qed.

Lemma startswith_true s p : startswith s p = true -> exists t, s = p ++ t.
Proof.
  revert s; induction p as [|a p IH]; intros s; cbn; [by exists s|].
  destruct s as [|b s]; cbn; [done|]. rewrite andb_true_iff, Z.eqb_eq.
  intros [-> [t ->]%IH]. by exists t.
Qed.

Lemma split_on_ne sep s : split_on sep s <> [].
Proof.
  destruct s as [|c s]; cbn; [done|]. destruct (c =? sep); [done|].
  by destruct (split_on sep s).
Qed.

Lemma join_split sep s : join_with sep (split_on sep s) = s.
Proof.
  induction s as [|c s IH]; [done|]. cbn [split_on].
  pose proof (split_on_ne sep s).
  destruct (Z.eqb_spec c sep) as [->|]; destruct (split_on sep s) as [|w ws]; try done; cbn [join_with].
  - cbn [join_with] in IH. by rewrite IH.
  - destruct ws; cbn [join_with app] in *; by rewrite <- IH.
Qed.

Lemma split_on_no_sep sep s : Forall (fun w => sep ∉ w) (split_on sep s).
Proof.
  induction s as [|c s IH]; cbn [split_on].
  - constructor; [by intros ?%elem_of_nil|done].
  - pose proof (split_on_ne sep s). destruct (Z.eqb_spec c sep) as [->|Hne].
    + constructor; [by intros ?%elem_of_nil|done].
    + destruct (split_on sep s) as [|w ws]; [done|].
      destruct (Forall_cons_1 _ _ _ IH) as [Hw Hws]. constructor; [|done].
      by apply not_elem_of_cons.
Qed.

Lemma split_on_nosep sep s : sep ∉ s -> split_on sep s = [s].
Proof.
  induction s as [|c s IH]; [done|]. intros [Hc Hn]%not_elem_of_cons; cbn [split_on].
  destruct (Z.eqb_spec c sep) as [->|]; [done|]. by rewrite IH.
Qed.

Lemma split_on_app sep w s : sep ∉ w -> split_on sep (w ++ sep :: s) = w :: split_on sep s.
Proof.
  induction w as [|c w IH]; intros Hn; cbn [app split_on].
  - by rewrite Z.eqb_refl.
  - apply not_elem_of_cons in Hn as [Hc Hn].
    destruct (Z.eqb_spec c sep) as [->|]; [done|]. by rewrite IH.
Qed.

Lemma split_join sep ws :
  ws <> [] -> Forall (fun w => sep ∉ w) ws -> split_on sep (join_with sep ws) = ws.
Proof.
  induction ws as [|w [|v ws] IH]; [done|..]; intros _ Hf.
  - apply split_on_nosep. by inversion Hf.
  - destruct (Forall_cons_1 _ _ _ Hf) as [Hw Hf1].
    cbn [join_with]. rewrite split_on_app by done. f_equal. by apply IH.
Qed.

(** A well-formed name is decoded to itself: on ASCII bytes the replacing decoder
    is the identity. *)
Lemma utf8_replace_ascii bs : Forall (fun b => 0 <= b < 128) bs -> utf8_replace bs = bs.
Proof.
  unfold utf8_replace. induction 1 as [|b bs Hb _ IH]; [done|].
  cbn. rewrite (proj2 (Z.ltb_lt _ _)) by lia. by rewrite IH.
Qed.

Example splitext_cso_iso : splitext (lit "/g/DVD/Game.cso.iso") = (lit "/g/DVD/Game.cso", lit ".iso").
Proof. reflexivity. Qed.
Example splitext_hidden : splitext (lit "/g/.hidden") = (lit "/g/.hidden", []).
Proof. reflexivity. Qed.
Example normpath_ex : normpath (lit "/a/./b/../c//d/..") = lit "/a/c".
Proof. reflexivity. Qed.
Example relpath_ex : relpath (lit "/") (lit "/srv/ps2/DVD/x.iso") (lit "/srv/ps2") = lit "DVD/x.iso".
Proof. reflexivity. Qed.
Example utf8_bad : utf8_replace [65; 226; 130; 66; 255] = [65] ++ REPLACEMENT ++ [66] ++ REPLACEMENT.
Proof. reflexivity. Qed.
