(* ===== verification/PyText.v ===== *)
(** * Python texts as code points

    Where the sources count, cut or re-encode characters, a Python [str] is the list of
    its code points, a [text].  Bytes that are not UTF-8 in a file name are the lone
    surrogates U+DC80 to U+DCFF, as [os.fsdecode] has them.  The path functions of
    [PyStr] act on texts as they act on bytes: they look only at ['/'] and ['.'].

    This file holds the UTF-8 codec, with the error modes the sources use, percent
    decoding, sorting, and the lemmas on them. *)

From S2P Require Import Prelude PyStr.

Abbreviation text := (list Z).

(** ** UTF-8 *)

(** The code point that a leading byte and its continuation bytes encode *)
Definition utf8_point (b : Z) (tail : bytes) : Z :=
  match tail with
  | [x] => (b - 192) * 64 + (x - 128)
  | [x; y] => ((b - 224) * 64 + (x - 128)) * 64 + (y - 128)
  | [x; y; z] => (((b - 240) * 64 + (x - 128)) * 64 + (y - 128)) * 64 + (z - 128)
  | _ => b
  end.

Fixpoint points_fuel (fuel : nat) (bs : bytes) : list Z :=
  match fuel, bs with
  | O, _ | _, [] => []
  | S fuel, b :: bs =>
      if b <? 128 then b :: points_fuel fuel bs
      else match utf8_lead b with
           | None => 56320 + b :: points_fuel fuel bs
           | Some (n, lo, hi) =>
               let '(t, ok) := utf8_tail n lo hi bs in
               if ok then utf8_point b t :: points_fuel fuel (drop (length t) bs)
               else 56320 + b :: points_fuel fuel bs
           end
  end.
(** The code points of a [str] that came from the file system: its UTF-8 bytes decoded,
    with every byte that is not UTF-8 as a lone surrogate ([os.fsdecode]). *)
Definition code_points (s : str) : list Z := points_fuel (length s) s.

(** What one character adds to the UTF-8 encoding of a text *)
Definition utf8_units (c : Z) : bytes :=
  if c <? 128 then [c]
  else if c <? 2048 then [192 + c / 64; 128 + c mod 64]
  else if c <? 65536 then [224 + c / 4096; 128 + c / 64 mod 64; 128 + c mod 64]
  else [240 + c / 262144; 128 + c / 4096 mod 64; 128 + c / 64 mod 64; 128 + c mod 64].

Definition is_surrogate (c : Z) : bool := (55296 <=? c) && (c <=? 57343).

(** The characters UTF-8 encodes: the code points that are no surrogates *)
Definition scalar (c : Z) : bool := (0 <=? c) && (c <? 1114112) && negb (is_surrogate c).

(** [s.encode('utf-8', errors)]; [on_error] answers a surrogate, [None] raises *)
Fixpoint utf8_encode_with (on_error : Z -> option bytes) (s : text) : result bytes :=
  match s with
  | [] => Ok []
  | c :: s =>
      match (if scalar c then Some (utf8_units c) else on_error c) with
      | None => Err UnicodeError
      | Some b => rest ← utf8_encode_with on_error s; Ok (b ++ rest)
      end
  end.

(** [s.encode('utf-8')] *)
Definition utf8_encode : text -> result bytes := utf8_encode_with (fun _ => None).
(** [s.encode('utf-8', 'replace')] *)
Definition utf8_encode_replace : text -> result bytes := utf8_encode_with (fun _ => Some [63]).
(** [os.fsencode(s)] *)
Definition fsencode : text -> result str :=
  utf8_encode_with (fun c => if 56448 <=? c then (if c <=? 56575 then Some [c - 56320] else None) else None).

(** Decoding: the code points of the well-formed sequences ([inl]) and the maximal
    ill-formed prefixes between them ([inr]). *)
Fixpoint utf8_tokens (fuel : nat) (bs : bytes) : list (Z + bytes) :=
  match fuel, bs with
  | O, _ | _, [] => []
  | S fuel, b :: bs =>
      if b <? 128 then inl b :: utf8_tokens fuel bs
      else match utf8_lead b with
           | None => inr [b] :: utf8_tokens fuel bs
           | Some (n, lo, hi) =>
               let '(t, ok) := utf8_tail n lo hi bs in
               (if ok then inl (utf8_point b t) else inr (b :: t))
               :: utf8_tokens fuel (drop (length t) bs)
           end
  end.
Definition tokens (bs : bytes) : list (Z + bytes) := utf8_tokens (length bs) bs.

(** [bs.decode('utf-8', 'ignore')] *)
Definition utf8_ignore (bs : bytes) : text :=
  omap (fun t => match t with inl c => Some c | inr _ => None end) (tokens bs).

Fixpoint all_points (ts : list (Z + bytes)) : result text :=
  match ts with
  | [] => Ok []
  | inl c :: ts => cs ← all_points ts; Ok (c :: cs)
  | inr _ :: _ => Err UnicodeError
  end.
(** [bs.decode('utf-8')] *)
Definition utf8_decode (bs : bytes) : result text := all_points (tokens bs).

(** ** Percent decoding *)

(** [urllib.parse._hextobyte] *)
Definition hex_value (c : Z) : option Z :=
  if (48 <=? c) && (c <=? 57) then Some (c - 48)
  else if (65 <=? c) && (c <=? 70) then Some (c - 55)
  else if (97 <=? c) && (c <=? 102) then Some (c - 87)
  else None.

Definition PERCENT : Z := 37.

(** [urllib.parse.unquote_to_bytes] on ASCII: an escape that is not two hexadecimal
    digits stays as it is *)
Fixpoint unquote_to_bytes (s : text) : bytes :=
  match s with
  | [] => []
  | c :: s =>
      if c =? PERCENT then
        match s with
        | a :: b :: rest =>
            match hex_value a, hex_value b with
            | Some x, Some y => 16 * x + y :: unquote_to_bytes rest
            | _, _ => c :: unquote_to_bytes s
            end
        | _ => c :: unquote_to_bytes s
        end
      else c :: unquote_to_bytes s
  end.

(** The longest run of ASCII characters at the front, and what follows it *)
Fixpoint ascii_run (s : text) : text * text :=
  match s with
  | [] => ([], [])
  | c :: t => if c <? 128 then let '(a, b) := ascii_run t in (c :: a, b) else ([], s)
  end.

(** [_generate_unquoted_parts]: each run of ASCII characters is decoded by itself *)
Fixpoint unquote_parts (fuel : nat) (s : text) : result text :=
  match fuel, s with
  | O, _ | _, [] => Ok []
  | S fuel, c :: t =>
      if c <? 128 then
        let '(run, rest) := ascii_run s in
        part ← utf8_decode (unquote_to_bytes run);
        parts ← unquote_parts fuel rest;
        Ok (part ++ parts)
      else parts ← unquote_parts fuel t; Ok (c :: parts)
  end.

(** [unquote(s, errors='strict')] *)
Definition unquote (s : text) : result text :=
  if existsb (Z.eqb PERCENT) s then unquote_parts (length s) s else Ok s.

(** ** Sorting and numbers *)

(** [a <= b] for lists of code points *)
Fixpoint points_leb (a b : list Z) : bool :=
  match a, b with
  | [], _ => true
  | _, [] => false
  | x :: a, y :: b => (x <? y) || ((x =? y) && points_leb a b)
  end.

Section sorting.
Context {A : Type} (leb : A -> A -> bool).
(** [sorted], which keeps the order of equals *)
Fixpoint insert_sorted (x : A) (l : list A) : list A :=
  match l with
  | [] => [x]
  | y :: l' => if leb x y then x :: l else y :: insert_sorted x l'
  end.
Definition sorted (l : list A) : list A := foldr insert_sorted [] l.
End sorting.

(** The order of [sorted(..., key=key)] for a key that is a text *)
Definition by_text {A} (key : A -> text) (a b : A) : bool := points_leb (key a) (key b).

(** The decimal digits of [n >= 0] *)
Fixpoint digits (fuel : nat) (n : Z) : str :=
  match fuel with
  | O => []
  | S fuel => (if n <? 10 then [] else digits fuel (n / 10)) ++ [48 + n mod 10]
  end.
Definition decimal (n : Z) : str := digits (S (Z.to_nat (Z.log2 n))) n.

(** ** Stripping *)

(** [s.strip(chars)] *)
Definition strip (P : Z -> bool) (s : text) : text := rev (strip_leading P (rev (strip_leading P s))).
Definition is_blank (c : Z) : bool := (c =? 32) || (c =? 9).

(** ** The codec: lemmas *)

Definition is_scalar (c : Z) : Prop := scalar c = true.

Lemma is_scalar_spec c : is_scalar c <-> 0 <= c < 1114112 /\ is_surrogate c = false.
Proof. unfold is_scalar, scalar. rewrite !andb_true_iff, negb_true_iff, Z.leb_le, Z.ltb_lt. tauto. Qed.

Lemma is_surrogate_spec c : is_surrogate c = true <-> 55296 <= c <= 57343.
Proof. unfold is_surrogate. rewrite andb_true_iff, !Z.leb_le. done. Qed.

Ltac zbool :=
  repeat match goal with
  | |- context [?a <=? ?b] => destruct (Z.leb_spec a b); try lia
  | |- context [?a <? ?b] => destruct (Z.ltb_spec a b); try lia
  | |- context [?a =? ?b] => destruct (Z.eqb_spec a b); try lia
  end.

(** A sequence of [n] continuation bytes, and each of its proper prefixes *)
Definition tail_ok (n : nat) (lo hi : Z) (t : bytes) : Prop :=
  (forall rest, utf8_tail n lo hi (t ++ rest) = (t, true)) /\
  (forall k, (k < n)%nat -> utf8_tail n lo hi (take k t) = (take k t, false)).

Lemma tail_ok_nil lo hi : tail_ok 0 lo hi [].
Proof. split; [done|]. intros; lia. Qed.

Lemma tail_ok_cons n lo hi b t : lo <= b <= hi -> tail_ok n 128 191 t -> tail_ok (S n) lo hi (b :: t).
Proof.
  intros Hb [Hf Hp]. assert (Ht : (lo <=? b) && (b <=? hi) = true) by (rewrite andb_true_iff, !Z.leb_le; lia).
  split.
  - intros rest. cbn. by rewrite Ht, Hf.
  - intros [|k] Hk; [done|]. cbn. rewrite Ht, Hp by lia. done.
Qed.

(** The leading byte of a character beyond ASCII announces exactly its other bytes *)
Lemma utf8_units_lead c : is_scalar c -> 128 <= c ->
  exists b t lo hi, utf8_units c = b :: t /\ 128 <= b /\ utf8_lead b = Some (length t, lo, hi) /\
    tail_ok (length t) lo hi t /\ utf8_point b t = c.
Proof.
  intros [Hc Hs]%is_scalar_spec H128.
  assert (Hns : ~ 55296 <= c <= 57343) by (intros H%is_surrogate_spec; congruence).
  unfold utf8_units. rewrite (proj2 (Z.ltb_ge c 128)) by lia.
  pose proof (Z.mod_pos_bound c 64 eq_refl). pose proof (Z.mod_pos_bound (c / 64) 64 eq_refl).
  pose proof (Z.mod_pos_bound (c / 4096) 64 eq_refl).
  pose proof (Z.div_mod c 64 ltac:(done)).
  pose proof (Z.div_mod (c / 64) 64 ltac:(done)) as H64. rewrite Z.div_div in H64 by lia.
  pose proof (Z.div_mod (c / 4096) 64 ltac:(done)) as H4096. rewrite Z.div_div in H4096 by lia.
  change (64 * 64) with 4096 in *. change (4096 * 64) with 262144 in *.
  destruct (Z.ltb_spec c 2048); [|destruct (Z.ltb_spec c 65536)].
  - eexists _, _, 128, 191. split; [done|]. split; [lia|]. split.
    { cbn. unfold utf8_lead. zbool; done. }
    split; [repeat (apply tail_ok_cons; [lia|]); apply tail_ok_nil|]. cbn. lia.
  - eexists _, _, (if c / 4096 =? 0 then 160 else 128), (if c / 4096 =? 13 then 159 else 191).
    split; [done|]. split; [lia|]. split.
    { cbn. unfold utf8_lead. zbool; done. }
    split; [|cbn; lia].
    apply tail_ok_cons; [zbool|]. repeat (apply tail_ok_cons; [lia|]); apply tail_ok_nil.
  - eexists _, _, (if c / 262144 =? 0 then 144 else 128), (if c / 262144 =? 4 then 143 else 191).
    split; [done|]. split; [lia|]. split.
    { cbn. unfold utf8_lead. zbool; done. }
    split; [|cbn; lia].
    apply tail_ok_cons; [zbool|]. repeat (apply tail_ok_cons; [lia|]); apply tail_ok_nil.
Qed.

Lemma utf8_units_ascii c : c < 128 -> utf8_units c = [c].
Proof. intros. unfold utf8_units. by rewrite (proj2 (Z.ltb_lt _ _)) by done. Qed.

(** Fuel beyond the length changes nothing *)
Lemma utf8_tokens_fuel f bs : (length bs <= f)%nat -> utf8_tokens f bs = tokens bs.
Proof.
  unfold tokens. revert bs. induction f as [f IH] using lt_wf_ind; intros bs Hl.
  destruct bs as [|b bs]; [by destruct f|]. destruct f as [|f]; cbn in Hl; [lia|]. cbn.
  assert (Hd : forall k, utf8_tokens f (drop k bs) = utf8_tokens (length bs) (drop k bs)).
  { intros k. pose proof (length_drop bs k). destruct (decide (f = length bs)) as [->|]; [done|].
    rewrite (IH f) by lia. symmetry. apply (IH (length bs)); lia. }
  specialize (Hd 0%nat) as Hd0. rewrite drop_0 in Hd0.
  destruct (b <? 128); [by rewrite Hd0|]. destruct (utf8_lead b) as [[[n lo] hi]|]; [|by rewrite Hd0].
  destruct (utf8_tail n lo hi bs) as [t []]; by rewrite Hd.
Qed.

Lemma tokens_char c bs : is_scalar c -> tokens (utf8_units c ++ bs) = inl c :: tokens bs.
Proof.
  intros Hc. destruct (Z.lt_ge_cases c 128) as [Ha|Ha].
  - rewrite utf8_units_ascii by done. unfold tokens at 1. cbn.
    by rewrite (proj2 (Z.ltb_lt _ _)) by done.
  - destruct (utf8_units_lead c Hc Ha) as (b & t & lo & hi & -> & Hb & Hl & [Ht _] & Hp).
    unfold tokens at 1. cbn. rewrite (proj2 (Z.ltb_ge _ _)) by done. rewrite Hl, Ht, Hp.
    rewrite drop_app_length. f_equal. apply utf8_tokens_fuel. rewrite length_app. lia.
Qed.

(** A cut character leaves an ill-formed prefix *)
Lemma tokens_cut c n : is_scalar c -> (n < length (utf8_units c))%nat ->
  tokens (take n (utf8_units c)) = [] \/ exists p, tokens (take n (utf8_units c)) = [inr p].
Proof.
  intros Hc Hn. destruct (Z.lt_ge_cases c 128) as [Ha|Ha].
  - rewrite utf8_units_ascii in * by done. cbn in Hn. assert (n = 0)%nat as -> by lia. by left.
  - destruct (utf8_units_lead c Hc Ha) as (b & t & lo & hi & E & Hb & Hl & [_ Ht] & Hp).
    rewrite E in *. destruct n as [|n]; [by left|]. right. cbn in Hn.
    unfold tokens. cbn. rewrite (proj2 (Z.ltb_ge _ _)) by done. rewrite Hl, (Ht n) by lia.
    eexists. f_equal. rewrite drop_ge by lia. by destruct (length (take n t)).
Qed.

(** Text that can be encoded strictly is made of such characters. *)
Lemma utf8_encode_scalar s bs : utf8_encode s = Ok bs -> Forall is_scalar s.
Proof.
  unfold utf8_encode. revert bs. induction s as [|c s IH]; intros bs H; [constructor|]. cbn in H.
  destruct (scalar c) eqn:E; [|done]. bind_inv H. constructor; [done|]. by eapply IH.
Qed.

Lemma utf8_encode_ok s : Forall is_scalar s -> utf8_encode s = Ok (concat (map utf8_units s)).
Proof.
  unfold utf8_encode. induction 1 as [|c s Hc _ IH]; [done|]. cbn. by rewrite Hc, IH.
Qed.

Lemma tokens_encoded s bs : Forall is_scalar s -> tokens (concat (map utf8_units s) ++ bs) = map inl s ++ tokens bs.
Proof.
  induction 1 as [|c s Hc _ IH]; [done|]. cbn [map concat]. rewrite <- app_assoc.
  rewrite tokens_char by done. by rewrite IH.
Qed.

Lemma all_points_inl s : all_points (map inl s) = Ok s.
Proof. induction s as [|c s IH]; [done|]. cbn. by rewrite IH. Qed.

(** [s.encode('utf-8').decode('utf-8') == s] *)
Lemma utf8_decode_encode s bs : Forall is_scalar s -> utf8_encode s = Ok bs -> utf8_decode bs = Ok s.
Proof.
  intros Hs. rewrite utf8_encode_ok by done. intros [= <-]. unfold utf8_decode.
  rewrite <- (app_nil_r (concat _)), tokens_encoded by done. cbn. rewrite app_nil_r. apply all_points_inl.
Qed.

Lemma omap_inl s : omap (fun t : Z + bytes => match t with inl c => Some c | inr _ => None end) (map inl s) = s.
Proof. induction s as [|c s IH]; [done|]. cbn. by rewrite IH. Qed.

(** A cut encoding decodes, errors ignored, to the characters that fit. *)
Lemma utf8_ignore_cut s n : Forall is_scalar s ->
  exists k, utf8_ignore (take n (concat (map utf8_units s))) = take k s /\
    (length (concat (map utf8_units (take k s))) <= n)%nat /\
    ((k < length s)%nat -> (n < length (concat (map utf8_units (take (S k) s))))%nat).
Proof.
  revert n. induction s as [|c s IH]; intros n Hs.
  - exists 0%nat. cbn. rewrite take_nil. repeat split; [lia|lia].
  - apply Forall_cons in Hs as [Hc Hs]. destruct (decide (length (utf8_units c) <= n)%nat) as [Hn|Hn].
    + destruct (IH (n - length (utf8_units c))%nat Hs) as (k & He & Hl & Hm).
      exists (S k). cbn [map concat take]. rewrite take_app_ge by done. unfold utf8_ignore in *.
      rewrite tokens_char by done. cbn [omap list_omap]. rewrite He, length_app. split; [done|].
      cbn [length]. split; [lia|]. intros Hk. rewrite length_app.
      specialize (Hm ltac:(lia)). cbn [take map concat] in Hm. lia.
    + exists 0%nat. cbn [map concat take]. rewrite take_app_le by lia. unfold utf8_ignore.
      assert (H0 : omap (fun t : Z + bytes => match t with inl c => Some c | inr _ => None end)
                     (tokens (take n (utf8_units c))) = []).
      { destruct (tokens_cut c n Hc) as [->|[p ->]]; [lia|done|done]. }
      split; [exact H0|]. split; [cbn; lia|]. intros _. cbn. rewrite app_nil_r. lia.
Qed.

(** ** Sorting: lemmas *)

Lemma insert_sorted_perm {A} (leb : A -> A -> bool) x l : insert_sorted leb x l ≡ₚ x :: l.
Proof.
  induction l as [|y l IH]; [done|]. cbn. destruct (leb x y); [done|]. rewrite IH. constructor.
Qed.

Lemma sorted_perm {A} (leb : A -> A -> bool) l : sorted leb l ≡ₚ l.
Proof. induction l as [|x l IH]; [done|]. cbn. rewrite insert_sorted_perm. by f_equiv. Qed.
