(* ===== verification/PathNames.v ===== *)
(** * Paths as lists of names

    Lemmas on the functions of [PyStr]: absolute and relative paths made of ordinary
    names are what [join], [split], [normpath] and [abspath] leave as it is. *)

From S2P Require Import Prelude PyStr.

(** ** Absolute paths as lists of names *)

Definition good_name (n : str) : Prop := n <> [] /\ n <> [DOT] /\ n <> DOTDOT /\ SLASH ∉ n.

Definition abs_path (ns : list str) : str := SLASH :: join_with SLASH ns.

Lemma str_eqb_spec (a b : str) : reflect (a = b) (str_eqb a b).
Proof. unfold str_eqb. apply bool_decide_reflect. Qed.

Lemma split_on_mid sep a b : split_on sep (a ++ sep :: b) = split_on sep a ++ split_on sep b.
Proof.
  induction a as [|c a IH]; cbn [app split_on]; [by rewrite Z.eqb_refl|].
  destruct (Z.eqb_spec c sep) as [->|]; rewrite IH; [done|].
  pose proof (split_on_ne sep a). by destruct (split_on sep a).
Qed.

Lemma join_with_snoc sep ns n : ns <> [] -> join_with sep (ns ++ [n]) = join_with sep ns ++ sep :: n.
Proof.
  induction ns as [|m [|k ns] IH]; [done|done|]. intros _. cbn [app join_with] in *.
  rewrite IH by done. by rewrite <- app_assoc.
Qed.

Lemma join_with_app sep ns ms : ns <> [] -> ms <> [] -> join_with sep (ns ++ ms) = join_with sep ns ++ sep :: join_with sep ms.
Proof.
  induction ns as [|m [|k ns] IH]; [done| |]; intros _ Hms; cbn [app join_with].
  - by destruct ms.
  - cbn [app join_with] in IH. rewrite IH by done. by rewrite <- app_assoc.
Qed.

Lemma endswith_snoc s c d : endswith (s ++ [c]) [d] = (d =? c).
Proof. unfold endswith. rewrite rev_app_distr. cbn. destruct (rev s); by rewrite andb_true_r. Qed.

Lemma good_name_head n : good_name n -> exists c t, n = c :: t /\ c <> SLASH.
Proof. intros (Hn & _ & _ & Hs). destruct n as [|c t]; [done|]. exists c, t. split; [done|]. by apply not_elem_of_cons in Hs as [? _]. Qed.

Lemma join_head ns : ns <> [] -> Forall good_name ns -> exists c t, join_with SLASH ns = c :: t /\ c <> SLASH.
Proof.
  intros Hne Hg. destruct ns as [|n ns]; [done|]. apply Forall_cons in Hg as [(c & t & -> & Hc)%good_name_head _].
  destruct ns; cbn; by eexists _, _.
Qed.

Lemma isabs_head c t : c <> SLASH -> isabs (c :: t) = false.
Proof. intros Hc. unfold isabs, startswith. rewrite (proj2 (Z.eqb_neq SLASH c)); [done|congruence]. Qed.

Lemma isabs_cons c t : isabs (c :: t) = (SLASH =? c).
Proof. unfold isabs. cbn [startswith]. destruct t; apply andb_true_r. Qed.

Lemma isabs_slash t : isabs (SLASH :: t) = true.
Proof. by destruct t. Qed.

Lemma abs_path_no_slash ns : ns <> [] -> Forall good_name ns -> endswith (abs_path ns) [SLASH] = false.
Proof.
  destruct ns as [|n ns] using rev_ind; [done|]. intros _ Hg. apply Forall_app in Hg as [_ Hg].
  apply Forall_singleton in Hg as (Hn & _ & _ & Hs).
  assert (exists pre, abs_path (ns ++ [n]) = pre ++ n) as [pre ->].
  { unfold abs_path. destruct ns as [|m ns]; [by exists [SLASH]|].
    rewrite join_with_snoc by done. exists (SLASH :: join_with SLASH (m :: ns) ++ [SLASH]). cbn. by rewrite <- app_assoc. }
  destruct n as [|c n] using rev_ind; [done|]. rewrite app_assoc, endswith_snoc. apply Z.eqb_neq. intros E.
  apply Hs, elem_of_app. right. rewrite E. by apply list_elem_of_singleton.
Qed.

Lemma path_join_abs ns ms :
  Forall good_name ns -> Forall good_name ms -> ms <> [] ->
  path_join (abs_path ns) (join_with SLASH ms) = abs_path (ns ++ ms).
Proof.
  intros Hns Hms Hne. unfold path_join. destruct (join_head ms Hne Hms) as (c & t & E & Hc).
  assert (isabs (join_with SLASH ms) = false) as ->.
  { rewrite E. by apply isabs_head. }
  destruct ns as [|n ns]; [done|]. rewrite abs_path_no_slash by done.
  unfold abs_path. by rewrite (join_with_app SLASH (n :: ns) ms).
Qed.

Lemma path_join_name ns n : Forall good_name ns -> good_name n -> path_join (abs_path ns) n = abs_path (ns ++ [n]).
Proof. intros Hns Hn. apply (path_join_abs ns [n]); [done|by apply Forall_singleton|done]. Qed.

Lemma split_names ns : Forall good_name ns -> ns <> [] -> split_on SLASH (join_with SLASH ns) = ns.
Proof. intros Hg Hne. apply split_join; [done|]. eapply Forall_impl; [exact Hg|]. by intros n (_ & _ & _ & ?). Qed.

Lemma norm_comps_good abs ns acc : Forall good_name ns -> foldl (norm_step abs) acc ns = rev ns ++ acc.
Proof.
  revert acc. induction ns as [|n ns IH]; intros acc; [done|]. intros [(H1 & H2 & H3 & _) Hns]%Forall_cons.
  cbn [foldl rev]. unfold norm_step at 2, str_eqb. rewrite !bool_decide_eq_false_2 by done. cbn [orb negb].
  rewrite IH by done. by rewrite <- app_assoc.
Qed.

Lemma normpath_abs ns : Forall good_name ns -> normpath (abs_path ns) = abs_path ns.
Proof.
  intros Hg. destruct (decide (ns = [])) as [->|Hne]; [done|]. unfold normpath.
  destruct (join_head ns Hne Hg) as (c & t & E & Hc).
  assert (startswith (abs_path ns) [SLASH; SLASH] = false) as ->.
  { unfold abs_path. rewrite E. unfold startswith. rewrite (proj2 (Z.eqb_neq SLASH c)), andb_false_r; [done|congruence]. }
  unfold abs_path. rewrite isabs_slash. cbv iota zeta. cbn [andb].
  cbn [split_on]. rewrite Z.eqb_refl. unfold norm_comps. cbn [foldl]. change (norm_step true [] []) with (@nil str).
  rewrite (split_names ns) by done. rewrite norm_comps_good by done. by rewrite app_nil_r, rev_involutive.
Qed.

Lemma replace_char_none a b s : a ∉ s -> replace_char a b s = s.
Proof.
  unfold replace_char. induction s as [|c s IH]; [done|]. intros [Hc Hs]%not_elem_of_cons. cbn [map].
  rewrite IH by done. destruct (Z.eqb_spec c a); [congruence|done].
Qed.

Lemma replace_char_gone a b s : a <> b -> a ∉ replace_char a b s.
Proof.
  intros Hab. unfold replace_char. induction s as [|c s IH]; cbn [map]; [apply not_elem_of_nil|].
  apply not_elem_of_cons. split; [|done]. destruct (Z.eqb_spec c a); congruence.
Qed.

Lemma split_on_elem sep s w c : w ∈ split_on sep s -> c ∈ w -> c ∈ s.
Proof.
  revert w. induction s as [|d s IH]; intros w; cbn [split_on].
  - intros ->%list_elem_of_singleton. done.
  - pose proof (split_on_ne sep s). destruct (d =? sep).
    + intros [->|Hw]%elem_of_cons; [by intros ?%not_elem_of_nil|]. intros Hc. apply elem_of_cons. right. by eapply IH.
    + destruct (split_on sep s) as [|v vs]; [done|]. intros [->|Hw]%elem_of_cons Hc; apply elem_of_cons.
      * apply elem_of_cons in Hc as [->|Hc]; [by left|]. right. apply (IH v); [by left|done].
      * right. apply (IH w); [by right|done].
Qed.

(** ** Splitting *)

Lemma rfind_from_absent c t : c ∉ t -> forall i best, rfind_from c t i best = best.
Proof.
  induction t as [|d t IH]; intros Hn i best; [done|]. apply not_elem_of_cons in Hn as [Hd Hn]. cbn [rfind_from].
  rewrite (proj2 (Z.eqb_neq d c)) by congruence. by apply IH.
Qed.

Lemma rfind_last c s t : c ∉ t -> rfind c (s ++ c :: t) = zlen s.
Proof.
  intros Hn. unfold rfind. enough (Hg : forall i best, rfind_from c (s ++ c :: t) i best = i + zlen s) by (rewrite Hg; lia).
  induction s as [|d s IH]; intros i best; cbn [app rfind_from].
  - rewrite Z.eqb_refl, rfind_from_absent by done. change (zlen (@nil Z)) with 0. lia.
  - rewrite IH, zlen_cons. lia.
Qed.

Lemma abs_path_snoc ns n : exists s, abs_path (ns ++ [n]) = s ++ SLASH :: n /\ (ns = [] /\ s = [] \/ ns <> [] /\ s = abs_path ns).
Proof.
  destruct ns as [|m ns]; [exists []; split; [done|by left]|]. exists (abs_path (m :: ns)). split; [|by right].
  unfold abs_path. by rewrite join_with_snoc.
Qed.

(** The parent and the name of a path of names *)
Lemma path_split_abs ns n : Forall good_name ns -> good_name n -> path_split (abs_path (ns ++ [n])) = (abs_path ns, n).
Proof.
  intros Hns (_ & _ & _ & Hs). destruct (abs_path_snoc ns n) as (s & -> & Hc). unfold path_split. rewrite rfind_last by done.
  assert (E : s ++ SLASH :: n = (s ++ [SLASH]) ++ n) by by rewrite <- app_assoc.
  rewrite E, ztake_app_length, zdrop_app_length by (rewrite zlen_app; done).
  destruct Hc as [[-> ->]|[Hne ->]]; [done|].
  pose proof (abs_path_no_slash ns Hne Hns) as Hend.
  assert (Hnn : abs_path ns <> []) by done. destruct (abs_path ns) as [|c q _] using rev_ind; [done|]. clear Hnn.
  rewrite endswith_snoc in Hend. rewrite forallb_app, forallb_app. cbn [forallb]. rewrite Hend, !andb_false_r, andb_false_l.
  f_equal. unfold rstrip. rewrite !rev_app_distr. cbn [rev app strip_leading]. rewrite Z.eqb_refl, Hend. cbn [rev].
  by rewrite rev_involutive.
Qed.

(** [normpath] of an absolute path drops a name with the [..] behind it. *)
Lemma normpath_parts ns : ns <> [] -> Forall (fun n => n <> [] /\ SLASH ∉ n) ns ->
  normpath (abs_path ns) = abs_path (norm_comps true ns).
Proof.
  intros Hne Hp. unfold normpath. destruct ns as [|n ns]; [done|].
  assert (startswith (abs_path (n :: ns)) [SLASH; SLASH] = false) as ->.
  { apply Forall_cons in Hp as [[Hn Hs] _]. destruct n as [|c n]; [done|]. apply not_elem_of_cons in Hs as [Hs _].
    assert (exists t, join_with SLASH ((c :: n) :: ns) = c :: t) as [t E] by (destruct ns; by eexists).
    unfold abs_path. rewrite E. unfold startswith. rewrite (proj2 (Z.eqb_neq SLASH c)), andb_false_r; done. }
  unfold abs_path. rewrite isabs_slash. cbv iota zeta. cbn [andb split_on]. rewrite Z.eqb_refl.
  unfold norm_comps at 1. cbn [foldl]. change (norm_step true [] []) with (@nil str).
  rewrite split_join; [done|done|]. eapply Forall_impl; [exact Hp|]. by intros m [_ ?].
Qed.

Lemma norm_comps_up pre d post : d <> [] -> d <> [DOT] -> d <> DOTDOT ->
  norm_comps true (pre ++ d :: DOTDOT :: post) = norm_comps true (pre ++ post).
Proof.
  intros H1 H2 H3. unfold norm_comps. rewrite !foldl_app. cbn [foldl]. do 2 f_equal.
  set (acc := foldl _ [] pre). clearbody acc.
  assert (norm_step true acc d = d :: acc) as -> by (unfold norm_step, str_eqb; by rewrite !bool_decide_eq_false_2 by done).
  change (norm_step true (d :: acc) DOTDOT) with (if str_eqb d DOTDOT then DOTDOT :: d :: acc else acc).
  by destruct (str_eqb_spec d DOTDOT).
Qed.
