(* ===== verification/SessionStats.v ===== *)
(** * Per-client session counters

    Models [launcher/session_stats.py], the counters every server can attach
    ([--session-summary]): one entry per client in least-recently-seen order, a
    bounded number of clients, and one summary line per client when it is evicted,
    goes quiet or the server stops.  The clock is an argument of each operation;
    a line is kept as the data it prints. *)

From Stdlib Require Import Sorted.
From S2P Require Import Prelude.

Create Rewrite HintDb sums.

(** [KINDS] *)
Inductive kind := connections | k_list | k_open | k_read | k_bytes | k_write | k_close | errors.

#[export] Instance kind_eq_dec : EqDecision kind.
Proof. solve_decision. Defined.

Inductive ended := idle | evicted | stopped.

(** [_Client] *)
Record entry := Entry { first : Z; last : Z; count : kind -> Z }.

Section stats.
Context {C : Type} `{!EqDecision C}.

(** [SessionStats]: [clients] is the [OrderedDict], least recently seen first;
    [emitted] the lines printed so far, oldest first. *)
Record stats := Stats {
  max_clients : Z;
  idle_seconds : Z;
  clients : list (C * entry);
  emitted : list (C * entry * ended)
}.

#[export] Instance eta_stats : Eta stats := fun s =>
  Stats (max_clients s) (idle_seconds s) (clients s) (emitted s).

Definition MAX_CLIENTS : Z := 64.
(** seconds, in microseconds *)
Definition IDLE_SECONDS : Z := 60000000.

(** [SessionStats.__init__] *)
Definition init (max_clients idle_seconds : Z) : result stats :=
  if max_clients <? 1 then Err ValueError
  else Ok {| max_clients := max_clients; idle_seconds := idle_seconds;
             clients := []; emitted := [] |}.

Definition find (c : C) (l : list (C * entry)) : option entry :=
  snd <$> List.find (fun '(c', _) => bool_decide (c' = c)) l.
Definition remove (c : C) (l : list (C * entry)) : list (C * entry) :=
  List.filter (fun '(c', _) => negb (bool_decide (c' = c))) l.

Definition bump (k : kind) (n now : Z) (e : entry) : entry :=
  {| first := first e; last := now;
     count := fun k' => if decide (k' = k) then count e k' + n else count e k' |}.

Definition new_entry (now : Z) : entry := {| first := now; last := now; count := fun _ => 0 |}.

(** [record] at clock [now] *)
Definition record (client : C) (k : kind) (n : Z) (now : Z) (s : stats) : stats :=
  match find client (clients s) with
  | Some e =>
      s <| clients := remove client (clients s) ++ [(client, bump k n now e)] |>
  | None =>
      match (if max_clients s <=? zlen (clients s) then clients s else []) with
      | (c, e) :: rest =>
          s <| clients := rest ++ [(client, bump k n now (new_entry now))] |>
            <| emitted ::= fun l => l ++ [(c, e, evicted)] |>
      | [] => s <| clients ::= fun l => l ++ [(client, bump k n now (new_entry now))] |>
      end
  end.

(** [touch] *)
Definition touch (client : C) (now : Z) (s : stats) : stats * bool :=
  match find client (clients s) with
  | None => (s, false)
  | Some e =>
      (s <| clients := remove client (clients s) ++
              [(client, {| first := first e; last := now; count := count e |})] |>, true)
  end.

(** the loop of [expire]: the leading entries idle for [idle] *)
Fixpoint split_idle (idle_for now : Z) (l : list (C * entry)) : list (C * entry) * list (C * entry) :=
  match l with
  | [] => ([], [])
  | (c, e) :: rest =>
      if now - last e <? idle_for then ([], l)
      else let '(done, keep) := split_idle idle_for now rest in ((c, e) :: done, keep)
  end.

(** [expire] *)
Definition expire (now : Z) (s : stats) : stats :=
  let '(done, keep) := split_idle (idle_seconds s) now (clients s) in
  s <| clients := keep |> <| emitted ::= fun l => l ++ map (fun ce => (ce, idle)) done |>.

(** [stop] *)
Definition stop (s : stats) : stats :=
  s <| clients := [] |> <| emitted ::= fun l => l ++ map (fun ce => (ce, stopped)) (clients s) |>.

Definition active (s : stats) : Z := zlen (clients s).

(** ** What the counters guarantee *)

Inductive op := Record_ (c : C) (k : kind) (n : Z) | Touch (c : C) | Expire | Stop.

Definition step (o : op) (now : Z) (s : stats) : stats :=
  match o with
  | Record_ c k n => record c k n now s
  | Touch c => fst (touch c now s)
  | Expire => expire now s
  | Stop => stop s
  end.

Definition run (ops : list (op * Z)) (s : stats) : stats :=
  foldl (fun s '(o, now) => step o now s) s ops.

Definition sum_of (f : entry -> Z) (l : list (C * entry)) : Z := foldr (fun ce a => f (snd ce) + a) 0 l.

#[local] Arguments sum_of : simpl never.
Lemma sum_of_cons f c e l : sum_of f ((c, e) :: l) = f e + sum_of f l.
Proof. done. Qed.
Lemma sum_of_nil f : sum_of f [] = 0.
Proof. done. Qed.

(** The total of counter [k] over the live entries and the lines printed. *)
Definition total (k : kind) (s : stats) : Z :=
  sum_of (fun e => count e k) (clients s) + sum_of (fun e => count e k) (map fst (emitted s)).

Definition recorded (k : kind) (ops : list (op * Z)) : Z :=
  foldr (fun on a => (match fst on with
                      | Record_ _ k' n => if decide (k' = k) then n else 0
                      | _ => 0 end) + a) 0 ops.

Lemma sum_of_app f l m : sum_of f (l ++ m) = sum_of f l + sum_of f m.
Proof. unfold sum_of. induction l; cbn; lia. Qed.
#[local] Hint Rewrite sum_of_app sum_of_cons sum_of_nil : sums.

Record wf (s : stats) : Prop := {
  wf_max : 1 <= max_clients s;
  wf_bound : zlen (clients s) <= max_clients s;
  wf_nodup : NoDup (clients s).*1
}.

Lemma find_remove c e l :
  NoDup l.*1 -> find c l = Some e ->
  zlen (remove c l) = zlen l - 1 /\ forall f, sum_of f (remove c l) = sum_of f l - f e.
Proof.
  unfold find, remove. induction l as [|[c' e'] l IH]; cbn; [done|].
  intros [Hn Hd]%NoDup_cons. case_bool_decide as Hc; cbn.
  - intros [= ->]. subst c'. assert (List.filter (fun '(c', _) => negb (bool_decide (c' = c))) l = l) as ->.
    { clear -Hn. induction l as [|[d x] l IH]; cbn in *; [done|].
      apply not_elem_of_cons in Hn as [Hd Hn].
      rewrite bool_decide_eq_false_2 by congruence. cbn. by rewrite IH. }
    rewrite zlen_cons. split; [lia|]. intros; autorewrite with sums; lia.
  - intros Hf. destruct (IH Hd Hf) as [IH1 IH2]. rewrite !zlen_cons. split; [lia|].
    intros f. specialize (IH2 f). autorewrite with sums; lia.
Qed.

Lemma remove_keys c l x : x ∈ (remove c l).*1 -> x ∈ l.*1 /\ x <> c.
Proof.
  unfold remove. intros ([c' e] & -> & Hin)%list_elem_of_fmap. cbn.
  apply list_elem_of_In, filter_In in Hin as [Hin%list_elem_of_In Hne].
  rewrite negb_true_iff, bool_decide_eq_false in Hne. split; [|done].
  apply list_elem_of_fmap. by exists (c', e).
Qed.

Lemma NoDup_remove_app c e l : NoDup l.*1 -> NoDup (remove c l ++ [(c, e)]).*1.
Proof.
  intros Hd. rewrite fmap_app. apply NoDup_app; split_and!.
  - unfold remove. induction l as [|[c' e'] l IH]; cbn; [done|].
    apply NoDup_cons in Hd as [Hn Hd]. case_bool_decide; cbn; [by apply IH|].
    apply NoDup_cons; split; [|by apply IH]. intros Hin%remove_keys. by destruct Hin.
  - intros x [_ Hx]%remove_keys Heq%list_elem_of_singleton. done.
  - apply NoDup_singleton.
Qed.

Lemma find_None_keys c l : find c l = None -> c ∉ l.*1.
Proof.
  unfold find. induction l as [|[c' e] l IH]; cbn; [by intros _ ?%elem_of_nil|].
  case_bool_decide; cbn; [done|]. intros Hf [->|Hin]%elem_of_cons; [done|]. by apply IH.
Qed.

Lemma split_idle_app i now l : let '(a, b) := split_idle i now l in l = a ++ b.
Proof.
  induction l as [|[c e] l IH]; cbn; [done|]. destruct (now - last e <? i); [done|].
  destruct (split_idle i now l) as [a b]. by rewrite IH.
Qed.

Lemma step_spec o now s k :
  wf s -> wf (step o now s) /\
  total k (step o now s) = total k s + recorded k [(o, now)].
Proof.
  intros [Hm Hb Hn]. destruct o as [c k' n|c| |]; cbn [step recorded foldr fst].
  - unfold record. destruct (find c (clients s)) as [e|] eqn:Hf.
    + destruct (find_remove c e _ Hn Hf) as [Hz Hs].
      split; [split; cbn; [done|rewrite zlen_app, zlen_cons, zlen_nil; lia|by apply NoDup_remove_app]|].
      unfold total; cbn. autorewrite with sums. rewrite Hs. cbn.
      destruct (decide (k' = k)) as [->|]; repeat case_decide; simplify_eq; lia.
    + apply find_None_keys in Hf.
      destruct (Z.leb_spec (max_clients s) (zlen (clients s))).
      * destruct (clients s) as [|[c1 e1] rest] eqn:Hc; [rewrite zlen_nil in *; lia|].
        rewrite zlen_cons in *. cbn in Hn. apply NoDup_cons in Hn as [Hn1 Hn].
        split.
        { split; cbn; [done|rewrite zlen_app, zlen_cons, zlen_nil; lia|].
          rewrite fmap_app. apply NoDup_app; split_and!; [done| |apply NoDup_singleton].
          intros x Hx Heq%list_elem_of_singleton. cbn in Heq. subst.
          apply Hf. cbn. apply elem_of_cons. by right. }
        unfold total; cbn. rewrite map_app, Hc. cbn. autorewrite with sums. cbn.
        destruct (decide (k' = k)) as [->|]; repeat case_decide; simplify_eq; lia.
      * split.
        { split; cbn; [done|rewrite zlen_app, zlen_cons, zlen_nil; lia|].
          rewrite fmap_app. apply NoDup_app; split_and!; [done| |apply NoDup_singleton].
          intros x Hx Heq%list_elem_of_singleton. cbn in Heq. by subst. }
        unfold total; cbn. autorewrite with sums. cbn.
        destruct (decide (k' = k)) as [->|]; repeat case_decide; simplify_eq; lia.
  - unfold touch. destruct (find c (clients s)) as [e|] eqn:Hf; cbn; [|split; [done|lia]].
    destruct (find_remove c e _ Hn Hf) as [Hz Hs].
    split; [split; cbn; [done|rewrite zlen_app, zlen_cons, zlen_nil; lia|by apply NoDup_remove_app]|].
    unfold total; cbn. autorewrite with sums. rewrite Hs. cbn. lia.
  - unfold expire, total. pose proof (split_idle_app (idle_seconds s) now (clients s)) as Ha.
    destruct (split_idle _ _ _) as [a b]. rewrite Ha in *. clear Ha.
    rewrite fmap_app in Hn. apply NoDup_app in Hn as (_ & _ & Hn). rewrite zlen_app in Hb.
    pose proof (zlen_nonneg a).
    split; [split; cbn; [done|lia|done]|]. cbn.
    rewrite map_app, map_map, map_id. autorewrite with sums. lia.
  - split; [split; cbn; [done|rewrite zlen_nil; lia|apply NoDup_nil_2]|].
    unfold total, stop; cbn. rewrite map_app, map_map, map_id. autorewrite with sums. lia.
Qed.

Lemma run_spec ops s k :
  wf s -> wf (run ops s) /\ total k (run ops s) = total k s + recorded k ops.
Proof.
  revert s. induction ops as [|[o now] ops IH]; intros s Hw; cbn [run foldl];
    [split; [done|change (recorded k []) with 0; lia]|].
  destruct (step_spec o now s k Hw) as [Hw1 Ht]. destruct (IH _ Hw1) as [Hw2 Ht2].
  split; [done|]. unfold run in *. rewrite Ht2, Ht. unfold recorded. cbn [foldr fst]. lia.
Qed.

(** ** Least-recently-seen order *)

(** The entries in the order they were last seen, none later than [now]. *)
Definition ordered (now : Z) (s : stats) : Prop :=
  StronglySorted Z.le (map (fun ce => last (snd ce)) (clients s)) /\
  Forall (fun ce => last (snd ce) <= now) (clients s).

Lemma sorted_snoc (l : list Z) x :
  StronglySorted Z.le l -> Forall (fun y => y <= x) l -> StronglySorted Z.le (l ++ [x]).
Proof.
  induction 1 as [|a l Hs IH Ha]; intros Hf; cbn; [by repeat constructor|].
  apply Forall_cons in Hf as [? Hf]. constructor; [by apply IH|].
  apply Forall_app; split; [done|by constructor].
Qed.

Lemma remove_sublist c l : remove c l `sublist_of` l.
Proof.
  unfold remove. induction l as [|[c' e] l IH]; cbn; [constructor|].
  destruct (negb _); by constructor.
Qed.

Lemma map_sublist {A B} (f : A -> B) l k : l `sublist_of` k -> map f l `sublist_of` map f k.
Proof. induction 1; cbn; by constructor. Qed.

Lemma sorted_sublist (l k : list Z) : l `sublist_of` k -> StronglySorted Z.le k -> StronglySorted Z.le l.
Proof.
  induction 1 as [|x l k Hs IH|x l k Hs IH]; intros Hk;
    [done|inversion_clear Hk as [|? ? Hk' Hf]..]; [|by apply IH].
  constructor; [by apply IH|]. apply Forall_forall. rewrite Forall_forall in Hf.
  intros y Hy. apply Hf. by eapply elem_of_sublist.
Qed.

Lemma ordered_snoc now now' c e l s :
  now <= now' -> last e = now' -> l `sublist_of` clients s -> ordered now s ->
  forall em, ordered now' (Stats (max_clients s) (idle_seconds s) (l ++ [(c, e)]) em).
Proof.
  intros Hn He Hl [Hs Hf] em. unfold ordered; cbn.
  assert (Hf' : Forall (fun ce => last (snd ce) <= now') l).
  { rewrite Forall_forall in *. intros ce Hce. eapply elem_of_sublist in Hce; [|done].
    specialize (Hf ce Hce). cbn in Hf. lia. }
  rewrite map_app. cbn [map snd]. rewrite He. split.
  - apply sorted_snoc; [|by apply Forall_map].
    eapply sorted_sublist; [|done]. by apply map_sublist.
  - apply Forall_app; split; [done|]. constructor; [cbn; lia|done].
Qed.

Lemma record_ordered c k n now now' s : now <= now' -> ordered now s -> ordered now' (record c k n now' s).
Proof.
  intros Hn Ho. unfold record. destruct (find c (clients s)).
  - by apply (ordered_snoc now); [|..|apply remove_sublist|].
  - destruct (if max_clients s <=? zlen (clients s) then clients s else []) as [|[c1 e1] rest] eqn:Hc.
    + by apply (ordered_snoc now).
    + apply (ordered_snoc now now' c (bump k n now' (new_entry now')) rest s); [done|done| |done].
      destruct (max_clients s <=? zlen (clients s)); [|done]. rewrite Hc. by constructor.
Qed.

Lemma touch_ordered c now now' s : now <= now' -> ordered now s -> ordered now' (fst (touch c now' s)).
Proof.
  intros Hn Ho. unfold touch. destruct (find c (clients s)); cbn.
  - by apply (ordered_snoc now); [|..|apply remove_sublist|].
  - destruct Ho as [Hs Hf]. split; [done|]. eapply Forall_impl; [exact Hf|]. cbn; lia.
Qed.

(** On entries in last-seen order, [expire] prints exactly the idle ones. *)
Lemma split_idle_filter i now l :
  StronglySorted Z.le (map (fun ce => last (snd ce)) l) ->
  split_idle i now l =
    (List.filter (fun ce : C * entry => negb (now - last (snd ce) <? i)) l,
     List.filter (fun ce : C * entry => now - last (snd ce) <? i) l).
Proof.
  induction l as [|[c e] l IH]; cbn; [done|]. intros Hs.
  inversion_clear Hs as [|? ? Hs' Hf]. destruct (Z.ltb_spec (now - last e) i) as [Hlt|Hge]; cbn.
  - assert (Hall : forall x, x ∈ l -> (now - last (snd x) <? i) = true).
    { intros x Hx. rewrite Forall_forall in Hf.
      specialize (Hf (last (snd x))). apply Z.ltb_lt.
      assert (last e <= last (snd x)); [|lia]. apply Hf.
      apply list_elem_of_In. apply (in_map (fun ce => last (snd ce))). by apply list_elem_of_In. }
    f_equal.
    + symmetry. clear -Hall. induction l as [|x l IH]; cbn; [done|].
      rewrite Hall by (by left). cbn. apply IH. intros; apply Hall; by right.
    + f_equal. symmetry. clear -Hall. induction l as [|x l IH]; cbn; [done|].
      rewrite Hall by (by left). f_equal. apply IH. intros; apply Hall; by right.
  - by rewrite IH.
Qed.
End stats.
Arguments stats : clear implicits.

(** A statistics object started with room for [m] clients never holds more, never
    holds a client twice, and loses no count: for every counter, the live entries
    and the printed lines together add up to what was recorded, in any
    interleaving of records, touches, expiries and stops. *)
Theorem stats_bounded_conserved {C} `{!EqDecision C} m i (s0 : stats C) ops k :
  init m i = Ok s0 ->
  let s := run ops s0 in
  zlen (clients s) <= m /\ NoDup (clients s).*1 /\ total k s = recorded k ops.
Proof.
  intros Hi s. unfold init in Hi. destruct (Z.ltb_spec m 1); [done|]. injection Hi as <-.
  set (s0 := Stats m i [] []) in *.
  assert (Hw : wf s0) by (split; cbn; [lia|rewrite zlen_nil; lia|apply NoDup_nil_2]).
  assert (Hmax : forall os (s : stats C), max_clients (run os s) = max_clients s).
  { intros os. induction os as [|[o now] os IH]; intros s1; [done|]. unfold run in *. cbn [foldl].
    rewrite IH. destruct o; cbn; unfold record, touch, expire; repeat case_match; done. }
  destruct (run_spec ops s0 k Hw) as [[Hm Hb Hn] Ht]. rewrite Hmax in Hb.
  split_and!; [done|done|]. subst s. rewrite Ht. by unfold total.
Qed.

(** While the clock does not run backwards, the entries stay in last-seen order,
    and [expire] prints exactly those idle for [idle_seconds] and keeps the rest. *)
Theorem expire_exact {C} `{!EqDecision C} now (s : stats C) :
  ordered now s ->
  clients (expire now s) = List.filter (fun ce => now - last (snd ce) <? idle_seconds s) (clients s) /\
  emitted (expire now s) = emitted s ++
    map (fun ce => (ce, idle)) (List.filter (fun ce => negb (now - last (snd ce) <? idle_seconds s)) (clients s)) /\
  ordered now (expire now s) /\
  forall c k n now', now <= now' ->
    ordered now' (record c k n now' s) /\ ordered now' (fst (touch c now' s)).
Proof.
  intros [Hs Hf]. unfold expire. rewrite split_idle_filter by done. cbn.
  split_and!; [done..| |].
  - assert (List.filter (fun ce => now - last (snd ce) <? idle_seconds s) (clients s) `sublist_of` clients s) as Hsub.
    { generalize (clients s) at 1 2. intros l; induction l as [|x l IH]; cbn; [constructor|].
      destruct (_ <? _); by constructor. }
    split; cbn.
    + eapply sorted_sublist; [|exact Hs]. by apply map_sublist.
    + rewrite Forall_forall in *. intros ce Hce. eapply Hf, elem_of_sublist; done.
  - intros c k n now' Hn. split; [by apply record_ordered with now|by apply touch_ordered with now].
Qed.

Definition sample_ops : list (op (C := Z) * Z) :=
  [(Record_ 1 k_bytes 100, 0); (Record_ 2 k_read 1, 5); (Record_ 1 k_bytes 50, 6);
   (Record_ 3 k_bytes 7, 8); (Expire, 12); (Stop, 20)].

Lemma stats_bounded_conserved_witness :
  init (C := Z) 2 5 = Ok (Stats 2 5 [] []) /\
  total k_bytes (run sample_ops (Stats 2 5 [] [])) = recorded k_bytes sample_ops /\
  recorded k_bytes sample_ops = 157.
Proof.
  split; [reflexivity|]. split; [|reflexivity].
  apply (stats_bounded_conserved 2 5 (Stats 2 5 [] []) sample_ops k_bytes). reflexivity.
Defined.

Lemma expire_exact_witness :
  let s := Stats 4 5 [(1, new_entry 3); (2, new_entry 9)] [] in
  clients (expire 10 s) = List.filter (fun ce => 10 - last (snd ce) <? idle_seconds s) (clients s) /\
  clients (expire 10 s) = [(2, new_entry 9)].
Proof.
  intros s. split; [|reflexivity]. apply (expire_exact 10 s).
  assert (H : forall P : Z -> Prop, P 9 -> Forall P [9]) by (intros; by apply Forall_singleton).
  split; cbn.
  - apply SSorted_cons; [apply SSorted_cons; [apply SSorted_nil|by apply List.Forall_nil]|apply H; lia].
  - apply List.Forall_cons; [cbn; lia|]. apply Forall_singleton. cbn. lia.
Defined.
