(* ===== verification/Udpbd.v ===== *)
(** * The UDPBD block server

    Models [udpbd_server/udpbd_server.py]: the packet header and block-type
    codecs, the image-file device, and the server with its INFO, READ, WRITE and
    WRITE_RDMA handlers and the dispatch of its receive loop.

    A device is anything with the operations of [BlockDev]; the server is written
    against that interface, as the Python server takes a [BlockDevice], a
    [RawDevice] or a [VirtualExfat]. *)

From S2P Require Import Prelude SessionStats.

(** ** Packets *)

Definition CMD_INFO : Z := 0.
Definition CMD_INFO_REPLY : Z := 1.
Definition CMD_READ : Z := 2.
Definition CMD_READ_RDMA : Z := 3.
Definition CMD_WRITE : Z := 4.
Definition CMD_WRITE_RDMA : Z := 5.
Definition CMD_WRITE_DONE : Z := 6.

Definition SECTOR_SIZE : Z := 512.
Definition RDMA_MAX_PAYLOAD : Z := 1472 - 2 - 4.

Definition EINVAL : Z := 22.

(** [pack_header]; the masked value always fits its 16 bits. *)
Definition pack_header (cmd cmdid cmdpkt : Z) : bytes :=
  le_bytes 2 (Z.lor (Z.lor (Z.land cmd 31) (Z.shiftl (Z.land cmdid 7) 5))
                    (Z.shiftl (Z.land cmdpkt 255) 8)).

#[global] Arguments pack_header : simpl never.

(** [header_cmd]: [datagram[0] & 0x1F] *)
Definition header_cmd (datagram : bytes) : result Z :=
  b ← index_result datagram 0; Ok (Z.land b 31).

Definition unpack_header (datagram : bytes) : result (Z * Z * Z) :=
  match unpack_from [fH] datagram 0 with
  | Some [value] =>
      Ok (Z.land value 31, Z.land (Z.shiftr value 5) 7, Z.land (Z.shiftr value 8) 255)
  | _ => Err StructError
  end.

Definition pack_block_type (block_shift block_count : Z) : bytes :=
  le_bytes 4 (Z.lor (Z.land block_shift 15) (Z.shiftl (Z.land block_count 511) 4)).

#[global] Arguments pack_block_type : simpl never.

Definition unpack_block_type (datagram : bytes) : result (Z * Z) :=
  match unpack_from [fI] datagram 2 with
  | Some [value] => Ok (Z.land value 15, Z.land (Z.shiftr value 4) 511)
  | _ => Err StructError
  end.

(** [struct.unpack_from("<HIH", datagram, 0)], without the header *)
Definition unpack_request (datagram : bytes) : result (Z * Z) :=
  match unpack_from [fH; fI; fH] datagram 0 with
  | Some [_; sector_nr; sector_count] => Ok (sector_nr, sector_count)
  | _ => Err StructError
  end.

(** ** Devices *)

(** The operations the server uses.  [bd_is_raw] is
    [getattr(bd, "is_raw", False)]; [bd_flush] is [None] for a device without a
    [flush] method; [bd_seek] takes the sector count when the server passes it. *)
Class BlockDev (D : Type) := {
  bd_read_only : D -> bool;
  bd_is_raw : D -> bool;
  bd_sector_count : D -> Z;
  bd_seek : Z -> option Z -> M D unit;
  bd_read : Z -> M D bytes;
  bd_write : bytes -> M D unit;
  bd_flush : option (M D unit)
}.

(** *** [BlockDevice]: an image file opened unbuffered *)
Module Image.

(** [fault] is the error number the host answers reads and writes with, if any
    (a full disk, a failing drive). *)
Record device := Device {
  content : bytes;
  pos : Z;
  size : Z;
  read_only : bool;
  fault : option Z
}.

#[global] Instance eta_device : Eta device := fun d =>
  Device (content d) (pos d) (size d) (read_only d) (fault d).

(** The end of [__init__] on an opened file. *)
Definition open (content : bytes) (read_only : bool) : device :=
  {| content := content; pos := 0; size := zlen content; read_only := read_only; fault := None |}.

Definition sector_count (d : device) : Z := size d / SECTOR_SIZE.

Definition seek (sector : Z) : M device unit := mmod (fun d => d <| pos := sector * SECTOR_SIZE |>).

(** [self._f.read(n)]: short at the end of the file *)
Definition file_read (n : Z) : M device bytes := fun d =>
  match fault d with
  | Some e => (oserror e, d)
  | None => let data := slice (content d) (pos d) (pos d + n) in
            (Ok data, d <| pos ::= Z.add (zlen data) |>)
  end.

(** [self._f.write(data)]: a write past the end extends the file with zeros *)
Definition file_write (data : bytes) : M device unit := fun d =>
  match fault d with
  | Some e => (oserror e, d)
  | None =>
      (Ok tt, d <| content := ljust (ztake (pos d) (content d)) (pos d) ++ data
                               ++ zdrop (pos d + zlen data) (content d) |>
                <| pos ::= Z.add (zlen data) |>)
  end.

Definition read (n : Z) : M device bytes :=
  data ← file_read n;
  mret (if zlen data <? n then data ++ zeros (n - zlen data) else data).

Definition write (data : bytes) : M device unit :=
  d ← mget id;
  if read_only d then mret tt else file_write data.

#[global] Instance image_dev : BlockDev device := {|
  bd_read_only := read_only;
  bd_is_raw := fun _ => false;
  bd_sector_count := sector_count;
  bd_seek := fun sector _ => seek sector;
  bd_read := read;
  bd_write := write;
  bd_flush := None
|}.
End Image.

(** ** The server *)

(** A peer address: IP and port. *)
Definition addr : Type := Z * Z.

#[export] Instance addr_eq_dec : EqDecision addr := _.

Section server.
Context {D : Type} `{!BlockDev D}.

(** [STATS_EXPIRY_SECONDS], in microseconds *)
Definition STATS_EXPIRY : Z := 10000000.

(** [UdpbdServer].  [sent] is what the socket sent, oldest first; [net] scripts
    the outcome of the next [sendto] calls ([Some e]: an [OSError]; an empty
    script: success); [clock] is [time.monotonic()] and [next_expiry] the local
    variable of [run]. *)
Record server := Server {
  bd : D;
  stats_ : option (stats Z);
  total_read : Z;
  total_write : Z;
  write_left : Z;
  write_owner : option (addr * Z);
  block_shift : option Z;
  block_size : Z;
  blocks_per_packet : Z;
  blocks_per_sector : Z;
  sent : list (addr * bytes);
  net : list (option Z);
  clock : Z;
  next_expiry : Z
}.

#[export] Instance eta_server : Eta server := fun s =>
  Server (bd s) (stats_ s) (total_read s) (total_write s) (write_left s) (write_owner s)
    (block_shift s) (block_size s) (blocks_per_packet s) (blocks_per_sector s)
    (sent s) (net s) (clock s) (next_expiry s).

(** [_set_block_shift] *)
Definition set_block_shift (shift : Z) (s : server) : server :=
  if bool_decide (block_shift s = Some shift) then s
  else
    let size := Z.shiftl 1 (shift + 2) in
    s <| block_shift := Some shift |> <| block_size := size |>
      <| blocks_per_packet := RDMA_MAX_PAYLOAD / size |>
      <| blocks_per_sector := SECTOR_SIZE / size |>.

(** [__init__] *)
Definition init (device : D) (stats : option (stats Z)) (clock : Z) : server :=
  set_block_shift 5
    {| bd := device; stats_ := stats; total_read := 0; total_write := 0; write_left := 0;
       write_owner := None; block_shift := None; block_size := 0; blocks_per_packet := 0;
       blocks_per_sector := 0; sent := []; net := []; clock := clock;
       next_expiry := clock + STATS_EXPIRY |}.

(** the choice in [_set_block_shift_for_sectors] *)
Definition shift_for_sectors (sectors : Z) : Z :=
  let size := sectors * SECTOR_SIZE in
  let packets_min := ceil_div size 1440 in
  if ceil_div size 1024 =? packets_min then 7
  else if ceil_div size 1280 =? packets_min then 6
  else if ceil_div size 1408 =? packets_min then 5
  else 3.

Definition set_block_shift_for_sectors (sectors : Z) (s : server) : server :=
  set_block_shift (shift_for_sectors sectors) s.

(** [_record] *)
Definition record_ (a : addr) (k : kind) (n : Z) (s : server) : server :=
  s <| stats_ ::= fmap (record (fst a) k n (clock s)) |>.

Definition sendto (pkt : bytes) (a : addr) : M server unit := fun s =>
  match net s with
  | Some e :: rest => (oserror e, s <| net := rest |>)
  | _ => (Ok tt, s <| net ::= tail |> <| sent ::= fun l => l ++ [(a, pkt)] |>)
  end.

(** a device operation *)
Definition on_bd {A} (m : M D A) : M server A := fun s =>
  let '(r, d) := m (bd s) in (r, s <| bd := d |>).

(** [bd.seek(sector_nr, sector_count)] for a raw device, [bd.seek(sector_nr)]
    otherwise *)
Definition seek_request (sector_nr sector_count : Z) : M server unit :=
  raw ← mget (fun s => bd_is_raw (bd s));
  on_bd (bd_seek sector_nr (if raw : bool then Some sector_count else None)).

(** [_handle_info] *)
Definition handle_info (a : addr) (datagram : bytes) : M server unit :=
  '(_, cmdid, _) ← lift (unpack_header datagram);
  _ ← mmod (record_ a connections 1);
  _ ← mmod (fun s => s <| write_left := 0 |>);
  count ← mget (fun s => bd_sector_count (bd s));
  body ← lift (struct_result (pack [(fI, SECTOR_SIZE); (fI, count)]));
  sendto (pack_header CMD_INFO_REPLY cmdid 1 ++ body) a.

(** the packet loop of [_handle_read] *)
Fixpoint read_packets (fuel : nat) (a : addr) (cmdid cmdpkt blocks_left : Z) : M server unit :=
  if blocks_left <=? 0 then mret tt
  else match fuel with
  | O => raise Hang
  | S fuel =>
      s ← mget id;
      let block_count := Z.min blocks_left (blocks_per_packet s) in
      data ← on_bd (bd_read (block_count * block_size s));
      let packet := pack_header CMD_READ_RDMA cmdid cmdpkt
                    ++ pack_block_type (default 0 (block_shift s)) block_count ++ data in
      _ ← sendto packet a;
      _ ← mmod (record_ a k_bytes (zlen data));
      read_packets fuel a cmdid (Z.land (cmdpkt + 1) 255) (blocks_left - block_count)
  end.

(** [_handle_read] *)
Definition handle_read (a : addr) (datagram : bytes) : M server unit :=
  '(_, cmdid, _) ← lift (unpack_header datagram);
  '(sector_nr, sector_count) ← lift (unpack_request datagram);
  s ← mget id;
  if bd_is_raw (bd s) && (bd_sector_count (bd s) <? sector_nr + sector_count)
  then raise (OSError (Some EINVAL))
  else
    _ ← mmod (fun s => s <| write_left := 0 |>);
    _ ← mmod (set_block_shift_for_sectors sector_count);
    s ← mget id;
    let blocks_left := sector_count * blocks_per_sector s in
    _ ← mmod (fun s => s <| total_read ::= Z.add (blocks_left * block_size s) |>);
    _ ← mmod (record_ a k_read 1);
    _ ← seek_request sector_nr sector_count;
    read_packets (Z.to_nat blocks_left) a cmdid 1 blocks_left.

Definition write_done (a : addr) (cmdid result : Z) : M server unit :=
  body ← lift (struct_result (pack [(fi, result)]));
  sendto (pack_header CMD_WRITE_DONE cmdid (Z.land (cmdid + 1) 255) ++ body) a.

(** [except OSError] *)
Definition catch_oserror {S A} (m : M S A) (h : M S A) : M S A :=
  mcatch m (fun e => match e with OSError _ => Some h | _ => None end).

(** [_handle_write] *)
Definition handle_write (a : addr) (datagram : bytes) : M server unit :=
  '(_, cmdid, _) ← lift (unpack_header datagram);
  '(sector_nr, sector_count) ← lift (unpack_request datagram);
  _ ← mmod (record_ a k_write 1);
  ro ← mget (fun s => bd_read_only (bd s));
  _ ← mwhen ro (mmod (record_ a errors 1));
  _ ← mmod (fun s => s <| write_left := 0 |> <| write_owner := Some (a, cmdid) |>);
  ok ← catch_oserror (_ ← seek_request sector_nr sector_count; mret true)
         (_ ← mmod (record_ a errors 1); _ ← write_done a cmdid (-1); mret false);
  mwhen ok
    (mmod (fun s => let left := sector_count * SECTOR_SIZE in
                    s <| write_left := left |> <| total_write ::= Z.add left |>)).

(** [_handle_write_rdma] *)
Definition handle_write_rdma (a : addr) (datagram : bytes) : M server unit :=
  '(_, cmdid, _) ← lift (unpack_header datagram);
  s ← mget id;
  if write_left s <=? 0 then mret tt
  else if negb (bool_decide (write_owner s = Some (a, cmdid))) then mret tt
  else
    '(shift, block_count) ← lift (unpack_block_type datagram);
    let size := block_count * Z.shiftl 1 (shift + 2) in
    if zlen datagram <? 6 + size then mret tt
    else
      let size := Z.min size (write_left s) in
      ok ← catch_oserror
             (_ ← on_bd (bd_write (slice datagram 6 (6 + size)));
              _ ← match bd_flush with
                  | Some flush => mwhen (size =? write_left s) (on_bd flush)
                  | None => mret tt
                  end;
              mret true)
             (_ ← mmod (record_ a errors 1);
              _ ← mmod (fun s => s <| write_left := 0 |>);
              _ ← write_done a cmdid (-1);
              mret false);
      mwhen ok
        (_ ← mmod (fun s => s <| write_left ::= fun n => n - size |>);
         s ← mget id;
         mwhen (write_left s <=? 0)
           (write_done a cmdid (if bd_read_only (bd s) then -1 else 0))).

(** The dispatch of one received datagram in [run]: malformed packets are
    ignored, an [OSError] is counted, any other exception ends the server. *)
Definition on_datagram (a : addr) (datagram : bytes) : M server unit :=
  if zlen datagram <? 2 then mret tt
  else
    mcatch
      (cmd ← lift (header_cmd datagram);
       if cmd =? CMD_INFO then handle_info a datagram
       else if (cmd =? CMD_READ) && (8 <=? zlen datagram) then handle_read a datagram
       else if (cmd =? CMD_WRITE) && (8 <=? zlen datagram) then handle_write a datagram
       else if (cmd =? CMD_WRITE_RDMA) && (6 <=? zlen datagram) then handle_write_rdma a datagram
       else mret tt)
      (fun e => match e with
                | StructError | IndexError => Some (mret tt)
                | OSError _ => Some (mmod (record_ a errors 1))
                | _ => None
                end).

(** One turn of the receive loop of [run] at time [now]: summarise the quiet
    consoles when the interval has passed, then handle the datagram received in
    this turn, if any. *)
Record turn := Turn { at_ : Z; received : option (addr * bytes) }.

Definition expire_stats (s : server) : server :=
  match stats_ s with
  | Some st =>
      if next_expiry s <=? clock s
      then s <| stats_ := Some (expire (clock s) st) |> <| next_expiry := clock s + STATS_EXPIRY |>
      else s
  | None => s
  end.

Definition on_turn (t : turn) : M server unit :=
  _ ← mmod (fun s => expire_stats (s <| clock := at_ t |>));
  match received t with
  | Some (a, d) => on_datagram a d
  | None => mret tt
  end.

Fixpoint run (ts : list turn) : M server unit :=
  match ts with
  | [] => mret tt
  | t :: ts => _ ← on_turn t; run ts
  end.
End server.
Arguments server : clear implicits.
