(* ===== verification/UdpbdFacts.v ===== *)
(** * What the UDPBD server guarantees

    Theorems about [Udpbd]: the packet codecs, the choice of block size, the reply
    to a READ as an exact cut of the device's contents into packets, and the safety
    of writes (only requested sectors change, a read-only device never does,
    unsolicited data is dropped). *)

From S2P Require Import Prelude SessionStats Udpbd.

(** ** Codecs *)

Ltac mask_simpl :=
  repeat match goal with
  | |- context [Z.land ?x 7] => rewrite (land_mask x 3 7) by (reflexivity || lia)
  | |- context [Z.land ?x 15] => rewrite (land_mask x 4 15) by (reflexivity || lia)
  | |- context [Z.land ?x 31] => rewrite (land_mask x 5 31) by (reflexivity || lia)
  | |- context [Z.land ?x 255] => rewrite (land_mask x 8 255) by (reflexivity || lia)
  | |- context [Z.land ?x 511] => rewrite (land_mask x 9 511) by (reflexivity || lia)
  end;
  change (2 ^ 3) with 8; change (2 ^ 4) with 16; change (2 ^ 5) with 32;
  change (2 ^ 8) with 256; change (2 ^ 9) with 512.

(** [lia] with the field sizes evaluated *)
Ltac field_lia :=
  change (2 ^ 4) with 16; change (2 ^ 5) with 32; change (2 ^ 8) with 256;
  change (256 ^ Z.of_nat 2) with 65536; change (256 ^ Z.of_nat 4) with 4294967296; lia.

(** A packed header starts any packet and reads back as its fields, each cut to its
    width: 5 bits of command, 3 of command id, 8 of packet number. *)
Lemma header_roundtrip cmd cmdid cmdpkt rest :
  unpack_header (pack_header cmd cmdid cmdpkt ++ rest) = Ok (cmd mod 32, cmdid mod 8, cmdpkt mod 256).
Proof.
  unfold unpack_header, pack_header. mask_simpl.
  pose proof (Z.mod_pos_bound cmd 32 ltac:(lia)). pose proof (Z.mod_pos_bound cmdid 8 ltac:(lia)).
  pose proof (Z.mod_pos_bound cmdpkt 256 ltac:(lia)).
  rewrite (lor_shiftl_add (cmd mod 32)) by lia. rewrite lor_shiftl_add by lia.
  set (v := cmd mod 32 + cmdid mod 8 * 2 ^ 5 + cmdpkt mod 256 * 2 ^ 8).
  assert (Hf : fits fH v = true) by (apply fits_unsigned; unfold v; field_lia).
  rewrite (unpack_from_app [(fH, v)] _ _ (pack_single _ _ Hf)).
  cbn [map snd]. mask_simpl. rewrite !Z.shiftr_div_pow2 by lia.
  subst v. abstract_mod cmd 32. abstract_mod cmdid 8. abstract_mod cmdpkt 256. intros.
  change (2 ^ 5) with 32; change (2 ^ 8) with 256.
  repeat f_equal; Z.to_euclidean_division_equations; lia.
Qed.

Lemma block_type_roundtrip hdr shift count rest :
  zlen hdr = 2 ->
  unpack_block_type (hdr ++ pack_block_type shift count ++ rest) = Ok (shift mod 16, count mod 512).
Proof.
  intros Hl. unfold unpack_block_type, pack_block_type. mask_simpl.
  pose proof (Z.mod_pos_bound shift 16 ltac:(lia)). pose proof (Z.mod_pos_bound count 512 ltac:(lia)).
  rewrite lor_shiftl_add by lia. set (v := shift mod 16 + count mod 512 * 2 ^ 4).
  assert (unpack_from [fI] (hdr ++ le_bytes 4 v ++ rest) 2 = unpack_from [fI] (le_bytes 4 v ++ rest) 0) as ->.
  { unfold unpack_from, slice. by rewrite (zdrop_app_length 2), zdrop_0 by done. }
  assert (Hf : fits fI v = true) by (apply fits_unsigned; unfold v; field_lia).
  rewrite (unpack_from_app [(fI, v)] _ _ (pack_single _ _ Hf)).
  cbn [map snd]. mask_simpl. rewrite !Z.shiftr_div_pow2 by lia.
  subst v. abstract_mod shift 16. abstract_mod count 512. intros.
  change (2 ^ 4) with 16.
  repeat f_equal; Z.to_euclidean_division_equations; lia.
Qed.

Lemma pack_header_value cmd cmdid cmdpkt :
  exists v, pack_header cmd cmdid cmdpkt = le_bytes 2 v /\ 0 <= v < 65536 /\
    v mod 32 = cmd mod 32.
Proof.
  eexists. split; [reflexivity|]. mask_simpl.
  pose proof (Z.mod_pos_bound cmd 32 ltac:(lia)). pose proof (Z.mod_pos_bound cmdid 8 ltac:(lia)).
  pose proof (Z.mod_pos_bound cmdpkt 256 ltac:(lia)).
  rewrite (lor_shiftl_add (cmd mod 32)) by lia. rewrite lor_shiftl_add by lia.
  abstract_mod cmd 32. abstract_mod cmdid 8. abstract_mod cmdpkt 256. intros.
  change (2 ^ 5) with 32; change (2 ^ 8) with 256.
  split; [lia|]. Z.to_euclidean_division_equations; lia.
Qed.

Lemma header_cmd_pack cmd cmdid cmdpkt rest :
  header_cmd (pack_header cmd cmdid cmdpkt ++ rest) = Ok (cmd mod 32).
Proof.
  destruct (pack_header_value cmd cmdid cmdpkt) as (v & -> & Hv & Hm).
  unfold header_cmd, index_result, zlookup. cbn. change (Z.to_nat 0) with 0%nat. cbn.
  mask_simpl. f_equal. rewrite <- Hm. Z.to_euclidean_division_equations; lia.
Qed.

Lemma packet_parts cmd cmdid cmdpkt shift count data :
  let d := pack_header cmd cmdid cmdpkt ++ pack_block_type shift count ++ data in
  unpack_header d = Ok (cmd mod 32, cmdid mod 8, cmdpkt mod 256) /\
  header_cmd d = Ok (cmd mod 32) /\
  unpack_block_type d = Ok (shift mod 16, count mod 512) /\
  zdrop 6 d = data.
Proof.
  intros d. split_and!.
  - apply header_roundtrip.
  - apply header_cmd_pack.
  - apply block_type_roundtrip. unfold zlen, pack_header. by rewrite length_le_bytes.
  - unfold d. rewrite app_assoc. apply zdrop_app_length.
    unfold zlen, pack_header, pack_block_type. by rewrite length_app, !length_le_bytes.
Qed.

(** What the packers write, the unpackers read back: the header of any packet gives
    the command, the command id and the packet number, and the block type at offset
    2 gives the block shift and count, each cut to its field. *)
Theorem packet_roundtrip cmd cmdid cmdpkt shift count data :
  let d := pack_header cmd cmdid cmdpkt ++ pack_block_type shift count ++ data in
  unpack_header d = Ok (cmd mod 32, cmdid mod 8, cmdpkt mod 256) /\
  header_cmd d = Ok (cmd mod 32) /\
  unpack_block_type d = Ok (shift mod 16, count mod 512) /\
  zdrop 6 d = data.
Proof. exact (packet_parts cmd cmdid cmdpkt shift count data). Qed.

(** ** Block sizes *)

(** The packets a READ of [sectors] needs at a given block shift. *)
Definition packets_needed (shift sectors : Z) : Z :=
  let size := Z.shiftl 1 (shift + 2) in
  ceil_div (sectors * (SECTOR_SIZE / size)) (RDMA_MAX_PAYLOAD / size).

(** The chosen shift gives whole blocks per sector, packets that fit a datagram and
    a block count that fits its 9 bits; among the block sizes from 32 bytes up it
    needs the fewest packets, and no larger block needs as few. *)
Theorem shift_for_sectors_optimal sectors shift :
  1 <= sectors -> 3 <= shift <= 7 ->
  let chosen := shift_for_sectors sectors in
  let size := Z.shiftl 1 (chosen + 2) in
  (3 <= chosen <= 7 /\ SECTOR_SIZE mod size = 0 /\ 1 <= RDMA_MAX_PAYLOAD / size <= 511 /\
   RDMA_MAX_PAYLOAD / size * size <= RDMA_MAX_PAYLOAD) /\
  packets_needed chosen sectors <= packets_needed shift sectors /\
  (packets_needed shift sectors = packets_needed chosen sectors -> shift <= chosen).
Proof.
  intros Hs Hsh chosen size.
  assert (H3 : packets_needed 3 sectors = ceil_div (sectors * 16) 45) by done.
  assert (H4 : packets_needed 4 sectors = ceil_div (sectors * 8) 22) by done.
  assert (H5 : packets_needed 5 sectors = ceil_div (sectors * 4) 11) by done.
  assert (H6 : packets_needed 6 sectors = ceil_div (sectors * 2) 5) by done.
  assert (H7 : packets_needed 7 sectors = ceil_div (sectors * 1) 2) by done.
  assert (chosen = 7 \/ chosen = 6 \/ chosen = 5 \/ chosen = 3) as Hc
    by (unfold chosen, shift_for_sectors; repeat case_match; tauto).
  split.
  - unfold size. by destruct Hc as [-> | [-> | [-> | ->]]].
  - assert (E : forall a b, 0 < b -> ceil_div (sectors * 512) (b * a) = ceil_div (sectors * 512) (b * a)) by done.
    unfold chosen, shift_for_sectors in *. unfold SECTOR_SIZE, ceil_div in *.
    assert (shift = 3 \/ shift = 4 \/ shift = 5 \/ shift = 6 \/ shift = 7) as Hsh' by lia.
    destruct (Z.eqb_spec (- (- (sectors * 512) / 1024)) (- (- (sectors * 512) / 1440)));
      [|destruct (Z.eqb_spec (- (- (sectors * 512) / 1280)) (- (- (sectors * 512) / 1440)));
      [|destruct (Z.eqb_spec (- (- (sectors * 512) / 1408)) (- (- (sectors * 512) / 1440)))]];
    rewrite ?H3, ?H5, ?H6, ?H7;
    destruct Hsh' as [-> | [-> | [-> | [-> | ->]]]]; rewrite ?H3, ?H4, ?H5, ?H6, ?H7;
    Z.to_euclidean_division_equations; lia.
Qed.

(** ** The devices' side of the contract *)

(** What a device promises a server that reads from it: [bd_byte] is its contents,
    [bd_ready d a n] says that it stands at byte [a] with [n] bytes to read.  A
    seek inside the device makes the request's bytes ready, and a read returns the
    next of them without changing the contents. *)
Class BlockDevReads (D : Type) `{!BlockDev D} := {
  bd_byte : D -> Z -> Z;
  bd_ok : D -> Prop;
  bd_ready : D -> Z -> Z -> Prop;
  bd_ready_ok : forall d a n, bd_ready d a n -> bd_ok d;
  bd_seek_ready : forall d sector count,
    bd_ok d -> 0 <= sector -> 0 <= count ->
    (bd_is_raw d = true -> sector + count <= bd_sector_count d) ->
    exists d', bd_seek sector (if bd_is_raw d then Some count else None) d = (Ok tt, d') /\
      bd_ready d' (sector * SECTOR_SIZE) (count * SECTOR_SIZE) /\
      forall i, bd_byte d' i = bd_byte d i;
  bd_read_ready : forall d a n m,
    bd_ready d a (n + m) -> 0 <= n -> 0 <= m ->
    exists d', bd_read n d = (Ok (stream (bd_byte d) a n), d') /\
      bd_ready d' (a + n) m /\ forall i, bd_byte d' i = bd_byte d i
}.

(** An image file keeps the contract while the host reads it without errors; past
    its end it reads as zeros. *)
Lemma padded_stream (l : bytes) a n :
  0 <= a -> 0 <= n ->
  slice l a (a + n) ++ zeros (n - zlen (slice l a (a + n))) = stream (znth l) a n.
Proof.
  intros Ha Hn. pose proof (zlen_nonneg l).
  destruct (Z.le_gt_cases (a + n) (zlen l)).
  - rewrite zlen_slice by lia. unfold zeros.
    replace (Z.to_nat _) with 0%nat by lia. rewrite app_nil_r. by apply slice_stream.
  - set (k := Z.max 0 (zlen l - a)).
    assert (Hs : slice l a (a + n) = stream (znth l) a k).
    { destruct (Z.le_gt_cases (zlen l) a).
      - unfold k. rewrite stream_nonpos by lia. apply zlen_0_nil. rewrite zlen_slice; lia.
      - rewrite <- (slice_stream l a k) by lia. unfold slice, k, ztake, zdrop.
        rewrite !take_ge by (rewrite length_drop; unfold zlen in *; lia). done. }
    rewrite Hs, zlen_stream. replace n with (k + (n - k)) at 2 by lia.
    rewrite stream_app by lia. f_equal. unfold zeros.
    replace (n - Z.max 0 k) with (n - k) by lia.
    assert (E : stream (znth l) (a + k) (n - k) = stream (fun _ => 0) (a + k) (n - k)).
    { apply stream_ext. intros i Hi. unfold znth. apply nth_overflow. unfold zlen in *. lia. }
    rewrite E. unfold stream. symmetry.
    assert (Hrep : forall j (m : list Z), length m = j -> map (fun _ => 0) m = replicate j 0).
    { induction j; destruct m; intros; cbn in *; try lia; f_equal; auto. }
    apply Hrep. apply length_seqZ.
Qed.

Lemma stream_past l a b n : zlen l <= a -> zlen l <= b -> 0 <= a -> 0 <= b ->
  stream (znth l) a n = stream (znth l) b n.
Proof.
  intros. replace b with (a + (b - a)) by lia. rewrite <- (stream_shift (znth l) a (b - a)).
  apply stream_ext. intros i Hi. unfold znth, zlen in *. by rewrite !nth_overflow by lia.
Qed.

#[export] Program Instance image_reads : BlockDevReads Image.device := {|
  bd_byte d := znth (Image.content d);
  bd_ok d := Image.fault d = None;
  bd_ready d a n := Image.fault d = None /\ 0 <= Image.pos d /\
    (Image.pos d = a \/ zlen (Image.content d) <= Image.pos d <= a)
|}.
Next Obligation. by intros d a n [? _]. Qed.
Next Obligation.
  intros d sector count Hok ???. eexists. split; [reflexivity|]. split; [|done].
  unfold SECTOR_SIZE. cbn. split_and!; [done|lia|by left].
Qed.
Next Obligation.
  intros d a n m (Hok & Hp & Ha) ??.
  assert (Hst : stream (znth (Image.content d)) a n
                = stream (znth (Image.content d)) (Image.pos d) n).
  { destruct Ha as [-> |]; [done|]. apply stream_past; lia. }
  pose proof (zlen_slice (Image.content d) (Image.pos d) (Image.pos d + n) Hp) as Hl.
  pose proof (zlen_nonneg (Image.content d)).
  eexists (d <| Image.pos ::= Z.add (zlen (slice (Image.content d) (Image.pos d) (Image.pos d + n))) |>).
  split_and!; [|cbn -[slice]; done|cbn -[slice]; lia|cbn -[slice]; lia|done].
  change (bd_read n d) with (Image.read n d).
  unfold Image.read, Image.file_read, mbind, M_bind. rewrite Hok.
  rewrite Hst, <- padded_stream by lia. unfold mret, M_ret.
  destruct (Z.ltb_spec (zlen (slice (Image.content d) (Image.pos d) (Image.pos d + n))) n); [done|].
  unfold zeros. replace (Z.to_nat _) with 0%nat by lia. by rewrite app_nil_r.
Qed.

(** ** Requests *)

(** A READ or WRITE request as a console sends it. *)
Definition request (cmd cmdid cmdpkt sector count : Z) : bytes :=
  pack_header cmd cmdid cmdpkt ++ le_bytes 4 sector ++ le_bytes 2 count.

Lemma request_parses cmd cmdid cmdpkt sector count :
  0 <= sector < 2 ^ 32 -> 0 <= count < 2 ^ 16 ->
  let d := request cmd cmdid cmdpkt sector count in
  zlen d = 8 /\ header_cmd d = Ok (cmd mod 32) /\
  unpack_header d = Ok (cmd mod 32, cmdid mod 8, cmdpkt mod 256) /\
  unpack_request d = Ok (sector, count).
Proof.
  intros Hs Hc d. split_and!; [|apply header_cmd_pack|apply header_roundtrip|].
  - unfold d, request, pack_header, zlen. by rewrite !length_app, !length_le_bytes.
  - unfold d, request, unpack_request.
    destruct (pack_header_value cmd cmdid cmdpkt) as (v & -> & Hv & _).
    assert (pack [(fH, v); (fI, sector); (fH, count)]
            = Some (le_bytes 2 v ++ le_bytes 4 sector ++ le_bytes 2 count)) as Hp.
    { cbn [pack]. rewrite !fits_unsigned by (field_lia || lia).
      cbn [mbind option_bind fsize]. by rewrite app_nil_r. }
    apply (unpack_from_app _ _ []) in Hp. rewrite app_nil_r in Hp. cbn [map fst snd] in Hp. by rewrite Hp.
Qed.

(** ** READ *)

(** The packets that carry [data] as packet [k], with [n] blocks *)
Definition read_packet (cmdid k shift n : Z) (data : bytes) : bytes :=
  pack_header CMD_READ_RDMA cmdid k ++ pack_block_type shift n ++ data.

Section read.
Context {D : Type} `{BlockDevReads D}.
Implicit Types s : server D.

(** The block geometry that [set_block_shift] establishes. *)
Definition geometry_ok s : Prop :=
  exists shift, block_shift s = Some shift /\ 3 <= shift <= 7 /\
    block_size s = 2 ^ (shift + 2) /\ blocks_per_packet s = RDMA_MAX_PAYLOAD / 2 ^ (shift + 2) /\
    blocks_per_sector s = SECTOR_SIZE / 2 ^ (shift + 2).

Lemma set_block_shift_geometry shift s :
  3 <= shift <= 7 -> geometry_ok s -> geometry_ok (set_block_shift shift s).
Proof.
  intros Hs Hg. unfold set_block_shift. case_bool_decide; [done|].
  exists shift. cbn -[Z.pow Z.div]. rewrite Z.shiftl_1_l. done.
Qed.

Lemma set_block_shift_frame shift s :
  block_shift (set_block_shift shift s) = Some shift /\
  bd (set_block_shift shift s) = bd s /\ net (set_block_shift shift s) = net s /\
  sent (set_block_shift shift s) = sent s.
Proof. unfold set_block_shift. by case_bool_decide. Qed.

(** What the packet loop leaves alone. *)
Definition read_frame s s' : Prop :=
  block_shift s' = block_shift s /\ block_size s' = block_size s /\
  blocks_per_packet s' = blocks_per_packet s /\ net s' = net s /\
  write_left s' = write_left s /\ total_read s' = total_read s.

Lemma read_frame_trans s1 s2 s3 : read_frame s1 s2 -> read_frame s2 s3 -> read_frame s1 s3.
Proof. unfold read_frame. intuition congruence. Qed.

Lemma read_packet_data cmdid k shift n data : zdrop 6 (read_packet cmdid k shift n data) = data.
Proof.
  unfold read_packet. rewrite app_assoc. apply zdrop_app_length.
  unfold zlen, pack_header, pack_block_type. by rewrite length_app, !length_le_bytes.
Qed.

(** One turn of the loop: the next [n] blocks leave in packet [k]. *)
Lemma read_step fuel peer cmdid k left s shift a :
  let n := Z.min left (blocks_per_packet s) in
  block_shift s = Some shift -> 0 <= block_size s -> 1 <= blocks_per_packet s -> net s = [] ->
  0 < left -> bd_ready (bd s) a (left * block_size s) ->
  exists s1, read_packets (S fuel) peer cmdid k left s
      = read_packets fuel peer cmdid ((k + 1) mod 256) (left - n) s1 /\
    read_frame s s1 /\
    sent s1 = sent s ++ [(peer, read_packet cmdid k shift n (stream (bd_byte (bd s)) a (n * block_size s)))] /\
    bd_ready (bd s1) (a + n * block_size s) ((left - n) * block_size s) /\
    (forall i, bd_byte (bd s1) i = bd_byte (bd s) i).
Proof.
  intros n Hsh Hbs Hbpp Hnet Hl Hr.
  replace (left * block_size s) with (n * block_size s + (left - n) * block_size s) in Hr by lia.
  apply bd_read_ready in Hr as (d' & Hd & Hr & Hb); [|unfold n; nia|unfold n; nia].
  cbn [read_packets]. rewrite (proj2 (Z.leb_gt left 0)) by lia.
  unfold mget, mbind, M_bind, id, on_bd. fold n. rewrite Hd. unfold sendto. cbn [set_field net].
  rewrite Hnet, (land_mask (k + 1) 8 255) by (reflexivity || lia). unfold mmod.
  eexists. split; [reflexivity|]. split; [by repeat split; cbn; rewrite ?Hnet|].
  split; [|done]. cbn -[stream Z.mul]. unfold read_packet. by rewrite Hsh.
Qed.

Lemma ceil_div_step a b : 0 < b -> 0 < a -> ceil_div a b = 1 + ceil_div (a - Z.min a b) b.
Proof.
  intros. unfold ceil_div. destruct (Z.le_gt_cases a b).
  - rewrite Z.min_l, Z.sub_diag by lia. change (- 0) with 0. rewrite Z.div_0_l by lia.
    assert ((- a) / b = -1) by (symmetry; apply (Z.div_unique _ _ _ (b - a)); lia). lia.
  - rewrite Z.min_r by lia. replace (- (a - b)) with (- a + 1 * b) by lia.
    rewrite Z_div_plus by lia. lia.
Qed.

Lemma read_packets_spec fuel peer cmdid k left s shift a :
  block_shift s = Some shift -> 0 <= block_size s -> 1 <= blocks_per_packet s -> net s = [] ->
  0 <= left <= Z.of_nat fuel -> 0 <= k < 256 -> bd_ready (bd s) a (left * block_size s) ->
  exists s' pkts, read_packets fuel peer cmdid k left s = (Ok tt, s') /\ read_frame s s' /\
    sent s' = sent s ++ map (pair peer) pkts /\
    concat (map (zdrop 6) pkts) = stream (bd_byte (bd s)) a (left * block_size s) /\
    zlen pkts = ceil_div left (blocks_per_packet s) /\
    (forall j pkt, pkts !! j = Some pkt -> exists n data,
       pkt = read_packet cmdid ((k + Z.of_nat j) mod 256) shift n data /\
       1 <= n <= blocks_per_packet s /\ zlen data = n * block_size s).
Proof.
  revert k left s a. induction fuel as [|fuel IH]; intros k left s a Hsh Hbs Hbpp Hnet Hl Hk Hr.
  all: destruct (Z.eq_dec left 0) as [-> |Hne].
  1, 3: exists s, []; cbn [map concat]; rewrite app_nil_r, stream_nonpos by lia;
    unfold ceil_div, read_frame; by rewrite Z.div_0_l by lia.
  { lia. }
  destruct (read_step fuel peer cmdid k left s shift a) as (s1 & -> & Hfr & Hs1 & Hr1 & Hb); [done|lia|lia|done|lia|done|].
  set (n := Z.min left (blocks_per_packet s)) in *. set (data := stream _ a (n * _)) in *.
  pose proof Hfr as (Fsh & Fbs & Fbpp & Fnet & _).
  destruct (IH ((k + 1) mod 256) (left - n) s1 (a + n * block_size s))
    as (s' & pkts & -> & Hfr' & Hs' & Hc & Hn & Hp);
    [congruence|lia|lia|congruence|unfold n; lia|apply Z.mod_pos_bound; lia|by rewrite Fbs|].
  rewrite Fbs, Fbpp in *.
  exists s', (read_packet cmdid k shift n data :: pkts). split_and!; [done|by eapply read_frame_trans|..].
  - rewrite Hs', Hs1, <- app_assoc. done.
  - cbn [map concat]. rewrite read_packet_data, Hc. unfold data.
    rewrite (stream_ext (bd_byte (bd s1)) (bd_byte (bd s))) by (intros; apply Hb).
    rewrite <- stream_app by (unfold n; nia). f_equal. lia.
  - rewrite zlen_cons, Hn. unfold n. rewrite (ceil_div_step left) by lia. done.
  - intros [|j] q; cbn [lookup list_lookup]; [intros [= <-]|intros (m & dt & -> & Hm & Hdt)%Hp].
    + exists n, data. replace ((k + Z.of_nat 0) mod 256) with k
        by (rewrite Nat2Z.inj_0, Z.add_0_r, Z.mod_small; lia).
      split; [done|]. unfold data. rewrite zlen_stream. unfold n. split; nia.
    + exists m, dt. split; [|done]. f_equal. rewrite Zplus_mod_idemp_l. f_equal. lia.
Qed.

(** The work of [handle_read] up to the packet loop. *)
Lemma handle_read_start s peer cmdid k sector count :
  bd_ok (bd s) -> geometry_ok s -> net s = [] ->
  0 <= sector < 2 ^ 32 -> 0 <= count < 2 ^ 16 ->
  (bd_is_raw (bd s) = true -> sector + count <= bd_sector_count (bd s)) ->
  let shift := shift_for_sectors count in
  let left := count * (SECTOR_SIZE / 2 ^ (shift + 2)) in
  exists s1, handle_read peer (request CMD_READ cmdid k sector count) s
      = read_packets (Z.to_nat left) peer (cmdid mod 8) 1 left s1 /\
    block_shift s1 = Some shift /\ block_size s1 = 2 ^ (shift + 2) /\
    blocks_per_packet s1 = RDMA_MAX_PAYLOAD / 2 ^ (shift + 2) /\ net s1 = [] /\
    sent s1 = sent s /\ write_left s1 = 0 /\
    total_read s1 = total_read s + left * 2 ^ (shift + 2) /\
    bd_ready (bd s1) (sector * SECTOR_SIZE) (count * SECTOR_SIZE) /\
    (forall i, bd_byte (bd s1) i = bd_byte (bd s) i).
Proof.
  intros Hok Hgeo Hnet Hs Hc Hraw shift left.
  destruct (request_parses CMD_READ cmdid k sector count Hs Hc) as (_ & _ & Hh & Hq).
  unfold handle_read, lift, mbind, M_bind, mget, id, mmod. rewrite Hh, Hq.
  replace (bd_is_raw (bd s) && (bd_sector_count (bd s) <? sector + count)) with false
    by (destruct (bd_is_raw (bd s)); [destruct (Z.ltb_spec (bd_sector_count (bd s)) (sector + count));
        [lia|done]|done]).
  cbn iota beta. unfold set_block_shift_for_sectors. fold shift.
  set (s0 := set_block_shift shift _).
  assert (Hg : geometry_ok s0).
  { apply set_block_shift_geometry; [|done].
    unfold shift, shift_for_sectors. repeat case_match; lia. }
  destruct (set_block_shift_frame shift (s <| write_left := 0 |>)) as (Fsh & Fbd & Fnet & Fsent).
  fold s0 in Fsh, Fbd, Fnet, Fsent.
  destruct Hg as (sh & Hsh & Hshr & Hbs & Hbpp & Hbps). rewrite Fsh in Hsh. injection Hsh as <-.
  unfold seek_request, on_bd, mget, mbind, M_bind.
  cbn [record_ set_field bd]. rewrite Fbd. cbn [set_field bd].
  destruct (bd_seek_ready (bd s) sector count) as (d' & Hd & Hr & Hb); [done|lia|lia|done|].
  rewrite Hd. eexists. split; [rewrite Hbps; reflexivity|]. cbn -[Z.pow Z.div Z.mul].
  rewrite Fnet, Fsent, Hbs. split_and!; try done.
  - unfold s0, set_block_shift. by case_bool_decide.
  - rewrite Z.add_comm. f_equal. unfold s0, set_block_shift. by case_bool_decide.
Qed.

(** A READ inside the device is answered with its bytes and nothing else, in
    as few packets as the block size allows: numbered from 1 (mod 256), each at
    most a 1472-byte datagram whose block type gives its exact payload. *)
Theorem read_reply_exact s peer cmdid k sector count :
  bd_ok (bd s) -> geometry_ok s -> net s = [] ->
  0 <= sector < 2 ^ 32 -> 0 <= count < 2 ^ 16 ->
  (bd_is_raw (bd s) = true -> sector + count <= bd_sector_count (bd s)) ->
  let shift := shift_for_sectors count in
  exists s' pkts, on_datagram peer (request CMD_READ cmdid k sector count) s = (Ok tt, s') /\
    sent s' = sent s ++ map (pair peer) pkts /\
    concat (map (zdrop 6) pkts) = stream (bd_byte (bd s)) (sector * SECTOR_SIZE) (count * SECTOR_SIZE) /\
    zlen pkts = packets_needed shift count /\
    (forall j pkt, pkts !! j = Some pkt -> exists n,
       unpack_header pkt = Ok (CMD_READ_RDMA, cmdid mod 8, (1 + Z.of_nat j) mod 256) /\
       unpack_block_type pkt = Ok (shift, n) /\
       0 < n /\ zlen pkt = 6 + n * 2 ^ (shift + 2) /\ zlen pkt <= 1472) /\
    write_left s' = 0 /\ total_read s' = total_read s + count * SECTOR_SIZE.
Proof.
  intros Hok Hgeo Hnet Hs Hc Hraw shift.
  destruct (request_parses CMD_READ cmdid k sector count Hs Hc) as (Hl & Hcmd & _).
  destruct (handle_read_start s peer cmdid k sector count)
    as (s1 & Hh & Hsh & Hbs & Hbpp & Hn1 & Hsent & Hw & Ht & Hr & Hb); [done..|].
  fold shift in Hh, Hsh, Hbs, Hbpp, Ht.
  assert (shift = 7 \/ shift = 6 \/ shift = 5 \/ shift = 3) as Hcase
    by (unfold shift, shift_for_sectors; repeat case_match; tauto).
  assert (Hgeom : SECTOR_SIZE / 2 ^ (shift + 2) * 2 ^ (shift + 2) = SECTOR_SIZE /\
    0 < 2 ^ (shift + 2) /\ 0 <= SECTOR_SIZE / 2 ^ (shift + 2) /\
    1 <= RDMA_MAX_PAYLOAD / 2 ^ (shift + 2) < 512 /\ shift mod 16 = shift /\
    RDMA_MAX_PAYLOAD / 2 ^ (shift + 2) * 2 ^ (shift + 2) <= RDMA_MAX_PAYLOAD)
    by (destruct Hcase as [-> | [-> | [-> | ->]]]; done).
  destruct Hgeom as (G1 & G2 & G3 & G4 & G5 & G6).
  assert (E : count * (SECTOR_SIZE / 2 ^ (shift + 2)) * 2 ^ (shift + 2) = count * SECTOR_SIZE) by lia.
  destruct (read_packets_spec (Z.to_nat (count * (SECTOR_SIZE / 2 ^ (shift + 2)))) peer (cmdid mod 8) 1
    (count * (SECTOR_SIZE / 2 ^ (shift + 2))) s1 shift (sector * SECTOR_SIZE))
    as (s' & pkts & Hrun & Hfr & Hs' & Hcat & Hnum & Hp); [done|lia|lia|done|nia|lia| |].
  { by rewrite Hbs, E. }
  exists s', pkts. split_and!.
  - unfold on_datagram. rewrite Hl. change (8 <? 2) with false. unfold mcatch.
    cbv beta iota. unfold lift at 1, mbind, M_bind at 1. rewrite Hcmd.
    change (CMD_READ mod 32 =? CMD_INFO) with false. change (CMD_READ mod 32 =? CMD_READ) with true.
    change (8 <=? 8) with true. cbn [andb]. by rewrite Hh, Hrun.
  - by rewrite Hs', Hsent.
  - rewrite Hcat, Hbs, E. apply stream_ext. intros; apply Hb.
  - rewrite Hnum, Hbpp. unfold packets_needed. by rewrite Z.shiftl_1_l.
  - intros j pkt (n & data & -> & Hn & Hd)%Hp. exists n. rewrite Hbpp in Hn.
    destruct (packet_parts CMD_READ_RDMA (cmdid mod 8) ((1 + Z.of_nat j) mod 256) shift n data)
      as (R1 & _ & R2 & _).
    rewrite !Z.mod_mod in R1 by lia. rewrite G5, (Z.mod_small n 512) in R2 by lia.
    assert (Hlen : zlen (read_packet (cmdid mod 8) ((1 + Z.of_nat j) mod 256) shift n data)
                   = 6 + n * 2 ^ (shift + 2)).
    { unfold read_packet. rewrite !zlen_app, Hd, Hbs. unfold zlen, pack_header, pack_block_type.
      rewrite !length_le_bytes. lia. }
    split_and!; [exact R1|exact R2|lia|exact Hlen|].
    + rewrite Hlen. change RDMA_MAX_PAYLOAD with 1466 in *. nia.
  - destruct Hfr as (_ & _ & _ & _ & -> & _). done.
  - destruct Hfr as (_ & _ & _ & _ & _ & ->). rewrite Ht, <- E. done.
Qed.
End read.

(** ** WRITE: what a run of the server can change in an image file *)

(** [file_write] puts [data] at [pos] and leaves every other byte (zeros past the end). *)
Lemma znth_splice c pos data p :
  0 <= pos -> 0 <= p ->
  znth (ljust (ztake pos c) pos ++ data ++ zdrop (pos + zlen data) c) p
  = if (pos <=? p) && (p <? pos + zlen data) then znth data (p - pos) else znth c p.
Proof.
  intros Hpos Hp. pose proof (zlen_nonneg data). pose proof (zlen_nonneg c).
  rewrite znth_app by done. rewrite zlen_ljust, zlen_ztake. rewrite Z.max_r by lia.
  destruct (Z.ltb_spec p pos).
  - rewrite (proj2 (Z.leb_gt _ _)) by lia. cbn [andb]. unfold ljust.
    rewrite znth_app by done. destruct (Z.ltb_spec p (zlen (ztake pos c))) as [|Hge].
    + by rewrite znth_ztake.
    + rewrite zlen_ztake in Hge. by rewrite znth_zeros, znth_overflow by lia.
  - rewrite (proj2 (Z.leb_le _ _)) by lia. cbn [andb]. rewrite znth_app by lia.
    destruct (Z.ltb_spec (p - pos) (zlen data)).
    + by rewrite (proj2 (Z.ltb_lt _ _)) by lia.
    + rewrite (proj2 (Z.ltb_ge _ _)) by lia. rewrite znth_zdrop by lia. f_equal. lia.
Qed.


Lemma unpack_request_nonneg d sector count :
  is_bytes d -> unpack_request d = Ok (sector, count) -> 0 <= sector /\ 0 <= count.
Proof.
  intros Hb. unfold unpack_request, unpack_from. set (bs := slice d 0 _).
  destruct (unpack [fH; fI; fH] bs) as [vs|] eqn:E; [|done].
  apply unpack_fits in E; [|repeat constructor; cbn; lia|by apply is_bytes_slice].
  destruct vs as [|? [|x [|y [|]]]]; try done. intros [= <- <-].
  apply Forall2_cons_1 in E as [_ [Hx [Hy _]%Forall2_cons_1]%Forall2_cons_1].
  apply fits_nonneg in Hx, Hy. lia.
Qed.

(** The sectors a datagram asks to write, when [on_datagram] takes it as a WRITE. *)
Definition write_request (d : bytes) : option (Z * Z) :=
  if 8 <=? zlen d then
    match header_cmd d, unpack_request d with
    | Ok cmd, Ok request => if cmd =? CMD_WRITE then Some request else None
    | _, _ => None
    end
  else None.

Definition request_bytes (request : Z * Z) (p : Z) : Prop :=
  fst request * SECTOR_SIZE <= p < (fst request + snd request) * SECTOR_SIZE.

Section writes.
Context (s0 : server Image.device) (Q : Z -> Prop).
Implicit Types s : server Image.device.

(** Nothing outside [Q] differs from the start, nothing at all if read-only. *)
Definition confined (d : Image.device) : Prop :=
  Image.read_only d = Image.read_only (bd s0) /\
  (Image.read_only d = true -> Image.content d = Image.content (bd s0)) /\
  (forall p, 0 <= p -> ~ Q p -> znth (Image.content d) p = znth (Image.content (bd s0)) p).

(** No write is in progress; or what is left of it lies in [Q]. *)
Definition quiet s : Prop := confined (bd s) /\ 0 <= Image.pos (bd s) /\ write_left s <= 0.
Definition armed s : Prop :=
  confined (bd s) /\ 0 <= Image.pos (bd s) /\
  forall p, Image.pos (bd s) <= p < Image.pos (bd s) + write_left s -> Q p.

Lemma quiet_armed s : quiet s -> armed s.
Proof. intros (? & ? & ?). split_and!; [done..|lia]. Qed.

Lemma armed_stop s : armed s -> quiet (s <| write_left := 0 |>).
Proof. intros (? & ? & _). by split_and!. Qed.

(** Properties that depend on the device and the write in progress only. *)
Lemma record_armed a k n s : armed s -> armed (record_ a k n s).
Proof. done. Qed.
Lemma record_quiet a k n s : quiet s -> quiet (record_ a k n s).
Proof. done. Qed.

Lemma sendto_armed pkt a : keeps armed (sendto pkt a).
Proof.
  intros s r s' H. unfold sendto.
  destruct (net s) as [|[e|] rest]; intros [= _ <-]; exact H.
Qed.
Lemma sendto_quiet pkt a : keeps quiet (sendto pkt a).
Proof.
  intros s r s' H. unfold sendto.
  destruct (net s) as [|[e|] rest]; intros [= _ <-]; exact H.
Qed.

Lemma set_block_shift_quiet n s : quiet s -> quiet (set_block_shift n s).
Proof. unfold set_block_shift. by case_bool_decide. Qed.

Lemma read_quiet n : keeps quiet (on_bd (bd_read (D := Image.device) n)).
Proof.
  intros s r s' (Hc & Hp & Hw). unfold on_bd. cbn [bd_read Image.image_dev].
  unfold Image.read, Image.file_read, mbind, M_bind.
  destruct (Image.fault (bd s)); intros [= <- <-]; [done|].
  split_and!; [exact Hc| |exact Hw].
  cbn -[slice]. pose proof (zlen_nonneg (slice (Image.content (bd s)) (Image.pos (bd s)) (Image.pos (bd s) + n))). lia.
Qed.

Lemma seek_quiet sector count : 0 <= sector -> keeps quiet (seek_request (D := Image.device) sector count).
Proof.
  intros Hs s r s' (Hc & Hp & Hw) [= <- <-]. split_and!; [exact Hc| |exact Hw].
  cbn. unfold SECTOR_SIZE. lia.
Qed.

Lemma read_packets_quiet fuel a cmdid k left : keeps quiet (read_packets (D := Image.device) fuel a cmdid k left).
Proof.
  revert k left. induction fuel as [|fuel IH]; intros k left; cbn [read_packets];
    destruct (left <=? 0); eauto with keeps.
  apply keeps_bind; [apply keeps_mget|intros s1]. apply keeps_bind; [apply read_quiet|intros data].
  apply keeps_bind; [apply sendto_quiet|intros _].
  apply keeps_bind; [by apply keeps_mmod|intros _]. apply IH.
Qed.

Lemma write_done_armed a cmdid result : keeps armed (write_done (D := Image.device) a cmdid result).
Proof. apply keeps_bind; [apply keeps_lift|intros]. apply sendto_armed. Qed.

Lemma handle_info_armed a d : keeps armed (handle_info (D := Image.device) a d).
Proof.
  apply keeps_bind; [apply keeps_lift|intros [[_ cmdid] _]].
  apply keeps_bind; [by apply keeps_mmod|intros _].
  apply keeps_bind; [apply keeps_mmod; intros; by apply quiet_armed, armed_stop|intros _].
  apply keeps_bind; [apply keeps_mget|intros]. apply keeps_bind; [apply keeps_lift|intros].
  apply sendto_armed.
Qed.

Lemma handle_read_armed a d : is_bytes d -> keeps armed (handle_read (D := Image.device) a d).
Proof.
  intros Hb. apply keeps_bind; [apply keeps_lift|intros [[_ cmdid] _]].
  apply keeps_lift_bind. intros [sector count] Hq.
  apply unpack_request_nonneg in Hq as [Hs Hc]; [|done].
  apply keeps_bind; [apply keeps_mget|intros s]. cbn [andb bd_is_raw Image.image_dev].
  apply (keeps_stage _ quiet); [apply armed_stop|apply quiet_armed|].
  apply keeps_bind; [apply keeps_mmod; intros; by apply set_block_shift_quiet|intros _].
  apply keeps_bind; [apply keeps_mget|intros s1].
  apply keeps_bind; [by apply keeps_mmod|intros _].
  apply keeps_bind; [by apply keeps_mmod|intros _].
  apply keeps_bind; [by apply seek_quiet|intros _]. apply read_packets_quiet.
Qed.

Lemma handle_write_armed a d :
  is_bytes d ->
  (forall sector count, unpack_request d = Ok (sector, count) -> forall p, request_bytes (sector, count) p -> Q p) ->
  keeps armed (handle_write (D := Image.device) a d).
Proof.
  intros Hb HQ. apply keeps_bind; [apply keeps_lift|intros [[_ cmdid] _]].
  apply keeps_lift_bind. intros [sector count] Hq. specialize (HQ _ _ Hq).
  apply unpack_request_nonneg in Hq as [Hs Hc]; [|done].
  apply keeps_bind; [by apply keeps_mmod|intros _].
  apply keeps_bind; [apply keeps_mget|intros ro].
  apply keeps_bind; [apply keeps_mwhen; by apply keeps_mmod|intros _].
  intros s r s' (Hcf & _ & _) [= _ <-]. unfold armed. cbn -[Z.mul]. unfold SECTOR_SIZE in *.
  split_and!; [done|lia|]. intros p Hp. apply HQ. unfold request_bytes, SECTOR_SIZE. cbn [fst snd]. lia.
Qed.

(** One device write: what is left of the request stays inside [Q]. *)
Lemma write_armed data s r s' :
  armed s -> zlen data <= write_left s -> on_bd (bd_write (D := Image.device) data) s = (r, s') ->
  match r with Ok _ => armed (s' <| write_left ::= fun n => n - zlen data |>) | Err _ => armed s' end /\
  write_left s' = write_left s.
Proof.
  intros (Hcf & Hp & HQ) Hl. pose proof (zlen_nonneg data) as Hd.
  unfold on_bd. cbn [bd_write Image.image_dev]. unfold Image.write, Image.file_write, mget, mbind, M_bind, id.
  destruct (Image.read_only (bd s)) eqn:Ero; [intros [= <- <-]; split; [|done]|].
  { split_and!; [done|done|]. cbn. intros p ?. apply HQ. lia. }
  destruct (Image.fault (bd s)); intros [= <- <-]; (split; [|done]); [by split_and!|].
  destruct Hcf as (H1 & H2 & H3).
  split_and!.
  - split_and!; [done|cbn; congruence|]. intros p Hp0 HnQ.
    etransitivity; [exact (znth_splice (Image.content (bd s)) _ data p Hp Hp0)|]. destruct (_ && _) eqn:E; [|by apply H3].
    rewrite andb_true_iff, Z.leb_le, Z.ltb_lt in E. destruct HnQ. apply HQ. lia.
  - cbn. lia.
  - cbn. intros p ?. apply HQ. lia.
Qed.

Lemma write_failed_armed a cmdid :
  keeps armed (_ ← mmod (record_ (D := Image.device) a errors 1);
               _ ← mmod (fun s => s <| write_left := 0 |>);
               _ ← write_done a cmdid (-1); mret false).
Proof.
  apply keeps_bind; [by apply keeps_mmod|intros _].
  apply keeps_bind; [apply keeps_mmod; intros; by apply quiet_armed, armed_stop|intros _].
  apply keeps_bind; [apply write_done_armed|intros _]. apply keeps_ret.
Qed.

Lemma write_finish_armed a cmdid n ok :
  0 <= n ->
  keeps armed (mwhen ok
    (_ ← mmod (fun s => s <| write_left ::= fun left => left - n |>);
     s ← mget id;
     mwhen (write_left s <=? 0) (write_done a cmdid (if bd_read_only (bd s) then -1 else 0)))).
Proof.
  intros Hn. apply keeps_mwhen, keeps_bind.
  - apply keeps_mmod. intros s (? & ? & HQ). split_and!; [done..|]. cbn. intros p ?. apply HQ. lia.
  - intros _. apply keeps_bind; [apply keeps_mget|intros s]. apply keeps_mwhen, write_done_armed.
Qed.

Lemma block_size_nonneg d shift count :
  unpack_block_type d = Ok (shift, count) -> 0 <= count * Z.shiftl 1 (shift + 2).
Proof.
  unfold unpack_block_type. repeat (case_match; try done). intros [= <- <-].
  rewrite (land_mask z 4 15), (land_mask (Z.shiftr z 4) 9 511) by (reflexivity || lia).
  pose proof (Z.mod_pos_bound z (2 ^ 4) ltac:(lia)).
  pose proof (Z.mod_pos_bound (Z.shiftr z 4) (2 ^ 9) ltac:(lia)).
  rewrite Z.shiftl_mul_pow2 by lia. assert (0 < 2 ^ (z mod 2 ^ 4 + 2)) by (apply Z.pow_pos_nonneg; lia).
  nia.
Qed.

Lemma handle_write_rdma_armed a d : keeps armed (handle_write_rdma (D := Image.device) a d).
Proof.
  apply keeps_bind; [apply keeps_lift|intros [[_ cmdid] _]].
  intros s r s' H. unfold mget, mbind, M_bind at 1, id.
  destruct (Z.leb_spec (write_left s) 0); [by intros [= _ <-]|].
  destruct (negb _); [by intros [= _ <-]|].
  unfold M_bind at 1, lift. destruct (unpack_block_type d) as [[shift count]|] eqn:Hbt; [|by intros [= _ <-]].
  apply block_size_nonneg in Hbt. revert Hbt. generalize (count * Z.shiftl 1 (shift + 2)). intros size Hsz.
  destruct (Z.ltb_spec (zlen d) (6 + size)) as [|Hd]; [by intros [= _ <-]|].
  cbv zeta. set (n := Z.min size (write_left s)). set (data := slice d 6 (6 + n)).
  assert (Hn : zlen data = n) by (unfold data; rewrite zlen_slice; lia).
  unfold M_bind at 1, catch_oserror, mcatch, M_bind at 1.
  destruct (on_bd (bd_write data) s) as [[u|e] s1] eqn:E;
    (apply write_armed in E as [E Ew]; [|done|lia]).
  - cbn [bd_flush Image.image_dev]. cbn [mret M_ret mwhen]. unfold M_bind, mret, M_ret, mwhen.
    revert E. rewrite Hn. intros E Hr. revert E Hr. unfold mmod.
    generalize (s1 <| write_left ::= fun x => x - n |>). intros s2 E Hr.
    destruct (_ <=? _); [|by injection Hr as _ <-]. by eapply write_done_armed.
  - destruct e; intros Hr; try (injection Hr as _ <-; exact E).
    destruct (M_bind _ _ _ _ (mmod (record_ a errors 1)) s1) as [r2 s2] eqn:E2.
    assert (armed s2) by exact (write_failed_armed a cmdid _ _ _ E E2).
    destruct r2 as [ok|]; [|by injection Hr as _ <-].
    eapply (write_finish_armed a cmdid n ok); [lia|done|exact Hr].
Qed.

Lemma on_datagram_armed a d :
  is_bytes d ->
  (forall request, write_request d = Some request -> forall p, request_bytes request p -> Q p) ->
  keeps armed (on_datagram (D := Image.device) a d).
Proof.
  intros Hb HQ. unfold on_datagram. destruct (zlen d <? 2); [apply keeps_ret|].
  apply keeps_mcatch; [|intros [] k [= <-]; [by apply keeps_mmod|apply keeps_ret|apply keeps_ret]].
  apply keeps_lift_bind. intros cmd Hcmd.
  destruct (cmd =? CMD_INFO); [apply handle_info_armed|].
  destruct (_ && _); [by apply handle_read_armed|].
  destruct (Z.eqb_spec cmd CMD_WRITE) as [-> |]; cbn [andb].
  - destruct (8 <=? zlen d) eqn:Hl; [|apply keeps_ret]. apply handle_write_armed; [done|].
    intros sector count Hq. apply HQ. unfold write_request. by rewrite Hl, Hcmd, Hq.
  - destruct (_ && _); [apply handle_write_rdma_armed|apply keeps_ret].
Qed.

Lemma run_armed ts :
  (forall t a d, t ∈ ts -> received t = Some (a, d) -> is_bytes d /\
     forall request, write_request d = Some request -> forall p, request_bytes request p -> Q p) ->
  keeps armed (run (D := Image.device) ts).
Proof.
  induction ts as [|t ts IH]; intros Ht; [apply keeps_ret|].
  apply keeps_bind; [|intros _; apply IH; intros; eapply Ht; [by right|done]].
  apply keeps_bind; [apply keeps_mmod; intros s H|intros _].
  { unfold expire_stats. destruct (stats_ _); [|done]. by destruct (_ <=? _). }
  destruct (received t) as [[a d]|] eqn:E; [|apply keeps_ret].
  destruct (Ht t a d) as [Hb HQ]; [by left|done|]. by apply on_datagram_armed.
Qed.
End writes.

(** Byte [p] of the device is inside a WRITE request received in [ts]. *)
Definition requested (ts : list turn) (p : Z) : Prop :=
  exists t a d request, t ∈ ts /\ received t = Some (a, d) /\
    write_request d = Some request /\ request_bytes request p.

(** C32. Whatever datagrams arrive, from whomever and in whatever order, the server only
    ever changes bytes of the image that some WRITE request named, and it changes
    nothing of a read-only image. *)
Theorem writes_confined (ts : list turn) (s : server Image.device) :
  write_left s <= 0 -> 0 <= Image.pos (bd s) ->
  (forall t a d, t ∈ ts -> received t = Some (a, d) -> is_bytes d) ->
  let s' := snd (run ts s) in
  (forall p, 0 <= p -> ~ requested ts p ->
     znth (Image.content (bd s')) p = znth (Image.content (bd s)) p) /\
  (Image.read_only (bd s) = true -> Image.content (bd s') = Image.content (bd s)).
Proof.
  intros Hw Hp Hb s'. destruct (run ts s) as [r s''] eqn:E. cbn in s'. subst s'.
  destruct (run_armed s (requested ts) ts) with s r s'' as [(H1 & H2 & H3) _]; [..|done|].
  - intros t a d Ht Hr. split; [by eapply Hb|]. intros request Hq p Hin. by exists t, a, d, request.
  - split_and!; [by split_and!|done|lia].
  - split; [done|]. intros Hro. apply H2. congruence.
Qed.

(** *** A completed WRITE *)

(** The contents after [file_write data] at [pos]. *)
Definition splice (c : bytes) (pos : Z) (data : bytes) : bytes :=
  ljust (ztake pos c) pos ++ data ++ zdrop (pos + zlen data) c.

Lemma splice_app c pos a b :
  0 <= pos -> splice (splice c pos a) (pos + zlen a) b = splice c pos (a ++ b).
Proof.
  intros Hp. pose proof (zlen_nonneg a). pose proof (zlen_nonneg b). pose proof (zlen_nonneg c).
  unfold splice at 1 3.
  set (P := ljust (ztake pos c) pos). set (R := zdrop (pos + zlen a) c).
  assert (HP : zlen P = pos) by (unfold P; rewrite zlen_ljust, zlen_ztake; lia).
  assert (Hs : splice c pos a = (P ++ a) ++ R) by (unfold splice; by rewrite <- app_assoc).
  assert (HPa : zlen (P ++ a) = pos + zlen a) by (rewrite zlen_app; lia).
  rewrite Hs, ztake_app_length by done. unfold ljust at 1. rewrite HPa.
  replace (zeros _) with (@nil Z) by (unfold zeros; by rewrite Z.sub_diag).
  rewrite app_nil_r, zlen_app, <- !app_assoc. do 3 f_equal.
  rewrite app_assoc, Z.add_comm, <- zdrop_zdrop, zdrop_app_length by lia.
  unfold R. rewrite zdrop_zdrop by lia. f_equal. lia.
Qed.

(** One RDMA datagram of a WRITE: [data] in [count] blocks of a given shift. *)
Definition rdma_packet (cmdid k shift count : Z) (data : bytes) : bytes :=
  pack_header CMD_WRITE_RDMA cmdid k ++ pack_block_type shift count ++ data.

Definition write_done_packet (cmdid result : Z) : bytes :=
  pack_header CMD_WRITE_DONE cmdid (Z.land (cmdid + 1) 255) ++ le_bytes 4 result.

Section write.
Implicit Types s : server Image.device.

(** A write of [left] bytes by [peer] is under way on a writable, working image. *)
Definition writing peer cmdid left s : Prop :=
  write_left s = left /\ write_owner s = Some (peer, cmdid) /\
  Image.read_only (bd s) = false /\ Image.fault (bd s) = None /\ 0 <= Image.pos (bd s) /\ net s = [].

Record chunk := Chunk { c_pkt : Z; c_shift : Z; c_count : Z; c_data : bytes }.
Definition chunk_ok (c : chunk) : Prop :=
  0 <= c_shift c < 16 /\ 0 < c_count c < 512 /\ zlen (c_data c) = c_count c * 2 ^ (c_shift c + 2).
Definition chunk_packet cmdid (c : chunk) : bytes :=
  rdma_packet cmdid (c_pkt c) (c_shift c) (c_count c) (c_data c).

Lemma chunk_parses cmdid c :
  0 <= cmdid < 8 -> chunk_ok c ->
  let d := chunk_packet cmdid c in
  0 < zlen (c_data c) /\ zlen d = 6 + zlen (c_data c) /\ header_cmd d = Ok CMD_WRITE_RDMA /\
  (exists pkt, unpack_header d = Ok (CMD_WRITE_RDMA, cmdid, pkt)) /\
  unpack_block_type d = Ok (c_shift c, c_count c) /\
  c_count c * Z.shiftl 1 (c_shift c + 2) = zlen (c_data c) /\
  slice d 6 (6 + zlen (c_data c)) = c_data c.
Proof.
  destruct c as [k shift n data]. intros Hid (Hsh & Hn & Hd) d. cbn [c_pkt c_shift c_count c_data] in *.
  assert (0 < 2 ^ (shift + 2)) by (apply Z.pow_pos_nonneg; lia).
  destruct (packet_parts CMD_WRITE_RDMA cmdid k shift n data) as (Hh & Hc & Hb & Hdd).
  change (pack_header _ _ _ ++ _) with d in Hh, Hc, Hb, Hdd.
  rewrite (Z.mod_small cmdid 8) in Hh by lia. rewrite (Z.mod_small shift 16), (Z.mod_small n 512) in Hb by lia.
  split_and!; [nia| |done|by eexists|done|rewrite Z.shiftl_1_l; lia|].
  - unfold d, chunk_packet, rdma_packet. cbn [c_data c_pkt c_shift c_count]. rewrite !zlen_app.
    unfold zlen at 1 2, pack_header, pack_block_type. rewrite !length_le_bytes. lia.
  - unfold slice. rewrite Hdd. apply ztake_all. lia.
Qed.

Lemma rdma_step peer cmdid left s c :
  0 <= cmdid < 8 -> chunk_ok c -> writing peer cmdid left s -> zlen (c_data c) <= left ->
  exists s', on_datagram peer (chunk_packet cmdid c) s = (Ok tt, s') /\
    writing peer cmdid (left - zlen (c_data c)) s' /\
    Image.content (bd s') = splice (Image.content (bd s)) (Image.pos (bd s)) (c_data c) /\
    Image.pos (bd s') = Image.pos (bd s) + zlen (c_data c) /\
    sent s' = sent s ++ (if left =? zlen (c_data c) then [(peer, write_done_packet cmdid 0)] else []).
Proof.
  intros Hid Hok (Hl & Ho & Hro & Hf & Hp & Hnet) Hle.
  destruct (chunk_parses cmdid c Hid Hok) as (Hpos & Hdl & Hc & (pkt & Hh) & Hb & Hsz & Hs).
  set (d := chunk_packet cmdid c) in *. set (data := c_data c) in *.
  unfold on_datagram. rewrite Hdl, (proj2 (Z.ltb_ge _ 2)) by lia.
  unfold mcatch, lift at 1, mbind, M_bind at 1. rewrite Hc.
  cbn [Z.eqb CMD_INFO CMD_READ CMD_WRITE CMD_WRITE_RDMA Pos.eqb andb].
  rewrite (proj2 (Z.leb_le 6 _)) by lia.
  unfold handle_write_rdma, lift, mget, mbind, M_bind, id. rewrite Hh, Hl, Hb, Hsz, Hdl.
  rewrite (proj2 (Z.leb_gt left 0)) by lia. rewrite bool_decide_eq_true_2 by done. cbn [negb].
  rewrite Z.ltb_irrefl, Z.min_l, Hs by lia.
  unfold catch_oserror, mcatch, on_bd. cbn [bd_write Image.image_dev bd_flush bd_read_only].
  unfold Image.write, Image.file_write, mget, mbind, M_bind, id. rewrite Hro, Hf.
  unfold mret, M_ret, mwhen, mmod. cbn [set_field write_left bd Image.read_only]. rewrite Hl.
  destruct (Z.eqb_spec left (zlen data)) as [He|He].
  - rewrite (proj2 (Z.leb_le _ 0)), Hro by lia.
    unfold write_done, sendto, lift, mbind, M_bind. cbn [net set_field]. rewrite Hnet.
    eexists. split; [reflexivity|]. unfold writing. cbn -[splice]. rewrite Hnet.
    split_and!; try done; lia.
  - rewrite (proj2 (Z.leb_gt _ 0)) by lia.
    eexists. split; [reflexivity|]. unfold writing. cbn -[splice]. rewrite app_nil_r.
    split_and!; try done; lia.
Qed.

Definition chunks_data (cs : list chunk) : bytes := concat (map c_data cs).

(** The start of a turn: only the clock and the statistics move. *)
Definition tick (now : Z) s : server Image.device := expire_stats (s <| clock := now |>).

Lemma tick_frame now s :
  bd (tick now s) = bd s /\ sent (tick now s) = sent s /\ net (tick now s) = net s /\
  write_left (tick now s) = write_left s /\ write_owner (tick now s) = write_owner s.
Proof. unfold tick, expire_stats. cbn. destruct (stats_ s); [|done]. by destruct (_ <=? _). Qed.

Lemma run_cons t ts peer d s s' :
  received t = Some (peer, d) -> on_datagram peer d (tick (at_ t) s) = (Ok tt, s') ->
  run (t :: ts) s = run ts s'.
Proof.
  intros Hr Hd. cbn [run]. unfold on_turn, mmod, mbind, M_bind. rewrite Hr.
  fold (tick (at_ t) s). by rewrite Hd.
Qed.

Lemma rdma_run peer cmdid cs s ts :
  0 <= cmdid < 8 -> Forall chunk_ok cs -> cs <> [] ->
  writing peer cmdid (zlen (chunks_data cs)) s ->
  map received ts = map (fun c => Some (peer, chunk_packet cmdid c)) cs ->
  exists s', run ts s = (Ok tt, s') /\ write_left s' = 0 /\
    Image.content (bd s') = splice (Image.content (bd s)) (Image.pos (bd s)) (chunks_data cs) /\
    sent s' = sent s ++ [(peer, write_done_packet cmdid 0)].
Proof.
  intros Hid Hcs. revert s ts. induction Hcs as [|c cs Hc Hcs IH]; intros s ts Hne Hw Hts; [done|].
  destruct ts as [|t ts]; [done|]. cbn [map] in Hts. injection Hts as Ht Hts.
  unfold chunks_data in *. cbn [map concat] in *. rewrite zlen_app in Hw.
  pose proof (zlen_nonneg (concat (map c_data cs))) as Hnn.
  destruct (tick_frame (at_ t) s) as (Tb & Ts & Tn & Tl & To).
  assert (Hw' : writing peer cmdid (zlen (c_data c) + zlen (concat (map c_data cs))) (tick (at_ t) s))
    by (unfold writing in *; by rewrite Tb, Tn, Tl, To).
  destruct (rdma_step _ _ _ _ _ Hid Hc Hw') as (s1 & Hd & Hw1 & Hct & Hp & Hsent); [lia|].
  rewrite (run_cons _ _ _ _ _ _ Ht Hd). rewrite Tb in Hct, Hp. rewrite Ts in Hsent.
  replace (zlen (c_data c) + _ - _) with (zlen (concat (map c_data cs))) in Hw1 by lia.
  destruct cs as [|c2 cs].
  - destruct ts as [|]; [|done]. exists s1. cbn [map concat] in *. rewrite app_nil_r.
    change (zlen (@nil Z)) with 0 in *. rewrite Z.add_0_r, Z.eqb_refl in Hsent.
    split_and!; [done|apply Hw1|done|done].
  - assert (0 < zlen (concat (map c_data (c2 :: cs)))).
    { inversion_clear Hcs as [|? ? Hc2]. destruct (chunk_parses cmdid c2 Hid Hc2) as [? _].
      cbn [map concat]. rewrite zlen_app. pose proof (zlen_nonneg (concat (map c_data cs))). lia. }
    destruct (IH s1 ts ltac:(done) Hw1 Hts) as (s' & Hr & Hl & Hct' & Hs').
    exists s'. split_and!; [done|done| |].
    + rewrite Hct', Hct, Hp. apply splice_app. apply Hw.
    + rewrite Hs', Hsent. rewrite (proj2 (Z.eqb_neq _ _)) by lia. by rewrite app_nil_r.
Qed.

(** The WRITE request: the image stands at the first sector with the whole request
    to come. *)
Lemma write_start peer cmdid k sector count s :
  0 <= cmdid < 8 -> 0 <= sector < 2 ^ 32 -> 0 <= count < 2 ^ 16 ->
  Image.read_only (bd s) = false -> Image.fault (bd s) = None -> net s = [] ->
  exists s', on_datagram peer (request CMD_WRITE cmdid k sector count) s = (Ok tt, s') /\
    writing peer cmdid (count * SECTOR_SIZE) s' /\ Image.pos (bd s') = sector * SECTOR_SIZE /\
    Image.content (bd s') = Image.content (bd s) /\ sent s' = sent s.
Proof.
  intros Hid Hs Hc Hro Hf Hnet.
  destruct (request_parses CMD_WRITE cmdid k sector count Hs Hc) as (Hl & Hcmd & Hh & Hq).
  unfold on_datagram. rewrite Hl. unfold mcatch, lift at 1, mbind, M_bind at 1. rewrite Hcmd.
  cbn [Z.ltb Z.leb Z.compare Z.eqb CMD_INFO CMD_READ CMD_WRITE Pos.eqb Pos.compare Pos.compare_cont andb].
  unfold handle_write, lift, mget, mbind, M_bind, mmod, id. rewrite Hh, Hq.
  change (CMD_WRITE mod 32) with 4. cbn [Z.eqb Pos.eqb andb CMD_INFO CMD_READ CMD_WRITE].
  change (bd_read_only (bd (record_ peer k_write 1 s))) with (Image.read_only (bd s)). rewrite Hro.
  eexists. split; [reflexivity|]. cbn -[Z.mul]. split_and!; try done.
  - unfold writing. cbn -[Z.mul]. rewrite Z.mod_small by lia.
    split_and!; try done. unfold SECTOR_SIZE. lia.
Qed.
End write.

(** A WRITE request followed by all of its data, cut into packets in any way the
    block types allow, stores exactly that data at the requested sectors and is
    answered by one WRITE_DONE with result 0. *)
Theorem write_complete (s : server Image.device) peer cmdid k sector count cs ts :
  0 <= cmdid < 8 -> 0 <= sector < 2 ^ 32 -> 0 < count < 2 ^ 16 ->
  Image.read_only (bd s) = false -> Image.fault (bd s) = None -> net s = [] ->
  Forall chunk_ok cs -> zlen (chunks_data cs) = count * SECTOR_SIZE ->
  map received ts = Some (peer, request CMD_WRITE cmdid k sector count)
                    :: map (fun c => Some (peer, chunk_packet cmdid c)) cs ->
  exists s', run ts s = (Ok tt, s') /\ write_left s' = 0 /\
    Image.content (bd s') = splice (Image.content (bd s)) (sector * SECTOR_SIZE) (chunks_data cs) /\
    sent s' = sent s ++ [(peer, write_done_packet cmdid 0)].
Proof.
  intros Hid Hs Hc Hro Hf Hnet Hcs Hlen Hts. destruct ts as [|t ts]; [done|].
  cbn [map] in Hts. injection Hts as Ht Hts.
  destruct (tick_frame (at_ t) s) as (Tb & Ts & Tn & _).
  destruct (write_start peer cmdid k sector count (tick (at_ t) s)) as (s1 & Hd & Hw & Hp & Hct & Hsent);
    [lia|lia|lia|by rewrite ?Tb, ?Tn..|].
  rewrite (run_cons _ _ _ _ _ _ Ht Hd). rewrite <- Hlen in Hw.
  destruct (rdma_run peer cmdid cs s1 ts) as (s' & Hr & Hl & Hct' & Hs'); [done|done| |done|done|].
  { intros ->. change (zlen (chunks_data [])) with 0 in Hlen. unfold SECTOR_SIZE in Hlen. lia. }
  exists s'. split_and!; [done|done| |].
  - by rewrite Hct', Hct, Hp, Tb.
  - by rewrite Hs', Hsent, Ts.
Qed.

(** RDMA data that no WRITE of this peer and command announced is dropped without
    a trace: no reply, no change of any kind. *)
Theorem unsolicited_rdma_dropped {D} `{BlockDev D} (s : server D) peer d cmdid k :
  header_cmd d = Ok CMD_WRITE_RDMA -> unpack_header d = Ok (CMD_WRITE_RDMA, cmdid, k) ->
  write_left s <= 0 \/ write_owner s <> Some (peer, cmdid) ->
  on_datagram peer d s = (Ok tt, s).
Proof.
  intros Hc Hh Hno. unfold on_datagram. destruct (zlen d <? 2); [done|].
  unfold mcatch, lift, mbind, M_bind. rewrite Hc.
  cbn [Z.eqb CMD_INFO CMD_READ CMD_WRITE CMD_WRITE_RDMA Pos.eqb andb].
  destruct (6 <=? zlen d); [|done].
  unfold handle_write_rdma, lift, mget, mbind, M_bind, id. rewrite Hh.
  destruct (Z.leb_spec (write_left s) 0); [done|].
  rewrite bool_decide_eq_false_2 by (destruct Hno; [lia|done]). done.
Qed.

(** ** The hypotheses can be met *)

Definition sample_image (ro : bool) : server Image.device :=
  init (Image.open (map (fun i => i mod 251) (seqZ 0 2048)) ro) None 0.
Definition console : addr := (0, 1024).

Lemma shift_for_sectors_optimal_witness :
  let chosen := shift_for_sectors 7 in packets_needed chosen 7 <= packets_needed 4 7.
Proof.
  destruct (shift_for_sectors_optimal 7 4) as (_ & H & _); [lia|lia|exact H].
Defined.

Lemma read_reply_exact_witness :
  exists s' pkts, on_datagram console (request CMD_READ 3 0 1 3) (sample_image true) = (Ok tt, s') /\
    sent s' = map (pair console) pkts /\ zlen pkts = 2 /\
    concat (map (zdrop 6) pkts) = stream (znth (Image.content (bd (sample_image true)))) 512 1536.
Proof.
  destruct (read_reply_exact (sample_image true) console 3 0 1 3) as (s' & pkts & H1 & H2 & H3 & H4 & _).
  - reflexivity.
  - exists 5. vm_compute. repeat split; discriminate.
  - reflexivity.
  - lia.
  - lia.
  - discriminate.
  - exists s', pkts. split; [exact H1|]. split; [exact H2|]. split; [|exact H3].
    rewrite H4. vm_compute. reflexivity.
Defined.

Definition sample_write : list turn :=
  [Turn 0 (Some (console, request CMD_WRITE 2 0 1 1));
   Turn 1 (Some (console, chunk_packet 2 (Chunk 1 7 1 (replicate 512 9))))].

Lemma writes_confined_witness :
  znth (Image.content (bd (snd (run sample_write (sample_image false))))) 0 = 0.
Proof.
  destruct (writes_confined sample_write (sample_image false)) as [H _].
  - vm_compute. discriminate.
  - vm_compute. discriminate.
  - intros t a d Ht Hr. unfold sample_write in Ht.
    apply elem_of_cons in Ht as [-> | Ht];
      [|apply elem_of_cons in Ht as [-> | Ht]; [|by apply not_elem_of_nil in Ht]];
      cbn [received] in Hr; injection Hr as <- <-; vm_compute; repeat (constructor; [split; [discriminate|reflexivity]|]);
      constructor.
  - etransitivity; [apply H; [lia|]|reflexivity].
    intros (t & a & d & q & Ht & Hr & Hq & Hin). unfold sample_write in Ht.
    apply elem_of_cons in Ht as [-> | Ht].
    + cbn [received] in Hr. injection Hr as <- <-. vm_compute in Hq. injection Hq as <-. unfold request_bytes, SECTOR_SIZE in Hin.
      cbn in Hin. lia.
    + apply elem_of_cons in Ht as [-> | Ht]; [|by apply not_elem_of_nil in Ht].
      cbn [received] in Hr. injection Hr as <- <-. vm_compute in Hq. discriminate.
Defined.

Lemma write_complete_witness :
  exists s', run sample_write (sample_image false) = (Ok tt, s') /\
    sent s' = [(console, write_done_packet 2 0)].
Proof.
  destruct (write_complete (sample_image false) console 2 0 1 1 [Chunk 1 7 1 (replicate 512 9)] sample_write)
    as (s' & H1 & _ & _ & H4); try lia; try reflexivity.
  - constructor; [|constructor]. vm_compute. repeat split; discriminate.
  - exists s'. split; [exact H1|exact H4].
Defined.

Lemma unsolicited_rdma_dropped_witness :
  on_datagram console (chunk_packet 2 (Chunk 1 7 1 (replicate 512 9))) (sample_image false)
  = (Ok tt, sample_image false).
Proof.
  apply (unsolicited_rdma_dropped _ console _ 2 1); [reflexivity|reflexivity|left; vm_compute; discriminate].
Defined.
