(* ===== verification/RawStorage.v ===== *)
(** * Raw block devices

    Models [RawDevice] of [launcher/raw_storage.py]: a disk with a native sector
    size served as a byte stream, with a cache that lives for one request and
    read-modify-write for packets that do not fill a native sector.

    The disk behind it (the [_backend] of the Python class) is the interface
    [Backend]; [LinuxDevice] is the one over [os.pread] and [os.pwrite]. *)

From S2P Require Import Prelude SessionStats Udpbd.

Definition EIO : Z := 5.
Definition EROFS : Z := 30.

(** What [RawDevice] uses of [_LinuxDevice] and [_WindowsDevice].  [write_at] returns
    the number of bytes written. *)
Class Backend (B : Type) := {
  b_size : B -> Z;
  sector_size : B -> Z;
  read_at : Z -> Z -> M B bytes;
  write_at : Z -> bytes -> M B Z;
  b_flush : M B unit
}.

(** ** [_LinuxDevice] *)
Module LinuxDevice.

(** A block device of the host.  [fail] is the error number its system calls
    answer, if any; [moves] scripts how many bytes at most the next calls transfer
    (a disconnected drive reads short), an empty script meaning all of them. *)
Record device := Device {
  content : bytes;
  native : Z;
  fail : option Z;
  moves : list Z
}.

#[global] Instance eta_device : Eta device := fun d =>
  Device (content d) (native d) (fail d) (moves d).

Definition allowed (d : device) (n : Z) : Z :=
  match moves d with [] => n | k :: _ => Z.min k n end.

(** [os.pread(fd, count, offset)] *)
Definition pread (offset count : Z) : M device bytes := fun d =>
  match fail d with
  | Some e => (oserror e, d)
  | None => (Ok (slice (content d) offset (offset + allowed d count)), d <| moves ::= tail |>)
  end.

(** [os.pwrite(fd, data, offset)]: a block device does not grow *)
Definition pwrite (offset : Z) (data : bytes) : M device Z := fun d =>
  match fail d with
  | Some e => (oserror e, d)
  | None =>
      let n := Z.min (allowed d (zlen data)) (zlen (content d) - offset) in
      (Ok n, d <| content := ztake offset (content d) ++ ztake n data ++ zdrop (offset + n) (content d) |>
               <| moves ::= tail |>)
  end.

(** [os.fsync(fd)] *)
Definition fsync : M device unit := fun d =>
  match fail d with Some e => (oserror e, d) | None => (Ok tt, d) end.

#[global] Instance backend : Backend device := {|
  b_size d := zlen (content d);
  sector_size := native;
  read_at := pread;
  write_at := pwrite;
  b_flush := fsync
|}.

(** The geometry check at the end of [_LinuxDevice.__init__] *)
Definition supported (d : device) : bool :=
  negb ((native d <? 512) || (65536 <? native d) || negb (Z.land (native d) (native d - 1) =? 0)
        || negb (zlen (content d) mod native d =? 0)).
End LinuxDevice.

(** ** [RawDevice] *)
Module Raw.
Section raw.
Context {B : Type} `{Backend B}.

Record device := Device {
  backend : B;
  read_only : bool;
  size : Z;
  position : Z;
  request_end : option Z;
  cached_start : Z;
  cached_data : bytes
}.

#[global] Instance eta_device : Eta device := fun d =>
  Device (backend d) (read_only d) (size d) (position d) (request_end d) (cached_start d) (cached_data d).

(** [__init__] *)
Definition init (b : B) (writable : bool) : result device :=
  let size := b_size b in
  if (size <=? 0) || negb (size mod 512 =? 0) || (4294967295 <? size / 512) then Err ValueError
  else Ok {| backend := b; read_only := negb writable; size := size; position := 0;
             request_end := None; cached_start := 0; cached_data := [] |}.

Definition sector_count (d : device) : Z := size d / 512.

Definition on_backend {A} (m : M B A) : M device A := fun d =>
  let '(r, b) := m (backend d) in (r, d <| backend := b |>).

Definition seek (sector : Z) (sector_count : option Z) : M device unit :=
  d ← mget id;
  let pos := sector * 512 in
  if negb ((0 <=? pos) && (pos <=? size d)) then raise (OSError (Some EINVAL))
  else
    let r_end := (fun n => pos + n * 512) <$> sector_count in
    _ ← mmod (fun d => d <| position := pos |> <| request_end := r_end |>);
    match r_end with
    | Some e =>
        if negb ((pos <=? e) && (e <=? size d)) then raise (OSError (Some EINVAL))
        else mmod (fun d => d <| cached_data := [] |>)
    | None => mmod (fun d => d <| cached_data := [] |>)
    end.

(** [limit] of [read] and [write] *)
Definition limit (d : device) : Z := default (size d) (request_end d).

(** Fills the cache when [pos] is outside it. *)
Definition fill_cache (pos : Z) : M device unit :=
  d ← mget id;
  let cached_end := cached_start d + zlen (cached_data d) in
  if (cached_start d <=? pos) && (pos <? cached_end) then mret tt
  else
    let alignment := sector_size (backend d) in
    let start := pos / alignment * alignment in
    let r_end := match request_end d with
                 | Some e => if e =? 0 then start + alignment else e
                 | None => start + alignment
                 end in
    let aligned_end := Z.min (size d) ((r_end + alignment - 1) / alignment * alignment) in
    let n := Z.min 65536 (aligned_end - start) in
    _ ← mmod (fun d => d <| cached_start := start |>);
    data ← on_backend (read_at start n);
    if negb (zlen data =? n)
    then _ ← mmod (fun d => d <| cached_data := [] |>); raise (OSError (Some EIO))
    else mmod (fun d => d <| cached_data := data |>).

(** The loop of [read]: from [pos] to [stop], into [pieces]. *)
Fixpoint read_pieces (fuel : nat) (pos stop : Z) (pieces : list bytes) : M device (list bytes) :=
  if stop <=? pos then mret pieces
  else match fuel with
  | O => raise Hang
  | S fuel =>
      _ ← fill_cache pos;
      d ← mget id;
      let cached_end := cached_start d + zlen (cached_data d) in
      let n := Z.min (stop - pos) (cached_end - pos) in
      let offset := pos - cached_start d in
      read_pieces fuel (pos + n) stop (pieces ++ [slice (cached_data d) offset (offset + n)])
  end.

Definition read (count : Z) : M device bytes :=
  if count <? 0 then raise ValueError
  else
    d ← mget id;
    let count := Z.min count (limit d - position d) in
    if count =? 0 then mret []
    else
      pieces ← read_pieces (Z.to_nat count) (position d) (position d + count) [];
      let result := concat pieces in
      _ ← mmod (fun d => d <| position ::= fun p => p + zlen result |>);
      mret result.

(** [block[offset:offset + size] = data[:size]] on a whole native sector *)
Definition patch (block : bytes) (offset size : Z) (data : bytes) : bytes :=
  ztake offset block ++ ztake size data ++ zdrop (offset + size) block.

(** The native sector to write back: the data alone when it fills the sector, else
    the sector read and patched. *)
Definition native_block (alignment start offset n : Z) (data : bytes) : M device bytes :=
  if negb (offset =? 0) || negb (n =? alignment) then
    block ← on_backend (read_at start alignment);
    if negb (zlen block =? alignment) then raise (OSError (Some EIO))
    else mret (patch block offset n data)
  else mret (ztake n data).

(** The loop of [write] up to [stop]. *)
Fixpoint write_sectors (fuel : nat) (stop : Z) (data : bytes) : M device unit :=
  d ← mget id;
  if stop <=? position d then mret tt
  else match fuel with
  | O => raise Hang
  | S fuel =>
      let alignment := sector_size (backend d) in
      let start := position d / alignment * alignment in
      let offset := position d - start in
      let n := Z.min (stop - position d) (alignment - offset) in
      block ← native_block alignment start offset n data;
      written ← on_backend (write_at start block);
      if negb (written =? zlen block) then raise (OSError (Some EIO))
      else
        _ ← mmod (fun d => d <| position ::= fun p => p + n |>);
        write_sectors fuel stop (zdrop n data)
  end.

Definition write (data : bytes) : M device unit :=
  d ← mget id;
  if read_only d then raise (OSError (Some EROFS))
  else
    let stop := position d + zlen data in
    if limit d <? stop then raise (OSError (Some EINVAL))
    else
      _ ← mmod (fun d => d <| cached_data := [] |>);
      write_sectors (Z.to_nat (zlen data)) stop data.

Definition flush : M device unit :=
  d ← mget id;
  if read_only d then mret tt else on_backend b_flush.

#[global] Instance raw_dev : BlockDev device := {|
  bd_read_only := read_only;
  bd_is_raw := fun _ => true;
  bd_sector_count := sector_count;
  bd_seek := seek;
  bd_read := read;
  bd_write := write;
  bd_flush := Some flush
|}.
End raw.
Arguments device : clear implicits.
End Raw.
