(* ===== verification/RawStorageFacts.v ===== *)
(** * What a raw device guarantees

    A [Raw.device] over a working disk reads exactly the disk's bytes, whatever the
    native sector size and the order of reads, and so keeps the contract
    [BlockDevReads] of the UDPBD server; a write changes exactly its own bytes,
    although it is done in whole native sectors. *)

From S2P Require Import Prelude SessionStats Udpbd UdpbdFacts RawStorage.

(** ** The disk's side of the contract *)

Class BackendLaws (B : Type) `{!Backend B} := {
  b_bytes : B -> bytes;
  b_works : B -> Prop;
  b_size_bytes : forall b, b_works b -> b_size b = zlen (b_bytes b);
  read_at_works : forall b o n, b_works b -> 0 <= o -> 0 <= n -> o + n <= zlen (b_bytes b) ->
    exists b', read_at o n b = (Ok (slice (b_bytes b) o (o + n)), b') /\
      b_works b' /\ b_bytes b' = b_bytes b /\ sector_size b' = sector_size b;
  write_at_works : forall b o data, b_works b -> 0 <= o -> o + zlen data <= zlen (b_bytes b) ->
    exists b', write_at o data b = (Ok (zlen data), b') /\
      b_works b' /\ b_bytes b' = ztake o (b_bytes b) ++ data ++ zdrop (o + zlen data) (b_bytes b) /\
      sector_size b' = sector_size b
}.

#[export] Program Instance linux_works : BackendLaws LinuxDevice.device := {|
  b_bytes := LinuxDevice.content;
  b_works d := LinuxDevice.fail d = None /\ LinuxDevice.moves d = []
|}.
Next Obligation. done. Qed.
Next Obligation.
  intros d o n [Hf Hm] ???. eexists. cbn -[slice]. unfold LinuxDevice.pread, LinuxDevice.allowed.
  rewrite Hf, Hm. split; [reflexivity|]. cbn. by rewrite Hm.
Qed.
Next Obligation.
  intros d o data [Hf Hm] ??. eexists. cbn -[slice]. unfold LinuxDevice.pwrite, LinuxDevice.allowed.
  rewrite Hf, Hm. cbv zeta. rewrite Z.min_l by lia. split; [reflexivity|]. cbn. rewrite Hm.
  rewrite (ztake_all (zlen data)) by lia. done.
Qed.

Lemma splice_inside c pos data :
  pos <= zlen c -> splice c pos data = ztake pos c ++ data ++ zdrop (pos + zlen data) c.
Proof.
  intros. unfold splice, ljust. rewrite zlen_ztake. pose proof (zlen_nonneg c).
  unfold zeros. replace (Z.to_nat (pos - _)) with 0%nat by lia. by rewrite app_nil_r.
Qed.

(** Changing part of one block is changing that part of the whole. *)
Lemma splice_block c start al offset data :
  0 <= start -> 0 <= offset -> offset + zlen data <= al -> start + al <= zlen c ->
  let block := slice c start (start + al) in
  ztake start c ++ (ztake offset block ++ data ++ zdrop (offset + zlen data) block) ++ zdrop (start + al) c
  = splice c (start + offset) data.
Proof.
  intros Hs Ho Hd Hc block. pose proof (zlen_nonneg data).
  assert (Hb : zdrop start c = block ++ zdrop (start + al) c).
  { unfold block, slice. replace (start + al - start) with al by lia.
    rewrite <- (ztake_zdrop al (zdrop start c)) at 1. by rewrite zdrop_zdrop, Z.add_comm by lia. }
  assert (Hl : zlen block = al) by (unfold block; rewrite zlen_slice; lia).
  rewrite splice_inside by lia.
  rewrite ztake_split, Hb, ztake_app_le by lia.
  replace (start + offset + zlen data) with (offset + zlen data + start) by lia.
  rewrite <- (zdrop_zdrop (offset + zlen data) start), Hb, zdrop_app_le by lia.
  by rewrite <- !app_assoc.
Qed.

Section raw.
Context {B : Type} `{BackendLaws B}.
Import Raw.
Implicit Types d : device B.

Abbreviation disk d := (b_bytes (backend d)).

(** A device over a working disk whose cache holds the disk's bytes. *)
Definition raw_ok d : Prop :=
  b_works (backend d) /\ size d = zlen (disk d) /\
  0 < sector_size (backend d) <= 65536 /\ size d mod sector_size (backend d) = 0 /\
  0 <= cached_start d /\ cached_start d + zlen (cached_data d) <= size d /\
  cached_data d = slice (disk d) (cached_start d) (cached_start d + zlen (cached_data d)).

Definition same_request d d' : Prop :=
  read_only d' = read_only d /\ size d' = size d /\ position d' = position d /\
  request_end d' = request_end d /\ sector_size (backend d') = sector_size (backend d).

(** The extent read into the cache contains [pos] and lies on the disk. *)
Lemma fill_extent pos al r_end sz :
  0 < al <= 65536 -> 0 <= pos < sz -> pos < r_end ->
  let start := pos / al * al in
  let n := Z.min 65536 (Z.min sz ((r_end + al - 1) / al * al) - start) in
  0 <= start <= pos /\ pos < start + n /\ start + n <= sz.
Proof.
  intros Hal Hp Hr start n.
  assert (0 <= start <= pos /\ pos < start + al) as Hst
    by (unfold start; split; [split|]; pose proof (Z.div_mod pos al ltac:(lia));
        pose proof (Z.mod_pos_bound pos al ltac:(lia)); pose proof (Z.div_pos pos al ltac:(lia) ltac:(lia)); nia).
  assert (r_end <= (r_end + al - 1) / al * al) as Hup
    by (pose proof (Z.div_mod (r_end + al - 1) al ltac:(lia));
        pose proof (Z.mod_pos_bound (r_end + al - 1) al ltac:(lia)); lia).
  unfold n. generalize dependent start. generalize dependent ((r_end + al - 1) / al * al). lia.
Qed.

Lemma fill_cache_spec pos d :
  raw_ok d -> 0 <= pos < size d -> (forall e, request_end d = Some e -> pos < e) ->
  exists d', fill_cache pos d = (Ok tt, d') /\ raw_ok d' /\ same_request d d' /\ disk d' = disk d /\
    cached_start d' <= pos < cached_start d' + zlen (cached_data d').
Proof.
  intros Hok Hp He. pose proof Hok as (Hw & Hsz & Hal & Hmod & Hc0 & Hc1 & Hc2).
  unfold fill_cache, mget, mbind, M_bind, id.
  destruct (_ && _) eqn:Ec; [exists d; rewrite andb_true_iff, Z.leb_le, Z.ltb_lt in Ec; destruct Ec; unfold same_request; by split_and!|].
  set (al := sector_size (backend d)) in *.
  set (r_end := match request_end d with Some _ => _ | None => _ end).
  assert (Hr : pos < r_end).
  { unfold r_end. assert (pos < pos / al * al + al) by (pose proof (Z.div_mod pos al ltac:(lia));
      pose proof (Z.mod_pos_bound pos al ltac:(lia)); lia).
    destruct (request_end d) as [e|]; [|lia]. specialize (He e eq_refl). destruct (Z.eqb_spec e 0); lia. }
  destruct (fill_extent pos al r_end (size d) Hal Hp Hr) as (Hst & Hn1 & Hn2). clearbody r_end. cbv zeta.
  set (start := pos / al * al) in *. set (n := Z.min 65536 _) in *. clearbody n start.
  unfold mmod, on_backend. cbn [set_field backend].
  destruct (read_at_works (backend d) start n) as (b' & -> & Hw' & Hb' & Hs'); [done|lia..|].
  assert (Hl : zlen (slice (disk d) start (start + n)) = n) by (rewrite zlen_slice; lia).
  rewrite Hl, Z.eqb_refl. cbn [negb]. eexists. split; [reflexivity|].
  unfold raw_ok, same_request. cbn -[slice]. rewrite Hb', Hs', Hl. split_and!; done || lia.
Qed.

Lemma same_request_trans d1 d2 d3 : same_request d1 d2 -> same_request d2 d3 -> same_request d1 d3.
Proof. unfold same_request. intuition congruence. Qed.

Lemma read_pieces_spec fuel pos stop pieces d :
  raw_ok d -> 0 <= pos <= stop -> stop <= size d -> (forall e, request_end d = Some e -> stop <= e) ->
  stop - pos <= Z.of_nat fuel ->
  exists d' ps, read_pieces fuel pos stop pieces d = (Ok ps, d') /\ raw_ok d' /\ same_request d d' /\
    disk d' = disk d /\ concat ps = concat pieces ++ slice (disk d) pos stop.
Proof.
  revert pos pieces d. induction fuel as [|fuel IH]; intros pos pieces d Hok Hp Hs He Hf.
  all: cbn [read_pieces]; destruct (Z.leb_spec stop pos).
  1, 3: exists d, pieces; rewrite slice_empty, app_nil_r by lia; unfold same_request; by split_and!.
  { lia. }
  unfold mget, mbind, M_bind, id.
  destruct (fill_cache_spec pos d Hok) as (d1 & -> & Hok1 & Hsm1 & Hd1 & Hc); [lia|intros e Hre; specialize (He e Hre); lia|].
  pose proof Hok1 as (_ & _ & _ & _ & Hc0 & Hc1 & Hc2). pose proof Hsm1 as (_ & S2 & _ & S4 & _).
  set (n := Z.min (stop - pos) _).
  destruct (IH (pos + n) (pieces ++ [slice (cached_data d1) (pos - cached_start d1) (pos - cached_start d1 + n)]) d1)
    as (d' & ps & Hr & Hok' & Hsm' & Hd' & Hps);
    [done|unfold n; lia|lia|intros e Hre; apply He; congruence|unfold n; lia|].
  exists d', ps. split_and!; [exact Hr|done|by eapply same_request_trans|congruence|].
  rewrite Hps, concat_app. cbn [concat]. rewrite app_nil_r, <- app_assoc, Hd1. f_equal.
  rewrite <- (slice_app (disk d) pos (pos + n) stop) by (unfold n; lia). f_equal.
  rewrite Hc2, Hd1. apply slice_of_slice; unfold n; lia.
Qed.

(** A read within the current request returns the disk's bytes there. *)
Lemma raw_read_spec n d :
  raw_ok d -> 0 <= n -> 0 <= position d -> position d + n <= size d ->
  (forall e, request_end d = Some e -> position d + n <= e) ->
  exists d', Raw.read n d = (Ok (slice (disk d) (position d) (position d + n)), d') /\ raw_ok d' /\
    disk d' = disk d /\ position d' = position d + n /\ request_end d' = request_end d.
Proof.
  intros Hok Hn Hp Hs He. unfold Raw.read. rewrite (proj2 (Z.ltb_ge n 0)) by lia.
  unfold mget, mbind, M_bind, id.
  assert (Z.min n (limit d - position d) = n) as ->.
  { unfold limit. destruct (request_end d) as [e|]; cbn; [specialize (He e eq_refl)|]; lia. }
  destruct (Z.eqb_spec n 0) as [-> |].
  { exists d. rewrite slice_empty by lia. split_and!; [done|done|done|lia|done]. }
  destruct (read_pieces_spec (Z.to_nat n) (position d) (position d + n) [] d)
    as (d' & ps & -> & Hok' & (_ & S2 & S3 & S4 & _) & Hd' & Hps); [done|lia|lia|done|lia|].
  cbn [concat app] in Hps. rewrite Hps. eexists. split; [reflexivity|]. unfold mmod. cbn -[slice].
  destruct Hok as (_ & Hsz & _). rewrite zlen_slice by lia. split_and!; [done|done|lia|done].
Qed.

#[global] Program Instance raw_reads : BlockDevReads (device B) := {|
  bd_byte d := znth (disk d);
  bd_ok := raw_ok;
  bd_ready d a n := raw_ok d /\ position d = a /\ 0 <= a /\ 0 <= n /\ request_end d = Some (a + n) /\ a + n <= size d
|}.
Next Obligation. by intros d a n [? _]. Qed.
Next Obligation.
  intros d sector count Hok Hs Hc Hr. specialize (Hr eq_refl). cbn in Hr. unfold sector_count in Hr.
  assert ((sector + count) * 512 <= size d) by (Z.to_euclidean_division_equations; lia).
  cbn [bd_seek raw_dev bd_is_raw]. unfold seek, mget, mbind, M_bind, id, mmod. unfold SECTOR_SIZE.
  rewrite (proj2 (Z.leb_le 0 (sector * 512))), (proj2 (Z.leb_le (sector * 512) (size d))) by lia.
  cbn [andb negb fmap option_fmap option_map set_field size].
  rewrite (proj2 (Z.leb_le (sector * 512) _)), (proj2 (Z.leb_le _ (size d))) by lia.
  cbn [andb negb]. eexists. split; [reflexivity|].
  destruct Hok as (? & Hsz & ? & ? & ? & ? & ?). unfold raw_ok. cbn -[slice Z.mul].
  pose proof (zlen_nonneg (cached_data d)). change (zlen (@nil Z)) with 0. rewrite slice_empty by lia.
  split; [|done]. split_and!; done || lia.
Qed.
Next Obligation.
  intros d a n m (Hok & Hp & Ha & Hnm & He & Hs) Hn Hm.
  destruct (raw_read_spec n d) as (d' & Hr & Hok' & Hd' & Hp' & He'); [done|done|lia|lia| |].
  { intros e Hre. rewrite He in Hre. injection Hre as <-. lia. }
  exists d'. cbn [bd_read raw_dev]. rewrite Hr, Hd', Hp.
  pose proof Hok as (_ & Hsz & _). pose proof Hok' as (_ & Hsz' & _). rewrite Hd' in Hsz'.
  rewrite slice_stream by lia. split_and!; [done|done|lia|lia|lia| |lia|done].
  rewrite He', He. f_equal. lia.
Qed.

(** ** Writes *)

Lemma native_block_spec start offset n data d :
  raw_ok d -> 0 <= start -> start + sector_size (backend d) <= size d ->
  0 <= offset -> 0 < n <= zlen data -> offset + n <= sector_size (backend d) ->
  exists b2 block, native_block (sector_size (backend d)) start offset n data d = (Ok block, d <| backend := b2 |>) /\
    b_works b2 /\ b_bytes b2 = disk d /\ sector_size b2 = sector_size (backend d) /\
    zlen block = sector_size (backend d) /\
    ztake start (disk d) ++ block ++ zdrop (start + sector_size (backend d)) (disk d)
      = splice (disk d) (start + offset) (ztake n data).
Proof.
  intros (Hw & Hsz & Hal & _) Hst Hend Ho Hn Hon. set (al := sector_size (backend d)) in *.
  pose proof (splice_block (disk d) start al offset (ztake n data)) as Hsp.
  rewrite zlen_ztake in Hsp. replace (Z.max 0 (Z.min n (zlen data))) with n in Hsp by lia.
  specialize (Hsp Hst Ho Hon ltac:(lia)). cbv zeta in Hsp.
  unfold native_block. destruct (negb (offset =? 0) || negb (n =? al)) eqn:Ep.
  - unfold mbind, M_bind, on_backend.
    destruct (read_at_works (backend d) start al) as (b2 & -> & W2 & B2 & S2); [done|lia..|].
    assert (Hl : zlen (slice (disk d) start (start + al)) = al) by (rewrite zlen_slice; lia).
    rewrite Hl, Z.eqb_refl. cbn [negb]. exists b2, (patch (slice (disk d) start (start + al)) offset n data).
    split_and!; [done|done|done|done| |exact Hsp]. unfold patch.
    rewrite !zlen_app, !zlen_ztake, zlen_zdrop, Hl. lia.
  - rewrite orb_false_iff, !negb_false_iff, !Z.eqb_eq in Ep. destruct Ep as [E0 En].
    exists (backend d), (ztake n data). split_and!; [by destruct d|done|done|done|rewrite zlen_ztake; lia|].
    rewrite <- Hsp, E0, En, ztake_0, Z.add_0_l. cbn [app].
    rewrite (zdrop_all al (slice _ _ _)) by (rewrite zlen_slice; lia). by rewrite app_nil_r.
Qed.

(** One native sector of a write: [n] bytes of [data] land at the position. *)
Lemma write_sectors_step fuel stop data d :
  raw_ok d -> cached_data d = [] -> 0 <= position d -> position d < stop -> stop <= size d ->
  stop = position d + zlen data ->
  let n := Z.min (stop - position d)
                 (sector_size (backend d) - (position d - position d / sector_size (backend d) * sector_size (backend d))) in
  0 < n /\
  exists d1, write_sectors (S fuel) stop data d = write_sectors fuel stop (zdrop n data) d1 /\
    raw_ok d1 /\ cached_data d1 = [] /\ disk d1 = splice (disk d) (position d) (ztake n data) /\
    position d1 = position d + n /\ size d1 = size d.
Proof.
  intros Hok Hcache Hp Hlt Hstop Hdata. pose proof Hok as (Hw & Hsz & Hal & Hmod & _).
  cbn [write_sectors]. unfold mget, mbind at 1, M_bind at 1, id. rewrite (proj2 (Z.leb_gt stop _)) by lia.
  set (al := sector_size (backend d)) in *. set (start := position d / al * al).
  assert (Hst : 0 <= start <= position d /\ position d < start + al /\ start + al <= size d).
  { pose proof (Z.div_mod (position d) al ltac:(lia)). pose proof (Z.mod_pos_bound (position d) al ltac:(lia)).
    pose proof (Z.div_pos (position d) al ltac:(lia) ltac:(lia)). pose proof (Z.div_mod (size d) al ltac:(lia)).
    unfold start. assert (position d / al < size d / al) by (apply Z.nle_gt; intros ?; nia). nia. }
  clearbody start. set (offset := position d - start). cbv zeta. set (n := Z.min (stop - position d) (al - offset)).
  assert (Hn : 0 < n /\ offset + n <= al /\ n <= zlen data) by (unfold n, offset; lia).
  split; [lia|].
  destruct (native_block_spec start offset n data d Hok) as (b2 & block & Hblk & W2 & B2 & S2 & Lb & Hsp);
    [unfold offset; lia..|].
  replace (start + offset) with (position d) in Hsp by (unfold offset; lia). fold al in Hblk, S2, Lb, Hsp.
  unfold mbind at 1, M_bind at 1. rewrite Hblk.
  unfold mbind, M_bind, on_backend. cbn [set_field backend].
  destruct (write_at_works b2 start block) as (b3 & -> & W3 & B3 & S3); [done|lia|rewrite B2; lia|].
  rewrite Z.eqb_refl. cbn [negb]. eexists. split; [reflexivity|].
  rewrite B2, Lb, Hsp in B3. unfold raw_ok. cbn -[splice slice]. rewrite B3, S3, S2.
  assert (Hlen : zlen (splice (disk d) (position d) (ztake n data)) = size d).
  { rewrite <- Hsp, !zlen_app, zlen_ztake, zlen_zdrop. lia. }
  destruct Hok as (_ & _ & _ & _ & C0 & C1 & _). rewrite Hcache in C1 |- *. change (zlen (@nil Z)) with 0 in C1 |- *.
  split_and!; try done; try lia. by rewrite slice_empty by lia.
Qed.

Lemma write_sectors_spec fuel stop data d :
  raw_ok d -> cached_data d = [] -> 0 <= position d -> stop <= size d ->
  stop = position d + zlen data -> zlen data <= Z.of_nat fuel ->
  exists d', write_sectors fuel stop data d = (Ok tt, d') /\ raw_ok d' /\
    disk d' = splice (disk d) (position d) data /\ position d' = stop.
Proof.
  revert data d. induction fuel as [|fuel IH]; intros data d Hok Hcache Hp Hs Hdata Hf.
  all: pose proof Hok as (_ & Hsz & _); pose proof (zlen_nonneg data);
    destruct (Z.le_gt_cases stop (position d)) as [Hle|Hlt].
  1, 3: assert (data = []) as -> by (apply zlen_0_nil; lia); exists d; cbn [write_sectors];
    unfold mget, mbind, M_bind, id; rewrite (proj2 (Z.leb_le stop _)), splice_inside by lia;
    change (zlen (@nil Z)) with 0 in *; cbn [app]; rewrite Z.add_0_r, ztake_zdrop; split_and!; done || lia.
  { lia. }
  destruct (write_sectors_step fuel stop data d) as (Hn & d1 & -> & Hok1 & Hc1 & Hd1 & Hp1 & Hs1); [done..|lia|done|done|].
  set (n := Z.min (stop - position d) _) in *.
  assert (Hnd : n <= zlen data) by (unfold n; lia). clearbody n.
  destruct (IH (zdrop n data) d1) as (d' & Hr & Hok' & Hd' & Hp'); [done|done|lia|lia|..].
  { rewrite zlen_zdrop. lia. }
  { rewrite zlen_zdrop. lia. }
  exists d'. split_and!; [done|done| |done].
  rewrite Hd', Hd1, Hp1. rewrite <- (ztake_zdrop n data) at 3. rewrite <- splice_app by lia.
  rewrite zlen_ztake. do 2 f_equal. lia.
Qed.
End raw.

(** A write inside the request changes exactly its own bytes of the disk, at any
    offset and for any native sector size, and moves the position past them; the
    loop over native sectors ends. *)
Theorem raw_write_exact {B} `{BackendLaws B} (data : bytes) (d : Raw.device B) :
  raw_ok d -> Raw.read_only d = false -> 0 <= Raw.position d ->
  Raw.position d + zlen data <= Raw.limit d -> Raw.limit d <= Raw.size d ->
  exists d', Raw.write data d = (Ok tt, d') /\ raw_ok d' /\
    b_bytes (Raw.backend d') = splice (b_bytes (Raw.backend d)) (Raw.position d) data /\
    Raw.position d' = Raw.position d + zlen data.
Proof.
  intros Hok Hro Hp Hl Hs. unfold Raw.write, mget, mbind, M_bind, id. rewrite Hro.
  rewrite (proj2 (Z.ltb_ge _ _)) by lia. unfold mmod. pose proof (zlen_nonneg data).
  destruct (write_sectors_spec (Z.to_nat (zlen data)) (Raw.position d + zlen data) data
              (d <| Raw.cached_data := [] |>)) as (d' & -> & Hok' & Hd' & Hp'); [|done|done|cbn; lia|done|lia|by exists d'].
  destruct Hok as (? & ? & ? & ? & C0 & C1 & _). unfold raw_ok. cbn -[slice].
  pose proof (zlen_nonneg (Raw.cached_data d)). change (zlen (@nil Z)) with 0.
  rewrite slice_empty by lia. split_and!; done || lia.
Qed.

(** A UDPBD READ of a raw disk returns the disk's own bytes: the device keeps the
    server's contract, and after any seek of the server the read is served from the
    request's extent alone. *)
Theorem raw_seek_read_exact {B} `{BackendLaws B} (d : Raw.device B) sector count n m :
  raw_ok d -> 0 <= sector -> 0 <= count -> sector + count <= Raw.sector_count d ->
  0 <= n -> 0 <= m -> n + m = count * SECTOR_SIZE ->
  exists d1 d2 d3, Raw.seek sector (Some count) d = (Ok tt, d1) /\
    Raw.read n d1 = (Ok (stream (znth (b_bytes (Raw.backend d))) (sector * SECTOR_SIZE) n), d2) /\
    Raw.read m d2 = (Ok (stream (znth (b_bytes (Raw.backend d))) (sector * SECTOR_SIZE + n) m), d3) /\
    Raw.read 1 d3 = (Ok [], d3).
Proof.
  intros Hok Hs Hc Hin Hn Hm Hnm.
  destruct (bd_seek_ready (BlockDevReads := raw_reads) d sector count Hok Hs Hc (fun _ => Hin)) as (d1 & H1 & R1 & B1).
  rewrite <- Hnm in R1.
  destruct (bd_read_ready (BlockDevReads := raw_reads) d1 _ n m R1 Hn Hm) as (d2 & H2 & R2 & B2).
  replace m with (m + 0) in R2 by lia.
  destruct (bd_read_ready (BlockDevReads := raw_reads) d2 _ m 0 R2 Hm (Z.le_refl 0)) as (d3 & H3 & R3 & B3).
  exists d1, d2, d3. cbn [bd_is_raw bd_seek bd_read Raw.raw_dev] in *. cbn [bd_byte raw_reads] in *.
  split_and!; [exact H1| | |].
  - rewrite H2. do 2 f_equal. apply stream_ext. intros; apply B1.
  - rewrite H3. do 2 f_equal. apply stream_ext. intros; rewrite B2; apply B1.
  - destruct R3 as (_ & Hp & _ & _ & He & _).
    unfold Raw.read, mget, mbind, M_bind, id. cbn [Z.ltb Z.compare].
    unfold Raw.limit. rewrite He, Hp. cbn [from_option]; unfold id. by replace (Z.min 1 _) with 0 by lia.
Qed.

(** ** The hypotheses can be met *)

Definition sample_disk : LinuxDevice.device :=
  {| LinuxDevice.content := map (fun i => i mod 253) (seqZ 0 12288); LinuxDevice.native := 4096;
     LinuxDevice.fail := None; LinuxDevice.moves := [] |}.
Definition sample_raw : Raw.device LinuxDevice.device :=
  {| Raw.backend := sample_disk; Raw.read_only := false; Raw.size := 12288; Raw.position := 4000;
     Raw.request_end := None; Raw.cached_start := 0; Raw.cached_data := [] |}.

Lemma sample_raw_ok : raw_ok sample_raw.
Proof. vm_compute. repeat split; discriminate. Qed.

Lemma raw_write_exact_witness :
  exists d', Raw.write (replicate 200 7) sample_raw = (Ok tt, d') /\ Raw.position d' = 4200 /\
    LinuxDevice.content (Raw.backend d') = splice (LinuxDevice.content sample_disk) 4000 (replicate 200 7).
Proof.
  destruct (raw_write_exact (replicate 200 7) sample_raw sample_raw_ok) as (d' & H1 & _ & H3 & H4);
    [reflexivity|vm_compute; discriminate..|].
  exists d'. split; [exact H1|]. split; [rewrite H4; reflexivity|exact H3].
Defined.

Lemma raw_seek_read_exact_witness :
  exists d1 d2, Raw.seek 3 (Some 2) sample_raw = (Ok tt, d1) /\
    Raw.read 1000 d1 = (Ok (stream (znth (LinuxDevice.content sample_disk)) 1536 1000), d2).
Proof.
  destruct (raw_seek_read_exact sample_raw 3 2 1000 24 sample_raw_ok) as (d1 & d2 & d3 & H1 & H2 & _);
    [lia|lia|vm_compute; discriminate|lia|lia|reflexivity|].
  exists d1, d2. split; [exact H1|exact H2].
Defined.
