(* ===== verification/Wire.v ===== *)
(** * The UDPRDMA wire format and the router status protocol

    Models the packet headers of [udpfs_server/udpfs_server.py] ([Header],
    [DiscHeader], [DataHeader], the packet and message types) and
    [udpfs_server/router_status.py], with the theorems that they read back. *)

From S2P Require Import Prelude PyStr.

(** ** Constants *)

Definition UDPFS_PORT : Z := 0xF5F6.
Definition UDPRDMA_SVC_UDPFS : Z := 0xF5F5.

(** [PacketType] *)
Definition DISCOVERY : Z := 0.
Definition INFORM : Z := 1.
Definition DATA : Z := 2.

(** [DataFlags] *)
Definition ACK : Z := 1.
Definition FIN : Z := 2.

(** [MsgType] *)
Definition OPEN_REQ : Z := 0x10.
Definition OPEN_REPLY : Z := 0x11.
Definition CLOSE_REQ : Z := 0x12.
Definition CLOSE_REPLY : Z := 0x13.
Definition READ_REQ : Z := 0x14.
Definition WRITE_REQ : Z := 0x16.
Definition WRITE_DATA : Z := 0x17.
Definition WRITE_DONE : Z := 0x18.
Definition LSEEK_REQ : Z := 0x1A.
Definition LSEEK_REPLY : Z := 0x1B.
Definition DREAD_REQ : Z := 0x1C.
Definition DREAD_REPLY : Z := 0x1D.
Definition GETSTAT_REQ : Z := 0x1E.
Definition GETSTAT_REPLY : Z := 0x1F.
Definition MKDIR_REQ : Z := 0x20.
Definition REMOVE_REQ : Z := 0x22.
Definition RMDIR_REQ : Z := 0x24.
Definition RESULT_REPLY : Z := 0x26.
Definition BREAD_REQ : Z := 0x28.
Definition BWRITE_REQ : Z := 0x2A.

Definition MAX_DATA_PAYLOAD : Z := 1408.
Definition MAX_HANDLES : Z := 64.
Definition BLOCK_DEVICE_HANDLE : Z := 0.
Definition SEND_WINDOW : Z := 8.
Definition MAX_WINDOW_RETRIES : Z := 200.

(** Twelve-bit sequence numbers: [x & 0xFFF]. *)
Definition seq12 (x : Z) : Z := Z.land x 0xFFF.

(** ** Headers *)

(** [struct.unpack('<..', data[:n])] *)
Definition unpack_prefix (fs : list fmt) (data : bytes) : result (list Z) :=
  struct_result (unpack fs (ztake (Z.of_nat (fmts_size fs)) data)).

Module Header.
Record t := Header { packet_type : Z; seq_nr : Z }.

Definition unpack (data : bytes) : result t :=
  vs ← unpack_prefix [fH] data;
  let val := nth 0 vs 0 in
  Ok {| packet_type := Z.land val 0xF; seq_nr := Z.land (Z.shiftr val 4) 0xFFF |}.

(** The masked value always fits its 16 bits. *)
Definition pack (h : t) : bytes :=
  le_bytes 2 (Z.lor (Z.land (packet_type h) 0xF) (Z.shiftl (Z.land (seq_nr h) 0xFFF) 4)).
End Header.

Module DiscHeader.
Record t := DiscHeader { service_id : Z; port : Z }.

Definition unpack (data : bytes) : result t :=
  vs ← unpack_prefix [fH; fH] data;
  Ok {| service_id := nth 0 vs 0; port := nth 1 vs 0 |}.

Definition pack (h : t) : result bytes :=
  struct_result (Prelude.pack [(fH, service_id h); (fH, port h)]).
End DiscHeader.

Module DataHeader.
Record t := DataHeader { seq_nr_ack : Z; flags : Z; hdr_word_count : Z; data_byte_count : Z }.

Definition of_word (val : Z) : t :=
  {| seq_nr_ack := Z.land val 0xFFF;
     flags := Z.land (Z.shiftr val 12) 0x3;
     hdr_word_count := Z.land (Z.shiftr val 14) 0xF;
     data_byte_count := Z.land (Z.shiftr val 18) 0x3FFF |}.

Definition unpack (data : bytes) : result t :=
  vs ← unpack_prefix [fI] data; Ok (of_word (nth 0 vs 0)).

Definition word (h : t) : Z :=
  Z.lor (Z.lor (Z.lor (Z.land (seq_nr_ack h) 0xFFF) (Z.shiftl (Z.land (flags h) 0x3) 12))
               (Z.shiftl (Z.land (hdr_word_count h) 0xF) 14))
        (Z.shiftl (Z.land (data_byte_count h) 0x3FFF) 18).

(** The masked value always fits its 32 bits. *)
Definition pack (h : t) : bytes := le_bytes 4 (word h).

(** [hdr_word_count * 4 + data_byte_count] *)
Definition payload_size (h : t) : Z := hdr_word_count h * 4 + data_byte_count h.

Definition has_ack (h : t) : bool := negb (Z.land (flags h) ACK =? 0).
End DataHeader.

(** ** Router status *)
Module Status.

Definition SVC_STATUS : Z := 0xF5F7.
Definition MAGIC : bytes := lit "PS2S".
Definition VERSION : Z := 1.
Definition QUERY_LEN : Z := 10.
Definition FIXED_LEN : Z := 19.

Definition STATE_STARTING : Z := 0.
Definition STATE_READY : Z := 1.
Definition STATE_BUSY : Z := 2.
Definition STATE_DEGRADED : Z := 3.
Definition STATE_STOPPING : Z := 4.

Definition FLAG_UDPFS : Z := 1.
Definition FLAG_READ_ONLY : Z := 8.

Definition pack_header (packet_type sequence : Z) : bytes :=
  le_bytes 2 (Z.lor (Z.land packet_type 0xF) (Z.shiftl (Z.land sequence 0xFFF) 4)).

Definition unpack_header (data : bytes) : option (Z * Z) :=
  match unpack_from [fH] data 0 with
  | Some [v] => Some (Z.land v 0xF, Z.land (Z.shiftr v 4) 0xFFF)
  | _ => None
  end.

(** [is_status_query] *)
Definition is_status_query (data : bytes) : bool :=
  if zlen data <? QUERY_LEN then false
  else match unpack_header data, unpack_from [fH] data 2 with
       | Some (packet_type, _), Some [service_id] =>
           (packet_type =? DISCOVERY) && (service_id =? SVC_STATUS)
           && str_eqb (slice data 6 10) MAGIC
       | _, _ => false
       end.

(** [build_status_query] *)
Definition build_status_query : bytes :=
  pack_header DISCOVERY 0 ++ le_bytes 2 SVC_STATUS ++ le_bytes 2 0 ++ MAGIC.

(** [build_status_reply]; every packed value is cut to its field first, so
    [struct.pack] never raises.  [name] is its own UTF-8 encoding. *)
Definition build_status_reply (state flags sessions uptime_seconds : Z) (name : str) : bytes :=
  let encoded := ztake 255 name in
  pack_header INFORM 0 ++ le_bytes 2 SVC_STATUS ++ MAGIC
  ++ le_bytes 1 VERSION ++ le_bytes 1 (Z.land state 0xFF) ++ le_bytes 2 (Z.land flags 0xFFFF)
  ++ le_bytes 2 (Z.min sessions 0xFFFF)
  ++ le_bytes 4 (Z.min (Z.max uptime_seconds 0) 0xFFFFFFFF)
  ++ le_bytes 1 (zlen encoded) ++ encoded.

Record reply := Reply {
  r_version : Z; r_state : Z; r_flags : Z; r_sessions : Z; r_uptime : Z; r_name : str
}.

(** [parse_status_reply] *)
Definition parse_status_reply (data : bytes) : option reply :=
  if zlen data <? FIXED_LEN then None
  else match unpack_header data, unpack_from [fH] data 2, unpack_from [fB; fB; fH; fH; fI; fB] data 8 with
       | Some (packet_type, _), Some [service_id], Some [version; state; flags; sessions; uptime; name_len] =>
           if negb (packet_type =? INFORM) || negb (service_id =? SVC_STATUS) then None
           else if negb (str_eqb (slice data 4 8) MAGIC) then None
           else if negb (version =? VERSION) then None
           else if negb (name_len =? 0) && (zlen data <? FIXED_LEN + name_len) then None
           else Some {| r_version := version;
                        r_state := if STATE_STOPPING <? state then STATE_DEGRADED else state;
                        r_flags := flags; r_sessions := sessions; r_uptime := uptime;
                        r_name := if name_len =? 0 then []
                                  else utf8_replace (slice data FIXED_LEN (FIXED_LEN + name_len)) |}
       | _, _, _ => None
       end.
End Status.

#[global] Arguments Header.pack : simpl never.
#[global] Arguments Header.unpack : simpl never.
#[global] Arguments DataHeader.pack : simpl never.
#[global] Arguments DataHeader.unpack : simpl never.
#[global] Arguments seq12 : simpl never.

(** ** The wire format: headers read back, and the status exchange

    Theorems about [Wire]. *)

Lemma seq12_mod x : seq12 x = x mod 4096.
Proof. apply (land_mask x 12); done. Qed.

Lemma seq12_range x : 0 <= seq12 x < 4096.
Proof. rewrite seq12_mod. apply Z.mod_pos_bound. lia. Qed.

Lemma seq12_small x : 0 <= x < 4096 -> seq12 x = x.
Proof. intros. rewrite seq12_mod. by apply Z.mod_small. Qed.

Lemma seq12_idemp x : seq12 (seq12 x) = seq12 x.
Proof. apply seq12_small, seq12_range. Qed.

(** Rewrites masks and shifts as remainders and divisions. *)
Ltac masks :=
  rewrite ?(land_mask _ 4 0xF), ?(land_mask _ 12 0xFFF), ?(land_mask _ 2 0x3), ?(land_mask _ 14 0x3FFF)
    by done;
  rewrite ?Z.shiftr_div_pow2 by lia.

Lemma zlen_header_pack h : zlen (Header.pack h) = 2.
Proof. unfold Header.pack, zlen. by rewrite length_le_bytes. Qed.

Lemma zlen_data_header_pack h : zlen (DataHeader.pack h) = 4.
Proof. unfold DataHeader.pack, zlen. by rewrite length_le_bytes. Qed.

Lemma header_value pt n :
  Z.lor (Z.land pt 0xF) (Z.shiftl (Z.land n 0xFFF) 4) = pt mod 16 + n mod 4096 * 16.
Proof.
  masks. change (2 ^ 4) with 16. change (2 ^ 12) with 4096.
  rewrite lor_shiftl_add by (try apply Z.mod_pos_bound; lia). done.
Qed.

Lemma header_value_range pt n : 0 <= pt mod 16 + n mod 4096 * 16 < 65536.
Proof. pose proof (Z.mod_pos_bound pt 16 ltac:(lia)). pose proof (Z.mod_pos_bound n 4096 ltac:(lia)). lia. Qed.

(** A header starts any packet and reads back as its fields, cut to their widths. *)
Lemma header_unpack_pack h rest :
  Header.unpack (Header.pack h ++ rest) =
  Ok {| Header.packet_type := Header.packet_type h mod 16; Header.seq_nr := seq12 (Header.seq_nr h) |}.
Proof.
  destruct h as [pt n]. unfold Header.unpack, Header.pack, unpack_prefix. cbn [Header.packet_type Header.seq_nr].
  rewrite header_value. set (v := pt mod 16 + n mod 4096 * 16).
  assert (Hf : fits fH v = true) by (apply fits_unsigned, header_value_range).
  rewrite (unpack_prefix_app [(fH, v)] _ _ (pack_single _ _ Hf)).
  cbn -[Z.land Z.shiftr]. masks. rewrite seq12_mod. change (2 ^ 4) with 16. change (2 ^ 12) with 4096.
  subst v. clear Hf. pose proof (Z.mod_pos_bound pt 16 ltac:(lia)). pose proof (Z.mod_pos_bound n 4096 ltac:(lia)).
  abstract_mod pt 16. abstract_mod n 4096. intros.
  do 2 f_equal; Z.to_euclidean_division_equations; lia.
Qed.

Lemma word_value h :
  DataHeader.word h =
    seq12 (DataHeader.seq_nr_ack h) + DataHeader.flags h mod 4 * 2 ^ 12
    + DataHeader.hdr_word_count h mod 16 * 2 ^ 14 + DataHeader.data_byte_count h mod 16384 * 2 ^ 18.
Proof.
  unfold DataHeader.word. fold (seq12 (DataHeader.seq_nr_ack h)). masks.
  change (2 ^ 2) with 4. change (2 ^ 4) with 16.
  pose proof (seq12_range (DataHeader.seq_nr_ack h)).
  pose proof (Z.mod_pos_bound (DataHeader.flags h) 4 ltac:(lia)). pose proof (Z.mod_pos_bound (DataHeader.hdr_word_count h) 16 ltac:(lia)).
  rewrite (lor_shiftl_add (seq12 _)) by lia.
  rewrite (lor_shiftl_add _ _ 14) by lia. rewrite lor_shiftl_add by lia. done.
Qed.

Lemma data_header_unpack_pack h rest :
  DataHeader.unpack (DataHeader.pack h ++ rest) =
  Ok {| DataHeader.seq_nr_ack := seq12 (DataHeader.seq_nr_ack h);
        DataHeader.flags := DataHeader.flags h mod 4;
        DataHeader.hdr_word_count := DataHeader.hdr_word_count h mod 16;
        DataHeader.data_byte_count := DataHeader.data_byte_count h mod 16384 |}.
Proof.
  unfold DataHeader.unpack, DataHeader.pack, unpack_prefix. rewrite word_value.
  pose proof (seq12_range (DataHeader.seq_nr_ack h)) as H1.
  pose proof (Z.mod_pos_bound (DataHeader.flags h) 4 ltac:(lia)) as H2.
  pose proof (Z.mod_pos_bound (DataHeader.hdr_word_count h) 16 ltac:(lia)) as H3.
  pose proof (Z.mod_pos_bound (DataHeader.data_byte_count h) 16384 ltac:(lia)) as H4.
  generalize dependent (seq12 (DataHeader.seq_nr_ack h)). intros a.
  generalize dependent (DataHeader.flags h mod 4). intros b.
  generalize dependent (DataHeader.hdr_word_count h mod 16). intros c.
  generalize dependent (DataHeader.data_byte_count h mod 16384). intros d. intros.
  set (v := a + b * 2 ^ 12 + c * 2 ^ 14 + d * 2 ^ 18).
  assert (Hf : fits fI v = true) by (apply fits_unsigned; unfold v; lia).
  rewrite (unpack_prefix_app [(fI, v)] _ _ (pack_single _ _ Hf)).
  cbn -[Z.land Z.shiftr]. unfold DataHeader.of_word. masks. subst v.
  change (2 ^ 2) with 4. change (2 ^ 4) with 16. change (2 ^ 12) with 4096. change (2 ^ 14) with 16384.
  change (2 ^ 18) with 262144.
  do 2 f_equal; Z.to_euclidean_division_equations; lia.
Qed.

Lemma data_packet_parts h d payload :
  let pkt := Header.pack h ++ DataHeader.pack d ++ payload in
  Header.unpack pkt =
    Ok {| Header.packet_type := Header.packet_type h mod 16; Header.seq_nr := seq12 (Header.seq_nr h) |} /\
  DataHeader.unpack (slice pkt 2 6) =
    Ok {| DataHeader.seq_nr_ack := seq12 (DataHeader.seq_nr_ack d);
          DataHeader.flags := DataHeader.flags d mod 4;
          DataHeader.hdr_word_count := DataHeader.hdr_word_count d mod 16;
          DataHeader.data_byte_count := DataHeader.data_byte_count d mod 16384 |} /\
  zdrop 6 pkt = payload.
Proof.
  intros pkt. split_and!.
  - apply header_unpack_pack.
  - unfold slice, pkt. rewrite zdrop_app_length by (by rewrite zlen_header_pack).
    rewrite ztake_app_length by (by rewrite zlen_data_header_pack).
    rewrite <- (app_nil_r (DataHeader.pack d)). apply data_header_unpack_pack.
  - unfold pkt. rewrite app_assoc. apply zdrop_app_length.
    by rewrite zlen_app, zlen_header_pack, zlen_data_header_pack.
Qed.

(** What a packet header and a DATA header were packed from is what the receiver reads,
    each field cut to its width: 4 bits of type, 12 of sequence and acknowledgement,
    2 of flags, 4 of header words and 14 of data bytes; the payload follows intact. *)
Theorem data_packet_roundtrip h d payload :
  let pkt := Header.pack h ++ DataHeader.pack d ++ payload in
  Header.unpack pkt =
    Ok {| Header.packet_type := Header.packet_type h mod 16; Header.seq_nr := seq12 (Header.seq_nr h) |} /\
  DataHeader.unpack (slice pkt 2 6) =
    Ok {| DataHeader.seq_nr_ack := seq12 (DataHeader.seq_nr_ack d);
          DataHeader.flags := DataHeader.flags d mod 4;
          DataHeader.hdr_word_count := DataHeader.hdr_word_count d mod 16;
          DataHeader.data_byte_count := DataHeader.data_byte_count d mod 16384 |} /\
  zdrop 6 pkt = payload.
Proof. exact (data_packet_parts h d payload). Qed.

(** ** Router status *)

Lemma status_header_value pt n :
  Status.pack_header pt n = Header.pack {| Header.packet_type := pt; Header.seq_nr := n |}.
Proof. done. Qed.

Lemma status_unpack_header pt n rest :
  Status.unpack_header (Status.pack_header pt n ++ rest) = Some (pt mod 16, n mod 4096).
Proof.
  pose proof (header_unpack_pack {| Header.packet_type := pt; Header.seq_nr := n |} rest) as H.
  unfold Header.unpack, unpack_prefix in H. unfold Status.unpack_header, unpack_from, slice.
  rewrite zdrop_0, Z.sub_0_r, Z.add_0_l. rewrite status_header_value.
  destruct (unpack [fH] _) as [vs|] eqn:E; cbn [struct_result mbind result_bind] in H; [|done].
  change (Z.of_nat (fmts_size [fH])) with 2 in *.
  cbn [unpack] in E. destruct (_ <=? _) in E; [|done].
  destruct (drop _ _); cbn in E; [|done]. injection E as <-.
  cbn in H. injection H as -> H. by rewrite H, seq12_mod.
Qed.

(** The packed fields behind the magic of a status reply *)
Definition status_fields (state flags sessions uptime name_len : Z) : list (fmt * Z) :=
  [(fB, Status.VERSION); (fB, Z.land state 0xFF); (fH, Z.land flags 0xFFFF); (fH, Z.min sessions 0xFFFF);
   (fI, Z.min (Z.max uptime 0) 0xFFFFFFFF); (fB, name_len)].

Lemma status_fields_pack state flags sessions uptime name_len :
  0 <= sessions -> 0 <= name_len < 256 ->
  pack (status_fields state flags sessions uptime name_len) =
    Some (le_bytes 1 Status.VERSION ++ le_bytes 1 (Z.land state 0xFF) ++ le_bytes 2 (Z.land flags 0xFFFF)
          ++ le_bytes 2 (Z.min sessions 0xFFFF) ++ le_bytes 4 (Z.min (Z.max uptime 0) 0xFFFFFFFF)
          ++ le_bytes 1 name_len).
Proof.
  intros Hs Hn. unfold status_fields.
  rewrite (land_mask state 8 0xFF), (land_mask flags 16 0xFFFF) by done.
  pose proof (Z.mod_pos_bound state (2 ^ 8) ltac:(lia)).
  pose proof (Z.mod_pos_bound flags (2 ^ 16) ltac:(lia)).
  repeat (apply pack_cons; [apply fits_unsigned; cbn; unfold Status.VERSION; lia|]).
  apply pack_single, fits_unsigned. cbn; lia.
Qed.

(** A status query names another service than the file service. *)
Lemma status_query_not_discovery data :
  Status.is_status_query data = true ->
  exists disc, DiscHeader.unpack (slice data 2 6) = Ok disc /\ DiscHeader.service_id disc <> UDPRDMA_SVC_UDPFS.
Proof.
  unfold Status.is_status_query.
  destruct (Z.ltb_spec (zlen data) Status.QUERY_LEN) as [|Hl]; [done|].
  unfold Status.QUERY_LEN in Hl. destruct (Status.unpack_header data) as [[pt n]|]; [|done].
  unfold unpack_from. change (2 + Z.of_nat (fmts_size [fH])) with 4.
  destruct (unpack [fH] (slice data 2 4)) as [[|v [|]]|] eqn:E; try done.
  rewrite !andb_true_iff. intros [[_ Hv%Z.eqb_eq] _].
  unfold DiscHeader.unpack, unpack_prefix. change (Z.of_nat (fmts_size [fH; fH])) with 4.
  rewrite (ztake_all 4) by (rewrite zlen_slice by lia; lia).
  assert (slice data 2 6 = slice data 2 4 ++ slice data 4 6) as -> by (symmetry; apply slice_app; lia).
  assert (Hf : length (slice data 2 4) = 2%nat)
    by (apply Nat2Z.inj; fold (zlen (slice data 2 4)); rewrite zlen_slice by lia; lia).
  assert (Hg : length (slice data 4 6) = 2%nat)
    by (apply Nat2Z.inj; fold (zlen (slice data 4 6)); rewrite zlen_slice by lia; lia).
  destruct (unpack_total [fH] (slice data 4 6) Hg) as [ws Ews].
  cbn [unpack] in E |- *. change (fsize fH) with 2%nat in *.
  rewrite zlen_app. rewrite (proj2 (Z.leb_le (Z.of_nat 2) (zlen (slice data 2 4) + zlen (slice data 4 6)))) by (unfold zlen; lia).
  rewrite drop_app_length', take_app_length' by done.
  destruct (_ <=? _) in E; [|done]. rewrite drop_ge, take_ge in E by lia. cbn in E. injection E as E.
  cbn [unpack] in Ews. change (fsize fH) with 2%nat in *.
  rewrite Ews. eexists; split; [reflexivity|]. cbn -[unpack1].
  cbn [unpack1] in E |- *. rewrite E, Hv. done.
Qed.

Lemma parse_build_status state flags sessions uptime name :
  0 <= sessions ->
  Status.parse_status_reply (Status.build_status_reply state flags sessions uptime name) =
    Some {| Status.r_version := Status.VERSION;
            Status.r_state := (if Status.STATE_STOPPING <? state mod 256 then Status.STATE_DEGRADED
                               else state mod 256);
            Status.r_flags := flags mod 65536;
            Status.r_sessions := Z.min sessions 65535;
            Status.r_uptime := Z.min (Z.max uptime 0) 4294967295;
            Status.r_name := utf8_replace (ztake 255 name) |}.
Proof.
  intros Hs.
  unfold Status.parse_status_reply, Status.build_status_reply.
  set (enc := ztake 255 name).
  assert (He : 0 <= zlen enc < 256) by (unfold enc; rewrite zlen_ztake; pose proof (zlen_nonneg name); lia).
  pose proof (status_fields_pack state flags sessions uptime (zlen enc) Hs He) as Hp.
  set (fields := le_bytes 1 Status.VERSION ++ _) in Hp.
  assert (Hl : zlen fields = 11) by (unfold zlen; by rewrite (length_pack _ _ Hp)).
  set (hd := Status.pack_header INFORM 0). set (svc := le_bytes 2 Status.SVC_STATUS).
  match goal with |- context [zlen ?x <? Status.FIXED_LEN] =>
    assert (x = hd ++ svc ++ Status.MAGIC ++ fields ++ enc) as -> end.
  { unfold fields. rewrite <- !app_assoc. done. }
  assert (Hh : zlen hd = 2) by done. assert (Hv : zlen svc = 2) by done.
  assert (Hm : zlen Status.MAGIC = 4) by done.
  assert (Ht : zlen (hd ++ svc ++ Status.MAGIC ++ fields ++ enc) = 19 + zlen enc)
    by (rewrite !zlen_app; lia).
  rewrite Ht. change Status.FIXED_LEN with 19.
  destruct (Z.ltb_spec (19 + zlen enc) 19); [lia|].
  unfold hd at 1. rewrite status_unpack_header.
  rewrite (unpack_from_mid [(fH, Status.SVC_STATUS)] svc hd _ 2) by done.
  replace (hd ++ svc ++ Status.MAGIC ++ fields ++ enc) with ((hd ++ svc ++ Status.MAGIC) ++ fields ++ enc)
    by (by rewrite <- !app_assoc).
  pose proof (unpack_from_mid _ fields (hd ++ svc ++ Status.MAGIC) enc 8 eq_refl Hp) as Hu.
  unfold status_fields in Hu. cbn [map fst snd] in Hu. rewrite Hu. cbn [map snd].
  change (negb (INFORM mod 16 =? INFORM) || negb (Status.SVC_STATUS =? Status.SVC_STATUS)) with false.
  cbn [negb]. cbv iota.
  assert (slice ((hd ++ svc ++ Status.MAGIC) ++ fields ++ enc) 4 8 = Status.MAGIC) as ->.
  { replace ((hd ++ svc ++ Status.MAGIC) ++ fields ++ enc) with ((hd ++ svc) ++ Status.MAGIC ++ fields ++ enc)
      by (by rewrite <- !app_assoc).
    unfold slice. rewrite zdrop_app_length by done. by apply ztake_app_length. }
  change (negb (str_eqb Status.MAGIC Status.MAGIC)) with false. cbv iota.
  change (negb (Status.VERSION =? Status.VERSION)) with false. cbv iota.
  destruct (Z.ltb_spec (19 + zlen enc) (19 + zlen enc)); [lia|]. rewrite andb_false_r.
  rewrite (land_mask state 8 0xFF), (land_mask flags 16 0xFFFF) by done.
  change (2 ^ 8) with 256. change (2 ^ 16) with 65536. do 2 f_equal.
  destruct (Z.eqb_spec (zlen enc) 0) as [E|]; [by rewrite (zlen_0_nil _ E)|].
  replace ((hd ++ svc ++ Status.MAGIC) ++ fields ++ enc) with ((hd ++ svc ++ Status.MAGIC ++ fields) ++ enc)
    by (by rewrite <- !app_assoc).
  unfold slice. rewrite zdrop_app_length by (rewrite !zlen_app; lia).
  rewrite ztake_all by lia. done.
Qed.

(** A status query is recognised; its reply parses to the server's own state, flags,
    session count, uptime and name, each limited to its field: the count and the uptime
    saturate, a state beyond the five known ones reads as degraded, and the name is cut
    at 255 bytes.  A query is never taken for a file-service discovery, so answering
    it comes before, and never replaces, the discovery of a console. *)
Theorem status_exchange state flags sessions uptime name :
  0 <= sessions ->
  Status.is_status_query Status.build_status_query = true /\
  (forall data, Status.is_status_query data = true ->
     exists disc, DiscHeader.unpack (slice data 2 6) = Ok disc /\ DiscHeader.service_id disc <> UDPRDMA_SVC_UDPFS) /\
  Status.parse_status_reply (Status.build_status_reply state flags sessions uptime name) =
    Some {| Status.r_version := Status.VERSION;
            Status.r_state := (if Status.STATE_STOPPING <? state mod 256 then Status.STATE_DEGRADED
                               else state mod 256);
            Status.r_flags := flags mod 65536;
            Status.r_sessions := Z.min sessions 65535;
            Status.r_uptime := Z.min (Z.max uptime 0) 4294967295;
            Status.r_name := utf8_replace (ztake 255 name) |}.
Proof.
  intros Hs. split_and!; [done|apply status_query_not_discovery|by apply parse_build_status].
Qed.

Lemma status_exchange_witness :
  Status.parse_status_reply (Status.build_status_reply 2 9 3 (-5) (lit "PS2 Servers (nas)")) =
    Some {| Status.r_version := 1; Status.r_state := 2; Status.r_flags := 9; Status.r_sessions := 3;
            Status.r_uptime := 0; Status.r_name := lit "PS2 Servers (nas)" |}.
Proof.
  rewrite (proj2 (proj2 (status_exchange 2 9 3 (-5) (lit "PS2 Servers (nas)") ltac:(lia)))). reflexivity.
Defined.
