(* ===== verification/Compressed.v ===== *)
(** * Transparent access to block-compressed disc images

    Models [udpfs_server/compressed_iso/]: the block cache and the [read]/[seek]
    of [base.py], the headers and block decoders of [cso.py], [zso.py] and
    [chd.py], the inspection limits of [limits.py], and the format dispatch and
    header probe of [udpfs_server.py] ([open_compressed],
    [get_compressed_info]).

    The codecs themselves (zlib, lz4, libchdr) are parameters. *)

From S2P Require Import Prelude PyStr.

(** A file opened for reading: [hf_read off n] is [f.seek(off); f.read(n)]. *)
Record hfile := HFile { hf_size : Z; hf_read : Z -> Z -> result bytes }.

(** [open(path, 'rb')] over fixed contents, with the errors of [BufferedReader]:
    [read(-1)] reads to the end, a smaller count is a [ValueError], an offset
    past [2^63 - 1] an [OverflowError]. *)
Definition mem_file (content : bytes) : hfile :=
  {| hf_size := zlen content;
     hf_read := fun off n =>
       if 2 ^ 63 - 1 <? off then Err OverflowError
       else if n =? -1 then Ok (zdrop off content)
       else if n <? 0 then Err ValueError
       else Ok (slice content off (off + n)) |}.

Module Base.

Definition DEFAULT_BLOCK_SIZE : Z := 2048.
Definition DEFAULT_CACHE_SIZE : Z := 32.

(** The fields of [CompressedFileWrapper] and of its subclasses; [cache] is the
    [OrderedDict], least recently used first; [cancel_set] is
    [_cancel is not None and _cancel.is_set()]. *)
Record wrapper := Wrapper {
  pos : Z;
  uncompressed_size : Z;
  block_size : Z;
  block_offsets : list Z;
  cache : list (Z * bytes);
  cache_size : Z;
  num_blocks : Z;
  strict : bool;
  cancel_set : bool;
  decoded : Z;
  align : Z;
  is_ziso : bool;
  physical_size : Z;
  table_end : Z;
  hunk_size : Z;
  is_cd_format : bool;
  frames_per_hunk : Z
}.

#[export] Instance eta_wrapper : Eta wrapper := fun w =>
  Wrapper (pos w) (uncompressed_size w) (block_size w) (block_offsets w) (cache w)
    (cache_size w) (num_blocks w) (strict w) (cancel_set w) (decoded w) (align w)
    (is_ziso w) (physical_size w) (table_end w) (hunk_size w) (is_cd_format w)
    (frames_per_hunk w).

(** [CompressedFileWrapper.__init__] *)
Definition init (cache_size : option Z) (strict cancel_set : bool) : wrapper :=
  {| pos := 0; uncompressed_size := 0; block_size := DEFAULT_BLOCK_SIZE;
     block_offsets := []; cache := [];
     cache_size := if strict then 2
                   else match cache_size with
                        | None => DEFAULT_CACHE_SIZE
                        | Some n => if n =? 0 then DEFAULT_CACHE_SIZE else n
                        end;
     num_blocks := 0; strict := strict; cancel_set := cancel_set; decoded := 0;
     align := 0; is_ziso := false; physical_size := 0; table_end := 0;
     hunk_size := 0; is_cd_format := false; frames_per_hunk := 0 |}.

(** *** The block cache *)

Fixpoint cache_find (idx : Z) (c : list (Z * bytes)) : option bytes :=
  match c with
  | [] => None
  | (i, d) :: c => if i =? idx then Some d else cache_find idx c
  end.
Definition cache_remove (idx : Z) (c : list (Z * bytes)) : list (Z * bytes) :=
  List.filter (fun '(i, _) => negb (i =? idx)) c.
(** [move_to_end(idx)] of an entry that is there *)
Definition cache_touch (idx : Z) (d : bytes) (c : list (Z * bytes)) : list (Z * bytes) :=
  cache_remove idx c ++ [(idx, d)].

(** [while len(cache) >= cache_size: cache.popitem(last=False)]; popping an empty
    [OrderedDict] is a [KeyError]. *)
Fixpoint evict (cache_size : Z) (c : list (Z * bytes)) : result (list (Z * bytes)) :=
  if zlen c <? cache_size then Ok c
  else match c with
       | [] => Err KeyError
       | _ :: c => evict cache_size c
       end.

Definition MAX_DECODE : Z := 64 * 1024 ^ 2.

Section with_decoder.
(** the subclass's [_decompress_block] *)
Context (decompress_block : wrapper -> Z -> result bytes).

(** [_get_block] *)
Definition get_block (block_idx : Z) : M wrapper bytes :=
  w ← mget id;
  if strict w && cancel_set w then raise InterruptedError
  else match cache_find block_idx (cache w) with
  | Some data => _ ← mmod (fun w => w <| cache ::= cache_touch block_idx data |>); mret data
  | None =>
      _ ← mwhen (strict w) (mmod (fun w => w <| decoded ::= Z.add (block_size w) |>));
      w ← mget id;
      if strict w && (MAX_DECODE <? decoded w) then raise ValueError
      else
        data ← lift (decompress_block w block_idx);
        let expected := Z.min (block_size w) (uncompressed_size w - block_idx * block_size w) in
        if strict w && negb ((expected <=? zlen data) && (zlen data <=? block_size w))
        then raise ValueError
        else
          c ← lift (evict (cache_size w) (cache w));
          _ ← mmod (fun w => w <| cache := c ++ [(block_idx, data)] |>);
          mret data
  end.

(** the [while len(result) < size] loop of [read] *)
Fixpoint read_loop (fuel : nat) (size : Z) (acc : bytes) : M wrapper bytes :=
  if size <=? zlen acc then mret acc
  else match fuel with
  | O => raise Hang
  | S fuel =>
      w ← mget id;
      let block_idx := pos w / block_size w in
      let block_offset := pos w mod block_size w in
      let remaining_to_read := size - zlen acc in
      let last_block_size :=
        let m := uncompressed_size w mod block_size w in
        if m =? 0 then block_size w else m in
      let available_in_block :=
        if block_idx =? num_blocks w - 1 then last_block_size - block_offset
        else block_size w - block_offset in
      let read_size := Z.min remaining_to_read available_in_block in
      block_data ← get_block block_idx;
      _ ← mmod (fun w => w <| pos ::= Z.add read_size |>);
      read_loop fuel size (acc ++ slice block_data block_offset (block_offset + read_size))
  end.

(** [read]; [fuel] bounds the loop's iterations. *)
Definition read_fuel (fuel : nat) (size : Z) : M wrapper bytes :=
  if size <=? 0 then mret []
  else
    w ← mget id;
    let remaining := uncompressed_size w - pos w in
    if remaining <=? 0 then mret []
    else read_loop fuel (Z.min size remaining) [].

(** Every iteration either advances [pos] by at least one byte or repeats the
    state exactly, so one more iteration than there are bytes left decides
    whether the loop ends ([read_spec], [Zso.read_short_block_hangs]). *)
Definition read (size : Z) : M wrapper bytes := fun w =>
  read_fuel (S (Z.to_nat (uncompressed_size w - pos w))) size w.
End with_decoder.

(** [seek]; an unknown [whence] only clamps. *)
Definition seek (offset whence : Z) : M wrapper Z := fun w =>
  let p := if whence =? 0 then offset
           else if whence =? 1 then pos w + offset
           else if whence =? 2 then uncompressed_size w + offset
           else pos w in
  let p := Z.max 0 (Z.min p (uncompressed_size w)) in
  (Ok p, w <| pos := p |>).

Definition tell : M wrapper Z := mget pos.

End Base.

Import Base.

(** [struct.unpack('<nI', data)] for [data] of exactly [4 n] bytes *)
Fixpoint u32s (n : nat) (bs : bytes) : list Z :=
  match n with
  | O => []
  | S n => le_int (take 4 bs) :: u32s n (drop 4 bs)
  end.

(** The flag and the offset of a block table entry *)
Definition RAW_FLAG : Z := 0x80000000.
Definition OFFSET_MASK : Z := 0x7FFFFFFF.
Definition is_raw_entry (raw : Z) : bool := negb (Z.land raw RAW_FLAG =? 0).
Definition entry_offset (raw align : Z) : Z := Z.shiftl (Z.land raw OFFSET_MASK) align.

(** *** limits.py *)
Module Limits.

Definition MAX_DISC : Z := 16 * 1024 ^ 3.
Definition MAX_BLOCK : Z := 16 * 1024 ^ 2.
Definition MAX_TABLE : Z := 32 * 1024 ^ 2.

(** [indexed_header]: [header] has 24 bytes, read by the caller. *)
Definition indexed_header (zso : bool) (f : hfile) (header : bytes) (w : wrapper) : result wrapper :=
  let magic := slice header 0 4 in
  let header_size := le_int (slice header 4 8) in
  let size := le_int (slice header 8 16) in
  let block := le_int (slice header 16 20) in
  let version := znth header 20 in
  let align_byte := znth header 21 in
  if negb ((17 * 2048 <=? size) && (size <=? MAX_DISC))
     || negb ((2048 <=? block) && (block <=? MAX_BLOCK)) then Err ValueError
  else if negb (block mod 2048 =? 0) || negb (version =? 1) then Err ValueError
  else if 6 <? align_byte then Err ValueError
  else
    let original := str_eqb magic (lit "ZSO" ++ [0]) in
    if negb zso && negb ((header_size =? 0) || (header_size =? 24)) then Err ValueError
    else
      let header_size := if negb zso then 24 else header_size in
      if negb ((24 <=? header_size) && (header_size <=? 1024 ^ 2)) then Err ValueError
      else
        let w := w <| physical_size := hf_size f |> <| uncompressed_size := size |>
                   <| block_size := block |> <| align := if original then 0 else align_byte |>
                   <| num_blocks := (size + block - 1) / block |> in
        let count := num_blocks w + (if original then 0 else 1) in
        if MAX_TABLE <? count * 4 then Err ValueError
        else
          let w := w <| table_end := header_size + count * 4 |> in
          if physical_size w <? table_end w then Err ValueError
          else
            data ← hf_read f header_size (count * 4);
            if negb (zlen data =? count * 4) then Err ValueError
            else Ok (w <| block_offsets := u32s (Z.to_nat count) data |>).

Section codecs.
(** [lz4.block.decompress(data, uncompressed_size=n)]; [None] is [LZ4BlockError]. *)
Context (lz4_decompress : bytes -> Z -> option bytes).
(** [d = zlib.decompressobj(-15 or 15); d.decompress(data, n), d.eof]; [None] is
    [zlib.error]. *)
Context (inflate_max : bool -> bytes -> Z -> option (bytes * bool)).

(** the padding loop of [indexed_block] *)
Fixpoint lz4_unpad (tries : nat) (padding : Z) (expected block : Z) (data : bytes) : option bytes :=
  match tries with
  | O => None
  | S tries =>
      match lz4_decompress (ztake (zlen data - padding) data) block with
      | Some r => if (expected <=? zlen r) && (zlen r <=? block) then Some r
                  else lz4_unpad tries (padding + 1) expected block data
      | None => lz4_unpad tries (padding + 1) expected block data
      end
  end.

Fixpoint inflate_windows (ws : list bool) (expected block : Z) (data : bytes) : option bytes :=
  match ws with
  | [] => None
  | raw :: ws =>
      match inflate_max raw data (block + 1) with
      | Some (r, eof) => if eof && (expected <=? zlen r) && (zlen r <=? block) then Some r
                         else inflate_windows ws expected block data
      | None => inflate_windows ws expected block data
      end
  end.

(** [indexed_block]; [lz4] says whether an [lz4_block] module was passed. *)
Definition indexed_block (lz4 : bool) (f : hfile) (w : wrapper) (index : Z) : result bytes :=
  if negb ((0 <=? index) && (index <? num_blocks w)) then Err ValueError
  else
    raw ← index_result (block_offsets w) index;
    let start := entry_offset raw (align w) in
    stop ← (if index + 1 <? zlen (block_offsets w)
            then nxt ← index_result (block_offsets w) (index + 1); Ok (entry_offset nxt (align w))
            else Ok (physical_size w));
    if negb ((table_end w <=? start) && (start <? stop) && (stop <=? physical_size w))
    then Err ValueError
    else
      let expected := Z.min (block_size w) (uncompressed_size w - index * block_size w) in
      if block_size w + 65536 <? stop - start then Err ValueError
      else
        let length := if is_raw_entry raw then expected else stop - start in
        if stop - start <? length then Err ValueError
        else
          data ← hf_read f start length;
          if negb (zlen data =? length) then Err ValueError
          else if is_raw_entry raw then Ok data
          else
            let r := if lz4
                     then lz4_unpad (Z.to_nat (Z.min (Z.shiftl 1 (align w) - 1) (zlen data - 1) + 1))
                            0 expected (block_size w) data
                     else inflate_windows [true; false] expected (block_size w) data in
            match r with Some d => Ok d | None => Err ValueError end.
End codecs.

(** [chd_header] *)
Definition chd_header (header : bytes) : result unit :=
  if (zlen header <? 124) || negb (str_eqb (slice header 0 8) (lit "MComprHD")) then Err ValueError
  else
    let length := be_int (slice header 8 12) in
    let version := be_int (slice header 12 16) in
    let logical := be_int (slice header 32 40) in
    let hunk := be_int (slice header 56 60) in
    let unit_ := be_int (slice header 60 64) in
    if negb (length =? 124) || negb (version =? 5) then Err ValueError
    else if negb ((17 * 2048 <=? logical) && (logical <=? MAX_DISC))
            || negb ((2048 <=? hunk) && (hunk <=? MAX_BLOCK))
            || negb ((unit_ =? 2048) || (unit_ =? 2448)) || negb (hunk mod unit_ =? 0)
    then Err ValueError
    else if 1024 ^ 2 <? (logical + hunk - 1) / hunk then Err ValueError
    else Ok tt.

End Limits.

(** *** cso.py *)
Module Cso.

Definition CSO_MAGIC : Z := 0x4F534943.

(** [_parse_header] *)
Definition parse_header (f : hfile) (w : wrapper) : result wrapper :=
  header ← hf_read f 0 24;
  if zlen header <? 24 then Err ValueError
  else if negb (le_int (slice header 0 4) =? CSO_MAGIC) then Err ValueError
  else if strict w then Limits.indexed_header false f header w
  else
    let w := w <| uncompressed_size := le_int (slice header 8 16) |>
               <| block_size := le_int (slice header 16 20) |>
               <| align := znth header 21 |> in
    if block_size w =? 0 then Err ValueError
    else
      let w := w <| num_blocks := (uncompressed_size w + block_size w - 1) / block_size w |> in
      offset_data ← hf_read f 24 ((num_blocks w + 1) * 4);
      if zlen offset_data <? (num_blocks w + 1) * 4 then Err ValueError
      else Ok (w <| block_offsets := u32s (Z.to_nat (num_blocks w + 1)) offset_data |>).

Section codecs.
(** [zlib.decompressobj(-zlib.MAX_WBITS).decompress] and [zlib.decompress];
    [None] is [zlib.error]. *)
Context (inflate_raw inflate_zlib : bytes -> option bytes).
Context (inflate_max : bool -> bytes -> Z -> option (bytes * bool)).

(** [_decompress_block] *)
Definition decompress_block (f : hfile) (w : wrapper) (block_idx : Z) : result bytes :=
  if strict w then Limits.indexed_block (fun _ _ => None) inflate_max false f w block_idx
  else if num_blocks w <=? block_idx then Err ValueError
  else
    raw_offset ← index_result (block_offsets w) block_idx;
    next_raw_offset ← index_result (block_offsets w) (block_idx + 1);
    let is_uncompressed := is_raw_entry raw_offset in
    let offset := entry_offset raw_offset (align w) in
    let read_size := if is_uncompressed then block_size w
                     else entry_offset next_raw_offset (align w) - offset in
    compressed_data ← hf_read f offset read_size;
    decompressed ← (if is_uncompressed then Ok compressed_data
                    else match inflate_raw compressed_data with
                         | Some d => Ok d
                         | None => match inflate_zlib compressed_data with
                                   | Some d => Ok d
                                   | None => Err ValueError
                                   end
                         end);
    Ok (if zlen decompressed <? block_size w
        then decompressed ++ zeros (block_size w - zlen decompressed) else decompressed).
End codecs.

(** [CsoFileWrapper.__init__] on an opened file *)
Definition open (f : hfile) (cache_size : option Z) (strict cancel_set : bool) : result wrapper :=
  parse_header f (init cache_size strict cancel_set).

End Cso.

(** *** zso.py *)
Module Zso.

Definition ZSO_MAGIC : bytes := lit "ZSO" ++ [0].
Definition ZISO_MAGIC : bytes := lit "ZISO".

(** [_parse_header] *)
Definition parse_header (f : hfile) (w : wrapper) : result wrapper :=
  header ← hf_read f 0 24;
  if zlen header <? 24 then Err ValueError
  else
    let magic := slice header 0 4 in
    let ziso := str_eqb magic ZISO_MAGIC in
    if negb ziso && negb (str_eqb magic ZSO_MAGIC) then Err ValueError
    else
      let w := w <| is_ziso := ziso |> in
      if strict w then Limits.indexed_header true f header w
      else
        let header_size := le_int (slice header 4 8) in
        let w := w <| uncompressed_size := le_int (slice header 8 16) |>
                   <| block_size := le_int (slice header 16 20) |> in
        if block_size w =? 0 then Err ValueError
        else
          let w := if is_ziso w then w <| align := znth header 21 |> else w in
          let w := w <| num_blocks := (uncompressed_size w + block_size w - 1) / block_size w |> in
          let num_offset_entries := if is_ziso w then num_blocks w + 1 else num_blocks w in
          offset_data ← hf_read f header_size (num_offset_entries * 4);
          if zlen offset_data <? num_offset_entries * 4 then Err ValueError
          else Ok (w <| block_offsets := u32s (Z.to_nat num_offset_entries) offset_data |>).

Section codecs.
Context (lz4_decompress : bytes -> Z -> option bytes).

(** the [while compressed_data] retry loop *)
Fixpoint retry (n : nat) (block_size : Z) (data : bytes) : result bytes :=
  match n with
  | O => Err ValueError
  | S n =>
      match lz4_decompress data block_size with
      | Some d => Ok d
      | None => retry n block_size (ztake (zlen data - 1) data)
      end
  end.

(** [_decompress_block] *)
Definition decompress_block (f : hfile) (w : wrapper) (block_idx : Z) : result bytes :=
  if strict w then Limits.indexed_block lz4_decompress (fun _ _ _ => None) true f w block_idx
  else if num_blocks w <=? block_idx then Err ValueError
  else
    raw_offset ← index_result (block_offsets w) block_idx;
    '(offset, compressed_size) ←
      (if is_ziso w then
         next_raw_offset ← index_result (block_offsets w) (block_idx + 1);
         let offset := entry_offset raw_offset (align w) in
         Ok (offset, entry_offset next_raw_offset (align w) - offset)
       else
         let offset := Z.land raw_offset OFFSET_MASK in
         if block_idx + 1 <? num_blocks w then
           next ← index_result (block_offsets w) (block_idx + 1);
           Ok (offset, Z.land next OFFSET_MASK - offset)
         else Ok (offset, hf_size f - offset));
    compressed_data ← hf_read f offset compressed_size;
    if is_raw_entry raw_offset then Ok compressed_data
    else retry (length compressed_data) (block_size w) compressed_data.
End codecs.

(** [ZsoFileWrapper.__init__] on an opened file, with lz4 available *)
Definition open (f : hfile) (cache_size : option Z) (strict cancel_set : bool) : result wrapper :=
  parse_header f (init cache_size strict cancel_set).

End Zso.

(** *** chd.py *)
Module Chd.

Definition CD_CODECS : list Z := [0x63646c7a; 0x63647a6c; 0x6364666c].
Definition CD_FRAME_SIZE : Z := 2448.
Definition USER_DATA : Z := 2048.
Definition CD_SYNC : bytes := [0; 255; 255; 255; 255; 255; 255; 255; 255; 255; 255; 0].
Definition CHD_MAGIC : bytes := lit "MComprHD".

(** [_extract_user_data] *)
Definition extract_user_data (sector : bytes) : bytes :=
  if zlen sector <? USER_DATA then ljust sector USER_DATA
  else
    let offset :=
      if (16 <=? zlen sector) && str_eqb (slice sector 0 12) CD_SYNC
      then if znth sector 15 =? 2 then 24 else 16
      else 0 in
    let stop := offset + USER_DATA in
    if zlen sector <? stop then ljust (zdrop offset sector) USER_DATA
    else slice sector offset stop.

(** The CD predicate shared with [get_compressed_info]: a CD unit size or any CD
    codec, and hunks of whole 2448-byte frames. *)
Definition any_cd_codec (compressors : list Z) : bool :=
  existsb (fun c => negb (c =? 0) && existsb (Z.eqb c) CD_CODECS) compressors.

Definition compressors_of (header : bytes) : list Z :=
  map (fun i => be_int (slice header (16 + 4 * i) (20 + 4 * i))) [0; 1; 2; 3].

Section libchdr.
(** [chd_open]: 0 on success *)
Context (chd_open : Z).
(** [chd_read(handle, idx, buf)]: the hunk left in [buf], or [None] when the
    error code is not 0 *)
Context (chd_read : Z -> option bytes).

(** [_parse_header]; a failing [chd_open] raises [IOError] from a message. *)
Definition parse_header (f : hfile) (w : wrapper) : result wrapper :=
  header ← hf_read f 0 124;
  _ ← (if strict w then Limits.chd_header header else Ok tt);
  if (zlen header <? 64) || negb (str_eqb (slice header 0 8) CHD_MAGIC) then Err ValueError
  else if negb (be_int (slice header 12 16) =? 5) then Err ValueError
  else
    let logical_bytes := be_int (slice header 32 40) in
    let hunk := be_int (slice header 56 60) in
    let unit_size := be_int (slice header 60 64) in
    if hunk =? 0 then Err ValueError
    else
      let w := w <| hunk_size := hunk |> <| block_size := hunk |>
                 <| num_blocks := (logical_bytes + hunk - 1) / hunk |>
                 <| is_cd_format := ((unit_size =? CD_FRAME_SIZE)
                                      || any_cd_codec (compressors_of header))
                                     && (hunk mod CD_FRAME_SIZE =? 0) |> in
      let w := if is_cd_format w then
                 let w := w <| frames_per_hunk := hunk / CD_FRAME_SIZE |> in
                 w <| uncompressed_size := num_blocks w * frames_per_hunk w * USER_DATA |>
                   <| block_size := frames_per_hunk w * USER_DATA |>
               else w <| uncompressed_size := logical_bytes |> in
      if chd_open =? 0 then Ok w else Err (OSError None).

(** the frame loop of [_decompress_block] *)
Definition cd_user_data (frames : Z) (raw : bytes) : bytes :=
  concat (map (fun i => extract_user_data
                          (slice raw (i * CD_FRAME_SIZE) (i * CD_FRAME_SIZE + 2352)))
            (seqZ 0 frames)).

(** [_decompress_block] *)
Definition decompress_block (w : wrapper) (block_idx : Z) : result bytes :=
  match chd_read block_idx with
  | None => Err (OSError None)
  | Some raw =>
      if negb (is_cd_format w) then Ok raw
      else Ok (cd_user_data (frames_per_hunk w) raw)
  end.
End libchdr.

End Chd.

(** *** Format dispatch (udpfs_server.py) *)
Module Formats.

Inductive codec := ZSO | CSO | CHD.

#[export] Instance codec_eq_dec : EqDecision codec.
Proof. solve_decision. Defined.

(** [_EXTENSION_FORMATS], in insertion order *)
Definition EXTENSION_FORMATS : list (str * codec) :=
  [(lit ".zso", ZSO); (lit ".ziso", ZSO); (lit ".cso", CSO); (lit ".ciso", CSO);
   (lit ".chd", CHD)].

Fixpoint assoc {A} (k : str) (l : list (str * A)) : option A :=
  match l with
  | [] => None
  | (k', a) :: l => if str_eqb k' k then Some a else assoc k l
  end.

(** [_format_for_extension] *)
Definition format_for_extension (file_path : str) : option codec :=
  assoc (lower (snd (splitext file_path))) EXTENSION_FORMATS.

Section availability.
(** [LZ4_AVAILABLE], [LIBCHDR_AVAILABLE] *)
Context (lz4_available libchdr_available : bool).

Definition available (c : codec) : bool :=
  match c with ZSO => lz4_available | CSO => true | CHD => libchdr_available end.

(** [_supported_compressed_extensions], [COMPRESSED_EXTENSIONS] *)
Definition supported_compressed_extensions : list str :=
  map fst (List.filter (fun ef => available (snd ef)) EXTENSION_FORMATS).

Section libchdr.
Context (chd_open : Z).

(** [open_compressed]: [Ok None] for an unsupported format; the file is opened
  by the wrapper, [opened] being the outcome. *)
Definition open_compressed (file_path : str) (opened : result hfile) (cache_size : option Z)
  : result (option (codec * wrapper)) :=
match format_for_extension file_path with
| Some ZSO =>
    if negb lz4_available then Ok None
    else f ← opened; w ← Zso.open f cache_size false false; Ok (Some (ZSO, w))
| Some CSO => f ← opened; w ← Cso.open f cache_size false false; Ok (Some (CSO, w))
| Some CHD =>
    if negb libchdr_available then Ok None
    else
      f ← opened;
      w ← Chd.parse_header chd_open f (init cache_size false false);
      Ok (Some (CHD, w))
| None => Ok None
end.
End libchdr.
End availability.

Inductive info_name := I_CHD | I_ZSO | I_ZISO | I_CSO.

(** [get_compressed_info]; a read error answers [None] like a bad header. *)
Definition get_compressed_info (file_path : str) (opened : result hfile)
    : result (option (Z * info_name)) :=
  let fmt := format_for_extension file_path in
  let body : result (option (Z * info_name)) :=
    f ← opened;
    if bool_decide (fmt = Some CHD) then
      header ← hf_read f 0 64;
      if zlen header <? 64 then Ok None
      else if negb (str_eqb (slice header 0 8) Chd.CHD_MAGIC) then Ok None
      else if negb (be_int (slice header 12 16) =? 5) then Ok None
      else
        let uncompressed_size := be_int (slice header 32 40) in
        let compressors := Chd.compressors_of header in
        let hunk_size := be_int (slice header 56 60) in
        let unit_size := be_int (slice header 60 64) in
        if ((unit_size =? Chd.CD_FRAME_SIZE) || Chd.any_cd_codec compressors)
           && (0 <? hunk_size) && (hunk_size mod Chd.CD_FRAME_SIZE =? 0)
        then
          let frames_per_hunk := hunk_size / Chd.CD_FRAME_SIZE in
          let total_hunks := (uncompressed_size + hunk_size - 1) / hunk_size in
          Ok (Some (total_hunks * frames_per_hunk * 2048, I_CHD))
        else Ok (Some (uncompressed_size, I_CHD))
    else
      header ← hf_read f 0 24;
      if zlen header <? 24 then Ok None
      else
        let magic := slice header 0 4 in
        let magic_int := le_int magic in
        if bool_decide (fmt = Some ZSO) then
          if str_eqb magic Zso.ZSO_MAGIC then Ok (Some (le_int (slice header 8 16), I_ZSO))
          else if str_eqb magic Zso.ZISO_MAGIC then Ok (Some (le_int (slice header 8 16), I_ZISO))
          else Ok None
        else if bool_decide (fmt = Some CSO) then
          if magic_int =? Cso.CSO_MAGIC then Ok (Some (le_int (slice header 8 16), I_CSO))
          else Ok None
        else Ok None in
  match body with
  | Err (OSError _) | Err StructError => Ok None
  | r => r
  end.

End Formats.
