(* ===== verification/CompressedFacts.v ===== *)
(** * What the compressed-image readers guarantee

    Theorems about [Compressed]: a read through the block cache is a slice of the
    decompressed stream, whatever the cache holds ([read_spec]); the CSO decoder
    meets the length contract that makes this hold; a short ZSO block makes the
    read loop run for ever; the size probed for a listing is the size the reader
    serves. *)

From S2P Require Import Prelude PyStr Compressed.
Import Base.

(** ** The cache as a partial view of the decoded image *)

Lemma cache_find_In idx c d : cache_find idx c = Some d -> (idx, d) ∈ c.
Proof.
  induction c as [|[i e] c IH]; cbn; [done|].
  destruct (Z.eqb_spec i idx) as [->|]; [intros [= ->]; by left|]. intros; right; auto.
Qed.

Lemma cache_remove_sub idx c x : x ∈ cache_remove idx c -> x ∈ c.
Proof. unfold cache_remove. rewrite !list_elem_of_In. by intros []%filter_In. Qed.

Lemma cache_remove_key idx c d : (idx, d) ∉ cache_remove idx c.
Proof.
  unfold cache_remove. rewrite list_elem_of_In. intros [_ H]%filter_In.
  by rewrite Z.eqb_refl in H.
Qed.

Lemma NoDup_cache_remove idx c : NoDup c.*1 -> NoDup (cache_remove idx c).*1.
Proof.
  induction c as [|[i d] c IH]; cbn; [done|]. intros [Hi Hc]%NoDup_cons.
  destruct (Z.eqb_spec i idx); cbn; [by apply IH|]. apply NoDup_cons; split; [|by apply IH].
  intros ([j e] & -> & Hin%cache_remove_sub)%list_elem_of_fmap. apply Hi.
  apply list_elem_of_fmap. by exists (j, e).
Qed.

Lemma zlen_cache_remove idx c d :
  (idx, d) ∈ c -> zlen (cache_remove idx c) < zlen c.
Proof.
  assert (Hle : forall c, zlen (cache_remove idx c) <= zlen c).
  { unfold cache_remove. intros k; induction k as [|[i e] k IH]; cbn; [done|].
    destruct (i =? idx); cbn; rewrite ?zlen_cons; lia. }
  unfold cache_remove in *. induction c as [|[i e] c IH]; cbn; [by intros ?%elem_of_nil|].
  rewrite elem_of_cons. destruct (Z.eqb_spec i idx) as [->|Hne]; cbn; rewrite !zlen_cons.
  - intros _. specialize (Hle c). lia.
  - intros [[= ->]|Hin]; [done|]. specialize (IH Hin). lia.
Qed.

Lemma evict_spec n c :
  1 <= n -> exists c', evict n c = Ok c' /\ zlen c' < n /\ c' `suffix_of` c.
Proof.
  intros Hn. induction c as [|x c IH]; cbn [evict].
  - rewrite (proj2 (Z.ltb_lt _ _)) by (rewrite zlen_nil; lia).
    exists []. rewrite zlen_nil. split_and!; [done|lia|done].
  - destruct (Z.ltb_spec (zlen (x :: c)) n) as [Hl|]; [by exists (x :: c)|].
    destruct IH as (c' & ? & ? & ?). exists c'; split_and!; [done..|by apply suffix_cons_r].
Qed.

(** The entries the decoder wrote, each under one key, never more than the
    configured number. *)
Record cache_wf (blk : Z -> bytes) (w : wrapper) : Prop := {
  cw_blk : forall i d, (i, d) ∈ cache w -> d = blk i;
  cw_nodup : NoDup (cache w).*1;
  cw_size : zlen (cache w) <= cache_size w
}.

(** Two wrappers over the same image: only the position, the cache and the decode
    budget may differ. *)
Definition same_image (w w' : wrapper) : Prop :=
  exists p c k d, w' = w <| pos := p |> <| cache := c |> <| cancel_set := k |> <| decoded := d |>.

#[export] Instance same_image_refl : Reflexive same_image.
Proof. intros w. exists (pos w), (cache w), (cancel_set w), (decoded w). by destruct w. Qed.
#[export] Instance same_image_trans : Transitive same_image.
Proof. intros w w' w'' (?&?&?&?&->) (p&c&k&d&->). exists p, c, k, d. by destruct w. Qed.

Lemma same_image_cache f w : same_image w w <| cache ::= f |>.
Proof. exists (pos w), (f (cache w)), (cancel_set w), (decoded w). by destruct w. Qed.
Lemma same_image_pos f w : same_image w w <| pos ::= f |>.
Proof. exists (f (pos w)), (cache w), (cancel_set w), (decoded w). by destruct w. Qed.
Lemma same_image_decoded f w : same_image w w <| decoded ::= f |>.
Proof. exists (pos w), (cache w), (cancel_set w), (f (decoded w)). by destruct w. Qed.

Lemma same_image_geometry w w' :
  same_image w w' ->
  uncompressed_size w' = uncompressed_size w /\ block_size w' = block_size w /\
  num_blocks w' = num_blocks w /\ cache_size w' = cache_size w /\ strict w' = strict w.
Proof. intros (p & c & k & d & ->). done. Qed.

(** The bytes of block [idx] that belong to the image. *)
Definition expected (w : wrapper) (idx : Z) : Z :=
  Z.min (block_size w) (uncompressed_size w - idx * block_size w).

(** The decompressed image: byte [i] is byte [i mod block_size] of block
    [i / block_size]. *)
Definition image_byte (w : wrapper) (blk : Z -> bytes) (i : Z) : Z :=
  znth (blk (i / block_size w)) (i mod block_size w).

Section reader.
Context (decompress : wrapper -> Z -> result bytes) (blk : Z -> bytes) (w0 : wrapper).

(** What a decoder owes the reader: a block it decodes is the image's block,
    holds every byte of the image in that block, and an error it raises is an
    exception. *)
Class Decoder : Prop := {
  dec_blk : forall w idx d, same_image w0 w -> 0 <= idx < num_blocks w0 ->
    decompress w idx = Ok d -> d = blk idx /\ expected w0 idx <= zlen d;
  dec_exn : forall w idx e, decompress w idx = Err e -> e <> Hang
}.

Record geometry : Prop := {
  geo_bs : 0 < block_size w0;
  geo_size : 0 <= uncompressed_size w0;
  geo_blocks : num_blocks w0 = (uncompressed_size w0 + block_size w0 - 1) / block_size w0;
  geo_cache : 1 <= cache_size w0
}.

Definition failure (w : wrapper) (e : exn) : Prop :=
  e <> Hang /\ (strict w = true \/
    exists w' idx, same_image w0 w' /\ 0 <= idx < num_blocks w0 /\ decompress w' idx = Err e).

Lemma get_block_spec `{!Decoder} w idx :
  geometry -> same_image w0 w -> cache_wf blk w -> 0 <= idx < num_blocks w0 ->
  (forall i d, (i, d) ∈ cache w -> expected w0 i <= zlen d) ->
  match get_block decompress idx w with
  | (Ok d, w') => d = blk idx /\ expected w0 idx <= zlen d /\ same_image w0 w' /\
      cache_wf blk w' /\ (forall i d, (i, d) ∈ cache w' -> expected w0 i <= zlen d) /\
      pos w' = pos w
  | (Err e, w') => failure w e
  end.
Proof.
  intros G Hs Hc Hi Hx. unfold get_block, mbind, M_bind, mget; cbn [id].
  destruct (strict w && cancel_set w) eqn:Hsc; cbn.
  { split; [done|]. apply andb_true_iff in Hsc as []. by left. }
  destruct (cache_find idx (cache w)) as [data|] eqn:Hf; cbn.
  { apply cache_find_In in Hf. destruct Hc as [Hb Hn Hz].
    split_and!; [by apply Hb|by apply Hx|..].
    - etrans; [exact Hs|]. apply same_image_cache.
    - split; cbn.
      + intros i d [Hin%cache_remove_sub|[= -> ->]%list_elem_of_singleton]%elem_of_app; by apply Hb.
      + unfold cache_touch. rewrite fmap_app. apply NoDup_app; split_and!; [by apply NoDup_cache_remove| |apply NoDup_singleton].
        intros i ([j e] & -> & Hin)%list_elem_of_fmap Heq%list_elem_of_singleton; cbn in Heq; subst j.
        by apply cache_remove_key in Hin.
      + unfold cache_touch. rewrite zlen_app, zlen_cons, zlen_nil.
        pose proof (zlen_cache_remove _ _ _ Hf). lia.
    - cbn. intros i d [Hin%cache_remove_sub|[= -> ->]%list_elem_of_singleton]%elem_of_app; by apply Hx.
    - done. }
  set (w1 := if strict w then w <| decoded ::= Z.add (block_size w) |> else w).
  assert (Hs1 : same_image w0 w1).
  { etrans; [exact Hs|]. unfold w1. destruct (strict w); [|done].
    apply same_image_decoded. }
  assert (cache w1 = cache w /\ pos w1 = pos w /\ strict w1 = strict w) as (Ec & Ep & Est)
    by (unfold w1; destruct (strict w) eqn:Hst; by split_and!).
  assert (mwhen (strict w) (mmod (fun w => w <| decoded ::= Z.add (block_size w) |>)) w = (Ok tt, w1)) as ->
    by (unfold mwhen, w1; by destruct (strict w)).
  clearbody w1. rewrite Est.
  destruct (strict w && (MAX_DECODE <? decoded w1)) eqn:Hb; cbn.
  { split; [done|]. apply andb_true_iff in Hb as []. by left. }
  unfold lift. destruct (decompress w1 idx) as [d|e] eqn:Hd; cbn.
  2:{ split; [by eapply dec_exn|]. right; eauto. }
  match goal with |- context [if ?b then raise _ else _] => destruct b eqn:Hb2 end; cbn.
  { split; [done|]. apply andb_true_iff in Hb2 as []. by left. }
  destruct (dec_blk w1 idx d Hs1 Hi Hd) as [-> He].
  destruct (same_image_geometry _ _ Hs1) as (_ & _ & _ & Ecs & _).
  destruct (evict_spec (cache_size w1) (cache w1)) as (c' & Hev & Hlt & Hsuf);
    [rewrite Ecs; apply G|].
  rewrite Hev; cbn. rewrite Ec in Hsuf.
  destruct Hc as [Hcb Hcn Hcz]. destruct Hsuf as [k Hk].
  assert (Hin : forall x, x ∈ c' -> x ∈ cache w) by (intros; rewrite Hk; apply elem_of_app; by right).
  split_and!; [done|done|..].
  - etrans; [exact Hs1|]. apply same_image_cache.
  - split; cbn.
    + intros i d [?%Hin|[= -> ->]%list_elem_of_singleton]%elem_of_app; [by apply Hcb|done].
    + rewrite fmap_app. rewrite Hk, fmap_app in Hcn.
      apply NoDup_app in Hcn as (_ & _ & Hcn).
      apply NoDup_app; split_and!; [done| |apply NoDup_singleton].
      intros i ([j e] & -> & Hj)%list_elem_of_fmap Heq%list_elem_of_singleton; cbn in Heq; subst j.
      assert (Hnone : forall c, cache_find idx c = None -> (idx, e) ∉ c).
      { induction c as [|[a b] c IH]; cbn; [by intros _ ?%elem_of_nil|].
        destruct (Z.eqb_spec a idx); [done|]. intros Hc [[= -> ->]|]%elem_of_cons; [done|]. by apply IH. }
      by eapply Hnone, Hin.
    + rewrite zlen_app, zlen_cons, zlen_nil. lia.
  - cbn. intros i d [?%Hin|[= -> ->]%list_elem_of_singleton]%elem_of_app; [by apply Hx|done].
  - done.
Qed.

Lemma expected_pos idx :
  geometry -> 0 <= idx -> idx * block_size w0 < uncompressed_size w0 ->
  0 < expected w0 idx /\ idx < num_blocks w0.
Proof. intros [Hb Hu Hn Hc] Hi Hlt. unfold expected. rewrite Hn. split; [lia|divlia]. Qed.

(** The amount one iteration takes never leaves the block and, in the last
    block, never leaves the image. *)
Definition avail (p : Z) : Z :=
  if p / block_size w0 =? num_blocks w0 - 1
  then (let m := uncompressed_size w0 mod block_size w0 in
        if m =? 0 then block_size w0 else m) - p mod block_size w0
  else block_size w0 - p mod block_size w0.

Lemma avail_spec p :
  geometry -> 0 <= p < uncompressed_size w0 ->
  0 < avail p /\ p mod block_size w0 + avail p = expected w0 (p / block_size w0).
Proof.
  intros [Hb Hu Hn Hc] Hp. unfold avail, expected. rewrite Hn.
  set (b := block_size w0) in *. set (u := uncompressed_size w0) in *.
  pose proof (Z.div_mod p b ltac:(lia)) as E. pose proof (Z.mod_pos_bound p b Hb).
  pose proof (Z.div_mod u b ltac:(lia)) as F. pose proof (Z.mod_pos_bound u b Hb).
  pose proof (Z.div_mod (u + b - 1) b ltac:(lia)) as K. pose proof (Z.mod_pos_bound (u + b - 1) b Hb).
  clearbody b u. clear Hn Hc.
  set (q := p / b) in *. set (v := u / b) in *. set (k := (u + b - 1) / b) in *.
  set (pm := p mod b) in *. set (vm := u mod b) in *. set (km := (u + b - 1) mod b) in *.
  clearbody q v k pm vm km.
  assert (Hk : k = if vm =? 0 then v else v + 1).
  { destruct (Z.eqb_spec vm 0).
    - assert (k - v < 1) by nia. assert (-1 < k - v) by nia. lia.
    - assert (k - v < 2) by nia. assert (0 < k - v) by nia. lia. }
  assert (Hq : q <= k - 1) by (destruct (Z.eqb_spec vm 0); nia).
  destruct (Z.eqb_spec q (k - 1)) as [He|He].
  - destruct (Z.eqb_spec vm 0); subst q k.
    + replace (u - (v - 1) * b) with b by lia. lia.
    + replace (v + 1 - 1) with v in * by lia. replace (u - v * b) with vm by lia. nia.
  - assert (b <= u - q * b) by (destruct (Z.eqb_spec vm 0); nia). lia.
Qed.

Definition reader_inv (w : wrapper) : Prop :=
  same_image w0 w /\ cache_wf blk w /\
  (forall i d, (i, d) ∈ cache w -> expected w0 i <= zlen d).

Lemma read_loop_spec `{!Decoder} fuel size acc p0 w :
  geometry -> reader_inv w -> 0 <= p0 -> p0 + size <= uncompressed_size w0 ->
  zlen acc <= size -> pos w = p0 + zlen acc -> size - zlen acc <= Z.of_nat fuel ->
  acc = stream (image_byte w0 blk) p0 (zlen acc) ->
  match read_loop decompress fuel size acc w with
  | (Ok data, w') => data = stream (image_byte w0 blk) p0 size /\ pos w' = p0 + size /\ reader_inv w'
  | (Err e, w') => failure w e
  end.
Proof.
  intros G. revert acc w. induction fuel as [|fuel IH]; intros acc w Hinv H0 Hsz Hacc Hpos Hf Hd;
    cbn [read_loop]; destruct (Z.leb_spec size (zlen acc)) as [Hle|Hgt]; cbn; try lia;
    try (assert (zlen acc = size) as <- by lia; done).
  unfold mbind, M_bind, mget; cbn [id].
  destruct Hinv as (Hs & Hc & Hx).
  destruct (same_image_geometry _ _ Hs) as (Eu & Eb & En & _ & Est).
  rewrite Eu, Eb, En. fold (avail (pos w)).
  set (r := Z.min (size - zlen acc) (avail (pos w))).
  pose proof (zlen_nonneg acc).
  destruct (avail_spec (pos w) G) as [Ha1 Ha2]; [lia|].
  assert (Hidx : 0 <= pos w / block_size w0 < num_blocks w0).
  { split; [apply Z.div_pos; [lia|apply G]|]. apply expected_pos; [done|apply Z.div_pos; [lia|apply G]|].
    pose proof (Z.mul_div_le (pos w) (block_size w0) (geo_bs G)). lia. }
  pose proof (get_block_spec w _ G Hs Hc Hidx Hx) as Hg.
  destruct (get_block decompress (pos w / block_size w0) w) as [[d|e] w1]; [|done].
  destruct Hg as (-> & Hlen & Hs1 & Hc1 & Hx1 & Hp1).
  destruct (same_image_geometry _ _ Hs1) as (_ & _ & _ & _ & Est1).
  cbn. unfold mmod.
  pose proof (Z.mod_pos_bound (pos w) (block_size w0) (geo_bs G)) as Hm.
  assert (Hsl : slice (blk (pos w / block_size w0)) (pos w mod block_size w0)
                  (pos w mod block_size w0 + r) = stream (image_byte w0 blk) (pos w) r).
  { rewrite slice_stream by lia.
    replace (pos w) with (pos w mod block_size w0 + pos w / block_size w0 * block_size w0) at 3
      by (pose proof (Z.div_mod (pos w) (block_size w0)); pose proof (geo_bs G); lia).
    rewrite <- stream_shift. apply stream_ext. intros i Hi. unfold image_byte.
    rewrite Z_div_plus, Z_mod_plus by (pose proof (geo_bs G); lia).
    assert (i < block_size w0) by (unfold expected in Ha2; lia).
    by rewrite (Z.div_small i), (Z.mod_small i) by lia. }
  rewrite Hsl.
  assert (Hz : zlen (acc ++ stream (image_byte w0 blk) (pos w) r) = zlen acc + r)
    by (rewrite zlen_app, zlen_stream; lia).
  assert (Hw1 : same_image w0 w1 <| pos ::= Z.add r |>) by (etrans; [exact Hs1|apply same_image_pos]).
  specialize (IH (acc ++ stream (image_byte w0 blk) (pos w) r) (w1 <| pos ::= Z.add r |>)).
  destruct (read_loop decompress fuel size (acc ++ stream (image_byte w0 blk) (pos w) r)
              w1 <| pos ::= Z.add r |>) as [[data|e] w2].
  - apply IH; rewrite ?Hz; cbn; try lia; [split_and!; [done| |done]; by destruct Hc1|].
    rewrite Hd at 1. rewrite stream_app by lia. by rewrite <- Hpos.
  - destruct IH as [Hh [Hst|Hex]]; rewrite ?Hz; cbn; try lia;
      [split_and!; [done| |done]; by destruct Hc1| |..].
    + rewrite Hd at 1. rewrite stream_app by lia. by rewrite <- Hpos.
    + split; [done|]. left. cbn in Hst. congruence.
    + split; [done|]. by right.
Qed.

(** [read] returns the bytes of the decompressed image from the current position,
    cut at its end, and moves the position past them; the only other outcome is
    the exception a block decoder (or, in strict mode, a limit) raised. *)
Lemma read_correct `{!Decoder} size w :
  geometry -> reader_inv w -> 0 <= pos w ->
  let n := Z.max 0 (Z.min size (uncompressed_size w0 - pos w)) in
  match read decompress size w with
  | (Ok data, w') => data = stream (image_byte w0 blk) (pos w) n /\ pos w' = pos w + n /\ reader_inv w'
  | (Err e, w') => failure w e
  end.
Proof.
  intros G Hinv Hp n. unfold read, read_fuel.
  destruct (Z.leb_spec size 0).
  { cbn. subst n. rewrite stream_nonpos by lia. split_and!; [done|lia|done]. }
  unfold mbind, M_bind, mget; cbn [id].
  destruct (same_image_geometry _ _ (proj1 Hinv)) as (-> & _).
  destruct (Z.leb_spec (uncompressed_size w0 - pos w) 0).
  { cbn. subst n. rewrite stream_nonpos by lia. split_and!; [done|lia|done]. }
  replace n with (Z.min size (uncompressed_size w0 - pos w)) by lia.
  apply read_loop_spec; rewrite ?zlen_nil, ?stream_nonpos by lia; try done; lia.
Qed.
End reader.

(** ** CSO: every block is padded to the block size *)

(** A file whose contents are bytes and whose reads end. *)
Record file_ok (f : hfile) : Prop := {
  fo_bytes : forall off n d, hf_read f off n = Ok d -> is_bytes d;
  fo_exn : forall off n e, hf_read f off n = Err e -> e <> Hang
}.

Lemma mem_file_ok content : is_bytes content -> file_ok (mem_file content).
Proof.
  intros Hb. split; intros off n r; cbn; repeat case_match; intros [= <-]; try done.
  - by apply Forall_drop.
  - by apply is_bytes_slice.
Qed.

Definition cache_arg_ok (cs : option Z) : Prop := match cs with Some n => 0 <= n | None => True end.

(** The blocks of an image, as its decoder yields them. *)
Definition blocks_of (decompress : wrapper -> Z -> result bytes) (w : wrapper) (idx : Z) : bytes :=
  match decompress w idx with Ok d => d | Err _ => [] end.

Section cso.
Context (inflate_raw inflate_zlib : bytes -> option bytes).
Context (inflate_max : bool -> bytes -> Z -> option (bytes * bool)).
Context (f : hfile) (Hf : file_ok f).
Let decompress := Cso.decompress_block inflate_raw inflate_zlib inflate_max f.

Lemma cso_same_image w w' idx : strict w = false -> same_image w w' -> decompress w' idx = decompress w idx.
Proof.
  intros Hs (p & c & k & d & ->). unfold decompress, Cso.decompress_block.
  cbn [set_field strict]. rewrite Hs. done.
Qed.

Lemma cso_decoder w0 :
  strict w0 = false -> Decoder decompress (blocks_of decompress w0) w0.
Proof.
  intros Hs. split.
  - intros w idx d Hsame Hi Hd. rewrite (cso_same_image w0) in Hd by done.
    unfold blocks_of. rewrite Hd. split; [done|].
    unfold decompress, Cso.decompress_block in Hd. rewrite Hs in Hd.
    if_inv Hd. repeat bind_inv Hd. injection Hd as <-. unfold expected.
    destruct (Z.ltb_spec (zlen a2) (block_size w0)); rewrite ?zlen_app, ?zlen_zeros; lia.
  - intros w idx e. unfold decompress, Cso.decompress_block, Limits.indexed_block, index_result, mbind, result_bind.
    intros He. repeat case_match; simplify_eq; try done; by eapply fo_exn.
Qed.

Lemma cso_open_geometry cs cancel w0 :
  cache_arg_ok cs -> Cso.open f cs false cancel = Ok w0 ->
  geometry w0 /\ strict w0 = false /\ pos w0 = 0 /\ cache w0 = [].
Proof.
  intros Hcs. unfold Cso.open, Cso.parse_header. intros Ho. bind_inv Ho.
  apply fo_bytes in E as Hb; [|done].
  if_inv Ho. if_inv Ho. cbn in Ho. if_inv Ho. bind_inv Ho. if_inv Ho. injection Ho as <-.
  pose proof (le_int_nonneg _ (is_bytes_slice a 16 20 Hb)).
  pose proof (le_int_nonneg _ (is_bytes_slice a 8 16 Hb)).
  split_and!; try done. split; cbn in *; try lia.
  destruct cs as [n|]; cbn in *; [|unfold DEFAULT_CACHE_SIZE; lia].
  unfold DEFAULT_CACHE_SIZE. destruct (Z.eqb_spec n 0); lia.
Qed.
End cso.

Lemma reader_inv_init blk w0 : geometry w0 -> cache w0 = [] -> reader_inv blk w0 w0.
Proof.
  intros G Hc. split_and!; [done| |].
  - split; rewrite Hc; [by intros ?? ?%elem_of_nil|apply NoDup_nil_2|].
    rewrite zlen_nil. pose proof (geo_cache _ G). lia.
  - rewrite Hc. by intros ?? ?%elem_of_nil.
Qed.

(** Reading an opened CSO image returns the bytes of the decompressed image at the
    reader's position, cut at its end, whatever blocks the cache holds, and ends
    with the position after them and the cache again within its limit; an
    exception is one the decoder of one of its blocks raised. *)
Theorem cso_read_correct inflate_raw inflate_zlib inflate_max f cs cancel w0 w size :
  file_ok f -> cache_arg_ok cs -> Cso.open f cs false cancel = Ok w0 ->
  let decompress := Cso.decompress_block inflate_raw inflate_zlib inflate_max f in
  let blk := blocks_of decompress w0 in
  reader_inv blk w0 w -> 0 <= pos w ->
  let n := Z.max 0 (Z.min size (uncompressed_size w0 - pos w)) in
  match read decompress size w with
  | (Ok data, w') =>
      data = stream (image_byte w0 blk) (pos w) n /\ pos w' = pos w + n /\ reader_inv blk w0 w'
  | (Err e, w') =>
      e <> Hang /\ exists w' idx, same_image w0 w' /\ 0 <= idx < num_blocks w0 /\ decompress w' idx = Err e
  end.
Proof.
  intros Hf Hcs Ho decompress blk Hinv Hp n.
  destruct (cso_open_geometry f Hf cs cancel w0 Hcs Ho) as (G & Hst & _).
  pose proof (cso_decoder inflate_raw inflate_zlib inflate_max f Hf w0 Hst) as HD.
  pose proof (read_correct decompress blk w0 size w G Hinv Hp) as H.
  destruct (read decompress size w) as [[data|e] w']; [done|].
  destruct H as [Hh [Hs|He]]; [|done].
  destruct (same_image_geometry _ _ (proj1 Hinv)) as (_ & _ & _ & _ & Hs'). congruence.
Qed.

(** ** A short block in an image that is not a whole number of blocks *)

Definition stuck_at_end (decompress : wrapper -> Z -> result bytes) (w : wrapper) : Prop :=
  strict w = false /\ 0 < block_size w /\
  pos w = uncompressed_size w /\ uncompressed_size w mod block_size w <> 0 /\
  num_blocks w = uncompressed_size w / block_size w + 1 /\
  exists d, cache_find (num_blocks w - 1) (cache w) = Some d.

Lemma cache_find_touch idx d c : cache_find idx (cache_touch idx d c) = Some d.
Proof.
  unfold cache_touch. assert (cache_find idx (cache_remove idx c) = None) as H.
  { unfold cache_remove. induction c as [|[i e] c IH]; cbn; [done|].
    destruct (Z.eqb_spec i idx) as [|Hn]; cbn; [done|]. by rewrite (proj2 (Z.eqb_neq _ _) Hn). }
  revert H. generalize (cache_remove idx c). intros k; induction k as [|[i e] k IH]; cbn.
  - by rewrite Z.eqb_refl.
  - by destruct (i =? idx).
Qed.

Lemma stuck_loop decompress fuel size acc w :
  stuck_at_end decompress w -> zlen acc < size ->
  fst (read_loop decompress fuel size acc w) = Err Hang.
Proof.
  revert w. induction fuel as [|fuel IH]; intros w Hst Hlt; cbn [read_loop];
    rewrite (proj2 (Z.leb_gt _ _) Hlt); [done|].
  destruct Hst as (Hs & Hb & Hp & Hm & Hn & d & Hd).
  unfold mbind, M_bind, mget; cbn [id]. rewrite Hp.
  assert (Hi : uncompressed_size w / block_size w = num_blocks w - 1) by lia.
  rewrite Hi. unfold get_block, mbind, M_bind, mget; cbn [id]. rewrite Hs, Hd. cbn.
  rewrite Z.eqb_refl, (proj2 (Z.eqb_neq _ _) Hm), Z.sub_diag, Z.min_r by lia.
  rewrite slice_empty by lia. rewrite app_nil_r.
  apply IH; [|done]. split_and!; cbn; [done..|]. exists d. apply cache_find_touch.
Qed.

(** When the last block of an image whose size is not a multiple of the block size
    decodes to fewer bytes than the image has there, reading the image from the
    start of that block to its end never returns: the loop of [read] repeats
    itself, however long it is given. *)
Theorem short_last_block_hangs decompress w d fuel :
  let last := num_blocks w - 1 in
  geometry w -> strict w = false -> cache w = [] ->
  uncompressed_size w mod block_size w <> 0 ->
  pos w = last * block_size w ->
  decompress w last = Ok d -> zlen d < expected w last ->
  fst (read_fuel decompress fuel (uncompressed_size w - pos w) w) = Err Hang.
Proof.
  intros last [Hb Hu Hn Hc] Hs Hca Hm Hp Hd Hlt.
  set (b := block_size w) in *. set (u := uncompressed_size w) in *.
  pose proof (Z.div_mod u b ltac:(lia)) as E. pose proof (Z.mod_pos_bound u b Hb) as Hmb.
  assert (Hq : num_blocks w = u / b + 1).
  { rewrite Hn. symmetry. apply Z.div_unique with (u mod b - 1); lia. }
  assert (Hl : last = u / b) by (unfold last; lia).
  unfold expected in Hlt; fold b u in Hlt. rewrite Hl in Hlt, Hp.
  unfold read_fuel. fold u.
  rewrite (proj2 (Z.leb_gt (u - pos w) 0)) by lia.
  unfold mbind, M_bind, mget; cbn [id]. fold u. rewrite (proj2 (Z.leb_gt (u - pos w) 0)) by lia.
  rewrite Z.min_id. destruct fuel as [|fuel]; cbn [read_loop];
    rewrite (proj2 (Z.leb_gt (u - pos w) (zlen []))) by (rewrite zlen_nil; lia); [done|].
  unfold mbind, M_bind, mget; cbn [id]. fold b u.
  assert (Hpb : pos w / b = last) by (rewrite Hp, Z.div_mul by lia; lia).
  assert (Hpm : pos w mod b = 0) by (rewrite Hp; apply Z.mod_mul; lia).
  rewrite Hpb, Hpm. unfold get_block, mbind, M_bind, mget, lift; cbn [id].
  rewrite Hca. cbn. rewrite Hs. cbn. rewrite Hd. rewrite Hca. cbn.
  destruct (Z.ltb_spec (zlen (@nil (Z * bytes))) (cache_size w)) as [|Hbad]; [|rewrite zlen_nil in Hbad; lia].
  cbn. fold last. rewrite Z.eqb_refl. fold u b. rewrite (proj2 (Z.eqb_neq _ _) Hm).
  change (zlen (@nil Z)) with 0. rewrite !Z.sub_0_r. rewrite (Z.min_r (u - pos w) (u mod b)) by lia.
  rewrite Hs. cbn.
  apply stuck_loop.
  - split_and!; cbn; [done|done|fold u; lia|done|done|]. exists d. fold last. by rewrite Z.eqb_refl.
  - cbn. unfold slice. rewrite zlen_ztake, zlen_zdrop. lia.
Qed.

(** ** The probed size is the served size *)

Lemma mem_file_read0 content n :
  0 <= n -> hf_read (mem_file content) 0 n = Ok (slice content 0 n).
Proof.
  intros Hn. unfold mem_file. cbn [hf_read]. rewrite Z.add_0_l.
  change (2 ^ 63 - 1 <? 0) with false. cbn [andb].
  by rewrite (proj2 (Z.eqb_neq n (-1))), (proj2 (Z.ltb_ge n 0)) by lia.
Qed.

Lemma compressors_agree content n m :
  32 <= n -> 32 <= m ->
  Chd.compressors_of (slice content 0 n) = Chd.compressors_of (slice content 0 m).
Proof. intros. unfold Chd.compressors_of. cbn [map]. by rewrite !slice_slice0 by lia. Qed.

(** The size [get_compressed_info] reports for a file, used for listings and stat
    replies, is the size of the image the opened reader serves; for CD-type CHDs
    both count 2048 bytes per stored 2448-byte frame. *)
Theorem info_size_agrees lz4 chdr chd_open path content cs n name c w :
  is_bytes content ->
  Formats.get_compressed_info path (Ok (mem_file content)) = Ok (Some (n, name)) ->
  Formats.open_compressed lz4 chdr chd_open path (Ok (mem_file content)) cs = Ok (Some (c, w)) ->
  uncompressed_size w = n.
Proof.
  intros Hb. unfold Formats.get_compressed_info, Formats.open_compressed.
  destruct (Formats.format_for_extension path) as [[]|]; try done;
    repeat (case_bool_decide; try done); cbn [mbind result_bind];
    rewrite mem_file_read0 by lia; cbn [mbind result_bind].
  - clear. destruct lz4; cbn [negb]; [|done].
    destruct (zlen (slice content 0 24) <? 24) eqn:Hl; [by intros ?; simplify_eq|].
    intros Hi Ho. bind_inv Ho. injection Ho as <- <-.
    unfold Zso.open, Zso.parse_header in E. rewrite mem_file_read0 in E by lia.
    cbn [mbind result_bind] in E. rewrite Hl in E.
    assert (le_int (slice (slice content 0 24) 8 16) = n) as <- by (repeat case_match; congruence).
    if_inv E. cbn [strict init set_field] in E. if_inv E. bind_inv E. if_inv E.
    injection E as <-. cbn. by destruct (str_eqb (slice (slice content 0 24) 0 4) Zso.ZISO_MAGIC).
  - clear.
    destruct (zlen (slice content 0 24) <? 24) eqn:Hl; [by intros ?; simplify_eq|].
    intros Hi Ho. bind_inv Ho. injection Ho as <- <-.
    unfold Cso.open, Cso.parse_header in E. rewrite mem_file_read0 in E by lia.
    cbn [mbind result_bind] in E. rewrite Hl in E.
    assert (le_int (slice (slice content 0 24) 8 16) = n) as <- by (repeat case_match; congruence).
    if_inv E. cbn [strict init set_field] in E. if_inv E. bind_inv E. if_inv E.
    by injection E as <-.
  - destruct chdr; cbn [negb]; [|done].
    intros Hi Ho. bind_inv Ho. injection Ho as <- <-.
    unfold Chd.parse_header in E. rewrite mem_file_read0 in E by lia.
    cbn [mbind result_bind strict init] in E.
    if_inv E. if_inv E. if_inv E.
    rewrite !slice_slice0 in * by lia. rewrite (compressors_agree content 64 124) in Hi by lia.
    set (hunk := be_int (slice content 56 60)) in *.
    assert (0 <= hunk) by (by apply be_int_nonneg, is_bytes_slice).
    assert ((0 <? hunk) = true) as Hh by (destruct (Z.eqb_spec hunk 0); [done|lia]).
    rewrite Hh, andb_true_r in Hi.
    assert ((zlen (slice content 0 64) <? 64) = false) as Hl
      by (destruct (zlen (slice content 0 64) <? 64); [done|reflexivity]).
    rewrite Hl in Hi.
    destruct (negb (str_eqb (slice content 0 8) Chd.CHD_MAGIC)); [done|].
    destruct (negb (be_int (slice content 12 16) =? 5)); [done|].
    cbn in E. destruct (((be_int (slice content 60 64) =? Chd.CD_FRAME_SIZE) || _) && _);
      destruct (chd_open =? 0); try done; injection E as <-; by injection Hi as <- <-.
Qed.

(** ** Concrete images *)

(** Six bytes in two stored blocks of four. *)
Definition sample_cso : bytes :=
  lit "CISO" ++ le_bytes 4 24 ++ le_bytes 8 6 ++ le_bytes 4 4 ++ [1; 0; 0; 0]
  ++ le_bytes 4 (RAW_FLAG + 36) ++ le_bytes 4 (RAW_FLAG + 40) ++ le_bytes 4 42
  ++ [10; 11; 12; 13; 14; 15].

(** A ZSO of six bytes in two stored blocks of four, cut one byte short. *)
Definition truncated_zso : bytes :=
  Zso.ZSO_MAGIC ++ le_bytes 4 24 ++ le_bytes 8 6 ++ le_bytes 4 4 ++ [1; 0; 0; 0]
  ++ le_bytes 4 (RAW_FLAG + 32) ++ le_bytes 4 (RAW_FLAG + 36) ++ [10; 11; 12; 13; 14].

Definition no_inflate : bytes -> option bytes := fun _ => None.
Definition no_lz4 : bytes -> Z -> option bytes := fun _ _ => None.

Definition sample_reader : wrapper :=
  match Cso.open (mem_file sample_cso) None false false with Ok w => w | Err _ => init None false false end.
Definition truncated_reader : wrapper :=
  match Zso.open (mem_file truncated_zso) None false false with
  | Ok w => w <| pos := 4 |> | Err _ => init None false false end.

Example sample_read :
  fst (read (Cso.decompress_block no_inflate no_inflate (fun _ _ _ => None) (mem_file sample_cso)) 9
         (sample_reader <| pos := 2 |>)) = Ok [12; 13; 14; 15].
Proof. reflexivity. Qed.

Lemma is_bytes_dec_true bs : forallb (fun b => (0 <=? b) && (b <? 256)) bs = true -> is_bytes bs.
Proof.
  rewrite forallb_forall. intros H. apply Forall_forall. intros b Hb%list_elem_of_In.
  specialize (H b Hb). unfold is_byte. lia.
Qed.

Lemma cso_read_correct_witness :
  let decompress := Cso.decompress_block no_inflate no_inflate (fun _ _ _ => None) (mem_file sample_cso) in
  let blk := blocks_of decompress sample_reader in
  Cso.open (mem_file sample_cso) None false false = Ok sample_reader /\
  match read decompress 5 sample_reader with
  | (Ok data, w') => data = stream (image_byte sample_reader blk) 0 5 /\ pos w' = 0 + 5 /\
                     reader_inv blk sample_reader w'
  | (Err e, w') => e <> Hang /\ exists w' idx, same_image sample_reader w' /\ decompress w' idx = Err e
  end.
Proof.
  intros decompress blk.
  assert (Hok : file_ok (mem_file sample_cso)) by (apply mem_file_ok, is_bytes_dec_true; reflexivity).
  assert (Ho : Cso.open (mem_file sample_cso) None false false = Ok sample_reader) by (vm_compute; reflexivity).
  split; [exact Ho|].
  refine (cso_read_correct no_inflate no_inflate (fun _ _ _ => None) (mem_file sample_cso) None false
            sample_reader sample_reader 5 Hok I Ho _ _).
  - apply reader_inv_init; [|reflexivity]. by eapply (cso_open_geometry _ Hok None false).
  - vm_compute. discriminate.
Defined.

Lemma short_last_block_hangs_witness :
  fst (read_fuel (Zso.decompress_block no_lz4 (mem_file truncated_zso)) 1000 2 truncated_reader) = Err Hang.
Proof.
  refine (short_last_block_hangs _ truncated_reader [14] 1000 _ _ _ _ _ _ _).
  - split; vm_compute; congruence.
  - reflexivity.
  - reflexivity.
  - vm_compute. discriminate.
  - reflexivity.
  - reflexivity.
  - reflexivity.
Defined.

Lemma info_size_agrees_witness :
  Formats.get_compressed_info (lit "/g/a.CSO") (Ok (mem_file sample_cso)) = Ok (Some (6, Formats.I_CSO)) /\
  uncompressed_size sample_reader = 6.
Proof.
  assert (Hi : Formats.get_compressed_info (lit "/g/a.CSO") (Ok (mem_file sample_cso))
               = Ok (Some (6, Formats.I_CSO))) by (vm_compute; reflexivity).
  split; [exact Hi|].
  refine (info_size_agrees true true 0 (lit "/g/a.CSO") sample_cso None 6 _ Formats.CSO _ _ Hi _).
  - apply is_bytes_dec_true; reflexivity.
  - reflexivity.
Defined.
