(* ===== verification/HostOs.v ===== *)
(** * The host operating system, as the file server uses it

    The system calls and file objects behind the UDPFS handlers are an interface,
    [HostOs]: the model says nothing of what the host answers, only that the
    answers are values of these types.  What Python itself adds on top
    ([os.path.exists], [lexists], [isdir], [realpath], [os.makedirs]' guard) is
    defined here from the interface, for a POSIX host. *)

From S2P Require Import Prelude PyStr Compressed.

(** ** Error numbers (Linux) *)
Definition ENOENT : Z := 2.
Definition EIO : Z := 5.
Definition EBADF : Z := 9.
Definition EAGAIN : Z := 11.
Definition EACCES : Z := 13.
Definition EEXIST : Z := 17.
Definition ENOTDIR : Z := 20.
Definition EISDIR : Z := 21.
Definition EINVAL : Z := 22.
Definition EMFILE : Z := 24.
Definition ENOBUFS : Z := 105.

(** ** What the host answers *)

(** The file type bits of [st_mode]. *)
Inductive fkind := Reg | Dir | Lnk | Other.

#[export] Instance fkind_eq_dec : EqDecision fkind.
Proof. solve_decision. Defined.

(** [os.stat_result]; times are opaque numbers, [st_reparse_tag] and
    [st_file_attributes] are 0 where the attribute is missing. *)
Record stat_result := StatResult {
  st_kind : fkind;
  st_size : Z;
  st_ctime : Z;
  st_atime : Z;
  st_mtime : Z;
  st_reparse_tag : Z;
  st_file_attributes : Z;
  st_dev : Z;
  st_ino : Z;
  st_mtime_ns : Z
}.

Definition S_ISREG (st : stat_result) : bool := bool_decide (st_kind st = Reg).
Definition S_ISDIR (st : stat_result) : bool := bool_decide (st_kind st = Dir).
Definition S_ISLNK (st : stat_result) : bool := bool_decide (st_kind st = Lnk).

(** [time.struct_time] *)
Record tm := Tm { tm_sec : Z; tm_min : Z; tm_hour : Z; tm_mday : Z; tm_mon : Z; tm_year : Z }.

(** The modes [_flags_to_mode] can return: ['rb'], ['r+b'], ['wb'], ['ab'],
    ['w+b'], ['a+b']. *)
Inductive open_mode := m_rb | m_rpb | m_wb | m_ab | m_wpb | m_apb.

#[export] Instance open_mode_eq_dec : EqDecision open_mode.
Proof. solve_decision. Defined.

(** Queries see the state and leave it; operations may change it and may fail.  File
    objects and descriptors are numbers.  [os_open_image path] is [open(path, 'rb')]
    for the compressed-image readers, which then read at explicit offsets. *)
Class HostOs (Os : Type) := {
  os_getcwd : Os -> str;
  os_stat : str -> Os -> result stat_result;
  os_lstat : str -> Os -> result stat_result;
  os_readlink : str -> Os -> result str;
  os_listdir : str -> Os -> result (list str);
  os_localtime : Z -> Os -> result tm;
  os_open_image : str -> Os -> result hfile;
  os_makedirs : str -> M Os unit;
  os_mkdir : str -> Z -> M Os unit;
  os_unlink : str -> M Os unit;
  os_rmdir : str -> M Os unit;
  os_open : str -> open_mode -> M Os Z;
  os_fstat : Z -> Os -> result stat_result;
  f_read : Z -> Z -> M Os bytes;
  f_write : Z -> bytes -> M Os Z;
  f_seek : Z -> Z -> Z -> M Os Z;
  f_flush : Z -> M Os unit;
  f_close : Z -> M Os unit;
  f_writable : Z -> Os -> result bool;
  os_pread : Z -> Z -> Z -> M Os bytes;
  os_pwrite : Z -> bytes -> Z -> M Os Z
}.

(** ** [os.path] on top of it *)

Section os_path.
Context {Os : Type} `{HostOs Os}.

(** [exists] and [lexists]: false for [OSError] and [ValueError] *)
Definition found {A} (r : result A) : result bool :=
  match r with
  | Ok _ => Ok true
  | Err (OSError _) | Err ValueError => Ok false
  | Err e => Err e
  end.

Definition path_exists (p : str) (o : Os) : result bool := found (os_stat p o).
Definition path_lexists (p : str) (o : Os) : result bool := found (os_lstat p o).

(** [os.path.isdir] *)
Definition path_isdir (p : str) (o : Os) : result bool :=
  match os_stat p o with
  | Ok st => Ok (S_ISDIR st)
  | Err (OSError _) | Err ValueError => Ok false
  | Err e => Err e
  end.

(** [seen] of [posixpath._joinrealpath]: [None] while a link is being resolved. *)
Abbreviation seen_links := (list (str * option str)).

Fixpoint seen_find (p : str) (seen : seen_links) : option (option str) :=
  match seen with
  | [] => None
  | (q, r) :: seen => if str_eqb q p then Some r else seen_find p seen
  end.

(** [path, ok, seen] of [posixpath._joinrealpath(path, rest, strict=False, seen)].
    [rest] is given as its components.  [depth] is the number of nested links the
    interpreter's stack allows; running out raises [RecursionError]. *)
Fixpoint joinrealpath (depth : nat) : str -> list str -> seen_links -> Os -> result (str * bool * seen_links) :=
  match depth with
  | O => fun _ _ _ _ => Err RecursionError
  | S depth =>
      fix walk (path : str) (rest : list str) (seen : seen_links) (o : Os) {struct rest} :=
      match rest with
      | [] => Ok (path, true, seen)
      | name :: rest =>
          if str_eqb name [] || str_eqb name [DOT] then walk path rest seen o
          else if str_eqb name [DOT; DOT] then
            match path with
            | [] => walk [DOT; DOT] rest seen o
            | _ =>
                let '(head, tail) := path_split path in
                walk (if str_eqb tail [DOT; DOT]
                      then path_join (path_join head [DOT; DOT]) [DOT; DOT] else head) rest seen o
            end
          else
            let newpath := path_join path name in
            let is_link := match os_lstat newpath o with
                           | Ok st => Ok (S_ISLNK st)
                           | Err (OSError _) => Ok false
                           | Err e => Err e
                           end in
            is_link ← is_link;
            if negb is_link then walk newpath rest seen o
            else
              match seen_find newpath seen with
              | Some (Some p) => walk p rest seen o
              | Some None => Ok (path_join newpath (join_with SLASH rest), false, seen)
              | None =>
                  target ← os_readlink newpath o;
                  let '(base, target) :=
                    if isabs target then ([SLASH], zdrop 1 target) else (path, target) in
                  '(p, ok, seen) ← joinrealpath depth base (split_on SLASH target)
                                     ((newpath, None) :: seen) o;
                  if negb ok then Ok (path_join p (join_with SLASH rest), false, seen)
                  else walk p rest ((newpath, Some p) :: seen) o
              end
      end
  end.

(** The interpreter's default recursion limit. *)
Definition RECURSION_LIMIT : nat := 1000.

(** [posixpath.realpath(filename)] *)
Definition realpath (filename : str) (o : Os) : result str :=
  let '(base, rest) := if isabs filename then ([SLASH], zdrop 1 filename) else ([], filename) in
  '(p, _, _) ← joinrealpath RECURSION_LIMIT base (split_on SLASH rest) [] o;
  Ok (abspath (os_getcwd o) p).
End os_path.
