(* ===== verification/Exfat.v ===== *)
(** * The virtual exFAT disk

    Models [launcher/virtual_exfat.py]: a folder of the host presented as a read-only
    exFAT disk.  The constructor takes an inventory of the folder, gives every file and
    directory its clusters, and generates the boot region and the directories; [read]
    answers any byte range of the disk from these, computing the FAT and the allocation
    bitmap on demand and reading file contents from the host.

    The host is a [HostOs]; [chr(c).upper()] is the argument [py_upper], whose table
    depends on the version of Unicode that Python was built with.  Python's division of
    integers into floats followed by [math.ceil] is exact at the magnitudes that pass the
    size check of the constructor, and is modelled by [ceil_div]. *)

From S2P Require Import Prelude PyStr PyText HostOs Udpbd RawStorage.

Definition SECTOR : Z := 512.
Definition CLUSTER : Z := 32768.
Definition PARTITION : Z := 2048.

Definition ESTALE : Z := 116.

(** ** Checksums *)

(** One step of [checksum]: rotate right by one in [bits] bits and add. *)
Definition checksum_step (bits value byte : Z) : Z :=
  Z.land (Z.lor (Z.shiftr value 1) (Z.shiftl (Z.land value 1) (bits - 1)) + byte) (2 ^ bits - 1).

(** The loop of [checksum] from index [i]; [skip] lists the indices left out. *)
Fixpoint checksum_from (bits : Z) (skip : list Z) (i value : Z) (data : bytes) : Z :=
  match data with
  | [] => value
  | byte :: data =>
      checksum_from bits skip (i + 1)
        (if existsb (Z.eqb i) skip then value else checksum_step bits value byte) data
  end.

Definition checksum (data : bytes) (bits : Z) (skip : list Z) : Z := checksum_from bits skip 0 0 data.

(** ** Names *)

(** [name.encode('utf-16le')], as code units: a lone surrogate cannot be encoded. *)
Fixpoint utf16_units (cs : list Z) : result (list Z) :=
  match cs with
  | [] => Ok []
  | c :: cs =>
      if (55296 <=? c) && (c <=? 57343) then Err UnicodeError
      else
        rest ← utf16_units cs;
        Ok (if c <? 65536 then c :: rest
            else 55296 + (c - 65536) / 1024 :: 56320 + (c - 65536) mod 1024 :: rest)
  end.

(** The double quote, the other characters of the list, and the backslash *)
Definition forbidden_units : list Z := [34; 42; 47; 58; 60; 62; 63; 92; 124].

Definition name_units (name : str) : result (list Z) :=
  units ← utf16_units (code_points name);
  if bool_decide (units = []) || (255 <? zlen units)
     || existsb (fun c => (c <? 32) || existsb (Z.eqb c) forbidden_units) units
  then Err ValueError else Ok units.

(** ** The up-case table *)

Section upcase.
Variable py_upper : Z -> list Z.

(** [self._upper[c]] *)
Definition upper (c : Z) : Z :=
  match py_upper c with [u] => if u <=? 65535 then u else c | _ => c end.

Definition upcase_table : list Z := map upper (seqZ 0 65536).

(** The inner loop of the table's compression: the end of the run of unchanged units
    that starts at [c] *)
Fixpoint run_end (fuel : nat) (c stop : Z) : Z :=
  match fuel with
  | O => stop
  | S fuel =>
      if (stop <? 65536) && (upper stop =? stop) && (stop - c <? 65535)
      then run_end fuel c (stop + 1) else stop
  end.

(** The outer loop: [0xffff] and a length stand for a run of unchanged units. *)
Fixpoint compress (fuel : nat) (c : Z) : result (list Z) :=
  if c <? 65536 then
    match fuel with
    | O => Err Hang
    | S fuel =>
        let stop := run_end (Z.to_nat 65536) c c in
        if (1 <? stop - c) || (c =? 65535)
        then rest ← compress fuel stop; Ok (65535 :: stop - c :: rest)
        else rest ← compress fuel (c + 1); Ok (upper c :: rest)
    end
  else Ok [].

Definition encoded_upcase : result (list Z) := compress (Z.to_nat 65536) 0.

(** [struct.pack('<' + 'H' * len(us), *us)] *)
Definition pack_units (us : list Z) : result bytes := struct_result (pack (map (pair fH) us)).

(** ** Nodes *)

(** [identity] of [Node.__init__] *)
Definition identity_of (info : stat_result) : Z * Z * Z * Z :=
  (st_dev info, st_ino info, st_size info, st_mtime_ns info).

(** [Node].  The nodes live in one list, [_nodes]; [children] are positions in it. *)
Record node := Node {
  path : str;
  directory : bool;
  identity : Z * Z * Z * Z;
  children : list nat;
  node_size : Z;
  cluster : Z;
  clusters : Z;
  payload : bytes
}.

#[export] Instance eta_node : Eta node := fun n =>
  Node (path n) (directory n) (identity n) (children n) (node_size n) (cluster n) (clusters n) (payload n).

Definition new_node (path : str) (directory : bool) (info : stat_result) : node :=
  {| path := path; directory := directory; identity := identity_of info; children := [];
     node_size := if directory then 0 else st_size info; cluster := 0; clusters := 0; payload := [] |}.

(** [c.path.name] *)
Definition node_name (n : node) : str := basename (path n).

(** ** The inventory *)

Definition sort_names : list str -> list str :=
  sorted (fun a b => points_leb (code_points a) (code_points b)).

Context {Os : Type} `{HostOs Os}.

(** [node.children.append(child)] for the node at [i] *)
Definition add_child (i child : nat) (ns : list node) : list node :=
  alter (fun n => n <| children ::= fun l => l ++ [child] |>) i ns.

(** The loop over the entries of the directory at [i]; [names] holds the up-cased names
    met so far, [scan] is the recursive call. *)
Fixpoint scan_children (scan : str -> M (list node) nat) (i : nat) (dir : str)
    (entries : list str) (names : list (list Z)) : M (list node) unit :=
  match entries with
  | [] => mret tt
  | name :: entries =>
      units ← lift (name_units name);
      let key := map upper units in
      if bool_decide (key ∈ names) then raise ValueError
      else
        child ← scan (path_join dir name);
        _ ← mmod (add_child i child);
        scan_children scan i dir entries (key :: names)
  end.

(** [_scan] *)
Fixpoint scan (fuel : nat) (os : Os) (depth : Z) (path : str) : M (list node) nat :=
  if 64 <? depth then raise ValueError
  else match fuel with
  | O => raise Hang
  | S fuel =>
      info ← lift (os_lstat path os);
      if S_ISLNK info || negb (Z.land (st_file_attributes info) 0x400 =? 0)
         || negb (S_ISDIR info || S_ISREG info) then raise ValueError
      else
        i ← mget (@length node);
        _ ← mmod (fun ns => ns ++ [new_node path (S_ISDIR info) info]);
        count ← mget zlen;
        if 100000 <? count then raise ValueError
        else if S_ISDIR info then
          names ← lift (os_listdir path os);
          _ ← scan_children (scan fuel os (depth + 1)) i path (sort_names names) [];
          mret i
        else if depth =? 0 then raise ValueError
        else mret i
  end.

(** ** The layout *)

Definition child_nodes (ns : list node) (n : node) : list node := omap (fun i => ns !! i) (children n).

(** [sum(2 + math.ceil(len(name_units(c.path.name)) / 15) for c in node.children)] *)
Fixpoint child_entries (cs : list node) : result Z :=
  match cs with
  | [] => Ok 0
  | c :: cs =>
      units ← name_units (node_name c);
      rest ← child_entries cs;
      Ok (2 + ceil_div (zlen units) 15 + rest)
  end.

(** The loop that sets [size] and [clusters]; [i] is the position of the first of [l], and
    the root is at position 0. *)
Fixpoint size_nodes (ns : list node) (i : nat) (l : list node) : result (list node) :=
  match l with
  | [] => Ok []
  | n :: l =>
      n ← (if directory n then
             entries ← child_entries (child_nodes ns n);
             let entries := (match i with O => 3 | _ => 0 end) + entries in
             Ok (n <| node_size := (entries + 1) * 32 |>)
           else Ok n);
      rest ← size_nodes ns (S i) l;
      Ok (n <| clusters := ceil_div (node_size n) CLUSTER |> :: rest)
  end.

(** The loop that finds a bitmap large enough for its own clusters *)
Fixpoint solve_bitmap (fuel : nat) (payload_clusters upcase_clusters bitmap_clusters : Z) : result (Z * Z) :=
  match fuel with
  | O => Err Hang
  | S fuel =>
      let cluster_count := Z.max 64 (payload_clusters + bitmap_clusters + upcase_clusters + 16) in
      let needed := ceil_div (ceil_div cluster_count 8) CLUSTER in
      if needed =? bitmap_clusters then Ok (cluster_count, bitmap_clusters)
      else solve_bitmap fuel payload_clusters upcase_clusters needed
  end.

Definition bitmap_fuel (payload_clusters upcase_clusters : Z) : nat :=
  S (S (S (S (Z.to_nat (Z.log2 (64 + payload_clusters + upcase_clusters)))))).

(** The loop that sets [cluster], with the final [next_cluster] *)
Fixpoint assign_clusters (next : Z) (l : list node) : list node * Z :=
  match l with
  | [] => ([], next)
  | n :: l =>
      let '(l, last) := assign_clusters (next + clusters n) l in
      (n <| cluster := if clusters n =? 0 then 0 else next |> :: l, last)
  end.

Record layout := Layout {
  nodes : list node;
  cluster_count : Z;
  bitmap_length : Z;
  bitmap_clusters : Z;
  bitmap_cluster : Z;
  upcase_clusters : Z;
  upcase_cluster : Z;
  allocated_clusters : Z;
  fat_length : Z;
  heap_sector : Z;
  volume_sectors : Z;
  size : Z
}.

#[export] Instance eta_layout : Eta layout := fun l =>
  Layout (nodes l) (cluster_count l) (bitmap_length l) (bitmap_clusters l) (bitmap_cluster l)
    (upcase_clusters l) (upcase_cluster l) (allocated_clusters l) (fat_length l) (heap_sector l)
    (volume_sectors l) (size l).

(** [__init__] from the inventory to the size check; [upcase_len] is [len(upcase)]. *)
Definition lay_out (ns : list node) (upcase_len : Z) : result layout :=
  let upcase_clusters := ceil_div upcase_len CLUSTER in
  ns ← size_nodes ns 0 ns;
  let payload_clusters := foldr Z.add 0 (map clusters ns) in
  '(cluster_count, bitmap_clusters) ←
    solve_bitmap (bitmap_fuel payload_clusters upcase_clusters) payload_clusters upcase_clusters 1;
  let bitmap_length := ceil_div cluster_count 8 in
  let bitmap_cluster := 2 in
  let upcase_cluster := 2 + bitmap_clusters in
  let '(ns, next_cluster) := assign_clusters (upcase_cluster + upcase_clusters) ns in
  let fat_length := ceil_div ((cluster_count + 2) * 4) SECTOR in
  let heap_sector := ceil_div (24 + fat_length) 64 * 64 in
  let volume_sectors := heap_sector + cluster_count * (CLUSTER / SECTOR) in
  let size := (PARTITION + volume_sectors) * SECTOR in
  if 0xffffffff <? size / SECTOR then Err ValueError
  else Ok {| nodes := ns; cluster_count := cluster_count; bitmap_length := bitmap_length;
             bitmap_clusters := bitmap_clusters; bitmap_cluster := bitmap_cluster;
             upcase_clusters := upcase_clusters; upcase_cluster := upcase_cluster;
             allocated_clusters := next_cluster - 2; fat_length := fat_length;
             heap_sector := heap_sector; volume_sectors := volume_sectors; size := size |}.

(** [_heap_offset] *)
Definition heap_offset (l : layout) (cluster : Z) : Z :=
  (PARTITION + heap_sector l) * SECTOR + (cluster - 2) * CLUSTER.

(** ** Directories *)

(** [buffer[off:off + len(data)] = data], inside the buffer; also [struct.pack_into] *)
Definition put (off : Z) (data buffer : bytes) : bytes :=
  ztake off buffer ++ data ++ zdrop (off + zlen data) buffer.

(** The [0xc1] entries of a name, 15 units each *)
Fixpoint name_entries (fuel : nat) (units : list Z) : result bytes :=
  match fuel, units with
  | O, _ | _, [] => Ok []
  | S fuel, _ =>
      chunk ← pack_units (take 15 units);
      rest ← name_entries fuel (drop 15 units);
      Ok (put 2 chunk (put 0 [0xc1] (zeros 32)) ++ rest)
  end.

(** The [0x85] entry of one child, its checksum still blank *)
Definition primary_entry (child : node) (units : list Z) : bytes :=
  let primary := put 0 [0x85; 1 + ceil_div (zlen units) 15] (zeros 32) in
  let primary := put 4 (le_bytes 2 (if directory child then 0x10 else 0x20)) primary in
  let stamp := le_bytes 4 0x210000 in
  put 8 (stamp ++ stamp ++ stamp) primary.

(** The [0xc0] entry *)
Definition stream_entry (child : node) (units : list Z) : result bytes :=
  let stream := put 0 [0xc0; if directory child || (clusters child =? 0) then 1 else 3] (zeros 32) in
  let stream := put 3 [zlen units] stream in
  upper ← pack_units (map upper units);
  let stream := put 4 (le_bytes 2 (checksum upper 16 [])) stream in
  let length := if directory child then clusters child * CLUSTER else node_size child in
  bs ← struct_result (pack [(fQ, length)]);
  let stream := put 8 bs stream in
  bs ← struct_result (pack [(fI, cluster child); (fQ, length)]);
  Ok (put 20 bs stream).

(** The entries of one child in [_directory_bytes] *)
Definition child_group (child : node) : result bytes :=
  units ← name_units (node_name child);
  let primary := primary_entry child units in
  stream ← stream_entry child units;
  secondary ← name_entries (List.length units) units;
  let group := primary ++ stream ++ secondary in
  Ok (put 2 (le_bytes 2 (checksum group 16 [2; 3])) group).

Fixpoint child_groups (cs : list node) : result bytes :=
  match cs with
  | [] => Ok []
  | c :: cs => g ← child_group c; rest ← child_groups cs; Ok (g ++ rest)
  end.

(** [('PS2SERVER').encode('utf-16le')] *)
Definition volume_label : bytes := concat (map (le_bytes 2) (lit "PS2SERVER")).

(** The three entries of the root directory alone *)
Definition root_entries (l : layout) (upcase : bytes) : result bytes :=
  bs ← struct_result (pack [(fI, bitmap_cluster l); (fQ, bitmap_length l)]);
  let bitmap := put 20 bs (put 0 [0x81] (zeros 32)) in
  let case := put 4 (le_bytes 4 (checksum upcase 32 [])) (put 0 [0x82] (zeros 32)) in
  bs ← struct_result (pack [(fI, upcase_cluster l); (fQ, zlen upcase)]);
  let case := put 20 bs case in
  let label := put 2 volume_label (put 0 [0x83; 9] (zeros 32)) in
  Ok (bitmap ++ case ++ label).

(** [_directory_bytes] of the node at position [i] *)
Definition directory_bytes (l : layout) (upcase : bytes) (i : nat) (n : node) : result bytes :=
  head ← match i with O => root_entries l upcase | _ => Ok [] end;
  groups ← child_groups (child_nodes (nodes l) n);
  Ok (head ++ groups ++ zeros 32).

(** ** The boot region *)

(** The first sector and the signatures of the eight after it *)
Definition boot_sectors (l : layout) (root_cluster : Z) : result bytes :=
  let boot := put 0 ([0xeb; 0x76; 0x90] ++ lit "EXFAT   ") (zeros (11 * SECTOR)) in
  bs ← struct_result (pack
    [(fQ, PARTITION); (fQ, volume_sectors l); (fI, 24); (fI, fat_length l); (fI, heap_sector l);
     (fI, cluster_count l); (fI, root_cluster); (fI, 0x50533253); (fH, 0x100); (fH, 0); (fB, 9); (fB, 6);
     (fB, 1); (fB, 0x80); (fB, ceil_div (allocated_clusters l * 100) (cluster_count l))]);
  let boot := put 64 bs boot in
  let boot := put 510 [0x55; 0xaa] boot in
  Ok (foldl (fun boot i => put ((i + 1) * SECTOR - 4) (le_bytes 4 0xaa550000) boot) boot (seqZ 1 8)).

(** [_boot_region] *)
Definition boot_region (l : layout) (root_cluster : Z) : result bytes :=
  boot ← boot_sectors l root_cluster;
  let crc := checksum boot 32 [106; 107; 112] in
  let region := boot ++ concat (replicate (Z.to_nat (SECTOR / 4)) (le_bytes 4 crc)) in
  Ok (region ++ region).

(** The master boot record *)
Definition mbr_sector (l : layout) : result bytes :=
  bs ← struct_result (pack [(fI, PARTITION); (fI, volume_sectors l)]);
  Ok (put 510 [0x55; 0xaa] (put 446 ([0] ++ [0xfe; 0xff; 0xff] ++ [7] ++ [0xfe; 0xff; 0xff] ++ bs) (zeros SECTOR))).

(** ** The constructed disk *)

(** What an extent of [_extents] holds: bytes, or the node at a position *)
Inductive source := Bytes (bs : bytes) | OfNode (i : nat).

Record volume := Volume {
  lay : layout;
  chains : list (Z * Z);
  extents : list (Z * Z * source);
  boot : bytes;
  mbr : bytes
}.

#[export] Instance eta_volume : Eta volume := fun v => Volume (lay v) (chains v) (extents v) (boot v) (mbr v).

(** [_chain_starts] and [_starts] *)
Definition chain_starts (v : volume) : list Z := map fst (chains v).
Definition starts (v : volume) : list Z := map (fun e => fst (fst e)) (extents v).

(** [_add_extent], on the list so far *)
Definition add_extent (l : layout) (cluster length : Z) (s : source) (es : list (Z * Z * source)) : list (Z * Z * source) :=
  if length =? 0 then es else es ++ [(heap_offset l cluster, length, s)].

(** The loop that fills in [payload] and the extents *)
Fixpoint node_extents (l : layout) (upcase : bytes) (i : nat) (ns : list node)
    (es : list (Z * Z * source)) : result (list node * list (Z * Z * source)) :=
  match ns with
  | [] => Ok ([], es)
  | n :: ns =>
      n ← (if directory n then p ← directory_bytes l upcase i n; Ok (n <| payload := p |>)
           else Ok n);
      '(ns, es) ← node_extents l upcase (S i) ns (add_extent l (cluster n) (node_size n) (OfNode i) es);
      Ok (n :: ns, es)
  end.

Definition pair_leb (a b : Z * Z) : bool := (fst a <? fst b) || ((fst a =? fst b) && (snd a <=? snd b)).
Definition extent_leb (a b : Z * Z * source) : bool := fst (fst a) <=? fst (fst b).

(** [self._chains] *)
Definition all_chains (l : layout) : list (Z * Z) :=
  sorted pair_leb
    ([(bitmap_cluster l, bitmap_clusters l); (upcase_cluster l, upcase_clusters l)]
     ++ map (fun n => (cluster n, clusters n)) (List.filter directory (nodes l))).

(** [__init__] after the inventory *)
Definition build (ns : list node) : result volume :=
  encoded ← encoded_upcase;
  upcase ← pack_units encoded;
  l ← lay_out ns (zlen upcase);
  '(ns, es) ← node_extents l upcase 0 (nodes l) (add_extent l (upcase_cluster l) (zlen upcase) (Bytes upcase) []);
  boot ← boot_region l (match ns with n :: _ => cluster n | [] => 0 end);
  mbr ← mbr_sector l;
  Ok {| lay := l <| nodes := ns |>; chains := all_chains l; extents := sorted extent_leb es; boot := boot; mbr := mbr |}.

(** ** Reading *)

(** [VirtualExfat].  [handles] is the [OrderedDict], oldest first. *)
Record device := Device {
  vol : volume;
  handles : list (str * Z);
  position : Z;
  request_end : option Z;
  host : Os
}.

#[export] Instance eta_device : Eta device := fun d =>
  Device (vol d) (handles d) (position d) (request_end d) (host d).

(** [__init__] on the resolved root *)
Definition mount (os : Os) (v : volume) : device :=
  {| vol := v; handles := []; position := 0; request_end := None; host := os |}.

Definition init (root : str) (os : Os) : result device :=
  root ← realpath root os;
  match scan 65 os 0 root [] with
  | (Ok _, ns) => match build ns with Ok v => Ok (mount os v) | Err e => Err e end
  | (Err e, _) => Err e
  end.

Definition sector_count (d : device) : Z := size (lay (vol d)) / SECTOR.

Definition seek (sector : Z) (sector_count : option Z) : M device unit :=
  d ← mget id;
  let pos := sector * SECTOR in
  let r_end := match sector_count with None => size (lay (vol d)) | Some n => pos + n * SECTOR end in
  _ ← mmod (fun d => d <| position := pos |> <| request_end := Some r_end |>);
  if negb ((0 <=? pos) && (pos <=? r_end) && (r_end <=? size (lay (vol d))))
  then raise (OSError (Some EINVAL)) else mret tt.

(** [bisect.bisect_right(a, x)]; [fuel] halvings *)
Fixpoint bisect_loop (fuel : nat) (a : list Z) (x lo hi : Z) : Z :=
  match fuel with
  | O => lo
  | S fuel =>
      if lo <? hi then
        let mid := (lo + hi) / 2 in
        if x <? default 0 (zlookup a mid) then bisect_loop fuel a x lo mid
        else bisect_loop fuel a x (mid + 1) hi
      else lo
  end.
Definition bisect_right (a : list Z) (x : Z) : Z := bisect_loop (S (length a)) a x 0 (zlen a).

(** The value of FAT entry [i] *)
Definition fat_value (v : volume) (i : Z) : Z :=
  if i <? 2 then (if i =? 0 then 0xfffffff8 else 0xffffffff)
  else
    match zlookup (chains v) (bisect_right (chain_starts v) i - 1) with
    | Some (start, length) =>
        if i <? start + length then (if i <? start + length - 1 then i + 1 else 0xffffffff) else 0
    | None => 0
    end.

(** [_fat] *)
Definition fat (v : volume) (offset count : Z) : result bytes :=
  let first := offset / 4 in
  let last := ceil_div (offset + count) 4 in
  data ← struct_result (pack (map (fun i => (fI, fat_value v i)) (seqZ first (last - first))));
  Ok (slice data (offset mod 4) (offset mod 4 + count)).

Definition on_host {A} (m : M Os A) : M device A := fun d =>
  let '(r, o) := m (host d) in (r, d <| host := o |>).

(** [self._handles.pop(path, None)], as the handle and what is left *)
Fixpoint pop_handle (p : str) (hs : list (str * Z)) : option Z * list (str * Z) :=
  match hs with
  | [] => (None, [])
  | (q, h) :: hs =>
      if str_eqb q p then (Some h, hs)
      else let '(r, hs) := pop_handle p hs in (r, (q, h) :: hs)
  end.

(** [while len(self._handles) > 16: self._handles.popitem(last=False)[1].close()] *)
Fixpoint trim_handles (fuel : nat) : M device unit :=
  hs ← mget handles;
  if zlen hs <=? 16 then mret tt
  else match fuel, hs with
  | S fuel, (_, h) :: hs =>
      _ ← mmod (fun d => d <| handles := hs |>);
      _ ← on_host (f_close h);
      trim_handles fuel
  | _, _ => raise Hang
  end.

(** The start of [_file_bytes]: the handle of a file, now the most recently used *)
Definition use_handle (p : str) : M device Z :=
  hs ← mget handles;
  let '(cached, hs) := pop_handle p hs in
  _ ← mmod (fun d => d <| handles := hs |>);
  handle ← match cached with Some h => mret h | None => on_host (os_open p m_rb) end;
  _ ← mmod (fun d => d <| handles ::= fun hs => hs ++ [(p, handle)] |>);
  count_open ← mget (fun d => List.length (handles d));
  _ ← trim_handles count_open;
  mret handle.

(** [_file_bytes] *)
Definition file_bytes (n : node) (offset count : Z) : M device bytes :=
  handle ← use_handle (path n);
  d ← mget id;
  info ← lift (os_fstat handle (host d));
  if negb (bool_decide (identity_of info = identity n)) then raise (OSError (Some ESTALE))
  else
    _ ← on_host (f_seek handle offset 0);
    data ← on_host (f_read handle count);
    if negb (zlen data =? count) then raise (OSError (Some EIO)) else mret data.

(** The bytes [offset, offset + size) of an extent *)
Definition extent_bytes (v : volume) (s : source) (offset size : Z) : M device bytes :=
  match s with
  | Bytes bs => mret (slice bs offset (offset + size))
  | OfNode i =>
      match nodes (lay v) !! i with
      | Some n => if directory n then mret (slice (payload n) offset (offset + size))
                  else file_bytes n offset size
      | None => raise AttributeError
      end
  end.

Definition boot_start : Z := PARTITION * SECTOR.
Definition fat_start : Z := (PARTITION + 24) * SECTOR.
Definition fat_end (v : volume) : Z := fat_start + fat_length (lay v) * SECTOR.
Definition bitmap_start (v : volume) : Z := heap_offset (lay v) (bitmap_cluster (lay v)).
Definition bitmap_end (v : volume) : Z := bitmap_start v + bitmap_length (lay v).

(** Byte [i] of the allocation bitmap *)
Definition bitmap_byte (v : volume) (i : Z) : Z :=
  let full := allocated_clusters (lay v) / 8 in
  let remainder := allocated_clusters (lay v) mod 8 in
  if i <? full then 255 else if i =? full then Z.shiftl 1 remainder - 1 else 0.

(** [min(p for p in boundaries if p > position)], where [stop] is one of them *)
Definition next_boundary (position stop : Z) (boundaries : list Z) : Z :=
  foldr Z.min stop (List.filter (fun p => position <? p) boundaries).

(** The last branch of the loop of [read]: an extent, or zeros up to the next boundary *)
Definition extent_piece (v : volume) (position stop : Z) : M device (Z * bytes) :=
  let i := bisect_right (starts v) position - 1 in
  let extent := match zlookup (extents v) i with
                | Some (start, length, s) => if position <? start + length then Some (start, length, s) else None
                | None => None
                end in
  match extent with
  | Some (start, length, s) =>
      let offset := position - start in
      let size := Z.min (stop - position) (length - offset) in
      data ← extent_bytes v s offset size;
      mret (size, data)
  | None =>
      let size := next_boundary position stop
                    ([boot_start; fat_start; bitmap_start v] ++ slice (starts v) (i + 1) (i + 2)) - position in
      mret (size, zeros size)
  end.

(** The piece one turn of the loop of [read] takes at [position]: its size and bytes *)
Definition read_piece (v : volume) (position stop : Z) : M device (Z * bytes) :=
  if position <? SECTOR then
    let size := Z.min (stop - position) (SECTOR - position) in
    mret (size, slice (mbr v) position (position + size))
  else if (boot_start <=? position) && (position <? boot_start + zlen (boot v)) then
    let offset := position - boot_start in
    let size := Z.min (stop - position) (zlen (boot v) - offset) in
    mret (size, slice (boot v) offset (offset + size))
  else if (fat_start <=? position) && (position <? fat_end v) then
    let size := Z.min (stop - position) (fat_end v - position) in
    data ← lift (fat v (position - fat_start) size);
    mret (size, data)
  else if (bitmap_start v <=? position) && (position <? bitmap_end v) then
    let size := Z.min (stop - position) (bitmap_end v - position) in
    let byte := position - bitmap_start v in
    mret (size, map (bitmap_byte v) (seqZ byte size))
  else extent_piece v position stop.

(** The loop of [read] up to [stop] *)
Fixpoint read_loop (fuel : nat) (position stop : Z) (pieces : list bytes) : M device (list bytes) :=
  if stop <=? position then mret pieces
  else match fuel with
  | O => raise Hang
  | S fuel =>
      v ← mget vol;
      '(size, data) ← read_piece v position stop;
      read_loop fuel (position + size) stop (pieces ++ [data])
  end.

Definition read (count : Z) : M device bytes :=
  if count <? 0 then raise ValueError
  else
    d ← mget id;
    let limit := default (size (lay (vol d))) (request_end d) in
    let count := Z.min count (limit - position d) in
    let stop := position d + count in
    pieces ← read_loop (Z.to_nat count) (position d) stop [];
    _ ← mmod (fun d => d <| position := stop |>);
    mret (concat pieces).

Definition write (data : bytes) : M device unit := raise (OSError (Some EROFS)).

(** [close]: the handles are closed oldest first, then forgotten. *)
Fixpoint close_handles (hs : list (str * Z)) : M device unit :=
  match hs with
  | [] => mret tt
  | (_, h) :: hs => _ ← on_host (f_close h); close_handles hs
  end.
Definition close : M device unit :=
  hs ← mget handles;
  _ ← close_handles hs;
  mmod (fun d => d <| handles := [] |>).

#[export] Instance exfat_dev : BlockDev device := {|
  bd_read_only := fun _ => true;
  bd_is_raw := fun _ => true;
  bd_sector_count := sector_count;
  bd_seek := seek;
  bd_read := read;
  bd_write := write;
  bd_flush := None
|}.
End upcase.
Arguments device : clear implicits.
