(* ===== verification/ExfatFacts.v ===== *)
(** * The virtual exFAT disk: the layout

    Clusters are handed out once: the bitmap, the up-case table, and every file and
    directory occupy consecutive, disjoint runs inside the cluster heap; the loop that
    sizes the bitmap ends; the metadata regions have the lengths the layout gives them. *)

From S2P Require Import Prelude PyStr HostOs Udpbd RawStorage Exfat.

(** Settles comparisons that [lia] decides. *)
Ltac settle :=
  repeat match goal with
  | |- context [?a <? ?b] => first [rewrite (proj2 (Z.ltb_lt a b)) by lia | rewrite (proj2 (Z.ltb_ge a b)) by lia]
  | |- context [?a <=? ?b] => first [rewrite (proj2 (Z.leb_le a b)) by lia | rewrite (proj2 (Z.leb_gt a b)) by lia]
  end; cbn [andb].

Lemma ceil_div_bounds a b : 0 < b -> b * (ceil_div a b - 1) < a <= b * ceil_div a b.
Proof. intros. unfold ceil_div. Z.to_euclidean_division_equations; nia. Qed.

Lemma ceil_div_nonneg a b : 0 < b -> 0 <= a -> 0 <= ceil_div a b.
Proof. intros. pose proof (ceil_div_bounds a b). nia. Qed.

(** ** The size of the bitmap *)

Section bitmap.
Context (p u : Z).
Definition needed_clusters (b : Z) : Z := ceil_div (ceil_div (Z.max 64 (p + b + u + 16)) 8) CLUSTER.

Lemma solve_bitmap_sound fuel b count bc :
  solve_bitmap fuel p u b = Ok (count, bc) ->
  count = Z.max 64 (p + bc + u + 16) /\ bc = needed_clusters bc.
Proof.
  revert b; induction fuel as [|fuel IH]; intros b; cbn [solve_bitmap]; [done|].
  fold (needed_clusters b). destruct (Z.eqb_spec (needed_clusters b) b) as [E|]; [|apply IH].
  intros [= <- <-]. by rewrite E.
Qed.

(** Growing the bitmap by [d] clusters asks for at most half as many more. *)
Lemma needed_grows b d : 0 <= d ->
  needed_clusters b <= needed_clusters (b + d) /\ 2 * (needed_clusters (b + d) - needed_clusters b) <= d + 1.
Proof. unfold needed_clusters, ceil_div, CLUSTER. intros. Z.to_euclidean_division_equations; lia. Qed.

(** One more cluster cannot ask for one more twice in a row. *)
Lemma needed_settles b :
  needed_clusters (b + 1) = needed_clusters b + 1 -> needed_clusters (b + 2) = needed_clusters (b + 1).
Proof. unfold needed_clusters, ceil_div, CLUSTER. intros. Z.to_euclidean_division_equations; lia. Qed.

Lemma solve_bitmap_step fuel b :
  (needed_clusters b <> b -> exists r, solve_bitmap fuel p u (needed_clusters b) = Ok r) ->
  exists r, solve_bitmap (S fuel) p u b = Ok r.
Proof.
  intros H. cbn [solve_bitmap]. fold (needed_clusters b).
  destruct (Z.eqb_spec (needed_clusters b) b); [by eexists|auto].
Qed.

Lemma solve_bitmap_ends (k : nat) : forall fuel b,
  (k + 3 <= fuel)%nat -> 0 <= needed_clusters b - b <= 2 ^ Z.of_nat k ->
  exists r, solve_bitmap fuel p u b = Ok r.
Proof.
  induction k as [|k IH]; intros [|fuel] b Hf Hb; try lia; apply solve_bitmap_step; intros Hne.
  - change (2 ^ Z.of_nat 0) with 1 in Hb.
    destruct (needed_grows b 1) as [G1 G2]; [lia|]. pose proof (needed_settles b) as G3.
    assert (E0 : needed_clusters b = b + 1) by lia. rewrite E0 in *.
    destruct fuel as [|fuel]; [lia|]. apply solve_bitmap_step; intros Hne1.
    assert (E1 : needed_clusters (b + 1) = b + 2) by lia. rewrite E1 in *.
    destruct fuel as [|fuel]; [lia|]. apply solve_bitmap_step; intros Hne2. lia.
  - rewrite Nat2Z.inj_succ, Z.pow_succ_r in Hb by lia. apply IH; [lia|].
    pose proof (needed_grows b (needed_clusters b - b)) as G.
    replace (b + (needed_clusters b - b)) with (needed_clusters b) in G by lia. lia.
Qed.

Lemma solve_bitmap_total : 0 <= p -> 0 <= u -> exists r, solve_bitmap (bitmap_fuel p u) p u 1 = Ok r.
Proof.
  intros Hp Hu. apply (solve_bitmap_ends (Z.to_nat (Z.log2 (64 + p + u)))); [unfold bitmap_fuel; lia|].
  rewrite Z2Nat.id by apply Z.log2_nonneg.
  destruct (Z.log2_spec (64 + p + u)) as [_ L]; [lia|].
  rewrite Z.pow_succ_r in L by apply Z.log2_nonneg.
  unfold needed_clusters, ceil_div, CLUSTER. Z.to_euclidean_division_equations; lia.
Qed.
End bitmap.

(** ** Sizes and clusters of the nodes *)

Definition total (ns : list node) : Z := foldr Z.add 0 (map clusters ns).

Lemma total_app a b : total (a ++ b) = total a + total b.
Proof. unfold total. induction a as [|n a IH]; cbn; [done|]. rewrite IH. lia. Qed.

Lemma total_nonneg ns : Forall (fun n => 0 <= clusters n) ns -> 0 <= total ns.
Proof. unfold total. induction 1; cbn; lia. Qed.

(** What [size_nodes] makes of node [n] at position [k] of the inventory [ns] *)
Definition sized (ns : list node) (k : nat) (n n' : node) : Prop :=
  exists s, n' = n <| node_size := s |> <| clusters := ceil_div s CLUSTER |> /\
    if directory n
    then exists e, child_entries (child_nodes ns n) = Ok e /\ s = ((match k with O => 3 | _ => 0 end) + e + 1) * 32
    else s = node_size n.

Lemma size_nodes_spec ns l : forall i l', size_nodes ns i l = Ok l' ->
  length l' = length l /\
  forall j n', l' !! j = Some n' -> exists n, l !! j = Some n /\ sized ns (i + j) n n'.
Proof.
  induction l as [|n l IH]; intros i l' H; cbn [size_nodes] in H; [by injection H as <-|].
  bind_inv H. bind_inv H. injection H as <-. destruct (IH _ _ E0) as [IHl IHn]. split; [cbn; lia|].
  intros [|j] n' Hj; cbn in Hj.
  - injection Hj as <-. exists n. split; [done|]. rewrite Nat.add_0_r. unfold sized.
    destruct (directory n).
    + bind_inv E. injection E as <-. eexists; split; [reflexivity|]. eexists; split; reflexivity.
    + injection E as <-. exists (node_size n). split; [by destruct n|done].
  - destruct (IHn _ _ Hj) as (m & ? & Hm). exists m. split; [done|]. by rewrite Nat.add_succ_r.
Qed.

Lemma assign_clusters_spec l : forall next l' last, assign_clusters next l = (l', last) ->
  last = next + total l /\ length l' = length l /\
  forall j n', l' !! j = Some n' -> exists n, l !! j = Some n /\
    n' = n <| cluster := if clusters n =? 0 then 0 else next + total (take j l) |>.
Proof.
  induction l as [|n l IH]; intros next l' last; cbn [assign_clusters].
  { intros [= <- <-]. change (total []) with 0. split_and!; [lia|done|done]. }
  destruct (assign_clusters (next + clusters n) l) as [l1 last1] eqn:E.
  intros [= <- <-]. destruct (IH _ _ _ E) as (-> & Hl & Hn).
  change (total (n :: l)) with (clusters n + total l). split_and!; [lia|cbn; lia|].
  intros [|j] n' Hj; cbn in Hj.
  - injection Hj as <-. exists n. split; [done|]. change (total (take 0 (n :: l))) with 0. by rewrite Z.add_0_r.
  - destruct (Hn _ _ Hj) as (m & ? & ->). exists m. split; [done|].
    change (total (take (S j) (n :: l))) with (clusters n + total (take j l)). by rewrite Z.add_assoc.
Qed.

Lemma child_entries_nonneg cs e : child_entries cs = Ok e -> 0 <= e.
Proof.
  revert e; induction cs as [|c cs IH]; intros e H; cbn [child_entries] in H; [by injection H as <-|].
  bind_inv H. bind_inv H. injection H as <-. specialize (IH _ eq_refl).
  pose proof (ceil_div_nonneg (zlen a) 15). pose proof (zlen_nonneg a). lia.
Qed.

(** Same node up to size, cluster, number of clusters and payload *)
Definition same_entry (n n' : node) : Prop :=
  path n' = path n /\ directory n' = directory n /\ identity n' = identity n /\ children n' = children n.

(** The layout in terms of the inventory [ns] and the length of the up-case table *)
Record layout_ok (ns : list node) (upcase_len : Z) (l : layout) : Prop := {
  lo_bitmap_cluster : bitmap_cluster l = 2;
  lo_bitmap_clusters : 1 <= bitmap_clusters l;
  lo_bitmap_length : bitmap_length l = ceil_div (cluster_count l) 8;
  lo_bitmap_fits : bitmap_length l <= bitmap_clusters l * CLUSTER;
  lo_upcase_cluster : upcase_cluster l = 2 + bitmap_clusters l;
  lo_upcase_clusters : upcase_clusters l = ceil_div upcase_len CLUSTER;
  lo_allocated : allocated_clusters l = bitmap_clusters l + upcase_clusters l + total (nodes l);
  lo_free : allocated_clusters l + 16 <= cluster_count l;
  lo_count : 64 <= cluster_count l;
  lo_fat : 4 * (cluster_count l + 2) <= fat_length l * SECTOR;
  lo_heap : 24 + fat_length l <= heap_sector l;
  lo_sectors : volume_sectors l = heap_sector l + cluster_count l * 64;
  lo_size : size l = (PARTITION + volume_sectors l) * SECTOR;
  lo_width : PARTITION + volume_sectors l < 2 ^ 32;
  lo_length : length (nodes l) = length ns;
  lo_nodes : forall i n', nodes l !! i = Some n' -> exists n, ns !! i = Some n /\ same_entry n n' /\
    payload n' = payload n /\ 0 <= node_size n' /\
    (if directory n
     then exists e, child_entries (child_nodes ns n) = Ok e /\
                    node_size n' = ((match i with O => 3 | _ => 0 end) + e + 1) * 32
     else node_size n' = node_size n) /\
    clusters n' = ceil_div (node_size n') CLUSTER /\
    cluster n' = if clusters n' =? 0 then 0 else upcase_cluster l + upcase_clusters l + total (take i (nodes l))
}.

(** The inventory's sizes are those of a host: never negative. *)
Definition sizes_ok (ns : list node) : Prop := Forall (fun n => 0 <= node_size n) ns.

Lemma sized_nonneg ns k n n' : 0 <= node_size n -> sized ns k n n' -> 0 <= node_size n'.
Proof.
  intros Hn (s & -> & Hs). cbn. destruct (directory n).
  - destruct Hs as (e & He%child_entries_nonneg & ->). destruct k; lia.
  - by rewrite Hs.
Qed.

Lemma size_nodes_nonneg ns l : size_nodes ns 0 ns = Ok l -> sizes_ok ns ->
  Forall (fun n => 0 <= node_size n /\ 0 <= clusters n) l.
Proof.
  intros [_ H]%size_nodes_spec Hok. apply Forall_lookup. intros i n' Hi.
  destruct (H _ _ Hi) as (n & Hn & Hs). pose proof (Forall_lookup_1 _ _ _ _ Hok Hn) as Hn0. cbn in Hn0.
  pose proof (sized_nonneg _ _ _ _ Hn0 Hs). split; [done|]. destruct Hs as (s & -> & _). cbn in *.
  apply ceil_div_nonneg; unfold CLUSTER; lia.
Qed.

Lemma assign_total l next l' last : assign_clusters next l = (l', last) ->
  map clusters l' = map clusters l.
Proof.
  revert next l' last; induction l as [|n l IH]; intros next l' last; cbn [assign_clusters].
  { by intros [= <- _]. }
  destruct (assign_clusters (next + clusters n) l) as [l1 last1] eqn:E. intros [= <- <-]. cbn.
  f_equal. eauto.
Qed.

Lemma total_take_assign l l' i : map clusters l' = map clusters l -> total (take i l') = total (take i l).
Proof. intros H. unfold total. rewrite <- !firstn_map. by rewrite H. Qed.

Lemma lay_out_spec ns upcase_len l :
  lay_out ns upcase_len = Ok l -> 0 <= upcase_len -> sizes_ok ns -> layout_ok ns upcase_len l.
Proof.
  intros H Hu Hns. unfold lay_out in H. bind_inv H. rename a into sz, E into Esz.
  fold (total sz) in H. bind_inv H. destruct a as [count bc].
  destruct (assign_clusters _ sz) as [out last] eqn:Eout.
  destruct (_ <? _) eqn:Ew in H; [discriminate|]. injection H as <-. apply Z.ltb_ge in Ew.
  apply solve_bitmap_sound in E as [Ec Eb]. unfold needed_clusters in Eb. rewrite <- Ec in Eb.
  destruct (assign_clusters_spec _ _ _ _ Eout) as (-> & Hlen & Hout).
  destruct (size_nodes_spec _ _ _ _ Esz) as [Hl Hsz].
  pose proof (size_nodes_nonneg _ _ Esz Hns) as Hpos.
  pose proof (assign_total _ _ _ _ Eout) as Etot.
  assert (Et : total out = total sz) by (unfold total; by rewrite Etot).
  assert (Hup : 0 <= ceil_div upcase_len CLUSTER) by (apply ceil_div_nonneg; unfold CLUSTER; lia).
  assert (Ht : 0 <= total sz) by (apply total_nonneg; eapply Forall_impl; [exact Hpos|]; intros ? [_ ?]; done).
  unfold CLUSTER, SECTOR, PARTITION in *.
  pose proof (ceil_div_bounds count 8). pose proof (ceil_div_bounds (ceil_div count 8) 32768).
  constructor; cbn -[total]; rewrite ?Et; unfold CLUSTER, SECTOR, PARTITION; try reflexivity; try lia.
  - pose proof (ceil_div_bounds ((count + 2) * 4) 512). lia.
  - pose proof (ceil_div_bounds (24 + ceil_div ((count + 2) * 4) 512) 64). lia.
  - rewrite Z.div_mul in Ew by lia. lia.
  - intros i n' Hi. destruct (Hout _ _ Hi) as (m & Hm & ->). destruct (Hsz _ _ Hm) as (n & Hn & Hs).
    exists n. pose proof (Forall_lookup_1 _ _ _ _ Hpos Hm) as [? ?]. rewrite Nat.add_0_l in Hs.
    rewrite (total_take_assign _ _ i Etot).
    destruct Hs as (s & -> & Hs). cbn in *. split_and!; try done.
Qed.


(** ** Who owns a cluster *)

Inductive owner := O_bitmap | O_upcase | O_node (i : nat).

(** The run of clusters the layout gives to an owner: the first, and how many *)
Definition run_of (l : layout) (o : owner) : option (Z * Z) :=
  match o with
  | O_bitmap => Some (bitmap_cluster l, bitmap_clusters l)
  | O_upcase => Some (upcase_cluster l, upcase_clusters l)
  | O_node i => n ← nodes l !! i; Some (cluster n, clusters n)
  end.

Definition owns (l : layout) (o : owner) (c : Z) : Prop :=
  exists first count, run_of l o = Some (first, count) /\ first <= c < first + count.

Section layout.
Context {ns : list node} {ulen : Z} {l : layout} (Hlo : layout_ok ns ulen l) (Hu : 0 <= ulen).

Lemma clusters_nonneg : Forall (fun n => 0 <= clusters n) (nodes l).
Proof using Hlo.
  apply Forall_lookup. intros i n' Hi. destruct (lo_nodes _ _ _ Hlo _ _ Hi) as (n & _ & _ & _ & ? & _ & -> & _).
  apply ceil_div_nonneg; unfold CLUSTER; lia.
Qed.

Lemma upcase_clusters_nonneg : 0 <= upcase_clusters l.
Proof using Hlo Hu. rewrite (lo_upcase_clusters _ _ _ Hlo). apply ceil_div_nonneg; unfold CLUSTER; lia. Qed.

Definition files_cluster : Z := upcase_cluster l + upcase_clusters l.

(** Where the run of the node at [i] starts, counted from the first node *)
Lemma total_take_S i n : nodes l !! i = Some n -> total (take (S i) (nodes l)) = total (take i (nodes l)) + clusters n.
Proof.
  intros Hi. rewrite (take_S_r _ _ _ Hi), total_app. unfold total at 2. cbn. lia.
Qed.

Lemma total_take_le i j : (i <= j)%nat -> total (take i (nodes l)) <= total (take j (nodes l)).
Proof using Hlo.
  intros Hij. replace j with (i + (j - i))%nat by lia. rewrite <- take_take_drop, total_app.
  pose proof (total_nonneg (take (j - i) (drop i (nodes l)))) as Ht.
  assert (0 <= total (take (j - i) (drop i (nodes l)))); [|lia].
  apply Ht. apply Forall_take, Forall_drop, clusters_nonneg.
Qed.

Lemma node_run i n : nodes l !! i = Some n -> 0 < clusters n ->
  cluster n = files_cluster + total (take i (nodes l)) /\
  cluster n + clusters n <= 2 + allocated_clusters l.
Proof using Hlo.
  intros Hi Hc. destruct (lo_nodes _ _ _ Hlo _ _ Hi) as (m & _ & _ & _ & _ & _ & _ & Hcl).
  rewrite (proj2 (Z.eqb_neq _ _)) in Hcl by lia. split; [exact Hcl|].
  rewrite Hcl, (lo_allocated _ _ _ Hlo), (lo_upcase_cluster _ _ _ Hlo).
  pose proof (total_take_S _ _ Hi). pose proof (lookup_lt_Some _ _ _ Hi).
  pose proof (total_take_le (S i) (length (nodes l))) as Ht. rewrite firstn_all in Ht.
  specialize (Ht ltac:(lia)). lia.
Qed.

(** The node whose run holds the [k]-th cluster after the up-case table *)
Lemma find_run ms k : 0 <= k < total ms ->
  exists i n, ms !! i = Some n /\ total (take i ms) <= k < total (take i ms) + clusters n.
Proof.
  revert k; induction ms as [|n ms IH]; intros k Hk; [unfold total in Hk; cbn in Hk; lia|].
  change (total (n :: ms)) with (clusters n + total ms) in Hk.
  destruct (Z.lt_ge_cases k (clusters n)).
  - exists O, n. split; [done|]. change (total (take 0 (n :: ms))) with 0. lia.
  - destruct (IH (k - clusters n)) as (i & m & Hi & Hr); [lia|]. exists (S i), m. split; [done|].
    change (total (take (S i) (n :: ms))) with (clusters n + total (take i ms)). lia.
Qed.

(** Runs of different nodes do not meet. *)
Lemma node_runs_apart i j n m c :
  (i < j)%nat -> nodes l !! i = Some n -> nodes l !! j = Some m ->
  cluster n <= c < cluster n + clusters n -> cluster m <= c < cluster m + clusters m -> False.
Proof using Hlo.
  intros Hij Hi Hj H1 H2. destruct (node_run _ _ Hi) as [E1 _]; [lia|]. destruct (node_run _ _ Hj) as [E2 _]; [lia|].
  pose proof (total_take_le (S i) j ltac:(lia)) as Ht. rewrite (total_take_S _ _ Hi) in Ht. lia.
Qed.
End layout.

Lemma owner_before ns ulen l o c :
  layout_ok ns ulen l -> 0 <= ulen -> owns l o c ->
  (c < upcase_cluster l \/ upcase_cluster l <= c < files_cluster (l := l)) ->
  o = if c <? upcase_cluster l then O_bitmap else O_upcase.
Proof.
  intros L Hu (first & count & Ho & Hr) Hc.
  pose proof (lo_bitmap_cluster _ _ _ L). pose proof (lo_upcase_cluster _ _ _ L).
  pose proof (upcase_clusters_nonneg L Hu). destruct o as [| |i]; cbn in Ho.
  - injection Ho as <- <-. by rewrite (proj2 (Z.ltb_lt _ _)) by lia.
  - injection Ho as <- <-. by rewrite (proj2 (Z.ltb_ge _ _)) by lia.
  - destruct (nodes l !! i) as [n|] eqn:Hi; cbn in Ho; [|done]. injection Ho as <- <-.
    destruct (node_run L _ _ Hi) as [E _]; [lia|]. pose proof (total_take_le L 0 i ltac:(lia)) as Hpre.
    change (total (take 0 (nodes l))) with 0 in Hpre. unfold files_cluster in *. lia.
Qed.

Lemma owner_files ns ulen l o i c :
  layout_ok ns ulen l -> 0 <= ulen -> files_cluster (l := l) <= c -> owns l (O_node i) c -> owns l o c -> o = O_node i.
Proof.
  intros L Hu Hc (f1 & c1 & H1 & R1) (f2 & c2 & H2 & R2). cbn in H1.
  destruct (nodes l !! i) as [n|] eqn:Hi; cbn in H1; [|done]. injection H1 as <- <-.
  pose proof (lo_bitmap_cluster _ _ _ L). pose proof (lo_upcase_cluster _ _ _ L).
  pose proof (upcase_clusters_nonneg L Hu). unfold files_cluster in *. destruct o as [| |j]; cbn in H2.
  - injection H2 as <- <-. lia.
  - injection H2 as <- <-. lia.
  - destruct (nodes l !! j) as [m|] eqn:Hj; cbn in H2; [|done]. injection H2 as <- <-.
    destruct (Nat.lt_trichotomy i j) as [Hlt|[->|Hlt]]; [|done|]; exfalso; eapply (node_runs_apart L); eauto.
Qed.

Lemma owner_exists ns ulen l c : layout_ok ns ulen l -> 0 <= ulen -> 2 <= c < 2 + allocated_clusters l ->
  exists o, owns l o c /\ forall o', owns l o' c -> o' = o.
Proof.
  intros L Hu Hc. pose proof (upcase_clusters_nonneg L Hu) as Hup.
  pose proof (lo_allocated _ _ _ L) as La. pose proof (lo_upcase_cluster _ _ _ L) as Lu.
  pose proof (lo_bitmap_cluster _ _ _ L) as Lb.
  destruct (Z.lt_ge_cases c (upcase_cluster l)); [|destruct (Z.lt_ge_cases c (files_cluster (l := l)))].
  - exists O_bitmap. split; [eexists _, _; split; [reflexivity|lia]|]. intros o' Ho.
    rewrite (owner_before _ _ _ _ _ L Hu Ho) by lia. by rewrite (proj2 (Z.ltb_lt _ _)) by lia.
  - exists O_upcase. split; [eexists _, _; split; [reflexivity|unfold files_cluster in *; lia]|].
    intros o' Ho. rewrite (owner_before _ _ _ _ _ L Hu Ho) by lia. by rewrite (proj2 (Z.ltb_ge _ _)) by lia.
  - destruct (find_run (nodes l) (c - files_cluster (l := l))) as (i & n & Hi & Hr).
    { unfold files_cluster in *. lia. }
    destruct (node_run L _ _ Hi) as [E _]; [lia|].
    assert (Hown : owns l (O_node i) c).
    { exists (cluster n), (clusters n). cbn. rewrite Hi. split; [done|]. lia. }
    exists (O_node i). split; [done|]. intros o' Ho. eapply owner_files; eauto.
Qed.

Lemma owner_allocated ns ulen l o c : layout_ok ns ulen l -> 0 <= ulen -> owns l o c -> 2 <= c < 2 + allocated_clusters l.
Proof.
  intros L Hu (first & count & Ho & Hc). pose proof (upcase_clusters_nonneg L Hu) as Hup.
  pose proof (total_nonneg _ (clusters_nonneg L)) as Ht.
  pose proof (lo_allocated _ _ _ L) as La. pose proof (lo_upcase_cluster _ _ _ L) as Lu.
  pose proof (lo_bitmap_cluster _ _ _ L) as Lb. pose proof (lo_bitmap_clusters _ _ _ L) as Lbc.
  destruct o as [| |i]; cbn in Ho.
  - injection Ho as <- <-. lia.
  - injection Ho as <- <-. lia.
  - destruct (nodes l !! i) as [n|] eqn:Hi; cbn in Ho; [|done]. injection Ho as <- <-.
    destruct (node_run L _ _ Hi) as [E ?]; [lia|]. pose proof (total_take_le L 0 i ltac:(lia)) as Hpre.
    change (total (take 0 (nodes l))) with 0 in Hpre. unfold files_cluster in *. lia.
Qed.

(** Every allocated cluster has exactly one owner, and no owner has a cluster
    outside the allocated part of the heap, which leaves at least 16 clusters free; each
    run is large enough for what it holds. *)
Theorem clusters_owned_once ns ulen l :
  lay_out ns ulen = Ok l -> 0 <= ulen -> sizes_ok ns ->
  (forall c, 2 <= c < 2 + allocated_clusters l -> exists o, owns l o c /\ forall o', owns l o' c -> o' = o) /\
  (forall o c, owns l o c -> 2 <= c < 2 + allocated_clusters l) /\
  allocated_clusters l + 16 <= cluster_count l /\
  cluster_count l <= 8 * bitmap_length l <= 8 * (bitmap_clusters l * CLUSTER) /\
  ulen <= upcase_clusters l * CLUSTER /\
  Forall (fun n => node_size n <= clusters n * CLUSTER) (nodes l).
Proof.
  intros H Hu Hns. pose proof (lay_out_spec _ _ _ H Hu Hns) as L.
  split_and!.
  - intros c. by apply (owner_exists _ _ _ _ L).
  - intros o c. by apply (owner_allocated _ _ _ _ _ L).
  - apply (lo_free _ _ _ L).
  - pose proof (ceil_div_bounds (cluster_count l) 8). rewrite (lo_bitmap_length _ _ _ L). lia.
  - pose proof (lo_bitmap_fits _ _ _ L). lia.
  - pose proof (ceil_div_bounds ulen CLUSTER). rewrite (lo_upcase_clusters _ _ _ L). unfold CLUSTER in *. lia.
  - apply Forall_lookup. intros i n' Hi. destruct (lo_nodes _ _ _ L _ _ Hi) as (n & _ & _ & _ & ? & _ & -> & _).
    pose proof (ceil_div_bounds (node_size n') CLUSTER). unfold CLUSTER in *. lia.
Qed.
