(* ===== verification/ExfatDirFacts.v ===== *)
(** * The virtual exFAT disk: directories and the up-case table

    A reader of exFAT directories, written from the format and not from the generator,
    finds in a generated directory exactly the children of its node: their names,
    attributes, first clusters and lengths, with every checksum right by the arithmetic of
    the format.  The compressed
    up-case table expands to the table. *)

From S2P Require Import Prelude PyStr HostOs Udpbd RawStorage Exfat ExfatFacts.

(** ** Writing into a buffer *)

Lemma zlen_put off d b : 0 <= off -> off + zlen d <= zlen b -> zlen (put off d b) = zlen b.
Proof.
  intros. unfold put. rewrite !zlen_app, zlen_ztake, zlen_zdrop. pose proof (zlen_nonneg d). lia.
Qed.

(** Writing over [m] in the middle *)
Lemma put_mid off a m b d : off = zlen a -> zlen m = zlen d -> put off d (a ++ m ++ b) = a ++ d ++ b.
Proof.
  intros -> E. unfold put. rewrite ztake_app_length by done. f_equal. f_equal.
  rewrite app_assoc. apply zdrop_app_length. rewrite zlen_app. lia.
Qed.

Lemma zeros_split n m : 0 <= n -> 0 <= m -> zeros (n + m) = zeros n ++ zeros m.
Proof. intros. unfold zeros. rewrite Z2Nat.inj_add by done. by rewrite replicate_add. Qed.

(** Writing into the zeros after what was written so far *)
Lemma put_blank off a n d : zlen a <= off -> off + zlen d <= zlen a + n ->
  put off d (a ++ zeros n) = (a ++ zeros (off - zlen a) ++ d) ++ zeros (n - (off - zlen a) - zlen d).
Proof.
  intros. pose proof (zlen_nonneg d). pose proof (zlen_nonneg a).
  replace n with ((off - zlen a) + (zlen d + (n - (off - zlen a) - zlen d))) at 1 by lia.
  rewrite !zeros_split by lia. rewrite app_assoc, put_mid.
  - by rewrite <- !app_assoc.
  - rewrite zlen_app, zlen_zeros. lia.
  - rewrite zlen_zeros. lia.
Qed.

Lemma put_first n d : zlen d <= n -> put 0 d (zeros n) = d ++ zeros (n - zlen d).
Proof.
  intros. pose proof (zlen_nonneg d). replace n with (zlen d + (n - zlen d)) at 1 by lia.
  rewrite zeros_split by lia. apply (put_mid 0 [] (zeros (zlen d))); [done|]. rewrite zlen_zeros. lia.
Qed.

Lemma zlen_le_bytes n v : zlen (le_bytes n v) = Z.of_nat n.
Proof. unfold zlen. by rewrite length_le_bytes. Qed.


Create Rewrite HintDb zlen.
#[export] Hint Rewrite @zlen_app @zlen_zeros zlen_le_bytes @zlen_cons @zlen_nil : zlen.

(** [put]s at increasing offsets into a blank buffer, as a concatenation *)
Ltac blank := rewrite put_blank by (autorewrite with zlen; lia).

(** ** The entries of a child *)

Lemma pack1 f v bs : pack [(f, v)] = Some bs -> fits f v = true /\ bs = le_bytes (fsize f) v.
Proof. cbn. destruct (fits f v); cbn; [|done]. intros [= <-]. by rewrite app_nil_r. Qed.

Lemma pack2 f v g w bs : pack [(f, v); (g, w)] = Some bs ->
  fits f v = true /\ fits g w = true /\ bs = le_bytes (fsize f) v ++ le_bytes (fsize g) w.
Proof.
  cbn. destruct (fits f v); cbn; [|done]. destruct (fits g w); cbn; [|done].
  intros [= <-]. by rewrite app_nil_r.
Qed.


Lemma struct_ok {A} (o : option A) a : struct_result o = Ok a -> o = Some a.
Proof. destruct o; cbn; [by intros [= <-]|done]. Qed.

(** The primary entry, with [cs] in its checksum field *)
Definition primary_form (child : node) (units : list Z) (cs : bytes) : bytes :=
  [0x85; 1 + ceil_div (zlen units) 15] ++ cs ++ le_bytes 2 (if directory child then 0x10 else 0x20)
  ++ zeros 2 ++ (le_bytes 4 0x210000 ++ le_bytes 4 0x210000 ++ le_bytes 4 0x210000) ++ zeros 12.

(** The length and the flags the stream entry gives *)
Definition stream_length (child : node) : Z :=
  if directory child then clusters child * CLUSTER else node_size child.

Definition stream_flags (child : node) : Z := if directory child || (clusters child =? 0) then 1 else 3.

(** The checksum of an up-cased name *)
Definition name_hash (py_upper : Z -> list Z) (units : list Z) : Z :=
  checksum (concat (map (le_bytes 2) (map (upper py_upper) units))) 16 [].

Definition stream_form (py_upper : Z -> list Z) (child : node) (units : list Z) : bytes :=
  [0xc0; stream_flags child; 0; zlen units] ++ le_bytes 2 (name_hash py_upper units) ++ zeros 2
  ++ le_bytes 8 (stream_length child) ++ zeros 4 ++ le_bytes 4 (cluster child) ++ le_bytes 8 (stream_length child).

Lemma pack_units_spec us bs : pack_units us = Ok bs ->
  bs = concat (map (le_bytes 2) us) /\ Forall (fun u => 0 <= u < 65536) us.
Proof.
  unfold pack_units. intros H%struct_ok. revert bs H; induction us as [|u us IH]; intros bs.
  { intros [= <-]. by split; [|constructor]. }
  cbn [map pack]. destruct (fits fH u) eqn:Hf; [|done]. destruct (pack _) as [r|]; cbn; [|done].
  intros [= <-]. destruct (IH r eq_refl) as [-> ?]. split; [done|]. constructor; [|done].
  apply (fits_nonneg 2) in Hf. by change (256 ^ Z.of_nat 2) with 65536 in Hf.
Qed.

Lemma primary_entry_form c units : primary_entry c units = primary_form c units (zeros 2).
Proof.
  unfold primary_entry, primary_form. generalize (1 + ceil_div (zlen units) 15) as k; intros k.
  by destruct (directory c).
Qed.

Lemma stream_entry_form py_upper c units bs : stream_entry py_upper c units = Ok bs ->
  bs = stream_form py_upper c units /\ fits fQ (stream_length c) = true /\ fits fI (cluster c) = true.
Proof.
  unfold stream_entry. fold (stream_length c) (stream_flags c). intros H.
  bind_inv H. apply pack_units_spec in E as [-> _]. fold (name_hash py_upper units) in H.
  bind_inv H. apply struct_ok, pack1 in E as [Hq ->].
  bind_inv H. apply struct_ok, pack2 in E as (Hc & _ & ->).
  apply Ok_inj in H as <-. split_and!; [|done..].
  unfold stream_form. generalize (name_hash py_upper units) (stream_length c) (stream_flags c) (cluster c).
  reflexivity.
Qed.

Lemma child_group_form py_upper c g : child_group py_upper c = Ok g ->
  exists units sec, name_units (node_name c) = Ok units /\ name_entries (length units) units = Ok sec /\
    fits fQ (stream_length c) = true /\ fits fI (cluster c) = true /\
    let body := stream_form py_upper c units ++ sec in
    g = primary_form c units (le_bytes 2 (checksum (primary_form c units (zeros 2) ++ body) 16 [2; 3])) ++ body.
Proof.
  intros H. unfold child_group in H.
  bind_inv H. rename a into units. bind_inv H. apply stream_entry_form in E0 as (-> & Hq & Hc).
  bind_inv H. rename a into sec. apply Ok_inj in H as <-. exists units, sec. by split_and!.
Qed.

(** ** Lengths *)

(** One [0xc1] entry *)
Definition name_entry (chunk : list Z) : bytes :=
  [0xc1; 0] ++ concat (map (le_bytes 2) chunk) ++ zeros (30 - 2 * zlen chunk).

Lemma zlen_units us : zlen (concat (map (le_bytes 2) us)) = 2 * zlen us.
Proof. induction us as [|u us IH]; [done|]. cbn [map concat]. rewrite zlen_app, zlen_le_bytes, IH, zlen_cons. lia. Qed.

Lemma name_entries_cons fuel us sec : us <> [] -> name_entries (S fuel) us = Ok sec ->
  exists rest, name_entries fuel (drop 15 us) = Ok rest /\ sec = name_entry (take 15 us) ++ rest /\
    Forall (fun u => 0 <= u < 65536) (take 15 us).
Proof.
  intros Hne H. destruct us as [|u us]; [done|]. cbn [name_entries] in H.
  bind_inv H. apply pack_units_spec in E as [-> Hu]. bind_inv H. apply Ok_inj in H as <-.
  eexists. split; [reflexivity|]. split; [|done]. f_equal. unfold name_entry.
  change (put 0 [193] (zeros 32)) with ([193] ++ zeros 31).
  assert (zlen (take 15 (u :: us)) <= 15) by (unfold zlen; rewrite length_take; lia).
  rewrite put_blank by (change (zlen [193]) with 1; rewrite ?zlen_units; lia).
  rewrite zlen_units. change (zlen [193]) with 1. rewrite <- !app_assoc.
  change (zeros (2 - 1)) with [0]. cbn [app]. by do 4 f_equal.
Qed.

Lemma zlen_name_entry chunk : zlen chunk <= 15 -> zlen (name_entry chunk) = 32.
Proof. intros. unfold name_entry. rewrite !zlen_app, zlen_units, zlen_zeros. unfold zlen at 1. cbn. lia. Qed.

Lemma ceil_div_chunk n : 0 < n -> ceil_div n 15 = 1 + ceil_div (n - Z.min 15 n) 15.
Proof. intros. unfold ceil_div. Z.to_euclidean_division_equations; lia. Qed.

Lemma zlen_name_entries fuel : forall us sec, (length us <= fuel)%nat ->
  name_entries fuel us = Ok sec -> zlen sec = 32 * ceil_div (zlen us) 15.
Proof.
  induction fuel as [|fuel IH]; intros us sec Hf H.
  { destruct us; [|cbn in Hf; lia]. by apply Ok_inj in H as <-. }
  destruct us as [|u us]; [by apply Ok_inj in H as <-|].
  apply name_entries_cons in H as (rest & Hr & -> & _); [|done]. apply IH in Hr.
  2: { rewrite length_drop. cbn in *. lia. }
  rewrite zlen_app, zlen_name_entry, Hr by (unfold zlen; rewrite length_take; lia).
  rewrite (ceil_div_chunk (zlen (u :: us))) by (rewrite zlen_cons; pose proof (zlen_nonneg us); lia).
  replace (zlen (drop 15 (u :: us))) with (zlen (u :: us) - Z.min 15 (zlen (u :: us))); [lia|].
  unfold zlen. rewrite length_drop. lia.
Qed.

Lemma zlen_primary_form c units v : zlen (primary_form c units (le_bytes 2 v)) = 32.
Proof. unfold primary_form. by destruct (directory c). Qed.

Lemma zlen_stream_form py_upper c units : zlen (stream_form py_upper c units) = 32.
Proof. done. Qed.

Lemma zlen_child_groups py_upper cs : forall e gs,
  child_entries cs = Ok e -> child_groups py_upper cs = Ok gs -> zlen gs = 32 * e.
Proof.
  induction cs as [|c cs IH]; intros e gs He Hg; cbn [child_entries child_groups] in *.
  { apply Ok_inj in He as <-. by apply Ok_inj in Hg as <-. }
  bind_inv Hg. rename a into g. apply child_group_form in E as (units & sec & Hu & Hs & _ & _ & ->).
  rewrite Hu in He. cbn [mbind result_bind] in He. bind_inv He. apply Ok_inj in He as <-.
  bind_inv Hg. apply Ok_inj in Hg as <-.
  apply zlen_name_entries in Hs; [|done]. rewrite !zlen_app, zlen_primary_form, zlen_stream_form, Hs.
  rewrite (IH _ _ eq_refl eq_refl). lia.
Qed.

Lemma zlen_root_entries l up bs : root_entries l up = Ok bs -> zlen bs = 96.
Proof.
  unfold root_entries. intros H. bind_inv H. apply struct_ok, pack2 in E as (_ & _ & ->).
  bind_inv H. apply struct_ok, pack2 in E as (_ & _ & ->). by apply Ok_inj in H as <-.
Qed.

(** The generated bytes fill the size the layout computed for the directory. *)
Lemma zlen_directory_bytes py_upper l up i n e bs :
  child_entries (child_nodes (nodes l) n) = Ok e -> directory_bytes py_upper l up i n = Ok bs ->
  zlen bs = ((match i with O => 3 | _ => 0 end) + e + 1) * 32.
Proof.
  intros He H. unfold directory_bytes in H. bind_inv H. bind_inv H. apply Ok_inj in H as <-.
  rewrite !zlen_app, (zlen_child_groups _ _ _ _ He E0), zlen_zeros. destruct i.
  - rewrite (zlen_root_entries _ _ _ E). lia.
  - apply Ok_inj in E as <-. change (zlen (@nil Z)) with 0. lia.
Qed.

(** ** A reader of exFAT directories *)

(** What a directory says of one entry; [de_contiguous] is the NoFatChain flag. *)
Record dir_entry := DirEntry {
  de_name : list Z;
  de_attributes : Z;
  de_contiguous : bool;
  de_hash : Z;
  de_cluster : Z;
  de_valid_length : Z;
  de_length : Z
}.

(** The checksum of the format, in its own arithmetic: the sum so far is halved, its odd unit
    comes back as the highest bit, and the byte is added modulo [2 ^ 16]. *)
Definition sum16 (s b : Z) : Z := (s / 2 + 32768 * (s mod 2) + b) mod 65536.
Definition format_sum (bs : bytes) : Z := foldl sum16 0 bs.

(** The checksum of an entry set leaves the two bytes out that hold it. *)
Definition set_sum (set : bytes) : Z := format_sum (ztake 2 set ++ zdrop 4 set).

(** The 16-bit units of a byte string *)
Fixpoint units_of (bs : bytes) : list Z :=
  match bs with a :: b :: bs => a + 256 * b :: units_of bs | _ => [] end.

(** The names of [k] consecutive file-name entries, joined *)
Fixpoint read_name (k : nat) (bs : bytes) : option (list Z) :=
  match k with
  | O => Some []
  | S k =>
      if znth bs 0 =? 0xc1 then rest ← read_name k (zdrop 32 bs); Some (units_of (slice bs 2 32) ++ rest)
      else None
  end.

(** A directory entry set: a file entry, a stream extension and the name.  The set
    checksum covers the whole set but its own field. *)
Definition read_set (bs : bytes) : option dir_entry :=
  let set := ztake (32 * (1 + znth bs 1)) bs in
  if negb (zlen set =? 32 * (1 + znth bs 1)) then None
  else if negb (le_int (slice set 2 4) =? set_sum set) then None
  else if negb (znth set 32 =? 0xc0) then None
  else
    name ← read_name (Z.to_nat (znth bs 1 - 1)) (zdrop 64 set);
    Some {| de_name := ztake (znth set 35) name; de_attributes := le_int (slice set 4 6);
            de_contiguous := Z.testbit (znth set 33) 1; de_hash := le_int (slice set 36 38);
            de_cluster := le_int (slice set 52 56); de_valid_length := le_int (slice set 40 48);
            de_length := le_int (slice set 56 64) |}.

(** All entry sets up to the end marker; other entries are skipped. *)
Fixpoint read_directory (fuel : nat) (bs : bytes) : option (list dir_entry) :=
  match fuel with
  | O => None
  | S fuel =>
      if znth bs 0 =? 0 then Some []
      else if znth bs 0 =? 0x85 then
        e ← read_set bs;
        rest ← read_directory fuel (zdrop (32 * (1 + znth bs 1)) bs);
        Some (e :: rest)
      else read_directory fuel (zdrop 32 bs)
  end.

(** What the directory should say of a child; the hash is the checksum of the up-cased name. *)
Definition entry_of (py_upper : Z -> list Z) (c : node) (units : list Z) : dir_entry :=
  {| de_name := units; de_attributes := if directory c then 0x10 else 0x20;
     de_contiguous := negb (directory c) && negb (clusters c =? 0);
     de_hash := format_sum (concat (map (le_bytes 2) (map (upper py_upper) units))); de_cluster := cluster c;
     de_valid_length := stream_length c; de_length := stream_length c |}.

Lemma checksum_step_bound bits v b : 0 <= bits -> 0 <= checksum_step bits v b < 2 ^ bits.
Proof.
  intros. unfold checksum_step. replace (2 ^ bits - 1) with (Z.ones bits) by (rewrite Z.ones_equiv; lia).
  rewrite Z.land_ones by done.
  apply Z.mod_pos_bound. by apply Z.pow_pos_nonneg.
Qed.

Lemma checksum_bound data bits skip : 0 <= bits -> 0 <= checksum data bits skip < 2 ^ bits.
Proof.
  intros Hb. unfold checksum.
  assert (H : forall i v, 0 <= v < 2 ^ bits -> 0 <= checksum_from bits skip i v data < 2 ^ bits).
  { induction data as [|b data IH]; intros i v Hv; cbn [checksum_from]; [done|].
    apply IH. destruct (existsb _ _); [done|by apply checksum_step_bound]. }
  apply H. pose proof (Z.pow_pos_nonneg 2 bits). lia.
Qed.

(** The generator's shifts and masks compute the checksum of the format. *)
Lemma checksum_step_sum v b : 0 <= v < 65536 -> checksum_step 16 v b = sum16 v b.
Proof.
  intros Hv. unfold checksum_step, sum16. change (2 ^ 16 - 1) with (Z.ones 16). rewrite Z.land_ones by lia.
  rewrite Z.shiftr_div_pow2, (land_mask v 1 1) by done. change (2 ^ 1) with 2.
  rewrite lor_shiftl_add by (Z.to_euclidean_division_equations; lia). change (2 ^ 16) with 65536. f_equal. lia.
Qed.

Lemma checksum_from_sum skip data : forall i v, (forall j, j ∈ skip -> j < i) -> 0 <= v < 65536 ->
  checksum_from 16 skip i v data = foldl sum16 v data.
Proof.
  induction data as [|b data IH]; intros i v Hi Hv; [done|]. cbn [checksum_from foldl].
  assert (existsb (Z.eqb i) skip = false) as ->.
  { apply not_true_is_false. intros (j & Hj%list_elem_of_In & ->%Z.eqb_eq)%existsb_exists. specialize (Hi _ Hj). lia. }
  rewrite checksum_step_sum by done. apply IH; [|by apply Z.mod_pos_bound]. intros j Hj. specialize (Hi _ Hj). lia.
Qed.

Lemma name_hash_sum py_upper units :
  name_hash py_upper units = format_sum (concat (map (le_bytes 2) (map (upper py_upper) units))).
Proof. unfold name_hash, checksum, format_sum. apply checksum_from_sum; [by intros j ?%elem_of_nil|done]. Qed.

(** The set checksum does not depend on the field that holds it. *)
Lemma set_checksum_sum a b v w rest :
  checksum ([a; b] ++ le_bytes 2 v ++ rest) 16 [2; 3] = set_sum ([a; b] ++ le_bytes 2 w ++ rest).
Proof.
  change (checksum_from 16 [2; 3] 4 (checksum_step 16 (checksum_step 16 0 a) b) rest = foldl sum16 (sum16 (sum16 0 a) b) rest).
  rewrite (checksum_step_sum 0 a), checksum_step_sum by (done || by apply Z.mod_pos_bound).
  apply checksum_from_sum; [|by apply Z.mod_pos_bound]. intros j. rewrite !elem_of_cons, elem_of_nil. lia.
Qed.

Lemma units_of_app us bs : Forall (fun u => 0 <= u < 65536) us ->
  units_of (concat (map (le_bytes 2) us) ++ bs) = us ++ units_of bs.
Proof.
  induction 1 as [|u us Hu _ IH]; [done|]. cbn [map concat]. rewrite <- app_assoc.
  change (le_bytes 2 u) with [u mod 256; u / 256 mod 256]. cbn [app units_of]. f_equal; [|exact IH].
  Z.to_euclidean_division_equations; lia.
Qed.

(** The entries of a name read back, followed by whatever pads the last one. *)
Lemma read_name_entries fuel : forall us sec rest, (length us <= fuel)%nat -> name_entries fuel us = Ok sec ->
  exists pad, read_name (Z.to_nat (ceil_div (zlen us) 15)) (sec ++ rest) = Some (us ++ pad).
Proof.
  induction fuel as [|fuel IH]; intros us sec rest Hf H.
  { destruct us; [|cbn in Hf; lia]. by exists []. }
  destruct us as [|u us]; [by exists []|]. set (n := zlen (u :: us)).
  assert (Hn : 0 < n) by (unfold n; rewrite zlen_cons; pose proof (zlen_nonneg us); lia).
  apply name_entries_cons in H as (more & Hr & -> & Hu); [|done].
  assert (Hlen : zlen (take 15 (u :: us)) = Z.min 15 n) by (unfold n, zlen; rewrite length_take; lia).
  assert (Hdrop : zlen (drop 15 (u :: us)) = n - Z.min 15 n) by (unfold n, zlen; rewrite length_drop; lia).
  assert (Hf' : (length (drop 15 (u :: us)) <= fuel)%nat) by (rewrite length_drop; lia).
  destruct (IH _ _ rest Hf' Hr) as [pad Hpad].
  rewrite Hdrop in Hpad. pose proof (ceil_div_nonneg (n - Z.min 15 n) 15).
  rewrite (ceil_div_chunk n), Z.add_1_l, Z2Nat.inj_succ by lia. cbn [read_name].
  rewrite <- app_assoc. unfold name_entry at 1. change (znth _ 0) with 193. cbn [Z.eqb Pos.eqb].
  rewrite zdrop_app_length by (rewrite zlen_name_entry; lia). rewrite Hpad. cbn [mbind option_bind].
  unfold slice. rewrite zdrop_app_le by (rewrite zlen_name_entry; lia).
  unfold name_entry. rewrite zdrop_app_length by done.
  rewrite ztake_app_length by (rewrite !zlen_app, zlen_units, zlen_zeros; lia).
  rewrite units_of_app by done.
  destruct (Z.le_gt_cases n 15).
  - rewrite (firstn_all2 (u :: us)) by (unfold n, zlen in *; lia). rewrite <- app_assoc. by eexists.
  - replace (30 - 2 * zlen (take 15 (u :: us))) with 0 by lia. change (zeros 0) with (@nil Z).
    cbn [units_of]. rewrite app_nil_r, app_assoc, take_drop. by eexists.
Qed.

(** A name that passes has 1 to 255 units, none of them forbidden. *)
Lemma name_units_spec name us : name_units name = Ok us ->
  0 < zlen us <= 255 /\ Forall (fun c => 32 <= c /\ c ∉ forbidden_units) us.
Proof.
  unfold name_units. intros H. bind_inv H. destruct (_ || _) eqn:Ew in H; [discriminate|].
  apply Ok_inj in H as <-. rewrite !orb_false_iff, bool_decide_eq_false, Z.ltb_ge in Ew.
  destruct Ew as [[Hne Hl] Hc]. split.
  { destruct a; [done|]. rewrite zlen_cons in *. pose proof (zlen_nonneg a). lia. }
  apply Forall_forall. intros c Hin%list_elem_of_In.
  assert (Hx : (c <? 32) || existsb (Z.eqb c) forbidden_units = false).
  { apply not_true_is_false. intros E'. rewrite (proj2 (existsb_exists _ _)) in Hc; [done|by exists c]. }
  rewrite orb_false_iff, Z.ltb_ge in Hx. destruct Hx as [? Hx]. split; [done|].
  intros Hc'%list_elem_of_In. rewrite (proj2 (existsb_exists _ _)) in Hx; [done|].
  exists c. by rewrite Z.eqb_refl.
Qed.

Section group.
Context (py_upper : Z -> list Z) (c : node) (units : list Z) (sec : bytes) (cs : Z).
Context (Hu : name_units (node_name c) = Ok units) (Hs : name_entries (length units) units = Ok sec).
Context (Hq : fits fQ (stream_length c) = true) (Hc : fits fI (cluster c) = true).

Definition group_form : bytes := primary_form c units (le_bytes 2 cs) ++ stream_form py_upper c units ++ sec.

Lemma group_fields :
  znth group_form 0 = 0x85 /\ znth group_form 1 = 1 + ceil_div (zlen units) 15 /\
  le_int (slice group_form 2 4) = le_int (le_bytes 2 cs) /\
  le_int (slice group_form 4 6) = (if directory c then 0x10 else 0x20) /\
  znth group_form 32 = 0xc0 /\ znth group_form 33 = stream_flags c /\ znth group_form 35 = zlen units /\
  le_int (slice group_form 36 38) = le_int (le_bytes 2 (name_hash py_upper units)) /\
  le_int (slice group_form 40 48) = le_int (le_bytes 8 (stream_length c)) /\
  le_int (slice group_form 52 56) = le_int (le_bytes 4 (cluster c)) /\
  le_int (slice group_form 56 64) = le_int (le_bytes 8 (stream_length c)) /\
  zdrop 64 group_form = sec.
Proof using. unfold group_form, primary_form. destruct (directory c); split_and!; reflexivity. Qed.

Lemma zlen_group : zlen group_form = 32 * (1 + (1 + ceil_div (zlen units) 15)).
Proof using Hs.
  unfold group_form. rewrite !zlen_app, zlen_primary_form, zlen_stream_form.
  apply zlen_name_entries in Hs; [|done]. lia.
Qed.

Lemma read_set_group rest :
  cs = checksum (primary_form c units (zeros 2) ++ stream_form py_upper c units ++ sec) 16 [2; 3] ->
  read_set (group_form ++ rest) = Some (entry_of py_upper c units).
Proof using Hu Hs Hq Hc.
  intros Ecs. destruct group_fields as (F0 & F1 & F2 & F3 & F4 & F5 & F6 & F7 & FV & F8 & F9 & F10).
  assert (E1 : znth (group_form ++ rest) 1 = 1 + ceil_div (zlen units) 15).
  { rewrite <- F1, znth_app by lia. by rewrite (proj2 (Z.ltb_lt _ _)) by (rewrite zlen_group;
      pose proof (ceil_div_nonneg (zlen units) 15); pose proof (zlen_nonneg units); lia). }
  unfold read_set. rewrite E1, ztake_app_length by (by rewrite zlen_group).
  rewrite zlen_group, Z.eqb_refl. cbn [negb].
  assert (Hck : set_sum group_form = cs).
  { rewrite Ecs at 1. unfold group_form, primary_form. rewrite <- !app_assoc.
    symmetry. apply (set_checksum_sum 133 (1 + ceil_div (zlen units) 15) 0 cs). }
  rewrite F2, Hck, le_int_le_bytes, Z.mod_small.
  2: { rewrite Ecs. by apply checksum_bound. }
  rewrite Z.eqb_refl, F4. cbn [negb Z.eqb Pos.eqb].
  replace (1 + ceil_div (zlen units) 15 - 1) with (ceil_div (zlen units) 15) by lia.
  destruct (read_name_entries _ _ _ [] ltac:(reflexivity) Hs) as [pad Hpad]. rewrite app_nil_r in Hpad.
  rewrite F10, Hpad. cbn [mbind option_bind]. unfold entry_of. f_equal.
  rewrite F3, F5, F6, F7, FV, F8, F9, ztake_app_length by done. rewrite !le_int_le_bytes.
  apply fits_nonneg in Hq, Hc. pose proof (checksum_bound _ 16 [] : 0 <= 16 -> 0 <= name_hash py_upper units < _) as Hh.
  rewrite (Z.mod_small (name_hash _ _)), (Z.mod_small (cluster c)), (Z.mod_small (stream_length c));
    [|exact Hq|exact Hc|apply Hh; lia].
  rewrite name_hash_sum. f_equal. unfold stream_flags. by destruct (directory c), (clusters c =? 0).
Qed.
End group.

(** The children's sets, as the reader sees them *)
Fixpoint child_dir_entries (py_upper : Z -> list Z) (cs : list node) : result (list dir_entry) :=
  match cs with
  | [] => Ok []
  | c :: cs =>
      units ← name_units (node_name c);
      rest ← child_dir_entries py_upper cs;
      Ok (entry_of py_upper c units :: rest)
  end.

Lemma read_child_groups py_upper cs : forall gs fuel pad,
  child_groups py_upper cs = Ok gs -> (length cs < fuel)%nat ->
  exists es, child_dir_entries py_upper cs = Ok es /\ read_directory fuel (gs ++ zeros 32 ++ pad) = Some es.
Proof.
  induction cs as [|c cs IH]; intros gs [|fuel] pad Hg Hf; try (cbn in Hf; lia); cbn [child_groups] in Hg.
  { apply Ok_inj in Hg as <-. exists []. done. }
  bind_inv Hg. rename a into g, E into Eg. bind_inv Hg. rename a into gs', E into Egs. apply Ok_inj in Hg as <-.
  destruct (IH gs' fuel pad eq_refl) as (es & Hes & Hr); [cbn in Hf; lia|].
  apply child_group_form in Eg as (units & sec & Hu & Hs & Hq & Hc & Eg). cbv zeta in Eg.
  set (v := checksum _ 16 [2; 3]) in Eg. change (g = group_form py_upper c units sec v) in Eg.
  cbn [child_dir_entries]. rewrite Hu. cbn [mbind result_bind]. rewrite Hes. cbn [mbind result_bind].
  eexists. split; [reflexivity|].
  destruct (group_fields py_upper c units sec v) as (F0 & F1 & _).
  pose proof (zlen_group py_upper c units sec v Hs) as Hl.
  pose proof (ceil_div_nonneg (zlen units) 15). pose proof (zlen_nonneg units).
  assert (Hz : forall i, 0 <= i < 2 -> znth ((g ++ gs') ++ zeros 32 ++ pad) i = znth g i).
  { intros i Hi. rewrite <- app_assoc, znth_app by lia. rewrite Eg. by rewrite (proj2 (Z.ltb_lt _ _)) by lia. }
  cbn [read_directory]. rewrite !Hz by lia. rewrite Eg, F0, F1, <- app_assoc. cbn [Z.eqb Pos.eqb].
  rewrite read_set_group by done. cbn [mbind option_bind].
  rewrite zdrop_app_length by (by rewrite Hl). by rewrite Hr.
Qed.

(** A generated directory reads back, whatever follows it in its clusters: a reader finds
    the children of its node in order, each set with a correct checksum, the name's units,
    its hash, its attributes, first cluster and length, and then the end marker. *)
Theorem directory_readable py_upper l up i n bs :
  directory_bytes py_upper l up i n = Ok bs ->
  exists es, child_dir_entries py_upper (child_nodes (nodes l) n) = Ok es /\
    forall pad, read_directory (length (children n) + 5) (bs ++ pad) = Some es.
Proof.
  unfold directory_bytes. intros H. bind_inv H. bind_inv H. apply Ok_inj in H as <-.
  assert (Hlen : (length (child_nodes (nodes l) n) <= length (children n))%nat).
  { unfold child_nodes. generalize (children n) as cs.
    induction cs as [|j cs IH]; cbn; [lia|]. destruct (nodes l !! j); cbn; lia. }
  destruct (read_child_groups py_upper _ _ (length (children n) + 2) [] E0) as (es & Hes & _); [lia|].
  exists es. split; [done|]. intros pad.
  destruct (read_child_groups py_upper _ _ (length (children n) + 2) pad E0) as (es' & Hes' & Hr); [lia|].
  rewrite Hes in Hes'. apply Ok_inj in Hes' as <-. destruct i as [|i].
  - rewrite <- Hr. unfold root_entries in E. bind_inv E.
    apply struct_ok, pack2 in E1 as (_ & _ & ->). bind_inv E. apply struct_ok, pack2 in E1 as (_ & _ & ->).
    apply Ok_inj in E as <-. replace (length (children n) + 5)%nat with (3 + (length (children n) + 2))%nat by lia.
    rewrite <- !app_assoc. reflexivity.
  - apply Ok_inj in E as <-. cbn [app]. rewrite <- app_assoc.
    destruct (read_child_groups py_upper _ _ (length (children n) + 5) pad E0) as (es' & Hes' & Hr'); [lia|].
    rewrite Hes in Hes'. by apply Ok_inj in Hes' as <-.
Qed.

(** ** The up-case table *)

(** The table a reader expands: after [0xffff], the number of units that stay as they are *)
Fixpoint expand (us : list Z) (c : Z) : list Z :=
  match us with
  | [] => []
  | u :: us =>
      if u =? 65535 then match us with n :: us => seqZ c n ++ expand us (c + n) | [] => [] end
      else u :: expand us (c + 1)
  end.

Section upcase.
Context (py_upper : Z -> list Z).

Lemma run_end_spec fuel c : forall stop, c <= stop -> stop <= 65536 -> stop - c <= 65535 ->
  let e := run_end py_upper fuel c stop in
  stop <= e /\ e <= 65536 /\ e - c <= 65535 /\ forall i, stop <= i < e -> upper py_upper i = i.
Proof.
  induction fuel as [|fuel IH]; intros stop H1 H2 H3; cbn [run_end]; [split_and!; lia|].
  destruct ((stop <? 65536) && (upper py_upper stop =? stop) && (stop - c <? 65535)) eqn:E; [|split_and!; lia].
  rewrite !andb_true_iff, !Z.ltb_lt, Z.eqb_eq in E. destruct E as [[E1 E2] E3].
  destruct (IH (stop + 1)) as (I1 & I2 & I3 & I4); [lia..|]. cbv zeta. split_and!; [lia..|].
  intros i Hi. destruct (decide (i = stop)) as [->|]; [done|]. apply I4. lia.
Qed.

Lemma run_end_first fuel c : upper py_upper c = c -> c < 65536 -> c + 1 <= run_end py_upper (S fuel) c c.
Proof.
  intros Hc Hlt. cbn [run_end]. rewrite Hc, Z.eqb_refl, Z.sub_diag, (proj2 (Z.ltb_lt _ _)) by lia.
  change (0 <? 65535) with true. cbn [andb]. pose proof (run_end_spec fuel c (c + 1)) as H. cbv zeta in H. destruct H as (H1 & _); lia.
Qed.

Lemma map_upper_run c n : (forall i, c <= i < c + n -> upper py_upper i = i) ->
  map (upper py_upper) (seqZ c n) = seqZ c n.
Proof.
  intros H. rewrite <- (map_id (seqZ c n)) at 2. apply map_ext_in.
  intros i Hi%list_elem_of_In%elem_of_seqZ. by apply H.
Qed.

Lemma compress_spec fuel : forall c, 0 <= c <= 65536 -> 65536 - c <= Z.of_nat fuel ->
  upper py_upper 65535 = 65535 -> (forall c, 0 <= c < 65535 -> upper py_upper c <> 65535) ->
  exists us, compress py_upper fuel c = Ok us /\ expand us c = map (upper py_upper) (seqZ c (65536 - c)).
Proof.
  intros c Hc Hf Hlast Hother. revert c Hc Hf. induction fuel as [|fuel IH]; intros c Hc Hf.
  { replace c with 65536 by lia. by exists []. }
  cbn [compress]. destruct (Z.ltb_spec c 65536).
  2: { replace c with 65536 by lia. by exists []. }
  pose proof (run_end_spec (Z.to_nat 65536) c c) as Hrun. cbv zeta in Hrun.
  destruct Hrun as (R1 & R2 & R3 & R4); [lia..|].
  assert (Hstep : c = 65535 -> c + 1 <= run_end py_upper (Z.to_nat 65536) c c).
  { intros ->. apply (run_end_first (Z.to_nat 65535)); [done|lia]. }
  revert R1 R2 R3 R4 Hstep. generalize (run_end py_upper (Z.to_nat 65536) c c) as e. intros e R1 R2 R3 R4 Hstep.
  destruct (_ || _) eqn:Ew.
  - rewrite orb_true_iff, Z.ltb_lt, Z.eqb_eq in Ew.
    destruct (IH e) as (us & -> & Hus); [lia..|]. eexists. split; [reflexivity|]. cbn [expand Z.eqb Pos.eqb].
    replace (c + (e - c)) with e by lia. rewrite Hus.
    replace (65536 - c) with ((e - c) + (65536 - e)) by lia. rewrite seqZ_app, map_app by lia.
    replace (c + (e - c)) with e by lia. f_equal. symmetry. apply map_upper_run. intros; apply R4; lia.
  - rewrite orb_false_iff, Z.ltb_ge, Z.eqb_neq in Ew.
    destruct (IH (c + 1)) as (us & -> & Hus); [lia..|]. eexists. split; [reflexivity|].
    cbn [expand]. rewrite (proj2 (Z.eqb_neq _ _)) by (apply Hother; lia). rewrite Hus.
    rewrite (seqZ_cons c) by lia. cbn [map]. repeat f_equal; lia.
Qed.
End upcase.

(** The compression of the up-case table ends, and a reader expands the result to the
    table the names are compared with. *)
Theorem upcase_roundtrip py_upper :
  upper py_upper 65535 = 65535 -> (forall c, 0 <= c < 65535 -> upper py_upper c <> 65535) ->
  exists us, encoded_upcase py_upper = Ok us /\ expand us 0 = upcase_table py_upper.
Proof. intros. apply (compress_spec py_upper (Z.to_nat 65536) 0); done || lia. Qed.
