(* ===== verification/ExfatReadFacts.v ===== *)
(** * The virtual exFAT disk: reading

    The constructed disk as one function from offsets to bytes, [disk_byte]; every read
    inside the disk returns exactly its bytes, over a host whose files do not change.  The
    FAT describes the clusters of each directory as one chain, the bitmap marks exactly the
    allocated clusters, and the clusters of a file hold its content.  So the disk keeps the
    contract of block devices, and the UDPBD server serves it. *)

From S2P Require Import Prelude PyStr PyText HostOs Udpbd UdpbdFacts RawStorage Exfat ExfatFacts ExfatDirFacts.

(** ** Bisection *)

Definition ascending (a : list Z) : Prop :=
  forall i j x y, (i <= j)%nat -> a !! i = Some x -> a !! j = Some y -> x <= y.

Lemma zlookup_some {A} (l : list A) i : 0 <= i < zlen l -> exists x, zlookup l i = Some x.
Proof.
  intros H. unfold zlookup. rewrite (proj2 (Z.ltb_ge _ _)) by lia.
  apply lookup_lt_is_Some. unfold zlen in H. lia.
Qed.

Lemma zlookup_nat {A} (l : list A) i x : zlookup l i = Some x -> 0 <= i /\ l !! Z.to_nat i = Some x.
Proof. unfold zlookup. destruct (Z.ltb_spec i 0); [done|]. intros; split; [lia|done]. Qed.

(** Where [x] splits [a] *)
Definition splits (a : list Z) (x r : Z) : Prop :=
  0 <= r <= zlen a /\
  (forall k y, zlookup a k = Some y -> k < r -> y <= x) /\
  (forall k y, zlookup a k = Some y -> r <= k -> x < y).

Lemma bisect_loop_spec a x : ascending a -> forall fuel lo hi,
  hi - lo < Z.of_nat fuel -> 0 <= lo -> lo <= hi -> hi <= zlen a ->
  (forall k y, zlookup a k = Some y -> k < lo -> y <= x) ->
  (forall k y, zlookup a k = Some y -> hi <= k -> x < y) ->
  splits a x (bisect_loop fuel a x lo hi).
Proof.
  intros Ha. induction fuel as [|fuel IH]; intros lo hi Hf H0 Hlh Hhi Hlo Hup; [lia|]. cbn [bisect_loop].
  destruct (Z.ltb_spec lo hi).
  2: { replace hi with lo in * by lia. by repeat split. }
  set (mid := (lo + hi) / 2). assert (Hmid : lo <= mid < hi) by (unfold mid; Z.to_euclidean_division_equations; lia).
  destruct (zlookup_some a mid) as [m Hm]; [lia|]. rewrite Hm. change (default 0 (Some m)) with m.
  apply zlookup_nat in Hm as [_ Hm].
  destruct (Z.ltb_spec x m); apply IH; try lia; try done; intros k y Hk Hlt; apply zlookup_nat in Hk as [Hk0 Hk].
  - assert (m <= y); [|lia]. eapply (Ha (Z.to_nat mid) (Z.to_nat k)); [lia|done..].
  - assert (y <= m); [|lia]. eapply (Ha (Z.to_nat k) (Z.to_nat mid)); [lia|done..].
Qed.

(** [bisect.bisect_right]: the number of elements not above [x] *)
Lemma bisect_right_spec a x : ascending a -> splits a x (bisect_right a x).
Proof.
  intros Ha. pose proof (zlen_nonneg a). apply bisect_loop_spec; try done; try lia.
  - unfold zlen. lia.
  - intros k y Hk%zlookup_nat ?. lia.
  - intros k y [Hk0 Hk%lookup_lt_Some]%zlookup_nat Hge. unfold zlen in Hge. lia.
Qed.

(** ** Extents in order *)

(** The extents of a list follow each other from [a] on, none empty. *)
Fixpoint extents_from (a : Z) (es : list (Z * Z * source)) : Prop :=
  match es with
  | [] => True
  | (s, n, _) :: es => a <= s /\ 0 < n /\ extents_from (s + n) es
  end.

Lemma extents_from_le a b es : a <= b -> extents_from b es -> extents_from a es.
Proof. destruct es as [|[[s n] src] es]; cbn; [done|]. intros ? (? & ? & ?). split_and!; [lia|done..]. Qed.

Lemma extents_from_lookup es : forall a i s n src,
  extents_from a es -> es !! i = Some (s, n, src) -> a <= s /\ 0 < n.
Proof.
  induction es as [|[[s0 n0] src0] es IH]; intros a i s n src H Hi; [done|].
  destruct H as (H1 & H2 & H3). destruct i as [|i]; cbn in Hi; [by injection Hi as <- <- _|].
  destruct (IH _ _ _ _ _ H3 Hi). lia.
Qed.

Lemma extents_from_apart es : forall a i j s n src s' n' src', extents_from a es -> (i < j)%nat ->
  es !! i = Some (s, n, src) -> es !! j = Some (s', n', src') -> s + n <= s'.
Proof.
  induction es as [|[[s0 n0] src0] es IH]; intros a i j s n src s' n' src' H Hij Hi Hj; [done|].
  destruct H as (H1 & H2 & H3). destruct j as [|j]; [lia|]. cbn in Hj. destruct i as [|i]; cbn in Hi.
  - injection Hi as <- <- _. by destruct (extents_from_lookup _ _ _ _ _ _ H3 Hj).
  - eapply IH; [exact H3| |done..]. lia.
Qed.

Definition extent_start (e : Z * Z * source) : Z := fst (fst e).

Lemma starts_ascending a es : extents_from a es -> ascending (map extent_start es).
Proof.
  intros H i j x y Hij Hi Hj. change (map extent_start es) with (extent_start <$> es) in *.
  rewrite list_lookup_fmap in Hi, Hj.
  destruct (es !! i) as [[[s n] src]|] eqn:Ei; cbn in Hi; [|done].
  destruct (es !! j) as [[[s' n'] src']|] eqn:Ej; cbn in Hj; [|done].
  unfold extent_start in *. cbn in *. injection Hi as <-. injection Hj as <-.
  destruct (decide (i = j)) as [->|]; [rewrite Ei in Ej; injection Ej; lia|].
  pose proof (extents_from_apart _ _ i j _ _ _ _ _ _ H ltac:(lia) Ei Ej).
  pose proof (extents_from_lookup _ _ _ _ _ _ H Ei). lia.
Qed.

(** The extent that holds offset [p] *)
Fixpoint find_extent (es : list (Z * Z * source)) (p : Z) : option (Z * source) :=
  match es with
  | [] => None
  | (s, n, src) :: es => if (s <=? p) && (p <? s + n) then Some (s, src) else find_extent es p
  end.

Lemma find_extent_none es p :
  (forall i s n src, es !! i = Some (s, n, src) -> s + n <= p \/ p < s) -> find_extent es p = None.
Proof.
  induction es as [|[[s n] src] es IH]; intros H; cbn; [done|].
  specialize (H 0%nat s n src eq_refl) as H0. destruct (Z.leb_spec s p), (Z.ltb_spec p (s + n)); cbn; try lia;
    apply IH; intros i s' n' src' Hi; by apply (H (S i) s' n' src').
Qed.

Lemma find_extent_some es a i s n src p : extents_from a es -> es !! i = Some (s, n, src) ->
  s <= p < s + n -> find_extent es p = Some (s, src).
Proof.
  revert a i; induction es as [|[[s0 n0] src0] es IH]; intros a i H Hi Hp; [done|].
  destruct H as (H1 & H2 & H3). destruct i as [|i]; cbn in Hi.
  - injection Hi as -> -> ->. cbn. rewrite (proj2 (Z.leb_le _ _)), (proj2 (Z.ltb_lt _ _)) by lia. done.
  - destruct (extents_from_lookup _ _ _ _ _ _ H3 Hi). cbn.
    rewrite (proj2 (Z.ltb_ge p (s0 + n0))) by lia. rewrite andb_false_r. eauto.
Qed.

(** ** The constructed disk *)

Lemma sorted_already {A} (leb : A -> A -> bool) l :
  (forall i x y, l !! i = Some x -> l !! S i = Some y -> leb x y = true) -> sorted leb l = l.
Proof.
  induction l as [|x l IH]; intros H; [done|]. unfold sorted in *. cbn [foldr]. rewrite IH.
  2: { intros i; exact (H (S i)). }
  destruct l as [|y l]; [done|]. cbn. by rewrite (H 0%nat x y).
Qed.

(** The extent of the node at position [i], and of the nodes from there on *)
Definition node_extent (l : layout) (i : nat) (n : node) : list (Z * Z * source) :=
  if node_size n =? 0 then [] else [(heap_offset l (cluster n), node_size n, OfNode i)].

Fixpoint extent_list (l : layout) (i : nat) (ns : list node) : list (Z * Z * source) :=
  match ns with
  | [] => []
  | n :: ns => node_extent l i n ++ extent_list l (S i) ns
  end.

(** What [node_extents] makes of a node: directories receive their bytes. *)
Definition filled py_upper (l : layout) (up : bytes) (i : nat) (n n' : node) : Prop :=
  if directory n then exists p, directory_bytes py_upper l up i n = Ok p /\ n' = n <| payload := p |>
  else n' = n.

Lemma node_extents_spec py_upper l up ns : forall i es ns' es',
  node_extents py_upper l up i ns es = Ok (ns', es') ->
  es' = es ++ extent_list l i ns /\ length ns' = length ns /\
  forall j n', ns' !! j = Some n' -> exists n, ns !! j = Some n /\ filled py_upper l up (i + j) n n'.
Proof.
  induction ns as [|n ns IH]; intros i es ns' es' H; cbn [node_extents] in H.
  { injection H as <- <-. cbn. by rewrite app_nil_r. }
  bind_inv H. rename a into m. bind_inv H. destruct a as [ms es1]. injection H as <- <-.
  destruct (IH _ _ _ _ E0) as (-> & Hl & Hn).
  assert (Hm : filled py_upper l up i n m /\ cluster m = cluster n /\ node_size m = node_size n).
  { unfold filled. destruct (directory n).
    - bind_inv E. apply Ok_inj in E as <-. split; [by eexists|done].
    - by apply Ok_inj in E as <-. }
  destruct Hm as (Hm & -> & ->). split_and!.
  - cbn [extent_list]. unfold add_extent, node_extent. destruct (node_size n =? 0); [done|].
    by rewrite <- app_assoc.
  - cbn. lia.
  - intros [|j] n' Hj; cbn in Hj.
    + injection Hj as <-. exists n. by rewrite Nat.add_0_r.
    + destruct (Hn _ _ Hj) as (n0 & ? & ?). exists n0. split; [done|]. by rewrite Nat.add_succ_r.
Qed.

Lemma heap_offset_add l c k : heap_offset l (c + k) = heap_offset l c + k * CLUSTER.
Proof. unfold heap_offset. lia. Qed.

(** Extents of nodes whose runs follow each other from cluster [base] *)
Lemma extent_list_from l ns : forall i base,
  (forall k n, ns !! k = Some n -> 0 <= node_size n /\ clusters n = ceil_div (node_size n) CLUSTER /\
     cluster n = if clusters n =? 0 then 0 else base + total (take k ns)) ->
  extents_from (heap_offset l base) (extent_list l i ns).
Proof.
  induction ns as [|n ns IH]; intros i base H; [done|]. cbn [extent_list].
  destruct (H 0%nat n eq_refl) as (Hs & Hc & Hcl). change (total (take 0 (n :: ns))) with 0 in Hcl.
  pose proof (ceil_div_bounds (node_size n) CLUSTER ltac:(done)) as Hb. rewrite <- Hc in Hb. unfold CLUSTER in Hb.
  assert (Hrest : extents_from (heap_offset l (base + clusters n)) (extent_list l (S i) ns)).
  { apply IH. intros k m Hk. destruct (H (S k) m Hk) as (? & ? & E). split_and!; [done..|].
    rewrite E. change (total (take (S k) (n :: ns))) with (clusters n + total (take k ns)). by rewrite Z.add_assoc. }
  rewrite heap_offset_add in Hrest. unfold CLUSTER in Hrest. unfold node_extent.
  destruct (Z.eqb_spec (node_size n) 0).
  - eapply extents_from_le, Hrest. lia.
  - rewrite (proj2 (Z.eqb_neq _ _)) in Hcl by lia. rewrite Hcl, Z.add_0_r. cbn. split_and!; [lia..|].
    eapply extents_from_le, Hrest. lia.
Qed.

Lemma extents_from_app a es b fs :
  extents_from a es -> extents_from b fs ->
  (a <= b /\ forall i s n src, es !! i = Some (s, n, src) -> s + n <= b) -> extents_from a (es ++ fs).
Proof.
  revert a; induction es as [|[[s n] src] es IH]; intros a Ha Hb [Hab H]; cbn.
  - by eapply extents_from_le.
  - destruct Ha as (? & ? & ?). split_and!; [done..|]. apply IH; [done..|]. split.
    + exact (H 0%nat s n src eq_refl).
    + intros i; exact (H (S i)).
Qed.

(** The bytes of an extent's source are as many as the extent says. *)
Definition source_ok (v : volume) (e : Z * Z * source) : Prop :=
  match e with
  | (_, n, Bytes bs) => zlen bs = n
  | (_, n, OfNode i) => exists nd, nodes (lay v) !! i = Some nd /\ node_size nd = n /\
                          (directory nd = true -> zlen (payload nd) = n)
  end.

(** Chains of clusters in order, each inside the 32-bit range *)
Fixpoint chains_from (a : Z) (cs : list (Z * Z)) : Prop :=
  match cs with
  | [] => True
  | (s, n) :: cs => a <= s /\ 0 < n /\ s + n < 2 ^ 32 /\ chains_from (s + n) cs
  end.

Record vol_ok (v : volume) : Prop := {
  vo_mbr : zlen (mbr v) = SECTOR;
  vo_boot : zlen (boot v) = 24 * SECTOR;
  vo_fat : 0 <= fat_length (lay v) /\ 24 + fat_length (lay v) <= heap_sector (lay v);
  vo_bitmap : bitmap_cluster (lay v) = 2 /\ 0 <= bitmap_length (lay v);
  vo_size : size (lay v) = heap_offset (lay v) (2 + cluster_count (lay v)) /\ 0 <= cluster_count (lay v);
  vo_chains : chains_from 2 (chains v);
  vo_extents : extents_from (bitmap_end v) (extents v);
  vo_sources : Forall (source_ok v) (extents v)
}.

Lemma pair_sorted a cs : chains_from a cs -> forall i x y, cs !! i = Some x -> cs !! S i = Some y -> pair_leb x y = true.
Proof.
  revert a; induction cs as [|[s n] cs IH]; intros a H i x y Hi Hj; [done|].
  destruct H as (H1 & H2 & H3 & H4). destruct i as [|i]; [|exact (IH _ H4 i x y Hi Hj)].
  cbn in Hi, Hj. injection Hi as <-. destruct cs as [|[s' n'] cs]; [done|]. injection Hj as <-.
  cbn in H4. unfold pair_leb. cbn. by rewrite (proj2 (Z.ltb_lt s s')) by lia.
Qed.

Lemma extents_sorted a es : extents_from a es -> forall i x y, es !! i = Some x -> es !! S i = Some y -> extent_leb x y = true.
Proof.
  intros H i [[s n] src] [[s' n'] src'] Hi Hj. unfold extent_leb. cbn. apply Z.leb_le.
  pose proof (extents_from_apart _ _ i (S i) _ _ _ _ _ _ H ltac:(lia) Hi Hj).
  destruct (extents_from_lookup _ _ _ _ _ _ H Hi). lia.
Qed.

Lemma zlen_boot_sectors l root b : boot_sectors l root = Ok b -> zlen b = 11 * SECTOR.
Proof.
  unfold boot_sectors. intros H. bind_inv H. apply struct_ok, length_pack in E. cbn in E. apply Ok_inj in H as <-.
  assert (Ha : zlen a = 49) by (unfold zlen; rewrite E; done).
  set (b0 := put 0 _ _). assert (H0 : zlen b0 = 11 * SECTOR) by done.
  set (b1 := put 64 a b0). assert (H1 : zlen b1 = 11 * SECTOR).
  { unfold b1. rewrite zlen_put; [done|lia|]. rewrite Ha, H0. unfold SECTOR. lia. }
  set (b2 := put 510 _ b1). assert (H2 : zlen b2 = 11 * SECTOR).
  { unfold b2. rewrite zlen_put; [done|lia|]. rewrite H1. done. }
  clearbody b2. assert (Hfold : forall ks b, Forall (fun i => 1 <= i <= 8) ks -> zlen b = 11 * SECTOR ->
    zlen (foldl (fun boot i => put ((i + 1) * SECTOR - 4) (le_bytes 4 0xaa550000) boot) b ks) = 11 * SECTOR).
  { induction ks as [|i ks IH]; intros b Hks Hb; [done|]. apply Forall_cons in Hks as [Hi Hks]. cbn [foldl].
    apply IH; [done|]. rewrite zlen_put; [done|unfold SECTOR; lia|].
    change (zlen (le_bytes 4 2857697280)) with 4. rewrite Hb. unfold SECTOR. lia. }
  apply Hfold; [|done]. apply Forall_forall. intros i Hi%elem_of_seqZ. lia.
Qed.

Lemma zlen_boot_region l root b : boot_region l root = Ok b -> zlen b = 24 * SECTOR.
Proof.
  unfold boot_region. intros H. bind_inv H. apply zlen_boot_sectors in E. apply Ok_inj in H as <-.
  set (crc := checksum _ _ _). rewrite !zlen_app, E. clearbody crc. reflexivity.
Qed.

Lemma zlen_mbr_sector l b : mbr_sector l = Ok b -> zlen b = SECTOR.
Proof. unfold mbr_sector. intros H. bind_inv H. apply struct_ok, pack2 in E as (_ & _ & ->). by apply Ok_inj in H as <-. Qed.

Lemma encoded_nonempty py_upper us : encoded_upcase py_upper = Ok us -> us <> [].
Proof.
  unfold encoded_upcase. destruct (Z.to_nat 65536) as [|fuel] eqn:E; [done|]. clear E. cbn [compress].
  change (0 <? 65536) with true. intros H ->. destruct (_ || _); bind_inv H; discriminate.
Qed.

(** The chains of the directories among nodes whose runs follow each other from [base] *)
Lemma directory_chains ns : forall base,
  (forall k n, ns !! k = Some n -> 0 <= node_size n /\ clusters n = ceil_div (node_size n) CLUSTER /\
     (directory n = true -> 0 < node_size n) /\
     cluster n = if clusters n =? 0 then 0 else base + total (take k ns)) ->
  base + total ns < 2 ^ 32 ->
  chains_from base (map (fun n => (cluster n, clusters n)) (List.filter directory ns)).
Proof.
  induction ns as [|n ns IH]; intros base H Hw; [done|].
  change (total (n :: ns)) with (clusters n + total ns) in Hw.
  destruct (H 0%nat n eq_refl) as (Hs & Hc & Hd & Hcl). change (total (take 0 (n :: ns))) with 0 in Hcl.
  pose proof (ceil_div_bounds (node_size n) CLUSTER ltac:(done)) as Hb. rewrite <- Hc in Hb. unfold CLUSTER in Hb.
  assert (Hrest : chains_from (base + clusters n) (map (fun n => (cluster n, clusters n)) (List.filter directory ns))).
  { apply IH; [|lia]. intros k m Hk. destruct (H (S k) m Hk) as (? & ? & ? & E). split_and!; [done..|].
    rewrite E. change (total (take (S k) (n :: ns))) with (clusters n + total (take k ns)). by rewrite Z.add_assoc. }
  assert (Ht : 0 <= total ns).
  { apply total_nonneg, Forall_lookup. intros k m Hk. destruct (H (S k) m Hk) as (? & -> & _).
    by apply ceil_div_nonneg. }
  assert (Hle : forall a b cs, a <= b -> chains_from b cs -> chains_from a cs).
  { intros a b [|[s m] cs]; cbn; [done|]. intros ? (? & ? & ? & ?). split_and!; [lia|done..]. }
  cbn [List.filter]. destruct (directory n) eqn:Ed; [|eapply Hle; [|exact Hrest]; lia].
  specialize (Hd eq_refl). rewrite (proj2 (Z.eqb_neq _ _)) in Hcl by lia.
  cbn [map chains_from]. rewrite Hcl, Z.add_0_r. split_and!; [lia|lia|lia|done].
Qed.

(** A constructed disk in terms of its inventory: the layout, the generated directories,
    and the extents and chains in order. *)
Record built py_upper (ns : list node) (up : bytes) (l : layout) (v : volume) : Prop := {
  b_layout : layout_ok ns (zlen up) l;
  b_upcase : 0 < zlen up;
  b_lay : exists ms, lay v = l <| nodes := ms |> /\ length ms = length (nodes l);
  b_nodes : forall i n', nodes (lay v) !! i = Some n' -> exists n, nodes l !! i = Some n /\ filled py_upper l up i n n';
  b_extents : extents v = (heap_offset l (upcase_cluster l), zlen up, Bytes up) :: extent_list l 0 (nodes l);
  b_chains : chains v = (bitmap_cluster l, bitmap_clusters l) :: (upcase_cluster l, upcase_clusters l)
                        :: map (fun n => (cluster n, clusters n)) (List.filter directory (nodes l));
  b_mbr : mbr_sector l = Ok (mbr v);
  b_boot : boot_region l (match nodes (lay v) with n :: _ => cluster n | [] => 0 end) = Ok (boot v)
}.

Section build.
Context {py_upper : Z -> list Z} {ns : list node} {up : bytes} {l : layout}.
Context (L : layout_ok ns (zlen up) l) (Hup : 0 < zlen up) (Hns : sizes_ok ns).

Lemma upcase_run : zlen up <= upcase_clusters l * CLUSTER /\ 0 < upcase_clusters l.
Proof using L Hup.
  rewrite (lo_upcase_clusters _ _ _ L). pose proof (ceil_div_bounds (zlen up) CLUSTER ltac:(done)). unfold CLUSTER in *. lia.
Qed.

Lemma layout_nodes k n : nodes l !! k = Some n ->
  0 <= node_size n /\ clusters n = ceil_div (node_size n) CLUSTER /\ (directory n = true -> 0 < node_size n) /\
  cluster n = if clusters n =? 0 then 0 else files_cluster (l := l) + total (take k (nodes l)).
Proof using L.
  intros Hk. destruct (lo_nodes _ _ _ L _ _ Hk) as (m & _ & (_ & Hd & _) & _ & Hs & Hsz & Hc & Hcl).
  split_and!; [done..| |exact Hcl]. rewrite Hd. intros E. rewrite E in Hsz.
  destruct Hsz as (e & He%child_entries_nonneg & ->). destruct k; lia.
Qed.

Lemma layout_extents :
  extents_from (heap_offset l (bitmap_cluster l) + bitmap_length l)
    ((heap_offset l (upcase_cluster l), zlen up, Bytes up) :: extent_list l 0 (nodes l)).
Proof using L Hup.
  pose proof (lo_bitmap_fits _ _ _ L). destruct upcase_run as [Hr _]. cbn [extents_from]. split_and!; [|done|].
  - rewrite (lo_upcase_cluster _ _ _ L), (lo_bitmap_cluster _ _ _ L), heap_offset_add. lia.
  - eapply extents_from_le; [|apply extent_list_from with (base := files_cluster (l := l))].
    + unfold files_cluster. rewrite heap_offset_add. lia.
    + intros k n Hk%layout_nodes. tauto.
Qed.

Lemma layout_chains :
  chains_from 2 ((bitmap_cluster l, bitmap_clusters l) :: (upcase_cluster l, upcase_clusters l)
                 :: map (fun n => (cluster n, clusters n)) (List.filter directory (nodes l))).
Proof using L Hup.
  pose proof (lo_bitmap_cluster _ _ _ L). pose proof (lo_bitmap_clusters _ _ _ L).
  pose proof (lo_upcase_cluster _ _ _ L). pose proof (lo_allocated _ _ _ L). pose proof (lo_free _ _ _ L).
  pose proof (lo_width _ _ _ L) as Hw. rewrite (lo_sectors _ _ _ L) in Hw. unfold PARTITION in Hw.
  pose proof (lo_heap _ _ _ L). pose proof (lo_fat _ _ _ L) as Hf. unfold SECTOR in Hf. pose proof (lo_count _ _ _ L).
  pose proof (total_nonneg _ (clusters_nonneg L)). destruct upcase_run as [_ Hu].
  cbn [chains_from]. split_and!; try lia. apply directory_chains; [apply layout_nodes|lia].
Qed.
End build.

Lemma build_spec py_upper ns v : build py_upper ns = Ok v -> sizes_ok ns ->
  exists up l, built py_upper ns up l v.
Proof.
  unfold build. intros H Hns. bind_inv H. rename a into us. bind_inv H. rename a into up.
  bind_inv H. rename a into l, E1 into El. bind_inv H. destruct a as [ms es]. rename E1 into Ens.
  bind_inv H. rename a into b, E1 into Eb. bind_inv H. rename a into m, E1 into Em. apply Ok_inj in H as <-.
  apply pack_units_spec in E0 as [-> _]. set (up := concat _) in *.
  assert (Hup : 0 < zlen up).
  { unfold up. rewrite zlen_units. apply encoded_nonempty in E. destruct us; [done|].
    rewrite zlen_cons. pose proof (zlen_nonneg us). lia. }
  apply lay_out_spec in El; [|lia|done]. destruct (node_extents_spec _ _ _ _ _ _ _ _ Ens) as (-> & Hl & Hn).
  exists up, l. constructor; cbn [lay extents chains mbr boot]; try done.
  - by exists ms.
  - unfold add_extent at 1. rewrite (proj2 (Z.eqb_neq _ _)) by lia. cbn [app]. apply sorted_already.
    eapply extents_sorted, (layout_extents (up := up)); done.
  - unfold all_chains. cbn [app]. apply sorted_already. eapply pair_sorted, (layout_chains (up := up)); done.
Qed.

Lemma extent_list_lookup l ns : forall i j s n src, extent_list l i ns !! j = Some (s, n, src) ->
  exists k nd, ns !! k = Some nd /\ src = OfNode (i + k) /\ n = node_size nd /\ s = heap_offset l (cluster nd).
Proof.
  induction ns as [|nd ns IH]; intros i j s n src Hj; [done|]. cbn [extent_list] in Hj.
  assert (Hrest : forall j, extent_list l (S i) ns !! j = Some (s, n, src) ->
    exists k nd', (nd :: ns) !! k = Some nd' /\ src = OfNode (i + k) /\ n = node_size nd' /\ s = heap_offset l (cluster nd')).
  { intros j' (k & nd' & ? & -> & ?)%IH. exists (S k), nd'. split; [done|]. by rewrite Nat.add_succ_r. }
  unfold node_extent in Hj. destruct (node_size nd =? 0); [by apply (Hrest j)|].
  destruct j as [|j]; [|by apply (Hrest j)]. cbn in Hj. injection Hj as <- <- <-.
  exists 0%nat, nd. by rewrite Nat.add_0_r.
Qed.

Section built.
Context {py_upper : Z -> list Z} {ns : list node} {up : bytes} {l : layout} {v : volume}.
Context (B : built py_upper ns up l v).

(** The nodes of the disk are those of the layout with their directories filled in. *)
Lemma built_node i n : nodes l !! i = Some n -> exists n', nodes (lay v) !! i = Some n' /\ filled py_upper l up i n n'.
Proof using B.
  intros Hi. destruct (b_lay _ _ _ _ _ B) as (ms & El & Hl).
  destruct (nodes (lay v) !! i) as [n'|] eqn:E.
  - exists n'. split; [done|]. destruct (b_nodes _ _ _ _ _ B _ _ E) as (n0 & E0 & ?). rewrite Hi in E0.
    by injection E0 as ->.
  - apply lookup_ge_None in E. apply lookup_lt_Some in Hi. rewrite El in E. cbn in E. lia.
Qed.

Lemma filled_same i n n' : filled py_upper l up i n n' ->
  path n' = path n /\ directory n' = directory n /\ node_size n' = node_size n /\ cluster n' = cluster n /\
  clusters n' = clusters n /\ children n' = children n /\ identity n' = identity n.
Proof. unfold filled. destruct (directory n) eqn:E; [intros (p & _ & ->); cbn; by rewrite ?E|by intros ->]. Qed.

Lemma child_entries_names cs ds : map path cs = map path ds -> child_entries cs = child_entries ds.
Proof.
  revert ds; induction cs as [|c cs IH]; intros [|d ds] H; try done. cbn in H. injection H as Hp Hr.
  cbn [child_entries]. unfold node_name. rewrite Hp. by rewrite (IH ds Hr).
Qed.

(** Child positions lead to the same paths in lists that agree on paths. *)
Lemma child_paths (ms ks : list node) (n m : node) :
  children n = children m -> map path ms = map path ks ->
  map path (child_nodes ms n) = map path (child_nodes ks m).
Proof.
  intros Hc Hp. unfold child_nodes. rewrite Hc. clear Hc. induction (children m) as [|i cs IH]; [done|].
  assert (Hl : path <$> (ms !! i) = path <$> (ks !! i)).
  { pose proof (list_lookup_fmap path ms i) as E1. pose proof (list_lookup_fmap path ks i) as E2.
    rewrite <- E1, <- E2. change (map path ms !! i = map path ks !! i). by rewrite Hp. }
  cbn [omap list_omap]. destruct (ms !! i), (ks !! i); cbn in *; try done.
  by injection Hl as ->; rewrite IH.
Qed.

Lemma layout_paths : map path (nodes l) = map path ns.
Proof using B.
  pose proof (b_layout _ _ _ _ _ B) as L. apply list_eq. intros i.
  change (map path (nodes l)) with (path <$> nodes l). change (map path ns) with (path <$> ns).
  rewrite !list_lookup_fmap. destruct (nodes l !! i) as [n'|] eqn:E.
  - destruct (lo_nodes _ _ _ L _ _ E) as (n & -> & (Hp & _) & _). cbn. by rewrite Hp.
  - apply lookup_ge_None in E. rewrite (lo_length _ _ _ L) in E. by rewrite (proj2 (lookup_ge_None ns i)) by lia.
Qed.

Lemma filled_payload i n n' : nodes l !! i = Some n -> filled py_upper l up i n n' -> directory n = true ->
  zlen (payload n') = node_size n /\ directory_bytes py_upper l up i n = Ok (payload n').
Proof using B.
  intros Hi Hf Hd. unfold filled in Hf. rewrite Hd in Hf. destruct Hf as (p & Hp & ->). cbn. split; [|done].
  pose proof (b_layout _ _ _ _ _ B) as L.
  destruct (lo_nodes _ _ _ L _ _ Hi) as (m & _ & (_ & Ed & _ & Ec) & _ & _ & Hsz & _).
  rewrite <- Ed, Hd in Hsz. destruct Hsz as (e & He & ->).
  eapply zlen_directory_bytes; [|exact Hp]. rewrite <- He. apply child_entries_names, child_paths; [done|apply layout_paths].
Qed.

Lemma built_vol_ok : vol_ok v.
Proof using B.
  destruct (b_lay _ _ _ _ _ B) as (ms & El & _). pose proof (b_layout _ _ _ _ _ B) as L.
  pose proof (lo_fat _ _ _ L). pose proof (lo_count _ _ _ L). unfold SECTOR in *.
  constructor; rewrite ?El; cbn.
  - eapply zlen_mbr_sector, b_mbr, B.
  - eapply zlen_boot_region, b_boot, B.
  - pose proof (lo_heap _ _ _ L). lia.
  - rewrite (lo_bitmap_cluster _ _ _ L), (lo_bitmap_length _ _ _ L). split; [done|]. apply ceil_div_nonneg; lia.
  - rewrite (lo_size _ _ _ L), (lo_sectors _ _ _ L). unfold heap_offset, PARTITION, SECTOR, CLUSTER. cbn. lia.
  - rewrite (b_chains _ _ _ _ _ B). eapply layout_chains; [done|apply (b_upcase _ _ _ _ _ B)].
  - unfold bitmap_end, bitmap_start. rewrite El, (b_extents _ _ _ _ _ B).
    exact (layout_extents L (b_upcase _ _ _ _ _ B)).
  - rewrite (b_extents _ _ _ _ _ B). constructor; [done|]. apply Forall_lookup. intros j [[s n] src] Hj.
    apply extent_list_lookup in Hj as (k & nd & Hk & -> & -> & _).
    destruct (built_node _ _ Hk) as (n' & Hn' & Hf). exists n'. cbn [Nat.add]. split; [done|].
    destruct (filled_same _ _ _ Hf) as (_ & Ed & -> & _). split; [done|]. rewrite Ed.
    intros Hd. by eapply filled_payload.
Qed.
End built.

(** ** The disk as a function of the offset *)

Section disk.
Context (content : str -> Z -> Z) (v : volume).

(** Byte [off] of an extent's source; [content] gives the bytes of the host's files. *)
Definition source_byte (src : source) (off : Z) : Z :=
  match src with
  | Bytes bs => znth bs off
  | OfNode i =>
      match nodes (lay v) !! i with
      | Some n => if directory n then znth (payload n) off else content (path n) off
      | None => 0
      end
  end.

Definition fat_byte (i : Z) : Z := znth (le_bytes 4 (fat_value v (i / 4))) (i mod 4).

Definition disk_byte (p : Z) : Z :=
  if p <? SECTOR then znth (mbr v) p
  else if (boot_start <=? p) && (p <? boot_start + zlen (boot v)) then znth (boot v) (p - boot_start)
  else if (fat_start <=? p) && (p <? fat_end v) then fat_byte (p - fat_start)
  else if (bitmap_start v <=? p) && (p <? bitmap_end v) then bitmap_byte v (p - bitmap_start v)
  else match find_extent (extents v) p with
       | Some (s, src) => source_byte src (p - s)
       | None => 0
       end.
End disk.

(** *** The FAT *)

Lemma chains_from_lookup cs : forall a i s n, chains_from a cs -> cs !! i = Some (s, n) -> a <= s /\ 0 < n /\ s + n < 2 ^ 32.
Proof.
  induction cs as [|[s0 n0] cs IH]; intros a i s n H Hi; [done|]. destruct H as (H1 & H2 & H3 & H4).
  destruct i as [|i]; cbn in Hi; [by injection Hi as <- <-|]. destruct (IH _ _ _ _ H4 Hi). lia.
Qed.

Lemma chains_from_apart cs : forall a i j s n s' n', chains_from a cs -> (i < j)%nat ->
  cs !! i = Some (s, n) -> cs !! j = Some (s', n') -> s + n <= s'.
Proof.
  induction cs as [|[s0 n0] cs IH]; intros a i j s n s' n' H Hij Hi Hj; [done|]. destruct H as (H1 & H2 & H3 & H4).
  destruct j as [|j]; [lia|]. cbn in Hj. destruct i as [|i]; cbn in Hi.
  - injection Hi as <- <-. by destruct (chains_from_lookup _ _ _ _ _ H4 Hj).
  - eapply IH; [exact H4| |done..]. lia.
Qed.

Lemma chains_ascending a cs : chains_from a cs -> ascending (map fst cs).
Proof.
  intros H i j x y Hij Hi Hj. change (map fst cs) with (fst <$> cs) in *.
  rewrite list_lookup_fmap in Hi, Hj.
  destruct (cs !! i) as [[s n]|] eqn:Ei; cbn in Hi; [|done].
  destruct (cs !! j) as [[s' n']|] eqn:Ej; cbn in Hj; [|done].
  injection Hi as <-. injection Hj as <-.
  destruct (decide (i = j)) as [->|]; [rewrite Ei in Ej; injection Ej; lia|].
  pose proof (chains_from_apart _ _ i j _ _ _ _ H ltac:(lia) Ei Ej).
  pose proof (chains_from_lookup _ _ _ _ _ H Ei). lia.
Qed.

(** Element [i] of a mapped list *)
Lemma zlookup_map {A B} (f : A -> B) l i : zlookup (map f l) i = f <$> zlookup l i.
Proof. unfold zlookup. destruct (i <? 0); [done|]. apply list_lookup_fmap. Qed.

(** [bisect] finds the last chain that does not start after [c]. *)
Lemma bisect_last (starts : list Z) c r : splits starts c r -> forall k x,
  zlookup starts k = Some x -> x <= c -> (forall k' x', zlookup starts k' = Some x' -> k < k' -> c < x') -> r = k + 1.
Proof.
  intros (H1 & H2 & H3) k x Hk Hx Hafter.
  assert (k < r) by (destruct (Z.lt_ge_cases k r); [done|pose proof (H3 _ _ Hk); lia]).
  destruct (decide (r = k + 1)); [done|].
  destruct (zlookup_nat _ _ _ Hk) as [Hk0 _]. destruct (zlookup_some starts (r - 1)) as [y Hy]; [lia|].
  pose proof (H2 _ _ Hy ltac:(lia)). pose proof (Hafter _ _ Hy ltac:(lia)). lia.
Qed.

Lemma fat_value_chain v i s n c : chains_from 2 (chains v) -> chains v !! i = Some (s, n) -> s <= c < s + n ->
  fat_value v c = if c <? s + n - 1 then c + 1 else 0xffffffff.
Proof.
  intros H Hi Hc. pose proof (chains_from_lookup _ _ _ _ _ H Hi). unfold fat_value.
  rewrite (proj2 (Z.ltb_ge c 2)) by lia.
  assert (Hz : zlookup (chains v) (Z.of_nat i) = Some (s, n)).
  { unfold zlookup. rewrite (proj2 (Z.ltb_ge _ _)) by lia. by rewrite Nat2Z.id. }
  pose proof (chains_ascending _ _ H : ascending (chain_starts v)) as Ha.
  rewrite (bisect_last (chain_starts v) c _ (bisect_right_spec _ _ Ha) (Z.of_nat i) s).
  - replace (Z.of_nat i + 1 - 1) with (Z.of_nat i) by lia. rewrite Hz. by rewrite (proj2 (Z.ltb_lt c (s + n))) by lia.
  - unfold chain_starts. by rewrite zlookup_map, Hz.
  - lia.
  - intros k x Hk Hlt. unfold chain_starts in Hk. rewrite zlookup_map in Hk.
    destruct (zlookup (chains v) k) as [[s' n']|] eqn:E; cbn in Hk; [|done]. injection Hk as <-.
    apply zlookup_nat in E as [? E].
    pose proof (chains_from_apart _ _ i (Z.to_nat k) _ _ _ _ H ltac:(lia) Hi E). lia.
Qed.

(** Clusters outside the chains have the entry 0. *)
Lemma fat_value_free v c : chains_from 2 (chains v) -> 2 <= c ->
  (forall i s n, chains v !! i = Some (s, n) -> s + n <= c \/ c < s) -> fat_value v c = 0.
Proof.
  intros H Hc Hfree. unfold fat_value. rewrite (proj2 (Z.ltb_ge c 2)) by lia.
  destruct (bisect_right_spec (chain_starts v) c (chains_ascending _ _ H)) as (H1 & H2 & _).
  destruct (zlookup (chains v) _) as [[s n]|] eqn:E; [|done].
  assert (Hs : zlookup (chain_starts v) (bisect_right (chain_starts v) c - 1) = Some s).
  { unfold chain_starts in *. by rewrite zlookup_map, E. }
  apply H2 in Hs; [|lia]. apply zlookup_nat in E as [_ E]. destruct (Hfree _ _ _ E); [|lia].
  by rewrite (proj2 (Z.ltb_ge c (s + n))) by lia.
Qed.

Lemma fat_value_bound v c : chains_from 2 (chains v) -> 0 <= fat_value v c < 2 ^ 32.
Proof.
  intros H. unfold fat_value. destruct (Z.ltb_spec c 2); [destruct (c =? 0); lia|].
  destruct (zlookup (chains v) _) as [[s n]|] eqn:E; [|lia]. apply zlookup_nat in E as [_ E].
  pose proof (chains_from_lookup _ _ _ _ _ H E).
  destruct (Z.ltb_spec c (s + n)); [destruct (Z.ltb_spec c (s + n - 1)); lia|lia].
Qed.

Lemma pack_words (f : Z -> Z) l : (forall i, 0 <= f i < 2 ^ 32) ->
  pack (map (fun i => (fI, f i)) l) = Some (concat (map (fun i => le_bytes 4 (f i)) l)).
Proof.
  intros Hf. induction l as [|i l IH]; [done|]. cbn [map concat].
  rewrite (pack_cons fI _ _ _ (fits_unsigned 4 _ (Hf i)) IH). done.
Qed.

Lemma zlen_words (f : Z -> Z) l : zlen (concat (map (fun i => le_bytes 4 (f i)) l)) = 4 * zlen l.
Proof. induction l as [|i l IH]; [done|]. cbn [map concat]. rewrite zlen_app, zlen_le_bytes, IH, zlen_cons. lia. Qed.

Lemma znth_words (f : Z -> Z) n : forall a j, 0 <= j < 4 * Z.of_nat n ->
  znth (concat (map (fun i => le_bytes 4 (f i)) (seqZ a (Z.of_nat n)))) j = znth (le_bytes 4 (f (a + j / 4))) (j mod 4).
Proof.
  induction n as [|n IH]; intros a j Hj; [lia|]. rewrite seqZ_cons by lia. cbn [map concat].
  rewrite znth_app, zlen_le_bytes by lia. destruct (Z.ltb_spec j (Z.of_nat 4)).
  - rewrite Z.div_small, Z.mod_small by lia. by rewrite Z.add_0_r.
  - replace (Z.pred (Z.of_nat (S n))) with (Z.of_nat n) by lia. rewrite IH by lia.
    replace (Z.succ a + (j - Z.of_nat 4) / 4) with (a + j / 4) by (Z.to_euclidean_division_equations; lia).
    replace ((j - Z.of_nat 4) mod 4) with (j mod 4) by (Z.to_euclidean_division_equations; lia). done.
Qed.

(** [_fat] returns the bytes of the table of [fat_value]s. *)
Lemma fat_spec v off n : chains_from 2 (chains v) -> 0 <= off -> 0 <= n ->
  fat v off n = Ok (stream (fat_byte v) off n).
Proof.
  intros H Ho Hn. unfold fat. rewrite pack_words by (intros; by apply fat_value_bound).
  cbn [struct_result mbind result_bind]. f_equal.
  pose proof (ceil_div_bounds (off + n) 4 ltac:(done)) as Hc. set (k := ceil_div (off + n) 4 - off / 4).
  assert (Hk : 0 <= k) by (unfold k; Z.to_euclidean_division_equations; lia).
  assert (Hlen : off mod 4 + n <= 4 * k) by (unfold k; Z.to_euclidean_division_equations; lia).
  assert (Hm : 0 <= off mod 4 < 4) by (apply Z.mod_pos_bound; lia).
  rewrite slice_stream; [|lia|].
  2: { rewrite zlen_words. unfold zlen. rewrite length_seqZ. lia. }
  replace (stream (fat_byte v) off n) with (stream (fat_byte v) (off mod 4 + 4 * (off / 4)) n)
    by (f_equal; Z.to_euclidean_division_equations; lia).
  rewrite <- stream_shift. apply stream_ext. intros i Hi. rewrite <- (Z2Nat.id k) by done.
  rewrite znth_words by lia. unfold fat_byte.
  replace ((i + 4 * (off / 4)) mod 4) with (i mod 4) by (Z.to_euclidean_division_equations; lia).
  replace ((i + 4 * (off / 4)) / 4) with (off / 4 + i / 4) by (Z.to_euclidean_division_equations; lia). done.
Qed.

(** ** The host *)

(** What reading needs of the host.  [fh_file] is the regular file at a path, with its
    [stat] and content; [fh_opened] the handles open for reading.  Opening returns a new
    handle; a seek and a read return the bytes asked for; nothing of this changes a file. *)
Class FileHost (Os : Type) `{!HostOs Os} := {
  fh_file : Os -> str -> option (stat_result * bytes);
  fh_opened : Os -> Z -> str -> Prop;
  fh_size : forall o p st c, fh_file o p = Some (st, c) -> st_size st = zlen c;
  fh_open : forall o p st c, fh_file o p = Some (st, c) ->
    exists h o', os_open p m_rb o = (Ok h, o') /\ fh_opened o' h p /\
      (forall h' p', fh_opened o h' p' -> h' <> h /\ fh_opened o' h' p') /\ forall q, fh_file o' q = fh_file o q;
  fh_fstat : forall o h p st c, fh_opened o h p -> fh_file o p = Some (st, c) -> os_fstat h o = Ok st;
  fh_read : forall o h p st c off n,
    fh_opened o h p -> fh_file o p = Some (st, c) -> 0 <= off -> 0 <= n -> off + n <= zlen c ->
    exists r o1 o2, f_seek h off 0 o = (Ok r, o1) /\ f_read h n o1 = (Ok (slice c off (off + n)), o2) /\
      (forall h' p', fh_opened o h' p' -> fh_opened o2 h' p') /\ forall q, fh_file o2 q = fh_file o q;
  fh_close : forall o h p, fh_opened o h p ->
    exists o', f_close h o = (Ok tt, o') /\
      (forall h' p', fh_opened o h' p' -> h' <> h -> fh_opened o' h' p') /\ forall q, fh_file o' q = fh_file o q
}.

Section reading.
Context {Os : Type} `{FileHost Os}.
Implicit Types d : device Os.

(** The bytes of the host's files *)
Definition file_content (o : Os) (p : str) (off : Z) : Z :=
  match fh_file o p with Some (_, c) => znth c off | None => 0 end.

(** The cached handles are open on their files, each in one entry. *)
Definition handles_ok d : Prop :=
  Forall (fun ph => fh_opened (host d) (snd ph) (fst ph)) (handles d) /\ NoDup (map snd (handles d)) /\
  zlen (handles d) <= 16.

(** The files of the inventory are as they were. *)
Definition files_unchanged d : Prop :=
  Forall (fun n => directory n = false -> exists st c, fh_file (host d) (path n) = Some (st, c) /\
                   identity_of st = identity n /\ zlen c = node_size n) (nodes (lay (vol d))).

Definition disk_ok d : Prop := vol_ok (vol d) /\ handles_ok d /\ files_unchanged d.

(** [d'] differs from [d] in the cached handles and the position at most, and the host's
    files are the same. *)
Definition same_disk d d' : Prop :=
  vol d' = vol d /\ request_end d' = request_end d /\ handles_ok d' /\ forall q, fh_file (host d') q = fh_file (host d) q.
Definition same_but_handles d d' : Prop := same_disk d d' /\ position d' = position d.

Lemma files_unchanged_same d d' : same_disk d d' -> files_unchanged d -> files_unchanged d'.
Proof.
  intros (Hv & _ & _ & Hf) Hd. unfold files_unchanged. rewrite Hv. eapply Forall_impl; [exact Hd|].
  intros n Hn Hdir. destruct (Hn Hdir) as (st & c & ? & ?). exists st, c. by rewrite Hf.
Qed.

Lemma disk_ok_same d d' : same_disk d d' -> disk_ok d -> disk_ok d'.
Proof.
  intros S (Hv & _ & Hf). pose proof S as (Ev & _ & Hh & _). split_and!; [by rewrite Ev|done|].
  by eapply files_unchanged_same.
Qed.

Lemma pop_handle_spec p (hs : list (str * Z)) :
  match pop_handle p hs with
  | (Some h, rest) => hs ≡ₚ (p, h) :: rest
  | (None, rest) => rest = hs
  end.
Proof.
  induction hs as [|[q h] hs IH]; cbn; [done|]. destruct (str_eqb q p) eqn:E.
  - unfold str_eqb in E. apply bool_decide_eq_true in E as ->. done.
  - destruct (pop_handle p hs) as [[h'|] rest]; [|by rewrite IH]. rewrite IH. apply perm_swap.
Qed.

(** The handles before trimming: open, each once *)
Definition handles_open (o : Os) (hs : list (str * Z)) : Prop :=
  Forall (fun ph => fh_opened o (snd ph) (fst ph)) hs /\ NoDup (map snd hs).

(** Only the handles and the host differ, the latter not in its files. *)
Definition same_files d d' : Prop :=
  vol d' = vol d /\ request_end d' = request_end d /\ position d' = position d /\
  forall q, fh_file (host d') q = fh_file (host d) q.

Lemma same_files_trans d1 d2 d3 : same_files d1 d2 -> same_files d2 d3 -> same_files d1 d3.
Proof.
  intros (A1 & A2 & A3 & A4) (B1 & B2 & B3 & B4). split_and!; [congruence..|]. intros q. by rewrite B4, A4.
Qed.

(** Trimming closes the oldest handles and keeps the newest sixteen. *)
Lemma trim_handles_spec fuel : forall d, handles_open (host d) (handles d) -> (length (handles d) <= fuel)%nat ->
  exists d', trim_handles fuel d = (Ok tt, d') /\ same_files d d' /\
    handles d' = drop (length (handles d) - 16) (handles d) /\ handles_open (host d') (handles d').
Proof.
  induction fuel as [|fuel IH]; intros d Hd Hf.
  { exists d. unfold trim_handles, mbind, M_bind, mget. unfold zlen. rewrite (proj2 (Z.leb_le _ _)) by lia.
    replace (length (handles d) - 16)%nat with 0%nat by lia. split_and!; done. }
  cbn [trim_handles]. unfold mbind, M_bind at 1, mget. destruct (Z.leb_spec (zlen (handles d)) 16) as [Hle|Hgt].
  { exists d. unfold zlen in Hle. replace (length (handles d) - 16)%nat with 0%nat by lia. split_and!; done. }
  destruct (handles d) as [|[p h] hs] eqn:Eh; [unfold zlen in Hgt; cbn in Hgt; lia|].
  destruct Hd as [Hop Hnd]. apply Forall_cons in Hop as [Hh Hop]. cbn [map fst snd] in Hh, Hnd.
  apply NoDup_cons in Hnd as [Hni Hnd].
  destruct (fh_close _ _ _ Hh) as (o' & Ec & Hk & Hfl).
  set (d1 := (d <| handles := hs |>) <| host := o' |>).
  destruct (IH d1) as (d' & Et & Hs & Hhs & Ho).
  { split; [|done]. apply Forall_forall. intros [q g] Hin. cbn. apply Hk.
    - by apply (proj1 (Forall_forall _ _) Hop (q, g)).
    - intros ->. apply Hni. apply list_elem_of_fmap. by exists (q, h). }
  { cbn. cbn in Hf. lia. }
  exists d'. unfold mmod, on_host, M_bind. cbn [host]. change (host (d <| handles := hs |>)) with (host d). rewrite Ec.
  split_and!; [exact Et|..|done].
  - destruct Hs as (S1 & S2 & S3 & S4). split_and!; [done..|]. intros q. by rewrite S4.
  - rewrite Hhs. change (handles d1) with hs. unfold zlen in Hgt. cbn [length] in *.
    by replace (S (length hs) - 16)%nat with (S (length hs - 16)) by lia.
Qed.

Lemma use_handle_spec p st c d : handles_ok d -> fh_file (host d) p = Some (st, c) ->
  exists h d', use_handle p d = (Ok h, d') /\ same_files d d' /\ handles_ok d' /\ fh_opened (host d') h p.
Proof.
  intros (Hop & Hnd & Hlen) Hfile. unfold use_handle, mbind, M_bind at 1, mget.
  pose proof (pop_handle_spec p (handles d)) as Hpop.
  destruct (pop_handle p (handles d)) as [cached rest].
  unfold M_bind at 1, mmod at 1. set (d0 := d <| handles := rest |>).
  assert (Hget : exists h o1, (match cached with Some h => mret h | None => on_host (os_open p m_rb) end) d0
            = (Ok h, d0 <| host := o1 |>) /\ handles_open o1 (rest ++ [(p, h)]) /\
            (length rest <= 16)%nat /\ forall q, fh_file o1 q = fh_file (host d) q).
  { unfold zlen in Hlen. destruct cached as [h|].
    - exists h, (host d). split_and!; [by destruct d| | |done].
      + split.
        * rewrite <- Permutation_cons_append, <- Hpop. exact Hop.
        * rewrite Hpop in Hnd. rewrite map_app. cbn in *. by rewrite <- Permutation_cons_append.
      + pose proof (Permutation_length Hpop) as E. cbn in E. lia.
    - subst rest. destruct (fh_open _ _ _ _ Hfile) as (h & o1 & Eo & Hh & Hk & Hf).
      exists h, o1. split_and!; [|split| |done].
      + unfold on_host, d0. cbn [host]. change (host (d <| handles := handles d |>)) with (host d). by rewrite Eo.
      + apply Forall_app. split; [|by constructor]. eapply Forall_impl; [exact Hop|]. intros [q g] Hq. by apply Hk.
      + rewrite map_app. apply NoDup_app. split_and!; [done| |apply NoDup_singleton].
        intros g Hg. apply list_elem_of_fmap in Hg as ([q g'] & -> & Hin). cbn. intros E%list_elem_of_singleton.
        rewrite Forall_forall in Hop. destruct (Hk _ _ (Hop _ Hin)) as [Hne _]. done.
      + lia. }
  destruct Hget as (h & o1 & Eg & Hopen & Hrest & Hf1). unfold M_bind at 1. rewrite Eg.
  unfold M_bind at 1, mmod at 1. set (d1 := _ <| handles ::= _ |>).
  assert (E1 : handles d1 = rest ++ [(p, h)]) by done.
  unfold M_bind at 1. cbv beta iota.
  destruct (trim_handles_spec (length (handles d1)) d1) as (d2 & Et & S2 & Hh2 & Ho2); [by rewrite E1|done|].
  unfold M_bind at 1. rewrite Et. exists h, d2. rewrite E1 in Hh2.
  assert (Hin : (p, h) ∈ handles d2).
  { rewrite Hh2, drop_app_le by (rewrite length_app; cbn; lia). apply elem_of_app. right. by apply list_elem_of_singleton. }
  split_and!; [done| | |].
  - destruct S2 as (Sv & Sr & Sp & Sf). split_and!; [exact Sv|exact Sr|exact Sp|]. intros q. by rewrite Sf, <- Hf1.
  - destruct Ho2 as [Ho2 Hn2]. split_and!; [done..|]. rewrite Hh2. unfold zlen. rewrite length_drop. lia.
  - destruct Ho2 as [Ho2 _]. exact (proj1 (Forall_forall _ _) Ho2 _ Hin).
Qed.

(** Reading a piece of an unchanged file *)
Lemma file_bytes_spec n off count st c d :
  handles_ok d -> fh_file (host d) (path n) = Some (st, c) -> identity_of st = identity n ->
  0 <= off -> 0 <= count -> off + count <= zlen c ->
  exists d', file_bytes n off count d = (Ok (slice c off (off + count)), d') /\ same_but_handles d d'.
Proof.
  intros Hd Hfile Hid Ho Hc Hbound.
  destruct (use_handle_spec (path n) st c d Hd Hfile) as (h & d1 & Eu & (Sv & Sr & Sp & Sf) & Hd1 & Hh).
  rewrite <- Sf in Hfile. destruct (fh_read _ _ _ _ _ _ _ Hh Hfile Ho Hc Hbound) as (r & o1 & o2 & Es & Er & Hk & Hf2).
  unfold file_bytes, mbind, M_bind at 1. rewrite Eu. unfold M_bind at 1, mget. unfold M_bind at 1, lift.
  change (id d1) with d1. rewrite (fh_fstat _ _ _ _ _ Hh Hfile), bool_decide_eq_true_2 by done. cbn [negb].
  unfold M_bind at 1, on_host at 1. rewrite Es. unfold M_bind at 1, on_host at 1.
  change (host (d1 <| host := o1 |>)) with o1. rewrite Er.
  rewrite zlen_slice by done. replace (Z.max 0 _) with count by lia. rewrite Z.eqb_refl. cbn [negb].
  eexists. split; [reflexivity|]. split; [|done]. split_and!; [done..| |].
  - destruct Hd1 as (Hop & Hnd & Hl). split_and!; [|done..]. eapply Forall_impl; [exact Hop|]. intros [q g]. apply Hk.
  - intros q. cbn. by rewrite Hf2, Sf.
Qed.

(** *** One piece of a read *)

(** The regions follow each other. *)
Lemma regions v : vol_ok v ->
  zlen (mbr v) = 512 /\ boot_start = 1048576 /\ zlen (boot v) = 12288 /\ fat_start = 1060864 /\
  fat_start <= fat_end v /\ fat_end v <= bitmap_start v /\ bitmap_start v <= bitmap_end v.
Proof.
  intros V. pose proof (vo_fat _ V). pose proof (vo_bitmap _ V) as [Hb ?].
  rewrite (vo_mbr _ V), (vo_boot _ V). unfold fat_end, bitmap_end, bitmap_start, heap_offset. rewrite Hb.
  unfold boot_start, fat_start, PARTITION, SECTOR, CLUSTER. lia.
Qed.

Lemma stream_base (f g : Z -> Z) base pos n :
  (forall p, pos <= p < pos + n -> f p = g (p - base)) -> stream f pos n = stream g (pos - base) n.
Proof.
  intros Hfg. replace pos with (pos - base + base) at 1 by lia. rewrite <- stream_shift.
  apply stream_ext. intros i Hi. rewrite Hfg by lia. f_equal. lia.
Qed.

Section piece.
Context (d : device Os) (Hd : disk_ok d) (pos stop : Z) (Hpos : 0 <= pos < stop).
Abbreviation v := (vol d).
Abbreviation byte := (disk_byte (file_content (host d)) v).

(** The result of a turn of the loop: some bytes of the disk, at least one *)
Definition piece_ok (r : result (Z * bytes) * device Os) : Prop :=
  exists n d', r = (Ok (n, stream byte pos n), d') /\ 0 < n <= stop - pos /\ same_but_handles d d'.

Lemma same_but_handles_refl : same_but_handles d d.
Proof using Hd. destruct Hd as (? & ? & ?). by split_and!. Qed.

Lemma piece_ret n bs : 0 < n <= stop - pos -> bs = stream byte pos n -> piece_ok (Ok (n, bs), d).
Proof using Hd. intros Hn ->. exists n, d. split_and!; [done|lia..|apply same_but_handles_refl]. Qed.

(** The extent bisection finds holds [pos] or ends before it; up to the start of the next
    one there is no other. *)
Definition bisected : option (Z * Z * source) := zlookup (extents v) (bisect_right (starts v) pos - 1).
Definition next_start : list Z :=
  slice (starts v) (bisect_right (starts v) pos - 1 + 1) (bisect_right (starts v) pos - 1 + 2).

Lemma bisected_some s n src : bisected = Some (s, n, src) ->
  exists i, extents v !! i = Some (s, n, src) /\ s <= pos /\ bitmap_end v <= s.
Proof using Hd.
  destruct Hd as (V & _ & _). pose proof (vo_extents _ V) as Hx. unfold bisected.
  destruct (bisect_right_spec (starts v) pos (starts_ascending _ _ Hx)) as (_ & H2 & _). intros Hs.
  assert (Hz : zlookup (starts v) (bisect_right (starts v) pos - 1) = Some s).
  { unfold starts at 1. by rewrite zlookup_map, Hs. }
  apply H2 in Hz; [|lia]. apply zlookup_nat in Hs as [_ Hs]. eexists. split_and!; [exact Hs|done|].
  by destruct (extents_from_lookup _ _ _ _ _ _ Hx Hs).
Qed.

Lemma gap_no_extent p : (forall s n src, bisected = Some (s, n, src) -> s + n <= p) ->
  (forall x, x ∈ next_start -> p < x) -> pos <= p -> find_extent (extents v) p = None.
Proof using Hd.
  destruct Hd as (V & _ & _). pose proof (vo_extents _ V) as Hx. intros Hb Hn Hp.
  pose proof (starts_ascending _ _ Hx) as Ha. change (map extent_start (extents v)) with (starts v) in Ha.
  destruct (bisect_right_spec (starts v) pos Ha) as (H1 & _ & H3).
  unfold bisected, next_start in *. set (r := bisect_right (starts v) pos) in *.
  apply find_extent_none. intros k s n src Hk.
  assert (Hks : starts v !! k = Some s).
  { unfold starts. change (map _ (extents v)) with ((fun e => fst (fst e)) <$> extents v).
    by rewrite list_lookup_fmap, Hk. }
  destruct (Z.lt_ge_cases (Z.of_nat k) r) as [Hlt|Hge].
  - left. assert (r - 1 < zlen (extents v)).
    { unfold starts in H1. rewrite zlen_map in H1. lia. }
    destruct (zlookup_some (extents v) (r - 1)) as [[[s' n'] src'] Hr]; [lia|].
    specialize (Hb _ _ _ Hr). apply zlookup_nat in Hr as [_ Hr].
    destruct (decide (k = Z.to_nat (r - 1))) as [->|]; [rewrite Hk in Hr; by injection Hr as -> -> _|].
    pose proof (extents_from_apart _ _ k (Z.to_nat (r - 1)) _ _ _ _ _ _ Hx ltac:(lia) Hk Hr).
    pose proof (extents_from_lookup _ _ _ _ _ _ Hx Hr). lia.
  - right. apply lookup_lt_Some in Hks as Hlen.
    destruct (lookup_lt_is_Some_2 (starts v) (Z.to_nat r)) as [x Hxr]; [lia|].
    assert (p < x); [|assert (x <= s); [eapply (Ha (Z.to_nat r) k); [lia|done..]|lia]].
    apply Hn. unfold slice, ztake, zdrop. replace (Z.to_nat (r - 1 + 2 - (r - 1 + 1))) with 1%nat by lia.
    replace (Z.to_nat (r - 1 + 1)) with (Z.to_nat r) by lia.
    rewrite (drop_S _ _ _ Hxr). apply list_elem_of_here.
Qed.

(** The size of a stretch of zeros: at least one byte, at most to the next boundary *)
Lemma next_boundary_spec bs :
  pos < next_boundary pos stop bs <= stop /\ forall b, b ∈ bs -> pos < b -> next_boundary pos stop bs <= b.
Proof using Hpos.
  unfold next_boundary. induction bs as [|b bs [IH1 IH2]]; [split; [cbn; lia|by intros ? ?%not_elem_of_nil]|].
  cbn [List.filter]. destruct (Z.ltb_spec pos b); cbn [foldr]; split; try lia; intros x [->|Hx]%elem_of_cons Hlt; try lia.
  - specialize (IH2 _ Hx Hlt). lia.
  - by apply IH2.
Qed.
Lemma next_start_after x : x ∈ next_start -> pos < x.
Proof using Hd.
  destruct Hd as (V & _ & _). pose proof (vo_extents _ V) as Hx.
  destruct (bisect_right_spec (starts v) pos (starts_ascending _ _ Hx)) as (H1 & _ & H3).
  unfold next_start. change (map extent_start (extents v)) with (starts v) in *.
  set (r := bisect_right (starts v) pos) in *. unfold slice, ztake, zdrop.
  replace (Z.to_nat (r - 1 + 2 - (r - 1 + 1))) with 1%nat by lia. replace (r - 1 + 1) with r by lia.
  destruct (drop (Z.to_nat r) (starts v)) as [|y ys] eqn:E; [by intros ?%not_elem_of_nil|].
  intros ->%list_elem_of_singleton. apply (H3 r); [|lia]. unfold zlookup.
  rewrite (proj2 (Z.ltb_ge _ _)) by lia. rewrite <- (Nat.add_0_r (Z.to_nat r)), <- lookup_drop, E. done.
Qed.

(** The bytes of an extent *)
Lemma extent_bytes_spec i s n src off count :
  extents v !! i = Some (s, n, src) -> 0 <= off -> 0 <= count -> off + count <= n ->
  exists d', extent_bytes v src off count d = (Ok (stream (source_byte (file_content (host d)) v src) off count), d') /\
    same_but_handles d d'.
Proof using Hd.
  destruct Hd as (V & Hh & Hf). intros Hi Ho Hc Hn.
  pose proof (Forall_lookup_1 _ _ _ _ (vo_sources _ V) Hi) as Hs. destruct src as [bs|k]; cbn in Hs.
  - exists d. split; [|apply same_but_handles_refl]. cbn. by rewrite slice_stream by lia.
  - destruct Hs as (nd & Hk & Hsz & Hp). unfold extent_bytes, source_byte. rewrite Hk.
    destruct (directory nd) eqn:Ed.
    + exists d. split; [|apply same_but_handles_refl]. specialize (Hp eq_refl). by rewrite slice_stream by lia.
    + destruct (Forall_lookup_1 _ _ _ _ Hf Hk Ed) as (st & c & Hc' & Hid & Hl).
      destruct (file_bytes_spec nd off count st c d) as (d' & E & S); [done..|lia|].
      exists d'. split; [|done]. rewrite E, slice_stream by lia. do 2 f_equal.
      apply stream_ext. intros j Hj. unfold file_content. by rewrite Hc'.
Qed.

Lemma extent_piece_spec : SECTOR <= pos -> bitmap_end v <= pos \/ pos < bitmap_start v ->
  (pos < boot_start \/ fat_end v <= pos) -> piece_ok (extent_piece v pos stop d).
Proof using Hd Hpos.
  intros H1 H2 H3. destruct (regions _ (proj1 Hd)) as (R1 & R2 & R3 & R4 & R5 & R6 & R7). unfold SECTOR in *.
  unfold extent_piece. fold bisected. fold next_start. set (hit := match bisected with Some _ => _ | None => _ end).
  destruct hit as [[[s n] src]|] eqn:Eh; unfold hit in Eh.
  - destruct bisected as [[[s' n'] src']|] eqn:Eb; [|done]. destruct (Z.ltb_spec pos (s' + n')); [|done].
    injection Eh as -> -> ->. destruct (bisected_some _ _ _ Eb) as (i & Hi & Hs & Hbm).
    set (size := Z.min (stop - pos) (n - (pos - s))).
    destruct (extent_bytes_spec i s n src (pos - s) size Hi) as (d' & E & S); [lia..|].
    unfold mbind, M_bind. rewrite E. exists size, d'. split_and!; [|lia..|exact S].
    rewrite (stream_base byte (source_byte (file_content (host d)) v src) s); [done|]. intros p Hp. unfold disk_byte, SECTOR. settle.
    rewrite (find_extent_some _ _ _ _ _ _ _ (vo_extents _ (proj1 Hd)) Hi) by lia. done.
  - set (bs := [boot_start; fat_start; bitmap_start v] ++ next_start).
    destruct (next_boundary_spec bs) as [N1 N2]. apply piece_ret; [lia|].
    set (size := next_boundary pos stop bs - pos) in *.
    assert (Hzero : zeros size = stream (fun _ => 0) pos size).
    { pose proof (stream_base (fun _ => 0) (znth (zeros size)) pos pos size) as E.
      rewrite E, Z.sub_diag by (intros; by rewrite znth_zeros).
      rewrite <- slice_stream by (rewrite ?zlen_zeros; lia). by rewrite slice_all by (rewrite zlen_zeros; lia). }
    rewrite Hzero. apply stream_ext. intros p Hp. unfold disk_byte, SECTOR.
    assert (B1 : pos < boot_start -> p < boot_start).
    { intros Hlt. pose proof (N2 boot_start ltac:(apply list_elem_of_here) Hlt). lia. }
    assert (B3 : pos < bitmap_start v -> p < bitmap_start v).
    { intros Hlt. pose proof (N2 (bitmap_start v) ltac:(do 2 apply list_elem_of_further; apply list_elem_of_here) Hlt). lia. }
    rewrite (gap_no_extent p); [|intros s n src Eb|intros x Hx|lia].
    + destruct H3; settle; destruct H2; settle; done.
    + rewrite Eb in Eh. destruct (Z.ltb_spec pos (s + n)); [done|lia].
    + pose proof (N2 x ltac:(do 3 apply list_elem_of_further; exact Hx) (next_start_after _ Hx)). lia.
Qed.

Lemma read_piece_spec : piece_ok (read_piece v pos stop d).
Proof using Hd Hpos.
  destruct (regions _ (proj1 Hd)) as (R1 & R2 & R3 & R4 & R5 & R6 & R7). unfold read_piece, SECTOR.
  destruct (Z.ltb_spec pos 512).
  { apply piece_ret; [lia|]. rewrite slice_stream by lia. apply stream_ext. intros p Hp. unfold disk_byte, SECTOR. by settle. }
  destruct (Z.leb_spec boot_start pos), (Z.ltb_spec pos (boot_start + zlen (boot v))); cbn [andb].
  1: { apply piece_ret; [lia|]. rewrite slice_stream by lia. symmetry. apply stream_base. intros p Hp.
       unfold disk_byte, SECTOR. by settle. }
  all: destruct (Z.leb_spec fat_start pos), (Z.ltb_spec pos (fat_end v)); cbn [andb].
  all: try lia.
  1: { unfold mbind, M_bind, lift. set (size := Z.min _ _).
       rewrite (fat_spec v) by (apply (vo_chains _ (proj1 Hd)) || lia). apply piece_ret; [lia|]. symmetry.
       apply stream_base. intros p Hp. unfold disk_byte, SECTOR. by settle. }
  all: destruct (Z.leb_spec (bitmap_start v) pos), (Z.ltb_spec pos (bitmap_end v)); cbn [andb]; try lia.
  1: { apply piece_ret; [lia|]. symmetry. apply stream_base. intros p Hp. unfold disk_byte, SECTOR. by settle. }
  all: apply extent_piece_spec; unfold SECTOR; lia.
Qed.
End piece.

Lemma content_same d d' : same_disk d d' -> forall p off, file_content (host d') p off = file_content (host d) p off.
Proof. intros (_ & _ & _ & Hf) p off. unfold file_content. by rewrite Hf. Qed.

Lemma disk_byte_ext f g v p : (forall q off, f q off = g q off) -> disk_byte f v p = disk_byte g v p.
Proof.
  intros Hfg. unfold disk_byte. repeat destruct (_ <? _); repeat destruct (_ && _); try done.
  all: destruct (find_extent _ _) as [[s src]|]; [|done]; destruct src; cbn; try done;
    destruct (nodes _ !! _); [|done]; by rewrite Hfg.
Qed.

(** The bytes of the disk as the device shows them *)
Definition byte_of d : Z -> Z := disk_byte (file_content (host d)) (vol d).

Lemma byte_of_same d d' : same_disk d d' -> forall p, byte_of d' p = byte_of d p.
Proof. intros S p. pose proof S as (Hv & _). unfold byte_of. rewrite Hv. by apply disk_byte_ext, content_same. Qed.

Lemma same_but_handles_trans d1 d2 d3 : same_but_handles d1 d2 -> same_but_handles d2 d3 -> same_but_handles d1 d3.
Proof.
  intros [(A1 & A2 & A3 & A4) A5] [(B1 & B2 & B3 & B4) B5].
  split; [|congruence]. split_and!; [congruence..|done|]. intros q. by rewrite B4, A4.
Qed.

(** The loop makes progress in every turn, so a turn per byte is enough; it collects the
    bytes from [pos] to [stop]. *)
Lemma disk_loop_spec fuel : forall d pos stop pieces, disk_ok d -> 0 <= pos -> stop - pos <= Z.of_nat fuel ->
  exists d' more, read_loop fuel pos stop pieces d = (Ok (pieces ++ more), d') /\
    concat more = stream (byte_of d) pos (stop - pos) /\ same_but_handles d d'.
Proof.
  induction fuel as [|fuel IH]; intros d pos stop pieces Hd Hp Hf; cbn [read_loop].
  all: destruct (Z.leb_spec stop pos);
    [exists d, []; split_and!; [by rewrite app_nil_r|by rewrite stream_nonpos by lia|by apply same_but_handles_refl]|].
  { lia. }
  unfold mbind at 1, M_bind at 1, mget.
  destruct (read_piece_spec d Hd pos stop ltac:(lia)) as (n & d1 & E & Hn & S). unfold mbind at 1, M_bind at 1. rewrite E.
  destruct (IH d1 (pos + n) stop (pieces ++ [stream (byte_of d) pos n])) as (d' & more & E' & Hmore & S').
  { eapply disk_ok_same; [apply S|done]. }
  { lia. }
  { lia. }
  exists d', (stream (byte_of d) pos n :: more). split_and!.
  - fold (byte_of d). rewrite E'. by rewrite <- app_assoc.
  - cbn [concat]. rewrite Hmore. replace (stop - pos) with (n + (stop - (pos + n))) by lia.
    rewrite stream_app by lia. f_equal. apply stream_ext. intros i _. apply byte_of_same, S.
  - by eapply same_but_handles_trans.
Qed.

(** Standing at byte [a] with [n] bytes of the request left *)
Definition ready d (a n : Z) : Prop :=
  disk_ok d /\ position d = a /\ 0 <= a /\ exists e, request_end d = Some e /\ a + n <= e.

Lemma seek_spec d sector count : disk_ok d -> 0 <= sector -> 0 <= count -> sector + count <= sector_count d ->
  exists d', seek sector (Some count) d = (Ok tt, d') /\ ready d' (sector * SECTOR) (count * SECTOR) /\
    vol d' = vol d /\ host d' = host d.
Proof.
  intros Hd Hs Hc Hn. pose proof Hd as (V & Hh & Hf). pose proof (vo_size _ V) as [Esz _].
  assert (Hsz : (sector + count) * SECTOR <= size (lay (vol d))).
  { unfold sector_count in Hn. rewrite Esz in *. unfold heap_offset, SECTOR, CLUSTER in *.
    Z.to_euclidean_division_equations; lia. }
  exists ((d <| position := sector * SECTOR |>) <| request_end := Some (sector * SECTOR + count * SECTOR) |>).
  split_and!; [| |done|done].
  - unfold seek, mbind, M_bind, mget, mmod, id. unfold SECTOR in *. cbn [vol].
    rewrite (proj2 (Z.leb_le 0 (sector * 512))), (proj2 (Z.leb_le (sector * 512) (sector * 512 + count * 512))),
      (proj2 (Z.leb_le (sector * 512 + count * 512) _)) by lia. done.
  - split_and!; [done|done|unfold SECTOR; lia|]. eexists. split; [reflexivity|]. lia.
Qed.

Lemma read_spec d a n m : ready d a (n + m) -> 0 <= n -> 0 <= m ->
  exists d', read n d = (Ok (stream (byte_of d) a n), d') /\ ready d' (a + n) m /\
    vol d' = vol d /\ forall q, fh_file (host d') q = fh_file (host d) q.
Proof.
  intros (Hd & Hp & Ha & e & He & Hle) Hn Hm. unfold read. rewrite (proj2 (Z.ltb_ge n 0)) by done.
  unfold mbind at 1, M_bind at 1, mget, id. rewrite He, Hp. cbn [from_option]. cbv zeta.
  replace (Z.min n (e - a)) with n by lia.
  destruct (disk_loop_spec (Z.to_nat n) d a (a + n) [] Hd Ha ltac:(lia)) as (d1 & more & E & Hmore & S1 & Hp1).
  unfold mbind at 1, M_bind at 1. rewrite E. unfold mbind, M_bind, mmod, mret, M_ret.
  exists (d1 <| position := a + n |>). cbn [app]. rewrite Hmore. replace (a + n - a) with n by lia.
  pose proof S1 as (Ev & Er & Hh & Hf). pose proof (disk_ok_same _ _ S1 Hd) as (V1 & _ & F1).
  split_and!; [done| |done|done]. split_and!; [done|done|lia|]. exists e. split; [cbn; by rewrite Er|lia].
Qed.
End reading.

(** The virtual disk keeps the contract of block devices. *)
#[export] Program Instance exfat_reads {Os} `{FileHost Os} : BlockDevReads (device Os) := {|
  bd_byte := byte_of;
  bd_ok := disk_ok;
  bd_ready := ready
|}.
Next Obligation. by intros Os HO HF d a n (? & _). Qed.
Next Obligation.
  intros Os HO HF d sector count Hok Hs Hc Hn. destruct (seek_spec d sector count) as (d' & E & Hr & Ev & Eh); [done..|by apply Hn|].
  exists d'. split_and!; [exact E|exact Hr|]. intros i. unfold byte_of. by rewrite Ev, Eh.
Qed.
Next Obligation.
  intros Os HO HF d a n m Hr Hn Hm. destruct (read_spec d a n m) as (d' & E & Hr' & Ev & Ef); [done..|].
  exists d'. split_and!; [exact E|exact Hr'|]. intros i. unfold byte_of. rewrite Ev.
  apply disk_byte_ext. intros q off. unfold file_content. by rewrite Ef.
Qed.

(** Bytes of a file that changed are never served, whatever the host: a piece of a file
    is returned only after [fstat] showed the identity of the inventory, and complete. *)
Theorem changed_file_refused {Os} `{HostOs Os} (n : node) off count (d d' : device Os) data :
  file_bytes n off count d = (Ok data, d') ->
  exists h o st, os_fstat h o = Ok st /\ identity_of st = identity n /\ zlen data = count.
Proof.
  unfold file_bytes, mbind, M_bind at 1. destruct (use_handle (path n) d) as [[h|e] d1]; [|done].
  unfold M_bind at 1, mget, lift, M_bind at 1, id. destruct (os_fstat h (host d1)) as [st|] eqn:Est; [|done].
  destruct (bool_decide (identity_of st = identity n)) eqn:Eid; cbn [negb]; [|done].
  apply bool_decide_eq_true in Eid. unfold M_bind at 1. destruct (on_host (f_seek h off 0) d1) as [[p|] d2]; [|done].
  unfold M_bind. destruct (on_host (f_read h count) d2) as [[bs|] d3]; [|done].
  destruct (Z.eqb_spec (zlen bs) count) as [El|]; cbn [negb]; [|done]. intros [= -> _]. by exists h, (host d1), st.
Qed.
