(* ===== verification/ExfatDiskFacts.v ===== *)
(** * The virtual exFAT disk: what a console finds on it

    The disk constructed from a folder whose files do not change, seen through the reads of
    [ExfatReadFacts]: the clusters of a file hold its content and then zeros, those of a
    directory its entries; the FAT chains the clusters of each directory and nothing else;
    the bitmap marks exactly the clusters that have an owner.  A reader that only asks the
    device for sectors, and takes the geometry from the first of them, finds every folder.
    Construction ends. *)

From S2P Require Import Prelude PyStr Udpbd UdpbdFacts RawStorage HostOs Exfat ExfatFacts ExfatDirFacts ExfatReadFacts.

(** ** The inventory *)

Section scan.
Context {py_upper : Z -> list Z} {Os : Type} `{FileHost Os}.
Context (os : Os).

(** Every regular file the inventory meets can be read. *)
Definition readable : Prop :=
  forall p st, os_lstat p os = Ok st -> S_ISREG st = true -> exists c, fh_file os p = Some (st, c).

(** A node is a directory, or a file of the host that can be read. *)
Definition node_ok (n : node) : Prop :=
  if directory n then node_size n = 0
  else exists st c, fh_file os (path n) = Some (st, c) /\ identity_of st = identity n /\ zlen c = node_size n.

Lemma add_child_ok i c ns : Forall node_ok ns -> Forall node_ok (add_child i c ns).
Proof.
  intros H1. unfold add_child. apply Forall_lookup. intros j n Hj. rewrite list_lookup_alter in Hj.
  case_decide as Ei; [subst j|by eapply (Forall_lookup_1 _ _ _ _ H1)].
  destruct (ns !! i) as [m|] eqn:E; [|done]. pose proof (Forall_lookup_1 _ _ _ _ H1 E). by injection Hj as <-.
Qed.

Lemma scan_children_ok scan i dir entries : (forall p, keeps (Forall node_ok) (scan p)) ->
  forall names, keeps (Forall node_ok) (scan_children py_upper scan i dir entries names).
Proof.
  intros Hs. induction entries as [|name entries IH]; intros names; cbn [scan_children]; [apply keeps_ret|].
  apply keeps_bind; [apply keeps_lift|]. intros units. destruct (bool_decide _); [apply keeps_raise|].
  apply keeps_bind; [apply Hs|]. intros child. apply keeps_bind; [|done]. apply keeps_mmod. intros ns. apply add_child_ok.
Qed.

Lemma scan_ok (R : readable) fuel : forall depth p, keeps (Forall node_ok) (scan py_upper fuel os depth p).
Proof.
  induction fuel as [|fuel IH]; intros depth p; cbn [scan]; destruct (64 <? depth); try apply keeps_raise.
  apply keeps_lift_bind. intros info Hi. destruct (_ || _ || _) eqn:Ew; [apply keeps_raise|].
  rewrite !orb_false_iff, !negb_false_iff, orb_true_iff in Ew. destruct Ew as [_ Ew].
  apply keeps_bind; [apply keeps_mget|]. intros i. apply keeps_bind.
  { apply keeps_mmod. intros ns Hns. apply Forall_app. split; [done|]. constructor; [|done].
    unfold node_ok, new_node. cbn. destruct (S_ISDIR info) eqn:Ed; [done|]. destruct Ew as [|Er]; [done|].
    destruct (R _ _ Hi Er) as [c Hc]. exists info, c. split_and!; [done..|]. by rewrite (fh_size _ _ _ _ Hc). }
  intros _. apply keeps_bind; [apply keeps_mget|]. intros count. destruct (100000 <? count); [apply keeps_raise|].
  destruct (S_ISDIR info).
  - apply keeps_bind; [apply keeps_lift|]. intros names. apply keeps_bind; [|intros; apply keeps_ret].
    by apply scan_children_ok.
  - destruct (depth =? 0); [apply keeps_raise|apply keeps_ret].
Qed.

Lemma nodes_sizes ns : Forall node_ok ns -> sizes_ok ns.
Proof.
  intros Hn. eapply Forall_impl; [exact Hn|]. intros n. unfold node_ok. destruct (directory n); [lia|].
  intros (st & c & _ & _ & <-). apply zlen_nonneg.
Qed.

Lemma init_inv root d : init py_upper root os = Ok d ->
  exists p r ns v, scan py_upper 65 os 0 p [] = (Ok r, ns) /\ build py_upper ns = Ok v /\ d = mount os v.
Proof.
  unfold init. destruct (realpath root os) as [p|]; [|discriminate]. cbn [mbind result_bind].
  destruct (scan py_upper 65 os 0 p []) as [[r|] ns] eqn:Es; [|discriminate].
  destruct (build py_upper ns) as [v|] eqn:Eb; [|discriminate]. intros E%Ok_inj.
  exists p, r, ns, v. split; [exact Es|]. split; [exact Eb|]. symmetry. exact E.
Qed.

(** The constructor on a readable folder: the disk is the one built from the inventory,
    and is ready to be read. *)
Lemma init_spec root d : readable -> init py_upper root os = Ok d ->
  host d = os /\ disk_ok d /\ exists ns up l, built py_upper ns up l (vol d).
Proof.
  intros R (p & r & ns & v & Es & Eb & ->)%init_inv.
  pose proof (scan_ok R 65 0 p [] _ _ (Forall_nil_2 _) Es) as Hns.
  destruct (build_spec _ _ _ Eb (nodes_sizes _ Hns)) as (up & l & B).
  split; [done|]. split; [|by exists ns, up, l]. split_and!; [by eapply built_vol_ok|by split_and!; [apply Forall_nil|apply NoDup_nil_2|]|].
  apply Forall_lookup. intros i n' Hn' Hdir.
  destruct (b_nodes _ _ _ _ _ B _ _ Hn') as (n & Hn & Hf%filled_same). destruct Hf as (Ep & Ed & Es' & _ & _ & _ & Ei).
  destruct (lo_nodes _ _ _ (b_layout _ _ _ _ _ B) _ _ Hn) as (m & Hm & (Fp & Fd & Fi & _) & _ & _ & Hsz & _).
  pose proof (Forall_lookup_1 _ _ _ _ Hns Hm) as Hok. unfold node_ok in Hok.
  rewrite Ed, Fd in Hdir. rewrite Hdir in Hok, Hsz. destruct Hok as (st & c & Hf & Hid & Hl).
  exists st, c. rewrite Ep, Fp, Ei, Fi, Es', Hsz. done.
Qed.
End scan.

(** ** Where the bytes of a node are *)

Lemma extent_list_has l ns : forall i k nd, ns !! k = Some nd -> node_size nd <> 0 ->
  exists j, extent_list l i ns !! j = Some (heap_offset l (cluster nd), node_size nd, OfNode (i + k)).
Proof.
  induction ns as [|n ns IH]; intros i k nd Hk Hs; [done|]. cbn [extent_list]. destruct k as [|k]; cbn in Hk.
  - injection Hk as ->. exists 0%nat. unfold node_extent. rewrite (proj2 (Z.eqb_neq _ _)) by done. by rewrite Nat.add_0_r.
  - destruct (IH (S i) k nd Hk Hs) as (j & Hj).
    exists (length (node_extent l i n) + j)%nat. rewrite lookup_app_r by lia.
    replace (length _ + j - length _)%nat with j by lia. rewrite Hj. by rewrite Nat.add_succ_r.
Qed.

Section contents.
Context {py_upper : Z -> list Z} {ns : list node} {up : bytes} {l : layout} {v : volume}.
Context (B : built py_upper ns up l v) (content : str -> Z -> Z).
Abbreviation byte := (disk_byte content v).

Lemma lay_fields : (forall c, heap_offset (lay v) c = heap_offset l c) /\ fat_end v = fat_start + fat_length l * SECTOR /\
  bitmap_start v = heap_offset l 2 /\ bitmap_end v = heap_offset l 2 + bitmap_length l /\
  allocated_clusters (lay v) = allocated_clusters l.
Proof using B.
  destruct (b_lay _ _ _ _ _ B) as (ms & El & _). pose proof (lo_bitmap_cluster _ _ _ (b_layout _ _ _ _ _ B)) as Eb.
  unfold fat_end, bitmap_end, bitmap_start. rewrite El. cbn. by rewrite Eb.
Qed.

(** Past the bitmap, a byte belongs to the extent that holds it, if any. *)
Lemma heap_byte p : bitmap_end v <= p ->
  byte p = match find_extent (extents v) p with Some (s, src) => source_byte content v src (p - s) | None => 0 end.
Proof using B.
  intros Hp. pose proof (built_vol_ok B) as V. destruct (regions _ V) as (R1 & R2 & R3 & R4 & R5 & R6 & R7).
  unfold disk_byte, SECTOR. by settle.
Qed.

(** The run of a node ends before the runs of the nodes after it. *)
Lemma runs_in_order i j n m : (i < j)%nat -> nodes l !! i = Some n -> nodes l !! j = Some m ->
  0 < clusters n -> 0 < clusters m -> cluster n + clusters n <= cluster m.
Proof using B.
  pose proof (b_layout _ _ _ _ _ B) as L. intros Hij Hi Hj Hn Hm.
  destruct (node_run L _ _ Hi Hn) as [E1 _]. destruct (node_run L _ _ Hj Hm) as [E2 _].
  pose proof (total_take_le L (S i) j ltac:(lia)) as Ht. rewrite (total_take_S _ _ Hi) in Ht. lia.
Qed.

(** In the run of a node, the only extent is its own. *)
Lemma find_in_run i n p : nodes l !! i = Some n -> 0 < clusters n ->
  heap_offset l (cluster n) <= p < heap_offset l (cluster n) + clusters n * CLUSTER ->
  find_extent (extents v) p =
    if p <? heap_offset l (cluster n) + node_size n then Some (heap_offset l (cluster n), OfNode i) else None.
Proof using B.
  pose proof (b_layout _ _ _ _ _ B) as L. intros Hi Hc Hp. pose proof (built_vol_ok B) as V.
  destruct (layout_nodes L _ _ Hi) as (Hs0 & Hcl & _ & _).
  pose proof (ceil_div_bounds (node_size n) CLUSTER ltac:(done)) as Hb. rewrite <- Hcl in Hb.
  destruct (Z.ltb_spec p (heap_offset l (cluster n) + node_size n)).
  - destruct (extent_list_has l (nodes l) 0 i n Hi) as (j & Hj); [unfold CLUSTER in *; lia|].
    eapply (find_extent_some _ _ (S j)); [apply (vo_extents _ V)|by rewrite (b_extents _ _ _ _ _ B)|]. lia.
  - apply find_extent_none. rewrite (b_extents _ _ _ _ _ B). intros [|j] s m src Hj; cbn in Hj.
    + injection Hj as <- <- _. left. destruct (upcase_run L (b_upcase _ _ _ _ _ B)) as [Hu _].
      destruct (node_run L _ _ Hi Hc) as [E _]. pose proof (total_take_le L 0 i ltac:(lia)) as Ht.
      change (total (take 0 (nodes l))) with 0 in Ht. unfold files_cluster in E.
      pose proof (heap_offset_add l (upcase_cluster l) (cluster n - upcase_cluster l)) as Ho.
      replace (upcase_cluster l + (cluster n - upcase_cluster l)) with (cluster n) in Ho by lia.
      unfold CLUSTER in *. lia.
    + apply extent_list_lookup in Hj as (k & nd & Hk & _ & -> & ->).
      destruct (layout_nodes L _ _ Hk) as (Hk0 & Hkc & _ & _).
      pose proof (ceil_div_bounds (node_size nd) CLUSTER ltac:(done)) as Hkb. rewrite <- Hkc in Hkb.
      unfold heap_offset, CLUSTER in *.
      destruct (Z.le_gt_cases (clusters nd) 0) as [Hz|Hz]; [lia|].
      destruct (Nat.lt_trichotomy i k) as [Hlt|[->|Hlt]].
      * pose proof (runs_in_order _ _ _ _ Hlt Hi Hk Hc Hz). lia.
      * rewrite Hi in Hk. injection Hk as ->. lia.
      * pose proof (runs_in_order _ _ _ _ Hlt Hk Hi Hz Hc). lia.
Qed.

(** The run of a node holds its bytes, then zeros. *)
Lemma run_bytes i n' k : nodes (lay v) !! i = Some n' -> 0 <= k < clusters n' * CLUSTER ->
  byte (heap_offset (lay v) (cluster n') + k) =
    if k <? node_size n' then (if directory n' then znth (payload n') k else content (path n') k) else 0.
Proof using B.
  intros Hi Hk. pose proof (b_layout _ _ _ _ _ B) as L. destruct lay_fields as (F1 & _ & F3 & F4 & _).
  destruct (b_nodes _ _ _ _ _ B _ _ Hi) as (n & Hn & Hf%filled_same).
  destruct Hf as (_ & _ & Es & Ec & Ecl & _ & _). rewrite F1, Es, Ec, Ecl in *. unfold CLUSTER in Hk.
  assert (Hc : 0 < clusters n) by lia. destruct (node_run L _ _ Hn Hc) as [E _].
  pose proof (total_take_le L 0 i ltac:(lia)) as Ht. change (total (take 0 (nodes l))) with 0 in Ht.
  pose proof (upcase_clusters_nonneg L (zlen_nonneg up)). pose proof (lo_upcase_cluster _ _ _ L).
  pose proof (lo_bitmap_fits _ _ _ L). unfold files_cluster, CLUSTER in *.
  rewrite heap_byte by (rewrite F4; unfold heap_offset, CLUSTER; lia).
  rewrite (find_in_run _ _ _ Hn Hc) by (unfold CLUSTER; lia).
  destruct (Z.ltb_spec k (node_size n)); settle; [|done]. cbn [source_byte]. rewrite Hi.
  by replace (heap_offset l (cluster n) + k - heap_offset l (cluster n)) with k by lia.
Qed.

(** *** The FAT and the bitmap *)

Lemma fat_word c : 0 <= c < cluster_count (lay v) + 2 ->
  stream byte (fat_start + 4 * c) 4 = le_bytes 4 (fat_value v c).
Proof using B.
  intros Hc. pose proof (built_vol_ok B) as V. pose proof (b_layout _ _ _ _ _ B) as L.
  destruct (regions _ V) as (R1 & R2 & R3 & R4 & R5 & R6 & R7). destruct lay_fields as (_ & F2 & _).
  assert (Ecc : cluster_count (lay v) = cluster_count l).
  { destruct (b_lay _ _ _ _ _ B) as (ms & -> & _). done. }
  pose proof (lo_fat _ _ _ L). unfold SECTOR in *.
  rewrite (stream_base byte (fat_byte v) fat_start).
  2: { intros p Hp. unfold disk_byte, SECTOR. by settle. }
  replace (fat_start + 4 * c - fat_start) with (4 * c) by lia.
  rewrite (stream_ext _ (fun p => znth (le_bytes 4 (fat_value v c)) (p + - (4 * c)))).
  2: { intros p Hp. unfold fat_byte.
       replace (p / 4) with c by (Z.to_euclidean_division_equations; lia).
       by replace (p mod 4) with (p + - (4 * c)) by (Z.to_euclidean_division_equations; lia). }
  rewrite stream_shift. replace (4 * c + - (4 * c)) with 0 by lia.
  rewrite <- slice_stream by (rewrite ?zlen_le_bytes; lia). by rewrite slice_all by (rewrite zlen_le_bytes; lia).
Qed.

Lemma bitmap_bit c : 2 <= c < 2 + cluster_count (lay v) ->
  Z.testbit (byte (bitmap_start v + (c - 2) / 8)) ((c - 2) mod 8) = (c <? 2 + allocated_clusters (lay v)).
Proof using B.
  intros Hc. pose proof (built_vol_ok B) as V. pose proof (b_layout _ _ _ _ _ B) as L.
  destruct (regions _ V) as (R1 & R2 & R3 & R4 & R5 & R6 & R7). destruct lay_fields as (_ & _ & F3 & F4 & _).
  assert (Ecc : cluster_count (lay v) = cluster_count l).
  { destruct (b_lay _ _ _ _ _ B) as (ms & -> & _). done. }
  rewrite Ecc in *. pose proof (lo_bitmap_length _ _ _ L). pose proof (ceil_div_bounds (cluster_count l) 8 ltac:(done)).
  set (k := c - 2) in *. assert (0 <= k / 8 < bitmap_length l) by (Z.to_euclidean_division_equations; lia).
  unfold disk_byte, SECTOR. rewrite (proj2 (Z.leb_le (bitmap_start v) _)), (proj2 (Z.ltb_lt _ (bitmap_end v))) by lia.
  settle. replace (bitmap_start v + k / 8 - bitmap_start v) with (k / 8) by lia.
  unfold bitmap_byte. set (a := allocated_clusters (lay v)).
  replace (c <? 2 + a) with (k <? a) by (unfold k; destruct (Z.ltb_spec (c - 2) a); settle; done).
  assert (Hm : 0 <= k mod 8 < 8) by (apply Z.mod_pos_bound; lia).
  destruct (Z.ltb_spec (k / 8) (a / 8)).
  - change 255 with (Z.ones 8). rewrite Z.ones_spec_low by lia. symmetry. apply Z.ltb_lt.
    Z.to_euclidean_division_equations; lia.
  - destruct (Z.eqb_spec (k / 8) (a / 8)).
    + change (Z.shiftl 1 (a mod 8) - 1) with (Z.pred (Z.shiftl 1 (a mod 8))).
      replace (Z.pred (Z.shiftl 1 (a mod 8))) with (Z.ones (a mod 8)) by done.
      destruct (Z.ltb_spec k a).
      * apply Z.ones_spec_low. Z.to_euclidean_division_equations; lia.
      * apply Z.ones_spec_high. Z.to_euclidean_division_equations; lia.
    + rewrite Z.bits_0. symmetry. apply Z.ltb_ge. Z.to_euclidean_division_equations; lia.
Qed.
End contents.

(** What the directory says of a node depends on these fields. *)
Definition same_view (n m : node) : Prop :=
  path n = path m /\ directory n = directory m /\ node_size n = node_size m /\ cluster n = cluster m /\ clusters n = clusters m.

Lemma child_dir_entries_ext py_upper cs ds : Forall2 same_view cs ds ->
  child_dir_entries py_upper cs = child_dir_entries py_upper ds.
Proof.
  induction 1 as [|c d cs ds (Hp & Hd & Hs & Hc & Hcl) _ IH]; [done|]. cbn [child_dir_entries].
  unfold node_name. rewrite Hp, IH. destruct (name_units _); [|done]. cbn [mbind result_bind].
  destruct (child_dir_entries py_upper ds); [|done]. cbn [mbind result_bind]. unfold entry_of, stream_length.
  by rewrite Hd, Hs, Hc, Hcl.
Qed.

(** ** The first sectors *)

Lemma ztake_put k off d b : k <= off -> off <= zlen b -> ztake k (put off d b) = ztake k b.
Proof.
  intros Hk Ho. unfold put. rewrite ztake_app_le by (rewrite zlen_ztake; lia).
  rewrite ztake_ztake. f_equal. lia.
Qed.

Lemma pack_split f v l bs : pack ((f, v) :: l) = Some bs ->
  fits f v = true /\ exists rest, pack l = Some rest /\ bs = le_bytes (fsize f) v ++ rest.
Proof.
  cbn. destruct (fits f v); [|done]. destruct (pack l) as [r|]; cbn; [|done]. intros [= <-]. split; [done|]. by exists r.
Qed.

(** The fields of a boot sector that a reader needs *)
Record boot_fields (sector : bytes) (fat_at heap_at root : Z) : Prop := {
  bf_fat : le_int (slice sector 80 84) = fat_at;
  bf_heap : le_int (slice sector 88 92) = heap_at;
  bf_root : le_int (slice sector 96 100) = root;
  bf_shift : znth sector 109 = 6
}.

Lemma boot_fields_of pre bs fat_at heap_at root a b c d e f g : zlen pre = 64 ->
  0 <= fat_at < 2 ^ 32 -> 0 <= heap_at < 2 ^ 32 -> 0 <= root < 2 ^ 32 ->
  bs = le_bytes 8 a ++ le_bytes 8 b ++ le_bytes 4 fat_at ++ le_bytes 4 c ++ le_bytes 4 heap_at ++ le_bytes 4 d
       ++ le_bytes 4 root ++ le_bytes 4 e ++ le_bytes 2 f ++ le_bytes 2 0 ++ [9; 6] ++ g ->
  boot_fields (pre ++ bs) fat_at heap_at root.
Proof.
  intros Hp Hf Hh Hr Hbs.
  assert (Hs : forall i j, 64 <= i -> slice (pre ++ bs) i j = slice bs (i - 64) (j - 64)).
  { intros i j Hi. unfold slice. replace i with ((i - 64) + 64) at 2 by lia. rewrite <- zdrop_zdrop by lia.
    rewrite zdrop_app_length by done. f_equal; lia. }
  split; [rewrite Hs by lia; subst bs..|]; [change (le_int (le_bytes 4 fat_at) = fat_at)|change (le_int (le_bytes 4 heap_at) = heap_at)
    |change (le_int (le_bytes 4 root) = root)|]; [rewrite le_int_le_bytes; by apply Z.mod_small..|].
  rewrite znth_app, Hp by lia. by subst bs.
Qed.

Lemma boot_region_fields l root b : boot_region l root = Ok b -> boot_fields (slice b 0 SECTOR) 24 (heap_sector l) root.
Proof.
  intros Hb. pose proof (zlen_boot_region _ _ _ Hb) as Hlen. unfold boot_region in Hb. bind_inv Hb. rename a into sectors, E into Es.
  pose proof (zlen_boot_sectors _ _ _ Es) as Hls. apply Ok_inj in Hb. set (crc := checksum _ _ _) in Hb. clearbody crc.
  unfold boot_sectors in Es. bind_inv Es. rename a into bs. apply struct_ok in E.
  pose proof (length_pack _ _ E) as Hl49. cbn in Hl49. assert (H49 : zlen bs = 49) by (unfold zlen; by rewrite Hl49). clear Hl49.
  apply Ok_inj in Es. set (b0 := put 0 _ _) in Es. assert (H0 : zlen b0 = 11 * SECTOR) by done.
  set (b1 := put 64 bs b0) in Es. assert (H1 : zlen b1 = 11 * SECTOR) by (unfold b1; rewrite zlen_put; unfold SECTOR in *; lia).
  set (b2 := put 510 _ b1) in Es. assert (H2 : zlen b2 = 11 * SECTOR) by
    (unfold b2; rewrite zlen_put; [exact H1|done|rewrite H1; by change (zlen [0x55; 0xaa]) with 2]).
  assert (Ht : ztake 113 sectors = ztake 64 b0 ++ bs).
  { subst sectors. assert (Hfold : forall ks b, Forall (fun i => 1 <= i <= 8) ks -> zlen b = 11 * SECTOR ->
      ztake 113 (foldl (fun boot i => put ((i + 1) * SECTOR - 4) (le_bytes 4 0xaa550000) boot) b ks) = ztake 113 b).
    { induction ks as [|i ks IH]; intros b' Hks Hb'; [done|]. apply Forall_cons in Hks as [Hi Hks]. cbn [foldl].
      rewrite IH; [|done|rewrite zlen_put; [done|unfold SECTOR; lia|]].
      - apply ztake_put; unfold SECTOR in *; lia.
      - change (zlen (le_bytes 4 2857697280)) with 4. rewrite Hb'. unfold SECTOR. lia. }
    rewrite Hfold; [|apply Forall_forall; intros i Hi%elem_of_seqZ; lia|done].
    unfold b2. rewrite ztake_put by (unfold SECTOR in *; lia). unfold b1, put. rewrite app_assoc.
    apply ztake_app_length. rewrite zlen_app, zlen_ztake, H49. unfold SECTOR in *. lia. }
  assert (Hpre : zlen (ztake 64 b0) = 64) by (rewrite zlen_ztake; unfold SECTOR in *; lia). clearbody b0 b1 b2.
  do 12 (apply pack_split in E as (? & ? & E & ->)).
  assert (Hbits : forall v, fits fI v = true -> 0 <= v < 2 ^ 32) by (intros v Hv; by apply fits_nonneg in Hv).
  assert (Hf : boot_fields (ztake 113 sectors) 24 (heap_sector l) root).
  { rewrite Ht. eapply boot_fields_of; [done|lia|by apply Hbits..|]. cbn [fsize]. reflexivity. }
  assert (Hsl : forall i j, 0 <= i <= j -> j <= 113 -> slice (slice b 0 SECTOR) i j = slice (ztake 113 sectors) i j).
  { intros i j Hi Hj. rewrite slice_slice0 by (unfold SECTOR; lia). rewrite <- Hb, <- app_assoc. unfold slice.
    rewrite zdrop_app_le, ztake_app_le by (rewrite ?zlen_zdrop; unfold SECTOR in *; lia).
    rewrite <- (ztake_zdrop 113 sectors) at 1. rewrite zdrop_app_le, ztake_app_le by (rewrite ?zlen_zdrop, zlen_ztake; unfold SECTOR in *; lia). done. }
  destruct Hf as [F1 F2 F3 F4]. split; [by rewrite Hsl by lia..|].
  assert (Hz : forall (x : bytes), 110 <= zlen x -> znth x 109 = le_int (slice x 109 110)).
  { intros x Hx. replace 110 with (109 + 1) by lia. rewrite slice_stream by lia.
    change (znth x 109 = znth x 109 + 256 * 0). lia. }
  rewrite Hz by (unfold slice; rewrite zlen_ztake, zdrop_0; unfold SECTOR in *; lia).
  rewrite Hsl by lia. rewrite <- Hz; [done|]. rewrite zlen_ztake. unfold SECTOR in *. lia.
Qed.

Lemma mbr_partition l b : mbr_sector l = Ok b -> le_int (slice b 454 458) = PARTITION.
Proof. unfold mbr_sector. intros H. bind_inv H. apply struct_ok, pack2 in E as (_ & _ & ->). by apply Ok_inj in H as <-. Qed.

(** ** The mounted disk *)

Section mounted.
Context {py_upper : Z -> list Z} {Os : Type} `{FileHost Os}.

(** The FAT entry of a cluster, as the disk's bytes give it *)
Definition read_fat (d : device Os) (c : Z) : Z := le_int (stream (byte_of d) (fat_start + 4 * c) 4).

Lemma read_fat_value {ns up l} d c : built py_upper ns up l (vol d) -> 0 <= c < cluster_count (lay (vol d)) + 2 ->
  read_fat d c = fat_value (vol d) c.
Proof.
  intros B Hc. unfold read_fat, byte_of. rewrite (fat_word B) by done. rewrite le_int_le_bytes.
  apply Z.mod_small. apply fat_value_bound, (vo_chains _ (built_vol_ok B)).
Qed.

Lemma built_children {ns up l v} i n n' : built py_upper ns up l v -> nodes l !! i = Some n ->
  filled py_upper l up i n n' ->
  Forall2 same_view (child_nodes (nodes (lay v)) n') (child_nodes (nodes l) n).
Proof.
  intros B Hi (_ & _ & _ & _ & _ & Hc & _)%filled_same. unfold child_nodes. rewrite Hc. clear Hc.
  induction (children n) as [|j cs IH]; [constructor|]. cbn [omap list_omap].
  destruct (nodes l !! j) as [m|] eqn:Ej.
  - destruct (built_node B _ _ Ej) as (m' & -> & (? & ? & ? & ? & ? & _)%filled_same).
    constructor; [|exact IH]. by split_and!.
  - destruct (nodes (lay v) !! j) as [m'|] eqn:Ej'; [|exact IH].
    destruct (b_nodes _ _ _ _ _ B _ _ Ej') as (m & Hm & _). congruence.
Qed.

(** The run of the node at [i] lies in the cluster heap. *)
Lemma built_run {ns up l v} i n' : built py_upper ns up l v -> nodes (lay v) !! i = Some n' -> 0 < clusters n' ->
  2 <= cluster n' /\ cluster n' + clusters n' + 14 <= cluster_count (lay v).
Proof.
  intros B Hi Hc. pose proof (b_layout _ _ _ _ _ B) as L.
  destruct (b_nodes _ _ _ _ _ B _ _ Hi) as (n & Hn & (_ & _ & _ & Ec & Ecl & _)%filled_same).
  rewrite Ec, Ecl in *. destruct (node_run L _ _ Hn Hc) as [E Hle].
  pose proof (total_take_le L 0 i ltac:(lia)) as Ht. change (total (take 0 (nodes l))) with 0 in Ht.
  pose proof (upcase_clusters_nonneg L (zlen_nonneg up)). pose proof (lo_upcase_cluster _ _ _ L).
  pose proof (lo_bitmap_clusters _ _ _ L). pose proof (lo_free _ _ _ L). unfold files_cluster in *.
  destruct (b_lay _ _ _ _ _ B) as (ms & -> & _). cbn. lia.
Qed.

(** C4. A file of the folder is on the disk: read from its first cluster, any number of sectors
    of its run are its content followed by zeros. *)
Theorem mounted_file_reads root os (d : device Os) i n count :
  readable os -> init py_upper root os = Ok d ->
  nodes (lay (vol d)) !! i = Some n -> directory n = false -> 0 < node_size n ->
  0 <= count <= clusters n * (CLUSTER / SECTOR) ->
  exists st c d', fh_file os (path n) = Some (st, c) /\ zlen c = node_size n /\ node_size n <= clusters n * CLUSTER /\
    (_ ← seek (heap_offset (lay (vol d)) (cluster n) / SECTOR) (Some count); read (count * SECTOR)) d =
      (Ok (ztake (count * SECTOR) (c ++ zeros (clusters n * CLUSTER - zlen c))), d').
Proof.
  intros R Hinit Hi Hdir Hsize Hcount. destruct (init_spec os root d R Hinit) as (Eh & Hd & ns & up & l & B).
  pose proof (b_layout _ _ _ _ _ B) as L. change (CLUSTER / SECTOR) with 64 in Hcount.
  destruct Hd as (V & Hh & Hf). destruct (Forall_lookup_1 _ _ _ _ Hf Hi Hdir) as (st & c & Hc & _ & Hl).
  destruct (b_nodes _ _ _ _ _ B _ _ Hi) as (n0 & Hn0 & (_ & _ & Es & _ & Ecl & _)%filled_same).
  destruct (layout_nodes L _ _ Hn0) as (_ & Hk & _). rewrite <- Es, <- Ecl in Hk.
  pose proof (ceil_div_bounds (node_size n) CLUSTER ltac:(done)) as Hb. rewrite <- Hk in Hb. unfold CLUSTER in Hb.
  destruct (built_run _ _ B Hi) as [H2 Hle]; [lia|].
  set (sector := heap_offset (lay (vol d)) (cluster n) / SECTOR).
  assert (Esec : sector * SECTOR = heap_offset (lay (vol d)) (cluster n)).
  { unfold sector, heap_offset, SECTOR, CLUSTER. Z.to_euclidean_division_equations; lia. }
  pose proof (vo_size _ V) as [Esz _]. pose proof (vo_fat _ V) as [? ?].
  destruct (seek_spec d sector count) as (d1 & E1 & Hr & Ev & Eh1); [done| |lia| |].
  { unfold sector, heap_offset, SECTOR, CLUSTER, PARTITION in *. Z.to_euclidean_division_equations; lia. }
  { unfold sector_count. rewrite Esz. unfold sector, heap_offset, SECTOR, CLUSTER, PARTITION in *.
    Z.to_euclidean_division_equations; lia. }
  replace (count * SECTOR) with (count * SECTOR + 0) in Hr by lia.
  destruct (read_spec d1 _ _ 0 Hr) as (d2 & E2 & _); [unfold SECTOR; lia|lia|].
  exists st, c, d2. split_and!; [by rewrite <- Eh|done|unfold CLUSTER; lia|].
  unfold mbind, M_bind. rewrite E1, E2. do 2 f_equal. unfold byte_of. rewrite Ev, Eh1, Esec.
  rewrite (stream_base _ (znth (c ++ zeros (clusters n * CLUSTER - zlen c))) (heap_offset (lay (vol d)) (cluster n))).
  - rewrite Z.sub_diag, <- slice_stream; [|lia|rewrite zlen_app, zlen_zeros; unfold SECTOR, CLUSTER; lia].
    unfold slice. by rewrite Z.sub_0_r.
  - intros p Hp. set (k := p - heap_offset (lay (vol d)) (cluster n)).
    replace p with (heap_offset (lay (vol d)) (cluster n) + k) by lia. unfold SECTOR in Hp.
    rewrite (run_bytes B _ _ _ _ Hi) by (unfold CLUSTER; lia). rewrite Hdir, znth_app, Hl by lia.
    destruct (Z.ltb_spec k (node_size n)); [|by rewrite znth_zeros]. unfold file_content. by rewrite Hc.
Qed.

(** *** A console that mounts the disk *)

(** Sectors as the device returns them *)
Definition read_sectors (sector count : Z) : M (device Os) bytes :=
  _ ← seek sector (Some count); read (count * SECTOR).

(** What the partition table and the boot sector say: the sectors of the FAT and of the cluster
    heap, the sectors of a cluster, and the cluster of the root directory *)
Record geometry := Geometry { g_fat : Z; g_heap : Z; g_cluster : Z; g_root : Z }.

Definition read_geometry : M (device Os) geometry :=
  m ← read_sectors 0 1;
  let first := le_int (slice m 454 458) in
  b ← read_sectors first 1;
  mret {| g_fat := first + le_int (slice b 80 84); g_heap := first + le_int (slice b 88 92);
          g_cluster := 2 ^ znth b 109; g_root := le_int (slice b 96 100) |}.

(** The FAT entry of a cluster *)
Definition read_next (g : geometry) (c : Z) : M (device Os) Z :=
  bs ← read_sectors (g_fat g + c / 128) 1;
  mret (le_int (slice bs (4 * (c mod 128)) (4 * (c mod 128) + 4))).

(** The clusters of a chain, by the FAT *)
Fixpoint read_chain (fuel : nat) (g : geometry) (c : Z) : M (device Os) (option (list Z)) :=
  match fuel with
  | O => mret None
  | S fuel =>
      next ← read_next g c;
      if next =? 0xffffffff then mret (Some [c])
      else rest ← read_chain fuel g next; mret (match rest with Some cs => Some (c :: cs) | None => None end)
  end.

Fixpoint read_clusters (g : geometry) (cs : list Z) : M (device Os) bytes :=
  match cs with
  | [] => mret []
  | c :: cs =>
      bs ← read_sectors (g_heap g + (c - 2) * g_cluster g) (g_cluster g);
      rest ← read_clusters g cs;
      mret (bs ++ rest)
  end.

(** The entries of the directory whose first cluster is [c] *)
Definition read_folder (clusters entries : nat) (g : geometry) (c : Z) : M (device Os) (option (list dir_entry)) :=
  cs ← read_chain clusters g c;
  match cs with
  | Some cs => bs ← read_clusters g cs; mret (read_directory entries bs)
  | None => mret None
  end.

(** [m] returns [a] and leaves a disk with the same bytes. *)
Definition reads_as {A} (d : device Os) (m : M (device Os) A) (a : A) : Prop :=
  forall d0, disk_ok d0 -> vol d0 = vol d -> (forall p, byte_of d0 p = byte_of d p) ->
  exists d', m d0 = (Ok a, d') /\ disk_ok d' /\ vol d' = vol d /\ (forall p, byte_of d' p = byte_of d p).

Lemma reads_ret {A} d (a : A) : reads_as d (mret a) a.
Proof. intros d0 H1 H2 H3. by exists d0. Qed.

Lemma reads_bind {A B} d (m : M (device Os) A) a (k : A -> M (device Os) B) b :
  reads_as d m a -> reads_as d (k a) b -> reads_as d (m ≫= k) b.
Proof.
  intros Hm Hk d0 H1 H2 H3. destruct (Hm d0 H1 H2 H3) as (d1 & E1 & G1 & G2 & G3).
  destruct (Hk d1 G1 G2 G3) as (d2 & E2 & G). exists d2. split; [|done]. unfold mbind, M_bind. by rewrite E1.
Qed.

Lemma reads_sectors d sector count : 0 <= sector -> 0 <= count -> sector + count <= sector_count d ->
  reads_as d (read_sectors sector count) (stream (byte_of d) (sector * SECTOR) (count * SECTOR)).
Proof.
  intros Hs Hc Hn d0 Hd Ev Eb. destruct (seek_spec d0 sector count) as (d1 & E1 & Hr & Ev1 & Eh1); [done..| |].
  { unfold sector_count in *. by rewrite Ev. }
  replace (count * SECTOR) with (count * SECTOR + 0) in Hr by lia.
  destruct (read_spec d1 _ _ 0 Hr) as (d2 & E2 & Hr2 & Ev2 & Ef2); [unfold SECTOR; lia|lia|].
  assert (Eb1 : forall p, byte_of d1 p = byte_of d p) by (intros p; rewrite <- Eb; unfold byte_of; by rewrite Ev1, Eh1).
  exists d2. split_and!; [|apply Hr2|congruence|].
  - unfold read_sectors, mbind, M_bind. rewrite E1, E2. do 2 f_equal. apply stream_ext. intros p _. apply Eb1.
  - intros p. rewrite <- Eb1. unfold byte_of. rewrite Ev2. apply disk_byte_ext. intros q off. unfold file_content. by rewrite Ef2.
Qed.

(** The bytes of a cluster *)
Definition cluster_bytes (d : device Os) (c : Z) : bytes := stream (byte_of d) (heap_offset (lay (vol d)) c) CLUSTER.

Lemma concat_clusters d a n : concat (map (cluster_bytes d) (seqZ a (Z.of_nat n))) =
  stream (byte_of d) (heap_offset (lay (vol d)) a) (Z.of_nat n * CLUSTER).
Proof.
  revert a; induction n as [|n IH]; intros a; [done|]. rewrite seqZ_cons by lia. cbn [map concat].
  replace (Z.pred (Z.of_nat (S n))) with (Z.of_nat n) by lia. rewrite IH.
  replace (Z.of_nat (S n) * CLUSTER) with (CLUSTER + Z.of_nat n * CLUSTER) by lia.
  rewrite stream_app by (unfold CLUSTER; lia). unfold cluster_bytes. f_equal. f_equal.
  unfold Z.succ. rewrite heap_offset_add. lia.
Qed.

(** Where things are on a constructed disk *)
Definition geometry_of (v : volume) : geometry :=
  Geometry (PARTITION + 24) (PARTITION + heap_sector (lay v)) 64 (match nodes (lay v) with n :: _ => cluster n | [] => 0 end).

Section reader.
Context {ns : list node} {up : bytes} {l : layout} (d : device Os) (B : built py_upper ns up l (vol d)).

Lemma lay_geometry : heap_sector (lay (vol d)) = heap_sector l /\ cluster_count (lay (vol d)) = cluster_count l /\
  sector_count d = PARTITION + heap_sector l + cluster_count l * 64 /\ 0 <= fat_length l /\ 24 + fat_length l <= heap_sector l /\
  4 * (cluster_count l + 2) <= fat_length l * 512 /\ 64 <= cluster_count l.
Proof using B.
  pose proof (b_layout _ _ _ _ _ B) as L. destruct (b_lay _ _ _ _ _ B) as (ms & El & _). pose proof (lo_fat _ _ _ L).
  pose proof (lo_heap _ _ _ L). pose proof (lo_count _ _ _ L). unfold SECTOR in *. unfold sector_count. rewrite El. cbn [heap_sector cluster_count size].
  change (heap_sector (l <| nodes := ms |>)) with (heap_sector l). change (cluster_count (l <| nodes := ms |>)) with (cluster_count l).
  change (size (l <| nodes := ms |>)) with (size l). rewrite (lo_size _ _ _ L), (lo_sectors _ _ _ L). unfold SECTOR.
  rewrite Z.div_mul by done. split_and!; lia.
Qed.

Lemma reads_geometry : reads_as d read_geometry (geometry_of (vol d)).
Proof using B.
  pose proof (built_vol_ok B) as V. destruct (regions _ V) as (R1 & R2 & R3 & R4 & R5 & R6 & R7).
  destruct lay_geometry as (G1 & G2 & G3 & G4 & G5 & G6 & G7).
  unfold read_geometry. eapply reads_bind; [apply reads_sectors; unfold PARTITION in *; lia|]. cbv zeta.
  assert (Em : stream (byte_of d) (0 * SECTOR) (1 * SECTOR) = mbr (vol d)).
  { rewrite (stream_base _ (znth (mbr (vol d))) 0).
    - change (0 * SECTOR - 0) with 0. rewrite <- slice_stream by (unfold SECTOR; lia). apply slice_all. unfold SECTOR. lia.
    - intros p Hp. unfold byte_of, disk_byte, SECTOR in *. settle. f_equal. lia. }
  rewrite Em, (mbr_partition _ _ (b_mbr _ _ _ _ _ B)).
  eapply reads_bind; [apply reads_sectors; unfold PARTITION in *; lia|].
  assert (Eb : stream (byte_of d) (PARTITION * SECTOR) (1 * SECTOR) = slice (boot (vol d)) 0 SECTOR).
  { rewrite (stream_base _ (znth (boot (vol d))) boot_start).
    - unfold boot_start. rewrite Z.sub_diag. symmetry. apply (slice_stream _ 0); unfold SECTOR; lia.
    - intros p Hp. unfold byte_of, disk_byte, PARTITION, SECTOR in *. by settle. }
  rewrite Eb. destruct (boot_region_fields _ _ _ (b_boot _ _ _ _ _ B)) as [F1 F2 F3 F4]. rewrite F1, F2, F3, F4.
  unfold geometry_of. rewrite G1. apply reads_ret.
Qed.

Lemma reads_next c : 0 <= c < cluster_count l + 2 -> reads_as d (read_next (geometry_of (vol d)) c) (read_fat d c).
Proof using B.
  intros Hc. destruct lay_geometry as (G1 & G2 & G3 & G4 & G5 & G6 & G7).
  unfold read_next. eapply reads_bind; [apply reads_sectors; cbn [geometry_of g_fat]; unfold PARTITION in *; Z.to_euclidean_division_equations; lia|].
  rewrite slice_of_stream by (unfold SECTOR; Z.to_euclidean_division_equations; lia). cbn [geometry_of g_fat].
  replace ((PARTITION + 24 + c / 128) * SECTOR + 4 * (c mod 128)) with (fat_start + 4 * c); [apply reads_ret|].
  unfold fat_start, SECTOR. Z.to_euclidean_division_equations; lia.
Qed.

(** Reading a chain whose clusters follow each other *)
Lemma reads_run s n : (forall c, s <= c < s + n -> read_fat d c = if c <? s + n - 1 then c + 1 else 0xffffffff) ->
  0 <= s -> s + n <= cluster_count l + 2 -> s + n < 2 ^ 32 -> forall k, (0 < k)%nat -> Z.of_nat k <= n ->
  reads_as d (read_chain k (geometry_of (vol d)) (s + n - Z.of_nat k)) (Some (seqZ (s + n - Z.of_nat k) (Z.of_nat k))).
Proof using B.
  intros Hnext Hs Hn Hw k Hk. induction k as [|k IH]; intros Hkn; [lia|]. cbn [read_chain].
  eapply reads_bind; [apply reads_next; lia|]. rewrite Hnext by lia.
  rewrite (seqZ_cons _ (Z.of_nat (S k))) by lia. destruct k as [|k].
  - rewrite (proj2 (Z.ltb_ge _ _)) by lia. apply reads_ret.
  - rewrite (proj2 (Z.ltb_lt _ _)), (proj2 (Z.eqb_neq _ _)) by lia.
    replace (s + n - Z.of_nat (S (S k)) + 1) with (s + n - Z.of_nat (S k)) by lia.
    eapply reads_bind; [apply IH; lia|]. cbv beta iota.
    replace (Z.succ (s + n - Z.of_nat (S (S k)))) with (s + n - Z.of_nat (S k)) by lia.
    replace (Z.pred (Z.of_nat (S (S k)))) with (Z.of_nat (S k)) by lia. apply reads_ret.
Qed.

Lemma reads_clusters cs : Forall (fun c => 2 <= c < cluster_count l + 2) cs ->
  reads_as d (read_clusters (geometry_of (vol d)) cs) (concat (map (cluster_bytes d) cs)).
Proof using B.
  destruct lay_geometry as (G1 & G2 & G3 & G4 & G5 & G6 & G7).
  induction 1 as [|c cs Hc _ IH]; cbn [read_clusters map concat]; [apply reads_ret|].
  eapply reads_bind; [apply reads_sectors; cbn [geometry_of g_heap g_cluster]; unfold PARTITION in *; lia|].
  eapply reads_bind; [exact IH|].
  replace ((g_heap (geometry_of (vol d)) + (c - 2) * g_cluster (geometry_of (vol d))) * SECTOR) with (heap_offset (lay (vol d)) c)
    by (cbn [geometry_of g_heap g_cluster]; unfold heap_offset, SECTOR, CLUSTER; lia).
  change (g_cluster (geometry_of (vol d)) * SECTOR) with CLUSTER.
  assert (Ec : stream (byte_of d) (heap_offset (lay (vol d)) c) CLUSTER = cluster_bytes d c) by exact eq_refl.
  rewrite Ec. apply reads_ret.
Qed.

(** A directory is one chain of the FAT, and its clusters hold its entries. *)
Lemma reads_folder i n : nodes (lay (vol d)) !! i = Some n -> directory n = true ->
  exists es, child_dir_entries py_upper (child_nodes (nodes (lay (vol d))) n) = Ok es /\
    reads_as d (read_folder (Z.to_nat (clusters n)) (length (children n) + 5) (geometry_of (vol d)) (cluster n)) (Some es).
Proof using B.
  intros Hi Hdir. pose proof (b_layout _ _ _ _ _ B) as L. destruct lay_geometry as (_ & G2 & _).
  destruct (b_nodes _ _ _ _ _ B _ _ Hi) as (n0 & Hn0 & Hf). pose proof (filled_same _ _ _ Hf) as Hsame.
  destruct Hsame as (_ & Ed & Es & Ec & Ecl & Ech & _). pose proof Hdir as Hdir'. rewrite Ed in Hdir.
  destruct (filled_payload B _ _ _ Hn0 Hf Hdir) as [Hpl Hbytes]. rewrite <- Es in Hpl.
  destruct (layout_nodes L _ _ Hn0) as (_ & Hk & Hpos & _). specialize (Hpos Hdir).
  rewrite <- Es in Hk, Hpos. rewrite <- Ecl in Hk.
  pose proof (ceil_div_bounds (node_size n) CLUSTER ltac:(done)) as Hb. rewrite <- Hk in Hb. unfold CLUSTER in Hb.
  destruct (built_run _ _ B Hi) as [H2 Hle]; [lia|]. pose proof (vo_chains _ (built_vol_ok B)) as Hch.
  assert (Hc : exists j, chains (vol d) !! j = Some (cluster n, clusters n)).
  { rewrite (b_chains _ _ _ _ _ B). apply list_elem_of_lookup. do 2 apply list_elem_of_further.
    apply list_elem_of_In, in_map_iff. exists n0. split; [by rewrite Ec, Ecl|].
    apply filter_In. split; [by eapply list_elem_of_In, list_elem_of_lookup_2|done]. }
  destruct Hc as [j Hj]. pose proof (chains_from_lookup _ _ _ _ _ Hch Hj) as Hw.
  destruct (directory_readable py_upper l up i n0 _ Hbytes) as (es & Hes & Hread).
  exists es. split; [rewrite <- Hes; apply child_dir_entries_ext; exact (built_children i n0 n B Hn0 Hf)|].
  unfold read_folder. pose proof (reads_run (cluster n) (clusters n)) as Hrun.
  eapply reads_bind.
  { specialize (Hrun ltac:(intros c Hcr; rewrite (read_fat_value _ _ B) by lia; by eapply fat_value_chain) ltac:(lia) ltac:(lia) ltac:(lia)
                  (Z.to_nat (clusters n)) ltac:(lia) ltac:(lia)).
    rewrite Z2Nat.id in Hrun by lia. replace (cluster n + clusters n - clusters n) with (cluster n) in Hrun by lia. exact Hrun. }
  cbv beta iota. eapply reads_bind; [apply reads_clusters|].
  { apply Forall_forall. intros c Hc%elem_of_seqZ. lia. }
  rewrite Ech, <- (Hread (zeros (clusters n * CLUSTER - node_size n))).
  replace (concat (map (cluster_bytes d) (seqZ (cluster n) (clusters n)))) with (payload n ++ zeros (clusters n * CLUSTER - node_size n)); [apply reads_ret|].
  rewrite <- (Z2Nat.id (clusters n)) at 2 by lia. rewrite concat_clusters, Z2Nat.id by lia.
  set (bs := payload n ++ zeros _).
  rewrite (stream_base _ (znth bs) (heap_offset (lay (vol d)) (cluster n))).
  - assert (Hlen : zlen bs = clusters n * CLUSTER) by (unfold bs; rewrite zlen_app, zlen_zeros; unfold CLUSTER; lia).
    rewrite Z.sub_diag, <- slice_stream by lia. by rewrite slice_all by lia.
  - intros p Hp. set (k := p - heap_offset (lay (vol d)) (cluster n)).
    replace p with (heap_offset (lay (vol d)) (cluster n) + k) by lia. unfold byte_of.
    rewrite (run_bytes B _ _ _ _ Hi) by lia. unfold bs. rewrite Hdir', znth_app, Hpl by lia.
    destruct (Z.ltb_spec k (node_size n)); [done|]. by rewrite znth_zeros.
Qed.
End reader.

(** C5. A directory of the folder is on the disk.  A reader of the format that has only the
    sectors the device returns -- it takes the geometry from the partition table and the boot
    sector, follows the chain of the directory in the FAT and reads its clusters -- finds
    exactly the entries of the directory's children: names, attributes, first clusters,
    lengths and name hashes, every set with the checksum that the format prescribes.  It finds
    the root directory from the boot sector alone. *)
Theorem mounted_directory root os (d : device Os) i n :
  readable os -> init py_upper root os = Ok d ->
  nodes (lay (vol d)) !! i = Some n -> directory n = true ->
  exists es d', child_dir_entries py_upper (child_nodes (nodes (lay (vol d))) n) = Ok es /\
    (g ← read_geometry;
     read_folder (Z.to_nat (clusters n)) (length (children n) + 5) g (match i with O => g_root g | _ => cluster n end)) d
      = (Ok (Some es), d').
Proof.
  intros R Hinit Hi Hdir. destruct (init_spec os root d R Hinit) as (_ & Hd & ns & up & l & B).
  destruct (reads_folder d B i n Hi Hdir) as (es & Hes & Hr).
  assert (Hroot : (match i with O => g_root (geometry_of (vol d)) | _ => cluster n end) = cluster n).
  { destruct i; [|done]. cbn [geometry_of g_root]. destruct (nodes (lay (vol d))); [done|]. by injection Hi as ->. }
  rewrite <- Hroot in Hr. destruct (reads_bind d read_geometry _ (fun g => read_folder _ _ g (match i with O => g_root g | _ => cluster n end)) _
              (reads_geometry d B) Hr d Hd eq_refl ltac:(done)) as (d' & E & _).
  by exists es, d'.
Qed.

Lemma built_owns {ns up l v} o c : built py_upper ns up l v -> owns (lay v) o c <-> owns l o c.
Proof.
  intros B. assert (E : run_of (lay v) o = run_of l o); [|unfold owns; by rewrite E].
  destruct (b_lay _ _ _ _ _ B) as (ms & El & Hms). destruct o as [| |i]; cbn; [by rewrite El..|].
  destruct (nodes l !! i) as [n|] eqn:En.
  - destruct (built_node B _ _ En) as (n' & -> & (_ & _ & _ & Ec & Ecl & _)%filled_same). cbn. by rewrite Ec, Ecl.
  - rewrite El. cbn. apply lookup_ge_None in En. by rewrite (proj2 (lookup_ge_None ms i)) by lia.
Qed.

(** The allocation bitmap on the disk marks exactly the clusters that belong to the bitmap,
    the up-case table, a directory or a file, and none belongs to two. *)
Theorem bitmap_marks_owned root os (d : device Os) c :
  readable os -> init py_upper root os = Ok d -> 2 <= c < 2 + cluster_count (lay (vol d)) ->
  (Z.testbit (byte_of d (bitmap_start (vol d) + (c - 2) / 8)) ((c - 2) mod 8) = true
     <-> exists o, owns (lay (vol d)) o c) /\
  (forall o o', owns (lay (vol d)) o c -> owns (lay (vol d)) o' c -> o = o').
Proof.
  intros R Hinit Hc. destruct (init_spec os root d R Hinit) as (_ & _ & ns & up & l & B).
  pose proof (b_layout _ _ _ _ _ B) as L. pose proof (zlen_nonneg up) as Hup.
  destruct (lay_fields B) as (_ & _ & _ & _ & Ea). split.
  - unfold byte_of. rewrite (bitmap_bit B), Ea, Z.ltb_lt by done. split.
    + intros Hlt. destruct (owner_exists _ _ _ c L Hup) as (o & Ho & _); [lia|]. exists o. by apply (built_owns _ _ B).
    + intros [o Ho%(built_owns _ _ B)]. pose proof (owner_allocated _ _ _ _ _ L Hup Ho). lia.
  - intros o o' Ho%(built_owns _ _ B) Ho'%(built_owns _ _ B).
    destruct (owner_exists _ _ _ c L Hup (owner_allocated _ _ _ _ _ L Hup Ho)) as (o1 & _ & H1).
    by rewrite (H1 _ Ho), (H1 _ Ho').
Qed.

(** The FAT on the disk: inside the run of the bitmap, the up-case table or a directory each
    entry names the next cluster and the last one ends the chain; every other entry, those
    of files (which are contiguous) and of free clusters, is 0. *)
Theorem fat_exact root os (d : device Os) c :
  readable os -> init py_upper root os = Ok d -> 2 <= c < 2 + cluster_count (lay (vol d)) ->
  (forall s n, (s, n) ∈ chains (vol d) -> s <= c < s + n ->
     read_fat d c = if c <? s + n - 1 then c + 1 else 0xffffffff) /\
  ((forall s n, (s, n) ∈ chains (vol d) -> ~ s <= c < s + n) -> read_fat d c = 0) /\
  (forall s n, (s, n) ∈ chains (vol d) <->
     exists o, run_of (lay (vol d)) o = Some (s, n) /\
       match o with O_node i => exists nd, nodes (lay (vol d)) !! i = Some nd /\ directory nd = true | _ => True end).
Proof.
  intros R Hinit Hc. destruct (init_spec os root d R Hinit) as (_ & Hd & ns & up & l & B).
  pose proof (vo_chains _ (proj1 Hd)) as V. rewrite !(read_fat_value _ _ B) by lia. split_and!.
  - intros s n [i Hi]%list_elem_of_lookup Hr. by eapply fat_value_chain.
  - intros Hfree. apply fat_value_free; [done|lia|]. intros i s n Hi%list_elem_of_lookup_2.
    pose proof (Hfree _ _ Hi). lia.
  - intros s n. rewrite (b_chains _ _ _ _ _ B), !elem_of_cons, list_elem_of_In, in_map_iff.
    destruct (b_lay _ _ _ _ _ B) as (ms & El & Hms). split.
    + intros [E|[E|(n0 & E & Hin%filter_In)]].
      * exists O_bitmap. rewrite El. cbn. by rewrite <- E.
      * exists O_upcase. rewrite El. cbn. by rewrite <- E.
      * destruct Hin as [[i Hi]%list_elem_of_In%list_elem_of_lookup Hdir].
        destruct (built_node B _ _ Hi) as (n' & Hn' & (_ & Ed & _ & Ec & Ecl & _)%filled_same).
        exists (O_node i). cbn. rewrite Hn'. cbn. rewrite Ec, Ecl, E. split; [done|]. exists n'. by rewrite Ed.
    + intros ([| |i] & E & Ho); rewrite ?El in E; cbn in E.
      * injection E as <- <-. by left.
      * injection E as <- <-. by right; left.
      * destruct Ho as (nd & Hnd & Hdir). rewrite El in Hnd. cbn in Hnd. rewrite Hnd in E. cbn in E.
        injection E as <- <-. right; right.
        destruct (b_nodes _ _ _ _ _ B i nd) as (n0 & Hn0 & (_ & Ed & _ & Ec & Ecl & _)%filled_same); [by rewrite El|].
        exists n0. rewrite Ec, Ecl. split; [done|]. apply filter_In. rewrite <- Ed. split; [|done].
        by eapply list_elem_of_In, list_elem_of_lookup_2.
Qed.
End mounted.

(** ** The virtual exFAT disk: construction ends

    Every loop of the constructor ends: resolving the folder, the recursion over it, the
    compression of the up-case table, the search for the bitmap's size, the generation of
    the directories.  A folder is either presented or refused with an exception. *)

(** Results that are not the mark of a loop without end *)
Definition ends {A} (r : result A) : Prop := r <> Err Hang.

Lemma ends_ok {A} (a : A) : ends (Ok a).
Proof. done. Qed.
Lemma ends_err {A} e : e <> Hang -> ends (@Err A e).
Proof. by intros H [= ->]. Qed.
Lemma ends_then {A B} (m : result A) (k : A -> result B) :
  ends m -> (forall a, m = Ok a -> ends (k a)) -> ends (m ≫= k).
Proof. intros Hm Hk. destruct m as [a|e]; cbn; [by apply Hk|]. by intros [= ->]. Qed.
Lemma ends_struct {A} (o : option A) : ends (struct_result o).
Proof. by destruct o. Qed.

Create HintDb ends discriminated.
#[export] Hint Resolve ends_ok ends_struct : ends.
#[export] Hint Extern 1 (ends (Err _)) => (apply ends_err; discriminate) : ends.
#[export] Hint Extern 2 (ends (mbind _ _)) => (apply ends_then; [|intros ? ?]) : ends.

Lemma utf16_ends cs : ends (utf16_units cs).
Proof. induction cs as [|c cs IH]; cbn [utf16_units]; [auto with ends|]. destruct (_ && _); auto with ends. Qed.

Lemma name_units_ends s : ends (name_units s).
Proof. unfold name_units. apply ends_then; [apply utf16_ends|]. intros us _. destruct (_ || _); auto with ends. Qed.
#[export] Hint Resolve utf16_ends name_units_ends : ends.

Lemma child_entries_ends cs : ends (child_entries cs).
Proof. induction cs as [|c cs IH]; cbn [child_entries]; auto 6 with ends. Qed.
#[export] Hint Resolve child_entries_ends : ends.

Lemma size_nodes_ends ns l : forall i, ends (size_nodes ns i l).
Proof.
  induction l as [|n l IH]; intros i; cbn [size_nodes]; [auto with ends|].
  apply ends_then; [destruct (directory n); auto with ends|]. intros m _. apply ends_then; auto with ends.
Qed.

Lemma lay_out_ends ns ulen : 0 <= ulen -> sizes_ok ns -> ends (lay_out ns ulen).
Proof.
  intros Hu Hns. unfold lay_out. apply ends_then; [apply size_nodes_ends|]. intros sz Hsz.
  pose proof (size_nodes_nonneg _ _ Hsz Hns) as Hpos.
  destruct (solve_bitmap_total (foldr Z.add 0 (map clusters sz)) (ceil_div ulen CLUSTER)) as [[count bc] ->].
  { apply (total_nonneg sz). eapply Forall_impl; [exact Hpos|]. by intros ? [_ ?]. }
  { by apply ceil_div_nonneg. }
  cbn [mbind result_bind]. destruct (assign_clusters _ sz) as [out last]. destruct (_ <? _); auto with ends.
Qed.

Lemma name_entries_ends fuel : forall us, ends (name_entries fuel us).
Proof.
  induction fuel as [|fuel IH]; intros us; cbn [name_entries]; [auto with ends|].
  destruct us as [|u us]; [auto with ends|]. unfold pack_units. auto 6 with ends.
Qed.
#[export] Hint Resolve name_entries_ends : ends.

Section build.
Context (py_upper : Z -> list Z).
Context (Hlast : upper py_upper 65535 = 65535) (Hother : forall c, 0 <= c < 65535 -> upper py_upper c <> 65535).

Lemma child_groups_ends cs : ends (child_groups py_upper cs).
Proof using.
  induction cs as [|c cs IH]; cbn [child_groups]; [auto with ends|].
  apply ends_then; [|auto 6 with ends]. unfold child_group, stream_entry, pack_units. auto 12 with ends.
Qed.

Lemma directory_bytes_ends l up i n : ends (directory_bytes py_upper l up i n).
Proof using.
  unfold directory_bytes. apply ends_then; [destruct i; [unfold root_entries|]; auto 8 with ends|].
  intros h _. apply ends_then; [apply child_groups_ends|auto with ends].
Qed.

Lemma node_extents_ends l up ns : forall i es, ends (node_extents py_upper l up i ns es).
Proof using.
  induction ns as [|n ns IH]; intros i es; cbn [node_extents]; [auto with ends|]. apply ends_then.
  - destruct (directory n); [|auto with ends]. apply ends_then; [apply directory_bytes_ends|auto with ends].
  - intros m _. apply ends_then; [apply IH|]. intros [ms es'] _. auto with ends.
Qed.

Lemma encoded_ends : ends (encoded_upcase py_upper).
Proof using Hlast Hother.
  destruct (compress_spec py_upper (Z.to_nat 65536) 0) as (us & E & _); [lia|lia|done|done|].
  unfold encoded_upcase. by rewrite E.
Qed.

Lemma build_ends ns : sizes_ok ns -> ends (build py_upper ns).
Proof using Hlast Hother.
  intros Hns. unfold build. apply ends_then; [apply encoded_ends|]. intros us _.
  apply ends_then; [apply ends_struct|]. intros up _.
  apply ends_then; [apply lay_out_ends; [apply zlen_nonneg|done]|]. intros l _.
  apply ends_then; [apply node_extents_ends|]. intros [ms es] _.
  apply ends_then; [unfold boot_region, boot_sectors; auto 8 with ends|]. intros b _.
  apply ends_then; [unfold mbr_sector; auto with ends|]. auto with ends.
Qed.

Context {Os : Type} `{FileHost Os} (os : Os).

(** The host's answers about paths come back. *)
Definition host_answers : Prop :=
  (forall p, ends (os_lstat p os)) /\ (forall p, ends (os_readlink p os)) /\ (forall p, ends (os_listdir p os)).

Lemma joinrealpath_ends (A : host_answers) depth : forall p rest seen, ends (joinrealpath depth p rest seen os).
Proof using.
  destruct A as (Hl & Hr & _). induction depth as [|depth IH]; [by intros; apply ends_err|]. intros p rest. revert p.
  induction rest as [|name rest IHrest]; intros p seen; [done|]. cbn.
  destruct (_ || _); [apply IHrest|]. destruct (str_eqb name _).
  { destruct p as [|b p]; [apply IHrest|]. destruct (path_split _) as [head tail]. apply IHrest. }
  specialize (Hl (path_join p name)). destruct (os_lstat (path_join p name) os) as [st|e].
  - cbn. destruct (negb (S_ISLNK st)); [apply IHrest|].
    destruct (seen_find _ seen) as [[q|]|]; [apply IHrest|done|].
    pose proof (Hr (path_join p name)) as Ht. destruct (os_readlink (path_join p name) os) as [target|e]; cbn; [|by intros [= ->]].
    destruct (if isabs target then _ else _) as [base rest'].
    pose proof (IH base (split_on SLASH rest') ((path_join p name, None) :: seen)) as Hj.
    destruct (joinrealpath depth base _ _ os) as [[[q ok] seen']|e]; cbn; [|by intros [= ->]].
    destruct (negb ok); [done|apply IHrest].
  - destruct e; cbn; try apply IHrest; intros [=]; by apply Hl.
Qed.

Lemma realpath_ends (A : host_answers) p : ends (realpath p os).
Proof using.
  unfold realpath. destruct (if isabs p then _ else _) as [base rest].
  apply ends_then; [by apply joinrealpath_ends|]. intros [[q ok] seen] _. done.
Qed.

(** [m] ends in every state. *)
Definition mends {S A} (m : M S A) : Prop := forall s, ends (fst (m s)).

Lemma mends_bind {S A B} (m : M S A) (k : A -> M S B) : mends m -> (forall a, mends (k a)) -> mends (m ≫= k).
Proof using.
  intros Hm Hk s. specialize (Hm s). unfold mbind, M_bind. destruct (m s) as [[a|e] s']; [apply Hk|].
  cbn in *. by intros [= ->].
Qed.
Lemma mends_lift {S A} (r : result A) : ends r -> mends (S := S) (lift r).
Proof using. by intros Hr s. Qed.

Lemma scan_children_ends scan i dir entries : (forall p, mends (scan p)) ->
  forall names, mends (scan_children py_upper scan i dir entries names).
Proof using.
  intros Hs. induction entries as [|name entries IH]; intros names; cbn [scan_children]; [by intros s|].
  apply mends_bind; [apply mends_lift, name_units_ends|]. intros units. destruct (bool_decide _); [by intros s|].
  apply mends_bind; [apply Hs|]. intros child. apply mends_bind; [by intros s|done].
Qed.

(** The recursion goes down at most 65 levels. *)
Lemma scan_ends (A : host_answers) fuel : forall depth p, 65 - depth <= Z.of_nat fuel -> mends (scan py_upper fuel os depth p).
Proof using.
  pose proof A as (Hl & _ & Hd).
  induction fuel as [|fuel IH]; intros depth p Hf; cbn [scan]; destruct (Z.ltb_spec 64 depth); try (by intros s); [lia|].
  apply mends_bind; [by apply mends_lift|]. intros info. destruct (_ || _ || _); [by intros s|].
  apply mends_bind; [by intros s|]. intros i. apply mends_bind; [by intros s|]. intros _.
  apply mends_bind; [by intros s|]. intros count. destruct (100000 <? count); [by intros s|].
  destruct (S_ISDIR info); [|by destruct (depth =? 0); intros s].
  apply mends_bind; [by apply mends_lift|]. intros names. apply mends_bind; [|by intros _ s].
  apply scan_children_ends. intros q. apply IH. lia.
Qed.

(** Constructing a disk ends: it succeeds or raises. *)
Theorem init_ends root : host_answers -> readable os -> ends (init py_upper root os).
Proof using Hlast Hother.
  intros A R. unfold init. apply ends_then; [by apply realpath_ends|]. intros p _.
  pose proof (scan_ends A 65 0 p ltac:(lia) []) as Hs.
  destruct (scan py_upper 65 os 0 p []) as [[r|e] ns] eqn:Es; [|by intros [= ->]].
  pose proof (scan_ok os R 65 0 p [] _ _ (Forall_nil_2 _) Es) as Hns.
  pose proof (build_ends ns (nodes_sizes os _ Hns)) as Hb.
  destruct (build py_upper ns) as [v|e]; [done|by intros [= ->]].
Qed.
End build.
