(* ===== verification/ChdCue.v ===== *)
(** * Virtual CUE/BIN views of CD images in CHD files

    Models [udpfs_server/compressed_iso/chd_cuebin.py]: the CD track table of a CHD
    file, the frame layout of the virtual BIN, the CUE sheet, the two read-only
    streams and the choice of which names to advertise.

    libchdr, lz4 and zlib are third-party code: [Codecs] lists what the file server
    uses of them. *)

From S2P Require Import Prelude PyStr PyText Compressed HostOs.

(** [chd_open path] is libchdr's error code, [chd_read path i] the hunk it leaves in
    the buffer, or [None] when its error code is not 0; the others are as in
    [Compressed]. *)
Class Codecs := {
  lz4_available : bool;
  libchdr_available : bool;
  lz4_decompress : bytes -> Z -> option bytes;
  inflate_raw : bytes -> option bytes;
  inflate_zlib : bytes -> option bytes;
  inflate_max : bool -> bytes -> Z -> option (bytes * bool);
  chd_open : str -> Z;
  chd_read : str -> Z -> option bytes
}.

(** ** Text *)

(** The ASCII characters [str.split()] splits at. *)
Definition is_space (c : Z) : bool :=
  ((9 <=? c) && (c <=? 13)) || ((28 <=? c) && (c <=? 32)).

(** [text.split()] *)
Fixpoint split_space (s : str) (word : str) : list str :=
  match s with
  | [] => if str_eqb word [] then [] else [word]
  | c :: s =>
      if is_space c then (if str_eqb word [] then [] else [word]) ++ split_space s []
      else split_space s (word ++ [c])
  end.

Definition is_digit (c : Z) : bool := (48 <=? c) && (c <=? 57).

(** The digits of [int(s, 10)]: single underscores may stand between two digits. *)
Fixpoint int_digits (s : str) (acc : Z) (after_digit : bool) : option Z :=
  match s with
  | [] => if after_digit then Some acc else None
  | c :: s =>
      if is_digit c then int_digits s (acc * 10 + (c - 48)) true
      else if (c =? 95) && after_digit then int_digits s acc false
      else None
  end.

(** [int(value, 10)] on ASCII text without spaces; [None] is [ValueError] *)
Definition py_int10 (s : str) : option Z :=
  match s with
  | 45 :: s => Z.opp <$> int_digits s 0 false
  | 43 :: s => int_digits s 0 false
  | _ => int_digits s 0 false
  end.

(** [f"{n:02d}"] for [n >= 0] *)
Definition decimal2 (n : Z) : str := (if n <? 10 then [48] else []) ++ decimal n.

(** ** Tracks and layout *)

Definition CD_FRAME_BYTES : Z := 2448.
Definition CD_SECTOR_BYTES : Z := 2352.
Definition HEADER_BYTES : Z := 124.
Definition MAX_METADATA_ENTRIES : Z := 4096.
Definition MAX_TRACK_METADATA_BYTES : Z := 4096.
Definition MAX_TRACKS : Z := 99.
Definition MAX_HUNK_BYTES : Z := 16 * 1024 * 1024.
Definition MAX_CACHE_BYTES : Z := 4 * 1024 * 1024.
Definition PADDING_FRAMES : Z := 4.

Definition AUDIO : str := lit "AUDIO".
Definition RAW_TRACK_TYPES : list str := [lit "MODE1_RAW"; lit "MODE2_RAW"; AUDIO].
Definition in_strs (s : str) (l : list str) : bool := existsb (str_eqb s) l.

Record track := Track {
  number : Z; kind : str; frames : Z; pregap : Z; pregap_kind : str; postgap : Z
}.

Definition audio (t : track) : bool := str_eqb (kind t) AUDIO.
Definition stored_pregap (t : track) : bool := startswith (pregap_kind t) (lit "V").
Definition cue_mode (t : track) : str :=
  if str_eqb (kind t) (lit "MODE1_RAW") then lit "MODE1/2352"
  else if str_eqb (kind t) (lit "MODE2_RAW") then lit "MODE2/2352"
  else AUDIO.

Record span := Span { sp_start : Z; sp_frames : Z; physical_start : Z; sp_audio : bool }.
Record track_index := TrackIndex { ti_track : track; index0 : Z; index1 : Z }.
Record layout := Layout { spans : list span; indexes : list track_index; total_frames : Z }.
Record track_table := TrackTable { hunk_bytes : Z; logical_bytes : Z; tracks : list track }.

(** The checks of one track in [TrackTable.layout] before its frames are placed. *)
Definition track_ok (t : track) : bool :=
  in_strs (kind t) RAW_TRACK_TYPES
  && negb ((frames t <=? 0) || (pregap t <? 0) || (postgap t <? 0))
  && negb (frames t <? pregap t)
  && forallb (fun c => c <? 128) (pregap_kind t).

(** One track of the loop of [TrackTable.layout], from the virtual frame [v] and the
    physical frame [p]: its spans, its index and the frames after it. *)
Definition place_track (total : Z) (t : track) (v p : Z) : result (list span * track_index * Z * Z) :=
  if negb (track_ok t) then Err ValueError
  else
    '(before, i0, i1, v) ←
      (if negb (pregap t =? 0) && stored_pregap t then
         if frames t <=? pregap t then Err ValueError
         else Ok ([], v, v + pregap t, v)
       else if negb (pregap t =? 0) then
         Ok ([Span v (pregap t) (-1) (audio t)], v, v + pregap t, v + pregap t)
       else Ok ([], -1, v, v));
    if total <? p + frames t then Err ValueError
    else
      let body := Span v (frames t) p (audio t) in
      let v := v + frames t in
      let p := p + frames t + (- frames t) mod PADDING_FRAMES in
      let after := if postgap t =? 0 then [] else [Span v (postgap t) (-1) (audio t)] in
      Ok (before ++ body :: after, TrackIndex t i0 i1, v + (if postgap t =? 0 then 0 else postgap t), p).

Fixpoint place_tracks (total : Z) (ts : list track) (v p : Z) : result (list span * list track_index * Z) :=
  match ts with
  | [] => Ok ([], [], v)
  | t :: ts =>
      '(sp, ti, v, p) ← place_track total t v p;
      '(sps, tis, v) ← place_tracks total ts v p;
      Ok (sp ++ sps, ti :: tis, v)
  end.

(** [TrackTable.layout] *)
Definition layout_of (tb : track_table) : result layout :=
  if (logical_bytes tb <=? 0) || negb (logical_bytes tb mod CD_FRAME_BYTES =? 0) then Err ValueError
  else
    '(sps, tis, v) ← place_tracks (logical_bytes tb / CD_FRAME_BYTES) (tracks tb) 0 0;
    if 2 ^ 63 - 1 <? v * CD_SECTOR_BYTES then Err ValueError
    else Ok {| spans := sps; indexes := tis; total_frames := v |}.

Definition layout_size (l : layout) : Z := total_frames l * CD_SECTOR_BYTES.

(** [bisect.bisect_right(starts, frame)] on ascending starts *)
Definition bisect_right (starts : list Z) (frame : Z) : Z :=
  zlen (List.filter (fun s => s <=? frame) starts).

(** [Layout.span_at] *)
Definition span_at (l : layout) (frame : Z) : option span :=
  let i := bisect_right (map sp_start (spans l)) frame - 1 in
  sp ← zlookup (spans l) i;
  if frame <? sp_start sp + sp_frames sp then Some sp else None.

Definition msf (frame : Z) : str :=
  let minutes := frame / 4500 in
  let remainder := frame mod 4500 in
  decimal2 minutes ++ lit ":" ++ decimal2 (remainder / 75) ++ lit ":" ++ decimal2 (remainder mod 75).

Definition CRLF : str := [13; 10].

(** [Layout.cue_sheet] *)
Definition cue_sheet (l : layout) (bin_name : str) : bytes :=
  lit "FILE " ++ [34] ++ bin_name ++ [34] ++ lit " BINARY" ++ CRLF
  ++ concat (map (fun it =>
       lit "  TRACK " ++ decimal2 (number (ti_track it)) ++ lit " " ++ cue_mode (ti_track it) ++ CRLF
       ++ (if 0 <=? index0 it then lit "    INDEX 00 " ++ msf (index0 it) ++ CRLF else [])
       ++ lit "    INDEX 01 " ++ msf (index1 it) ++ CRLF) (indexes l)).

(** ** The track table of a CHD file *)

(** The value of the last [key:value] token *)
Definition field (fields : list (str * str)) (name : string) : option str :=
  snd <$> find (fun kv => str_eqb (fst kv) (lit name)) fields.

(** [_number] *)
Definition number_field (fields : list (str * str)) (name : string) (dflt : option Z) : result Z :=
  match field fields name with
  | None => match dflt with Some d => Ok d | None => Err ValueError end
  | Some value =>
      match py_int10 value with
      | Some n => if n <? 0 then Err ValueError else Ok n
      | None => Err ValueError
      end
  end.

(** The [key:value] tokens, last first *)
Definition token_fields (text : str) : list (str * str) :=
  rev (map (partition_on 58) (List.filter (fun t => existsb (Z.eqb 58) t) (split_space text []))).

(** [_parse_track] *)
Definition parse_track (raw : bytes) : result track :=
  let text := rstrip 0 raw in
  if negb (forallb (fun c => c <? 128) text) then Err ValueError
  else
    let fields := token_fields text in
    n ← number_field fields "TRACK" None;
    fr ← number_field fields "FRAMES" None;
    pre ← number_field fields "PREGAP" (Some 0);
    post ← number_field fields "POSTGAP" (Some 0);
    let k := default [] (field fields "TYPE") in
    let pk := default [] (field fields "PGTYPE") in
    if negb ((1 <=? n) && (n <=? MAX_TRACKS)) || (fr <=? 0) || str_eqb k [] then Err ValueError
    else Ok {| number := n; kind := k; frames := fr; pregap := pre; pregap_kind := pk; postgap := post |}.

Definition CD_TRACK_TAGS : list bytes := [lit "CHT2"; lit "CHTR"].
Definition UNSUPPORTED_CD_TAGS : list bytes := [lit "CHCD"; lit "CHGD"; lit "CHGT"].

(** The [while offset] loop of [read_track_table]; [visited] never passes
    [MAX_METADATA_ENTRIES], which bounds the iterations. *)
Fixpoint metadata_chain (fuel : nat) (f : hfile) (offset : Z) (visited : list Z) (ts : list track)
    : result (list track) :=
  if offset =? 0 then Ok ts
  else match fuel with
  | O => Err Hang
  | S fuel =>
      let header_length := HEADER_BYTES in
      if (MAX_METADATA_ENTRIES <=? zlen visited) || existsb (Z.eqb offset) visited
         || (offset <? header_length) || (hf_size f - 16 <? offset) then Err ValueError
      else
        meta_header ← hf_read f offset 16;
        if negb (zlen meta_header =? 16) then Err ValueError
        else
          let tag := slice meta_header 0 4 in
          let meta_length := be_int (slice meta_header 5 8) in
          let next_offset := be_int (slice meta_header 8 16) in
          if negb (next_offset =? 0)
             && ((next_offset <? header_length) || (hf_size f - 16 <? next_offset)) then Err ValueError
          else if in_strs tag UNSUPPORTED_CD_TAGS then Err ValueError
          else
            ts ← (if in_strs tag CD_TRACK_TAGS then
                    if negb ((1 <=? meta_length) && (meta_length <=? MAX_TRACK_METADATA_BYTES)) then Err ValueError
                    else if hf_size f <? offset + 16 + meta_length then Err ValueError
                    else
                      data ← hf_read f (offset + 16) meta_length;
                      if negb (zlen data =? meta_length) then Err ValueError
                      else
                        t ← parse_track data;
                        if MAX_TRACKS <? zlen ts + 1 then Err ValueError else Ok (ts ++ [t])
                  else Ok ts);
            metadata_chain fuel f next_offset (offset :: visited) ts
  end.

(** [tracks.sort(key=number)]: stable *)
Fixpoint insert_track (t : track) (ts : list track) : list track :=
  match ts with
  | [] => [t]
  | u :: us => if number t <? number u then t :: ts else u :: insert_track t us
  end.
Definition sort_tracks (ts : list track) : list track := foldl (fun l t => insert_track t l) [] ts.

(** [any(track.number != i + 1 ...)], negated *)
Fixpoint contiguous (i : Z) (ts : list track) : bool :=
  match ts with
  | [] => true
  | t :: ts => (number t =? i) && contiguous (i + 1) ts
  end.

(** [read_track_table] on the opened file: every [OSError] becomes [ChdCueError]. *)
Definition read_track_file (f : hfile) : result track_table :=
  header ← hf_read f 0 HEADER_BYTES;
  if negb (zlen header =? HEADER_BYTES) || negb (str_eqb (ztake 8 header) Chd.CHD_MAGIC) then Err ValueError
  else if negb (be_int (slice header 8 12) =? HEADER_BYTES) || negb (be_int (slice header 12 16) =? 5)
  then Err ValueError
  else
    let logical := be_int (slice header 32 40) in
    let metadata_offset := be_int (slice header 48 56) in
    let hunk := be_int (slice header 56 60) in
    let unit_bytes := be_int (slice header 60 64) in
    if (logical =? 0) || (2 ^ 63 - 1 <? logical) || negb (logical mod CD_FRAME_BYTES =? 0) then Err ValueError
    else if negb (unit_bytes =? CD_FRAME_BYTES) || (hunk =? 0) || (MAX_HUNK_BYTES <? hunk)
            || negb (hunk mod CD_FRAME_BYTES =? 0) then Err ValueError
    else if 2 ^ 32 - 1 <? (logical + hunk - 1) / hunk then Err ValueError
    else if negb (metadata_offset =? 0) && (metadata_offset <? HEADER_BYTES) then Err ValueError
    else
      ts ← metadata_chain (S (Z.to_nat MAX_METADATA_ENTRIES)) f metadata_offset [] [];
      match ts with
      | [] => Err ValueError
      | _ =>
          let ts := sort_tracks ts in
          if negb (contiguous 1 ts) then Err ValueError
          else
            let table := {| hunk_bytes := hunk; logical_bytes := logical; tracks := ts |} in
            _ ← layout_of table; Ok table
      end.

(** [except OSError as exc: raise ChdCueError] *)
Definition oserror_to_value {A} (r : result A) : result A :=
  match r with Err (OSError _) => Err ValueError | r => r end.

Section host.
Context {Os : Type} `{HostOs Os} `{Codecs}.

Definition read_track_table (path : str) (o : Os) : result track_table :=
  oserror_to_value
    (st ← os_lstat path o;
     if negb (S_ISREG st) then Err ValueError
     else f ← os_open_image path o; read_track_file f).

(** ** The two streams *)

(** [MemoryFile], an [io.BytesIO] *)
Record memory_file := MemoryFile { mem_data : bytes; mem_pos : Z }.

Definition mem_read (size : Z) (m : memory_file) : result bytes * memory_file :=
  let n := if size <? 0 then zlen (mem_data m) - mem_pos m
           else Z.min size (zlen (mem_data m) - mem_pos m) in
  let data := if n <=? 0 then [] else slice (mem_data m) (mem_pos m) (mem_pos m + n) in
  (Ok data, MemoryFile (mem_data m) (mem_pos m + zlen data)).

Definition mem_seek (offset whence : Z) (m : memory_file) : result Z * memory_file :=
  if negb ((0 <=? whence) && (whence <=? 2)) then (Err ValueError, m)
  else if (whence =? 0) && (offset <? 0) then (Err ValueError, m)
  else
    let base := if whence =? 0 then 0 else if whence =? 1 then mem_pos m else zlen (mem_data m) in
    if 2 ^ 63 - 1 <? base + offset then (Err OverflowError, m)
    else let p := Z.max 0 (base + offset) in (Ok p, MemoryFile (mem_data m) p).

(** [ChdBinFile]; [b_cache] is the [OrderedDict], least recently used first. *)
Record bin_file := BinFile {
  b_path : str; b_table : track_table; b_layout : layout;
  b_cache_size : Z; b_cache : list (Z * bytes); b_cache_bytes : Z; b_pos : Z
}.

#[export] Instance eta_bin_file : Eta bin_file := fun b =>
  BinFile (b_path b) (b_table b) (b_layout b) (b_cache_size b) (b_cache b) (b_cache_bytes b) (b_pos b).

(** [ChdBinFile.__init__] *)
Definition bin_open (path : str) (table : track_table) (l : layout) (cache_size : Z) (o : Os) : result bin_file :=
  if negb libchdr_available then Err ImportError
  else
    st ← os_lstat path o;
    if negb (S_ISREG st) then Err ValueError
    else if negb (chd_open path =? 0) then Err (OSError None)
    else Ok {| b_path := path; b_table := table; b_layout := l; b_cache_size := Z.max 0 cache_size;
               b_cache := []; b_cache_bytes := 0; b_pos := 0 |}.

Definition frames_per_hunk (b : bin_file) : Z := hunk_bytes (b_table b) / CD_FRAME_BYTES.
Definition num_hunks (b : bin_file) : Z :=
  (logical_bytes (b_table b) + hunk_bytes (b_table b) - 1) / hunk_bytes (b_table b).

(** The eviction loop of [_hunk] for an entry of [n] bytes *)
Fixpoint bin_evict (cache_size n : Z) (cache : list (Z * bytes)) (total : Z) : list (Z * bytes) * Z :=
  match cache with
  | [] => ([], total)
  | (_, d) :: rest =>
      if (cache_size <=? zlen cache) || (MAX_CACHE_BYTES <? total + n)
      then bin_evict cache_size n rest (total - zlen d) else (cache, total)
  end.

(** [_hunk] *)
Definition hunk (index : Z) : M bin_file bytes :=
  b ← mget id;
  if negb ((0 <=? index) && (index <? num_hunks b)) then raise (OSError None)
  else
    match (if 0 <? b_cache_size b then Base.cache_find index (b_cache b) else None) with
    | Some cached => _ ← mmod (fun b => b <| b_cache ::= Base.cache_touch index cached |>); mret cached
    | None =>
        match chd_read (b_path b) index with
        | None => raise (OSError None)
        | Some decoded =>
            if negb (zlen decoded =? hunk_bytes (b_table b)) then raise (OSError None)
            else
              _ ← mwhen ((0 <? b_cache_size b) && (zlen decoded <=? MAX_CACHE_BYTES))
                    (mmod (fun b =>
                       let '(c, total) := bin_evict (b_cache_size b) (zlen decoded) (b_cache b) (b_cache_bytes b) in
                       b <| b_cache := c ++ [(index, decoded)] |> <| b_cache_bytes := total + zlen decoded |>));
              mret decoded
        end
    end.

(** [_swap_audio_bytes] on an even number of bytes *)
Fixpoint swap_audio_bytes (s : bytes) : bytes :=
  match s with
  | a :: b :: s => b :: a :: swap_audio_bytes s
  | _ => s
  end.

(** The sector loop of [ChdBinFile.read]: [size] bytes from [position], after [output]. *)
Fixpoint bin_read_loop (fuel : nat) (position size : Z) (output : bytes) : M bin_file bytes :=
  if size <=? zlen output then mret output
  else match fuel with
  | O => raise Hang
  | S fuel =>
      b ← mget id;
      let virtual_frame := position / CD_SECTOR_BYTES in
      let sector_offset := position mod CD_SECTOR_BYTES in
      match span_at (b_layout b) virtual_frame with
      | None => raise (OSError None)
      | Some sp =>
          let amount := Z.min (CD_SECTOR_BYTES - sector_offset) (size - zlen output) in
          piece ← (if physical_start sp <? 0 then mret (zeros amount)
                   else
                     let physical_frame := physical_start sp + virtual_frame - sp_start sp in
                     let hunk_frame := physical_frame mod frames_per_hunk b in
                     decoded ← hunk (physical_frame / frames_per_hunk b);
                     let byte_offset := hunk_frame * CD_FRAME_BYTES in
                     let sector := slice decoded byte_offset (byte_offset + CD_SECTOR_BYTES) in
                     if negb (zlen sector =? CD_SECTOR_BYTES) then raise (OSError None)
                     else
                       let sector := if sp_audio sp then swap_audio_bytes sector else sector in
                       mret (slice sector sector_offset (sector_offset + amount)));
          bin_read_loop fuel (position + amount) size (output ++ piece)
      end
  end.

(** [ChdBinFile.read]; an error leaves the position where it was. *)
Definition bin_read (size : Z) : M bin_file bytes :=
  b ← mget id;
  let remaining := layout_size (b_layout b) - b_pos b in
  let n := if size <? 0 then remaining else Z.min size remaining in
  if n <=? 0 then mret []
  else
    output ← bin_read_loop (Z.to_nat n) (b_pos b) n [];
    _ ← mmod (fun b => b <| b_pos ::= Z.add n |>);
    mret output.

(** [ChdBinFile.seek] *)
Definition bin_seek (offset whence : Z) : M bin_file Z :=
  b ← mget id;
  if negb ((0 <=? whence) && (whence <=? 2)) then raise ValueError
  else
    let p := if whence =? 0 then offset else if whence =? 1 then b_pos b + offset
             else layout_size (b_layout b) + offset in
    if p <? 0 then raise ValueError
    else _ ← mmod (fun b => b <| b_pos := p |>); mret p.

(** ** Views *)

Inductive view_kind := V_cue | V_bin.

Record virtual_view := VirtualView {
  v_kind : view_kind; v_path : str; chd_path : str; v_table : track_table; v_layout : layout; cue_data : bytes
}.

Definition view_size (v : virtual_view) : Z :=
  match v_kind v with V_cue => zlen (cue_data v) | V_bin => layout_size (v_layout v) end.

Inductive view_stream := VS_mem (m : memory_file) | VS_bin (b : bin_file).

(** [VirtualView.open] *)
Definition view_open (v : virtual_view) (cache_size : Z) (o : Os) : result view_stream :=
  match v_kind v with
  | V_cue => Ok (VS_mem (MemoryFile (cue_data v) 0))
  | V_bin => b ← bin_open (chd_path v) (v_table v) (v_layout v) cache_size o; Ok (VS_bin b)
  end.

Definition stream_read (size : Z) : M view_stream bytes := fun v =>
  match v with
  | VS_mem m => let '(r, m) := mem_read size m in (r, VS_mem m)
  | VS_bin b => let '(r, b) := bin_read size b in (r, VS_bin b)
  end.

Definition stream_seek (offset whence : Z) : M view_stream Z := fun v =>
  match v with
  | VS_mem m => let '(r, m) := mem_seek offset whence m in (r, VS_mem m)
  | VS_bin b => let '(r, b) := bin_seek offset whence b in (r, VS_bin b)
  end.

(** A name is Unicode text when its bytes are valid UTF-8. *)
Definition is_utf8 (s : str) : bool := str_eqb (utf8_replace s) s.

(** [_safe_cue_name] *)
Definition safe_cue_name (name : str) : bool :=
  is_utf8 name && (zlen name <=? 255)
  && forallb (fun c => negb (c =? 34) && negb (c =? BACKSLASH) && (32 <=? c) && negb (c =? 127)) name.

(** [_name_key] on a POSIX host *)
Definition name_key (name : str) : str * str :=
  let '(stem, ext) := splitext name in (stem, lower ext).

Definition DOT_CUE : str := lit ".cue".
Definition DOT_BIN : str := lit ".bin".
Definition DOT_CHD : str := lit ".chd".

(** [_virtual_views] *)
Definition virtual_views (path stem directory : str) (table : track_table) (l : layout)
    : virtual_view * virtual_view :=
  let bin_name := stem ++ DOT_BIN in
  ({| v_kind := V_cue; v_path := path_join directory (stem ++ DOT_CUE); chd_path := path;
      v_table := table; v_layout := l; cue_data := cue_sheet l bin_name |},
   {| v_kind := V_bin; v_path := path_join directory bin_name; chd_path := path;
      v_table := table; v_layout := l; cue_data := [] |}).

(** [except (ChdCueError, OSError, UnicodeError, struct.error)]: the views or none *)
Definition views_of (path stem directory : str) (o : Os) : result (option (virtual_view * virtual_view)) :=
  match (table ← read_track_table path o; l ← layout_of table;
         Ok (virtual_views path stem directory table l)) with
  | Ok v => Ok (Some v)
  | Err ValueError | Err (OSError _) | Err UnicodeError | Err StructError => Ok None
  | Err e => Err e
  end.

Definition has_key (k : str * str) (names : list str) : bool :=
  existsb (fun n => bool_decide (name_key n = k)) names.

(** The CHD names whose stem no other CHD name shares, in directory order *)
Definition chd_sources (names : list str) : list str :=
  let chds := List.filter (fun n => str_eqb (snd (name_key n)) DOT_CHD) names in
  List.filter (fun n => zlen (List.filter (fun m => str_eqb (fst (splitext m)) (fst (splitext n))) chds) =? 1) chds.

Fixpoint list_views (directory : str) (names sources : list str) (path_of : str -> str) (o : Os)
    : result (list (str * virtual_view)) :=
  match sources with
  | [] => Ok []
  | n :: sources =>
      let stem := fst (splitext n) in
      here ← (if has_key (stem, DOT_CUE) names || has_key (stem, DOT_BIN) names
                 || negb (safe_cue_name (stem ++ DOT_CUE)) || negb (safe_cue_name (stem ++ DOT_BIN))
              then Ok []
              else
                vs ← views_of (path_of n) stem directory o;
                Ok (match vs with
                    | Some (c, b) => [(stem ++ DOT_CUE, c); (stem ++ DOT_BIN, b)]
                    | None => []
                    end));
      rest ← list_views directory names sources path_of o;
      Ok (here ++ rest)
  end.

(** [list_virtual_entries(directory, entries)]; [path_of n] is the path of the entry
    named [n]. *)
Definition list_virtual_entries (directory : str) (names : list str) (path_of : str -> str) (o : Os)
    : result (list (str * virtual_view)) :=
  if negb libchdr_available then Ok []
  else list_views directory names (chd_sources names) path_of o.

(** [find_virtual_view(path)] *)
Definition find_virtual_view (path : str) (o : Os) : result (option virtual_view) :=
  if negb libchdr_available then Ok None
  else
    let '(directory, base) := path_split path in
    let '(stem, ext) := splitext base in
    let k := if str_eqb (lower ext) DOT_CUE then Some V_cue
             else if str_eqb (lower ext) DOT_BIN then Some V_bin else None in
    match k with
    | None => Ok None
    | Some k =>
        if str_eqb directory [] || negb (safe_cue_name (stem ++ DOT_BIN)) then Ok None
        else match os_listdir directory o with
        | Err (OSError _) => Ok None
        | Err e => Err e
        | Ok names =>
            if has_key (stem, DOT_CUE) names || has_key (stem, DOT_BIN) names then Ok None
            else match List.filter (fun n => bool_decide (name_key n = (stem, DOT_CHD))) names with
            | [n] =>
                vs ← views_of (path_join directory n) (fst (splitext n)) directory o;
                Ok (match vs with
                    | Some (c, b) => Some (match k with V_cue => c | V_bin => b end)
                    | None => None
                    end)
            | _ => Ok None
            end
        end
    end.
End host.
