(* ===== verification/ChdCueFacts.v ===== *)
(** * The virtual BIN of a CD image

    Theorems about [ChdCue]: the spans of a layout tile the image without gap or overlap
    and point inside the CHD file, and a read of the virtual BIN is a slice of the image
    that the track table describes, whatever the hunk cache holds. *)

From S2P Require Import Prelude PyStr Compressed CompressedFacts HostOs ChdCue.

(** ** Layout *)

(** Spans that cover the frames from [v] up to [v'], in order *)
Fixpoint tiles (v : Z) (sps : list span) (v' : Z) : Prop :=
  match sps with
  | [] => v = v'
  | sp :: sps => sp_start sp = v /\ 0 < sp_frames sp /\ tiles (v + sp_frames sp) sps v'
  end.

(** A span of stored frames lies inside the file's [total] frames; silence has none. *)
Definition in_file (total : Z) (sp : span) : Prop :=
  physical_start sp = -1 \/ (0 <= physical_start sp /\ physical_start sp + sp_frames sp <= total).

Lemma tiles_app v1 v2 v3 s1 s2 : tiles v1 s1 v2 -> tiles v2 s2 v3 -> tiles v1 (s1 ++ s2) v3.
Proof. revert v1. induction s1 as [|sp s1 IH]; intros v1; cbn; [by intros ->|]. intros (? & ? & ?) ?. auto. Qed.

Lemma tiles_le v sps v' : tiles v sps v' -> v <= v'.
Proof. revert v. induction sps as [|sp sps IH]; intros v; cbn; [lia|]. intros (_ & ? & Ht%IH). lia. Qed.

Lemma place_track_spec total t v p sps ti v' p' :
  0 <= p -> place_track total t v p = Ok (sps, ti, v', p') ->
  tiles v sps v' /\ Forall (in_file total) sps /\ 0 <= p' /\ v < v' /\
  ti_track ti = t /\ index1 ti = v + pregap t /\ (index0 ti = -1 \/ index0 ti = v).
Proof.
  intros Hp. unfold place_track. destruct (track_ok t) eqn:Hok; cbn [negb]; [|done].
  unfold track_ok in Hok. rewrite !andb_true_iff, !negb_true_iff, !orb_false_iff in Hok.
  destruct Hok as [[[_ [[Hf%Z.leb_gt Hpre%Z.ltb_ge] Hpost%Z.ltb_ge]] Hfp%Z.ltb_ge] _].
  pose proof (Z.mod_pos_bound (- frames t) PADDING_FRAMES ltac:(done)).
  assert (Hafter : forall x, tiles x (if postgap t =? 0 then [] else [Span x (postgap t) (-1) (audio t)])
                     (x + (if postgap t =? 0 then 0 else postgap t)) /\
                   Forall (in_file total) (if postgap t =? 0 then [] else [Span x (postgap t) (-1) (audio t)])).
  { intros x. destruct (Z.eqb_spec (postgap t) 0) as [E|E]; cbn; [split; [lia|constructor]|].
    split; [lia|]. repeat constructor. }
  assert (Hge : 0 <= (if postgap t =? 0 then 0 else postgap t)) by (destruct (_ =? _); lia).
  destruct (Z.eqb_spec (pregap t) 0) as [Hz|Hz]; cbn [negb andb]; [|destruct (stored_pregap t)].
  2: destruct (Z.leb_spec (frames t) (pregap t)); cbn [mbind result_bind]; [done|].
  all: cbn [mbind result_bind]; destruct (Z.ltb_spec total (p + frames t)); [done|].
  all: intros E; injection E as <- <- <- <-; cbn [app ti_track index0 index1].
  all: match goal with |- tiles _ _ (?x + _) /\ _ => destruct (Hafter x) as [Ha Hb] end.
  all: split_and!; try done; try lia; try (by left); try (by right).
  all: repeat (first [apply Forall_cons; split|exact Hb|exact Ha|cbn [tiles sp_start sp_frames]; split_and!|by left|right; cbn; lia|lia]).
Qed.

Lemma place_tracks_spec total ts : forall v p sps tis v',
  0 <= p -> place_tracks total ts v p = Ok (sps, tis, v') ->
  tiles v sps v' /\ Forall (in_file total) sps /\ map ti_track tis = ts /\ (ts <> [] -> v < v').
Proof.
  induction ts as [|t ts IH]; intros v p sps tis v' Hp; cbn [place_tracks]; [by intros [= <- <- <-]|].
  destruct (place_track total t v p) as [[[[sp ti] v1] p1]|e] eqn:E1; cbn [mbind result_bind]; [|done].
  destruct (place_tracks total ts v1 p1) as [[[sps1 tis1] v2]|e] eqn:E2; cbn [mbind result_bind]; [|done].
  intros [= <- <- <-]. apply place_track_spec in E1 as (T1 & F1 & Hp1 & Hv & Et & _); [|done].
  apply IH in E2 as (T2 & F2 & M2 & _); [|done]. apply tiles_le in T2 as Hle.
  split_and!; [by eapply tiles_app|by apply Forall_app|cbn; by rewrite Et, M2|lia].
Qed.

(** The frames a layout covers, each in exactly one span *)
Lemma bisect_tiles sps : forall v v' frame,
  tiles v sps v' -> v <= frame < v' ->
  exists i sp, sps !! i = Some sp /\ sp_start sp <= frame < sp_start sp + sp_frames sp /\
    bisect_right (map sp_start sps) frame = Z.of_nat i + 1.
Proof.
  unfold bisect_right. induction sps as [|sp sps IH]; intros v v' frame; cbn [tiles map List.filter]; [lia|].
  intros (Hs & Hf & Ht) Hr. rewrite (proj2 (Z.leb_le (sp_start sp) frame)), zlen_cons by lia.
  destruct (Z.lt_ge_cases frame (v + sp_frames sp)) as [Hlt|Hge].
  - exists O, sp. split_and!; [done|lia..|]. enough (List.filter (fun s => s <=? frame) (map sp_start sps) = []) as -> by done.
    clear -Hlt Ht. revert Ht. generalize (v + sp_frames sp) as x, Hlt. clear Hlt.
    induction sps as [|q sps IH]; intros x Hlt; cbn [tiles map List.filter]; [done|]. intros (Hq & Hq' & Ht).
    rewrite (proj2 (Z.leb_gt (sp_start q) frame)) by lia. eapply IH; [|exact Ht]. lia.
  - destruct (IH _ _ frame Ht ltac:(lia)) as (i & q & Hi & Hq & ->). exists (S i), q. split_and!; [done|lia..].
Qed.

Lemma span_at_tiles l frame :
  tiles 0 (spans l) (total_frames l) ->
  (0 <= frame < total_frames l -> exists sp, span_at l frame = Some sp /\ sp ∈ spans l /\
     sp_start sp <= frame < sp_start sp + sp_frames sp).
Proof.
  intros Ht Hr. destruct (bisect_tiles _ _ _ _ Ht Hr) as (i & sp & Hi & Hsp & Hb). exists sp.
  unfold span_at. rewrite Hb, Z.add_simpl_r. unfold zlookup. rewrite (proj2 (Z.ltb_ge _ _)), Nat2Z.id, Hi by lia.
  cbn. rewrite (proj2 (Z.ltb_lt _ _)) by lia. split_and!; [done| |lia..]. by eapply list_elem_of_lookup_2.
Qed.

(** The layout of an accepted track table covers the virtual image exactly: its spans
    follow each other from frame 0 to the last without gap or overlap, every frame is
    found in the one span it lies in, every stored frame lies inside the CHD file, each
    track has its index, and the size of the image fits a signed 64-bit offset. *)
Theorem layout_tiles tb l :
  layout_of tb = Ok l ->
  tiles 0 (spans l) (total_frames l) /\
  (forall frame, 0 <= frame < total_frames l -> exists sp, span_at l frame = Some sp /\
     sp ∈ spans l /\ sp_start sp <= frame < sp_start sp + sp_frames sp) /\
  Forall (in_file (logical_bytes tb / CD_FRAME_BYTES)) (spans l) /\
  map ti_track (indexes l) = tracks tb /\ 0 <= layout_size l < 2 ^ 63.
Proof.
  unfold layout_of. destruct (_ || _); [done|].
  destruct (place_tracks _ _ 0 0) as [[[sps tis] v]|e] eqn:E; cbn [mbind result_bind]; [|done].
  destruct (Z.ltb_spec (2 ^ 63 - 1) (v * CD_SECTOR_BYTES)); [done|]. intros [= <-].
  apply place_tracks_spec in E as (Ht & Hf & Hm & _); [|done]. apply tiles_le in Ht as Hv.
  split_and!; [done| |done|done|unfold layout_size, CD_SECTOR_BYTES in *; cbn in *; lia..].
  intros frame. by apply span_at_tiles.
Qed.

(** ** Reading the virtual BIN *)

Section bin.
Context `{Codecs}.

(** A byte of hunk [i] of the file, as libchdr decodes it *)
Definition hunk_byte (path : str) (i n : Z) : Z :=
  match chd_read path i with Some d => znth d n | None => 0 end.

(** Byte [i] of the image that the layout describes: silence, or the byte of the stored
    sector, whose two bytes of an audio sample are swapped *)
Definition bin_byte (b : bin_file) (i : Z) : Z :=
  let frame := i / CD_SECTOR_BYTES in
  let off := i mod CD_SECTOR_BYTES in
  match span_at (b_layout b) frame with
  | None => 0
  | Some sp =>
      if physical_start sp <? 0 then 0
      else
        let physical := physical_start sp + frame - sp_start sp in
        let base := (physical mod frames_per_hunk b) * CD_FRAME_BYTES in
        let off := if sp_audio sp then off + 1 - 2 * (off mod 2) else off in
        hunk_byte (b_path b) (physical / frames_per_hunk b) (base + off)
  end.

(** Files whose hunks all decode to the hunk size, with a layout inside the file *)
Record readable (b : bin_file) : Prop := {
  rd_table : 0 < hunk_bytes (b_table b) /\ hunk_bytes (b_table b) mod CD_FRAME_BYTES = 0;
  rd_layout : layout_of (b_table b) = Ok (b_layout b);
  rd_hunks : forall i, 0 <= i < num_hunks b -> exists d, chd_read (b_path b) i = Some d /\ zlen d = hunk_bytes (b_table b)
}.

(** Same file and layout; only the cache and the position differ. *)
Definition same_bin (b b' : bin_file) : Prop :=
  b_path b' = b_path b /\ b_table b' = b_table b /\ b_layout b' = b_layout b /\ b_cache_size b' = b_cache_size b.

Definition cached_bytes (c : list (Z * bytes)) : Z := foldr (fun id n => zlen (snd id) + n) 0 c.

(** Every cached hunk is what libchdr decodes, within the entry limit and the byte
    limit. *)
Record cache_ok (b : bin_file) : Prop := {
  ck_data : Forall (fun id => chd_read (b_path b) (fst id) = Some (snd id) /\ zlen (snd id) = hunk_bytes (b_table b)) (b_cache b);
  ck_nodup : NoDup (b_cache b).*1;
  ck_size : zlen (b_cache b) <= Z.max 0 (b_cache_size b);
  ck_bytes : b_cache_bytes b = cached_bytes (b_cache b);
  ck_limit : b_cache_bytes b <= MAX_CACHE_BYTES
}.

Lemma znth_swap s : forall n, 0 <= n -> zlen s mod 2 = 0 -> n < zlen s ->
  znth (swap_audio_bytes s) n = znth s (n + 1 - 2 * (n mod 2)).
Proof.
  induction s as [s IH] using (induction_ltof1 _ (@length Z)); unfold ltof in IH. intros n Hn He Hl.
  destruct s as [|x [|y s]]; [change (zlen []) with 0 in Hl; lia|cbn in He; done|]. rewrite !zlen_cons in He, Hl.
  assert (Hs : zlen s mod 2 = 0) by (replace (1 + (1 + zlen s)) with (zlen s + 1 * 2) in He by lia; by rewrite Z_mod_plus_full in He).
  cbn [swap_audio_bytes]. unfold znth. destruct (Z.lt_ge_cases n 2) as [H2|H2].
  - assert (n = 0 \/ n = 1) as [-> | ->] by lia; done.
  - replace (Z.to_nat n) with (S (S (Z.to_nat (n - 2)))) by lia.
    assert (Em : (n - 2) mod 2 = n mod 2) by (replace n with ((n - 2) + 1 * 2) at 2 by lia; by rewrite Z_mod_plus_full).
    assert (2 <= n + 1 - 2 * (n mod 2)) by divlia. rewrite <- Em in *.
    replace (Z.to_nat (n + 1 - 2 * ((n - 2) mod 2))) with (S (S (Z.to_nat ((n - 2) + 1 - 2 * ((n - 2) mod 2))))) by lia.
    cbn [nth]. apply IH; [cbn; lia|lia|done|lia].
Qed.

Lemma cached_bytes_app c1 c2 : cached_bytes (c1 ++ c2) = cached_bytes c1 + cached_bytes c2.
Proof. unfold cached_bytes. induction c1 as [|x c1 IH]; [done|]. cbn. rewrite IH. lia. Qed.

Lemma cached_bytes_cons x c : cached_bytes (x :: c) = zlen (snd x) + cached_bytes c.
Proof. done. Qed.
#[local] Arguments cached_bytes : simpl never.

Lemma bin_evict_spec cs n c :
  let '(c', t) := bin_evict cs n c (cached_bytes c) in
  c' `suffix_of` c /\ t = cached_bytes c' /\ (c' = [] \/ (zlen c' < cs /\ t + n <= MAX_CACHE_BYTES)).
Proof.
  induction c as [|[i d] c IH]; cbn [bin_evict]; [split_and!; [done|done|by left]|].
  destruct (_ || _) eqn:Eb.
  - rewrite cached_bytes_cons. cbn [snd]. replace (zlen d + cached_bytes c - zlen d) with (cached_bytes c) by lia.
    destruct (bin_evict cs n c (cached_bytes c)) as [c' t]. destruct IH as (Hs & Ht & Hc).
    split_and!; [by apply suffix_cons_r|done|done].
  - apply orb_false_iff in Eb as [E1%Z.leb_gt E2%Z.ltb_ge]. split_and!; [done|done|]. right. split; [done|]. lia.
Qed.

Lemma cache_remove_bytes i d c :
  NoDup c.*1 -> (i, d) ∈ c -> cached_bytes (Base.cache_remove i c) + zlen d = cached_bytes c.
Proof.
  unfold Base.cache_remove. induction c as [|[j e] c IH]; cbn [fmap list_fmap List.filter]; [by intros _ ?%not_elem_of_nil|].
  intros [Hj Hc]%NoDup_cons Hin. destruct (Z.eqb_spec j i) as [->|Hne]; cbn [negb]; rewrite !cached_bytes_cons; cbn [snd].
  - assert (Hd : e = d).
    { apply elem_of_cons in Hin as [[= ->]|Hin]; [done|]. destruct Hj. apply list_elem_of_fmap. by exists (i, d). }
    subst e. enough (List.filter (fun '(k, _) => negb (k =? i)) c = c) as -> by lia.
    apply forallb_filter_id, forallb_forall. intros [k x] Hk. apply negb_true_iff, Z.eqb_neq. intros ->. destruct Hj.
    apply list_elem_of_fmap. exists (i, x). split; [done|]. by apply list_elem_of_In.
  - apply elem_of_cons in Hin as [[= -> _]|Hin]; [done|]. specialize (IH Hc Hin). lia.
Qed.

(** A hunk is what libchdr decodes, cached or not; the cache stays sound and bounded. *)
Lemma hunk_spec b i :
  readable b -> cache_ok b -> 0 <= i < num_hunks b ->
  exists d b', hunk i b = (Ok d, b') /\ chd_read (b_path b) i = Some d /\ zlen d = hunk_bytes (b_table b) /\
    same_bin b b' /\ b_pos b' = b_pos b /\ cache_ok b'.
Proof.
  intros Hr Hc Hi. destruct (rd_hunks _ Hr i Hi) as (d & Hd & Hl). unfold hunk, mget. unfold mbind at 1, M_bind at 1. cbn [id].
  rewrite (proj2 (Z.leb_le 0 i)), (proj2 (Z.ltb_lt i _)) by lia. cbn [andb negb].
  destruct Hc as [H1 H2 H3 H4 H5].
  destruct (if 0 <? b_cache_size b then _ else _) as [e|] eqn:Ef.
  - destruct (Z.ltb_spec 0 (b_cache_size b)); [|done]. apply cache_find_In in Ef as Hin.
    pose proof (proj1 (Forall_forall _ _) H1 _ Hin) as [Hd' Hl']. cbn in Hd', Hl'.
    rewrite Hd in Hd'. injection Hd' as <-. eexists d, _. split; [reflexivity|]. split_and!; try done.
    pose proof (cache_remove_bytes i d _ H2 Hin) as Hb. pose proof (zlen_cache_remove i _ d Hin).
    split; cbn; unfold Base.cache_touch.
    + apply Forall_app. split; [|by apply Forall_singleton]. apply Forall_forall. intros x Hx%cache_remove_sub.
      by apply (proj1 (Forall_forall _ _) H1).
    + rewrite fmap_app. apply NoDup_app. split_and!; [by apply NoDup_cache_remove| |apply NoDup_singleton].
      intros k Hk Hki. apply list_elem_of_singleton in Hki. cbn in Hki. subst k.
      apply list_elem_of_fmap in Hk as ([k x] & -> & Hk). by eapply cache_remove_key.
    + rewrite zlen_app. change (zlen [_]) with 1. lia.
    + rewrite cached_bytes_app, cached_bytes_cons, H4. cbn. change (cached_bytes []) with 0. lia.
    + done.
  - rewrite Hd, Hl, Z.eqb_refl. cbn [negb]. unfold mwhen. destruct (Z.ltb_spec 0 (b_cache_size b)) as [Hcs|]; cbn [andb].
    2: { exists d, b. split; [reflexivity|]. by split_and!. }
    destruct (Z.leb_spec (hunk_bytes (b_table b)) MAX_CACHE_BYTES) as [Hm|].
    2: { exists d, b. split; [reflexivity|]. by split_and!. }
    unfold mmod. pose proof (bin_evict_spec (b_cache_size b) (hunk_bytes (b_table b)) (b_cache b)) as He. rewrite <- H4 in He.
    destruct (bin_evict _ _ (b_cache b) (b_cache_bytes b)) as [c' t] eqn:Ee. destruct He as ((pre & Hs) & -> & Hroom).
    eexists d, _. split; [unfold mbind, M_bind; cbn; rewrite Ee; reflexivity|]. split_and!; try done.
    assert (Hkey : i ∉ (b_cache b).*1).
    { intros ([k x] & -> & Hin)%list_elem_of_fmap. cbn in Ef. clear -Ef Hin. induction (b_cache b) as [|[j y] c IH]; [by apply not_elem_of_nil in Hin|].
      cbn in Ef. destruct (Z.eqb_spec j k); [done|]. apply elem_of_cons in Hin as [[= -> _]|Hin]; [done|]. by apply IH. }
    rewrite Hs in H1, H2, Hkey. rewrite fmap_app in H2, Hkey. apply NoDup_app in H2 as (_ & _ & H2).
    apply not_elem_of_app in Hkey as [_ Hkey]. apply Forall_app in H1 as [_ H1].
    split; cbn.
    + apply Forall_app. split; [done|]. by apply Forall_singleton.
    + rewrite fmap_app. apply NoDup_app. split_and!; [done| |apply NoDup_singleton].
      intros k Hk Hki. apply list_elem_of_singleton in Hki. cbn in Hki. by subst k.
    + rewrite zlen_app. change (zlen [_]) with 1. destruct Hroom as [-> |[? _]]; [change (zlen []) with 0|]; lia.
    + rewrite cached_bytes_app, cached_bytes_cons. cbn. change (cached_bytes []) with 0. lia.
    + destruct Hroom as [-> |[_ ?]]; [change (cached_bytes []) with 0|]; lia.
Qed.

Lemma same_bin_byte b b' i : same_bin b b' -> bin_byte b' i = bin_byte b i.
Proof. intros (E1 & E2 & E3 & _). unfold bin_byte, frames_per_hunk. by rewrite E1, E2, E3. Qed.

Lemma same_bin_readable b b' : same_bin b b' -> readable b -> readable b'.
Proof. intros (E1 & E2 & E3 & _) [? ? ?]. split; unfold num_hunks in *; by rewrite ?E1, ?E2, ?E3. Qed.

Lemma same_bin_trans b b1 b2 : same_bin b b1 -> same_bin b1 b2 -> same_bin b b2.
Proof. intros (? & ? & ? & ?) (? & ? & ? & ?). split_and!; congruence. Qed.

Lemma zeros_stream a n : zeros n = stream (fun _ => 0) a n.
Proof.
  unfold zeros, stream. apply list_eq. intros i. change (map (fun _ => 0) (seqZ a n)) with ((fun _ => 0) <$> seqZ a n).
  rewrite list_lookup_fmap. destruct (decide (i < Z.to_nat n)%nat).
  - rewrite lookup_replicate_2 by done. rewrite (proj2 (lookup_seqZ a n i (a + Z.of_nat i))) by lia. done.
  - rewrite (lookup_ge_None_2 (replicate _ _)) by (rewrite length_replicate; lia). by rewrite lookup_seqZ_ge by lia.
Qed.

Lemma znth_slice (l : bytes) c m i : 0 <= c -> 0 <= i < m -> c + m <= zlen l -> znth (slice l c (c + m)) i = znth l (c + i).
Proof.
  intros Hc Hi Hm. unfold znth, slice, ztake, zdrop. rewrite !nth_lookup, lookup_take_lt, lookup_drop by lia.
  do 2 f_equal. lia.
Qed.

(** The place of a stored frame in its hunk *)
Lemma stored_frame b sp frame :
  readable b -> sp ∈ spans (b_layout b) -> sp_start sp <= frame < sp_start sp + sp_frames sp -> 0 <= physical_start sp ->
  let physical := physical_start sp + frame - sp_start sp in
  0 <= physical / frames_per_hunk b < num_hunks b /\
  0 <= physical mod frames_per_hunk b * CD_FRAME_BYTES /\
  physical mod frames_per_hunk b * CD_FRAME_BYTES + CD_FRAME_BYTES <= hunk_bytes (b_table b).
Proof.
  intros [[Hh Hm] Hl _] Hin Hf Hp physical. apply layout_tiles in Hl as (_ & _ & Hall & _).
  pose proof (proj1 (Forall_forall _ _) Hall _ Hin) as [Hx|[_ Hx]]; [lia|].
  unfold frames_per_hunk, num_hunks, CD_FRAME_BYTES in *. set (L := logical_bytes (b_table b)) in *. set (Hb := hunk_bytes (b_table b)) in *.
  assert (Hfp : Hb = 2448 * (Hb / 2448)) by divlia. assert (0 < Hb / 2448) by divlia.
  set (k := Hb / 2448) in *. clearbody k.
  pose proof (Z.mod_pos_bound physical k ltac:(lia)). pose proof (Z.div_mod physical k ltac:(lia)).
  assert (Hphys : 0 <= physical /\ physical < L / 2448) by (unfold physical; lia).
  assert (HL : 2448 * (L / 2448) <= L) by (apply Z.mul_div_le; lia).
  split; [split|split]; [apply Z.div_pos; lia| |nia|nia].
  apply Z.div_lt_upper_bound; [lia|]. set (q := (L + Hb - 1) / Hb). 
  assert (L <= Hb * q) by (unfold q; pose proof (Z.mod_pos_bound (L + Hb - 1) Hb ltac:(lia)); pose proof (Z.div_mod (L + Hb - 1) Hb ltac:(lia)); lia).
  nia.
Qed.

Lemma zlen_swap s : zlen (swap_audio_bytes s) = zlen s.
Proof.
  induction s as [s IH] using (induction_ltof1 _ (@length Z)); unfold ltof in IH.
  destruct s as [|x [|y s]]; [done|done|]. cbn [swap_audio_bytes]. rewrite !zlen_cons, IH; [done|cbn; lia].
Qed.

(** A piece of one sector, in the form the loop builds it *)
Definition sector_piece (b : bin_file) (sp : span) (d : bytes) (frame off amount : Z) : bytes :=
  let physical := physical_start sp + frame - sp_start sp in
  let base := physical mod frames_per_hunk b * CD_FRAME_BYTES in
  let sector := slice d base (base + CD_SECTOR_BYTES) in
  slice (if sp_audio sp then swap_audio_bytes sector else sector) off (off + amount).

Lemma piece_bytes b sp d frame off amount :
  readable b -> span_at (b_layout b) frame = Some sp -> sp ∈ spans (b_layout b) ->
  sp_start sp <= frame < sp_start sp + sp_frames sp -> 0 <= physical_start sp ->
  chd_read (b_path b) ((physical_start sp + frame - sp_start sp) / frames_per_hunk b) = Some d ->
  zlen d = hunk_bytes (b_table b) -> 0 <= off -> 0 < amount -> off + amount <= CD_SECTOR_BYTES ->
  sector_piece b sp d frame off amount = stream (bin_byte b) (frame * CD_SECTOR_BYTES + off) amount.
Proof.
  intros Hr Hsp Hin Hf Hp Hd Hl Ho Ha Hend.
  destruct (stored_frame b sp frame Hr Hin Hf Hp) as (_ & Hb & Hfit). unfold sector_piece. cbv zeta.
  set (base := _ * CD_FRAME_BYTES) in *. set (sector := slice d base _).
  assert (Hs : zlen sector = CD_SECTOR_BYTES).
  { unfold sector. rewrite zlen_slice; unfold CD_FRAME_BYTES, CD_SECTOR_BYTES in *; lia. }
  rewrite slice_stream; [|lia|destruct (sp_audio sp); rewrite ?zlen_swap, Hs; lia].
  rewrite (Z.add_comm _ off), <- stream_shift. apply stream_ext. intros i Hi. unfold bin_byte. cbv zeta.
  rewrite Z.div_add, Z.mod_add, (Z.div_small i), (Z.mod_small i) by (unfold CD_SECTOR_BYTES in *; lia).
  rewrite Z.add_0_l, Hsp, (proj2 (Z.ltb_ge _ 0)) by done. unfold hunk_byte. rewrite Hd. fold base.
  destruct (sp_audio sp).
  - rewrite znth_swap; [|lia|by rewrite Hs|lia]. unfold sector, CD_SECTOR_BYTES, CD_FRAME_BYTES in *.
    rewrite znth_slice; [done|lia|divlia|lia].
  - unfold sector, CD_SECTOR_BYTES, CD_FRAME_BYTES in *. rewrite znth_slice; [done|lia..].
Qed.

Lemma bin_read_loop_spec fuel : forall b p size acc,
  readable b -> cache_ok b -> 0 <= p -> zlen acc <= size -> p + (size - zlen acc) <= layout_size (b_layout b) ->
  size - zlen acc <= Z.of_nat fuel ->
  exists b', bin_read_loop fuel p size acc b = (Ok (acc ++ stream (bin_byte b) p (size - zlen acc)), b') /\
    same_bin b b' /\ b_pos b' = b_pos b /\ cache_ok b'.
Proof.
  induction fuel as [|fuel IH]; intros b p size acc Hr Hc Hp Ha Hend Hfuel; cbn [bin_read_loop].
  - rewrite (proj2 (Z.leb_le size (zlen acc))) by lia. exists b. rewrite stream_nonpos, app_nil_r by lia. by split_and!.
  - destruct (Z.leb_spec size (zlen acc)) as [|Hmore].
    { exists b. rewrite stream_nonpos, app_nil_r by lia. by split_and!. }
    unfold mget. unfold mbind at 1, M_bind at 1. cbn [id].
    set (frame := p / CD_SECTOR_BYTES). set (off := p mod CD_SECTOR_BYTES).
    assert (Hpo : p = frame * CD_SECTOR_BYTES + off /\ 0 <= off < CD_SECTOR_BYTES /\ 0 <= frame)
      by (unfold frame, off, CD_SECTOR_BYTES; divlia).
    assert (Hframe : 0 <= frame < total_frames (b_layout b)) by (unfold layout_size, CD_SECTOR_BYTES in *; lia).
    destruct (layout_tiles _ _ (rd_layout _ Hr)) as (_ & Hspans & _). destruct (Hspans frame Hframe) as (sp & Hsp & Hin & Hf).
    rewrite Hsp. set (amount := Z.min (CD_SECTOR_BYTES - off) (size - zlen acc)).
    assert (Ham : 0 < amount /\ off + amount <= CD_SECTOR_BYTES /\ amount <= size - zlen acc) by lia.
    assert (Hpiece : exists b1, (if physical_start sp <? 0 then mret (zeros amount) else
                       decoded ← hunk ((physical_start sp + frame - sp_start sp) / frames_per_hunk b);
                       let byte_offset := (physical_start sp + frame - sp_start sp) mod frames_per_hunk b * CD_FRAME_BYTES in
                       let sector := slice decoded byte_offset (byte_offset + CD_SECTOR_BYTES) in
                       if negb (zlen sector =? CD_SECTOR_BYTES) then raise (OSError None)
                       else let sector := if sp_audio sp then swap_audio_bytes sector else sector in
                            mret (slice sector off (off + amount))) b
                     = (Ok (stream (bin_byte b) p amount), b1) /\ same_bin b b1 /\ b_pos b1 = b_pos b /\ cache_ok b1).
    { destruct (Z.ltb_spec (physical_start sp) 0) as [Hneg|Hpos].
      - exists b. split; [|by split_and!]. unfold mret, M_ret. do 2 f_equal. rewrite (zeros_stream p). apply stream_ext. intros i Hi.
        unfold bin_byte. cbv zeta. assert (i / CD_SECTOR_BYTES = frame) as -> by (unfold CD_SECTOR_BYTES in *; divlia).
        by rewrite Hsp, (proj2 (Z.ltb_lt _ 0)).
      - destruct (stored_frame b sp frame Hr Hin Hf Hpos) as (Hi & Hb & Hfit).
        destruct (hunk_spec b _ Hr Hc Hi) as (d & b1 & E & Hd & Hl & Hsame & Hpos1 & Hc1). exists b1. split; [|done].
        unfold mbind, M_bind. rewrite E. cbv zeta.
        rewrite zlen_slice by (unfold CD_FRAME_BYTES, CD_SECTOR_BYTES in *; lia).
        match goal with |- context [negb (?x =? _)] => replace x with CD_SECTOR_BYTES by (unfold CD_FRAME_BYTES, CD_SECTOR_BYTES in *; lia) end.
        rewrite Z.eqb_refl. cbn [negb]. rewrite (proj1 Hpo).
        rewrite <- (piece_bytes b sp d frame off amount) by (done || lia). done. }
    destruct Hpiece as (b1 & E1 & Hsame & Hpos1 & Hc1). unfold mbind at 1, M_bind at 1. cbv beta zeta in E1 |- *. fold frame off amount. rewrite E1. clear E1.
    assert (Hz : zlen (stream (bin_byte b) p amount) = amount) by (rewrite zlen_stream; lia).
    destruct (IH b1 (p + amount) size (acc ++ stream (bin_byte b) p amount)) as (b2 & E2 & Hs2 & Hp2 & Hc2).
    + by eapply same_bin_readable.
    + done.
    + lia.
    + rewrite zlen_app, Hz. lia.
    + rewrite zlen_app, Hz. destruct Hsame as (_ & _ & -> & _). lia.
    + rewrite zlen_app, Hz. lia.
    + exists b2. split; [|split_and!; [by eapply same_bin_trans|congruence|done]]. rewrite E2, <- app_assoc, zlen_app, Hz.
      assert (Esplit : stream (bin_byte b) p (size - zlen acc) =
        stream (bin_byte b) p amount ++ stream (bin_byte b) (p + amount) (size - (zlen acc + amount))).
      { rewrite <- stream_app by lia. f_equal. lia. }
      rewrite Esplit. do 4 f_equal. apply stream_ext. intros i _. by apply same_bin_byte.
Qed.

(** C40. A read of the virtual BIN returns exactly the bytes of the image that the track table
    describes -- the stored sectors in track order, with the bytes of audio samples
    swapped and silence for pregaps and postgaps that are not stored -- from the current
    position, cut at the end of the image, and advances by what it read.  What the hunk
    cache holds makes no difference; it stays within its number of hunks and of bytes. *)
Theorem bin_read_correct b size :
  readable b -> cache_ok b -> 0 <= b_pos b ->
  let left := Z.max 0 (layout_size (b_layout b) - b_pos b) in
  let n := if size <? 0 then left else Z.min size left in
  exists b', bin_read size b = (Ok (stream (bin_byte b) (b_pos b) n), b') /\
    b_pos b' = b_pos b + n /\ same_bin b b' /\ cache_ok b'.
Proof.
  intros Hr Hc Hp left n. unfold bin_read, mget. unfold mbind at 1, M_bind at 1. cbn [id].
  set (m := if size <? 0 then _ else _).
  assert (Hm : n = Z.max 0 m) by (unfold n, m, left; destruct (Z.ltb_spec size 0); lia).
  destruct (Z.leb_spec m 0) as [|Hpos].
  - exists b. rewrite Hm, Z.max_l, stream_nonpos by lia. split_and!; [done|lia|done..].
  - rewrite Hm, Z.max_r by lia. unfold mbind, M_bind.
    assert (Hend : b_pos b + (m - zlen (@nil Z)) <= layout_size (b_layout b)).
    { change (zlen (@nil Z)) with 0. unfold m. destruct (Z.ltb_spec size 0); lia. }
    destruct (bin_read_loop_spec (Z.to_nat m) b (b_pos b) m [] Hr Hc Hp) as (b1 & E & Hs & Hp1 & Hc1);
      [change (zlen (@nil Z)) with 0; lia|done|change (zlen (@nil Z)) with 0; lia|].
    change (zlen (@nil Z)) with 0 in E. rewrite Z.sub_0_r in E. rewrite E. eexists. split; [reflexivity|]. cbn.
    split_and!; [lia|destruct Hs as (? & ? & ? & ?); by split_and!|destruct Hc1; by split].
Qed.
End bin.
