(* ===== verification/Session.v ===== *)
(** * One client's session: its state and the world its worker runs in

    Models the data of [udpfs_server/udpfs_server.py] that a request handler sees:
    the fields of [Session] (with those [ps2servers_core.AutoUdpfsServer] adds to
    it), the file handles, the server's settings, and the world outside -- the host,
    the data sockets, the clock and the client's queue.

    A worker thread runs the handlers of one client on that client's session only,
    so a handler is a function of its session and of the world.  While it waits, the
    receive loop may add to its queue: [inbox] holds the datagrams still to arrive,
    each with its arrival time, and a wait moves the clock. *)

From S2P Require Import Prelude PyStr SessionStats Compressed HostOs ChdCue Wire.

(** A peer address: IP and port. *)
Definition addr : Type := Z * Z.

(** The discovery socket and the data socket. *)
Inductive socket := sock_discovery | sock_data.

#[export] Instance socket_eq_dec : EqDecision socket.
Proof. solve_decision. Defined.

(** ** Open files *)

(** The dict [_stat_to_bytes] builds. *)
Record stat_info := StatInfo {
  si_mode : Z; si_attr : Z; si_size : Z; si_hisize : Z;
  si_ctime : bytes; si_atime : bytes; si_mtime : bytes
}.

(** [os.DirEntry]; the first successful [stat(follow_symlinks=False)] is cached. *)
Record dirent := DirEnt { de_name : str; de_path : str; de_stat : option stat_result }.

(** One advertised name of a directory handle; [ad_source] is the position of its
    [DirEntry] in [dd_sources], which several advertised names may share. *)
Record advertised := Advertised {
  ad_name : str; ad_source : Z; ad_stat : option stat_info; ad_virtual : option virtual_view
}.

Record dir_data := DirData { dd_sources : list dirent; dd_entries : list advertised; dd_index : Z }.

(** [FileHandle]: [is_dir] says whether [obj] is a directory listing.  A compressed
    image keeps the path and the file its wrapper reads. *)
Inductive file_handle :=
  | F_file (f : Z)
  | F_image (path : str) (c : Formats.codec) (f : hfile) (w : Base.wrapper)
  | F_view (v : view_stream)
  | F_dir (d : dir_data).

Definition is_dir (fh : file_handle) : bool := match fh with F_dir _ => true | _ => false end.

(** ** The session *)

Inductive profile := PENDING | STANDARD | MODULO.

#[export] Instance profile_eq_dec : EqDecision profile.
Proof. solve_decision. Defined.

(** [last_bread_reply]: [completion] of the stall report *)
Inductive completion := sending | fin_acked | unconfirmed.
Record bread_reply := BreadReply {
  br_handle : Z; br_sector : Z; br_requested : Z; br_read : Z; br_completion : completion
}.

(** A queued datagram: its bytes, its sender and the socket it came in on, which only
    the Core records. *)
Definition datagram : Type := bytes * addr * option socket.

#[export] Hint Transparent datagram addr : keeps.

Record session := Session {
  s_addr : addr;
  tx_seq_nr : Z;
  tx_seq_nr_acked : Z;
  rx_seq_nr_expected : Z;
  tx_buffer : list (Z * bytes);
  tx_start_seq : Z;
  handles : list (Z * file_handle);
  next_handle : Z;
  write_handle : Z;
  write_is_block : bool;
  write_sector_nr : Z;
  write_sector_count : Z;
  write_data : bytes;
  write_total_chunks : Z;
  write_received_chunks : Z;
  rx_streaming : bool;
  ingress : option socket;
  pushback : list datagram;
  last_activity : Z;
  last_request : Z;
  stall_reported : bool;
  last_bread_reply : option bread_reply;
  last_retx : option (Z * Z);
  (* the fields of [_init_compat] and [_last_disc] *)
  protocol_profile : profile;
  discovery_sequence : Z;
  response_socket : socket;
  handshake_generation : Z;
  fallback_sent : bool;
  first_data_seen : bool;
  pending_zero_discovery_at : option Z;
  pending_discovery_sequence : option Z;
  last_disc : option (Z * Z)
}.

#[export] Instance eta_session : Eta session := fun s =>
  Session (s_addr s) (tx_seq_nr s) (tx_seq_nr_acked s) (rx_seq_nr_expected s) (tx_buffer s)
    (tx_start_seq s) (handles s) (next_handle s) (write_handle s) (write_is_block s)
    (write_sector_nr s) (write_sector_count s) (write_data s) (write_total_chunks s)
    (write_received_chunks s) (rx_streaming s) (ingress s) (pushback s) (last_activity s)
    (last_request s) (stall_reported s) (last_bread_reply s) (last_retx s) (protocol_profile s)
    (discovery_sequence s) (response_socket s) (handshake_generation s) (fallback_sent s)
    (first_data_seen s) (pending_zero_discovery_at s) (pending_discovery_sequence s) (last_disc s).

(** [Session.__init__] at time [now], with the shared block device [bd_fh] as handle 0,
    and [_init_compat] with profile [p]. *)
Definition new_session (a : addr) (bd_fh : option Z) (p : profile) (now : Z) : session :=
  {| s_addr := a; tx_seq_nr := 0; tx_seq_nr_acked := 0; rx_seq_nr_expected := 0; tx_buffer := [];
     tx_start_seq := 0;
     handles := match bd_fh with Some f => [(BLOCK_DEVICE_HANDLE, F_file f)] | None => [] end;
     next_handle := 1; write_handle := -1; write_is_block := false; write_sector_nr := 0;
     write_sector_count := 0; write_data := []; write_total_chunks := 0; write_received_chunks := 0;
     rx_streaming := false; ingress := None; pushback := []; last_activity := now; last_request := 0;
     stall_reported := false; last_bread_reply := None; last_retx := None;
     protocol_profile := p; discovery_sequence := 0; response_socket := sock_data;
     handshake_generation := 0; fallback_sent := false; first_data_seen := false;
     pending_zero_discovery_at := None; pending_discovery_sequence := None; last_disc := None |}.

(** ** The handle table, a dict *)

Fixpoint hget (h : Z) (l : list (Z * file_handle)) : option file_handle :=
  match l with
  | [] => None
  | (k, fh) :: l => if k =? h then Some fh else hget h l
  end.

(** [del handles[h]] *)
Definition hdel (h : Z) (l : list (Z * file_handle)) : list (Z * file_handle) :=
  List.filter (fun kv => negb (fst kv =? h)) l.

(** [handles[h] = fh], keeping the place of an existing key *)
Fixpoint hset (h : Z) (fh : file_handle) (l : list (Z * file_handle)) : list (Z * file_handle) :=
  match l with
  | [] => [(h, fh)]
  | (k, f) :: l => if k =? h then (k, fh) :: l else (k, f) :: hset h fh l
  end.

(** ** Server settings and counters *)

(** The attributes of [UdpfsServer] the handlers read.  [bd_fh] is the file object of
    the block device, [bd_fd] its descriptor; [tx_delay] is in microseconds. *)
Record config := Config {
  root_dir : option str;
  read_only : bool;
  enable_compression : bool;
  compression_cache_size : Z;
  max_transfer_bytes : Z;
  bd_fh : option Z;
  bd_fd : option Z;
  bd_sector_size : Z;
  bd_sector_count : Z;
  has_pread : bool;
  has_pwrite : bool;
  tx_delay : Z
}.

(** The keys of [server.stats]. *)
Inductive counter :=
  | n_discovery | n_open | n_close | n_read | n_write | n_bread | n_bwrite | n_lseek
  | n_dread | n_getstat | n_mkdir | n_remove | n_rmdir | n_bytes_read | n_bytes_written.

#[export] Instance counter_eq_dec : EqDecision counter.
Proof. solve_decision. Defined.

(** ** The world of a worker *)

Section world.
Context {Os : Type}.

(** [sent] is what left the sockets, oldest first; [net] scripts the outcome of the
    next [sendto] calls ([Some e] an [OSError], an empty script success); [clock] is
    [time.monotonic()] in microseconds; [inbox] is the client's queue, [None] being the
    wake-up of [shutdown], with arrival times that may lie ahead of the clock. *)
Record world := World {
  host : Os;
  sess : session;
  counters : counter -> Z;
  summary : option (SessionStats.stats Z);
  sent : list (socket * addr * bytes);
  net : list (option Z);
  clock : Z;
  inbox : list (Z * option datagram)
}.

#[export] Instance eta_world : Eta world := fun w =>
  World (host w) (sess w) (counters w) (summary w) (sent w) (net w) (clock w) (inbox w).

(** Reads and updates of the session *)
Definition sget {A} (f : session -> A) : M world A := mget (fun w => f (sess w)).
Definition smod (f : session -> session) : M world unit := mmod (fun w => w <| sess ::= f |>).

(** A host operation *)
Definition on_host {A} (m : M Os A) : M world A := fun w =>
  let '(r, o) := m (host w) in (r, w <| host := o |>).
Definition ask {A} (f : Os -> result A) : M world A := fun w => (f (host w), w).

(** [self.stats[k] += n] *)
Definition count (k : counter) (n : Z) : M world unit :=
  mmod (fun w => w <| counters ::= fun c k' => if decide (k' = k) then c k' + n else c k' |>).

(** [_session_record] *)
Definition session_record (a : addr) (k : SessionStats.kind) (n : Z) : M world unit :=
  mmod (fun w => w <| summary ::= fmap (SessionStats.record (fst a) k n (clock w)) |>).

(** [_session_touch] *)
Definition session_touch (a : addr) : M world unit :=
  mmod (fun w => w <| summary ::= fmap (fun st => fst (SessionStats.touch (fst a) (clock w) st)) |>).

Definition sleep (us : Z) : M world unit := mmod (fun w => w <| clock ::= Z.add us |>).
End world.
Arguments world : clear implicits.
