(* ===== verification/Transport.v ===== *)
(** * UDPRDMA transport: sending with a window, acknowledgements, waits

    Models the send helpers of [udpfs_server/udpfs_server.py]: [_send_with_retry],
    [_send_ack], [_send_data], [_send_data_packet], [_retransmit_from],
    [_acknowledge_tx], the two waits and the windowed transfer of a read reply.

    [sock_of] is the socket a reply leaves from: always the data socket in the
    standalone server, the negotiated one in the Core. *)

From S2P Require Import Prelude PyStr SessionStats HostOs Wire Session.

Definition MAX_SEND_RETRIES : Z := 10.
(** [WINDOW_ACK_TIMEOUT], in microseconds *)
Definition WINDOW_ACK_TIMEOUT : Z := 100000.

Definition HALF_RING : Z := 2048.

(** [_is_transient_send_error] on a POSIX host *)
Definition transient (e : Z) : bool := (e =? ENOBUFS) || (e =? EAGAIN).

(** [(len + 3) & ~3] *)
Definition pad4 (n : Z) : Z := Z.land (n + 3) (-4).

(** [_optimal_chunk_size]; the float quotients are exact for any buffer that fits in
    memory. *)
Definition chunk_step (total : Z) (best : Z * Z * Z) (candidate : Z * Z) : Z * Z * Z :=
  let '(best_chunk, best_packets, best_align) := best in
  let '(max_chunk, alignment) := candidate in
  let packets := ceil_div total max_chunk in
  if (packets <? best_packets) || ((packets =? best_packets) && (best_align <? alignment))
  then (max_chunk, packets, alignment) else best.

Definition optimal_chunk_size (total_bytes : Z) : Z :=
  fst (fst (foldl (chunk_step total_bytes) (1408, ceil_div total_bytes 1408, 128)
                  [(1024, 512); (1280, 256); (1408, 128)])).

(** ** The send window *)

(** [_acknowledge_tx]: the answer and the session after it *)
Definition acknowledge_tx (acknowledged : Z) (s : session) : bool * session :=
  let advance := seq12 (acknowledged - tx_seq_nr_acked s) in
  let unacked := seq12 (tx_seq_nr s - tx_seq_nr_acked s - 1) in
  if (HALF_RING <=? advance) || (HALF_RING <=? unacked) || (unacked <? advance) then (false, s)
  else (true, s <| tx_seq_nr_acked := acknowledged |>
                <| tx_buffer ::= List.filter (fun sp => seq12 (fst sp - acknowledged - 1) <? HALF_RING) |>).

(** [_in_flight] *)
Definition in_flight (s : session) : Z := seq12 (tx_seq_nr s - tx_seq_nr_acked s - 1).

(** [_is_resent_request] *)
Definition is_resent_request (seq_nr payload_size : Z) (s : session) : bool :=
  (0 <? payload_size) && (seq_nr =? seq12 (rx_seq_nr_expected s - 1)).

Section transport.
Context {Os : Type} (sock_of : session -> socket) (tx_delay : Z).

Abbreviation W := (world Os).

(** ** Sending *)

(** The attempts of [_send_with_retry], [attempt] being the number already made. *)
Fixpoint send_attempts (tries : nat) (attempt : Z) (sock : socket) (packet : bytes) (a : addr) : M W unit :=
  match tries with
  | O => raise Hang
  | S tries => fun w =>
      let w := if 0 <? tx_delay then w <| clock ::= Z.add tx_delay |> else w in
      match net w with
      | Some e :: rest =>
          let w := w <| net := rest |> in
          if negb (transient e) || (MAX_SEND_RETRIES <=? attempt + 1) then (oserror e, w)
          else send_attempts tries (attempt + 1) sock packet a
                 (w <| clock ::= Z.add (Z.min (1000 * (attempt + 1)) 10000) |>)
      | _ => (Ok tt, w <| net ::= tail |> <| sent ::= fun l => l ++ [(sock, a, packet)] |>)
      end
  end.

(** [_send_with_retry] *)
Definition send_specific (sock : socket) (packet : bytes) (a : addr) : M W unit :=
  send_attempts (Z.to_nat MAX_SEND_RETRIES) 0 sock packet a.

(** [_sendto] *)
Definition sendto (packet : bytes) (a : addr) : M W unit :=
  sock ← sget sock_of; send_specific sock packet a.

Definition data_packet (seq : Z) (h : DataHeader.t) (payload : bytes) : bytes :=
  Header.pack {| Header.packet_type := DATA; Header.seq_nr := seq |} ++ DataHeader.pack h ++ payload.

(** [_send_ack] *)
Definition send_ack (a : addr) (is_ack : bool) : M W unit :=
  s ← sget id;
  sendto (data_packet (tx_seq_nr s)
            {| DataHeader.seq_nr_ack := if is_ack then seq12 (rx_seq_nr_expected s - 1) else rx_seq_nr_expected s;
               DataHeader.flags := if is_ack then ACK else 0;
               DataHeader.hdr_word_count := 0; DataHeader.data_byte_count := 0 |} []) a.

(** [_send_data] *)
Definition send_data (a : addr) (payload : bytes) : M W unit :=
  s ← sget id;
  let padded_size := pad4 (zlen payload) in
  let packet := data_packet (tx_seq_nr s)
                  {| DataHeader.seq_nr_ack := seq12 (rx_seq_nr_expected s - 1);
                     DataHeader.flags := FIN; DataHeader.hdr_word_count := 0;
                     DataHeader.data_byte_count := padded_size |} (ljust payload padded_size) in
  _ ← smod (fun s => s <| tx_buffer := [(tx_seq_nr s, packet)] |>);
  _ ← sendto packet a;
  smod (fun s => s <| tx_seq_nr := seq12 (tx_seq_nr s + 1) |>).

(** The packet of [_send_data_packet]; the first [hdr_size] bytes of the payload are
    the application header. *)
Definition payload_packet (s : session) (payload : bytes) (fin : bool) (hdr_size : Z) : bytes :=
  let padded_data_size := pad4 (zlen payload - hdr_size) in
  data_packet (tx_seq_nr s)
    {| DataHeader.seq_nr_ack := seq12 (rx_seq_nr_expected s - 1);
       DataHeader.flags := if fin then FIN else 0; DataHeader.hdr_word_count := hdr_size / 4;
       DataHeader.data_byte_count := padded_data_size |}
    (ztake hdr_size payload ++ ljust (zdrop hdr_size payload) padded_data_size).

(** [_send_data_packet] *)
Definition send_data_packet (a : addr) (payload : bytes) (fin : bool) (hdr_size : Z) : M W unit :=
  s ← sget id;
  let packet := payload_packet s payload fin hdr_size in
  _ ← smod (fun s => s <| tx_buffer ::= fun b => b ++ [(tx_seq_nr s, packet)] |>);
  _ ← sendto packet a;
  smod (fun s => s <| tx_seq_nr := seq12 (tx_seq_nr s + 1) |>).

(** The loop of [_retransmit_from] over the unacknowledged packets; [sent_any] is
    [count > 0]. *)
Fixpoint retransmit_packets (a : addr) (from_seq : Z) (buffer : list (Z * bytes)) (sent_any : bool) : M W unit :=
  match buffer with
  | [] => mret tt
  | (seq, packet) :: buffer =>
      if seq12 (seq - from_seq) <? HALF_RING then
        _ ← mwhen sent_any (sleep 1000);
        _ ← sendto packet a;
        retransmit_packets a from_seq buffer true
      else retransmit_packets a from_seq buffer sent_any
  end.

(** [_retransmit_from]: at most once per 50 ms from the same packet *)
Definition retransmit_from (a : addr) (from_seq : Z) : M W unit :=
  now ← mget clock;
  s ← sget id;
  let recent := match last_retx s with
                | Some (seq, t) => (seq =? from_seq) && (now - t <? 50000)
                | None => false
                end in
  if recent then mret tt
  else
    _ ← smod (fun s => s <| last_retx := Some (from_seq, now) |>);
    retransmit_packets a from_seq (tx_buffer s) false.

(** [if self.tx_buffer: self._retransmit_from(addr, self.tx_buffer[0][0])] *)
Definition retransmit_unacked (a : addr) : M W unit :=
  s ← sget id;
  match tx_buffer s with
  | [] => mret tt
  | (seq, _) :: _ => retransmit_from a seq
  end.

(** ** Receiving *)

(** [_queue_get] with a timeout: [None] is [queue.Empty], [Some None] the wake-up of a
    shutdown. *)
Definition queue_get (timeout : Z) : M W (option (option datagram)) := fun w =>
  match pushback (sess w) with
  | d :: rest => (Ok (Some (Some d)), w <| sess ::= fun s => s <| pushback := rest |> |>)
  | [] =>
      match inbox w with
      | (t, d) :: rest =>
          if t <=? clock w + timeout
          then (Ok (Some d), w <| clock := Z.max (clock w) t |> <| inbox := rest |>)
          else (Ok None, w <| clock ::= Z.add timeout |>)
      | [] => (Ok None, w <| clock ::= Z.add timeout |>)
      end
  end.

(** The same with a deadline in place of the timeout *)
Definition queue_get_until (deadline : Z) : M W (option (option datagram)) :=
  now ← mget clock;
  if deadline - now <=? 0 then mret None else queue_get (deadline - now).

(** [_queue_pushback] *)
Definition queue_pushback (d : datagram) : M W unit :=
  smod (fun s => s <| pushback ::= fun l => l ++ [d] |>).

(** [self._acknowledge_tx(n)] *)
Definition acknowledge (n : Z) : M W bool := fun w =>
  let '(b, s) := acknowledge_tx n (sess w) in (Ok b, w <| sess := s |>).

(** What a wait makes of a datagram after the common checks. *)
Inductive reception :=
  | R_ignore                              (** too short, or not DATA *)
  | R_discovery
  | R_data (seq_nr : Z) (h : DataHeader.t).

Definition classify (pkt : bytes) : result reception :=
  if zlen pkt <? 6 then Ok R_ignore
  else
    hdr ← Header.unpack pkt;
    if Header.packet_type hdr =? DISCOVERY then Ok R_discovery
    else if negb (Header.packet_type hdr =? DATA) then Ok R_ignore
    else h ← DataHeader.unpack (slice pkt 2 6); Ok (R_data (Header.seq_nr hdr) h).

(** Every turn of a wait takes one datagram from the queue or ends, so this bounds its
    turns. *)
Definition wait_fuel (w : W) : nat := S (length (pushback (sess w)) + length (inbox w)).

(** The loop of [_wait_for_window_ack] *)
Fixpoint window_wait (fuel : nat) (a : addr) (deadline : Z) : M W bool :=
  match fuel with
  | O => raise Hang
  | S fuel =>
      item ← queue_get_until deadline;
      match item with
      | None => _ ← retransmit_unacked a; mret false
      | Some None => mret false
      | Some (Some ((pkt, _, _) as d)) =>
          what ← lift (classify pkt);
          match what with
          | R_ignore => window_wait fuel a deadline
          | R_discovery =>
              _ ← smod (fun s => s <| tx_buffer := [] |>);
              _ ← queue_pushback d;
              mret true
          | R_data seq_nr h =>
              let payload_size := DataHeader.payload_size h in
              s ← sget id;
              if is_resent_request seq_nr payload_size s then
                _ ← send_ack a true; window_wait fuel a deadline
              else if DataHeader.has_ack h then
                let previous := tx_seq_nr_acked s in
                _ ← acknowledge (DataHeader.seq_nr_ack h);
                if 0 <? payload_size then _ ← queue_pushback d; mret true
                else
                  s ← sget id;
                  if negb (tx_seq_nr_acked s =? previous) then mret false
                  else window_wait fuel a deadline
              else if payload_size =? 0 then
                accepted ← acknowledge (seq12 (DataHeader.seq_nr_ack h - 1));
                _ ← retransmit_from a (DataHeader.seq_nr_ack h);
                s ← sget id;
                if (accepted : bool) && (DataHeader.seq_nr_ack h =? tx_seq_nr s) then mret false
                else window_wait fuel a deadline
              else _ ← queue_pushback d; mret true
          end
      end
  end.

(** [_wait_for_window_ack]: true when the console has moved on *)
Definition wait_for_window_ack (a : addr) : M W bool := fun w =>
  window_wait (wait_fuel w) a (clock w + WINDOW_ACK_TIMEOUT) w.

(** The loop of [_wait_for_ack] *)
Fixpoint ack_wait (fuel : nat) (a : addr) (timeout fin_seq deadline : Z) : M W bool :=
  match fuel with
  | O => raise Hang
  | S fuel =>
      item ← queue_get_until deadline;
      match item with
      | None | Some None => mret false
      | Some (Some ((pkt, _, _) as d)) =>
          what ← lift (classify pkt);
          match what with
          | R_ignore => ack_wait fuel a timeout fin_seq deadline
          | R_discovery =>
              _ ← smod (fun s => s <| tx_buffer := [] |>);
              _ ← queue_pushback d;
              mret false
          | R_data seq_nr h =>
              let payload_size := DataHeader.payload_size h in
              s ← sget id;
              if is_resent_request seq_nr payload_size s then
                _ ← send_ack a true; ack_wait fuel a timeout fin_seq deadline
              else if DataHeader.has_ack h then
                let previous := tx_seq_nr_acked s in
                accepted ← acknowledge (DataHeader.seq_nr_ack h);
                if (accepted : bool) && (DataHeader.seq_nr_ack h =? fin_seq) then
                  _ ← smod (fun s => s <| tx_buffer := [] |>);
                  _ ← mwhen (0 <? payload_size) (queue_pushback d);
                  mret true
                else
                  s ← sget id;
                  now ← mget clock;
                  let deadline := if negb (tx_seq_nr_acked s =? previous) then now + timeout else deadline in
                  if 0 <? payload_size then _ ← queue_pushback d; mret true
                  else ack_wait fuel a timeout fin_seq deadline
              else if payload_size =? 0 then
                let previous := tx_seq_nr_acked s in
                _ ← acknowledge (seq12 (DataHeader.seq_nr_ack h - 1));
                _ ← retransmit_from a (DataHeader.seq_nr_ack h);
                s ← sget id;
                now ← mget clock;
                let deadline := if negb (tx_seq_nr_acked s =? previous) then now + timeout else deadline in
                ack_wait fuel a timeout fin_seq deadline
              else _ ← queue_pushback d; mret true
          end
      end
  end.

(** [_wait_for_ack] *)
Definition wait_for_ack (a : addr) (timeout : Z) : M W bool := fun w =>
  ack_wait (wait_fuel w) a timeout (seq12 (tx_seq_nr (sess w) - 1)) (clock w + timeout) w.

(** The loop of [_wait_for_final_ack] *)
Fixpoint final_ack_attempts (attempts : nat) (a : addr) : M W bool :=
  match attempts with
  | O => mret false
  | S attempts =>
      answered ← wait_for_ack a WINDOW_ACK_TIMEOUT;
      s ← sget id;
      if (answered : bool) then
        mret ((tx_seq_nr_acked s =? seq12 (tx_seq_nr s - 1)) && bool_decide (tx_buffer s = []))
      else
        match tx_buffer s with
        | [] => mret false
        | (start_seq, _) :: _ => _ ← retransmit_from a start_seq; final_ack_attempts attempts a
        end
  end.

(** [_wait_for_final_ack] *)
Definition wait_for_final_ack (a : addr) : M W bool :=
  final_ack_attempts (Z.to_nat (MAX_WINDOW_RETRIES + 1)) a.

(** ** Transfers *)

(** The loop that the two senders share, from [offset]; [touch] keeps the session
    summary alive on progress.  False ([None] in Python) when the transfer stopped. *)
Fixpoint send_chunks (fuel : nat) (touch : bool) (a : addr) (data : bytes) (max_chunk offset retries : Z)
    : M W bool :=
  if zlen data <=? offset then wait_for_final_ack a
  else match fuel with
  | O => raise Hang
  | S fuel =>
      s ← sget id;
      if SEND_WINDOW <=? in_flight s then
        let old_acked := tx_seq_nr_acked s in
        moved_on ← wait_for_window_ack a;
        if (moved_on : bool) then mret false
        else
          s ← sget id;
          if tx_seq_nr_acked s =? old_acked then
            if MAX_WINDOW_RETRIES <=? retries + 1 then mret false
            else send_chunks fuel touch a data max_chunk offset (retries + 1)
          else
            _ ← mwhen touch (session_touch a);
            send_chunks fuel touch a data max_chunk offset 0
      else
        let chunk_size := Z.min max_chunk (zlen data - offset) in
        let is_last := zlen data <=? offset + chunk_size in
        _ ← send_data_packet a (slice data offset (offset + chunk_size)) is_last 0;
        send_chunks fuel touch a data max_chunk (offset + chunk_size) 0
  end.

(** A turn of the loop sends a chunk, or acknowledges at least one of the at most 4095
    packets in flight, or uses up one of [MAX_WINDOW_RETRIES] waits; a chunk but the
    last has at least 1024 bytes. *)
Definition chunks_fuel (data : bytes) : nat :=
  Z.to_nat (MAX_WINDOW_RETRIES * (2 * (zlen data / 1024 + 1) + 4097) + 1).

Definition start_transfer : M W unit :=
  smod (fun s => s <| tx_buffer := [] |> <| tx_start_seq := tx_seq_nr s |>).

(** [_send_raw_data] *)
Definition send_raw_data (a : addr) (data : bytes) : M W bool :=
  _ ← start_transfer;
  send_chunks (chunks_fuel data) false a data (optimal_chunk_size (zlen data)) 0 0.

(** [_send_raw_data_with_header] *)
Definition send_raw_data_with_header (a : addr) (header data : bytes) : M W bool :=
  _ ← start_transfer;
  let max_chunk := optimal_chunk_size (zlen data) in
  let first_data_max := Z.min max_chunk (MAX_DATA_PAYLOAD - zlen header) in
  let first_chunk_size := Z.min first_data_max (zlen data) in
  let is_last := zlen data <=? first_chunk_size in
  _ ← send_data_packet a (header ++ ztake first_chunk_size data) is_last (zlen header);
  send_chunks (chunks_fuel data) true a data max_chunk first_chunk_size 0.
End transport.

#[global] Arguments data_packet : simpl never.
#[global] Arguments payload_packet : simpl never.
#[global] Arguments acknowledge_tx : simpl never.
#[global] Arguments send_specific : simpl never.
#[global] Arguments sendto : simpl never.
