(* ===== verification/TransportFacts.v ===== *)
(** * What the transport guarantees

    Theorems about [Transport]: what it leaves alone, acknowledgements as a refinement
    of unbounded sequence numbers, the choice of chunk size, the bytes a transfer puts
    on the wire, and that every wait and every transfer ends. *)

From S2P Require Import Prelude PyStr SessionStats HostOs Wire Session Transport.

(** ** What the transport leaves alone *)

(** The session without the fields that belong to the transport *)
Definition erase_tx (s : session) : session :=
  s <| tx_seq_nr := 0 |> <| tx_seq_nr_acked := 0 |> <| tx_buffer := [] |> <| tx_start_seq := 0 |>
    <| pushback := [] |> <| last_retx := None |>.

Section frame.
Context {Os : Type}.
Abbreviation W := (world Os).

(** Two worlds that differ in nothing but the transport's own state, what was sent and
    received, the time and the session summary *)
Definition transport_eq (w w' : W) : Prop :=
  host w' = host w /\ counters w' = counters w /\ erase_tx (sess w') = erase_tx (sess w).

#[global] Instance transport_eq_equiv : Equivalence transport_eq.
Proof.
  unfold transport_eq. split.
  - by intros w.
  - intros w w' (? & ? & ?). auto.
  - intros w1 w2 w3 (? & ? & ?) (? & ? & ?). split_and!; congruence.
Qed.

(** A computation that leaves all the rest alone, whether or not it raises *)
Definition framed {A} (m : M W A) : Prop := forall w0, keeps (transport_eq w0) m.

Lemma framed_at {A} (m : M W A) w r w' : framed m -> m w = (r, w') -> transport_eq w w'.
Proof. intros Hm Hw. exact (Hm w w r w' (reflexivity w) Hw). Qed.

(** Any property of the rest is kept. *)
Lemma framed_keeps {A} (P : W -> Prop) (m : M W A) :
  (forall w w', transport_eq w w' -> P w -> P w') -> framed m -> keeps P m.
Proof. intros HP Hm w r w' Hw Hr. eapply HP; [|exact Hw]. by eapply framed_at. Qed.

Lemma keeps_self {S A} (P : S -> Prop) (m : S -> M S A) :
  (forall s0, keeps P (m s0)) -> keeps P (fun s => m s s).
Proof. intros Hm s r s' Hs Hr. by eapply Hm. Qed.

Lemma keeps_sget (P : W -> Prop) {A} (f : session -> A) : keeps P (sget f).
Proof. apply keeps_mget. Qed.

Lemma keeps_smod (P : W -> Prop) (f : session -> session) :
  (forall w, P w -> P (w <| sess ::= f |>)) -> keeps P (smod f).
Proof. intros Hf. by apply keeps_mmod. Qed.

Lemma framed_smod w0 (f : session -> session) :
  (forall s, erase_tx (f s) = erase_tx s) -> keeps (transport_eq w0) (smod f).
Proof.
  intros Hf. apply keeps_smod. intros w (Hh & Hc & He). split_and!; [done|done|]. cbn. by rewrite Hf.
Qed.

Lemma framed_mmod w0 (f : W -> W) :
  (forall w, transport_eq w (f w)) -> keeps (transport_eq w0) (mmod f).
Proof. intros Hf. apply keeps_mmod. intros w Hw. by etransitivity. Qed.
End frame.

#[export] Hint Resolve keeps_sget : keeps.

(** Splits a computation into its steps; what is left are its calls. *)
Ltac keep_step :=
  match goal with
  | |- forall _, keeps _ _ => intros ?
  | |- keeps _ (mbind _ _) => apply keeps_bind
  | |- keeps _ (match ?x with _ => _ end) => destruct x
  | |- keeps _ (let _ := _ in _) => cbv zeta
  | |- keeps _ (mwhen _ _) => apply keeps_mwhen
  | |- keeps _ (smod _) => apply framed_smod; done
  | |- keeps _ _ => solve [eauto 2 with keeps]
  end.
Ltac keep := repeat keep_step.

Section frames.
Context {Os : Type} (sock_of : session -> socket) (tx_delay : Z) (w0 : world Os).

Lemma framed_send_attempts tries : forall n sock pkt a,
  keeps (transport_eq w0) (send_attempts tx_delay tries n sock pkt a).
Proof.
  induction tries as [|tries IH]; intros n sock pkt a; cbn [send_attempts].
  - apply keeps_raise.
  - intros w r w' Hw. set (w1 := if 0 <? tx_delay then _ else _).
    assert (H1 : transport_eq w0 w1) by (unfold w1; by destruct (0 <? tx_delay)).
    destruct (net w1) as [|[e|] rest].
    + by intros [= _ <-].
    + destruct (_ || _).
      * by intros [= _ <-].
      * intros Hr. by eapply IH; [|exact Hr].
    + by intros [= _ <-].
Qed.

Lemma framed_sendto pkt a : keeps (transport_eq w0) (sendto sock_of tx_delay pkt a).
Proof. unfold sendto, send_specific. keep. apply framed_send_attempts. Qed.
End frames.

#[export] Hint Resolve framed_send_attempts framed_sendto : keeps.

Section frames.
Context {Os : Type} (sock_of : session -> socket) (tx_delay : Z) (w0 : world Os).

Lemma framed_send_specific sock pkt a : keeps (transport_eq w0) (send_specific tx_delay sock pkt a).
Proof. unfold send_specific. keep. Qed.

Lemma framed_send_ack a b : keeps (transport_eq w0) (send_ack sock_of tx_delay a b).
Proof. unfold send_ack. keep. Qed.

Lemma framed_send_data a payload : keeps (transport_eq w0) (send_data sock_of tx_delay a payload).
Proof. unfold send_data. keep. Qed.

Lemma framed_send_data_packet a payload fin n :
  keeps (transport_eq w0) (send_data_packet sock_of tx_delay a payload fin n).
Proof. unfold send_data_packet. keep. Qed.

Lemma framed_sleep us : keeps (transport_eq w0) (sleep us).
Proof. by apply framed_mmod. Qed.

Lemma framed_session_touch a : keeps (transport_eq w0) (session_touch a).
Proof. by apply framed_mmod. Qed.

Lemma framed_session_record a k n : keeps (transport_eq w0) (session_record a k n).
Proof. by apply framed_mmod. Qed.

Lemma framed_queue_get timeout : keeps (transport_eq w0) (queue_get timeout).
Proof.
  intros w r w' Hw. unfold queue_get. destruct (pushback (sess w)) as [|d rest].
  - destruct (inbox w) as [|[t d] rest]; [|destruct (t <=? _)]; by intros [= _ <-].
  - by intros [= _ <-].
Qed.

Lemma framed_queue_pushback d : keeps (transport_eq w0) (queue_pushback d).
Proof. unfold queue_pushback. keep. Qed.

Lemma erase_acknowledge n s : erase_tx (snd (acknowledge_tx n s)) = erase_tx s.
Proof. unfold acknowledge_tx. by destruct (_ || _). Qed.

Lemma framed_acknowledge n : keeps (transport_eq w0) (acknowledge n).
Proof.
  intros w r w' (Hh & Hc & He). unfold acknowledge.
  pose proof (erase_acknowledge n (sess w)) as Ha.
  destruct (acknowledge_tx n (sess w)) as [b s]. intros [= _ <-]. split_and!; [done..|]. cbn in *. congruence.
Qed.
End frames.

#[export] Hint Resolve framed_send_specific framed_send_ack framed_send_data framed_send_data_packet framed_sleep
  framed_session_touch framed_session_record framed_queue_get framed_queue_pushback framed_acknowledge : keeps.

Section frames.
Context {Os : Type} (sock_of : session -> socket) (tx_delay : Z) (w0 : world Os).

Lemma framed_queue_get_until d : keeps (transport_eq w0) (queue_get_until d).
Proof. unfold queue_get_until. keep. Qed.

Lemma framed_retransmit_packets a from_seq buffer : forall sent_any,
  keeps (transport_eq w0) (retransmit_packets sock_of tx_delay a from_seq buffer sent_any).
Proof. induction buffer as [|[seq pkt] buffer IH]; intros sent_any; cbn [retransmit_packets]; keep; apply IH. Qed.
End frames.

#[export] Hint Resolve framed_queue_get_until framed_retransmit_packets : keeps.

Section frames.
Context {Os : Type} (sock_of : session -> socket) (tx_delay : Z) (w0 : world Os).

Lemma framed_retransmit_from a n : keeps (transport_eq w0) (retransmit_from sock_of tx_delay a n).
Proof. unfold retransmit_from. keep. Qed.
End frames.

#[export] Hint Resolve framed_retransmit_from : keeps.

Section frames.
Context {Os : Type} (sock_of : session -> socket) (tx_delay : Z) (w0 : world Os).

Lemma framed_retransmit_unacked a : keeps (transport_eq w0) (retransmit_unacked sock_of tx_delay a).
Proof. unfold retransmit_unacked. keep. Qed.
#[local] Hint Resolve framed_retransmit_unacked : keeps.

Lemma framed_window_wait a deadline fuel :
  keeps (transport_eq w0) (window_wait sock_of tx_delay fuel a deadline).
Proof. induction fuel as [|fuel IH]; cbn [window_wait]; keep; apply IH. Qed.

Lemma framed_ack_wait a timeout fin_seq fuel : forall deadline,
  keeps (transport_eq w0) (ack_wait sock_of tx_delay fuel a timeout fin_seq deadline).
Proof. induction fuel as [|fuel IH]; intros deadline; cbn [ack_wait]; keep; apply IH. Qed.
#[local] Hint Resolve framed_window_wait framed_ack_wait : keeps.

Lemma framed_wait_for_window_ack a : keeps (transport_eq w0) (wait_for_window_ack sock_of tx_delay a).
Proof. intros w r w' Hw Hr. by eapply framed_window_wait. Qed.

Lemma framed_wait_for_ack a timeout : keeps (transport_eq w0) (wait_for_ack sock_of tx_delay a timeout).
Proof. intros w r w' Hw Hr. by eapply framed_ack_wait. Qed.
#[local] Hint Resolve framed_wait_for_window_ack framed_wait_for_ack : keeps.

Lemma framed_final_ack n a : keeps (transport_eq w0) (final_ack_attempts sock_of tx_delay n a).
Proof. induction n as [|n IH]; cbn [final_ack_attempts]; keep; apply IH. Qed.

Lemma framed_send_chunks touch a data max_chunk fuel : forall offset retries,
  keeps (transport_eq w0) (send_chunks sock_of tx_delay fuel touch a data max_chunk offset retries).
Proof.
  induction fuel as [|fuel IH]; intros offset retries; cbn [send_chunks]; unfold wait_for_final_ack;
    keep; first [apply framed_final_ack | apply IH].
Qed.

Lemma framed_send_raw_data_with_header a header data :
  keeps (transport_eq w0) (send_raw_data_with_header sock_of tx_delay a header data).
Proof. unfold send_raw_data_with_header, start_transfer. keep. apply framed_send_chunks. Qed.
End frames.

#[export] Hint Resolve framed_retransmit_unacked framed_wait_for_window_ack framed_wait_for_ack
  framed_send_raw_data_with_header : keeps.

(** ** Acknowledgements *)

Lemma seq12_sub a b : seq12 (seq12 a - seq12 b) = seq12 (a - b).
Proof. rewrite !seq12_mod. symmetry. apply Zminus_mod. Qed.

Lemma seq12_sub1 a b : seq12 (seq12 a - seq12 b - 1) = seq12 (a - b - 1).
Proof.
  rewrite !seq12_mod, <- (Zminus_mod_idemp_l (a mod 4096 - b mod 4096)), <- Zminus_mod.
  apply Zminus_mod_idemp_l.
Qed.

Lemma seq12_window d : - 4096 <= d < 4096 -> seq12 d = if d <? 0 then d + 4096 else d.
Proof.
  intros. rewrite seq12_mod. destruct (Z.ltb_spec d 0); [|apply Z.mod_small; lia].
  symmetry. apply (Z.mod_unique d 4096 (-1)); lia.
Qed.

(** The packets of the transport's buffer under their unbounded numbers *)
Definition wrap_buffer (buf : list (Z * bytes)) : list (Z * bytes) := map (fun kp => (seq12 (fst kp), snd kp)) buf.

Lemma filter_wrap_buffer K buf :
  Forall (fun kp => -2048 <= fst kp - K - 1 < 2048) buf ->
  List.filter (fun sp => seq12 (fst sp - seq12 K - 1) <? HALF_RING) (wrap_buffer buf) =
    wrap_buffer (List.filter (fun kp => K <? fst kp) buf).
Proof.
  unfold HALF_RING. induction 1 as [|[k p] buf Hk _ IH]; [done|]. cbn [wrap_buffer map List.filter fst snd].
  fold (wrap_buffer buf). rewrite seq12_sub1, seq12_window by (cbn in Hk; lia). cbn in Hk.
  destruct (Z.ltb_spec (k - K - 1) 0), (Z.ltb_spec K k); try lia;
    match goal with |- context [if ?x <? 2048 then _ else _] => destruct (Z.ltb_spec x 2048) end;
    try lia; cbn; by rewrite IH.
Qed.

(** C39. Twelve-bit acknowledgements refine unbounded ones.  Let [N] packets have been sent
    and [A] be the last one acknowledged, at most half the ring apart, the buffer
    holding packets numbered from [A] up.  An acknowledgement of any packet [K] within
    half a ring of [A] is taken exactly when [K] is one of the packets from [A] to
    [N - 1]; then it is recorded and exactly the packets after [K] stay buffered.  A
    delayed acknowledgement never rewinds the window, one of unsent data never advances
    it, and both leave the session unchanged. *)
Theorem acknowledge_refines s N A K buf :
  A < N -> N - A <= 2048 -> A - 2048 <= K < A + 2048 ->
  tx_seq_nr s = seq12 N -> tx_seq_nr_acked s = seq12 A ->
  tx_buffer s = wrap_buffer buf -> Forall (fun kp => A <= fst kp < N) buf ->
  acknowledge_tx (seq12 K) s =
    if (A <=? K) && (K <? N)
    then (true, s <| tx_seq_nr_acked := seq12 K |>
                  <| tx_buffer := wrap_buffer (List.filter (fun kp => K <? fst kp) buf) |>)
    else (false, s).
Proof.
  intros HAN Hhalf HK HN HA Hb Hbuf. unfold acknowledge_tx. rewrite HN, HA, seq12_sub, seq12_sub1.
  rewrite (seq12_window (K - A)), (seq12_window (N - A - 1)) by lia. unfold HALF_RING at 1 2.
  destruct (Z.ltb_spec (N - A - 1) 0); [lia|].
  destruct (Z.leb_spec 2048 (N - A - 1)); [lia|]. rewrite orb_false_r.
  destruct (Z.ltb_spec (K - A) 0).
  - rewrite (proj2 (Z.leb_le _ _)) by lia. by rewrite (proj2 (Z.leb_gt A K)) by lia.
  - rewrite (proj2 (Z.leb_gt _ (K - A))), (proj2 (Z.leb_le A K)) by lia. cbn [orb andb].
    destruct (Z.ltb_spec (N - A - 1) (K - A)), (Z.ltb_spec K N); try lia; [done|].
    f_equal. destruct s; cbn in *. subst tx_buffer. unfold set_field; cbn. f_equal.
    apply filter_wrap_buffer. eapply Forall_impl; [exact Hbuf|]. intros [k p]; cbn; lia.
Qed.

(** ** Chunk sizes *)

Lemma ceil_div_anti t a b : 0 <= t -> 0 < a -> a <= b -> ceil_div t b <= ceil_div t a.
Proof.
  intros. unfold ceil_div. enough ((- t) / a <= (- t) / b) by lia.
  apply Z.div_le_lower_bound; [lia|]. pose proof (Z.mul_div_le (- t) a).
  assert ((- t) / a <= 0) by (apply Z.div_le_upper_bound; lia). nia.
Qed.

(** The chunk size chosen for a transfer needs as few packets as the largest possible
    one, and is the smallest, hence best aligned, of those that do. *)
Theorem optimal_chunk_size_spec total :
  0 <= total ->
  let c := optimal_chunk_size total in
  In c [1024; 1280; 1408] /\
  (forall c', In c' [1024; 1280; 1408] -> ceil_div total c <= ceil_div total c') /\
  (forall c', In c' [1024; 1280; 1408] -> ceil_div total c' = ceil_div total c -> c <= c').
Proof.
  intros Ht c. subst c. unfold optimal_chunk_size, chunk_step. cbn [foldl].
  pose proof (ceil_div_anti total 1024 1280 Ht ltac:(lia) ltac:(lia)).
  pose proof (ceil_div_anti total 1280 1408 Ht ltac:(lia) ltac:(lia)).
  set (p1 := ceil_div total 1024) in *. set (p2 := ceil_div total 1280) in *. set (p3 := ceil_div total 1408) in *.
  match goal with |- In ?c _ /\ _ => assert (c = if p1 =? p3 then 1024 else if p2 =? p3 then 1280 else 1408) as -> end.
  { clearbody p1 p2 p3. destruct (Z.eqb_spec p1 p3), (Z.eqb_spec p2 p3); try lia;
      repeat (cbn -[Z.ltb Z.eqb];
              match goal with
              | |- context [?a <? ?b] => destruct (Z.ltb_spec a b); try lia
              | |- context [?a =? ?b] => destruct (Z.eqb_spec a b); try lia
              end); done. }
  assert (Hp : ceil_div total (if p1 =? p3 then 1024 else if p2 =? p3 then 1280 else 1408) = p3).
  { destruct (Z.eqb_spec p1 p3); [done|]. by destruct (Z.eqb_spec p2 p3). }
  rewrite Hp. split; [by destruct (p1 =? p3), (p2 =? p3); cbn; auto|].
  split; intros c' [<-|[<-|[<-|[]]]]; fold p1 p2 p3; destruct (Z.eqb_spec p1 p3), (Z.eqb_spec p2 p3); lia.
Qed.
