(* ===== verification/ReplyFacts.v ===== *)
(** * The bytes a read reply puts on the wire

    A receiver that takes packets in order gets, from whatever a transfer of [Transport]
    sent, a prefix of its header and padded data, and all of it when the transfer was
    confirmed.  Retransmissions and acknowledgements in between do not disturb it. *)

From S2P Require Import Prelude PyStr SessionStats HostOs Wire Session Transport TransportFacts TransferFacts.

(** ** The receiver *)

(** The client's side: the expected number and the bytes received so far; a DATA packet
    with a payload is taken when it has the expected number, anything else is ignored. *)
Definition accept (st : Z * bytes) (p : socket * addr * bytes) : Z * bytes :=
  let '(_, _, pkt) := p in
  match Header.unpack pkt, DataHeader.unpack (slice pkt 2 6) with
  | Ok h, Ok d =>
      if (Header.packet_type h =? DATA) && (0 <? DataHeader.payload_size d) && (Header.seq_nr h =? fst st)
      then (seq12 (fst st + 1), snd st ++ ztake (DataHeader.payload_size d) (zdrop 6 pkt))
      else st
  | _, _ => st
  end.

Definition reassemble (expected : Z) (pkts : list (socket * addr * bytes)) : Z * bytes :=
  foldl accept (expected, []) pkts.

(** A packet with number [seq] *)
Definition numbered (seq : Z) (pkt : bytes) : Prop :=
  exists t, Header.unpack pkt = Ok {| Header.packet_type := t; Header.seq_nr := seq |}.

Lemma accept_other seq pkt k a e got : numbered seq pkt -> seq <> e -> accept (e, got) (k, a, pkt) = (e, got).
Proof.
  intros [t Ht] Hne. unfold accept. rewrite Ht. destruct (DataHeader.unpack _); [|done].
  cbn [Header.seq_nr fst]. rewrite (proj2 (Z.eqb_neq seq e)) by done. by rewrite andb_false_r.
Qed.

Lemma data_packet_numbered seq h payload : numbered (seq12 seq) (data_packet seq h payload).
Proof.
  unfold numbered, data_packet. destruct (data_packet_parts {| Header.packet_type := DATA; Header.seq_nr := seq |} h payload) as [-> _].
  by eexists.
Qed.

Lemma data_packet_empty seq h k a st : DataHeader.hdr_word_count h = 0 -> DataHeader.data_byte_count h = 0 ->
  accept st (k, a, data_packet seq h []) = st.
Proof.
  intros Hw Hb. unfold accept, data_packet.
  destruct (data_packet_parts {| Header.packet_type := DATA; Header.seq_nr := seq |} h []) as (-> & -> & _).
  unfold DataHeader.payload_size. cbn [DataHeader.hdr_word_count DataHeader.data_byte_count]. rewrite Hw, Hb.
  by rewrite andb_false_r.
Qed.

Lemma pad4_eq n : pad4 n = (n + 3) / 4 * 4.
Proof.
  unfold pad4. change (-4) with (Z.lnot (Z.ones 2)). rewrite <- Z.ldiff_land, Z.ldiff_ones_r by lia.
  rewrite Z.shiftr_div_pow2, Z.shiftl_mul_pow2 by lia. done.
Qed.

(** The next payload packet is taken whole, its data padded to whole words. *)
Lemma payload_packet_accepted s payload fin hdr k a got :
  0 <= tx_seq_nr s < 4096 -> hdr = 0 \/ hdr = 8 -> hdr <= zlen payload -> 0 < zlen payload <= 1408 ->
  numbered (tx_seq_nr s) (payload_packet s payload fin hdr) /\
  accept (tx_seq_nr s, got) (k, a, payload_packet s payload fin hdr) =
    (seq12 (tx_seq_nr s + 1), got ++ ztake hdr payload ++ ljust (zdrop hdr payload) (pad4 (zlen payload - hdr))).
Proof.
  intros Hs Hh Hl Hn. unfold payload_packet. set (d := DataHeader.DataHeader _ _ _ _).
  set (body := ztake hdr payload ++ _). split.
  { rewrite <- (seq12_small (tx_seq_nr s)) at 1 by done. apply data_packet_numbered. }
  assert (Hb : zlen body = hdr + pad4 (zlen payload - hdr)).
  { unfold body. rewrite zlen_app, zlen_ztake, zlen_ljust, zlen_zdrop, pad4_eq. divlia. }
  unfold accept, data_packet.
  destruct (data_packet_parts {| Header.packet_type := DATA; Header.seq_nr := tx_seq_nr s |} d body) as (-> & -> & ->).
  cbn [Header.packet_type Header.seq_nr fst snd]. rewrite (seq12_small (tx_seq_nr s)), Z.eqb_refl by done.
  assert (DataHeader.payload_size
    {| DataHeader.seq_nr_ack := seq12 (DataHeader.seq_nr_ack d); DataHeader.flags := DataHeader.flags d mod 4;
       DataHeader.hdr_word_count := DataHeader.hdr_word_count d mod 16;
       DataHeader.data_byte_count := DataHeader.data_byte_count d mod 16384 |} = zlen body) as ->.
  { rewrite Hb. unfold DataHeader.payload_size, d. cbn [DataHeader.hdr_word_count DataHeader.data_byte_count].
    rewrite pad4_eq. destruct Hh as [-> | ->];
      [change (0 / 4) with 0|change (8 / 4) with 2]; rewrite (Z.mod_small ((_ + 3) / 4 * 4)) by divlia; done. }
  rewrite (proj2 (Z.ltb_lt 0 (zlen body))) by (rewrite Hb, pad4_eq; divlia).
  by rewrite ztake_all, Z.eqb_refl by lia.
Qed.

(** ** The transfer's invariant *)

Section invariant.
Context {Os : Type} (sock_of : session -> socket) (tx_delay : Z).
Abbreviation W := (world Os).

(** Since the first [n] packets were sent, a receiver that started at [e] has taken [got]
    and waits for the next number; what is buffered lies behind that number, no further
    than what is in flight. *)
Definition behind (s : session) (sp : Z * bytes) : Prop :=
  numbered (fst sp) (snd sp) /\ 1 <= seq12 (tx_seq_nr s - fst sp) <= in_flight s + 1.

Record sound (n : nat) (e : Z) (got : bytes) (w : W) : Prop := {
  so_len : (n <= length (sent w))%nat;
  so_got : reassemble e (drop n (sent w)) = (tx_seq_nr (sess w), got);
  so_tx : 0 <= tx_seq_nr (sess w) < 4096;
  so_ack : ranged w;
  so_buf : Forall (behind (sess w)) (tx_buffer (sess w))
}.

(** Computations that keep the receiver where it is *)
Abbreviation steady m := (forall n e got, keeps (sound n e got) m).

Lemma reassemble_snoc e l p : reassemble e (l ++ [p]) = accept (reassemble e l) p.
Proof. unfold reassemble. by rewrite foldl_app. Qed.

(** Sending a packet the receiver ignores *)
Lemma sound_sendto n e got pkt a (w : W) r w' :
  (forall k, accept (tx_seq_nr (sess w), got) (k, a, pkt) = (tx_seq_nr (sess w), got)) ->
  sound n e got w -> sendto sock_of tx_delay pkt a w = (r, w') -> sound n e got w'.
Proof.
  intros Hp [Hl Hg Ht Ha Hb] Hr. apply sendto_spec in Hr as (Hs & _ & Hx).
  assert (sent w' = sent w \/ exists k, sent w' = sent w ++ [(k, a, pkt)]) as Hsent
    by (destruct r; [right; eauto|left; apply Hx]).
  split; rewrite ?Hs; [| |done|unfold ranged; by rewrite Hs|done].
  - destruct Hsent as [->|[k ->]]; [done|rewrite length_app; lia].
  - destruct Hsent as [->|[k ->]]; [done|].
    rewrite drop_app_le by done. by rewrite reassemble_snoc, Hg.
Qed.

Lemma steady_send_ack a b : steady (send_ack (Os := Os) sock_of tx_delay a b).
Proof.
  intros n e got w r w' Hw. unfold send_ack, sget, mget, mbind, M_bind. cbn. intros Hr.
  eapply sound_sendto; [|exact Hw|exact Hr]. intros k. by apply data_packet_empty.
Qed.

Lemma behind_ignored s sp k a got :
  behind s sp -> accept (tx_seq_nr s, got) (k, a, snd sp) = (tx_seq_nr s, got).
Proof.
  intros [Hn Hd]. apply accept_other with (fst sp); [done|]. intros E. rewrite E, Z.sub_diag in Hd.
  change (seq12 0) with 0 in Hd. lia.
Qed.

Lemma sound_retransmit n e got a from_seq buffer : forall sent_any (w : W) r w',
  Forall (behind (sess w)) buffer -> sound n e got w ->
  retransmit_packets sock_of tx_delay a from_seq buffer sent_any w = (r, w') -> sound n e got w'.
Proof.
  induction buffer as [|[seq pkt] buffer IH]; intros sent_any w r w' Hb Hw; cbn [retransmit_packets].
  { by intros [= _ <-]. }
  apply Forall_cons in Hb as [Hh Hb]. destruct (_ <? HALF_RING); [|by apply IH].
  unfold mbind, M_bind. assert (Hslp : exists w1, mwhen sent_any (sleep 1000) w = (Ok tt, w1) /\ sess w1 = sess w /\ sound n e got w1).
  { destruct sent_any; eexists; (split; [reflexivity|]); (split; [done|]); [|done]. destruct Hw. by split. }
  destruct Hslp as (w1 & -> & Hs1 & Hw1).
  destruct (sendto sock_of tx_delay pkt a w1) as [[u|er] w2] eqn:E; [|intros [= _ <-]].
  - destruct (sendto_spec _ _ _ _ _ _ _ E) as (Hs2 & _ & _). apply IH; [by rewrite Hs2, Hs1|].
    eapply sound_sendto; [|exact Hw1|exact E]. intros k. rewrite Hs1. by apply (behind_ignored _ (seq, pkt)).
  - eapply sound_sendto; [|exact Hw1|exact E]. intros k. rewrite Hs1. by apply (behind_ignored _ (seq, pkt)).
Qed.

(** Session updates that leave numbers and buffer alone *)
Lemma steady_smod f :
  (forall s, tx_seq_nr (f s) = tx_seq_nr s /\ tx_seq_nr_acked (f s) = tx_seq_nr_acked s /\
             (tx_buffer (f s) = tx_buffer s \/ tx_buffer (f s) = [])) ->
  steady (smod (Os := Os) f).
Proof.
  intros Hf n e got w r w' [Hl Hg Ht Ha Hb] [= _ <-]. destruct (Hf (sess w)) as (E1 & E2 & E3).
  split; cbn; rewrite ?E1; [done|done|done|unfold ranged in *; cbn; by rewrite E2|].
  destruct E3 as [-> | ->]; [|done]. eapply Forall_impl; [exact Hb|]. intros sp [? ?]. split; [done|].
  unfold in_flight. by rewrite E1, E2.
Qed.

Lemma steady_mmod (f : W -> W) : (forall w, sess (f w) = sess w /\ sent (f w) = sent w) -> steady (mmod f).
Proof.
  intros Hf n e got w r w' [Hl Hg Ht Ha Hb] [= _ <-]. destruct (Hf w) as (E1 & E2).
  split; rewrite ?E1, ?E2; try done. unfold ranged. by rewrite E1.
Qed.

Lemma steady_retransmit_from a m : steady (retransmit_from (Os := Os) sock_of tx_delay a m).
Proof.
  intros n e got. unfold retransmit_from. intros w r w' Hw. unfold mget, sget, mget. unfold mbind at 1 2, M_bind at 1 2. cbn.
  match goal with |- context [if ?b then _ else _] => destruct b end; [by intros [= _ <-]|].
  unfold mbind, M_bind, smod, mmod. intros Hr. eapply sound_retransmit; [|idtac|exact Hr].
  - cbn. eapply Forall_impl; [apply (so_buf _ _ _ _ Hw)|]. done.
  - destruct Hw. by split.
Qed.

Lemma steady_queue_get d : steady (queue_get_until (Os := Os) d).
Proof.
  intros n e got w r w' Hw. unfold queue_get_until, mbind, M_bind, mget. destruct (_ <=? 0); [by intros [= _ <-]|].
  destruct Hw as [Hl Hg Ht Ha Hb].
  unfold queue_get. destruct (pushback (sess w)); [destruct (inbox w) as [|[t x] ?]; [|destruct (t <=? _)]|];
    intros [= _ <-]; by split.
Qed.

(** An acknowledgement leaves behind only packets still in flight. *)
Lemma behind_acknowledged s m seq pkt :
  0 <= m < 4096 -> seq12 (m - tx_seq_nr_acked s) <= in_flight s -> in_flight s < HALF_RING ->
  behind s (seq, pkt) -> seq12 (seq - m - 1) < HALF_RING ->
  seq12 (tx_seq_nr s - seq) <= seq12 (tx_seq_nr s - m - 1) + 1.
Proof.
  unfold in_flight, HALF_RING. intros Hm Ha Hu [_ Hd] Hk. cbn [fst] in Hd. unfold in_flight in Hd.
  set (u := seq12 (tx_seq_nr s - tx_seq_nr_acked s - 1)) in *. set (d := seq12 (tx_seq_nr s - seq)) in *.
  set (b := seq12 (m - tx_seq_nr_acked s)) in *.
  pose proof (seq12_range (m - tx_seq_nr_acked s)).
  assert (Hu' : seq12 (tx_seq_nr s - m - 1) = u - b).
  { rewrite <- (seq12_small (u - b)) by (unfold b, u in *; pose proof (seq12_range (tx_seq_nr s - tx_seq_nr_acked s - 1)); lia).
    unfold u, b. rewrite !seq12_mod, <- Zminus_mod. f_equal. lia. }
  assert (Hk' : seq12 (seq - m - 1) = seq12 (u - b - d)).
  { rewrite <- Hu'. unfold d. rewrite seq12_sub. f_equal. lia. }
  rewrite Hk', seq12_window in Hk by lia. rewrite Hu'. destruct (Z.ltb_spec (u - b - d) 0); lia.
Qed.

Lemma steady_acknowledge m : 0 <= m < 4096 -> steady (acknowledge (Os := Os) m).
Proof.
  intros Hm n e got w r w' [Hl Hg Ht Ha Hb]. unfold acknowledge, acknowledge_tx.
  destruct (_ || _) eqn:E; intros [= _ <-]; [by split|].
  apply orb_false_iff in E as [[E1 E2]%orb_false_iff E3]. apply Z.leb_gt in E1, E2. apply Z.ltb_ge in E3.
  split; cbn; [done|done|done|done|].
  apply Forall_forall. intros [seq pkt] Hin%list_elem_of_In.
  apply List.filter_In in Hin as [Hin Hkeep%Z.ltb_lt]. cbn [fst] in Hkeep.
  pose proof (proj1 (Forall_forall _ _) Hb (seq, pkt) (proj2 (list_elem_of_In _ _) Hin)) as Hbh.
  split; [apply Hbh|]. cbn [fst]. split; [apply Hbh|]. unfold in_flight. cbn.
  by apply behind_acknowledged with pkt.
Qed.

Ltac steady_step :=
  match goal with
  | |- forall _, _ => intros ?
  | |- keeps _ (mbind _ (lift _)) => apply keeps_lift_bind; intros ? ?
  | |- keeps _ (mbind _ _) => apply keeps_bind
  | |- keeps _ (match ?x with _ => _ end) => destruct x
  | |- keeps _ (mwhen _ _) => apply keeps_mwhen
  | |- keeps _ (smod _) => apply steady_smod; intros ?; split_and!; [done|done|by auto]
  | |- keeps _ (acknowledge _) =>
      apply steady_acknowledge; first [apply seq12_range | eapply classify_data; eassumption]
  | |- keeps _ (send_ack _ _ _ _) => apply steady_send_ack
  | |- keeps _ (retransmit_from _ _ _ _) => apply steady_retransmit_from
  | |- keeps _ (queue_get_until _) => apply steady_queue_get
  | |- keeps _ _ => solve [eauto 2 with keeps]
  end.
Ltac steady := repeat steady_step.

Lemma steady_pushback d : steady (queue_pushback (Os := Os) d).
Proof. unfold queue_pushback. steady. Qed.

Lemma steady_retransmit_unacked a : steady (retransmit_unacked (Os := Os) sock_of tx_delay a).
Proof. unfold retransmit_unacked. steady. Qed.
#[local] Hint Resolve steady_pushback steady_retransmit_unacked : keeps.

Lemma steady_window_wait a deadline fuel : steady (window_wait (Os := Os) sock_of tx_delay fuel a deadline).
Proof. induction fuel as [|fuel IH]; cbn [window_wait]; steady; apply IH. Qed.

Lemma steady_ack_wait a timeout fin_seq fuel : forall deadline,
  steady (ack_wait (Os := Os) sock_of tx_delay fuel a timeout fin_seq deadline).
Proof. induction fuel as [|fuel IH]; intros deadline; cbn [ack_wait]; steady; apply IH. Qed.

Lemma steady_wait_for_window_ack a : steady (wait_for_window_ack (Os := Os) sock_of tx_delay a).
Proof. intros n e got w r w' Hw Hr. by eapply steady_window_wait. Qed.

Lemma steady_wait_for_ack a timeout : steady (wait_for_ack (Os := Os) sock_of tx_delay a timeout).
Proof. intros n e got w r w' Hw Hr. by eapply steady_ack_wait. Qed.
#[local] Hint Resolve steady_wait_for_window_ack steady_wait_for_ack : keeps.

Lemma steady_final_ack m a : steady (final_ack_attempts (Os := Os) sock_of tx_delay m a).
Proof. induction m as [|m IH]; cbn [final_ack_attempts]; steady; apply IH. Qed.

(** A final acknowledgement confirms the last packet and leaves nothing buffered. *)
Lemma final_ack_confirms m a : forall (w : W) w',
  final_ack_attempts sock_of tx_delay m a w = (Ok true, w') ->
  tx_buffer (sess w') = [] /\ tx_seq_nr_acked (sess w') = seq12 (tx_seq_nr (sess w') - 1).
Proof.
  induction m as [|m IH]; cbn [final_ack_attempts]; intros w w'; [done|].
  unfold sget, mget, mret, M_ret. unfold mbind at 1, M_bind at 1.
  destruct (wait_for_ack _ _ _ _ w) as [[[]|e] w1]; [..|done].
  - unfold mbind, M_bind. intros [= Hc <-]. apply andb_true_iff in Hc as [H1%Z.eqb_eq H2%bool_decide_eq_true].
    done.
  - unfold mbind at 1, M_bind at 1. cbn [id].
    destruct (tx_buffer (sess w1)) as [|[seq pkt] rest]; [done|].
    unfold mbind, M_bind. destruct (retransmit_from _ _ _ _ _) as [[u|e] w2]; [|done]. apply IH.
Qed.

(** ** The whole reply *)

(** What a receiver has got, whatever it waits for *)
Definition received (n : nat) (e : Z) (got : bytes) (w : W) : Prop :=
  snd (reassemble e (drop n (sent w))) = got.

Lemma sound_received n e got w : sound n e got w -> received n e got w.
Proof. intros Hw. unfold received. by rewrite (so_got _ _ _ _ Hw). Qed.

Lemma behind_next s s' sp :
  0 <= tx_seq_nr s < 4096 -> tx_seq_nr s' = seq12 (tx_seq_nr s + 1) -> tx_seq_nr_acked s' = tx_seq_nr_acked s ->
  in_flight s < SEND_WINDOW -> behind s sp -> behind s' sp.
Proof.
  unfold in_flight, SEND_WINDOW. intros Ht H1 H2 Hf [Hn Hd]. split; [done|]. unfold in_flight in *.
  rewrite H1, H2, !seq12_mod, !Zminus_mod_idemp_l, <- Z.sub_add_distr, Zminus_mod_idemp_l, <- !seq12_mod.
  rewrite <- Z.sub_add_distr in Hd, Hf.
  set (f := tx_seq_nr s - (tx_seq_nr_acked s + 1)) in *. set (d := tx_seq_nr s - fst sp) in *.
  replace (tx_seq_nr s + 1 - (tx_seq_nr_acked s + 1)) with (f + 1) by lia.
  replace (tx_seq_nr s + 1 - fst sp) with (d + 1) by lia.
  pose proof (seq12_range f).
  assert (Hs : forall x, seq12 x < 100 -> seq12 (x + 1) = seq12 x + 1).
  { intros x Hx. pose proof (seq12_range x). rewrite <- (seq12_small (seq12 x + 1)) by lia.
    by rewrite !seq12_mod, Z.add_mod_idemp_l. }
  rewrite !Hs by lia. lia.
Qed.

(** A payload packet brings its payload, or raises and brings nothing. *)
Lemma sound_data_packet n e got a payload fin hdr (w : W) r w' :
  sound n e got w -> in_flight (sess w) < SEND_WINDOW \/ tx_buffer (sess w) = [] ->
  hdr = 0 \/ hdr = 8 -> hdr <= zlen payload -> 0 < zlen payload <= 1408 ->
  send_data_packet sock_of tx_delay a payload fin hdr w = (r, w') ->
  match r with
  | Ok _ => sound n e (got ++ ztake hdr payload ++ ljust (zdrop hdr payload) (pad4 (zlen payload - hdr))) w'
  | Err _ => received n e got w'
  end.
Proof.
  intros Hw Hf Hh Hl Hz Hr. destruct (send_data_packet_ends _ _ _ _ _ _ _ _ _ Hr) as (_ & Htx & Hack). revert Hr.
  unfold send_data_packet, sget, smod, mget, mmod. unfold mbind, M_bind. cbn.
  set (pkt := payload_packet _ _ _ _). match goal with |- context [sendto _ _ _ _ ?x] => set (w1 := x) end.
  pose proof (fun k => payload_packet_accepted (sess w) payload fin hdr k a got (so_tx _ _ _ _ Hw) Hh Hl Hz) as Hp.
  fold pkt in Hp. destruct (sendto sock_of tx_delay pkt a w1) as [[u|er] w2] eqn:E;
    destruct (sendto_spec _ _ _ _ _ _ _ E) as (Hs & _ & Hx); intros [= <- <-].
  - specialize (Htx eq_refl). destruct Hw as [Hn Hg Ht Ha Hb].
    split; [..|unfold ranged in *; by rewrite Hack|].
    + cbn. rewrite Hx, length_app. cbn. lia.
    + cbn [sent]. rewrite Htx. cbn. rewrite Hx. cbn. rewrite drop_app_le by done.
      rewrite reassemble_snoc, Hg. apply Hp.
    + rewrite Htx. apply seq12_range.
    + cbn. rewrite Hs. cbn. apply Forall_app. split.
      * destruct Hf as [Hf|Hf]; [|by rewrite Hf]. eapply Forall_impl; [exact Hb|]. intros sp Hsp.
        apply (behind_next (sess w)); cbn; rewrite ?Hs; done.
      * apply Forall_singleton. split; [apply (Hp sock_data)|]. cbn.
        rewrite seq12_mod, seq12_mod, Zminus_mod_idemp_l. replace (_ + 1 - _) with 1 by lia.
        change (1 mod 4096) with 1. match goal with |- context [in_flight ?s] => pose proof (seq12_range (tx_seq_nr s - tx_seq_nr_acked s - 1)) end.
        unfold in_flight. lia.
  - destruct Hx as [_ Hx]. unfold received. rewrite Hx. cbn. by rewrite (so_got _ _ _ _ Hw).
Qed.

(** Header and data up to [offset], all of it padded at the end *)
Definition so_far (header data : bytes) (offset : Z) : bytes :=
  header ++ if offset <? zlen data then ztake offset data else ljust data (pad4 (zlen data)).
Definition whole (header data : bytes) : bytes := header ++ ljust data (pad4 (zlen data)).

Lemma so_far_prefix header data offset : so_far header data offset `prefix_of` whole header data.
Proof.
  unfold so_far, whole. apply prefix_app. destruct (_ <? _); [|done].
  unfold ljust. apply prefix_app_r. exists (zdrop offset data). by rewrite ztake_zdrop.
Qed.

Lemma so_far_start header data m :
  0 <= m <= zlen data -> (m < zlen data -> m mod 4 = 0) ->
  header ++ ljust (ztake m data) (pad4 m) = so_far header data m.
Proof.
  intros Hm H4. unfold so_far. f_equal. destruct (Z.ltb_spec m (zlen data)) as [Hlt|].
  - specialize (H4 Hlt). assert (zlen (ztake m data) = m) as Hz by (rewrite zlen_ztake; lia).
    unfold ljust. rewrite Hz. replace (pad4 m) with m by (rewrite pad4_eq; divlia).
    rewrite Z.sub_diag. change (zeros 0) with (@nil Z). by rewrite app_nil_r.
  - replace m with (zlen data) by lia. by rewrite ztake_all.
Qed.

Lemma so_far_step header data offset n :
  0 <= offset < zlen data -> offset mod 4 = 0 -> 0 < n -> (n mod 4 = 0 /\ offset + n < zlen data) \/ offset + n = zlen data ->
  so_far header data offset ++ ljust (slice data offset (offset + n)) (pad4 n) = so_far header data (offset + n).
Proof.
  intros Ho Hm Hn Hcase. unfold so_far. rewrite <- app_assoc, (proj2 (Z.ltb_lt _ _)) by lia. f_equal.
  assert (Hsl : zlen (slice data offset (offset + n)) = n) by (rewrite zlen_slice by lia; destruct Hcase; lia).
  assert (Hcat : ztake offset data ++ slice data offset (offset + n) = ztake (offset + n) data).
  { unfold slice. rewrite Z.add_simpl_l. symmetry. apply ztake_split; lia. }
  destruct (Z.ltb_spec (offset + n) (zlen data)) as [|Hend].
  - destruct Hcase as [[Hn4 _]|]; [|lia]. unfold ljust. rewrite Hsl.
    replace (pad4 n) with n by (rewrite pad4_eq; divlia). rewrite Z.sub_diag. change (zeros 0) with (@nil Z).
    by rewrite app_nil_r.
  - assert (offset + n = zlen data) by (destruct Hcase; lia). unfold ljust.
    rewrite app_assoc, Hcat, ztake_all, Hsl by lia. f_equal. f_equal. rewrite !pad4_eq. divlia.
Qed.

(** What a transfer that reached [w'] with [r] has achieved *)
Definition achieved (n : nat) (e : Z) (header data : bytes) (r : result bool) (w' : W) : Prop :=
  (exists got, received n e got w' /\ got `prefix_of` whole header data) /\
  (r = Ok true ->
     received n e (whole header data) w' /\ tx_buffer (sess w') = [] /\
     tx_seq_nr_acked (sess w') = seq12 (tx_seq_nr (sess w') - 1)).

Lemma sound_achieved n e header data offset (w' : W) r :
  sound n e (so_far header data offset) w' -> r <> Ok true -> achieved n e header data r w'.
Proof.
  intros Hw Hr. split; [|done]. eexists. split; [by apply sound_received|apply so_far_prefix].
Qed.

Lemma send_chunks_achieves n e header touch a data c fuel :
  c mod 4 = 0 -> 0 < c <= 1408 -> forall offset retries (w : W) r w',
  0 <= offset -> (offset < zlen data -> offset mod 4 = 0) ->
  sound n e (so_far header data offset) w ->
  send_chunks sock_of tx_delay fuel touch a data c offset retries w = (r, w') ->
  achieved n e header data r w'.
Proof.
  intros Hc4 Hc. induction fuel as [|fuel IH]; intros offset retries w r w' Ho H4 Hw; cbn [send_chunks].
  all: destruct (Z.leb_spec (zlen data) offset) as [Hend|Hmore].
  1, 3: assert (Hall : so_far header data offset = whole header data)
          by (unfold so_far; by rewrite (proj2 (Z.ltb_ge _ _)) by lia);
        rewrite Hall in Hw; unfold wait_for_final_ack; intros Hr;
        pose proof (steady_final_ack _ _ _ _ _ _ _ _ Hw Hr) as Hw'; apply sound_received in Hw';
        (split; [by eexists|intros ->; split; [done|by eapply final_ack_confirms]]).
  { intros [= <- <-]. by eapply sound_achieved. }
  unfold sget, mget. unfold mbind at 1, M_bind at 1. cbn [id].
  destruct (Z.leb_spec SEND_WINDOW (in_flight (sess w))) as [Hfull|Hroom].
  - unfold mbind at 1, M_bind at 1. destruct (wait_for_window_ack _ _ _ w) as [[[]|er] w1] eqn:E;
      pose proof (steady_wait_for_window_ack _ _ _ _ _ _ _ Hw E) as Hw1;
      [intros [= <- <-]; by eapply sound_achieved| |intros [= <- <-]; by eapply sound_achieved].
    unfold mbind at 1, M_bind at 1. destruct (_ =? _).
    + destruct (_ <=? _); [intros [= <- <-]; by eapply sound_achieved|]. by apply IH.
    + unfold mbind, M_bind. assert (Hk : steady (mwhen touch (session_touch (Os := Os) a)))
        by (intros ???; apply keeps_mwhen, steady_mmod; done).
      destruct (mwhen _ _ _) as [[u|er] w2] eqn:E2; pose proof (Hk _ _ _ _ _ _ Hw1 E2) as Hw2; [by apply IH|].
      intros [= <- <-]. by eapply sound_achieved.
  - unfold mbind, M_bind. set (m := Z.min c (zlen data - offset)).
    destruct (send_data_packet _ _ _ _ _ _ w) as [u w1] eqn:E.
    assert (Hsl : zlen (slice data offset (offset + m)) = m) by (rewrite zlen_slice; lia).
    apply (sound_data_packet _ _ _ _ _ _ _ _ _ _ Hw) in E; [|by left|by left|rewrite Hsl; lia..].
    rewrite Hsl, Z.sub_0_r, ztake_0, zdrop_0 in E. cbn [app] in E. destruct u as [u|er].
    + rewrite so_far_step in E; [|lia|by apply H4|lia|]; [|destruct (Z.le_gt_cases (zlen data - offset) c); [right; lia|]].
      * apply IH; [lia| |done]. intros Hlt. specialize (H4 Hmore). unfold m in *. rewrite Z.min_l by lia. divlia.
      * left. unfold m in *. rewrite Z.min_l by lia. split; [done|]. destruct (decide (zlen data - offset = c)); lia.
    + intros [= <- <-]. split; [|done]. eexists. split; [exact E|apply so_far_prefix].
Qed.

Lemma chunk_size_words n : optimal_chunk_size n mod 4 = 0 /\ 0 < optimal_chunk_size n <= 1408.
Proof.
  unfold optimal_chunk_size. cbn [foldl]. unfold chunk_step.
  repeat match goal with |- context [if ?b then _ else _] => destruct b end; cbn; done.
Qed.

(** C6. The packets of a read reply, taken in order by a receiver that waits for the next
    number, make up a prefix of the header and the data padded to whole words; if the
    transfer reports success, they make up all of it, nothing is left to retransmit and
    the last packet is the last one acknowledged.  This holds whatever datagrams are
    queued or arrive meanwhile, whatever has to be retransmitted and whichever sends
    fail. *)
Theorem read_reply_reassembles a header data (w : W) r w' :
  zlen header = 8 -> 0 <= tx_seq_nr (sess w) < 4096 -> 0 <= tx_seq_nr_acked (sess w) < 4096 ->
  send_raw_data_with_header sock_of tx_delay a header data w = (r, w') ->
  let got := snd (reassemble (tx_seq_nr (sess w)) (drop (length (sent w)) (sent w'))) in
  got `prefix_of` header ++ ljust data (pad4 (zlen data)) /\
  (r = Ok true ->
     got = header ++ ljust data (pad4 (zlen data)) /\ tx_buffer (sess w') = [] /\
     tx_seq_nr_acked (sess w') = seq12 (tx_seq_nr (sess w') - 1)).
Proof.
  intros Hh Ht Ha Hr.
  enough (achieved (length (sent w)) (tx_seq_nr (sess w)) header data r w') as [[got [<- Hp]] Hok] by done.
  revert Hr. unfold send_raw_data_with_header, start_transfer, smod, mmod. unfold mbind at 1, M_bind at 1.
  set (w0 := w <| sess ::= _ |>). set (c := optimal_chunk_size (zlen data)).
  destruct (chunk_size_words (zlen data)) as [Hc4 Hc]. fold c in Hc4, Hc.
  rewrite Hh. change (MAX_DATA_PAYLOAD - 8) with 1400. set (m := Z.min (Z.min c 1400) (zlen data)).
  pose proof (zlen_nonneg data) as Hd.
  assert (Hpl : zlen (header ++ ztake m data) = 8 + m) by (rewrite zlen_app, zlen_ztake, Hh; lia).
  assert (Hw0 : sound (length (sent w)) (tx_seq_nr (sess w)) [] w0).
  { split; cbn; [done| |done|done|done]. by rewrite drop_all. }
  unfold mbind, M_bind. destruct (send_data_packet _ _ _ _ _ _ w0) as [u w1] eqn:E.
  apply (sound_data_packet _ _ _ _ _ _ _ _ _ _ Hw0) in E; [|by right|by right|lia..].
  rewrite ztake_app_length, zdrop_app_length in E by done. rewrite Hpl in E. replace (8 + m - 8) with m in E by lia.
  cbn [app] in E. destruct u as [u|er].
  - apply send_chunks_achieves; [done|done|lia| |].
    + intros Hlt. unfold m in *. destruct (Z.min_spec c 1400) as [[? E1]|[? E1]]; rewrite E1 in *; rewrite Z.min_l by lia; [done|done].
    + rewrite so_far_start in E; [done|lia|]. intros Hlt. unfold m in *.
      destruct (Z.min_spec c 1400) as [[? E1]|[? E1]]; rewrite E1 in *; rewrite Z.min_l by lia; done.
  - intros [= <- <-]. split; [|done]. exists []. split; [exact E|apply prefix_nil].
Qed.
End invariant.
