(* ===== verification/Paths.v ===== *)
(** * Client paths, aliases of compressed images, and stat fields

    Models the path and stat helpers of [udpfs_server/udpfs_server.py]: how a client
    path becomes a host path inside the shared folder, which compressed file or
    virtual CD view stands behind a missing name, and the PS2 stat fields. *)

From S2P Require Import Prelude PyStr Compressed HostOs ChdCue Wire Session.

Definition FIO_S_IFREG : Z := 0x2000.
Definition FIO_S_IFDIR : Z := 0x1000.
Definition IO_REPARSE_TAG_MOUNT_POINT : Z := 0xA0000003.

Definition DOT_ISO : str := lit ".iso".

(** [[p for p in client_path.replace('\\', '/').split('/') if p not in ('', '.')]] *)
Definition entry_parts (client_path : str) : list str :=
  List.filter (fun p => negb (str_eqb p []) && negb (str_eqb p [DOT]))
    (split_on SLASH (replace_char BACKSLASH SLASH client_path)).

(** [_flags_to_mode] *)
Definition flags_to_mode (flags : Z) (file_exists : bool) : open_mode :=
  let has bit := negb (Z.land flags bit =? 0) in
  let access := Z.land flags 0x03 in
  if access =? 0x01 then m_rb
  else if access =? 0x02 then
    if has 0x0100 then m_ab
    else if has 0x0400 then m_wb
    else if has 0x0200 then if file_exists then m_rpb else m_wb
    else m_rpb
  else if access =? 0x03 then
    if has 0x0200 then
      if has 0x0400 then m_wpb
      else if has 0x0100 then m_apb else if file_exists then m_rpb else m_wpb
    else m_rpb
  else m_rb.

Section paths.
Context {Os : Type} `{HostOs Os} `{Codecs} (cfg : config).

(** ** Resolving client paths *)

(** [root_dir] with a trailing separator *)
Definition root_prefix (root : str) : str := if endswith root [SLASH] then root else root ++ [SLASH].

(** [_resolve_path] *)
Definition resolve_path (client_path : str) (o : Os) : result (option str) :=
  match root_dir cfg with
  | None => Ok None
  | Some root =>
      let p := strip_leading (fun c => (c =? SLASH) || (c =? BACKSLASH)) client_path in
      let p := replace_char BACKSLASH SLASH p in
      resolved ← realpath (path_join root p) o;
      if negb (startswith resolved (root_prefix root)) && negb (str_eqb resolved root)
      then Ok None else Ok (Some resolved)
  end.

(** [_resolve_entry] *)
Definition resolve_entry (client_path : str) (o : Os) : result (option str) :=
  match root_dir cfg with
  | None => Ok None
  | Some root =>
      match rev (entry_parts client_path) with
      | [] => Ok (Some root)
      | name :: parents =>
          if str_eqb name DOTDOT then Ok None
          else
            parent ← resolve_path (join_with SLASH (rev parents)) o;
            match parent with
            | None => Ok None
            | Some parent =>
                let entry := path_join parent name in
                if negb (str_eqb (abspath (os_getcwd o) entry) entry) then Ok None else Ok (Some entry)
            end
      end
  end.

(** The folders the walk of [_through_linked_folder] looks at: each proper prefix of
    the parts, joined to the root. *)
Fixpoint folder_walk (root : str) (before parts : list str) : list str :=
  match parts with
  | [] | [_] => []
  | p :: parts => path_join root (join_with SLASH (before ++ [p])) :: folder_walk root (before ++ [p]) parts
  end.

Fixpoint any_linked (folders : list str) (o : Os) : result bool :=
  match folders with
  | [] => Ok false
  | folder :: folders =>
      st ← os_lstat folder o;
      if S_ISLNK st || (st_reparse_tag st =? IO_REPARSE_TAG_MOUNT_POINT) then Ok true
      else any_linked folders o
  end.

(** [_through_linked_folder]; a walk with no root joins [None], a [TypeError]. *)
Definition through_linked_folder (client_path : str) (o : Os) : result bool :=
  let parts := entry_parts client_path in
  match root_dir cfg with
  | Some root => any_linked (folder_walk root [] parts) o
  | None => if zlen parts <=? 1 then Ok false else Err TypeError
  end.

(** ** Aliases *)

Definition COMPRESSED_EXTENSIONS : list str :=
  Formats.supported_compressed_extensions lz4_available libchdr_available.

(** [_transform_compressed_name] *)
Definition transform_compressed_name (name : str) : str :=
  if negb (enable_compression cfg) then name
  else if existsb (fun ext => endswith (lower name) ext) COMPRESSED_EXTENSIONS then name ++ DOT_ISO
  else name.

(** [get_compressed_info(path) is not None], with the answer *)
Definition compressed_info (path : str) (o : Os) : result (option (Z * Formats.info_name)) :=
  Formats.get_compressed_info path (os_open_image path o).

(** [os.listdir] with no entries for an [OSError] *)
Definition listing (dir : str) (o : Os) : result (list str) :=
  match os_listdir dir o with Err (OSError _) => Ok [] | r => r end.

(** The first entry of [names] with the requested stem and extension that resolves
    inside the share, as a host path. *)
Fixpoint canonical_entry (root dir stem ext : str) (names : list str) (o : Os) : result (option str) :=
  match names with
  | [] => Ok None
  | entry :: names =>
      let '(entry_stem, entry_ext) := splitext entry in
      if negb (str_eqb entry_stem stem) || negb (str_eqb (lower entry_ext) ext)
      then canonical_entry root dir stem ext names o
      else
        let candidate := path_join dir entry in
        inside ← resolve_path (relpath (os_getcwd o) candidate root) o;
        match inside with
        | Some _ => Ok (Some candidate)
        | None => canonical_entry root dir stem ext names o
        end
  end.

(** [_add]: a path not listed yet that exists *)
Definition add_candidate (p : option str) (candidates : list str) (o : Os) : result (list str) :=
  match p with
  | Some p =>
      if in_strs p candidates then Ok candidates
      else there ← path_exists p o; Ok (if (there : bool) then candidates ++ [p] else candidates)
  | None => Ok candidates
  end.

Fixpoint add_by_extension (base : str) (exts candidates : list str) (o : Os) : result (list str) :=
  match exts with
  | [] => Ok candidates
  | ext :: exts =>
      p ← resolve_path (base ++ ext) o;
      candidates ← add_candidate p candidates o;
      add_by_extension base exts candidates o
  end.

(** [by_ext.get(ext)]: the first entry with the stem and, lower-cased, the extension *)
Definition entry_by_ext (stem ext : str) (names : list str) : option str :=
  List.find (fun e => let '(s, x) := splitext e in str_eqb s stem && str_eqb (lower x) ext) names.

Fixpoint add_folded (root dir stem : str) (names exts candidates : list str) (o : Os) : result (list str) :=
  match exts with
  | [] => Ok candidates
  | ext :: exts =>
      match entry_by_ext stem ext names with
      | None => add_folded root dir stem names exts candidates o
      | Some entry =>
          let candidate := path_join dir entry in
          inside ← resolve_path (relpath (os_getcwd o) candidate root) o;
          candidates ← (match inside with
                        | Some _ => add_candidate (Some candidate) candidates o
                        | None => Ok candidates
                        end);
          add_folded root dir stem names exts candidates o
      end
  end.

(** The first candidate whose header parses *)
Fixpoint first_readable (candidates : list str) (o : Os) : result (option str) :=
  match candidates with
  | [] => Ok None
  | c :: candidates =>
      info ← compressed_info c o;
      match info with Some _ => Ok (Some c) | None => first_readable candidates o end
  end.

(** [_resolve_compressed_sibling] *)
Definition resolve_compressed_sibling (path : str) (o : Os) : result (option str) :=
  if negb (enable_compression cfg) || negb (endswith (lower path) DOT_ISO) then Ok None
  else
    let base := ztake (zlen path - 4) path in
    let canonical_ext := lower (snd (splitext base)) in
    let root := default [] (root_dir cfg) in
    resolved ← resolve_path base o;
    if in_strs canonical_ext COMPRESSED_EXTENSIONS then
      match resolved with
      | None => Ok None
      | Some resolved =>
          there ← path_exists resolved o;
          if (there : bool) then Ok (Some resolved)
          else if str_eqb resolved root then Ok None
          else
            let '(dir, stem) := path_split resolved in
            names ← listing dir o;
            canonical_entry root dir (fst (splitext stem)) canonical_ext names o
      end
    else
      candidates ← add_by_extension base COMPRESSED_EXTENSIONS [] o;
      candidates ← (match resolved with
                    | Some r =>
                        if str_eqb r root then Ok candidates
                        else
                          let '(dir, stem) := path_split r in
                          names ← listing dir o;
                          add_folded root dir stem names COMPRESSED_EXTENSIONS candidates o
                    | None => Ok candidates
                    end);
      match candidates with
      | [] => Ok None
      | first :: _ =>
          best ← first_readable candidates o;
          Ok (Some (default first best))
      end.

(** [_resolve_virtual_chd] *)
Definition resolve_virtual_chd (path : str) (o : Os) : result (option virtual_view) :=
  if negb (enable_compression cfg)
     || negb (endswith (lower path) DOT_CUE || endswith (lower path) DOT_BIN) then Ok None
  else
    resolved ← resolve_path path o;
    match resolved with
    | None => Ok None
    | Some resolved =>
        match through_linked_folder path o with
        | Err (OSError _) => Ok None
        | Err e => Err e
        | Ok true => Ok None
        | Ok false =>
            entry_path ← resolve_entry path o;
            taken ← (match entry_path with Some e => path_lexists e o | None => Ok false end);
            if (taken : bool) then Ok None
            else
              taken ← path_lexists resolved o;
              if (taken : bool) then Ok None else find_virtual_view resolved o
        end
    end.

(** ** Stat fields *)

Definition lo32 (n : Z) : Z := Z.land n 0xFFFFFFFF.
Definition hi32 (n : Z) : Z := Z.land (Z.shiftr n 32) 0xFFFFFFFF.

(** [_encode_time] *)
Definition encode_time (timestamp : Z) (o : Os) : result bytes :=
  match os_localtime timestamp o with
  | Ok t =>
      struct_result (pack [(fB, 0); (fB, tm_sec t); (fB, tm_min t); (fB, tm_hour t); (fB, tm_mday t);
                           (fB, tm_mon t); (fH, tm_year t)])
  | Err (OSError _) | Err ValueError => Ok (zeros 8)
  | Err e => Err e
  end.

(** The dict of a size and the times of a stat result *)
Definition timed_info (mode size : Z) (st : stat_result) (o : Os) : result stat_info :=
  c ← encode_time (st_ctime st) o;
  a ← encode_time (st_atime st) o;
  m ← encode_time (st_mtime st) o;
  Ok {| si_mode := mode; si_attr := 0; si_size := lo32 size; si_hisize := hi32 size;
        si_ctime := c; si_atime := a; si_mtime := m |}.

(** [_stat_to_bytes] *)
Definition stat_to_bytes (st : stat_result) (o : Os) : result stat_info :=
  let mode := if S_ISREG st then FIO_S_IFREG else if S_ISDIR st then FIO_S_IFDIR else 0 in
  timed_info mode (st_size st) st o.

(** [_get_compressed_stat] *)
Definition get_compressed_stat (path : str) (st : stat_result) (o : Os) : result (option stat_info) :=
  info ← compressed_info path o;
  match info with
  | None => Ok None
  | Some (size, _) => si ← timed_info FIO_S_IFREG size st o; Ok (Some si)
  end.

(** [_virtual_stat] *)
Definition virtual_stat (v : virtual_view) (st : stat_result) (o : Os) : result stat_info :=
  si ← stat_to_bytes st o;
  Ok {| si_mode := FIO_S_IFREG; si_attr := si_attr si; si_size := lo32 (view_size v);
        si_hisize := hi32 (view_size v); si_ctime := si_ctime si; si_atime := si_atime si;
        si_mtime := si_mtime si |}.
End paths.
