(* ===== verification/Handlers.v ===== *)
(** * The UDPFS request handlers

    Models the operations on open files, the response builders and the handlers
    ([_handle_open] ... [_handle_bwrite_req]) of [udpfs_server/udpfs_server.py].  A
    handler runs in the world of its client's worker ([Session.world]) and may raise,
    as in Python: what it does not catch ends the request without a reply. *)

From S2P Require Import Prelude PyStr SessionStats Compressed HostOs ChdCue Wire Session Transport Paths.

(** [-e.errno]; negating [None] is a [TypeError]. *)
Definition neg_errno (e : option Z) : result Z :=
  match e with Some n => Ok (- n) | None => Err TypeError end.

(** [except OSError as e]: the answer for [-e.errno] *)
Definition on_oserror {S A} (m : M S A) (answer : Z -> M S A) : M S A :=
  mcatch m (fun e => match e with
                     | OSError errno => Some (code ← lift (neg_errno errno); answer code)
                     | _ => None
                     end).

(** [struct.unpack(fs, payload[:n])] where the length was checked *)
Definition fields_of (fs : list fmt) (payload : bytes) : result (list Z) := unpack_prefix fs payload.

(** [path_bytes.split(b'\x00')[0].decode('utf-8', errors='replace')] *)
Definition client_path (path_bytes : bytes) : str := utf8_replace (before_nul path_bytes).

Section handlers.
Context {Os : Type} `{HostOs Os} `{Codecs} (cfg : config) (sock_of : session -> socket).

Abbreviation W := (world Os).
Abbreviation send_data := (send_data sock_of (tx_delay cfg)).
Abbreviation send_ack := (send_ack sock_of (tx_delay cfg)).

(** ** Open files *)

Definition get_handle (h : Z) : M W (option file_handle) := sget (fun s => hget h (handles s)).

(** [_decompress_block] of the wrapper class *)
Definition decompress_of (path : str) (c : Formats.codec) (f : hfile) : Base.wrapper -> Z -> result bytes :=
  match c with
  | Formats.ZSO => Zso.decompress_block lz4_decompress f
  | Formats.CSO => Cso.decompress_block inflate_raw inflate_zlib inflate_max f
  | Formats.CHD => Chd.decompress_block (chd_read path)
  end.

(** The object behind handle [h] after an operation on it *)
Definition put_handle (h : Z) (fh : file_handle) : M W unit :=
  smod (fun s => s <| handles ::= hset h fh |>).

(** [fh.obj.read(n)] *)
Definition obj_read (h : Z) (fh : file_handle) (n : Z) : M W bytes :=
  match fh with
  | F_file f => on_host (f_read f n)
  | F_image path c f w =>
      let '(r, w) := Base.read (decompress_of path c f) n w in
      _ ← put_handle h (F_image path c f w); lift r
  | F_view v => let '(r, v) := stream_read n v in _ ← put_handle h (F_view v); lift r
  | F_dir _ => raise AttributeError
  end.

(** [fh.obj.seek(offset, whence)] *)
Definition obj_seek (h : Z) (fh : file_handle) (offset whence : Z) : M W Z :=
  match fh with
  | F_file f => on_host (f_seek f offset whence)
  | F_image path c f w =>
      let '(r, w) := Base.seek offset whence w in
      _ ← put_handle h (F_image path c f w); lift r
  | F_view v => let '(r, v) := stream_seek offset whence v in _ ← put_handle h (F_view v); lift r
  | F_dir _ => raise AttributeError
  end.

(** [fh.obj.write(data)] and [fh.obj.flush()]; only host files have them. *)
Definition obj_write (fh : file_handle) (data : bytes) : M W Z :=
  match fh with F_file f => on_host (f_write f data) | _ => raise AttributeError end.
Definition obj_flush (fh : file_handle) : M W unit :=
  match fh with F_file f => on_host (f_flush f) | _ => raise AttributeError end.

(** [FileHandle.close]; closing an image or a view releases host resources only. *)
Definition fh_close (fh : file_handle) : M W unit :=
  match fh with F_file f => on_host (f_close f) | _ => mret tt end.

(** [FileHandle.writable] *)
Definition writable (fh : file_handle) : M W bool :=
  match fh with
  | F_file f => mcatch (ask (f_writable f))
                  (fun e => match e with OSError _ | ValueError => Some (mret false) | _ => None end)
  | _ => mret false
  end.

(** Any [Exception]; a loop that never ends raises none. *)
Definition swallow (m : M W unit) : M W unit :=
  mcatch m (fun e => match e with Hang => None | _ => Some (mret tt) end).

(** [_alloc_handle] *)
Definition alloc_handle (fh : file_handle) : M W Z :=
  s ← sget id;
  if MAX_HANDLES <=? zlen (handles s) then mret (- EMFILE)
  else
    let h := next_handle s in
    _ ← smod (fun s => s <| next_handle ::= Z.add 1 |> <| handles ::= hset h fh |>);
    mret h.

(** [_free_handle] *)
Definition free_handle (h : Z) : M W unit :=
  if h =? BLOCK_DEVICE_HANDLE then mret tt
  else
    fh ← get_handle h;
    match fh with
    | Some fh => _ ← swallow (fh_close fh); smod (fun s => s <| handles ::= hdel h |>)
    | None => mret tt
    end.

(** [bd_read] *)
Definition block_read (offset n : Z) : M W bytes :=
  match (if has_pread cfg then bd_fd cfg else None), bd_fh cfg with
  | Some fd, _ => on_host (os_pread fd n offset)
  | None, Some f => _ ← on_host (f_seek f offset 0); on_host (f_read f n)
  | None, None => raise AttributeError
  end.

(** [bd_write] *)
Definition block_write (offset : Z) (data : bytes) : M W Z :=
  match (if has_pwrite cfg then bd_fd cfg else None), bd_fh cfg with
  | Some fd, _ => on_host (os_pwrite fd data offset)
  | None, Some f => _ ← on_host (f_seek f offset 0); n ← on_host (f_write f data); _ ← on_host (f_flush f); mret n
  | None, None => raise AttributeError
  end.

(** ** Response builders *)

Definition no_stat : stat_info :=
  {| si_mode := 0; si_attr := 0; si_size := 0; si_hisize := 0; si_ctime := zeros 8; si_atime := zeros 8;
     si_mtime := zeros 8 |}.

(** [struct.pack], then [_send_data] *)
Definition send_packed (a : addr) (fvs : list (fmt * Z)) (rest : bytes) : M W unit :=
  reply ← lift (struct_result (pack fvs)); send_data a (reply ++ rest).

(** [_send_open_reply] *)
Definition send_open_reply (a : addr) (handle : Z) (si : option stat_info) : M W unit :=
  _ ← mwhen ((handle <? 0) && negb (handle =? - ENOENT)) (session_record a errors 1);
  let si := default no_stat si in
  send_packed a [(fB, OPEN_REPLY); (fB, 0); (fB, 0); (fB, 0); (fi, handle); (fI, si_mode si); (fI, si_size si);
                 (fI, si_hisize si)] (si_ctime si ++ si_mtime si).

(** A four-byte result after the message type *)
Definition send_result (a : addr) (msg result : Z) : M W unit :=
  send_packed a [(fB, msg); (fB, 0); (fB, 0); (fB, 0); (fi, result)] [].

(** [_send_close_reply] *)
Definition send_close_reply (a : addr) (result : Z) : M W unit :=
  _ ← mwhen (result <? 0) (session_record a errors 1); send_result a CLOSE_REPLY result.

(** [_send_read_result]: the transfer, confirmed or not *)
Definition send_read_result (a : addr) (result : Z) (data : bytes) : M W bool :=
  _ ← mwhen (result <? 0) (session_record a errors 1);
  header ← lift (struct_result (pack [(fB, RESULT_REPLY); (fB, 0); (fB, 0); (fB, 0); (fi, result)]));
  confirmed ← send_raw_data_with_header sock_of (tx_delay cfg) a header data;
  _ ← mwhen ((0 <? result) && confirmed) (session_record a k_bytes result);
  mret confirmed.

(** [_send_result_reply] *)
Definition send_result_reply (a : addr) (result : Z) : M W unit := send_result a RESULT_REPLY result.

(** [_send_write_done] *)
Definition send_write_done (a : addr) (result : Z) : M W unit :=
  _ ← mwhen (result <? 0) (session_record a errors 1); send_result a WRITE_DONE result.

(** [_send_lseek_reply] *)
Definition send_lseek_reply (a : addr) (position : Z) : M W unit :=
  if position <? 0 then
    send_packed a [(fB, LSEEK_REPLY); (fB, 0); (fB, 0); (fB, 0); (fi, position); (fi, -1)] []
  else
    send_packed a [(fB, LSEEK_REPLY); (fB, 0); (fB, 0); (fB, 0); (fI, lo32 position); (fI, hi32 position)] [].

(** The stat fields of DREAD_REPLY and GETSTAT_REPLY *)
Definition stat_fields (si : stat_info) : list (fmt * Z) :=
  [(fI, si_mode si); (fI, si_attr si); (fI, si_size si); (fI, si_hisize si)].
Definition stat_times (si : stat_info) : bytes := si_ctime si ++ si_atime si ++ si_mtime si.

(** [_send_dread_reply]; a name that is not Unicode cannot be encoded. *)
Definition send_dread_reply (a : addr) (result : Z) (name : str) (si : option stat_info) : M W unit :=
  let si := default no_stat si in
  if negb (is_utf8 name) then raise UnicodeError
  else
    let name_bytes := name ++ [0] in
    let name_padded := ljust name_bytes (pad4 (zlen name_bytes)) in
    send_packed a ([(fB, DREAD_REPLY); (fB, 0); (fH, zlen name_bytes - 1); (fi, result)] ++ stat_fields si)
      (stat_times si ++ if 0 <? result then name_padded else []).

(** [_send_getstat_reply] *)
Definition send_getstat_reply (a : addr) (result : Z) (si : option stat_info) : M W unit :=
  let si := default no_stat si in
  send_packed a ([(fB, GETSTAT_REPLY); (fB, 0); (fB, 0); (fB, 0); (fi, result)] ++ stat_fields si) (stat_times si).

(** ** Directory listings *)

(** [entry.stat(follow_symlinks=False)]: the result and the entry with its cache *)
Definition entry_stat (e : dirent) (o : Os) : result stat_result * dirent :=
  match de_stat e with
  | Some st => (Ok st, e)
  | None =>
      match os_lstat (de_path e) o with
      | Ok st => (Ok st, DirEnt (de_name e) (de_path e) (Some st))
      | Err er => (Err er, e)
      end
  end.

(** The first loop of [_prepare_directory_entries] over the entries from position [i]:
    the entries with their caches, and what is advertised. *)
Fixpoint advertise_real (real_names : list str) (i : Z) (entries : list dirent) (o : Os)
    : result (list dirent * list advertised) :=
  match entries with
  | [] => Ok ([], [])
  | e :: entries =>
      let display := transform_compressed_name cfg (de_name e) in
      '(e, here) ←
        (if str_eqb display (de_name e) then Ok (e, [Advertised display i None None])
         else if in_strs display real_names then Ok (e, [])
         else if negb (is_utf8 display) then Err UnicodeError
         else if 255 <? zlen display then Ok (e, [])
         else
           let '(r, e) := entry_stat e o in
           match (st ← r; get_compressed_stat (de_path e) st o) with
           | Ok (Some si) => Ok (e, [Advertised display i (Some si) None])
           | Ok None | Err (OSError _) => Ok (e, [])
           | Err er => Err er
           end);
      '(es, rest) ← advertise_real real_names (i + 1) entries o;
      Ok (e :: es, here ++ rest)
  end.

(** [sources.get(path)]: the last entry with that path *)
Fixpoint source_at (cwd path : str) (i : Z) (entries : list dirent) (found : option Z) : option Z :=
  match entries with
  | [] => found
  | e :: entries =>
      source_at cwd path (i + 1) entries (if str_eqb (abspath cwd (de_path e)) path then Some i else found)
  end.

(** The second loop of [_prepare_directory_entries] *)
Fixpoint advertise_virtual (views : list (str * virtual_view)) (entries : list dirent) (o : Os)
    : result (list dirent * list advertised) :=
  match views with
  | [] => Ok (entries, [])
  | (name, v) :: views =>
      let cwd := os_getcwd o in
      match source_at cwd (abspath cwd (chd_path v)) 0 entries None with
      | None => advertise_virtual views entries o
      | Some i =>
          match zlookup entries i with
          | None => advertise_virtual views entries o
          | Some e =>
              let '(r, e) := entry_stat e o in
              match r with
              | Err (OSError _) => advertise_virtual views entries o
              | Err er => Err er
              | Ok st =>
                  si ← virtual_stat v st o;
                  '(es, rest) ← advertise_virtual views (<[Z.to_nat i := e]> entries) o;
                  Ok (es, Advertised name i (Some si) (Some v) :: rest)
              end
          end
      end
  end.

(** [_prepare_directory_entries] of the entries of [directory] *)
Definition prepare_directory_entries (directory : str) (names : list str) (o : Os) : result dir_data :=
  let entries := map (fun n => DirEnt n (path_join directory n) None) names in
  '(entries, real) ← advertise_real names 0 entries o;
  '(entries, virtual) ←
    (if enable_compression cfg then
       let dir := match entries with e :: _ => dirname (de_path e) | [] => default [] (root_dir cfg) end in
       views ← list_virtual_entries dir names (path_join directory) o;
       advertise_virtual views entries o
     else Ok (entries, []));
  Ok {| dd_sources := entries; dd_entries := real ++ virtual; dd_index := 0 |}.

(** ** OPEN *)

(** The directory branch of [_handle_open].  [resolved] is never [None] here: an alias
    that resolves lies in a folder that does too. *)
Definition open_directory (a : addr) (resolved : option str) : M W unit :=
  match resolved with
  | None => raise TypeError
  | Some resolved =>
      on_oserror
        (names ← ask (os_listdir resolved);
         dir ← ask (prepare_directory_entries resolved names);
         handle ← alloc_handle (F_dir dir);
         if handle <? 0 then send_open_reply a handle None
         else
           st ← ask (os_stat resolved);
           si ← ask (stat_to_bytes st);
           send_open_reply a handle (Some si))
        (fun code => send_open_reply a code None)
  end.

(** The virtual CUE/BIN branch *)
Definition open_virtual (a : addr) (flags : Z) (v : virtual_view) : M W unit :=
  if negb (Z.land flags 0x03 =? 0x01) || negb (Z.land flags 0x0700 =? 0)
  then send_open_reply a (- EACCES) None
  else
    mcatch
      (stream ← ask (view_open v (compression_cache_size cfg));
       st ← ask (os_lstat (chd_path v));
       si ← ask (virtual_stat v st);
       handle ← alloc_handle (F_view stream);
       if handle <? 0 then send_open_reply a handle None
       else send_open_reply a handle (Some si))
      (fun e => match e with
                | ImportError | ValueError | UnicodeError | OSError _ | StructError =>
                    Some (send_open_reply a (- EIO) None)
                | _ => None
                end).

(** A virtual [.iso]: [open_compressed] and its errors, then the reply *)
Definition open_image (a : addr) (path : str) : M W unit :=
  image ← mcatch
    (w ← ask (fun o => Formats.open_compressed lz4_available libchdr_available (chd_open path) path
                         (os_open_image path o) (Some (compression_cache_size cfg)));
     f ← ask (os_open_image path);
     mret (match w with Some (c, w) => Some (c, f, w) | None => None end))
    (fun e => match e with
              | ImportError | ValueError | UnicodeError | OSError _ | StructError => Some (mret None)
              | _ => None
              end);
  match image with
  | None => send_open_reply a (- EIO) None
  | Some (c, f, w) =>
      st ← ask (os_stat path);
      si ← ask (get_compressed_stat path st);
      si ← match si with Some si => mret si | None => ask (stat_to_bytes st) end;
      handle ← alloc_handle (F_image path c f w);
      if handle <? 0 then send_open_reply a handle None
      else send_open_reply a handle (Some si)
  end.

(** A file served as it is *)
Definition open_plain (a : addr) (path : str) (mode : open_mode) : M W unit :=
  f ← on_host (os_open path mode);
  st ← ask (os_fstat f);
  si ← ask (stat_to_bytes st);
  handle ← alloc_handle (F_file f);
  if handle <? 0 then _ ← on_host (f_close f); send_open_reply a handle None
  else send_open_reply a handle (Some si).

(** The file branch of [_handle_open] *)
Definition open_file (a : addr) (flags : Z) (resolved compressed : option str) (view : option virtual_view) : M W unit :=
  if read_only cfg && negb (Z.land flags 0x02 =? 0) then send_open_reply a (- EACCES) None
  else match view with
  | Some v => open_virtual a flags v
  | None =>
      let actual := default [] (match compressed with Some c => Some c | None => resolved end) in
      let create := negb (Z.land flags 0x0200 =? 0) in
      there ← ask (path_exists actual);
      if negb there && negb create then send_open_reply a (- ENOENT) None
      else
        on_oserror
          (parent ← ask (path_exists (dirname actual));
           _ ← mwhen (create && negb parent) (on_host (os_makedirs (dirname actual)));
           match compressed with
           | Some path => open_image a path
           | None => open_plain a actual (flags_to_mode flags there)
           end)
          (fun code => send_open_reply a code None)
  end.

(** What a client path names: the resolved path, the compressed image and the virtual
    view behind a name that does not exist. *)
Definition look_up (path : str) (o : Os) : result (option str * option str * option virtual_view) :=
  resolved ← resolve_path cfg path o;
  entry_path ← resolve_entry cfg path o;
  real_entry ← (match entry_path with Some e => path_lexists e o | None => Ok false end);
  real_file ← (match resolved with Some r => path_exists r o | None => Ok false end);
  if (real_file : bool) || (real_entry : bool) then Ok (resolved, None, None)
  else
    compressed ← resolve_compressed_sibling cfg path o;
    match compressed with
    | Some c => Ok (resolved, Some c, None)
    | None => view ← resolve_virtual_chd cfg path o; Ok (resolved, None, view)
    end.

(** [_handle_open] *)
Definition handle_open (a : addr) (payload : bytes) : M W unit :=
  if zlen payload <? 8 then send_open_reply a (- EINVAL) None
  else
    vs ← lift (fields_of [fB; fB; fH; fi] payload);
    let is_dir := negb (nth 1 vs 0 =? 0) in
    let flags := nth 2 vs 0 in
    let path := client_path (zdrop 8 payload) in
    _ ← count n_open 1;
    _ ← session_record a (if is_dir then k_list else k_open) 1;
    '(resolved, compressed, view) ← ask (look_up path);
    match resolved, compressed, view with
    | None, None, None => send_open_reply a (- EACCES) None
    | _, _, _ =>
        if is_dir then open_directory a resolved else open_file a flags resolved compressed view
    end.

(** ** CLOSE, READ, LSEEK *)

(** [_handle_close] *)
Definition handle_close (a : addr) (payload : bytes) : M W unit :=
  if zlen payload <? 8 then send_close_reply a (- EINVAL)
  else
    vs ← lift (fields_of [fB; fB; fB; fB; fi] payload);
    let handle := nth 4 vs 0 in
    _ ← count n_close 1;
    _ ← session_record a k_close 1;
    if handle =? BLOCK_DEVICE_HANDLE then send_close_reply a 0
    else
      fh ← get_handle handle;
      match fh with
      | None => send_close_reply a (- EBADF)
      | Some _ => _ ← free_handle handle; send_close_reply a 0
      end.

(** [fh is None or fh.is_dir], else the handle *)
Definition plain_handle (fh : option file_handle) : option file_handle :=
  match fh with Some fh => if is_dir fh then None else Some fh | None => None end.

(** [_handle_read] *)
Definition handle_read (a : addr) (payload : bytes) : M W unit :=
  if zlen payload <? 12 then _ ← send_read_result a (- EINVAL) []; mret tt
  else
    vs ← lift (fields_of [fB; fB; fB; fB; fi; fI] payload);
    let handle := nth 4 vs 0 in
    let size := nth 5 vs 0 in
    _ ← count n_read 1;
    _ ← session_record a k_read 1;
    if max_transfer_bytes cfg <? size then _ ← send_read_result a (- EINVAL) []; mret tt
    else
      fh ← get_handle handle;
      match plain_handle fh with
      | None => _ ← send_read_result a (- EBADF) []; mret tt
      | Some fh =>
          on_oserror
            (data ← obj_read handle fh size;
             _ ← count n_bytes_read (zlen data);
             _ ← send_read_result a (zlen data) data; mret tt)
            (fun code => _ ← send_read_result a code []; mret tt)
      end.

(** [_handle_lseek] *)
Definition handle_lseek (a : addr) (payload : bytes) : M W unit :=
  if zlen payload <? 16 then send_lseek_reply a (- EINVAL)
  else
    vs ← lift (fields_of [fB; fB; fH; fi; fi; fi] payload);
    let whence := nth 1 vs 0 in
    let handle := nth 3 vs 0 in
    let offset := Z.lor (Z.shiftl (nth 5 vs 0) 32) (Z.land (nth 4 vs 0) 0xFFFFFFFF) in
    _ ← count n_lseek 1;
    fh ← get_handle handle;
    match plain_handle fh with
    | None => send_lseek_reply a (- EBADF)
    | Some fh =>
        mcatch (new_pos ← obj_seek handle fh offset whence; send_lseek_reply a new_pos)
          (fun e => match e with
                    | OSError errno => Some (code ← lift (neg_errno errno); send_lseek_reply a code)
                    | ValueError | UnicodeError => Some (send_lseek_reply a (- EINVAL))
                    | _ => None
                    end)
    end.

(** ** Writes *)

(** [_reset_write] *)
Definition reset_write (s : session) : session :=
  s <| write_handle := -1 |> <| write_is_block := false |> <| write_sector_nr := 0 |>
    <| write_sector_count := 0 |> <| write_data := [] |> <| write_total_chunks := 0 |>
    <| write_received_chunks := 0 |>.

(** [_complete_write] *)
Definition complete_write (a : addr) : M W unit :=
  s ← sget id;
  _ ← smod reset_write;
  match plain_handle (hget (write_handle s) (handles s)) with
  | None => send_write_done a (- EBADF)
  | Some fh =>
      on_oserror
        (n ← obj_write fh (write_data s);
         _ ← obj_flush fh;
         _ ← count n_bytes_written n;
         send_write_done a n)
        (fun code => send_write_done a code)
  end.

(** [bd_sector_size] for the block device, 512 for a file *)
Definition sector_size_of (handle : Z) : Z := if handle =? BLOCK_DEVICE_HANDLE then bd_sector_size cfg else 512.

(** [_complete_bwrite] *)
Definition complete_bwrite (a : addr) : M W unit :=
  s ← sget id;
  _ ← smod reset_write;
  let handle := write_handle s in
  match plain_handle (hget handle (handles s)) with
  | None => send_write_done a (- EBADF)
  | Some fh =>
      let sector_size := sector_size_of handle in
      let expected_size := write_sector_count s * sector_size in
      let data := ztake expected_size (write_data s) in
      on_oserror
        (_ ← (if handle =? BLOCK_DEVICE_HANDLE then
                _ ← block_write (write_sector_nr s * sector_size) data; mret tt
              else
                _ ← obj_seek handle fh (write_sector_nr s * sector_size) 0;
                _ ← obj_write fh data;
                obj_flush fh);
         _ ← count n_bytes_written expected_size;
         send_write_done a 0)
        (fun code => send_write_done a code)
  end.

(** [_handle_write_data] *)
Definition handle_write_data (a : addr) (payload : bytes) : M W unit :=
  if zlen payload <? 8 then send_ack a true
  else
    vs ← lift (fields_of [fB; fB; fH; fH; fH] payload);
    let chunk_nr := nth 2 vs 0 in
    let chunk_size := nth 3 vs 0 in
    let total_chunks := nth 4 vs 0 in
    let chunk_data := slice payload 8 (8 + chunk_size) in
    s ← sget id;
    if write_handle s <? 0 then send_ack a true
    else if negb (chunk_nr =? write_received_chunks s) then send_ack a true
    else if max_transfer_bytes cfg <? zlen (write_data s) + zlen chunk_data then
      _ ← smod reset_write; send_write_done a (- EINVAL)
    else
      _ ← smod (fun s => s <| write_data ::= fun d => d ++ chunk_data |>
                           <| write_total_chunks := total_chunks |>
                           <| write_received_chunks ::= Z.add 1 |>);
      s ← sget id;
      if total_chunks <=? write_received_chunks s
      then if write_is_block s then complete_bwrite a else complete_write a
      else send_ack a true.

(** [_handle_write_req] *)
Definition handle_write_req (a : addr) (payload : bytes) : M W unit :=
  _ ← smod reset_write;
  if zlen payload <? 12 then send_ack a true
  else
    vs ← lift (fields_of [fB; fB; fB; fB; fi; fI] payload);
    let handle := nth 4 vs 0 in
    let size := nth 5 vs 0 in
    _ ← count n_write 1;
    _ ← session_record a k_write 1;
    if read_only cfg then send_write_done a (- EACCES)
    else if max_transfer_bytes cfg <? size then send_write_done a (- EINVAL)
    else
      fh ← get_handle handle;
      match plain_handle fh with
      | None => send_write_done a (- EBADF)
      | Some fh =>
          ok ← writable fh;
          if negb ok then send_write_done a (- EACCES)
          else
            _ ← smod (fun s => s <| write_handle := handle |>);
            if 12 <? zlen payload then handle_write_data a (zdrop 12 payload) else send_ack a true
      end.

Definition MAX_OFFSET : Z := 2 ^ 63 - 1.

(** The fields of BREAD_REQ and BWRITE_REQ: sector count, handle, sector number *)
Definition block_fields (payload : bytes) : result (Z * Z * Z) :=
  vs ← fields_of [fB; fB; fH; fi; fI; fI] payload;
  Ok (nth 2 vs 0, nth 3 vs 0, Z.lor (nth 4 vs 0) (Z.shiftl (nth 5 vs 0) 32)).

(** [_handle_bwrite_req] *)
Definition handle_bwrite_req (a : addr) (payload : bytes) : M W unit :=
  _ ← smod reset_write;
  if zlen payload <? 16 then send_ack a true
  else
    '(sector_count, handle, sector_nr) ← lift (block_fields payload);
    _ ← count n_bwrite 1;
    _ ← session_record a k_write 1;
    if read_only cfg then send_write_done a (- EACCES)
    else
      fh ← get_handle handle;
      match plain_handle fh with
      | None => send_write_done a (- EBADF)
      | Some fh =>
          ok ← writable fh;
          if negb ok then send_write_done a (- EACCES)
          else
            let sector_size := sector_size_of handle in
            let declared := sector_count * sector_size in
            if max_transfer_bytes cfg <? declared then send_write_done a (- EINVAL)
            else if MAX_OFFSET <? sector_nr * sector_size + declared then send_write_done a (- EINVAL)
            else
              _ ← smod (fun s => s <| write_handle := handle |> <| write_is_block := true |>
                                   <| write_sector_nr := sector_nr |> <| write_sector_count := sector_count |>);
              if 16 <? zlen payload then handle_write_data a (zdrop 16 payload) else send_ack a true
      end.

(** [_handle_bread] *)
Definition handle_bread (a : addr) (payload : bytes) : M W unit :=
  if zlen payload <? 16 then _ ← send_read_result a (- EINVAL) []; mret tt
  else
    '(sector_count, handle, sector_nr) ← lift (block_fields payload);
    _ ← count n_bread 1;
    _ ← session_record a k_read 1;
    fh ← get_handle handle;
    match plain_handle fh with
    | None => _ ← send_read_result a (- EBADF) []; mret tt
    | Some fh =>
        let sector_size := sector_size_of handle in
        let total_size := sector_count * sector_size in
        if (max_transfer_bytes cfg <? total_size) || (MAX_OFFSET <? sector_nr * sector_size)
        then _ ← send_read_result a (- EINVAL) []; mret tt
        else
          data ← on_oserror
            (data ← (if handle =? BLOCK_DEVICE_HANDLE then block_read (sector_nr * sector_size) total_size
                     else
                       _ ← obj_seek handle fh (sector_nr * sector_size) 0;
                       (* seeking moved the object: read through the handle's current state *)
                       fh ← get_handle handle;
                       match fh with Some fh => obj_read handle fh total_size | None => raise AttributeError end);
             mret (Some data))
            (fun code => _ ← send_read_result a code []; mret None);
          match data with
          | None => mret tt
          | Some data =>
              _ ← count n_bytes_read (zlen data);
              let reply c := {| br_handle := handle; br_sector := sector_nr; br_requested := total_size;
                                br_read := zlen data; br_completion := c |} in
              _ ← smod (fun s => s <| last_bread_reply := Some (reply sending) |>);
              confirmed ← send_read_result a (zlen data) data;
              smod (fun s => s <| last_bread_reply := Some (reply (if (confirmed : bool) then fin_acked else unconfirmed)) |>)
          end
    end.

(** ** DREAD, GETSTAT *)

(** The entry at position [i] of the sources, stat'ed, with its cache kept *)
Definition source_stat (d : dir_data) (i : Z) (o : Os) : result stat_result * dir_data :=
  match zlookup (dd_sources d) i with
  | Some e =>
      let '(r, e) := entry_stat e o in
      (r, DirData (<[Z.to_nat i := e]> (dd_sources d)) (dd_entries d) (dd_index d))
  | None => (Err IndexError, d)
  end.

(** The advertised name with its stat fields *)
Definition named (ad : advertised) (r : result stat_info) : result (option (str * stat_info)) :=
  si ← r; Ok (Some (ad_name ad, si)).

(** The loop of [_handle_dread] over the entries not read yet, stopping at the first
    that can be served: its name and stat fields, and the handle's state. *)
Fixpoint next_entry (entries : list advertised) (d : dir_data) (o : Os)
    : result (option (str * stat_info)) * dir_data :=
  match entries with
  | [] => (Ok None, d)
  | ad :: entries =>
      let d := DirData (dd_sources d) (dd_entries d) (dd_index d + 1) in
      let hidden : result bool :=
        match ad_virtual ad with
        | Some v =>
            let stem := fst (splitext (v_path v)) in
            cue ← path_lexists (stem ++ DOT_CUE) o;
            if (cue : bool) then Ok true else path_lexists (stem ++ DOT_BIN) o
        | None => Ok false
        end in
      match hidden with
      | Err e => (Err e, d)
      | Ok true => next_entry entries d o
      | Ok false =>
          let '(r, d) := source_stat d (ad_source ad) o in
          match r with
          | Err (OSError _) => next_entry entries d o
          | Err e => (Err e, d)
          | Ok st =>
              match ad_virtual ad with
              | Some v =>
                  if negb (S_ISREG st) then next_entry entries d o
                  else (named ad (virtual_stat v st o), d)
              | None =>
                  (named ad (match ad_stat ad with Some si => Ok si | None => stat_to_bytes st o end), d)
              end
          end
      end
  end.

(** [_handle_dread] *)
Definition handle_dread (a : addr) (payload : bytes) : M W unit :=
  if zlen payload <? 8 then send_dread_reply a (- EINVAL) [] None
  else
    vs ← lift (fields_of [fB; fB; fB; fB; fi] payload);
    let handle := nth 4 vs 0 in
    _ ← count n_dread 1;
    fh ← get_handle handle;
    match fh with
    | Some (F_dir d) =>
        o ← mget host;
        let '(r, d) := next_entry (zdrop (dd_index d) (dd_entries d)) d o in
        _ ← put_handle handle (F_dir d);
        found ← lift r;
        match found with
        | Some (name, si) => send_dread_reply a 1 name (Some si)
        | None => send_dread_reply a 0 [] None
        end
    | _ => send_dread_reply a (- EBADF) [] None
    end.

(** The capacity of the block device as stat fields *)
Definition block_device_info : stat_info :=
  let total_bytes := bd_sector_size cfg * bd_sector_count cfg in
  {| si_mode := 0; si_attr := 0; si_size := lo32 total_bytes; si_hisize := hi32 total_bytes;
     si_ctime := zeros 8; si_atime := zeros 8; si_mtime := zeros 8 |}.

(** [except OSError: pass] around a stat that may answer nothing *)
Definition pass_oserror {A} (r : result (option A)) : result (option A) :=
  match r with Err (OSError _) => Ok None | r => r end.

(** The stat of an alias: of the compressed image, else of the virtual view *)
Definition alias_info (path : str) (o : Os) : result (option stat_info) :=
  compressed ← resolve_compressed_sibling cfg path o;
  si ← (match compressed with
        | Some c => pass_oserror (st ← os_stat c o; get_compressed_stat c st o)
        | None => Ok None
        end);
  match si with
  | Some si => Ok (Some si)
  | None =>
      view ← resolve_virtual_chd cfg path o;
      match view with
      | Some v => pass_oserror (st ← os_lstat (chd_path v) o; si ← virtual_stat v st o; Ok (Some si))
      | None => Ok None
      end
  end.

(** [_handle_getstat] *)
Definition handle_getstat (a : addr) (payload : bytes) : M W unit :=
  if zlen payload <? 4 then send_getstat_reply a (- EINVAL) None
  else
    let path := client_path (zdrop 4 payload) in
    _ ← count n_getstat 1;
    bd ← get_handle BLOCK_DEVICE_HANDLE;
    if str_eqb path [] && (match bd with Some _ => true | None => false end)
    then send_getstat_reply a 0 (Some block_device_info)
    else
      resolved ← ask (resolve_path cfg path);
      entry_path ← ask (resolve_entry cfg path);
      real_entry ← match entry_path with Some e => ask (path_lexists e) | None => mret false end;
      real_file ← match resolved with Some r => ask (path_exists r) | None => mret false end;
      if negb (real_file || real_entry) then
        si ← ask (alias_info path);
        match si with
        | Some si => send_getstat_reply a 0 (Some si)
        | None => send_getstat_reply a (match resolved with None => - EACCES | Some _ => - ENOENT end) None
        end
      else
        match resolved with
        | None => raise TypeError                        (* os.stat(None) *)
        | Some r =>
            on_oserror
              (st ← ask (os_stat r);
               si ← ask (stat_to_bytes st);
               send_getstat_reply a 0 (Some si))
              (fun code => send_getstat_reply a code None)
        end.

(** ** MKDIR, REMOVE, RMDIR *)

(** [_handle_mkdir] *)
Definition handle_mkdir (a : addr) (payload : bytes) : M W unit :=
  if zlen payload <? 4 then send_result_reply a (- EINVAL)
  else
    vs ← lift (fields_of [fB; fB; fH] payload);
    let mode := nth 2 vs 0 in
    let path := client_path (zdrop 4 payload) in
    _ ← count n_mkdir 1;
    if read_only cfg then send_result_reply a (- EACCES)
    else
      resolved ← ask (resolve_entry cfg path);
      match resolved with
      | None => send_result_reply a (- EACCES)
      | Some p =>
          on_oserror
            (_ ← on_host (os_mkdir p (if mode =? 0 then 0x1ED else mode)); send_result_reply a 0)
            (fun code => send_result_reply a code)
      end.

(** [_handle_remove] *)
Definition handle_remove (a : addr) (payload : bytes) : M W unit :=
  if zlen payload <? 4 then send_result_reply a (- EINVAL)
  else
    let path := client_path (zdrop 4 payload) in
    _ ← count n_remove 1;
    if read_only cfg then send_result_reply a (- EACCES)
    else
      resolved ← ask (resolve_entry cfg path);
      match resolved with
      | None => send_result_reply a (- EACCES)
      | Some p =>
          on_oserror
            (linked ← ask (through_linked_folder cfg path);
             if (linked : bool) then send_result_reply a (- EACCES)
             else
               st ← ask (os_lstat p);
               if S_ISDIR st then send_result_reply a (- EISDIR)
               else _ ← on_host (os_unlink p); send_result_reply a 0)
            (fun code => send_result_reply a code)
      end.

(** [_handle_rmdir] *)
Definition handle_rmdir (a : addr) (payload : bytes) : M W unit :=
  if zlen payload <? 4 then send_result_reply a (- EINVAL)
  else
    let path := client_path (zdrop 4 payload) in
    _ ← count n_rmdir 1;
    if read_only cfg then send_result_reply a (- EACCES)
    else
      resolved ← ask (resolve_entry cfg path);
      match resolved with
      | None => send_result_reply a (- EACCES)
      | Some p =>
          if bool_decide (root_dir cfg = Some p) then send_result_reply a (- EACCES)
          else
            on_oserror
              (linked ← ask (through_linked_folder cfg path);
               if (linked : bool) then send_result_reply a (- EACCES)
               else
                 st ← ask (os_lstat p);
                 if negb (S_ISDIR st) then send_result_reply a (- ENOTDIR)
                 else _ ← on_host (os_rmdir p); send_result_reply a 0)
              (fun code => send_result_reply a code)
      end.
End handlers.
