(* ===== verification/Server.v ===== *)
(** * The server around the sessions: dispatch, workers and the receive loop

    Models the rest of [udpfs_server/udpfs_server.py]: [_handle_data], the loop of a
    session's worker thread ([Session._run]), discovery, the status answer, the
    bounded table of sessions with its eviction, and the idle sweep.

    The receive loop and the workers are steps of one [server] state.  A worker's turn
    takes one datagram off its queue and runs its handler to the end; datagrams that
    arrive for it in the meantime are an argument of the step.  What the receive loop
    does to a session while that session's handler runs is thus ordered before or after
    the turn. *)

From S2P Require Import Prelude PyStr SessionStats Compressed HostOs ChdCue Wire Session Transport Paths Handlers.

(** ** The settings of the server as a whole *)

Definition SESSION_SWEEP_INTERVAL : Z := 5000000.
Definition STALL_REPORT_AFTER : Z := 45000000.
Definition SESSION_EVICT_LOG_INTERVAL : Z := 60000000.
Definition DEFAULT_MAX_SESSIONS : Z := 256.
Definition MIN_MAX_SESSIONS : Z := 1.
Definition DEFAULT_MAX_TRANSFER_BYTES : Z := 8 * 1024 * 1024.
Definition MIN_MAX_TRANSFER_BYTES : Z := 256 * 1024.

(** [_clamp_max_sessions] of an integer *)
Definition clamp_max_sessions (value : Z) : Z := Z.max MIN_MAX_SESSIONS value.

(** [_clamp_max_transfer] of an integer *)
Definition clamp_max_transfer (value : Z) : Z :=
  if value <=? 0 then DEFAULT_MAX_TRANSFER_BYTES else Z.max MIN_MAX_TRANSFER_BYTES value.

(** [protocol_mode] of the Core *)
Inductive mode := Mode_auto | Mode_standard | Mode_modulo.

#[export] Instance mode_eq_dec : EqDecision mode.
Proof. solve_decision. Defined.

(** The attributes read outside the handlers; times in microseconds.  [data_port] is
    [dsock.getsockname()[1]]. *)
Record settings := Settings {
  verbose : bool;
  modulo_compat : bool;
  single_port : bool;
  protocol_mode : mode;
  data_port : Z;
  max_sessions : Z;
  session_timeout : Z;
  fallback_interval : Z;
  start_time : Z;
  server_name : str;
  share_names : list str
}.

(** ** The INFORM trailer and the status name *)

(** [s[:n]] in characters: a continuation byte belongs to the character before it. *)
Fixpoint chars_take (n : nat) (s : str) : str :=
  match s with
  | [] => []
  | c :: s =>
      if (128 <=? c) && (c <? 192) then c :: chars_take n s
      else match n with O => [] | S n => c :: chars_take n s end
  end.

(** [', '.join(names)] *)
Fixpoint join_comma (names : list str) : str :=
  match names with
  | [] => []
  | [n] => n
  | n :: names => n ++ lit ", " ++ join_comma names
  end.

(** [_info_payload] *)
Definition info_payload (st : settings) : bytes :=
  let name := chars_take 31 (server_name st) in
  let shares := ztake 95 (join_comma (share_names st)) in
  let payload := [zlen name] ++ name ++ [zlen shares] ++ shares in
  if zlen payload mod 4 =? 0 then payload else payload ++ zeros (4 - zlen payload mod 4).

(** [text.strip()] *)
Definition strip (s : str) : str := rev (strip_leading is_space (rev (strip_leading is_space s))).

(** [_status_name] *)
Definition status_name (st : settings) : str :=
  let host := strip (server_name st) in
  if str_eqb host [] then lit "PS2 Servers" else lit "PS2 Servers (" ++ host ++ lit ")".

(** [_status_flags] *)
Definition status_flags (cfg : config) : Z :=
  if read_only cfg then Z.lor Status.FLAG_UDPFS Status.FLAG_READ_ONLY else Status.FLAG_UDPFS.

(** The INFORM header and its service *)
Definition inform_packet (seq port : Z) : result bytes :=
  disc ← DiscHeader.pack {| DiscHeader.service_id := UDPRDMA_SVC_UDPFS; DiscHeader.port := port |};
  Ok (Header.pack {| Header.packet_type := INFORM; Header.seq_nr := seq |} ++ disc).

Section server.
Context {Os : Type} `{HostOs Os} `{Codecs} (cfg : config) (st : settings).

Abbreviation W := (world Os).

(** ** Dispatch of a DATA packet *)

Section dispatch.
Context (sock_of : session -> socket).

(** The handler of a message type; an unknown one is acknowledged. *)
Definition dispatch (a : addr) (msg_type : Z) (payload : bytes) : M W unit :=
  if msg_type =? OPEN_REQ then handle_open cfg sock_of a payload
  else if msg_type =? CLOSE_REQ then handle_close cfg sock_of a payload
  else if msg_type =? READ_REQ then handle_read cfg sock_of a payload
  else if msg_type =? WRITE_REQ then handle_write_req cfg sock_of a payload
  else if msg_type =? WRITE_DATA then handle_write_data cfg sock_of a payload
  else if msg_type =? LSEEK_REQ then handle_lseek cfg sock_of a payload
  else if msg_type =? DREAD_REQ then handle_dread cfg sock_of a payload
  else if msg_type =? GETSTAT_REQ then handle_getstat cfg sock_of a payload
  else if msg_type =? MKDIR_REQ then handle_mkdir cfg sock_of a payload
  else if msg_type =? REMOVE_REQ then handle_remove cfg sock_of a payload
  else if msg_type =? RMDIR_REQ then handle_rmdir cfg sock_of a payload
  else if msg_type =? BREAD_REQ then handle_bread cfg sock_of a payload
  else if msg_type =? BWRITE_REQ then handle_bwrite_req cfg sock_of a payload
  else send_ack sock_of (tx_delay cfg) a true.

(** A peer that starts again at sequence 0 *)
Definition restart_sequence (s : session) : session :=
  s <| tx_seq_nr := 0 |> <| tx_buffer := [] |> <| tx_start_seq := 0 |> <| tx_seq_nr_acked := 0 |>
    <| rx_seq_nr_expected := 0 |>.

(** An accepted packet: counted, acknowledged at once, then handled *)
Definition accept_data (a : addr) (payload : bytes) : M W unit :=
  now ← mget clock;
  _ ← smod (fun s => s <| rx_seq_nr_expected ::= fun n => seq12 (n + 1) |> <| rx_streaming := true |>
                       <| last_request := now |> <| stall_reported := false |>);
  _ ← send_ack sock_of (tx_delay cfg) a true;
  match payload with
  | [] => mret tt
  | msg_type :: _ => dispatch a msg_type payload
  end.

(** [_handle_data] *)
Definition handle_data (a : addr) (data : bytes) : M W unit :=
  if zlen data <? 6 then mret tt
  else
    hdr ← lift (Header.unpack data);
    if negb (Header.packet_type hdr =? DATA) then mret tt
    else
      h ← lift (DataHeader.unpack (slice data 2 6));
      let payload_size := DataHeader.payload_size h in
      let actual_payload := ztake payload_size (zdrop 6 data) in
      _ ← (if DataHeader.has_ack h
           then _ ← acknowledge (DataHeader.seq_nr_ack h); mret tt else mret tt);
      if payload_size =? 0 then
        if DataHeader.has_ack h then mret tt
        else
          _ ← acknowledge (seq12 (DataHeader.seq_nr_ack h - 1));
          retransmit_from sock_of (tx_delay cfg) a (DataHeader.seq_nr_ack h)
      else
        s ← sget id;
        if Header.seq_nr hdr =? rx_seq_nr_expected s then accept_data a actual_payload
        else if Header.seq_nr hdr =? seq12 (rx_seq_nr_expected s - 1) then
          _ ← send_ack sock_of (tx_delay cfg) a true;
          retransmit_unacked sock_of (tx_delay cfg) a
        else if Header.seq_nr hdr =? 0 then
          _ ← smod restart_sequence; accept_data a actual_payload
        else send_ack sock_of (tx_delay cfg) a false.
End dispatch.

(** ** The worker thread *)

(** One turn of [Session._run] with the handler [on_data]: false when the loop is left
    for good. *)
Definition worker_turn (on_data : addr -> bytes -> M W unit) : M W bool :=
  item ← queue_get 1000000;
  match item with
  | None => mret true
  | Some None => mret false
  | Some (Some (data, a, sock)) =>
      _ ← smod (fun s => s <| ingress := sock |>);
      _ ← swallow (on_data a data);
      mret true
  end.

(** The handles are closed, except the shared block device. *)
Fixpoint close_each (l : list (Z * file_handle)) : M W unit :=
  match l with
  | [] => mret tt
  | (h, fh) :: l =>
      _ ← (if h =? BLOCK_DEVICE_HANDLE then mret tt else swallow (fh_close fh));
      close_each l
  end.

(** The end of [Session._run] *)
Definition close_session : M W unit :=
  s ← sget id;
  _ ← close_each (handles s);
  smod (fun s => s <| handles := [] |>).

(** ** The server's state *)

(** A session with its queue and its fallback timers (due time and handshake generation),
    which only the Core starts and which do nothing once the session is replaced. *)
Record peer := Peer { p_session : session; p_queue : list (option datagram); p_timers : list (Z * Z) }.

#[export] Instance eta_peer : Eta peer := fun p => Peer (p_session p) (p_queue p) (p_timers p).

(** [v_peers] is the dict [sessions], in insertion order; [v_closing] the sessions taken
    out of it whose worker has not ended yet. *)
Record server := Server {
  v_host : Os;
  v_peers : list (addr * peer);
  v_closing : list (addr * peer);
  v_counters : counter -> Z;
  v_summary : option (SessionStats.stats Z);
  v_sent : list (socket * addr * bytes);
  v_net : list (option Z);
  v_clock : Z;
  v_evicted : Z;
  v_last_evict_log : option Z;
  v_last_sweep : Z;
  v_shutdown : bool
}.

#[export] Instance eta_server : Eta server := fun v =>
  Server (v_host v) (v_peers v) (v_closing v) (v_counters v) (v_summary v) (v_sent v) (v_net v)
    (v_clock v) (v_evicted v) (v_last_evict_log v) (v_last_sweep v) (v_shutdown v).

Abbreviation V := server.

Fixpoint peer_find (a : addr) (l : list (addr * peer)) : option peer :=
  match l with
  | [] => None
  | (b, p) :: l => if bool_decide (b = a) then Some p else peer_find a l
  end.

Definition peer_remove (a : addr) (l : list (addr * peer)) : list (addr * peer) :=
  List.filter (fun bp => negb (bool_decide (fst bp = a))) l.

Definition peer_update (a : addr) (f : peer -> peer) (l : list (addr * peer)) : list (addr * peer) :=
  map (fun '(b, p) => if bool_decide (b = a) then (b, f p) else (b, p)) l.

(** What a computation on session [s] sees of the server, and the server after it. *)
Definition world_of (s : session) (inbox : list (Z * option datagram)) (v : V) : W :=
  {| host := v_host v; sess := s; counters := v_counters v; summary := v_summary v; sent := v_sent v;
     net := v_net v; clock := v_clock v; inbox := inbox |}.

Definition leave (w : W) (v : V) : V :=
  v <| v_host := host w |> <| v_counters := counters w |> <| v_summary := summary w |>
    <| v_sent := sent w |> <| v_net := net w |> <| v_clock := clock w |>.

(** [m] on the session of [a] by the receive loop, which never waits on its queue *)
Definition on_session {A} (a : addr) (m : M W A) : M V A := fun v =>
  match peer_find a (v_peers v) with
  | None => (Err KeyError, v)
  | Some p =>
      let '(r, w) := m (world_of (p_session p) [] v) in
      (r, leave w v <| v_peers ::= peer_update a (fun p => p <| p_session := sess w |>) |>)
  end.

(** [m] with no session of its own *)
Definition off_session {A} (m : M W A) : M V A := fun v =>
  let '(r, w) := m (world_of (new_session (0, 0) None PENDING 0) [] v) in (r, leave w v).

Definition vcount (k : counter) (n : Z) : M V unit := off_session (count k n).

(** ** The table of sessions *)

(** [min(sessions.items(), key=last_activity)]: the first of the least *)
Fixpoint oldest (best : addr * peer) (l : list (addr * peer)) : addr * peer :=
  match l with
  | [] => best
  | q :: l =>
      oldest (if last_activity (p_session (snd q)) <? last_activity (p_session (snd best)) then q else best) l
  end.

(** [Session.shutdown], on the way out of the table *)
Definition shut (ap : addr * peer) : addr * peer :=
  (fst ap, (snd ap) <| p_queue ::= fun q => q ++ [None] |>).

(** [_evict_oldest_session_locked] *)
Definition evict_oldest : M V unit :=
  peers ← mget v_peers;
  match peers with
  | [] => raise ValueError                              (* min() of nothing *)
  | q :: rest =>
      let victim := oldest q rest in
      mmod (fun v => v <| v_peers ::= peer_remove (fst victim) |>
                       <| v_closing ::= fun l => l ++ [shut victim] |>)
  end.

(** The profile [_init_compat] starts with; only the Core reads it. *)
Definition initial_profile : profile :=
  match protocol_mode st with Mode_auto => PENDING | Mode_standard => STANDARD | Mode_modulo => MODULO end.

(** [_get_or_create_session] *)
Definition get_or_create (a : addr) : M V unit :=
  peers ← mget v_peers;
  _ ← match peer_find a peers with
      | Some _ => mret tt
      | None =>
          _ ← (if max_sessions st <=? zlen peers then
                 _ ← evict_oldest;
                 mmod (fun v =>
                   let v := v <| v_evicted ::= Z.add 1 |> in
                   let quiet := match v_last_evict_log v with
                                | None => true
                                | Some t => SESSION_EVICT_LOG_INTERVAL <=? v_clock v - t
                                end in
                   if quiet then v <| v_last_evict_log := Some (v_clock v) |> else v)
               else mret tt);
          _ ← mmod (fun v => v <| v_peers ::= fun l =>
                l ++ [(a, Peer (new_session a (bd_fh cfg) initial_profile (v_clock v)) [] [])] |>);
          off_session (session_record a connections 1)
      end;
  mmod (fun v => v <| v_peers ::= peer_update a (fun p =>
         p <| p_session ::= fun s => s <| last_activity := v_clock v |> |>) |>).

(** [sess.queue.put(d)] *)
Definition enqueue (a : addr) (d : option datagram) : M V unit :=
  mmod (fun v => v <| v_peers ::= peer_update a (fun p => p <| p_queue ::= fun q => q ++ [d] |>) |>).

(** [_route_data] *)
Definition route_data (a : addr) (data : bytes) : M V unit :=
  if zlen data <? 2 then mret tt
  else
    hdr ← lift (Header.unpack data);
    if negb (Header.packet_type hdr =? DATA) then mret tt
    else _ ← get_or_create a; enqueue a (Some (data, a, None)).

Definition is_idle (now : Z) (ap : addr * peer) : bool :=
  session_timeout st <? now - last_activity (p_session (snd ap)).

(** The stall report of one session: only its flag is kept, the line is printed. *)
Definition mark_stall (now : Z) (p : peer) : peer :=
  let s := p_session p in
  if negb (last_request s =? 0) && negb (bool_decide (handles s = [])) && negb (stall_reported s)
     && (STALL_REPORT_AFTER <=? now - last_request s)
  then p <| p_session ::= fun s => s <| stall_reported := true |> |> else p.

(** [_sweep_idle_sessions] *)
Definition sweep : M V unit := mmod (fun v =>
  let now := v_clock v in
  if now - v_last_sweep v <? SESSION_SWEEP_INTERVAL then v
  else
    let v := v <| v_last_sweep := now |> <| v_summary ::= fmap (SessionStats.expire now) |> in
    let idle := List.filter (is_idle now) (v_peers v) in
    let v := v <| v_peers ::= List.filter (fun ap => negb (is_idle now ap)) |>
               <| v_closing ::= fun l => l ++ map shut idle |> in
    if verbose st then v <| v_peers ::= map (fun '(a, p) => (a, mark_stall now p)) |> else v).

(** [_shutdown_all_sessions]; the workers end in their own steps. *)
Definition shutdown_all : M V unit := mmod (fun v =>
  v <| v_shutdown := true |> <| v_closing ::= fun l => l ++ map shut (v_peers v) |> <| v_peers := [] |>
    <| v_summary ::= fmap SessionStats.stop |>).

(** ** Status and discovery *)

(** [_status_state] *)
Definition status_state (v : V) : result Z :=
  degraded ← (match root_dir cfg with
              | Some root => there ← path_isdir root (v_host v); Ok (negb there)
              | None => Ok false
              end);
  Ok (if (degraded : bool) then Status.STATE_DEGRADED
      else if existsb (fun ap => let s := p_session (snd ap) in rx_streaming s || (0 <=? write_handle s))
                      (v_peers v)
      then Status.STATE_BUSY else Status.STATE_READY).

(** [_maybe_answer_status] *)
Definition maybe_answer_status (a : addr) (data : bytes) : M V bool :=
  if negb (Status.is_status_query data) then mret false
  else
    v ← mget id;
    state ← lift (status_state v);
    let packet := Status.build_status_reply state (status_flags cfg) (zlen (v_peers v))
                    ((v_clock v - start_time st) / 1000000) (status_name st) in
    _ ← off_session (send_specific (tx_delay cfg) sock_discovery packet a);
    mret true.

(** [_sendto] of the standalone server: everything leaves from the data socket. *)
Definition standalone_socket (s : session) : socket := sock_data.

(** [_send_inform] *)
Definition send_inform (a : addr) : M W unit :=
  s ← sget id;
  if modulo_compat st then
    packet ← lift (inform_packet (tx_seq_nr s) 0);
    _ ← sendto standalone_socket (tx_delay cfg) (packet ++ info_payload st) a;
    smod (fun s => let n := seq12 (tx_seq_nr s + 1) in
                   s <| tx_seq_nr := n |> <| tx_seq_nr_acked := seq12 (n - 1) |>)
  else
    packet ← lift (inform_packet 1 (data_port st));
    sendto standalone_socket (tx_delay cfg) packet a.

(** A discovery probe seen less than two seconds ago *)
Definition is_repeated_probe (seq now : Z) (s : session) : bool :=
  match last_disc s with
  | Some (n, t) => (n =? seq) && (now - t <? 2000000)
  | None => false
  end.

(** The answer of [_handle_discovery] to a UDPFS probe *)
Definition answer_discovery (a : addr) (seq : Z) : M W unit :=
  now ← mget clock;
  s ← sget id;
  if modulo_compat st then
    if is_repeated_probe seq now s then
      packet ← lift (inform_packet (seq12 (tx_seq_nr s - 1)) 0);
      sendto standalone_socket (tx_delay cfg) (packet ++ info_payload st) a
    else
      _ ← smod (fun s => s <| last_disc := Some (seq, now) |> <| rx_seq_nr_expected := seq12 (seq + 1) |>);
      send_inform a
  else send_inform a.

(** [_handle_discovery] *)
Definition handle_discovery (a : addr) (data : bytes) : M V unit :=
  if zlen data <? 6 then mret tt
  else
    answered ← maybe_answer_status a data;
    if (answered : bool) then mret tt
    else
      hdr ← lift (Header.unpack data);
      if negb (Header.packet_type hdr =? DISCOVERY) then mret tt
      else
        disc ← lift (DiscHeader.unpack (slice data 2 10));
        if negb (DiscHeader.service_id disc =? UDPRDMA_SVC_UDPFS) then mret tt
        else
          _ ← vcount n_discovery 1;
          _ ← get_or_create a;
          on_session a (answer_discovery a (Header.seq_nr hdr)).

(** One datagram of [run]: an [OSError] of the handler is passed over. *)
Definition receive (sock : socket) (a : addr) (data : bytes) : M V unit :=
  mcatch
    (if single_port st then
       let data := ztake 4096 data in
       discovery ← (if 2 <=? zlen data
                    then hdr ← lift (Header.unpack data); mret (Header.packet_type hdr =? DISCOVERY)
                    else mret false);
       if (discovery : bool) then handle_discovery a data else route_data a data
     else match sock with
          | sock_discovery => handle_discovery a (ztake 2048 data)
          | sock_data => route_data a (ztake 4096 data)
          end)
    (fun e => match e with OSError _ => Some (mret tt) | _ => None end).

(** A worker's turn: [arrivals] are the datagrams the receive loop queues for it while it
    runs, with their times. *)
Definition run_worker (on_data : addr -> bytes -> M W unit) (arrivals : list (Z * datagram)) (a : addr) : M V bool :=
  fun v =>
  match peer_find a (v_peers v) with
  | None => (Err KeyError, v)
  | Some p =>
      let inbox := map (pair (v_clock v)) (p_queue p) ++ map (fun '(t, d) => (t, Some d)) arrivals in
      let '(r, w) := worker_turn on_data (world_of (p_session p) inbox v) in
      (r, leave w v <| v_peers ::= peer_update a (fun p => p <| p_session := sess w |> <| p_queue := map snd (Session.inbox w) |>) |>)
  end.

(** The end of the worker of a session that was shut down *)
Definition end_worker : M V unit := fun v =>
  match v_closing v with
  | [] => (Ok tt, v)
  | (_, p) :: rest =>
      let '(r, w) := close_session (world_of (p_session p) [] v) in
      (r, leave w v <| v_closing := rest |>)
  end.
End server.
