(* ===== verification/HandlersFacts.v ===== *)
(** * What a request can do

    Every run of a handler of [Handlers], and of the dispatch of [Server], is a sequence
    of elementary effects, listed by [effect]: what a request may do to the host, to the
    table of handles and to the write in progress, and under which condition.  The safety
    theorems follow by induction over these sequences. *)

From stdpp Require Import relations.
From S2P Require Import Prelude PyStr SessionStats Compressed HostOs ChdCue Wire Session Transport TransportFacts Paths Handlers Server.

(** The session without what a handler may change freely: the transport, the numbers and
    times of the last request, and the report of the last block read *)
Definition erase_notes (s : session) : session :=
  erase_tx s <| rx_seq_nr_expected := 0 |> <| rx_streaming := false |> <| last_request := 0 |>
    <| stall_reported := false |> <| last_bread_reply := None |>.

(** The session without the write in progress as well *)
Definition erase_write (s : session) : session := reset_write (erase_notes s).

(** An object after an operation that moved its position or filled its caches *)
Definition same_object (a b : file_handle) : Prop :=
  match a, b with
  | F_file f, F_file g => f = g
  | F_image p c f _, F_image q d g _ => p = q /\ c = d /\ f = g
  | F_view _, F_view _ => True
  | F_dir _, F_dir _ => True
  | _, _ => False
  end.

Section effects.
Context {Os : Type} `{HostOs Os} `{Codecs} (cfg : config).
Abbreviation W := (world Os).

(** Operations on the host that do not write, whatever the settings *)
Inductive reads : Os -> Os -> Prop :=
  | rd_read f n o : reads o (snd (f_read f n o))
  | rd_seek f off wh o : reads o (snd (f_seek f off wh o))
  | rd_close f o : reads o (snd (f_close f o))
  | rd_pread f n off o : reads o (snd (os_pread f n off o))
  | rd_open p o : reads o (snd (os_open p m_rb o)).

(** A path that a client name stands for: the file itself or its compressed image *)
Definition named_path (p : str) : Prop :=
  exists path o r c v, look_up cfg path o = Ok (r, c, v) /\
    (match c with Some c => Some c | None => r end) = Some p.

(** An entry that a client path names *)
Definition named_entry (p : str) : Prop := exists path o, resolve_entry cfg path o = Ok (Some p).

(** Operations that change the file system *)
Inductive changes : Os -> Os -> Prop :=
  | ch_makedirs p o : named_path p -> changes o (snd (os_makedirs (dirname p) o))
  | ch_open p m o : read_only cfg = false -> named_path p -> changes o (snd (os_open p m o))
  | ch_mkdir p mode o : read_only cfg = false -> named_entry p -> changes o (snd (os_mkdir p mode o))
  | ch_unlink p o : read_only cfg = false -> named_entry p -> changes o (snd (os_unlink p o))
  | ch_rmdir p o : read_only cfg = false -> named_entry p -> root_dir cfg <> Some p -> changes o (snd (os_rmdir p o)).

(** Operations that store the data of a finished write *)
Inductive stores : Os -> Os -> Prop :=
  | st_write f data o : stores o (snd (f_write f data o))
  | st_flush f o : stores o (snd (f_flush f o))
  | st_seek f off wh o : stores o (snd (f_seek f off wh o))
  | st_pwrite f data off o : stores o (snd (os_pwrite f data off o)).

(** The steps by which a finished write is stored *)
Inductive commits : W -> W -> Prop :=
  | co_transport w w' : transport_eq w w' -> commits w w'
  | co_count w f : commits w (w <| counters ::= f |>)
  | co_reset w : commits w (w <| sess ::= reset_write |>)
  | co_store w o : stores (host w) o -> commits w (w <| host := o |>)
  | co_move w h fh fh' : hget h (handles (sess w)) = Some fh -> same_object fh fh' ->
      commits w (w <| sess ::= fun s => s <| handles ::= hset h fh' |> |>).

(** The elementary effects of a request *)
Inductive effect : W -> W -> Prop :=
  | ef_transport w w' : transport_eq w w' -> effect w w'
  | ef_count w f : effect w (w <| counters ::= f |>)
  | ef_notes w f : (forall s, erase_notes (f s) = erase_notes s) -> effect w (w <| sess ::= f |>)
  | ef_reset w : effect w (w <| sess ::= reset_write |>)
  | ef_arm w f : read_only cfg = false -> (forall s, erase_write (f s) = erase_write s) -> effect w (w <| sess ::= f |>)
  | ef_chunk w f : 0 <= write_handle (sess w) ->
      (forall s, erase_write (f s) = erase_write s /\ write_handle (f s) = write_handle s) -> effect w (w <| sess ::= f |>)
  | ef_commit w w' : 0 <= write_handle (sess w) -> rtc commits w w' -> effect w w'
  | ef_move w h fh fh' : hget h (handles (sess w)) = Some fh -> same_object fh fh' ->
      effect w (w <| sess ::= fun s => s <| handles ::= hset h fh' |> |>)
  | ef_alloc w fh : zlen (handles (sess w)) < MAX_HANDLES ->
      effect w (w <| sess ::= fun s => s <| next_handle ::= Z.add 1 |> <| handles ::= hset (next_handle (sess w)) fh |> |>)
  | ef_free w h : h <> BLOCK_DEVICE_HANDLE ->
      effect w (w <| sess ::= fun s => s <| handles ::= hdel h |> |>)
  | ef_read w o : reads (host w) o -> effect w (w <| host := o |>)
  | ef_change w o : changes (host w) o -> effect w (w <| host := o |>).

(** What a property must satisfy to be kept by every request *)
Lemma effects_keep (P : W -> Prop) {A} (m : M W A) :
  (forall w w', effect w w' -> P w -> P w') -> (forall w0, keeps (rtc effect w0) m) -> keeps P m.
Proof.
  intros HP Hm w r w' Hw Hr. assert (Hs : rtc effect w w') by (eapply Hm; [apply rtc_refl|exact Hr]).
  clear Hr. induction Hs as [|w w1 w' He _ IH]; [done|]. apply IH. by eapply HP.
Qed.

Context (w0 : W).

Abbreviation E := (rtc effect w0).

Lemma eff_step {A} (m : M W A) : (forall w r w', m w = (r, w') -> effect w w') -> keeps E m.
Proof. intros Hm w r w' Hw Hr. eapply rtc_r; [exact Hw|]. by eapply Hm. Qed.

Lemma eff_framed {A} (m : M W A) : framed m -> keeps E m.
Proof. intros Hm. apply eff_step. intros w r w' Hr. by eapply ef_transport, framed_at. Qed.

Lemma eff_count k n : keeps E (count k n).
Proof. apply eff_step. intros w r w' [= _ <-]. apply ef_count. Qed.

Lemma eff_notes f : (forall s, erase_notes (f s) = erase_notes s) -> keeps E (smod f).
Proof. intros Hf. apply eff_step. intros w r w' [= _ <-]. by apply ef_notes. Qed.

Lemma eff_reset : keeps E (smod reset_write).
Proof. apply eff_step. intros w r w' [= _ <-]. apply ef_reset. Qed.

Lemma eff_on_host {A} (m : M Os A) :
  (forall o, reads o (snd (m o)) \/ changes o (snd (m o))) -> keeps E (on_host m).
Proof.
  intros Hm. apply eff_step. intros w r w'. unfold on_host. specialize (Hm (host w)).
  destruct (m (host w)) as [r1 o]. intros [= _ <-].
  destruct Hm; [by apply ef_read|by apply ef_change].
Qed.

Lemma keeps_ask {A} (P : W -> Prop) (f : Os -> result A) : keeps P (ask f).
Proof. by intros w r w' Hw [= _ <-]. Qed.

Lemma keeps_ask_bind {A B} (P : W -> Prop) (f : Os -> result A) (k : A -> M W B) :
  (forall o a, f o = Ok a -> keeps P (k a)) -> keeps P (ask f ≫= k).
Proof.
  intros Hk w r w' Hw. unfold mbind, M_bind, ask. destruct (f (host w)) as [a|e] eqn:Ef.
  - eapply Hk; [exact Ef|exact Hw].
  - by intros [= _ <-].
Qed.

Lemma keeps_on_oserror {A} (P : W -> Prop) (m : M W A) (answer : Z -> M W A) :
  keeps P m -> (forall c, keeps P (answer c)) -> keeps P (on_oserror m answer).
Proof.
  intros Hm Ha. apply keeps_mcatch; [done|]. intros e k. destruct e; try done. intros [= <-].
  apply keeps_bind; [apply keeps_lift|done].
Qed.

Lemma keeps_swallow (P : W -> Prop) (m : M W unit) : keeps P m -> keeps P (swallow m).
Proof.
  intros Hm. apply keeps_mcatch; [done|]. intros e k. destruct e; try done; intros [= <-]; apply keeps_ret.
Qed.
End effects.

#[export] Hint Resolve eff_count eff_reset keeps_ask keeps_on_oserror keeps_swallow : keeps.

(** ** From one property to another *)

Section from.
Context {S : Type}.

(** From a state with [P], [m] leaves one with [Q], whether or not it raises. *)
Definition from {A} (P Q : S -> Prop) (m : M S A) : Prop := forall s r s', P s -> m s = (r, s') -> Q s'.

Lemma from_bind {A B} (P Q R : S -> Prop) (m : M S A) (k : A -> M S B) :
  from P Q m -> (forall s, Q s -> R s) -> (forall a, from Q R (k a)) -> from P R (m ≫= k).
Proof.
  intros Hm HQ Hk s r s' Hs. unfold mbind, M_bind. destruct (m s) as [[a|e] s1] eqn:E; intros Hr.
  - eapply Hk; [|exact Hr]. by eapply Hm.
  - injection Hr as <- <-. apply HQ. by eapply Hm.
Qed.

Lemma from_keeps {A} (P Q : S -> Prop) (m : M S A) : (forall s, P s -> Q s) -> keeps Q m -> from P Q m.
Proof. intros HP Hm s r s' Hs. apply Hm. auto. Qed.

Lemma from_mcatch {A} (P Q : S -> Prop) (m : M S A) h :
  from P Q m -> (forall e k, h e = Some k -> keeps Q k) -> from P Q (mcatch m h).
Proof.
  intros Hm Hh s r s' Hs. unfold mcatch. destruct (m s) as [[a|e] s1] eqn:E.
  - intros [= _ <-]. by eapply Hm.
  - destruct (h e) as [k|] eqn:Ek; [|intros [= _ <-]; by eapply Hm].
    intros Hr. eapply (Hh e k Ek); [|exact Hr]. by eapply Hm.
Qed.

Lemma from_on_oserror {A} (P Q : S -> Prop) (m : M S A) (answer : Z -> M S A) :
  from P Q m -> (forall c, keeps Q (answer c)) -> from P Q (on_oserror m answer).
Proof.
  intros Hm Ha. apply from_mcatch; [done|]. intros e k. destruct e; try done. intros [= <-].
  apply keeps_bind; [apply keeps_lift|done].
Qed.
End from.

Section objects.
Context {Os : Type} `{HostOs Os} `{Codecs} (cfg : config) (sock_of : session -> socket) (w0 : world Os).
Abbreviation W := (world Os).
Abbreviation E := (rtc (effect cfg) w0).

(** With handle [h] holding [fh] *)
Definition holding (P : W -> Prop) (h : Z) (fh : option file_handle) (w : W) : Prop :=
  P w /\ hget h (handles (sess w)) = fh.

Lemma get_handle_bind {B} (P : W -> Prop) h (k : option file_handle -> M W B) :
  (forall fh, from (holding P h fh) P (k fh)) -> keeps P (get_handle h ≫= k).
Proof. intros Hk w r w' Hw Hr. eapply Hk; [|exact Hr]. by split. Qed.

Lemma keeps_get_handle (P : W -> Prop) h : keeps P (get_handle h).
Proof. apply keeps_sget. Qed.

Lemma holding_keeps {B} (P : W -> Prop) h fh (m : M W B) : keeps P m -> from (holding P h fh) P m.
Proof. apply from_keeps. by intros w [? _]. Qed.

Lemma eff_move h fh fh' : same_object fh fh' -> from (holding E h (Some fh)) E (put_handle h fh').
Proof.
  intros Hs w r w' [Hw Hg] [= _ <-]. eapply rtc_r; [exact Hw|]. by apply ef_move with fh.
Qed.

Lemma eff_obj_read h fh n : from (holding E h (Some fh)) E (obj_read h fh n).
Proof.
  destruct fh as [f|p c f b|v|d]; cbn [obj_read].
  - apply holding_keeps, eff_on_host. intros o. left. constructor.
  - destruct (Base.read _ n b) as [r b']. eapply from_bind; [by apply eff_move|done|]. intros _. apply keeps_lift.
  - destruct (stream_read n v) as [r v']. eapply from_bind; [by apply eff_move|done|]. intros _. apply keeps_lift.
  - apply holding_keeps, keeps_raise.
Qed.

Lemma eff_obj_seek h fh off whence : from (holding E h (Some fh)) E (obj_seek h fh off whence).
Proof.
  destruct fh as [f|p c f b|v|d]; cbn [obj_seek].
  - apply holding_keeps, eff_on_host. intros o. left. constructor.
  - destruct (Base.seek off whence b) as [r b']. eapply from_bind; [by apply eff_move|done|]. intros _. apply keeps_lift.
  - destruct (stream_seek off whence v) as [r v']. eapply from_bind; [by apply eff_move|done|]. intros _. apply keeps_lift.
  - apply holding_keeps, keeps_raise.
Qed.

Lemma eff_fh_close fh : keeps E (fh_close fh).
Proof. destruct fh; cbn; [|apply keeps_ret..]. apply eff_on_host. intros o. left. constructor. Qed.

Lemma keeps_writable (P : W -> Prop) fh : keeps P (writable fh).
Proof.
  destruct fh; cbn; [|apply keeps_ret..]. apply keeps_mcatch; [apply keeps_ask|].
  intros e k. destruct e; try done; intros [= <-]; apply keeps_ret.
Qed.

Lemma eff_alloc_handle fh : keeps E (alloc_handle fh).
Proof.
  apply eff_step. intros w r w'. unfold alloc_handle, sget, mget, smod, mmod, mbind, M_bind, mret, M_ret. cbn.
  destruct (Z.leb_spec MAX_HANDLES (zlen (handles (sess w)))) as [|Hlt]; intros [= _ <-].
  - by apply ef_transport.
  - by apply ef_alloc.
Qed.

Lemma eff_free_handle h : keeps E (free_handle h).
Proof.
  unfold free_handle. destruct (Z.eqb_spec h BLOCK_DEVICE_HANDLE) as [|Hh]; [apply keeps_ret|].
  apply keeps_bind; [apply keeps_sget|]. intros [fh|]; [|apply keeps_ret].
  apply keeps_bind; [apply keeps_swallow, eff_fh_close|]. intros _.
  apply eff_step. intros w r w' [= _ <-]. by apply ef_free.
Qed.

Lemma eff_block_read off n : keeps E (block_read cfg off n).
Proof.
  unfold block_read. destruct (if has_pread cfg then bd_fd cfg else None) as [fd|]; [|destruct (bd_fh cfg) as [f|]].
  - apply eff_on_host. intros o. left. constructor.
  - apply keeps_bind; [|intros _]; apply eff_on_host; intros o; left; constructor.
  - apply keeps_raise.
Qed.
End objects.

#[export] Hint Resolve keeps_get_handle eff_fh_close keeps_writable eff_alloc_handle eff_free_handle eff_block_read : keeps.

(** ** Replies *)

Section replies.
Context {Os : Type} `{HostOs Os} `{Codecs} (cfg : config) (sock_of : session -> socket) (w0 : world Os).
Abbreviation W := (world Os).

Lemma framed_send_packed a fvs rest : keeps (transport_eq w0) (send_packed cfg sock_of a fvs rest).
Proof. unfold send_packed. keep. Qed.
#[local] Hint Resolve framed_send_packed : keeps.

Lemma framed_send_open_reply a h si : keeps (transport_eq w0) (send_open_reply cfg sock_of a h si).
Proof. unfold send_open_reply. keep. Qed.
Lemma framed_send_result a m r : keeps (transport_eq w0) (send_result cfg sock_of a m r).
Proof. unfold send_result. keep. Qed.
#[local] Hint Resolve framed_send_result : keeps.
Lemma framed_send_close_reply a r : keeps (transport_eq w0) (send_close_reply cfg sock_of a r).
Proof. unfold send_close_reply. keep. Qed.
Lemma framed_send_result_reply a r : keeps (transport_eq w0) (send_result_reply cfg sock_of a r).
Proof. unfold send_result_reply. keep. Qed.
Lemma framed_send_write_done a r : keeps (transport_eq w0) (send_write_done cfg sock_of a r).
Proof. unfold send_write_done. keep. Qed.
Lemma framed_send_read_result a r d : keeps (transport_eq w0) (send_read_result cfg sock_of a r d).
Proof. unfold send_read_result. keep. Qed.
Lemma framed_send_lseek_reply a p : keeps (transport_eq w0) (send_lseek_reply cfg sock_of a p).
Proof. unfold send_lseek_reply. keep. Qed.
Lemma framed_send_dread_reply a r n si : keeps (transport_eq w0) (send_dread_reply cfg sock_of a r n si).
Proof. unfold send_dread_reply. keep. Qed.
Lemma framed_send_getstat_reply a r si : keeps (transport_eq w0) (send_getstat_reply cfg sock_of a r si).
Proof. unfold send_getstat_reply. keep. Qed.
End replies.

#[export] Hint Resolve framed_send_packed framed_send_open_reply framed_send_result framed_send_close_reply
  framed_send_result_reply framed_send_write_done framed_send_read_result framed_send_lseek_reply
  framed_send_dread_reply framed_send_getstat_reply : keeps.

(** A call that only sends is an effect. *)
#[export] Hint Extern 3 (keeps (rtc (effect _) _) _) => (apply eff_framed; intros ?; solve [eauto 2 with keeps]) : keeps.

Ltac eff_step' :=
  match goal with
  | |- forall _, _ => intros ?
  | |- keeps _ (mbind _ _) => apply keeps_bind
  | |- keeps _ (match ?x with _ => _ end) => destruct x
  | |- keeps _ (let _ := _ in _) => cbv zeta
  | |- keeps _ (mwhen _ _) => apply keeps_mwhen
  | |- keeps _ (on_oserror _ _) => apply keeps_on_oserror
  | |- keeps _ (swallow _) => apply keeps_swallow
  | |- keeps _ (smod reset_write) => apply eff_reset
  | |- keeps (rtc (effect _) _) (smod _) => apply eff_notes; done
  | |- keeps _ _ => solve [eauto 3 with keeps]
  end.
Ltac eff := repeat eff_step'.

Section requests.
Context {Os : Type} `{HostOs Os} `{Codecs} (cfg : config) (sock_of : session -> socket) (w0 : world Os).
Abbreviation W := (world Os).
Abbreviation E := (rtc (effect cfg) w0).

Lemma sget_bind {B} (P : W -> Prop) (k : session -> M W B) :
  (forall s, from (fun w => P w /\ sess w = s) P (k s)) -> keeps P (sget id ≫= k).
Proof. intros Hk w r w' Hw Hr. eapply Hk; [|exact Hr]. by split. Qed.

Lemma from_if {A} (P Q : W -> Prop) (b : bool) (m n : M W A) : from P Q m -> from P Q n -> from P Q (if b then m else n).
Proof. by destruct b. Qed.

(** *** Storing a finished write *)

Section storing.
Context (w1 : W).
Abbreviation C := (rtc commits w1).

Lemma com_step {A} (m : M W A) : (forall w r w', m w = (r, w') -> commits w w') -> keeps C m.
Proof. intros Hm w r w' Hw Hr. eapply rtc_r; [exact Hw|]. by eapply Hm. Qed.
Lemma com_framed {A} (m : M W A) : framed m -> keeps C m.
Proof. intros Hm. apply com_step. intros w r w' Hr. by eapply co_transport, framed_at. Qed.
Lemma com_count k n : keeps C (count k n).
Proof. apply com_step. intros w r w' [= _ <-]. apply co_count. Qed.
Lemma com_on_host {A} (m : M Os A) : (forall o, stores o (snd (m o))) -> keeps C (on_host m).
Proof.
  intros Hm. apply com_step. intros w r w'. unfold on_host. specialize (Hm (host w)).
  destruct (m (host w)) as [r1 o]. intros [= _ <-]. by apply co_store.
Qed.
Lemma com_obj_write fh d : keeps C (obj_write fh d).
Proof. destruct fh; cbn; [|apply keeps_raise..]. apply com_on_host. intros o. constructor. Qed.
Lemma com_obj_flush fh : keeps C (obj_flush fh).
Proof. destruct fh; cbn; [|apply keeps_raise..]. apply com_on_host. intros o. constructor. Qed.
Lemma com_send_write_done a r : keeps C (send_write_done cfg sock_of a r).
Proof. apply com_framed. intros ?. apply framed_send_write_done. Qed.
Lemma com_block_write off d : keeps C (block_write cfg off d).
Proof.
  unfold block_write. destruct (if has_pwrite cfg then bd_fd cfg else None) as [fd|]; [|destruct (bd_fh cfg) as [f|]].
  - apply com_on_host. intros o. constructor.
  - repeat (apply keeps_bind; [apply com_on_host; intros o; constructor|intros ?]). apply keeps_ret.
  - apply keeps_raise.
Qed.
Lemma com_obj_seek h fh off whence : from (holding C h (Some fh)) C (obj_seek h fh off whence).
Proof.
  destruct fh as [f|p c f b|v|d]; cbn [obj_seek].
  - apply holding_keeps, com_on_host. intros o. constructor.
  - destruct (Base.seek off whence b) as [r b']. eapply from_bind with C; [|done|intros _; apply keeps_lift].
    intros w r1 w' [Hw Hg] [= _ <-]. eapply rtc_r; [exact Hw|]. by eapply co_move.
  - destruct (stream_seek off whence v) as [r v']. eapply from_bind with C; [|done|intros _; apply keeps_lift].
    intros w r1 w' [Hw Hg] [= _ <-]. eapply rtc_r; [exact Hw|]. by eapply co_move.
  - apply holding_keeps, keeps_raise.
Qed.
#[local] Hint Resolve com_count com_obj_write com_obj_flush com_send_write_done com_block_write : keeps.

Lemma com_reset_holding s h : from (fun w => C w /\ sess w = s) (holding C h (hget h (handles s))) (smod reset_write).
Proof. intros w r w' [Hw <-] [= _ <-]. split; [|done]. eapply rtc_r; [exact Hw|]. apply co_reset. Qed.

Lemma com_complete_write a : keeps C (complete_write cfg sock_of a).
Proof.
  unfold complete_write. apply sget_bind. intros s.
  eapply from_bind with (holding C 0 (hget 0 (handles s))); [apply com_reset_holding|by intros w [? _]|].
  intros _. apply holding_keeps. eff.
Qed.

Lemma com_complete_bwrite a : keeps C (complete_bwrite cfg sock_of a).
Proof.
  unfold complete_bwrite. apply sget_bind. intros s.
  eapply from_bind with (holding C (write_handle s) (hget (write_handle s) (handles s)));
    [apply com_reset_holding|by intros w [? _]|].
  intros _. cbv zeta. destruct (hget (write_handle s) (handles s)) as [fh|] eqn:Hh; cbn [plain_handle];
    [destruct (is_dir fh)|]; try solve [apply holding_keeps; eauto with keeps].
  apply from_on_oserror; [|eauto with keeps].
  eapply from_bind with C; [|done|intros _; apply from_keeps; [done|eff]].
  apply from_if; [apply holding_keeps; eff|].
  eapply from_bind with C; [apply com_obj_seek|done|intros _; apply from_keeps; [done|eff]].
Qed.
End storing.

Lemma eff_commit {A} (m : M W A) :
  (forall w1, keeps (rtc commits w1) m) -> from (fun w => E w /\ 0 <= write_handle (sess w)) E m.
Proof.
  intros Hm w r w' [Hw Hh] Hr. eapply rtc_r; [exact Hw|]. apply ef_commit; [done|].
  eapply Hm; [apply rtc_refl|exact Hr].
Qed.

Lemma eff_handle_write_data a payload : keeps E (handle_write_data cfg sock_of a payload).
Proof.
  unfold handle_write_data. destruct (_ <? 8); [eauto with keeps|].
  apply keeps_bind; [apply keeps_lift|intros vs]. cbv zeta. apply sget_bind. intros s.
  destruct (Z.ltb_spec (write_handle s) 0) as [|Hs]; [apply from_keeps; [by intros ? [? _]|eauto with keeps]|].
  destruct (negb _); [apply from_keeps; [by intros ? [? _]|eauto with keeps]|].
  destruct (_ <? _); [apply from_keeps; [by intros ? [? _]|eff]|].
  eapply from_bind with (fun w => E w /\ 0 <= write_handle (sess w)); [|by intros w [? _]|].
  { intros w r w' [Hw <-] [= _ <-]. split; [|done]. eapply rtc_r; [exact Hw|]. by apply ef_chunk. }
  intros _ w r w' Hw Hr. unfold mbind, M_bind, sget, mget in Hr. cbn in Hr. revert Hr.
  destruct (_ <=? _); [destruct (write_is_block _)|]; revert w r w' Hw.
  - refine (eff_commit _ _). intros w1. apply com_complete_bwrite.
  - refine (eff_commit _ _). intros w1. apply com_complete_write.
  - refine (from_keeps _ _ _ _ _); [by intros ? [? _]|eauto with keeps].
Qed.
End requests.

#[export] Hint Resolve eff_handle_write_data : keeps.

(** *** The handlers *)

Section handlers.
Context {Os : Type} `{HostOs Os} `{Codecs} (cfg : config) (sock_of : session -> socket) (w0 : world Os).
Abbreviation W := (world Os).
Abbreviation E := (rtc (effect cfg) w0).

Lemma eff_open_directory a r : keeps E (open_directory cfg sock_of a r).
Proof. unfold open_directory. eff. Qed.

Lemma eff_open_virtual a flags v : keeps E (open_virtual cfg sock_of a flags v).
Proof.
  unfold open_virtual. destruct (_ || _); [eff|]. apply keeps_mcatch; [eff|].
  intros e k. destruct e; try done; intros [= <-]; eauto with keeps.
Qed.

Lemma eff_open_image a p : keeps E (open_image cfg sock_of a p).
Proof.
  unfold open_image. apply keeps_bind; [|eff]. apply keeps_mcatch; [eff|].
  intros e k. destruct e; try done; intros [= <-]; apply keeps_ret.
Qed.

Lemma eff_open_plain a p m :
  named_path cfg p -> (read_only cfg = true -> m = m_rb) -> keeps E (open_plain cfg sock_of a p m).
Proof.
  intros Hp Hm. unfold open_plain. apply keeps_bind.
  - apply eff_on_host. intros o. destruct (read_only cfg) eqn:Hro.
    + left. rewrite (Hm eq_refl). constructor.
    + right. by constructor.
  - intros f. assert (keeps E (on_host (f_close f))) by (apply eff_on_host; intros o; left; constructor). eff.
Qed.

Lemma read_flags_mode flags there :
  (read_only cfg && negb (Z.land flags 2 =? 0)) = false -> read_only cfg = true -> flags_to_mode flags there = m_rb.
Proof.
  intros Hr Ht. rewrite Ht in Hr. cbn [andb] in Hr. apply negb_false_iff, Z.eqb_eq in Hr. unfold flags_to_mode.
  assert (Ha : Z.land flags 3 = Z.land flags 1).
  { change 3 with (Z.lor 1 2). rewrite Z.land_lor_distr_r, Hr. apply Z.lor_0_r. }
  rewrite Ha, (land_mask flags 1 1) by done. change (2 ^ 1) with 2.
  pose proof (Z.mod_pos_bound flags 2 ltac:(lia)).
  assert (flags mod 2 = 0 \/ flags mod 2 = 1) as [-> | ->] by lia; done.
Qed.

Lemma eff_open_file a flags r c v path o :
  look_up cfg path o = Ok (r, c, v) -> (r, c, v) <> (None, None, None) ->
  keeps E (open_file cfg sock_of a flags r c v).
Proof.
  intros Hl Hn. unfold open_file. destruct (read_only cfg && _) eqn:Hro; [eff|].
  destruct v as [v|]; [apply eff_open_virtual|]. cbv zeta.
  assert (Hnamed : named_path cfg (default [] (match c with Some c => Some c | None => r end))).
  { exists path, o, r, c, None. split; [done|]. by destruct c, r. }
  apply keeps_bind; [eff|intros there].
  match goal with |- keeps _ (if ?b then _ else _) => destruct b end; [eff|].
  apply keeps_on_oserror; [|eff].
  apply keeps_bind; [eff|intros parent]. apply keeps_bind.
  - apply keeps_mwhen, eff_on_host. intros o1. right. by constructor.
  - intros _. destruct c as [c|]; [apply eff_open_image|]. apply eff_open_plain; [done|].
    by apply read_flags_mode.
Qed.

Lemma eff_handle_open a payload : keeps E (handle_open cfg sock_of a payload).
Proof.
  unfold handle_open. destruct (_ <? 8); [eff|].
  apply keeps_bind; [apply keeps_lift|intros vs]. cbv zeta.
  apply keeps_bind; [eff|intros _]. apply keeps_bind; [eff|intros _].
  apply keeps_ask_bind. intros o [[r c] v] Hl.
  assert ((r, c, v) = (None, None, None) \/ (r, c, v) <> (None, None, None)) as [[= -> -> ->]|Hn]
    by (destruct r, c, v; auto; right; congruence); [eff|].
  assert (Hk : keeps E (if negb (nth 1 vs 0 =? 0) then open_directory cfg sock_of a r
                        else open_file cfg sock_of a (nth 2 vs 0) r c v)).
  { destruct (negb _); [apply eff_open_directory|by eapply eff_open_file]. }
  destruct r, c, v; try done.
Qed.

Lemma eff_handle_close a payload : keeps E (handle_close cfg sock_of a payload).
Proof. unfold handle_close. eff. Qed.

Lemma plain_object (fh : option file_handle) p : plain_handle fh = Some p -> fh = Some p.
Proof. destruct fh as [fh|]; cbn; [|done]. by destruct (is_dir fh). Qed.

Lemma eff_handle_read a payload : keeps E (handle_read cfg sock_of a payload).
Proof.
  unfold handle_read. destruct (_ <? 12); [eff|]. apply keeps_bind; [apply keeps_lift|intros vs]. cbv zeta.
  do 2 (apply keeps_bind; [eff|intros _]). destruct (_ <? _); [eff|].
  apply get_handle_bind. intros fh. destruct (plain_handle fh) as [p|] eqn:Hp; [|apply holding_keeps; eff].
  apply plain_object in Hp as ->. apply from_on_oserror; [|eff].
  eapply from_bind with E; [apply eff_obj_read|done|]. intros data. apply from_keeps; [done|eff].
Qed.

Lemma eff_handle_lseek a payload : keeps E (handle_lseek cfg sock_of a payload).
Proof.
  unfold handle_lseek. destruct (_ <? 16); [eff|]. apply keeps_bind; [apply keeps_lift|intros vs]. cbv zeta.
  apply keeps_bind; [eff|intros _].
  apply get_handle_bind. intros fh. destruct (plain_handle fh) as [p|] eqn:Hp; [|apply holding_keeps; eff].
  apply plain_object in Hp as ->. apply from_mcatch.
  - eapply from_bind with E; [apply eff_obj_seek|done|]. intros pos. apply from_keeps; [done|eff].
  - intros e k. destruct e; try done; intros [= <-]; eff.
Qed.

Lemma eff_arm f : read_only cfg = false -> (forall s, erase_write (f s) = erase_write s) -> keeps E (smod f).
Proof. intros Hro Hf. apply eff_step. intros w r w' [= _ <-]. by apply ef_arm. Qed.

Lemma eff_handle_write_req a payload : keeps E (handle_write_req cfg sock_of a payload).
Proof.
  unfold handle_write_req. apply keeps_bind; [apply eff_reset|intros _]. destruct (_ <? 12); [eff|].
  apply keeps_bind; [apply keeps_lift|intros vs]. cbv zeta. do 2 (apply keeps_bind; [eff|intros _]).
  destruct (read_only cfg) eqn:Hro; [eff|]. destruct (_ <? _); [eff|].
  apply keeps_bind; [eff|intros fh]. destruct (plain_handle fh); [|eff].
  apply keeps_bind; [eff|intros ok]. destruct (negb ok); [eff|].
  apply keeps_bind; [by apply eff_arm|intros _]. eff.
Qed.

Lemma eff_handle_bwrite_req a payload : keeps E (handle_bwrite_req cfg sock_of a payload).
Proof.
  unfold handle_bwrite_req. apply keeps_bind; [apply eff_reset|intros _]. destruct (_ <? 16); [eff|].
  apply keeps_bind; [apply keeps_lift|intros [[count_ handle] sector]]. do 2 (apply keeps_bind; [eff|intros _]).
  destruct (read_only cfg) eqn:Hro; [eff|].
  apply keeps_bind; [eff|intros fh]. destruct (plain_handle fh); [|eff].
  apply keeps_bind; [eff|intros ok]. destruct (negb ok); [eff|]. cbv zeta.
  destruct (_ <? _); [eff|]. destruct (_ <? _); [eff|].
  apply keeps_bind; [by apply eff_arm|intros _]. eff.
Qed.

Lemma eff_handle_bread a payload : keeps E (handle_bread cfg sock_of a payload).
Proof.
  unfold handle_bread. destruct (_ <? 16); [eff|]. apply keeps_bind; [apply keeps_lift|intros [[count_ handle] sector]].
  do 2 (apply keeps_bind; [eff|intros _]).
  apply get_handle_bind. intros fh. destruct (plain_handle fh) as [p|] eqn:Hp; [|apply holding_keeps; eff].
  apply plain_object in Hp as ->. cbv zeta. destruct (_ || _); [apply holding_keeps; eff|].
  eapply from_bind with E; [|done|intros [data|]; apply from_keeps; [done|eff|done|eff]].
  apply from_on_oserror; [|eff].
  eapply from_bind with E; [|done|intros data; apply from_keeps; [done|eff]].
  apply from_if; [apply holding_keeps; eff|].
  eapply from_bind with E; [apply eff_obj_seek|done|]. intros pos. apply from_keeps; [done|].
  apply get_handle_bind. intros [fh|]; [apply eff_obj_read|apply holding_keeps; eff].
Qed.

Lemma eff_handle_dread a payload : keeps E (handle_dread cfg sock_of a payload).
Proof.
  unfold handle_dread. destruct (_ <? 8); [eff|]. apply keeps_bind; [apply keeps_lift|intros vs]. cbv zeta.
  apply keeps_bind; [eff|intros _].
  apply get_handle_bind. intros fh. destruct fh as [[| | |d]|]; try solve [apply holding_keeps; eff].
  eapply from_bind with (holding E (nth 4 vs 0) (Some (F_dir d))); [by intros w r w' Hw [= _ <-]|by intros w [? _]|].
  intros o. destruct (next_entry _ d o) as [r d'].
  eapply from_bind with E; [by apply eff_move|done|]. intros _. apply from_keeps; [done|eff].
Qed.

Lemma eff_handle_getstat a payload : keeps E (handle_getstat cfg sock_of a payload).
Proof. unfold handle_getstat. eff. Qed.

Lemma eff_handle_mkdir a payload : keeps E (handle_mkdir cfg sock_of a payload).
Proof.
  unfold handle_mkdir. destruct (_ <? 4); [eff|]. apply keeps_bind; [apply keeps_lift|intros vs]. cbv zeta.
  apply keeps_bind; [eff|intros _]. destruct (read_only cfg) eqn:Hro; [eff|].
  apply keeps_ask_bind. intros o [p|] Hp; [|eff]. apply keeps_on_oserror; [|eff].
  apply keeps_bind; [|eff]. apply eff_on_host. intros o1. right. constructor; [done|]. by eexists _, _.
Qed.

Lemma eff_handle_remove a payload : keeps E (handle_remove cfg sock_of a payload).
Proof.
  unfold handle_remove. destruct (_ <? 4); [eff|]. cbv zeta.
  apply keeps_bind; [eff|intros _]. destruct (read_only cfg) eqn:Hro; [eff|].
  apply keeps_ask_bind. intros o [p|] Hp; [|eff]. apply keeps_on_oserror; [|eff].
  apply keeps_bind; [eff|intros linked]. destruct linked; [eff|].
  apply keeps_bind; [eff|intros st]. destruct (S_ISDIR st); [eff|].
  apply keeps_bind; [|eff]. apply eff_on_host. intros o1. right. constructor; [done|]. by eexists _, _.
Qed.

Lemma eff_handle_rmdir a payload : keeps E (handle_rmdir cfg sock_of a payload).
Proof.
  unfold handle_rmdir. destruct (_ <? 4); [eff|]. cbv zeta.
  apply keeps_bind; [eff|intros _]. destruct (read_only cfg) eqn:Hro; [eff|].
  apply keeps_ask_bind. intros o [p|] Hp; [|eff].
  destruct (bool_decide_reflect (root_dir cfg = Some p)) as [|Hroot]; [eff|]. apply keeps_on_oserror; [|eff].
  apply keeps_bind; [eff|intros linked]. destruct linked; [eff|].
  apply keeps_bind; [eff|intros st]. destruct (negb _); [eff|].
  apply keeps_bind; [|eff]. apply eff_on_host. intros o1. right. constructor; [done| |done]. by eexists _, _.
Qed.

Lemma eff_dispatch a t payload : keeps E (dispatch cfg sock_of a t payload).
Proof.
  unfold dispatch.
  repeat match goal with |- keeps _ (if ?b then _ else _) => destruct b end;
    eauto using eff_handle_open, eff_handle_close, eff_handle_read, eff_handle_write_req, eff_handle_write_data,
      eff_handle_lseek, eff_handle_dread, eff_handle_getstat, eff_handle_mkdir, eff_handle_remove, eff_handle_rmdir,
      eff_handle_bread, eff_handle_bwrite_req with keeps.
Qed.
End handlers.

(** ** A datagram as a sequence of effects *)

Section data.
Context {Os : Type} `{HostOs Os} `{Codecs} (cfg : config) (sock_of : session -> socket).
Abbreviation W := (world Os).

Lemma eff_accept_data w0 a payload : keeps (rtc (effect cfg) w0) (accept_data cfg sock_of a payload).
Proof.
  unfold accept_data. apply keeps_bind; [eff|intros now]. apply keeps_bind; [apply eff_notes; done|intros _].
  apply keeps_bind; [eff|intros _]. destruct payload as [|t payload]; [eff|apply eff_dispatch].
Qed.

Lemma eff_handle_data w0 a data : keeps (rtc (effect cfg) w0) (handle_data cfg sock_of a data).
Proof.
  unfold handle_data. destruct (_ <? 6); [eff|].
  apply keeps_bind; [apply keeps_lift|intros hdr]. destruct (negb _); [eff|].
  apply keeps_bind; [apply keeps_lift|intros h]. cbv zeta. apply keeps_bind; [eff|intros _].
  destruct (_ =? 0); [eff|]. apply keeps_bind; [eff|intros s].
  destruct (_ =? _); [apply eff_accept_data|]. destruct (_ =? _); [eff|]. destruct (_ =? 0); [|eff].
  apply keeps_bind; [apply eff_notes; done|intros _; apply eff_accept_data].
Qed.

(** *** Read-only servers *)

Lemma erase_field {A} (f : session -> A) (g : session -> session) s s' :
  (forall s, f (g s) = f s) -> g s = g s' -> f s = f s'.
Proof. intros Hf Hg. by rewrite <- (Hf s), Hg. Qed.

Lemma transport_write_handle (w w' : W) : transport_eq w w' -> write_handle (sess w') = write_handle (sess w).
Proof. intros (_ & _ & He). by apply (erase_field write_handle erase_tx). Qed.

(** C7. A read-only server does nothing to the host but read, with one exception: an OPEN with
    O_CREAT may make the missing parent folders of the name before it is refused.  Let [Q] be
    any property of the host that reading, seeking, closing, opening for reading and the
    creation of such parent folders respect.  Then every datagram of every client, in any
    session with no write in progress, respects [Q] and starts no write (a session begins
    without one, so this holds of all the datagrams of a session): no file is opened for
    writing, written, flushed, deleted, no folder made by MKDIR or removed, and the block
    device is not written. *)
Theorem read_only_respects (Q : Os -> Prop) a data (w : W) r w' :
  read_only cfg = true ->
  (forall o o', reads o o' -> Q o -> Q o') ->
  (forall p o, named_path cfg p -> Q o -> Q (snd (os_makedirs (dirname p) o))) ->
  write_handle (sess w) < 0 -> Q (host w) ->
  handle_data cfg sock_of a data w = (r, w') ->
  Q (host w') /\ write_handle (sess w') < 0.
Proof.
  intros Hro Hread Hdirs Hh Hq Hr.
  refine (effects_keep cfg (fun w => Q (host w) /\ write_handle (sess w) < 0) _ _ (fun w0 => eff_handle_data w0 a data)
            w r w' (conj Hq Hh) Hr).
  clear -Hro Hread Hdirs. intros w w' He [Hq Hh].
  destruct He as [w w' Ht|w f|w f Hf|w|w f Hw Hf|w f Hw Hf|w w' Hw Hc|w h fh fh' Hg Hs|w fh Hl|w h Hne|w o Ho|w o Ho];
    cbn; try done; try lia; try congruence.
  - destruct Ht as (E1 & E2 & E3). rewrite E1. split; [done|]. by rewrite (transport_write_handle w w').
  - split; [done|]. by rewrite (erase_field write_handle erase_notes (f (sess w)) (sess w)).
  - split; [|done]. by eapply Hread.
  - split; [|done]. destruct Ho; try congruence. by apply Hdirs.
Qed.

(** *** The table of handles *)

(** At most [MAX_HANDLES] handles, each with its own number below the next one to be
    given out; numbers are given out from 1 up, 0 being the block device's. *)
Record table_ok (s : session) : Prop := {
  tb_nodup : NoDup (map fst (handles s));
  tb_size : zlen (handles s) <= MAX_HANDLES;
  tb_keys : Forall (fun kv => 0 <= fst kv < next_handle s) (handles s);
  tb_next : 1 <= next_handle s
}.

Lemma hset_present h fh l fh0 : hget h l = Some fh0 -> map fst (hset h fh l) = map fst l.
Proof.
  induction l as [|[k f] l IH]; [done|]. cbn [hget hset]. destruct (Z.eqb_spec k h) as [->|]; [done|].
  intros Hg. cbn. by rewrite IH.
Qed.

Lemma hset_absent h fh l : Forall (fun kv => fst kv < h) l -> hset h fh l = l ++ [(h, fh)].
Proof.
  induction 1 as [|[k f] l Hk _ IH]; [done|]. cbn [hset fst] in *. destruct (Z.eqb_spec k h); [lia|]. by rewrite IH.
Qed.

Lemma hget_hset h h' fh l : hget h (hset h' fh l) = if h' =? h then Some fh else hget h l.
Proof.
  induction l as [|[k f] l IH]; cbn [hget hset]; [done|].
  destruct (Z.eqb_spec k h') as [->|]; cbn [hget].
  - by destruct (h' =? h).
  - rewrite IH. destruct (Z.eqb_spec k h) as [->|]; [|done]. by rewrite (proj2 (Z.eqb_neq h' h)).
Qed.

Lemma hget_hdel h h' l : h <> h' -> hget h (hdel h' l) = hget h l.
Proof.
  intros Hne. unfold hdel. induction l as [|[k f] l IH]; [done|]. cbn [List.filter fst hget].
  destruct (Z.eqb_spec k h') as [->|]; cbn [negb hget]; [|by rewrite IH].
  rewrite IH. by rewrite (proj2 (Z.eqb_neq h' h)).
Qed.

Lemma filter_keys_nodup (f : Z * file_handle -> bool) l : NoDup (map fst l) -> NoDup (map fst (List.filter f l)).
Proof.
  induction l as [|[k fh] l IH]; [done|]. cbn [map fst List.filter]. intros [Hk Hl]%NoDup_cons.
  destruct (f _); [|by apply IH]. cbn. apply NoDup_cons. split; [|by apply IH].
  intros Hin. apply Hk. apply list_elem_of_In, in_map_iff in Hin as (x & Hx & [Hin _]%List.filter_In).
  apply list_elem_of_In, in_map_iff. by exists x.
Qed.

Lemma zlen_keys {A} (l : list (Z * A)) : zlen (map fst l) = zlen l.
Proof. apply zlen_map. Qed.

Lemma table_same s s' : handles s' = handles s -> next_handle s' = next_handle s -> table_ok s -> table_ok s'.
Proof. intros E1 E2 [? ? ? ?]. split; by rewrite ?E1, ?E2. Qed.

Lemma table_move s h fh fh0 : hget h (handles s) = Some fh0 -> table_ok s -> table_ok (s <| handles ::= hset h fh |>).
Proof.
  intros Hg [Hn Hs Hk Hx]. split; cbn; [by rewrite (hset_present _ _ _ _ Hg)| | |done].
  - by rewrite <- zlen_keys, (hset_present _ _ _ _ Hg), zlen_keys.
  - apply Forall_map with (f := fst) (P := fun k => 0 <= k < next_handle s).
    rewrite (hset_present _ _ _ _ Hg). by apply Forall_map.
Qed.

Lemma table_alloc s fh :
  zlen (handles s) < MAX_HANDLES -> table_ok s ->
  table_ok (s <| next_handle ::= Z.add 1 |> <| handles ::= hset (next_handle s) fh |>).
Proof.
  intros Hl [Hn Hs Hk Hx].
  assert (Hlt : Forall (fun kv => fst kv < next_handle s) (handles s)) by (eapply Forall_impl; [exact Hk|]; cbn; lia).
  split; cbn; rewrite ?(hset_absent _ _ _ Hlt); [| | |lia].
  - rewrite map_app. cbn. apply NoDup_app. split_and!; [done| |apply NoDup_singleton].
    intros k Hin Hk'. apply list_elem_of_singleton in Hk' as ->. apply list_elem_of_In, in_map_iff in Hin as ([k f] & Hkf & Hin).
    apply list_elem_of_In in Hin. pose proof (proj1 (Forall_forall _ _) Hlt _ Hin). cbn in *. lia.
  - rewrite zlen_app. change (zlen [_]) with 1. lia.
  - apply Forall_app. split; [eapply Forall_impl; [exact Hk|]; cbn; lia|]. apply Forall_singleton. cbn. lia.
Qed.

Lemma table_free s h : table_ok s -> table_ok (s <| handles ::= hdel h |>).
Proof.
  intros [Hn Hs Hk Hx]. split; cbn; [by apply filter_keys_nodup| | |done].
  - unfold hdel, zlen in *. pose proof (List.filter_length_le (fun kv => negb (fst kv =? h)) (handles s)). lia.
  - unfold hdel. apply Forall_forall. intros kv Hin. apply list_elem_of_In, List.filter_In in Hin as [Hin _].
    apply (proj1 (Forall_forall _ _) Hk). by apply list_elem_of_In.
Qed.

(** A sound table that still has [f] as its block device and has not gone back *)
Definition table_kept (f : option Z) (n : Z) (s : session) : Prop :=
  table_ok s /\ (forall g, f = Some g -> hget BLOCK_DEVICE_HANDLE (handles s) = Some (F_file g)) /\ n <= next_handle s.

Lemma table_kept_same f n s s' :
  handles s' = handles s -> next_handle s' = next_handle s -> table_kept f n s -> table_kept f n s'.
Proof. intros E1 E2 (Ht & Hf & Hn). split_and!; [by apply (table_same s)|by rewrite E1|by rewrite E2]. Qed.

Lemma table_kept_erased (g : session -> session) f n s s' :
  (forall s, handles (g s) = handles s) -> (forall s, next_handle (g s) = next_handle s) ->
  g s' = g s -> table_kept f n s -> table_kept f n s'.
Proof. intros H1 H2 He. apply table_kept_same; by apply (erase_field _ g). Qed.

Lemma table_kept_move f n s h fh fh' :
  hget h (handles s) = Some fh -> same_object fh fh' -> table_kept f n s ->
  table_kept f n (s <| handles ::= hset h fh' |>).
Proof.
  intros Hg Hs (Ht & Hf & Hn). split_and!; [by eapply table_move| |done].
  intros g Hfg. cbn. rewrite hget_hset. destruct (Z.eqb_spec h BLOCK_DEVICE_HANDLE) as [->|]; [|by apply Hf].
  rewrite (Hf g Hfg) in Hg. injection Hg as <-. destruct fh'; cbn in Hs; try done. by subst.
Qed.

Lemma commits_table f n (w w' : W) : rtc commits w w' -> table_kept f n (sess w) -> table_kept f n (sess w').
Proof.
  induction 1 as [|w w1 w' Hc _ IH]; [done|]. intros Hw. apply IH. clear IH.
  destruct Hc as [w w1 (_ & _ & He)|w g|w|w o Ho|w h fh fh' Hg Hs]; cbn;
    try exact Hw; try exact (table_kept_same f n (sess w) (reset_write (sess w)) eq_refl eq_refl Hw).
  - by apply (table_kept_erased erase_tx f n (sess w)).
  - by eapply table_kept_move.
Qed.

Lemma effect_table f n (w w' : W) : effect cfg w w' -> table_kept f n (sess w) -> table_kept f n (sess w').
Proof.
  intros He Hw.
  destruct He as [w w' (_ & _ & He)|w g|w g Hg|w|w g _ Hg|w g _ Hg|w w' _ Hc|w h fh fh' Hg Hs|w fh Hl|w h Hne|w o _|w o _];
    cbn;
    try exact Hw; try exact (table_kept_same f n (sess w) (reset_write (sess w)) eq_refl eq_refl Hw).
  - by apply (table_kept_erased erase_tx f n (sess w)).
  - by apply (table_kept_erased erase_notes f n (sess w)).
  - by apply (table_kept_erased erase_write f n (sess w)).
  - by apply (table_kept_erased erase_write f n (sess w) _ (fun _ => eq_refl) (fun _ => eq_refl) (proj1 (Hg _))).
  - by eapply commits_table.
  - by eapply table_kept_move.
  - destruct Hw as (Ht & Hf & Hn). split_and!; [by apply table_alloc| |cbn; lia].
    intros g Hfg. cbn. rewrite hget_hset. pose proof (tb_next _ Ht). rewrite (proj2 (Z.eqb_neq _ _)); [by apply Hf|].
    unfold BLOCK_DEVICE_HANDLE. lia.
  - destruct Hw as (Ht & Hf & Hn). split_and!; [by apply table_free| |done].
    intros g Hfg. cbn. rewrite hget_hdel by done. by apply Hf.
Qed.

(** Every datagram keeps the client's table of handles sound, whatever it asks for: at
    most [MAX_HANDLES] handles with distinct numbers, each given out before; the next
    number never goes back, so no number is given out twice; and the block device stays
    handle 0, which no request closes or replaces. *)
Theorem handle_table_kept a data (w : W) r w' :
  table_ok (sess w) -> handle_data cfg sock_of a data w = (r, w') ->
  table_ok (sess w') /\ next_handle (sess w) <= next_handle (sess w') /\
  (forall f, hget BLOCK_DEVICE_HANDLE (handles (sess w)) = Some (F_file f) ->
             hget BLOCK_DEVICE_HANDLE (handles (sess w')) = Some (F_file f)).
Proof.
  intros Hw Hr.
  assert (Hk : forall f, (forall g, f = Some g -> hget BLOCK_DEVICE_HANDLE (handles (sess w)) = Some (F_file g)) ->
                         table_kept f (next_handle (sess w)) (sess w')).
  { intros f Hf.
    refine (effects_keep cfg (fun w' => table_kept f (next_handle (sess w)) (sess w')) _ _
              (fun w0 => eff_handle_data w0 a data) w r w' (conj Hw (conj Hf (Z.le_refl _))) Hr).
    intros w1 w2. apply effect_table. }
  destruct (Hk None ltac:(done)) as (Ht & _ & Hn). split_and!; [done..|].
  intros f Hf. destruct (Hk (Some f)) as (_ & Hb & _); [by intros g [= <-]|]. by apply Hb.
Qed.

(** *** Datagrams that are not in order *)

(** C38. A datagram that carries no payload, repeats the last request, or is out of order has
    no effect but on the transport: nothing happens on the host, no handle, counter,
    write in progress or expected number changes, whatever request it carries.  So a
    request whose acknowledgement was lost is executed once.  Excepted is an out-of-order
    datagram with number 0 that does not repeat the last request: the server takes it for a
    console that restarted, numbers from 0 again, and executes its request. *)
Theorem replay_not_executed a data hdr h (w : W) r w' :
  Header.unpack data = Ok hdr -> DataHeader.unpack (slice data 2 6) = Ok h ->
  DataHeader.payload_size h = 0 \/
  (Header.seq_nr hdr <> rx_seq_nr_expected (sess w) /\
   (Header.seq_nr hdr = seq12 (rx_seq_nr_expected (sess w) - 1) \/ Header.seq_nr hdr <> 0)) ->
  handle_data cfg sock_of a data w = (r, w') -> transport_eq w w'.
Proof.
  intros Hh Hd Hcase. unfold handle_data. destruct (_ <? 6); [by intros [= _ <-]|].
  rewrite Hh. unfold mbind at 1, M_bind at 1, lift at 1.
  destruct (negb _); [by intros [= _ <-]|]. rewrite Hd. unfold mbind at 1, M_bind at 1, lift at 1. cbv zeta.
  assert (Hack : exists w1, (if DataHeader.has_ack h then acknowledge (DataHeader.seq_nr_ack h) ≫= (fun _ => mret tt) else mret tt) w
                   = (Ok tt, w1) /\ transport_eq w w1).
  { destruct (DataHeader.has_ack h); [|by exists w]. unfold mbind, M_bind.
    destruct (acknowledge _ w) as [[b|e] w1] eqn:E.
    - exists w1. split; [done|]. eapply framed_at; [|exact E]. intros w0. apply framed_acknowledge.
    - unfold acknowledge in E. by destruct (acknowledge_tx _ _). }
  destruct Hack as (w1 & Hack & H1). unfold mbind at 1, M_bind at 1. rewrite Hack. clear Hack. intros Hr.
  enough (transport_eq w1 w') by (by etransitivity).
  assert (Hrx : rx_seq_nr_expected (sess w1) = rx_seq_nr_expected (sess w))
    by (destruct H1 as (_ & _ & He); by apply (erase_field _ erase_tx)).
  destruct (Z.eqb_spec (DataHeader.payload_size h) 0) as [|Hp].
  { eapply framed_at; [|exact Hr]. intros w0. keep. }
  destruct Hcase as [|[Hne Hprev]]; [done|].
  unfold mbind at 1, M_bind at 1, sget, mget in Hr. cbn [id] in Hr. rewrite Hrx in Hr.
  rewrite (proj2 (Z.eqb_neq _ _) Hne) in Hr.
  destruct (Z.eqb_spec (Header.seq_nr hdr) (seq12 (rx_seq_nr_expected (sess w) - 1))) as [|Hnp].
  { eapply framed_at; [|exact Hr]. intros w0. keep. }
  destruct Hprev as [|H0n]; [done|]. rewrite (proj2 (Z.eqb_neq _ _) H0n) in Hr.
  eapply framed_at; [|exact Hr]. intros w0. keep.
Qed.
End data.
