(* ===== verification/Toy.v ===== *)
(** * A small host

    A concrete [HostOs]: a flat table of absolute paths, symbolic links that [stat]
    follows by looking their target up, and open files with positions.  The theorems
    are about any host; this one shows that their hypotheses can hold together, and is
    where the concrete behaviours reported as findings are evaluated. *)

From S2P Require Import Prelude PyStr Compressed HostOs ChdCue Wire Session.

Inductive node := N_file (content : bytes) | N_dir | N_link (target : str).

Record open_file := OpenFile { of_path : str; of_pos : Z; of_mode : open_mode }.

Record toy := Toy { t_nodes : list (str * node); t_files : list (Z * open_file); t_next : Z }.

#[export] Instance eta_toy : Eta toy := fun t => Toy (t_nodes t) (t_files t) (t_next t).

Fixpoint node_at (p : str) (l : list (str * node)) : option node :=
  match l with
  | [] => None
  | (q, n) :: l => if str_eqb q p then Some n else node_at p l
  end.

Definition set_node (p : str) (n : node) (l : list (str * node)) : list (str * node) :=
  (p, n) :: List.filter (fun qn => negb (str_eqb (fst qn) p)) l.

(** What a path leads to, following at most [fuel] links *)
Fixpoint follow (fuel : nat) (p : str) (t : toy) : option node :=
  match node_at p (t_nodes t) with
  | Some (N_link target) => match fuel with O => None | S fuel => follow fuel target t end
  | n => n
  end.

Definition stat_of (n : node) : stat_result :=
  {| st_kind := match n with N_file _ => Reg | N_dir => Dir | N_link _ => Lnk end;
     st_size := match n with N_file c => zlen c | _ => 0 end;
     st_ctime := 0; st_atime := 0; st_mtime := 0; st_reparse_tag := 0;
     st_file_attributes := 0; st_dev := 1; st_ino := 0; st_mtime_ns := 0 |}.

Definition found_node (n : option node) : result stat_result :=
  match n with Some n => Ok (stat_of n) | None => oserror ENOENT end.

Fixpoint file_at (f : Z) (l : list (Z * open_file)) : option open_file :=
  match l with
  | [] => None
  | (g, o) :: l => if g =? f then Some o else file_at f l
  end.

Definition set_file (f : Z) (o : open_file) (l : list (Z * open_file)) : list (Z * open_file) :=
  (f, o) :: List.filter (fun go => negb (fst go =? f)) l.

Definition writes_mode (m : open_mode) : bool := match m with m_rb => false | _ => true end.

(** An operation on open file [f] that also sees its content *)
Definition with_file {A} (f : Z) (k : open_file -> bytes -> result A * open_file * bytes) : M toy A := fun t =>
  match file_at f (t_files t) with
  | None => (Err ValueError, t)
  | Some o =>
      match node_at (of_path o) (t_nodes t) with
      | Some (N_file c) =>
          let '(r, o', c') := k o c in
          (r, t <| t_files := set_file f o' (t_files t) |>
                <| t_nodes := if bool_decide (c' = c) then t_nodes t else set_node (of_path o) (N_file c') (t_nodes t) |>)
      | _ => (oserror EIO, t)
      end
  end.

Definition at_pos (o : open_file) (p : Z) : open_file := OpenFile (of_path o) p (of_mode o).

(** [data] put at [p], the gap filled with zeros *)
Definition put_at (p : Z) (data content : bytes) : bytes :=
  ljust (ztake p content) p ++ data ++ zdrop (p + zlen data) content.

Definition toy_open (p : str) (m : open_mode) : M toy Z := fun t =>
  match follow 8 p t with
  | Some (N_file c) =>
      let f := t_next t in
      let truncates := match m with m_wb | m_wpb => true | _ => false end in
      (Ok f, t <| t_next ::= Z.add 1 |> <| t_files ::= set_file f (OpenFile p 0 m) |>
               <| t_nodes := if (truncates : bool) then set_node p (N_file []) (t_nodes t) else t_nodes t |>)
  | Some N_dir => (oserror EISDIR, t)
  | _ => if writes_mode m
         then (Ok (t_next t), t <| t_next ::= Z.add 1 |> <| t_files ::= set_file (t_next t) (OpenFile p 0 m) |>
                                <| t_nodes ::= set_node p (N_file []) |>)
         else (oserror ENOENT, t)
  end.

#[export] Instance toy_host : HostOs toy := {
  os_getcwd t := [SLASH];
  os_stat p t := found_node (follow 8 p t);
  os_lstat p t := found_node (node_at p (t_nodes t));
  os_readlink p t := match node_at p (t_nodes t) with Some (N_link q) => Ok q | _ => oserror EINVAL end;
  os_listdir d t :=
    Ok (List.map (fun qn => basename (fst qn)) (List.filter (fun qn => str_eqb (dirname (fst qn)) d) (t_nodes t)));
  os_localtime _ t := Ok {| tm_sec := 0; tm_min := 0; tm_hour := 0; tm_mday := 1; tm_mon := 1; tm_year := 2000 |};
  os_open_image p t := match follow 8 p t with Some (N_file c) => Ok (mem_file c) | _ => oserror ENOENT end;
  os_makedirs p t := (Ok tt, t <| t_nodes ::= set_node p N_dir |>);
  os_mkdir p _ t :=
    match node_at p (t_nodes t) with
    | Some _ => (oserror EEXIST, t)
    | None => (Ok tt, t <| t_nodes ::= set_node p N_dir |>)
    end;
  os_unlink p t := (Ok tt, t <| t_nodes ::= List.filter (fun qn => negb (str_eqb (fst qn) p)) |>);
  os_rmdir p t := (Ok tt, t <| t_nodes ::= List.filter (fun qn => negb (str_eqb (fst qn) p)) |>);
  os_open := toy_open;
  os_fstat f t :=
    match file_at f (t_files t) with Some o => found_node (node_at (of_path o) (t_nodes t)) | None => oserror EBADF end;
  f_read f n := with_file f (fun o c => let d := slice c (of_pos o) (of_pos o + n) in
                                        (Ok d, at_pos o (of_pos o + zlen d), c));
  f_write f data := with_file f (fun o c =>
    if writes_mode (of_mode o) then (Ok (zlen data), at_pos o (of_pos o + zlen data), put_at (of_pos o) data c)
    else (Err (OSError None), o, c));
  f_seek f off _ := with_file f (fun o c => (Ok off, at_pos o off, c));
  f_flush f t := (Ok tt, t);
  f_close f t := (Ok tt, t <| t_files ::= List.filter (fun go => negb (fst go =? f)) |>);
  f_writable f t :=
    match file_at f (t_files t) with Some o => Ok (writes_mode (of_mode o)) | None => Err ValueError end;
  os_pread f n off := with_file f (fun o c => (Ok (slice c off (off + n)), o, c));
  os_pwrite f data off := with_file f (fun o c => (Ok (zlen data), o, put_at off data c))
}.

(** Codecs that are not installed *)
#[export] Instance no_codecs : Codecs := {
  lz4_available := false;
  libchdr_available := false;
  lz4_decompress _ _ := None;
  inflate_raw _ := None;
  inflate_zlib _ := None;
  inflate_max _ _ _ := None;
  chd_open _ := 0;
  chd_read _ _ := None
}.

(** A share at [/s] *)
Definition toy_config (ro : bool) : config :=
  {| root_dir := Some (lit "/s"); read_only := ro; enable_compression := false; compression_cache_size := 32;
     max_transfer_bytes := 8388608; bd_fh := None; bd_fd := None; bd_sector_size := 512; bd_sector_count := 0;
     has_pread := true; has_pwrite := true; tx_delay := 0 |}.

Definition toy_world (t : toy) (s : session) : world toy :=
  {| host := t; sess := s; counters := fun _ => 0; summary := None; sent := []; net := []; clock := 0; inbox := [] |}.

Definition toy_session (hs : list (Z * file_handle)) (next : Z) : session :=
  (new_session (1, 2) None STANDARD 0) <| handles := hs |> <| next_handle := next |>.

(** A DATA packet with sequence number [seq] that carries the request [payload] *)
Definition request (seq : Z) (payload : bytes) : bytes :=
  Header.pack {| Header.packet_type := DATA; Header.seq_nr := seq |}
  ++ DataHeader.pack {| DataHeader.seq_nr_ack := 0; DataHeader.flags := 0; DataHeader.hdr_word_count := 0;
                        DataHeader.data_byte_count := zlen payload |} ++ payload.
