(* ===== verification/PathsFacts.v ===== *)
(** * Where a client path leads

    Theorems about [Paths]: what the server resolves a path to lies inside the share, and
    REMOVE and RMDIR act on the very entry that the path names, with no link on the way, also
    where the path goes up by [..]. *)

From S2P Require Import Prelude PyStr PathNames Compressed HostOs ChdCue Wire Session Transport TransportFacts Paths Handlers Server HandlersFacts Toy.

Section host.
Context {Os : Type} `{HostOs Os}.

(** ** Paths with no link on the way *)

(** [p] is no symbolic link: it can be stat'ed and is none, or is not there. *)
Definition unlinked (o : Os) (p : str) : Prop :=
  match os_lstat p o with Ok st => S_ISLNK st = false | Err (OSError _) => True | Err _ => False end.

(** No folder that [rest] passes through below [ns] is a link. *)
Fixpoint clear_walk (o : Os) (ns rest : list str) : Prop :=
  match rest with
  | [] => True
  | n :: rest => unlinked o (abs_path (ns ++ [n])) /\ clear_walk o (ns ++ [n]) rest
  end.

Lemma clear_walk_app o ns r1 r2 : clear_walk o ns (r1 ++ r2) <-> clear_walk o ns r1 /\ clear_walk o (ns ++ r1) r2.
Proof.
  revert ns. induction r1 as [|n r1 IH]; intros ns; cbn; [by rewrite app_nil_r; tauto|].
  rewrite IH, <- app_assoc. cbn. tauto.
Qed.

(** A component of a client path: a name, or [..] *)
Definition part_ok (n : str) : Prop := n <> [] /\ n <> [DOT] /\ (SLASH ∉ n) /\ (BACKSLASH ∉ n).

Lemma part_good n : part_ok n -> n <> DOTDOT -> good_name n.
Proof. intros (? & ? & ? & ?) ?. by split_and!. Qed.

(** A step of a walk: a name, or [..] *)
Definition step_ok (n : str) : Prop := n = DOTDOT \/ good_name n.

Lemma part_steps ns : Forall part_ok ns -> Forall step_ok ns.
Proof.
  intros Hp. eapply Forall_impl; [exact Hp|]. intros n Hn. destruct (decide (n = DOTDOT)); [by left|right; by apply part_good].
Qed.

Lemma good_steps ns : Forall good_name ns -> Forall step_ok ns.
Proof. intros Hg. eapply Forall_impl; [exact Hg|]. by right. Qed.

(** Where [parts] lead from the folder [cur], each [..] to the folder above *)
Fixpoint goes_to (cur parts : list str) : list str :=
  match parts with
  | [] => cur
  | p :: parts => goes_to (if str_eqb p DOTDOT then removelast cur else cur ++ [p]) parts
  end.

(** Every folder that [parts] enter on the way from [cur] is [P]. *)
Fixpoint way (P : str -> Prop) (cur parts : list str) : Prop :=
  match parts with
  | [] => True
  | p :: parts =>
      if str_eqb p DOTDOT then way P (removelast cur) parts
      else P (abs_path (cur ++ [p])) /\ way P (cur ++ [p]) parts
  end.

Lemma removelast_good cur : Forall good_name cur -> Forall good_name (removelast cur).
Proof.
  destruct cur as [|d cur] using rev_ind; [done|]. intros Hg. rewrite removelast_last. by apply Forall_app in Hg as [? _].
Qed.

Lemma goes_to_good parts : forall cur, Forall good_name cur -> Forall part_ok parts -> Forall good_name (goes_to cur parts).
Proof.
  induction parts as [|p parts IH]; intros cur Hc Hp; [done|]. apply Forall_cons in Hp as [Hp Hps]. cbn [goes_to].
  apply IH; [|done]. destruct (str_eqb_spec p DOTDOT); [by apply removelast_good|].
  apply Forall_app. split; [done|]. apply Forall_singleton. by apply part_good.
Qed.

Lemma goes_to_snoc parts n : forall cur, n <> DOTDOT -> goes_to cur (parts ++ [n]) = goes_to cur parts ++ [n].
Proof. induction parts as [|p parts IH]; intros cur Hn; cbn; [by destruct (str_eqb_spec n DOTDOT)|by apply IH]. Qed.

Lemma way_weaken (P Q : str -> Prop) parts : (forall p, P p -> Q p) -> forall cur, way P cur parts -> way Q cur parts.
Proof.
  intros HPQ. induction parts as [|p parts IH]; intros cur; cbn; [done|]. destruct (str_eqb p DOTDOT); [apply IH|].
  intros [Hp Hw]. split; [by apply HPQ|by apply IH].
Qed.

Lemma clear_way o ns : forall cur, Forall good_name ns -> clear_walk o cur ns -> way (unlinked o) cur ns /\ goes_to cur ns = cur ++ ns.
Proof.
  induction ns as [|n ns IH]; intros cur Hg Hc; [by rewrite app_nil_r|]. apply Forall_cons in Hg as [(_ & _ & Hn & _) Hg].
  destruct Hc as [Hu Hc]. cbn. destruct (str_eqb_spec n DOTDOT); [done|]. destruct (IH (cur ++ [n]) Hg Hc) as [Hw ->].
  by rewrite <- app_assoc.
Qed.

(** [os.path.realpath] walks a way with no link on it as it is written. *)
Lemma walk_way o depth rest more : forall cur seen,
  Forall good_name cur -> Forall step_ok rest -> way (unlinked o) cur rest ->
  joinrealpath (S depth) (abs_path cur) (rest ++ more) seen o = joinrealpath (S depth) (abs_path (goes_to cur rest)) more seen o.
Proof.
  induction rest as [|n rest IH]; intros cur seen Hcur Hr Hw; [done|].
  apply Forall_cons in Hr as [Hn Hr].
  assert (n <> [] /\ n <> [DOT]) as [H1 H2] by (destruct Hn as [->|(? & ? & _)]; done).
  cbn [app joinrealpath goes_to]. cbn [way] in Hw. unfold str_eqb at 1 2. rewrite !bool_decide_eq_false_2 by done. cbn [orb].
  change [DOT; DOT] with DOTDOT. destruct (str_eqb_spec n DOTDOT) as [->|Hd].
  - change (abs_path cur) with (SLASH :: join_with SLASH cur) at 1. cbv beta iota. fold (abs_path cur).
    destruct cur as [|d cur _] using rev_ind; [exact (IH [] seen Hcur Hr Hw)|].
    rewrite removelast_last in *. apply Forall_app in Hcur as [Hcur [Hdg _]%Forall_cons].
    rewrite path_split_abs by done. cbv beta iota. destruct (str_eqb_spec d DOTDOT) as [->|]; [by destruct Hdg as (_ & _ & ? & _)|].
    exact (IH cur seen Hcur Hr Hw).
  - destruct Hw as [Hu Hw]. assert (Hg : good_name n) by by destruct Hn. rewrite path_join_name by done.
    assert (Hgo : Forall good_name (cur ++ [n])) by (apply Forall_app; split; [done|by apply Forall_singleton]).
    unfold unlinked in Hu. specialize (IH (cur ++ [n]) seen Hgo Hr Hw). cbn [joinrealpath] in IH.
    destruct (os_lstat _ o) as [st|e]; [rewrite Hu; exact IH|destruct e; try done; exact IH].
Qed.

Lemma realpath_abs o t : realpath (SLASH :: t) o =
  joinrealpath RECURSION_LIMIT (abs_path []) (split_on SLASH t) [] o ≫= (fun '(p, _, _) => Ok (abspath (os_getcwd o) p)).
Proof. unfold realpath. by rewrite isabs_slash. Qed.

Lemma abspath_abs cwd ns : Forall good_name ns -> abspath cwd (abs_path ns) = abs_path ns.
Proof. intros Hg. unfold abspath, abs_path. rewrite isabs_slash. by apply normpath_abs. Qed.

(** The real path of a share joined to [parts], or to nothing and a slash *)
Lemma realpath_way o rs parts : rs <> [] -> Forall good_name rs -> clear_walk o [] rs -> Forall part_ok parts -> way (unlinked o) rs parts ->
  realpath (SLASH :: join_with SLASH rs ++ SLASH :: join_with SLASH parts) o = Ok (abs_path (goes_to rs parts)).
Proof.
  intros Hne Hg Hc Hp Hw. rewrite realpath_abs, split_on_mid, split_names by done.
  destruct (clear_way o rs [] Hg Hc) as [Hrs Hto]. rewrite app_nil_l in Hto.
  assert (Hs : exists more, split_on SLASH (join_with SLASH parts) = parts ++ more /\ Forall (fun t => t = []) more).
  { destruct (decide (parts = [])) as [->|Hn]; [exists [[]]; split; [done|by apply Forall_singleton]|].
    exists []. rewrite app_nil_r. split; [|done]. apply split_join; [done|]. eapply Forall_impl; [exact Hp|]. by intros n (_ & _ & ? & _). }
  destruct Hs as (more & -> & Hm). unfold RECURSION_LIMIT.
  rewrite (walk_way o 999 rs (parts ++ more) []) by (done || by apply good_steps). rewrite Hto.
  rewrite (walk_way o 999 parts more) by (done || by apply part_steps).
  pose proof (goes_to_good parts rs Hg Hp) as Hgood. set (cur := goes_to rs parts) in *. clearbody cur.
  induction Hm as [|t more -> _ IH]; [|exact IH]. cbn [joinrealpath mbind result_bind]. by rewrite abspath_abs.
Qed.

(** ** Client paths *)

Lemma entry_parts_ok path : Forall part_ok (entry_parts path).
Proof.
  apply Forall_forall. intros n Hn. unfold entry_parts in Hn.
  apply list_elem_of_In, List.filter_In in Hn as [Hn Hb]. apply list_elem_of_In in Hn.
  unfold str_eqb in Hb. apply andb_true_iff in Hb as [H1%negb_true_iff%bool_decide_eq_false H2%negb_true_iff%bool_decide_eq_false].
  split_and!; [done|done| |].
  - exact (proj1 (Forall_forall _ _) (split_on_no_sep _ _) _ Hn).
  - intros Hc. apply (replace_char_gone BACKSLASH SLASH path); [done|]. by eapply split_on_elem.
Qed.

Lemma join_no_backslash ns : Forall part_ok ns -> BACKSLASH ∉ join_with SLASH ns.
Proof.
  induction ns as [|n [|m ns] IH]; cbn [join_with]; [intros _; apply not_elem_of_nil|by intros (? & ? & ? & ?)%Forall_singleton|].
  intros [(_ & _ & _ & Hn) Hns]%Forall_cons. rewrite not_elem_of_app, not_elem_of_cons. split_and!; [done|done|by apply IH].
Qed.

Context `{Codecs} (cfg : config).

(** A share at a normal path with no link on the way, as [os.path.realpath] leaves the
    root at startup *)
Definition root_ok (o : Os) (rs : list str) : Prop :=
  root_dir cfg = Some (abs_path rs) /\ rs <> [] /\ Forall good_name rs /\ clear_walk o [] rs.

Lemma part_head ns : ns <> [] -> Forall part_ok ns -> exists c t, join_with SLASH ns = c :: t /\ c <> SLASH /\ c <> BACKSLASH.
Proof.
  intros Hne Hp. destruct ns as [|n ns]; [done|]. apply Forall_cons in Hp as [(Hn & _ & Hs & Hb) _]. destruct n as [|c t]; [done|].
  apply not_elem_of_cons in Hs as [Hs _]. apply not_elem_of_cons in Hb as [Hb _]. destruct ns; cbn; by eexists _, _.
Qed.

Lemma strip_parts ns : Forall part_ok ns ->
  strip_leading (fun c => (c =? SLASH) || (c =? BACKSLASH)) (join_with SLASH ns) = join_with SLASH ns.
Proof.
  intros Hp. destruct (decide (ns = [])) as [->|Hne]; [done|]. destruct (part_head ns Hne Hp) as (c & t & -> & Hs & Hb).
  cbn. by rewrite (proj2 (Z.eqb_neq c SLASH)), (proj2 (Z.eqb_neq c BACKSLASH)).
Qed.

(** Joining parts to a folder, which [os.path.join] does without looking at them *)
Lemma path_join_parts rs ns : rs <> [] -> Forall good_name rs -> Forall part_ok ns ->
  path_join (abs_path rs) (join_with SLASH ns) = SLASH :: join_with SLASH rs ++ SLASH :: join_with SLASH ns.
Proof.
  intros Hne Hg Hp. unfold path_join.
  assert (isabs (join_with SLASH ns) = false) as ->.
  { destruct (decide (ns = [])) as [->|Hn]; [done|]. destruct (part_head ns Hn Hp) as (c & t & -> & Hs & _). by apply isabs_head. }
  by rewrite abs_path_no_slash.
Qed.

Lemma path_join_parts_abs rs ns : rs <> [] -> ns <> [] -> Forall good_name rs -> Forall part_ok ns ->
  path_join (abs_path rs) (join_with SLASH ns) = abs_path (rs ++ ns).
Proof. intros. rewrite path_join_parts by done. unfold abs_path. by rewrite join_with_app. Qed.

(** What a way with no link on it resolves to *)
Lemma resolve_way o rs ns p : root_ok o rs -> Forall part_ok ns -> way (unlinked o) rs ns ->
  resolve_path cfg (join_with SLASH ns) o = Ok (Some p) -> p = abs_path (goes_to rs ns).
Proof.
  intros (Hr & Hne & Hg & Hc) Hp Hw. unfold resolve_path. rewrite Hr, strip_parts by done. cbv zeta.
  rewrite replace_char_none by (by apply join_no_backslash).
  rewrite path_join_parts, realpath_way by done. cbn [mbind result_bind]. destruct (_ && _); [done|]. by intros [= <-].
Qed.

(** ** Folders with [..] on the way *)

(** What the host finds behind a folder and a following [..], if it is no link, it finds from
    the folder above as well: so do POSIX systems, which look the folder up, and Windows,
    which takes the two away. *)
Definition dotdot_goes_up (o : Os) : Prop :=
  (forall pre d post st, Forall good_name (pre ++ [d]) -> unlinked o (abs_path (pre ++ [d])) -> post <> [] -> Forall part_ok post ->
     os_lstat (abs_path (pre ++ d :: DOTDOT :: post)) o = Ok st -> os_lstat (abs_path (pre ++ post)) o = Ok st) /\
  (forall post st, post <> [] -> Forall part_ok post ->
     os_lstat (abs_path (DOTDOT :: post)) o = Ok st -> os_lstat (abs_path post) o = Ok st).

(** The host finds [p], and it is no symbolic link and no junction. *)
Definition plain_entry (o : Os) (p : str) : Prop :=
  exists st, os_lstat p o = Ok st /\ S_ISLNK st = false /\ st_reparse_tag st <> IO_REPARSE_TAG_MOUNT_POINT.

Lemma plain_unlinked o p : plain_entry o p -> unlinked o p.
Proof. intros (st & E & Hl & _). unfold unlinked. by rewrite E. Qed.

(** What is found behind [before] is found from [cur]. *)
Definition found_from (o : Os) (rs before cur : list str) : Prop :=
  forall post st, post <> [] -> Forall part_ok post ->
    os_lstat (abs_path (rs ++ before ++ post)) o = Ok st -> os_lstat (abs_path (cur ++ post)) o = Ok st.

Lemma found_step o rs before cur p : dotdot_goes_up o -> Forall good_name cur -> clear_walk o [] cur -> part_ok p ->
  found_from o rs before cur -> found_from o rs (before ++ [p]) (if str_eqb p DOTDOT then removelast cur else cur ++ [p]).
Proof.
  intros [Hup Htop] Hg Hc Hp Hf post st Hne Hpost E. rewrite <- app_assoc in E.
  assert (E' : os_lstat (abs_path (cur ++ p :: post)) o = Ok st) by (apply Hf; [done|by apply Forall_cons|done]).
  destruct (str_eqb_spec p DOTDOT) as [->|]; [|by rewrite <- app_assoc].
  destruct cur as [|d pre _] using rev_ind; [by apply Htop|]. rewrite removelast_last. rewrite <- app_assoc in E'.
  apply (Hup pre d); try done. apply clear_walk_app in Hc as [_ [Hu _]]. exact Hu.
Qed.

Lemma clear_walk_snoc o cur n : clear_walk o [] cur -> unlinked o (abs_path (cur ++ [n])) -> clear_walk o [] (cur ++ [n]).
Proof. intros Hc Hu. apply clear_walk_app. split; [done|]. by split. Qed.

Lemma clear_walk_removelast o cur : clear_walk o [] cur -> clear_walk o [] (removelast cur).
Proof. destruct cur as [|d cur _] using rev_ind; [done|]. rewrite removelast_last. intros Hc. by apply clear_walk_app in Hc as [? _]. Qed.

(** The walk of [_through_linked_folder] sees every folder that the path enters. *)
Lemma folder_walk_way o rs n parts : dotdot_goes_up o -> rs <> [] -> Forall good_name rs -> part_ok n -> forall before cur,
  Forall part_ok before -> Forall part_ok parts -> Forall good_name cur -> clear_walk o [] cur -> found_from o rs before cur ->
  any_linked (folder_walk (abs_path rs) before (parts ++ [n])) o = Ok false -> way (plain_entry o) cur parts.
Proof.
  intros Hup Hne Hr Hn. induction parts as [|p parts IH]; intros before cur Hb Hp Hc Hcl Hf; [done|].
  apply Forall_cons in Hp as [Hp Hps]. cbn [app folder_walk].
  assert (Hb' : Forall part_ok (before ++ [p])) by (apply Forall_app; split; [done|by apply Forall_singleton]).
  destruct (parts ++ [n]) as [|q qs] eqn:E; [by destruct parts|].
  rewrite path_join_parts_abs; [|done|by destruct before|done|done]. cbn [any_linked].
  destruct (os_lstat _ o) as [st|e] eqn:El; cbn [mbind result_bind]; [|done]. destruct (_ || _) eqn:Eb; [done|].
  apply orb_false_iff in Eb as [Elink Etag%Z.eqb_neq]. intros Hl.
  pose proof (found_step o rs before cur p Hup Hc Hcl Hp Hf) as Hf'. cbn [way].
  destruct (str_eqb_spec p DOTDOT) as [->|Hd].
  - by apply (IH (before ++ [DOTDOT])); [| |apply removelast_good|apply clear_walk_removelast| |].
  - assert (Hplain : plain_entry o (abs_path (cur ++ [p]))).
    { exists st. split; [|done]. apply (Hf [p]); [done|by apply Forall_singleton|done]. }
    split; [done|]. apply (IH (before ++ [p])); try done.
    + apply Forall_app. split; [done|]. apply Forall_singleton. by apply part_good.
    + by apply clear_walk_snoc; [|apply plain_unlinked].
Qed.

Lemma entry_parts_last path : entry_parts path <> [] -> exists ns n, entry_parts path = ns ++ [n].
Proof. destruct (entry_parts path) as [|n ns] using rev_ind; [done|]. by exists ns, n. Qed.

(** A path that passes both checks of a deletion leads to the entry it resolves to, through
    folders only. *)
Lemma entry_named o rs path p : root_ok o rs -> dotdot_goes_up o ->
  through_linked_folder cfg path o = Ok false -> resolve_entry cfg path o = Ok (Some p) ->
  p = abs_path (goes_to rs (entry_parts path)) /\ way (plain_entry o) rs (removelast (entry_parts path)).
Proof.
  intros Hrs Hup Hl. pose proof Hrs as (Hr & Hne & Hg & Hc). unfold resolve_entry. rewrite Hr.
  destruct (decide (entry_parts path = [])) as [E|E]; [rewrite E; by intros [= <-]|].
  destruct (entry_parts_last path E) as (ns & n & En). rewrite En, rev_app_distr, removelast_last. cbn [rev app].
  destruct (str_eqb_spec n DOTDOT) as [|Hd]; [done|]. rewrite rev_involutive.
  pose proof (entry_parts_ok path) as Hp. rewrite En in Hp. apply Forall_app in Hp as [Hp [Hpn _]%Forall_cons].
  assert (Hw : way (plain_entry o) rs ns).
  { unfold through_linked_folder in Hl. rewrite Hr, En in Hl. apply (folder_walk_way o rs n ns Hup Hne Hg Hpn [] rs); try done.
    by intros post st _ _. }
  destruct (resolve_path cfg _ o) as [[parent|]|e] eqn:Er; cbn [mbind result_bind]; [|done..]. cbv zeta.
  destruct (negb _); [done|]. intros [= <-]. split; [|done].
  apply (resolve_way o rs ns) in Er; [|done|done|by eapply way_weaken; [apply plain_unlinked|]]. subst parent.
  rewrite goes_to_snoc by done. apply path_join_name; [by apply goes_to_good|by apply part_good].
Qed.

(** ** Confinement *)

Lemma norm_steps_good cs : forall acc,
  Forall good_name acc -> Forall (fun c => SLASH ∉ c) cs -> Forall good_name (foldl (norm_step true) acc cs).
Proof.
  induction cs as [|c cs IH]; intros acc Ha Hc; [done|]. apply Forall_cons in Hc as [Hc Hcs]. cbn [foldl].
  apply IH; [|done]. unfold norm_step.
  destruct (str_eqb_spec c []); [exact Ha|]. destruct (str_eqb_spec c [DOT]); [exact Ha|].
  destruct (str_eqb_spec c [DOT; DOT]) as [->|]; cbn [orb negb].
  - destruct acc as [|d acc]; [done|]. apply Forall_cons in Ha as [(_ & _ & Hd & _) Ha].
    destruct (str_eqb_spec d [DOT; DOT]); done.
  - by apply Forall_cons.
Qed.

Lemma dotdot_nowhere ns : Forall good_name ns -> DOTDOT ∉ split_on SLASH (join_with SLASH ns).
Proof.
  intros Hg. destruct (decide (ns = [])) as [->|Hne]; [by intros ?%list_elem_of_singleton|].
  rewrite split_names by done. intros Hd. by destruct (proj1 (Forall_forall _ _) Hg _ Hd) as (_ & _ & ? & _).
Qed.

(** A normalised absolute path has no [..] left. *)
Lemma normpath_no_dotdot p : isabs p = true -> DOTDOT ∉ split_on SLASH (normpath p).
Proof.
  intros Ha. unfold normpath. rewrite Ha. destruct p as [|c p]; [done|]. cbv zeta.
  assert (Hg : Forall good_name (norm_comps true (split_on SLASH (c :: p)))).
  { unfold norm_comps. apply Forall_rev, norm_steps_good; [done|apply split_on_no_sep]. }
  set (ns := norm_comps true _) in *. clearbody ns. pose proof (dotdot_nowhere ns Hg) as Hd.
  destruct (_ && _); cbn [app split_on]; rewrite !Z.eqb_refl; intros Hin;
    repeat (apply elem_of_cons in Hin as [?|Hin]; [done|]); done.
Qed.

(** Below the root, or the root itself *)
Definition inside (root p : str) : Prop :=
  p = root \/ ((exists rest, p = root_prefix root ++ rest) /\ (DOTDOT ∉ split_on SLASH p)).

Lemma isabs_join cwd p : isabs cwd = true -> isabs (if isabs p then p else path_join cwd p) = true.
Proof.
  intros Hc. destruct (isabs p) eqn:Hp; [done|]. unfold path_join. rewrite Hp.
  destruct cwd as [|c cwd]; [done|]. rewrite isabs_cons in Hc.
  destruct (endswith _ _); cbn [app]; by rewrite isabs_cons.
Qed.

Lemma abspath_no_dotdot cwd p : isabs cwd = true -> DOTDOT ∉ split_on SLASH (abspath cwd p).
Proof. intros Hc. by apply normpath_no_dotdot, isabs_join. Qed.

Lemma resolve_inside o root path p :
  isabs (os_getcwd o) = true -> root_dir cfg = Some root -> resolve_path cfg path o = Ok (Some p) -> inside root p.
Proof.
  intros Hc Hr. unfold resolve_path. rewrite Hr. cbv zeta. unfold realpath.
  destruct (if isabs _ then _ else _) as [base rest].
  destruct (joinrealpath _ _ _ _ _) as [[[q ok] seen]|e]; cbn [mbind result_bind]; [|done].
  destruct (negb _ && negb _) eqn:Eb; [done|]. intros [= <-].
  apply andb_false_iff in Eb as [E%negb_false_iff|E%negb_false_iff].
  - right. split; [by apply startswith_true|]. by apply abspath_no_dotdot.
  - left. unfold str_eqb in E. by apply bool_decide_eq_true in E.
Qed.

Lemma join_inside root parent name :
  root <> [] -> inside root parent -> isabs name = false -> exists rest, path_join parent name = root_prefix root ++ rest.
Proof.
  intros Hne Hp Hn. unfold path_join. rewrite Hn.
  destruct Hp as [->|[[rest ->] _]].
  - destruct root as [|c root]; [done|]. unfold root_prefix. destruct (endswith _ _); [by exists name|].
    exists name. by rewrite <- app_assoc.
  - assert (root_prefix root ++ rest <> []) by (unfold root_prefix; destruct (endswith _ _), root; done).
    destruct (root_prefix root ++ rest) as [|c t] eqn:E; [done|]. rewrite <- E.
    destruct (endswith _ _); [exists (rest ++ name)|exists (rest ++ SLASH :: name)]; by rewrite <- app_assoc.
Qed.

Lemma entry_inside o root path p :
  isabs (os_getcwd o) = true -> root_dir cfg = Some root -> root <> [] ->
  resolve_entry cfg path o = Ok (Some p) -> inside root p.
Proof.
  intros Hc Hr Hne. unfold resolve_entry. rewrite Hr.
  destruct (rev (entry_parts path)) as [|n ns] eqn:E; [intros [= <-]; by left|].
  assert (Hn : part_ok n).
  { apply (proj1 (Forall_forall _ _) (entry_parts_ok path)). rewrite <- (rev_involutive (entry_parts path)), E.
    cbn. apply elem_of_app. right. by apply list_elem_of_singleton. }
  destruct (str_eqb n DOTDOT); [done|].
  destruct (resolve_path cfg _ o) as [[parent|]|e] eqn:Ep; cbn [mbind result_bind]; [|done|done].
  cbv zeta. destruct (str_eqb_spec (abspath (os_getcwd o) (path_join parent n)) (path_join parent n)) as [Ea|];
    cbn [negb]; [|done]. intros [= <-]. right. split.
  - apply join_inside; [done|by eapply resolve_inside|]. destruct Hn as (Hn & _ & Hs & _). destruct n as [|c n]; [done|].
    apply isabs_head. by apply not_elem_of_cons in Hs as [? _].
  - rewrite <- Ea. by apply abspath_no_dotdot.
Qed.

(** C9. Every path and every entry the server resolves for a client lies lexically in the
    shared folder: it is the root itself, or starts with the root followed by a
    separator and has no [..] component.  (What the host then follows is another matter:
    see [loop_escape].) *)
Theorem paths_confined o root path p :
  isabs (os_getcwd o) = true -> root_dir cfg = Some root -> root <> [] ->
  resolve_path cfg path o = Ok (Some p) \/ resolve_entry cfg path o = Ok (Some p) ->
  p = root \/ ((exists rest, p = root_prefix root ++ rest) /\ (DOTDOT ∉ split_on SLASH p)).
Proof. intros Hc Hr Hne [Hp|Hp]; [by eapply resolve_inside|by eapply entry_inside]. Qed.
End host.

(** ** REMOVE and RMDIR *)

Section removal.
Context {Os : Type} `{HostOs Os} `{Codecs} (cfg : config) (sock_of : session -> socket).
Abbreviation W := (world Os).

(** On the host [o], before and after the one operation it may undergo *)
Definition at_host (o : Os) (w : W) : Prop := host w = o.
Definition once (o : Os) (C : Prop) (o' : Os) (w : W) : Prop := host w = o \/ (C /\ host w = o').

Lemma at_once o C o' w : at_host o w -> once o C o' w.
Proof. by left. Qed.

Lemma once_framed {A} o C o' (m : M W A) : framed m -> keeps (once o C o') m.
Proof. apply framed_keeps. intros w w' (E1 & _ & _) [Ho|[Hc Ho]]; [left|right; split]; congruence. Qed.

Lemma at_framed {A} o (m : M W A) : framed m -> keeps (at_host o) m.
Proof. apply framed_keeps. intros w w' (E1 & _ & _) Ho. unfold at_host in *. congruence. Qed.

Lemma from_ask {A B} o (Q : W -> Prop) (f : Os -> result A) (k : A -> M W B) :
  (forall w, at_host o w -> Q w) -> (forall a, f o = Ok a -> from (at_host o) Q (k a)) -> from (at_host o) Q (ask f ≫= k).
Proof.
  intros HQ Hk w r w' Ho. unfold mbind, M_bind, ask. rewrite Ho. destruct (f o) as [a|e] eqn:Ef.
  - by eapply Hk.
  - intros [= _ <-]. by apply HQ.
Qed.

Lemma once_reply o C o' a n : keeps (once o C o') (send_result_reply cfg sock_of a n).
Proof. apply once_framed. intros w0. apply framed_send_result_reply. Qed.
#[local] Hint Resolve once_reply : keeps.

Lemma from_reply o C o' a n : from (at_host o) (once o C o') (send_result_reply cfg sock_of a n).
Proof. apply from_keeps; [apply at_once|apply once_reply]. Qed.

Lemma from_count {B} o (Q : W -> Prop) k n (m : unit -> M W B) :
  from (at_host o) Q (m tt) -> from (at_host o) Q (count k n ≫= m).
Proof. intros Hm w r w' Ho. unfold mbind, M_bind, count, mmod. apply Hm. exact Ho. Qed.

(** The operation itself, if the host is still [o] *)
Lemma from_operation o (C : Prop) (op : M Os unit) a :
  C -> from (at_host o) (once o C (snd (op o))) (_ ← on_host op; send_result_reply cfg sock_of a 0).
Proof.
  intros HC. apply (from_bind _ (once o C (snd (op o)))); [|done|intros _; apply once_reply].
  intros w r w' Ho. unfold on_host. rewrite Ho. destruct (op o) as [r1 o1]. intros [= _ <-]. by right.
Qed.

(** The entry [p] is what [path] names, reached without a link, and passes [ok]. *)
Definition may_delete (o : Os) (path p : str) (ok : stat_result -> bool) : Prop :=
  read_only cfg = false /\ resolve_entry cfg path o = Ok (Some p) /\ through_linked_folder cfg path o = Ok false /\
  exists st, os_lstat p o = Ok st /\ ok st = true.

Definition entry_of (o : Os) (path : str) : str :=
  match resolve_entry cfg path o with Ok (Some p) => p | _ => [] end.

Lemma remove_once o a payload : let path := client_path (zdrop 4 payload) in let p := entry_of o path in
  from (at_host o) (once o (may_delete o path p (fun st => negb (S_ISDIR st))) (snd (os_unlink p o)))
    (handle_remove cfg sock_of a payload).
Proof.
  cbv zeta. unfold handle_remove, entry_of. set (path := client_path _).
  destruct (_ <? 4); [apply from_reply|]. cbv zeta. apply from_count. destruct (read_only cfg) eqn:Hro; [apply from_reply|].
  apply from_ask; [intros w; apply at_once|]. intros [p|] Ep; rewrite Ep; [|apply from_reply].
  apply from_on_oserror; [|intros c; apply once_reply].
  apply from_ask; [intros w; apply at_once|]. intros [] El; [apply from_reply|].
  apply from_ask; [intros w; apply at_once|]. intros st Est. destruct (S_ISDIR st) eqn:Ed; [apply from_reply|].
  apply from_operation. split_and!; try done. exists st. by rewrite Ed.
Qed.

Lemma rmdir_once o a payload : let path := client_path (zdrop 4 payload) in let p := entry_of o path in
  from (at_host o) (once o (root_dir cfg <> Some p /\ may_delete o path p S_ISDIR) (snd (os_rmdir p o)))
    (handle_rmdir cfg sock_of a payload).
Proof.
  cbv zeta. unfold handle_rmdir, entry_of. set (path := client_path _).
  destruct (_ <? 4); [apply from_reply|]. cbv zeta. apply from_count. destruct (read_only cfg) eqn:Hro; [apply from_reply|].
  apply from_ask; [intros w; apply at_once|]. intros [p|] Ep; rewrite Ep; [|apply from_reply].
  destruct (bool_decide_reflect (root_dir cfg = Some p)) as [|Hroot]; [apply from_reply|].
  apply from_on_oserror; [|intros c; apply once_reply].
  apply from_ask; [intros w; apply at_once|]. intros [] El; [apply from_reply|].
  apply from_ask; [intros w; apply at_once|]. intros st Est. destruct (S_ISDIR st) eqn:Ed; cbn [negb]; [|apply from_reply].
  apply from_operation. split; [done|]. unfold may_delete. split_and!; try done. by exists st.
Qed.

Lemma may_delete_named o rs path p ok : root_ok cfg o rs -> dotdot_goes_up o -> may_delete o path p ok ->
  p = abs_path (goes_to rs (entry_parts path)) /\ way (plain_entry o) rs (removelast (entry_parts path)).
Proof. intros Hrs Hup (_ & Hp & Hl & _). by apply (entry_named cfg). Qed.

(** C1. Deletions are exact.  REMOVE and RMDIR either leave the host alone, or make one call
    on the entry that the client's path names, where each [..] leads to the folder above
    ([goes_to]): [unlink] of something that is no directory, [rmdir] of a directory other than
    the share's root, on a writable server.  Every folder that the path enters on the way is
    then there and neither a symbolic link nor a junction ([plain_entry]) -- also one that a
    later [..] leaves again, as in [missing/../link/x] -- so nothing is deleted through a
    link.  The share lies at a path without links, as [realpath] leaves it, and the host takes
    [..] behind a folder for the folder above ([dotdot_goes_up]). *)
Theorem deletion_exact rs a payload (w : W) r w' :
  let path := client_path (zdrop 4 payload) in
  let p := abs_path (goes_to rs (entry_parts path)) in
  let allowed (ok : stat_result -> bool) := read_only cfg = false /\
    way (plain_entry (host w)) rs (removelast (entry_parts path)) /\
    exists st, os_lstat p (host w) = Ok st /\ ok st = true in
  root_ok cfg (host w) rs -> dotdot_goes_up (host w) ->
  (handle_remove cfg sock_of a payload w = (r, w') ->
     host w' = host w \/ (allowed (fun st => negb (S_ISDIR st)) /\ host w' = snd (os_unlink p (host w)))) /\
  (handle_rmdir cfg sock_of a payload w = (r, w') ->
     host w' = host w \/ (allowed S_ISDIR /\ p <> abs_path rs /\ host w' = snd (os_rmdir p (host w)))).
Proof.
  intros path p allowed Hrs Hup. split; intros Hr.
  - destruct (remove_once (host w) a payload w r w' eq_refl Hr) as [|[Hm Ho]]; [by left|right]. fold path in Hm, Ho.
    destruct (may_delete_named _ _ _ _ _ Hrs Hup Hm) as [Ep Hw]. rewrite Ep in *. destruct Hm as (? & _ & _ & ?).
    by split_and!.
  - destruct (rmdir_once (host w) a payload w r w' eq_refl Hr) as [|[[Hroot Hm] Ho]]; [by left|right]. fold path in Hroot, Hm, Ho.
    destruct (may_delete_named _ _ _ _ _ Hrs Hup Hm) as [Ep Hw]. rewrite Ep in *. destruct Hm as (? & _ & _ & ?).
    destruct Hrs as (Hr' & _). fold p in Hroot. split_and!; try done. congruence.
Qed.
End removal.

(** ** A loop of links defeats the check *)

(** A share [/s] with a link [loop] to itself and a link [out] to a folder outside *)
Definition looped_share : toy := {|
  t_nodes := [(lit "/s", N_dir); (lit "/s/loop", N_link (lit "loop")); (lit "/s/out", N_link (lit "/etc"));
              (lit "/etc", N_dir); (lit "/etc/passwd", N_file (lit "root"))];
  t_files := []; t_next := 3
|}.

(** [realpath] stops resolving at a loop, and what follows is only normalised: the
    link [out] is refused by itself, but not after [loop/..], where the path that is
    handed to the host still goes through it. *)
Example loop_escape :
  resolve_path (toy_config false) (lit "out/passwd") looped_share = Ok None /\
  resolve_path (toy_config false) (lit "loop/../out/passwd") looped_share = Ok (Some (lit "/s/out/passwd")).
Proof. split; vm_compute; reflexivity. Qed.
