(* ===== verification/WriteFacts.v ===== *)
(** * The write protocol

    Theorems about the write state machine of [Handlers]: a refused write leaves nothing
    behind, and the chunks of an accepted one are assembled and stored at once. *)

From S2P Require Import Prelude PyStr SessionStats Compressed HostOs ChdCue Wire Session Transport TransportFacts TransferFacts ReplyFacts Paths Handlers Server HandlersFacts Toy.

Section writes.
Context {Os : Type} `{HostOs Os} `{Codecs} (cfg : config) (sock_of : session -> socket).
Abbreviation W := (world Os).

(** ** Refused writes *)

(** WRITE_DATA datagrams, each handled as the worker does *)
Fixpoint feed (a : addr) (payloads : list bytes) : M W unit :=
  match payloads with
  | [] => mret tt
  | p :: payloads => _ ← swallow (handle_write_data cfg sock_of a p); feed a payloads
  end.

(** No write in progress, the host and the handles as they were *)
Definition idle_write (o : Os) (hs : list (Z * file_handle)) (w : W) : Prop :=
  host w = o /\ write_handle (sess w) = -1 /\ handles (sess w) = hs.

Lemma idle_framed {A} o hs (m : M W A) : framed m -> keeps (idle_write o hs) m.
Proof.
  apply framed_keeps. intros w w' (E1 & _ & E3) (? & Hw & Hh). split_and!; [congruence|..].
  - by rewrite (erase_field write_handle erase_tx _ (sess w)).
  - by rewrite (erase_field handles erase_tx _ (sess w)).
Qed.

Lemma idle_count o hs k n : keeps (idle_write o hs) (count k n).
Proof. by intros w r w' Hw [= _ <-]. Qed.

Lemma idle_reset o hs w r w' :
  host w = o -> handles (sess w) = hs -> smod reset_write w = (r, w') -> idle_write o hs w'.
Proof. by intros <- <- [= _ <-]. Qed.

#[local] Hint Resolve idle_count : keeps.
#[local] Hint Extern 3 (keeps (idle_write _ _) _) => (apply idle_framed; intros ?; solve [eauto 2 with keeps]) : keeps.

Lemma idle_write_data o hs a p : keeps (idle_write o hs) (handle_write_data cfg sock_of a p).
Proof.
  unfold handle_write_data. destruct (_ <? 8); [eauto with keeps|].
  apply keeps_bind; [apply keeps_lift|intros vs]. cbv zeta. apply sget_bind. intros s w r w' [Hw <-].
  rewrite (proj1 (proj2 Hw)). revert w r w' Hw. refine (_ : keeps _ _). eauto with keeps.
Qed.

Lemma idle_feed o hs a ps : keeps (idle_write o hs) (feed a ps).
Proof.
  induction ps as [|p ps IH]; cbn [feed]; [apply keeps_ret|].
  apply keeps_bind; [apply keeps_swallow, idle_write_data|done].
Qed.

(** The handle is no open file, or not one that the host lets be written. *)
Definition not_writable (fh : option file_handle) (o : Os) : Prop :=
  forall f, plain_handle fh = Some (F_file f) -> f_writable f o <> Ok true.

Lemma idle_not_writable o hs a fh k : not_writable (Some fh) o -> plain_handle (Some fh) = Some fh ->
  keeps (idle_write o hs) (ok ← writable fh; if negb ok then send_write_done cfg sock_of a (- EACCES) else k).
Proof.
  intros Hn Hp. assert (Hsend : keeps (idle_write o hs) (send_write_done cfg sock_of a (- EACCES))) by eauto with keeps.
  destruct fh as [f| | |]; try exact Hsend. specialize (Hn f Hp). intros w r w' Hw. pose proof Hw as (Ho & _).
  unfold writable, mcatch, ask, mbind, M_bind. rewrite Ho. destruct (f_writable f o) as [[]|e]; [done|by apply Hsend|].
  destruct e; try (by apply Hsend); by intros [= _ <-].
Qed.

(** What a refused WRITE does once the fields of the request are read *)
Lemma idle_refused o hs a req vs :
  fields_of [fB; fB; fB; fB; fi; fI] req = Ok vs -> 12 <= zlen req ->
  read_only cfg = true \/ max_transfer_bytes cfg < nth 5 vs 0 \/ not_writable (hget (nth 4 vs 0) hs) o ->
  from (fun w => host w = o /\ handles (sess w) = hs) (idle_write o hs) (handle_write_req cfg sock_of a req).
Proof.
  intros Hv Hl Hcase. unfold handle_write_req. rewrite (proj2 (Z.ltb_ge (zlen req) 12)), Hv by done.
  eapply from_bind; [by intros w r w' [Ho Hh]; apply idle_reset|done|]. intros _.
  refine (keeps_lift_bind (idle_write o hs) _ _ _). intros vs' [= <-]. cbv zeta. apply keeps_bind; [eauto with keeps|intros _].
  apply keeps_bind; [eauto with keeps|intros _]. destruct (read_only cfg); [eauto with keeps|].
  destruct (Z.ltb_spec (max_transfer_bytes cfg) (nth 5 vs 0)) as [|Hle]; [eauto with keeps|].
  destruct Hcase as [|[|Hnw]]; [done|lia|]. apply get_handle_bind. intros fh w r w' [Hw <-].
  replace (handles (sess w)) with hs by (by symmetry; apply Hw).
  destruct (plain_handle (hget (nth 4 vs 0) hs)) as [fh|] eqn:Ep; revert w r w' Hw.
  - assert (hget (nth 4 vs 0) hs = Some fh) as Eg by (by unfold plain_handle in Ep; repeat case_match; simplify_eq).
    rewrite Eg in Hnw, Ep. by refine (idle_not_writable o hs a fh _ Hnw Ep).
  - refine (_ : keeps _ _). eauto with keeps.
Qed.

(** C8. A WRITE that the server refuses -- because it is read-only, the declared size is too
    large, the handle is no open file or a compressed image, or the file is not open for
    writing -- leaves nothing behind: the chunks the console goes on to send, in whatever
    number and order, are acknowledged and dropped.  None reaches a file, no matter what write
    came before. *)
Theorem refused_write_dropped a req vs payloads (w : W) r1 w1 r2 w2 :
  12 <= zlen req -> fields_of [fB; fB; fB; fB; fi; fI] req = Ok vs ->
  read_only cfg = true \/ max_transfer_bytes cfg < nth 5 vs 0 \/
    not_writable (hget (nth 4 vs 0) (handles (sess w))) (host w) ->
  handle_write_req cfg sock_of a req w = (r1, w1) -> feed a payloads w1 = (r2, w2) ->
  host w2 = host w /\ write_handle (sess w2) = -1 /\ handles (sess w2) = handles (sess w).
Proof.
  intros Hl Hv Hcase Hr1 Hr2. eapply (idle_feed (host w) (handles (sess w))); [|exact Hr2].
  by eapply (idle_refused (host w) (handles (sess w))).
Qed.

(** ** Chunks are assembled *)

(** While nothing fails on the network: only the transport changed, and more was sent *)
Definition quietly (w w' : W) : Prop :=
  transport_eq w w' /\ net w' = [] /\ exists l, sent w' = sent w ++ l.

Lemma quietly_trans w w1 w' : quietly w w1 -> quietly w1 w' -> quietly w w'.
Proof.
  intros (E1 & _ & l1 & S1) (E2 & N2 & l2 & S2). split_and!; [by etransitivity|done|].
  exists (l1 ++ l2). by rewrite S2, S1, app_assoc.
Qed.

Lemma send_quiet sock pkt a (w : W) :
  net w = [] -> exists w', send_specific (tx_delay cfg) sock pkt a w = (Ok tt, w') /\
    quietly w w' /\ sent w' = sent w ++ [(sock, a, pkt)].
Proof.
  intros Hn. destruct (send_specific (tx_delay cfg) sock pkt a w) as [r w'] eqn:E. exists w'.
  assert (Ht : transport_eq w w') by (eapply framed_at; [intros w0; apply framed_send_specific|exact E]).
  assert (Hx : r = Ok tt /\ net w' = [] /\ sent w' = sent w ++ [(sock, a, pkt)]).
  { revert E. unfold send_specific. change (Z.to_nat MAX_SEND_RETRIES) with (S 9). generalize 9%nat as tries. intros tries. cbn [send_attempts].
    set (w1 := if 0 <? tx_delay cfg then _ else _).
    assert (H1 : net w1 = net w /\ sent w1 = sent w) by (unfold w1; by destruct (0 <? tx_delay cfg)).
    destruct H1 as [N1 S1]. rewrite N1, Hn, <- S1. intros [= <- <-]. cbn. by rewrite N1, Hn. }
  destruct Hx as (-> & Hn' & Hs). split_and!; [done| |done]. split_and!; [done|done|]. by eexists.
Qed.

Lemma send_ack_quiet a b (w : W) :
  net w = [] -> exists w', send_ack sock_of (tx_delay cfg) a b w = (Ok tt, w') /\ quietly w w'.
Proof.
  intros Hn. unfold send_ack, sendto, sget, mget, mbind, M_bind. cbn [id].
  destruct (send_quiet (sock_of (sess w)) (data_packet (tx_seq_nr (sess w))
    {| DataHeader.seq_nr_ack := if b then seq12 (rx_seq_nr_expected (sess w) - 1) else rx_seq_nr_expected (sess w);
       DataHeader.flags := if b then ACK else 0;
       DataHeader.hdr_word_count := 0; DataHeader.data_byte_count := 0 |} []) a w Hn) as (w' & E & Hq & _).
  by exists w'.
Qed.

(** The eight bytes of a WRITE_DONE reply *)
Definition write_done (n : Z) : bytes := [WRITE_DONE; 0; 0; 0] ++ le_bytes 4 n.

Lemma send_write_done_quiet a n (w : W) :
  net w = [] -> 0 <= n < 2 ^ 31 ->
  exists w' sk seq ack, send_write_done cfg sock_of a n w = (Ok tt, w') /\ quietly w w' /\
    sent w' = sent w ++ [(sk, a, data_packet seq {| DataHeader.seq_nr_ack := ack; DataHeader.flags := FIN;
                                  DataHeader.hdr_word_count := 0; DataHeader.data_byte_count := 8 |} (write_done n))].
Proof.
  intros Hn Hr. unfold send_write_done. rewrite (proj2 (Z.ltb_ge n 0)) by lia. cbn [mwhen].
  unfold send_result, send_packed.
  assert (Hp : pack [(fB, WRITE_DONE); (fB, 0); (fB, 0); (fB, 0); (fi, n)] = Some (write_done n)).
  { assert (Hf : fits fi n = true) by (unfold fits; change (256 ^ Z.of_nat 4 / 2) with (2 ^ 31); rewrite andb_true_iff, Z.leb_le, Z.ltb_lt; lia).
    cbn -[fits le_bytes]. rewrite Hf. reflexivity. }
  rewrite Hp. cbn [struct_result]. unfold mbind at 1 2, M_bind at 1 2, mret, M_ret, lift. rewrite app_nil_r.
  unfold send_data, sendto. change (zlen (write_done n)) with 8. change (pad4 8) with 8.
  unfold sget, mget, smod, mmod. unfold mbind, M_bind. cbn [id].
  set (pkt := data_packet _ _ _). set (w1 := w <| sess ::= _ |>).
  destruct (send_quiet (sock_of (sess w1)) pkt a w1) as (w2 & -> & Hq & Hs); [done|].
  do 4 eexists. split; [reflexivity|]. split; [|cbn; rewrite Hs; reflexivity].
  destruct Hq as ((E1 & E2 & E3) & N2 & _). split_and!; [split_and!; [done|done|]|done|].
  - cbn. exact E3.
  - cbn. rewrite Hs. by eexists.
Qed.

(** Chunk [k] of [total], with its data *)
Definition chunk_payload (k total : Z) (c : bytes) : bytes :=
  [WRITE_DATA; 0] ++ le_bytes 2 k ++ le_bytes 2 (zlen c) ++ le_bytes 2 total ++ c.

Fixpoint chunk_payloads (k total : Z) (chunks : list bytes) : list bytes :=
  match chunks with [] => [] | c :: chunks => chunk_payload k total c :: chunk_payloads (k + 1) total chunks end.

Lemma chunk_fields k total c :
  0 <= k < 65536 -> 0 <= total < 65536 -> zlen c < 65536 ->
  fields_of [fB; fB; fH; fH; fH] (chunk_payload k total c) = Ok [WRITE_DATA; 0; k; zlen c; total].
Proof.
  intros Hk Ht Hc. pose proof (zlen_nonneg c). unfold fields_of, unpack_prefix, chunk_payload.
  set (fvs := [(fB, WRITE_DATA); (fB, 0); (fH, k); (fH, zlen c); (fH, total)]).
  assert (Hp : pack fvs = Some ([WRITE_DATA; 0] ++ le_bytes 2 k ++ le_bytes 2 (zlen c) ++ le_bytes 2 total)).
  { apply (pack_cons fB WRITE_DATA _ ([0] ++ le_bytes 2 k ++ le_bytes 2 (zlen c) ++ le_bytes 2 total)); [done|].
    apply (pack_cons fB 0 _ (le_bytes 2 k ++ le_bytes 2 (zlen c) ++ le_bytes 2 total)); [done|].
    apply (pack_cons fH); [by apply fits_unsigned|]. apply (pack_cons fH); [by apply fits_unsigned|].
    by apply (pack_single fH), fits_unsigned. }
  pose proof (unpack_prefix_app fvs _ c Hp) as Hu. cbn [fvs map fst snd] in Hu.
  rewrite <- !app_assoc in Hu. by rewrite Hu.
Qed.

Lemma chunk_body k total c : slice (chunk_payload k total c) 8 (8 + zlen c) = c.
Proof.
  unfold chunk_payload, slice. rewrite Z.add_simpl_l.
  change ([WRITE_DATA; 0] ++ le_bytes 2 k ++ le_bytes 2 (zlen c) ++ le_bytes 2 total ++ c)
    with (([WRITE_DATA; 0] ++ le_bytes 2 k ++ le_bytes 2 (zlen c) ++ le_bytes 2 total) ++ c).
  rewrite zdrop_app_length by done. apply ztake_all. lia.
Qed.

Lemma zlen_chunk_payload k total c : zlen (chunk_payload k total c) = 8 + zlen c.
Proof. unfold chunk_payload, zlen. rewrite !length_app, !length_le_bytes. cbn. lia. Qed.

(** A write to handle [h] has received [k] chunks with [data]. *)
Record assembling (o : Os) (hs : list (Z * file_handle)) (cs : counter -> Z) (h : Z) (data : bytes) (k : Z) (w : W) : Prop := {
  as_host : host w = o;
  as_handles : handles (sess w) = hs;
  as_counters : counters w = cs;
  as_handle : write_handle (sess w) = h;
  as_block : write_is_block (sess w) = false;
  as_data : write_data (sess w) = data;
  as_received : write_received_chunks (sess w) = k;
  as_net : net w = []
}.

Lemma assembling_quiet o hs cs h data k w w' :
  assembling o hs cs h data k w -> quietly w w' -> assembling o hs cs h data k w'.
Proof.
  intros [? ? ? ? ? ? ? ?] ((E1 & E2 & E3) & N & _). split; try congruence.
  - rewrite <- as_handles0. by apply (erase_field handles erase_tx).
  - rewrite <- as_handle0. by apply (erase_field write_handle erase_tx).
  - rewrite <- as_block0. by apply (erase_field write_is_block erase_tx).
  - rewrite <- as_data0. by apply (erase_field write_data erase_tx).
  - rewrite <- as_received0. by apply (erase_field write_received_chunks erase_tx).
Qed.

(** What a chunk in its turn does *)
Lemma chunk_arrives o hs cs h data k total c a (w : W) :
  assembling o hs cs h data k w -> 0 <= h -> 0 <= k < total -> total < 65536 -> zlen c < 65536 ->
  zlen data + zlen c <= max_transfer_bytes cfg ->
  exists w1, assembling o hs cs h (data ++ c) (k + 1) w1 /\ sent w1 = sent w /\
    handle_write_data cfg sock_of a (chunk_payload k total c) w =
      (if total <=? k + 1 then complete_write cfg sock_of a else send_ack sock_of (tx_delay cfg) a true) w1.
Proof.
  intros Hw Hh Hk Ht Hc Hm. pose proof (zlen_nonneg c).
  exists (w <| sess ::= fun s => s <| write_data ::= fun d => d ++ c |> <| write_total_chunks := total |>
                                   <| write_received_chunks ::= Z.add 1 |> |>).
  destruct Hw as [? ? ? E4 E5 E6 E7 ?]. split_and!; [|done|].
  - split; cbn; try done; [by rewrite E6|lia].
  - unfold handle_write_data. rewrite zlen_chunk_payload, (proj2 (Z.ltb_ge _ 8)) by lia.
    rewrite chunk_fields by lia. unfold mbind at 1, M_bind at 1, lift. cbn [nth]. cbv zeta. rewrite chunk_body.
    unfold sget, mget, smod, mmod. unfold mbind at 1, M_bind at 1. cbn [id].
    rewrite E4, E6, E7, (proj2 (Z.ltb_ge h 0)), Z.eqb_refl, (proj2 (Z.ltb_ge (max_transfer_bytes cfg) _)) by lia. cbn [negb].
    unfold mbind at 1 2, M_bind at 1 2. cbn [id]. cbn. rewrite E7, E5, (Z.add_comm 1). by destruct (total <=? k + 1).
Qed.

(** The write of [n] bytes is done: the host is [o], no write is in progress, the bytes
    are counted, and the last packet sent since [w] is WRITE_DONE with [n]. *)
Definition written (o : Os) (hs : list (Z * file_handle)) (cs : counter -> Z) (n : Z) (a : addr) (w w' : W) : Prop :=
  host w' = o /\ handles (sess w') = hs /\ write_handle (sess w') = -1 /\
  counters w' = (fun k => if decide (k = n_bytes_written) then cs k + n else cs k) /\
  exists l sk seq ack, sent w' = sent w ++ l ++ [(sk, a, data_packet seq
    {| DataHeader.seq_nr_ack := ack; DataHeader.flags := FIN;
       DataHeader.hdr_word_count := 0; DataHeader.data_byte_count := 8 |} (write_done n))].

Lemma written_from o hs cs n a w w1 w' l : sent w1 = sent w ++ l -> written o hs cs n a w1 w' -> written o hs cs n a w w'.
Proof.
  intros Hl (? & ? & ? & ? & l' & sk & seq & ack & Hs). split_and!; [done..|].
  exists (l ++ l'), sk, seq, ack. by rewrite Hs, Hl, <- !app_assoc.
Qed.

Lemma complete_write_file o hs cs h f data k n o1 o2 a (w : W) :
  assembling o hs cs h data k w -> hget h hs = Some (F_file f) ->
  f_write f data o = (Ok n, o1) -> f_flush f o1 = (Ok tt, o2) -> 0 <= n < 2 ^ 31 ->
  exists w', complete_write cfg sock_of a w = (Ok tt, w') /\ written o2 hs cs n a w w'.
Proof.
  intros Hw Hg Hwr Hfl Hn.
  set (w1 := w <| sess ::= reset_write |> <| host := o2 |>
               <| counters ::= fun c k => if decide (k = n_bytes_written) then c k + n else c k |>).
  destruct (send_write_done_quiet a n w1 (as_net _ _ _ _ _ _ _ Hw) Hn) as (w' & sk & seq & ack & E & Hq & Hs).
  exists w'. destruct Hw as [E1 E2 E3 E4 E5 E6 E7 E8]. split.
  - unfold complete_write, sget, mget, smod, mmod. unfold mbind at 1 2, M_bind at 1 2. cbn [id].
    rewrite E2, E4, Hg. cbn [plain_handle is_dir]. unfold on_oserror, mcatch, obj_write, obj_flush, on_host.
    unfold mbind, M_bind. cbn. rewrite E1, E6, Hwr. cbn. rewrite Hfl. unfold count, mmod.
    match goal with |- context [send_write_done cfg sock_of a n ?x] => change x with w1 end. by rewrite E.
  - destruct Hq as ((Q1 & Q2 & Q3) & _ & _). split_and!.
    + by rewrite Q1.
    + rewrite <- E2. by apply (erase_field handles erase_tx _ (sess w1)).
    + by apply (erase_field write_handle erase_tx _ (sess w1)).
    + rewrite Q2. cbn. by rewrite E3.
    + exists [], sk, seq, ack. by rewrite Hs.
Qed.

Lemma swallow_ok (m : M W unit) w w' : m w = (Ok tt, w') -> swallow m w = (Ok tt, w').
Proof. intros E. unfold swallow, mcatch. by rewrite E. Qed.

Lemma feed_cons a p ps w w' : handle_write_data cfg sock_of a p w = (Ok tt, w') -> feed a (p :: ps) w = feed a ps w'.
Proof. intros E. cbn [feed]. unfold mbind, M_bind. by rewrite (swallow_ok _ _ _ E). Qed.

Lemma chunks_arrive hs cs h f o a total n o1 o2 chunks : forall data k (w : W),
  assembling o hs cs h data k w -> hget h hs = Some (F_file f) -> 0 <= h -> 0 <= k -> chunks <> [] ->
  k + zlen chunks = total -> total < 65536 -> Forall (fun c => zlen c < 65536) chunks ->
  zlen (data ++ concat chunks) <= max_transfer_bytes cfg ->
  f_write f (data ++ concat chunks) o = (Ok n, o1) -> f_flush f o1 = (Ok tt, o2) -> 0 <= n < 2 ^ 31 ->
  exists w', feed a (chunk_payloads k total chunks) w = (Ok tt, w') /\ written o2 hs cs n a w w'.
Proof.
  induction chunks as [|c chunks IH]; intros data k w Hw Hg Hh Hk Hne Ht Ht' Hc Hm Hwr Hfl Hn; [done|].
  apply Forall_cons in Hc as [Hc Hcs]. rewrite zlen_cons in Ht. pose proof (zlen_nonneg chunks).
  cbn [concat] in Hm, Hwr. rewrite app_assoc in Hm, Hwr.
  assert (Hm1 : zlen data + zlen c <= max_transfer_bytes cfg)
    by (rewrite zlen_app, zlen_app in Hm; pose proof (zlen_nonneg (concat chunks)); lia).
  destruct (chunk_arrives _ _ _ _ _ _ total c a w Hw Hh ltac:(lia) Ht' Hc Hm1) as (w1 & Hw1 & S1 & E).
  assert (S1' : sent w1 = sent w ++ []) by (by rewrite app_nil_r). cbn [chunk_payloads].
  destruct chunks as [|c' chunks].
  - change (zlen []) with 0 in Ht. rewrite (proj2 (Z.leb_le _ _)) in E by lia. cbn [concat] in Hwr. rewrite app_nil_r in Hwr.
    destruct (complete_write_file _ _ _ _ _ _ _ _ _ _ a _ Hw1 Hg Hwr Hfl Hn) as (w' & E' & Hd). exists w'. split.
    + rewrite E' in E. by rewrite (feed_cons _ _ _ _ _ E).
    + by eapply written_from.
  - rewrite zlen_cons in Ht. pose proof (zlen_nonneg chunks). rewrite (proj2 (Z.leb_gt _ _)) in E by lia.
    destruct (send_ack_quiet a true w1 (as_net _ _ _ _ _ _ _ Hw1)) as (w2 & E2 & Hq). rewrite E2 in E.
    destruct (IH (data ++ c) (k + 1) w2) as (w' & E' & Hd); try done; try lia.
    + by eapply assembling_quiet.
    + rewrite zlen_cons. lia.
    + exists w'. split; [by rewrite (feed_cons _ _ _ _ _ E)|].
      destruct Hq as (_ & _ & l & S2). eapply (written_from _ _ _ _ _ _ w1); [exact S1'|]. by eapply written_from.
Qed.

(** The twelve bytes of a WRITE_REQ, and the request with what follows it *)
Definition write_request (h size : Z) : bytes := [WRITE_REQ; 0; 0; 0] ++ le_bytes 4 h ++ le_bytes 4 size.

Definition write_exchange (a : addr) (h size : Z) (inline : bool) (payloads : list bytes) : M W unit :=
  _ ← swallow (handle_write_req cfg sock_of a (write_request h size ++ if inline then hd [] payloads else []));
  feed a (if inline then tail payloads else payloads).

Lemma write_request_fields h size rest :
  0 <= h < 2 ^ 31 -> 0 <= size < 2 ^ 32 ->
  fields_of [fB; fB; fB; fB; fi; fI] (write_request h size ++ rest) = Ok [WRITE_REQ; 0; 0; 0; h; size].
Proof.
  intros Hh Hs. unfold fields_of, unpack_prefix.
  assert (Hf : fits fi h = true) by (unfold fits; change (256 ^ Z.of_nat 4 / 2) with (2 ^ 31); rewrite andb_true_iff, Z.leb_le, Z.ltb_lt; lia).
  assert (Hg : fits fI size = true) by (by apply fits_unsigned).
  set (fvs := [(fB, WRITE_REQ); (fB, 0); (fB, 0); (fB, 0); (fi, h); (fI, size)]).
  assert (Hp : pack fvs = Some (write_request h size)) by (cbn -[fits le_bytes]; by rewrite Hf, Hg).
  pose proof (unpack_prefix_app fvs _ rest Hp) as Hu. cbn [fvs map fst snd] in Hu. by rewrite Hu.
Qed.

Lemma zlen_write_request h size : zlen (write_request h size) = 12.
Proof. done. Qed.

(** An accepted WRITE_REQ starts an empty write; what follows the twelve bytes is its
    first chunk. *)
Lemma write_request_accepted a h size rest f (w : W) :
  read_only cfg = false -> 0 <= h < 2 ^ 31 -> 0 <= size < 2 ^ 32 -> size <= max_transfer_bytes cfg -> net w = [] ->
  hget h (handles (sess w)) = Some (F_file f) -> f_writable f (host w) = Ok true ->
  exists w1, sent w1 = sent w /\
    assembling (host w) (handles (sess w)) (fun k => if decide (k = n_write) then counters w k + 1 else counters w k)
      h [] 0 w1 /\
    handle_write_req cfg sock_of a (write_request h size ++ rest) w =
      (if 0 <? zlen rest then handle_write_data cfg sock_of a rest else send_ack sock_of (tx_delay cfg) a true) w1.
Proof.
  intros Hro Hh Hs Hm Hn Hg Hw. pose proof (zlen_nonneg rest).
  eexists. split; cycle 1; [split; cycle 1|].
  - unfold handle_write_req, smod, mmod. unfold mbind at 1, M_bind at 1.
    rewrite zlen_app, zlen_write_request, (proj2 (Z.ltb_ge _ 12)), write_request_fields by lia.
    rewrite zdrop_app_length by done.
    unfold mbind at 1 2 3, M_bind at 1 2 3, lift, count, session_record, mmod. cbn [nth].
    rewrite Hro, (proj2 (Z.ltb_ge _ size)) by done. unfold get_handle, sget, mget. unfold mbind at 1, M_bind at 1.
    cbn [sess]. cbn -[handle_write_data send_ack zlen zdrop]. rewrite Hg.
    unfold mbind, M_bind, mcatch, ask. cbn -[handle_write_data send_ack zlen zdrop]. rewrite Hw.
    cbn -[handle_write_data send_ack zlen].
    replace (12 <? 12 + zlen rest) with (0 <? zlen rest); [reflexivity|].
    destruct (Z.ltb_spec 0 (zlen rest)), (Z.ltb_spec 12 (12 + zlen rest)); lia || done.
  - split; done.
  - done.
Qed.

(** C3. A WRITE whose chunks arrive in order -- the first in the request itself or in a
    datagram of its own -- stores the concatenation of the chunks at the file's position
    in one write followed by a flush, counts the bytes written, leaves no write in
    progress, and ends with a WRITE_DONE that carries the number of bytes written. *)
Theorem write_assembles a h size inline chunks f n o1 o2 (w : W) :
  read_only cfg = false -> 0 <= h < 2 ^ 31 -> 0 <= size < 2 ^ 32 -> size <= max_transfer_bytes cfg ->
  hget h (handles (sess w)) = Some (F_file f) -> f_writable f (host w) = Ok true -> net w = [] ->
  chunks <> [] -> zlen chunks < 65536 -> Forall (fun c => zlen c < 65536) chunks ->
  zlen (concat chunks) <= max_transfer_bytes cfg ->
  f_write f (concat chunks) (host w) = (Ok n, o1) -> f_flush f o1 = (Ok tt, o2) -> 0 <= n < 2 ^ 31 ->
  exists w', write_exchange a h size inline (chunk_payloads 0 (zlen chunks) chunks) w = (Ok tt, w') /\
    written o2 (handles (sess w)) (fun k => if decide (k = n_write) then counters w k + 1 else counters w k) n a w w'.
Proof.
  intros Hro Hh Hs Hm Hg Hw Hn Hne Hl Hc Hd Hwr Hfl Hr. unfold write_exchange.
  set (ps := chunk_payloads 0 (zlen chunks) chunks). set (rest := if inline then hd [] ps else []).
  destruct (write_request_accepted a h size rest f w Hro Hh Hs Hm Hn Hg Hw) as (w1 & S1 & Hw1 & E).
  assert (Hall : forall w2, assembling (host w) (handles (sess w))
                   (fun k => if decide (k = n_write) then counters w k + 1 else counters w k) h [] 0 w2 ->
                 exists w', feed a ps w2 = (Ok tt, w') /\ written o2 (handles (sess w))
                   (fun k => if decide (k = n_write) then counters w k + 1 else counters w k) n a w2 w').
  { intros w2 Hw2. eapply chunks_arrive; [exact Hw2|exact Hg|lia|lia|done|done|done|done|done|exact Hwr|exact Hfl|done]. }
  destruct inline; unfold rest in *; clear rest.
  - destruct chunks as [|c chunks]; [done|]. unfold ps in *. cbn [chunk_payloads hd tail] in *.
    rewrite zlen_chunk_payload, (proj2 (Z.ltb_lt 0 _)) in E by (pose proof (zlen_nonneg c); lia).
    destruct (Hall w1 Hw1) as (w' & Hf & Hd'). exists w'. split; [|by apply (written_from _ _ _ _ _ _ w1 _ []); [rewrite app_nil_r|]].
    rewrite <- Hf. cbn [feed]. unfold mbind, M_bind, swallow, mcatch. by rewrite E.
  - destruct (send_ack_quiet a true w1 (as_net _ _ _ _ _ _ _ Hw1)) as (w2 & E2 & Hq).
    change (0 <? zlen []) with false in E. cbv iota in E. rewrite E2 in E.
    destruct (Hall w2) as (w' & Hf & Hd'); [by eapply assembling_quiet|]. exists w'. split.
    + unfold mbind, M_bind. by rewrite (swallow_ok _ _ _ E).
    + destruct Hq as (_ & _ & l & S2). eapply written_from; [|exact Hd']. by rewrite S2, S1.
Qed.
End writes.
