(* ===== verification/Core.v ===== *)
(** * The Core server: one protocol profile per session

    Models [AutoUdpfsServer] of [udpfs_server/ps2servers_core.py], which inherits the
    handlers and replaces how a client's protocol is found out: the classification of a
    peer from its sequence numbers, discovery that never ends a running stream, the
    delayed compatibility INFORM, the handoff from a loader to the game's own client,
    and the choice of the socket replies leave from. *)

From S2P Require Import Prelude PyStr SessionStats Compressed HostOs ChdCue Wire Session Transport Paths Handlers Server.

(** [classify_profile] *)
Definition classify_profile (discovery_sequence first_data_sequence : Z) : profile :=
  let discovery_sequence := seq12 discovery_sequence in
  let first_data_sequence := seq12 first_data_sequence in
  let modulo_sequence := seq12 (discovery_sequence + 1) in
  if (first_data_sequence =? modulo_sequence)
     && (negb (first_data_sequence =? 0) || negb (discovery_sequence =? 0)) then MODULO
  else if (discovery_sequence =? 0) && (first_data_sequence =? 0) then STANDARD
  else if first_data_sequence =? modulo_sequence then MODULO
  else STANDARD.

(** [_reset_transport_state] *)
Definition reset_transport_state (p : profile) (s : session) : session :=
  s <| tx_seq_nr := 0 |> <| tx_seq_nr_acked := 0 |> <| rx_seq_nr_expected := 0 |> <| tx_buffer := [] |>
    <| tx_start_seq := 0 |> <| last_bread_reply := None |> <| write_handle := -1 |>
    <| write_is_block := false |> <| write_sector_nr := 0 |> <| write_sector_count := 0 |>
    <| write_data := [] |> <| write_total_chunks := 0 |> <| write_received_chunks := 0 |>
    <| rx_streaming := false |> <| protocol_profile := p |> <| response_socket := sock_data |>
    <| fallback_sent := false |> <| first_data_seen := false |>
    <| pending_zero_discovery_at := None |> <| pending_discovery_sequence := None |>.

Section core.
Context {Os : Type} `{HostOs Os} `{Codecs} (cfg : config) (st : settings).

Abbreviation W := (world Os).
Abbreviation V := (@server Os).

(** The socket of [_sendto] *)
Definition core_socket (s : session) : socket :=
  if single_port st then sock_data else response_socket s.

(** The profile a session (re)starts with *)
Definition start_profile : profile := initial_profile st.

(** The loop of [_reset_session_state]: each handle but the block device is closed and
    removed. *)
Fixpoint drop_handles (l : list (Z * file_handle)) : M W unit :=
  match l with
  | [] => mret tt
  | (h, fh) :: l =>
      _ ← (if h =? BLOCK_DEVICE_HANDLE then mret tt
           else _ ← swallow (fh_close fh); smod (fun s => s <| handles ::= hdel h |>));
      drop_handles l
  end.

(** [_reset_session_state] *)
Definition reset_session_state (p : profile) : M W unit :=
  s ← sget id;
  _ ← drop_handles (handles s);
  smod (fun s => reset_transport_state p (s <| next_handle := 1 |>)).

(** [_canonical_inform] *)
Definition canonical_inform (a : addr) : M W unit :=
  packet ← lift (inform_packet 1 0);
  send_specific (tx_delay cfg) sock_data packet a.

(** [_compatibility_inform] *)
Definition compatibility_inform : M W unit :=
  s ← sget id;
  packet ← lift (inform_packet (tx_seq_nr s) 0);
  _ ← send_specific (tx_delay cfg) sock_discovery (packet ++ info_payload st) (s_addr s);
  smod (fun s => s <| tx_seq_nr_acked := tx_seq_nr s |> <| tx_seq_nr := seq12 (tx_seq_nr s + 1) |>
                   <| fallback_sent := true |>).

(** The body of the timer of [_schedule_fallback], on the session it was started for *)
Definition fallback (generation : Z) : M W unit :=
  s ← sget id;
  if negb (handshake_generation s =? generation) || negb (bool_decide (protocol_profile s = PENDING))
     || first_data_seen s || rx_streaming s || fallback_sent s
  then mret tt else compatibility_inform.

(** ** Discovery *)

(** The part of [_handle_discovery] under the session's lock: the generation a fallback is
    scheduled for. *)
Definition answer_discovery (a : addr) (seq : Z) : M W (option Z) :=
  now ← mget clock;
  s ← sget id;
  if bool_decide (protocol_mode st = Mode_modulo) then
    if is_repeated_probe seq now s then
      packet ← lift (inform_packet (seq12 (tx_seq_nr s - 1)) 0);
      _ ← send_specific (tx_delay cfg) sock_discovery (packet ++ info_payload st) (s_addr s);
      mret None
    else
      _ ← smod (fun s => s <| last_disc := Some (seq, now) |> <| rx_seq_nr_expected := seq12 (seq + 1) |>
                           <| response_socket := sock_discovery |>);
      _ ← compatibility_inform;
      mret None
  else if rx_streaming s then
    _ ← smod (fun s =>
          if seq =? 0 then s <| pending_zero_discovery_at := Some now |> <| pending_discovery_sequence := None |>
          else s <| pending_discovery_sequence := Some seq |> <| pending_zero_discovery_at := None |>);
    _ ← canonical_inform a;
    mret None
  else
    _ ← reset_session_state start_profile;
    _ ← smod (fun s => s <| discovery_sequence := seq |> <| handshake_generation ::= Z.add 1 |>);
    s ← sget id;
    if bool_decide (protocol_mode st = Mode_standard) then
      _ ← smod (fun s => s <| rx_seq_nr_expected := 0 |>);
      _ ← canonical_inform a;
      mret None
    else
      _ ← canonical_inform a;
      mret (Some (handshake_generation s)).

(** [_schedule_fallback]: the timer is started *)
Definition schedule_fallback (a : addr) (generation : Z) : M V unit :=
  mmod (fun v => v <| v_peers ::= peer_update a (fun p =>
         p <| p_timers ::= fun l => l ++ [(v_clock v + fallback_interval st, generation)] |>) |>).

(** [_handle_discovery] *)
Definition handle_discovery (a : addr) (data : bytes) : M V unit :=
  if zlen data <? 6 then mret tt
  else
    answered ← maybe_answer_status cfg st a data;
    if (answered : bool) then mret tt
    else
      match (hdr ← Header.unpack data; disc ← DiscHeader.unpack (slice data 2 6); Ok (hdr, disc)) with
      | Err _ => mret tt
      | Ok (hdr, disc) =>
          if negb (DiscHeader.service_id disc =? UDPRDMA_SVC_UDPFS) then mret tt
          else
            _ ← vcount n_discovery 1;
            _ ← get_or_create cfg st a;
            generation ← on_session a (answer_discovery a (Header.seq_nr hdr));
            match generation with
            | Some g => schedule_fallback a g
            | None => mret tt
            end
      end.

(** ** Data *)

(** Header and payload size of a DATA packet, as the Core reads them *)
Definition data_sizes (data : bytes) : result (Header.t * Z) :=
  hdr ← Header.unpack data;
  h ← DataHeader.unpack (slice data 2 6);
  Ok (hdr, DataHeader.payload_size h).

(** [_route_data_via] *)
Definition route_data_via (a : addr) (data : bytes) (from : socket) : M V unit :=
  if zlen data <? 6 then mret tt
  else match data_sizes data with
       | Err _ => mret tt
       | Ok (hdr, payload_size) =>
           if negb (Header.packet_type hdr =? DATA) then mret tt
           else if zlen data - 6 <? payload_size then mret tt
           else _ ← get_or_create cfg st a; enqueue a (Some (data, a, Some from))
       end.

(** A handoff inside a session: the transport starts again, the handles stay *)
Definition hand_off (discovery : Z) (s : session) : session :=
  reset_transport_state start_profile s <| discovery_sequence := discovery |> <| handshake_generation ::= Z.add 1 |>.

(** A nonzero discovery is resolved by the first payload that follows it. *)
Definition resolve_nonzero (seq : Z) (s : session) : session :=
  match pending_discovery_sequence s with
  | None => s
  | Some pending =>
      if seq =? rx_seq_nr_expected s then s <| pending_discovery_sequence := None |>
      else if seq =? seq12 (pending + 1) then hand_off pending s
      else s
  end.

(** A zero discovery likewise; a replacement starts at sequence 0 or 1. *)
Definition resolve_zero (seq : Z) (s : session) : session :=
  match pending_zero_discovery_at s with
  | None => s
  | Some _ =>
      if seq =? rx_seq_nr_expected s then s <| pending_zero_discovery_at := None |>
      else if (seq =? 0) || (seq =? 1) then hand_off 0 s
      else s
  end.

(** The first payload of a pending session fixes its profile. *)
Definition fix_profile (seq : Z) (from : socket) : M W unit :=
  s ← sget id;
  let p := classify_profile (discovery_sequence s) seq in
  _ ← smod (fun s => s <| protocol_profile := p |> <| response_socket := from |> <| first_data_seen := true |>);
  match p with
  | MODULO =>
      _ ← smod (fun s => s <| rx_seq_nr_expected := seq |>);
      if fallback_sent s then mret tt else compatibility_inform
  | _ =>
      smod (fun s =>
        let s := s <| rx_seq_nr_expected := 0 |> in
        if fallback_sent s
        then s <| tx_seq_nr := 0 |> <| tx_seq_nr_acked := 0 |> <| tx_buffer := [] |> <| fallback_sent := false |>
        else s)
  end.

(** The part of [_handle_data] under the session's lock *)
Definition negotiate (seq payload_size : Z) : M W unit :=
  s ← sget id;
  let from := default sock_data (ingress s) in
  _ ← mwhen (0 <? payload_size) (smod (fun s => resolve_zero seq (resolve_nonzero seq s)));
  s ← sget id;
  if bool_decide (protocol_profile s = PENDING) && (0 <? payload_size) then fix_profile seq from
  else if rx_streaming s then mret tt
  else smod (fun s =>
         let s := s <| response_socket := from |> in
         if bool_decide (protocol_profile s = MODULO) then s <| rx_seq_nr_expected := seq |> else s).

(** [_handle_data] *)
Definition core_handle_data (a : addr) (data : bytes) : M W unit :=
  match data_sizes data with
  | Err _ => mret tt
  | Ok (hdr, payload_size) =>
      _ ← negotiate (Header.seq_nr hdr) payload_size;
      handle_data cfg core_socket a data
  end.

(** One datagram of [run]; nothing catches what the two handlers raise. *)
Definition core_receive (sock : socket) (a : addr) (data : bytes) : M V unit :=
  let data := ztake 4096 data in
  match (if 2 <=? zlen data then hdr ← Header.unpack data; Ok (Header.packet_type hdr) else Ok (-1)) with
  | Err _ => mret tt
  | Ok packet_type =>
      if packet_type =? DISCOVERY then handle_discovery a data
      else if packet_type =? DATA
      then route_data_via a data (if single_port st then sock_discovery else sock)
      else mret tt
  end.

(** A fallback timer of [a] that is due fires; what it raises ends its own thread. *)
Definition fire_timer (a : addr) : M V unit := fun v =>
  match peer_find a (v_peers v) with
  | Some p =>
      match p_timers p with
      | (due, generation) :: rest =>
          if due <=? v_clock v then
            on_session a (swallow (fallback generation))
              (v <| v_peers ::= peer_update a (fun p => p <| p_timers := rest |>) |>)
          else (Ok tt, v)
      | [] => (Ok tt, v)
      end
  | None => (Ok tt, v)
  end.

(** ** The running system *)

(** What happens next: a datagram arrives, a worker takes its turn or ends, a timer
    fires, the loop sweeps, time passes.  [E_host] is any change of the host by others. *)
Inductive event :=
  | E_datagram (sock : socket) (a : addr) (data : bytes)
  | E_worker (a : addr) (arrivals : list (Z * datagram))
  | E_end_worker
  | E_timer (a : addr)
  | E_sweep
  | E_shutdown
  | E_time (us : Z)
  | E_net (script : list (option Z))
  | E_host (o : Os).

(** The state after an event, whatever it raised *)
Definition step (e : event) (v : V) : V :=
  match e with
  | E_datagram sock a data => snd (core_receive sock a data v)
  | E_worker a arrivals => snd (run_worker core_handle_data arrivals a v)
  | E_end_worker => snd (end_worker v)
  | E_timer a => snd (fire_timer a v)
  | E_sweep => snd (sweep st v)
  | E_shutdown => snd (shutdown_all v)
  | E_time us => v <| v_clock ::= Z.add (Z.max 0 us) |>
  | E_net script => v <| v_net := script |>
  | E_host o => v <| v_host := o |>
  end.

(** The server as [__init__] leaves it *)
Definition boot (o : Os) (summary : option (SessionStats.stats Z)) (now : Z) : V :=
  {| v_host := o; v_peers := []; v_closing := []; v_counters := fun _ => 0; v_summary := summary;
     v_sent := []; v_net := []; v_clock := now; v_evicted := 0; v_last_evict_log := None;
     v_last_sweep := now; v_shutdown := false |}.

Inductive reachable (o : Os) (summary : option (SessionStats.stats Z)) (now : Z) : V -> Prop :=
  | reach_boot : reachable o summary now (boot o summary now)
  | reach_step e v : reachable o summary now v -> reachable o summary now (step e v).
End core.
