(* ===== verification/CoreFacts.v ===== *)
(** * Sessions, discovery and negotiation

    Theorems about [Server] and [Core]: the table of sessions stays bounded and sound in
    every reachable state, eviction and the sweep take the right sessions, one client's
    turn does not touch another's session, and discovery, fallback and handoff respect
    a running stream. *)

From stdpp Require Import relations.
From S2P Require Import Prelude PyStr SessionStats Compressed HostOs ChdCue Wire Session Transport TransportFacts Paths Handlers Server HandlersFacts Core.

(** ** The profile of a peer *)

(** The profile is read off the first data packet: MODULO exactly when its number is the
    successor of the discovery's in the ring, STANDARD otherwise; it is never left
    pending. *)
Theorem classify_profile_spec d f :
  classify_profile d f = (if seq12 f =? seq12 (d + 1) then MODULO else STANDARD).
Proof.
  unfold classify_profile. cbv zeta.
  assert (E : seq12 (seq12 d + 1) = seq12 (d + 1)) by (rewrite !seq12_mod; apply Zplus_mod_idemp_l).
  rewrite E. destruct (Z.eqb_spec (seq12 f) (seq12 (d + 1))) as [Ef|Ef]; cbn [andb].
  - destruct (negb _ || negb _) eqn:Eb; [done|]. apply orb_false_iff in Eb as [Hf Hd].
    apply negb_false_iff, Z.eqb_eq in Hf, Hd. rewrite <- E, Hd in Ef. rewrite Hf in Ef. by compute in Ef.
  - by destruct (_ && _).
Qed.

(** ** Lists of peers *)

Section peers.
Context {Os : Type} `{HostOs Os} `{Codecs} (cfg : config) (st : settings).
Abbreviation W := (world Os).
Abbreviation V := (@server Os).

Lemma peer_find_update a f b l :
  peer_find b (peer_update a f l) = if bool_decide (b = a) then f <$> peer_find b l else peer_find b l.
Proof.
  induction l as [|[c p] l IH]; cbn [peer_update map peer_find]; [by destruct (bool_decide _)|].
  fold (peer_update a f l). rewrite IH.
  destruct (bool_decide_reflect (c = a)) as [->|]; cbn [peer_find];
    destruct (bool_decide_reflect (b = a)) as [->|]; try rewrite (bool_decide_eq_true_2 _ eq_refl); try done.
  - by rewrite (bool_decide_eq_false_2 (a = b)).
  - by rewrite (bool_decide_eq_false_2 (c = a)).
Qed.

Lemma peer_update_keys a f l : map fst (peer_update a f l) = map fst l.
Proof.
  unfold peer_update. rewrite map_map. apply map_ext. intros [b p]. by destruct (bool_decide _).
Qed.

Lemma peer_update_forall (P : addr * peer -> Prop) a f l :
  (forall p, P (a, p) -> P (a, f p)) -> Forall P l -> Forall P (peer_update a f l).
Proof.
  intros Hf Hl. unfold peer_update. apply Forall_map. eapply Forall_impl; [exact Hl|]. intros [b p] Hp.
  destruct (bool_decide_reflect (b = a)) as [->|]; auto.
Qed.

Lemma zlen_peer_update a f l : zlen (peer_update a f l) = zlen l.
Proof. apply zlen_map. Qed.

Lemma peer_find_none a l : peer_find a l = None <-> a ∉ map fst l.
Proof.
  induction l as [|[b p] l IH]; cbn [peer_find map fst]; [split; [intros _; apply not_elem_of_nil|done]|].
  rewrite not_elem_of_cons. destruct (bool_decide_reflect (b = a)) as [->|]; [split; [done|by intros []]|].
  rewrite IH. intuition congruence.
Qed.

Lemma filter_peers_keys (f : addr * peer -> bool) l : NoDup (map fst l) -> NoDup (map fst (List.filter f l)).
Proof.
  induction l as [|[k x] l IH]; [done|]. cbn [map fst List.filter]. intros [Hk Hl]%NoDup_cons.
  destruct (f _); [|by apply IH]. cbn. apply NoDup_cons. split; [|by apply IH].
  intros Hin. apply Hk. apply list_elem_of_In, in_map_iff in Hin as (y & Hy & [Hin _]%List.filter_In).
  apply list_elem_of_In, in_map_iff. by exists y.
Qed.

Lemma filter_forall (P : addr * peer -> Prop) f l : Forall P l -> Forall P (List.filter f l).
Proof.
  intros Hl. apply Forall_forall. intros x Hx. apply list_elem_of_In, List.filter_In in Hx as [Hx _].
  apply (proj1 (Forall_forall _ _) Hl). by apply list_elem_of_In.
Qed.

Lemma zlen_filter {A} (f : A -> bool) (l : list A) : zlen (List.filter f l) <= zlen l.
Proof. unfold zlen. pose proof (List.filter_length_le f l). lia. Qed.

Lemma filter_twice {A} (f g : A -> bool) (l : list A) :
  List.filter f (List.filter g l) = List.filter (fun x => g x && f x) l.
Proof. induction l as [|x l IH]; [done|]. cbn. destruct (g x); cbn; by rewrite IH. Qed.

(** ** Eviction *)

Lemma oldest_in best l : oldest best l ∈ best :: l.
Proof.
  revert best. induction l as [|q l IH]; intros best; cbn [oldest]; [by apply list_elem_of_singleton|].
  specialize (IH (if last_activity (p_session (snd q)) <? last_activity (p_session (snd best)) then q else best)).
  apply elem_of_cons in IH as [->|IH].
  - destruct (_ <? _); [apply elem_of_cons; right|]; apply elem_of_cons; by left.
  - apply elem_of_cons. right. apply elem_of_cons. by right.
Qed.

Definition activity (ap : addr * peer) : Z := last_activity (p_session (snd ap)).

Lemma oldest_least best l : Forall (fun q => activity (oldest best l) <= activity q) (best :: l).
Proof.
  revert best. induction l as [|q l IH]; intros best; cbn [oldest]; [by apply Forall_singleton|].
  specialize (IH (if last_activity (p_session (snd q)) <? last_activity (p_session (snd best)) then q else best)).
  fold (activity q) (activity best) in *. apply Forall_cons in IH as [Hb Hl].
  repeat apply Forall_cons; split_and!; try done; destruct (Z.ltb_spec (activity q) (activity best)); try lia.
  all: apply Forall_cons; split; [|done]; lia.
Qed.

Lemma remove_in a l : a ∈ map fst l -> NoDup (map fst l) -> zlen (peer_remove a l) = zlen l - 1.
Proof.
  unfold peer_remove. induction l as [|[b p] l IH]; cbn [map fst List.filter]; [by intros ?%not_elem_of_nil|].
  rewrite elem_of_cons, NoDup_cons. intros Hin [Hb Hl]. rewrite zlen_cons.
  destruct (bool_decide_reflect (b = a)) as [->|Hba]; cbn [negb].
  - assert (List.filter (fun bp => negb (bool_decide (fst bp = a))) l = l) as ->; [|lia].
    apply forallb_filter_id, forallb_forall. intros [c q] Hc. cbn. apply negb_true_iff, bool_decide_eq_false. intros ->.
    apply Hb. apply list_elem_of_In, in_map_iff. by exists (a, q).
  - rewrite zlen_cons, IH; [lia| |done]. destruct Hin as [->|]; done.
Qed.
End peers.

#[local] Arguments peer_update : simpl never.

(** ** What every computation on a session keeps *)

Section session_invariant.
Context {Os : Type} `{HostOs Os} `{Codecs} (cfg : config) (st : settings).
Abbreviation W := (world Os).

(** A sound handle table, with the block device as handle 0 if there is one *)
Definition session_ok (s : session) : Prop := table_kept (bd_fh cfg) 1 s.

Definition good (w : W) : Prop := session_ok (sess w).

Lemma session_ok_same s s' :
  handles s' = handles s -> next_handle s' = next_handle s -> session_ok s -> session_ok s'.
Proof. apply table_kept_same. Qed.

Lemma good_framed {A} (m : M W A) : framed m -> keeps good m.
Proof.
  apply framed_keeps. intros w w' (_ & _ & He). unfold good. by apply (table_kept_erased erase_tx).
Qed.

Lemma good_smod f : (forall s, handles (f s) = handles s /\ next_handle (f s) = next_handle s) -> keeps good (smod f).
Proof. intros Hf. apply keeps_smod. intros w Hw. unfold good. cbn. destruct (Hf (sess w)). by eapply session_ok_same. Qed.

Lemma good_session_mod f : (forall s, session_ok s -> session_ok (f s)) -> keeps good (smod f).
Proof. intros Hf. apply keeps_smod. intros w Hw. by apply Hf. Qed.

Lemma good_handle_data sock_of a data : keeps good (handle_data cfg sock_of a data).
Proof.
  apply (effects_keep cfg); [|intros w0; apply eff_handle_data]. intros w w' He. by apply (effect_table cfg).
Qed.

Lemma good_on_host {A} (m : M Os A) : keeps good (on_host m).
Proof. intros w r w' Hw. unfold on_host. destruct (m (host w)). by intros [= _ <-]. Qed.

Lemma good_fh_close fh : keeps good (fh_close fh).
Proof. destruct fh; cbn; [apply good_on_host|apply keeps_ret..]. Qed.

#[local] Hint Extern 2 (keeps good (send_specific _ _ _ _)) => (apply good_framed; intros ?; apply framed_send_specific) : keeps.
#[local] Hint Extern 2 (keeps good (smod _)) => (apply good_smod; intros ?; split; reflexivity) : keeps.
#[local] Hint Extern 2 (keeps good (sget _)) => apply keeps_sget : keeps.

Lemma new_session_ok a p now : session_ok (new_session a (bd_fh cfg) p now).
Proof.
  unfold session_ok, table_kept, new_session. destruct (bd_fh cfg) as [f|]; cbn; split_and!; try done; try (by intros g [= <-]).
  - split; cbn; [apply NoDup_singleton|done|by repeat constructor|done].
  - split; cbn; [apply NoDup_nil_2|done|constructor|done].
Qed.

(** *** Resetting a session closes and removes every handle but the block device. *)

Lemma drop_handles_good l : keeps good (drop_handles (Os := Os) l).
Proof.
  induction l as [|[h fh] l IH]; cbn [drop_handles]; [apply keeps_ret|]. apply keeps_bind; [|done].
  destruct (Z.eqb_spec h BLOCK_DEVICE_HANDLE) as [|Hh]; [apply keeps_ret|].
  apply keeps_bind; [apply keeps_swallow, good_fh_close|intros _]. apply good_session_mod. intros s (Ht & Hf & Hn).
  split_and!; [by apply table_free| |done]. intros g Hg. cbn. rewrite hget_hdel; [by apply Hf|done].
Qed.

(** What is left after dropping [l] *)
Definition left_after (l hs : list (Z * file_handle)) : list (Z * file_handle) :=
  List.filter (fun kv => (fst kv =? BLOCK_DEVICE_HANDLE) || negb (bool_decide (fst kv ∈ map fst l))) hs.

Lemma drop_handles_left l : forall (w : W) u w',
  drop_handles l w = (Ok u, w') ->
  handles (sess w') = left_after l (handles (sess w)) /\ next_handle (sess w') = next_handle (sess w).
Proof.
  induction l as [|[h fh] l IH]; intros w u w'; cbn [drop_handles].
  - intros [= _ <-]. split; [|done]. unfold left_after. symmetry. apply forallb_filter_id, forallb_forall.
    intros kv _. cbn. by rewrite orb_true_r.
  - unfold mbind at 1, M_bind at 1. destruct (Z.eqb_spec h BLOCK_DEVICE_HANDLE) as [->|Hh].
    + intros Hr. apply IH in Hr as [-> ->]. split; [|done]. unfold left_after. apply filter_ext. intros [k f]. cbn [fst map].
      destruct (Z.eqb_spec k BLOCK_DEVICE_HANDLE); [done|]. cbn [orb]. f_equal. apply bool_decide_ext. rewrite elem_of_cons. tauto.
    + destruct (swallow (fh_close fh) w) as [[u0|e] w1] eqn:E; unfold mbind, M_bind; rewrite E; [|done].
      assert (E1 : sess w1 = sess w).
      { revert E. unfold swallow, mcatch. destruct fh; cbn; [|by intros [= _ <-]..]. unfold on_host.
        destruct (f_close f (host w)) as [[u1|e1] o1]; [by intros [= _ <-]|]. destruct e1; cbn; done || by intros [= _ <-]. }
      cbn. intros Hr. apply IH in Hr as [-> ->]. cbn. rewrite E1. split; [|done]. unfold left_after, hdel.
      rewrite filter_twice. apply filter_ext. intros [k f]. cbn [fst map].
      destruct (Z.eqb_spec k BLOCK_DEVICE_HANDLE) as [->|]; cbn [orb].
      * destruct (Z.eqb_spec BLOCK_DEVICE_HANDLE h); [congruence|done].
      * rewrite <- negb_orb. f_equal. destruct (Z.eqb_spec k h) as [->|Hk]; cbn [orb].
        -- symmetry. apply bool_decide_eq_true. apply elem_of_cons. by left.
        -- apply bool_decide_ext. rewrite elem_of_cons. tauto.
Qed.

Lemma left_after_self hs :
  Forall (fun kv => fst kv = BLOCK_DEVICE_HANDLE) (left_after hs hs).
Proof.
  apply Forall_forall. intros [k f] Hin. apply list_elem_of_In, List.filter_In in Hin as [Hin Hb]. cbn in *.
  apply orb_true_iff in Hb as [Hb%Z.eqb_eq|Hb]; [done|]. apply negb_true_iff, bool_decide_eq_false in Hb. destruct Hb.
  apply list_elem_of_In, in_map_iff. by exists (k, f).
Qed.

(** After a reset only the block device is open, and the next handle is 1. *)
Lemma reset_session_good p : keeps good (reset_session_state p).
Proof.
  unfold reset_session_state. intros w r w' Hw. unfold mbind at 1, M_bind at 1, sget, mget. cbn [id].
  unfold mbind, M_bind. destruct (drop_handles (handles (sess w)) w) as [[u|e] w1] eqn:E.
  - intros [= _ <-]. pose proof (drop_handles_good _ _ _ _ Hw E) as (Ht & Hf & _).
    apply drop_handles_left in E as [El _]. pose proof (left_after_self (handles (sess w))) as Hz. rewrite <- El in Hz.
    split_and!; [|exact Hf|done]. destruct Ht as [H1 H2 H3 H4]. split; cbn; [exact H1|exact H2| |done].
    eapply Forall_impl; [exact Hz|]. intros [k f] Hk. cbn in *. rewrite Hk. unfold BLOCK_DEVICE_HANDLE. lia.
  - intros [= _ <-]. by eapply drop_handles_good.
Qed.

Lemma compatibility_inform_good : keeps good (compatibility_inform (Os := Os) cfg st).
Proof.
  unfold compatibility_inform. apply keeps_bind; [apply keeps_sget|intros s]. apply keeps_bind; [apply keeps_lift|intros packet].
  apply keeps_bind; [eauto with keeps|intros _; eauto with keeps].
Qed.
#[local] Hint Resolve compatibility_inform_good reset_session_good : keeps.

Lemma canonical_inform_good a : keeps good (canonical_inform (Os := Os) cfg a).
Proof. unfold canonical_inform. apply keeps_bind; [apply keeps_lift|intros packet; eauto with keeps]. Qed.
#[local] Hint Resolve canonical_inform_good : keeps.

Ltac good_step :=
  match goal with
  | |- forall _, keeps _ _ => intros ?
  | |- keeps _ (mbind _ _) => apply keeps_bind
  | |- keeps _ (match ?x with _ => _ end) => destruct x
  | |- keeps _ (let _ := _ in _) => cbv zeta
  | |- keeps _ (mwhen _ _) => apply keeps_mwhen
  | |- keeps _ _ => solve [eauto 2 with keeps]
  end.

Lemma answer_discovery_good a seq : keeps good (answer_discovery (Os := Os) cfg st a seq).
Proof.
  unfold answer_discovery. repeat good_step. apply good_smod. intros s. by destruct (seq =? 0).
Qed.

Lemma fallback_good g : keeps good (fallback (Os := Os) cfg st g).
Proof. unfold fallback. repeat good_step. Qed.

Lemma resolve_same seq s :
  handles (resolve_zero st seq (resolve_nonzero st seq s)) = handles s /\
  next_handle (resolve_zero st seq (resolve_nonzero st seq s)) = next_handle s.
Proof.
  unfold resolve_zero, resolve_nonzero, hand_off.
  destruct (pending_discovery_sequence s); [destruct (_ =? _); [|destruct (_ =? _)]|];
    (match goal with |- context [pending_zero_discovery_at ?x] => destruct (pending_zero_discovery_at x) end;
     [destruct (_ =? _); [|destruct (_ || _)]|]); done.
Qed.

Lemma negotiate_good seq n : keeps good (negotiate (Os := Os) cfg st seq n).
Proof.
  unfold negotiate, fix_profile. repeat good_step.
  all: apply good_smod; intros s0; try apply resolve_same.
  all: cbv zeta; match goal with |- context [if ?b then _ else _] => destruct b end; done.
Qed.

Lemma core_handle_data_good a data : keeps good (core_handle_data cfg st a data).
Proof.
  unfold core_handle_data. destruct (data_sizes data) as [[hdr n]|]; [|apply keeps_ret].
  apply keeps_bind; [apply negotiate_good|intros _; apply good_handle_data].
Qed.

Lemma worker_turn_good (on_data : addr -> bytes -> M W unit) :
  (forall a data, keeps good (on_data a data)) -> keeps good (worker_turn on_data).
Proof.
  intros Hd. unfold worker_turn. apply keeps_bind; [apply good_framed; intros w0; apply framed_queue_get|].
  intros [[[[data a] sock]|]|]; [|apply keeps_ret..].
  apply keeps_bind; [eauto with keeps|intros _]. apply keeps_bind; [by apply keeps_swallow|intros _; apply keeps_ret].
Qed.
End session_invariant.

(** ** The table of sessions *)

Section table.
Context {Os : Type} `{HostOs Os} `{Codecs} (cfg : config) (st : settings).
Abbreviation W := (world Os).
Abbreviation V := (@server Os).

(** The session that makes room when the table is full *)
Definition victim_of (peers : list (addr * peer)) : option (addr * peer) :=
  match peers with
  | q :: rest => if max_sessions st <=? zlen peers then Some (oldest q rest) else None
  | [] => None
  end.

Definition touched (now : Z) (p : peer) : peer := p <| p_session ::= fun s => s <| last_activity := now |> |>.

(** The table after a datagram of [a] *)
Definition admitted (a : addr) (now : Z) (peers : list (addr * peer)) : list (addr * peer) :=
  peer_update a (touched now)
    match peer_find a peers with
    | Some _ => peers
    | None =>
        match victim_of peers with Some q => peer_remove (fst q) peers | None => peers end
        ++ [(a, Peer (new_session a (bd_fh cfg) (initial_profile st) now) [] [])]
    end.

Definition evicted (a : addr) (peers : list (addr * peer)) : list (addr * peer) :=
  match peer_find a peers with
  | Some _ => []
  | None => match victim_of peers with Some q => [shut q] | None => [] end
  end.

Lemma get_or_create_table a (v : V) :
  1 <= max_sessions st ->
  exists v', get_or_create cfg st a v = (Ok tt, v') /\ v_peers v' = admitted a (v_clock v) (v_peers v) /\
    v_closing v' = v_closing v ++ evicted a (v_peers v) /\ v_host v' = v_host v /\ v_clock v' = v_clock v /\
    v_sent v' = v_sent v /\ v_shutdown v' = v_shutdown v.
Proof.
  intros Hmax. unfold get_or_create, admitted, evicted, evict_oldest, mget, mmod, off_session, session_record.
  unfold mbind, M_bind, mret, M_ret. cbn [id]. destruct (peer_find a (v_peers v)) as [p|] eqn:Ef.
  - eexists. split; [reflexivity|]. cbn. by rewrite app_nil_r.
  - unfold victim_of. destruct (Z.leb_spec (max_sessions st) (zlen (v_peers v))) as [Hfull|Hroom].
    + destruct (v_peers v) as [|q rest] eqn:Ep; [change (zlen []) with 0 in Hfull; lia|]. rewrite <- Ep.
      destruct (v_last_evict_log v) as [t|] eqn:El; [destruct (SESSION_EVICT_LOG_INTERVAL <=? v_clock v - t) eqn:Eq|];
        eexists; (split; [reflexivity|]); cbn; rewrite El; cbn; rewrite ?Eq, <- ?Ep; done.
    + destruct (v_peers v) as [|q rest] eqn:Ep; eexists; (split; [reflexivity|]); cbn; rewrite ?Ep, ?app_nil_r; done.
Qed.

(** Distinct addresses, no more sessions than allowed, and each with a sound table of
    handles *)
Record server_ok (v : V) : Prop := {
  sv_nodup : NoDup (map fst (v_peers v));
  sv_cap : zlen (v_peers v) <= max_sessions st;
  sv_sessions : Forall (fun ap => session_ok cfg (p_session (snd ap))) (v_peers v)
}.

Lemma server_ok_peers (v v' : V) : v_peers v' = v_peers v -> server_ok v -> server_ok v'.
Proof. intros E [? ? ?]. split; by rewrite E. Qed.

Lemma server_ok_update a f (v v' : V) :
  (forall p, session_ok cfg (p_session p) -> session_ok cfg (p_session (f p))) ->
  v_peers v' = peer_update a f (v_peers v) -> server_ok v -> server_ok v'.
Proof.
  intros Hf E [Hn Hc Hs]. split; rewrite E; [by rewrite peer_update_keys|by rewrite zlen_peer_update|].
  apply peer_update_forall; [|done]. intros p. apply Hf.
Qed.

Lemma server_ok_filter f (v v' : V) : v_peers v' = List.filter f (v_peers v) -> server_ok v -> server_ok v'.
Proof.
  intros E [Hn Hc Hs]. split; rewrite E; [by apply filter_peers_keys| |by apply filter_forall].
  pose proof (zlen_filter f (v_peers v)). lia.
Qed.

Lemma server_ok_map f (v v' : V) :
  (forall p, session_ok cfg (p_session p) -> session_ok cfg (p_session (f p))) ->
  v_peers v' = map (fun '(a, p) => (a, f p)) (v_peers v) -> server_ok v -> server_ok v'.
Proof.
  intros Hf E [Hn Hc Hs]. split; rewrite E; [| |].
  - rewrite map_map. erewrite map_ext; [exact Hn|]. by intros [].
  - by rewrite zlen_map.
  - apply Forall_map. eapply Forall_impl; [exact Hs|]. intros [b p]. apply Hf.
Qed.

Lemma admitted_ok a (v v' : V) :
  1 <= max_sessions st -> v_peers v' = admitted a (v_clock v) (v_peers v) -> server_ok v -> server_ok v'.
Proof.
  intros Hmax E Hv. unfold admitted in E.
  set (base := match peer_find a (v_peers v) with Some _ => _ | None => _ end) in E.
  enough (Hb : server_ok (v <| v_peers := base |>)).
  { refine (server_ok_update a (touched (v_clock v)) (v <| v_peers := base |>) v' _ E Hb). intros p. by apply session_ok_same. }
  destruct Hv as [Hn Hc Hs]. unfold base. destruct (peer_find a (v_peers v)) eqn:Ef; [by split|].
  apply peer_find_none in Ef. unfold victim_of. destruct (v_peers v) as [|q rest] eqn:Ep.
  - split; cbn; [apply NoDup_singleton|done|]. apply Forall_singleton, new_session_ok.
  - rewrite <- Ep in *. match goal with |- context [?k ++ [(a, _)]] => set (kept := k) end.
    assert (Hk : exists f, kept = List.filter f (v_peers v) /\ zlen kept < max_sessions st).
    { unfold kept. destruct (Z.leb_spec (max_sessions st) (zlen (v_peers v))) as [Hfull|Hroom].
      - eexists. split; [reflexivity|]. rewrite remove_in; [lia| |done].
        pose proof (oldest_in q rest) as Ho. rewrite <- Ep in Ho. apply list_elem_of_In, in_map_iff.
        exists (oldest q rest). split; [done|]. by apply list_elem_of_In.
      - exists (fun _ => true). split; [|done]. symmetry. by apply forallb_filter_id, forallb_forall. }
    destruct Hk as (f & -> & Hl). split; cbn.
    + rewrite map_app. apply NoDup_app. split_and!; [by apply filter_peers_keys| |apply NoDup_singleton].
      intros b Hb Hba. apply list_elem_of_singleton in Hba. cbn in Hba. subst b. apply Ef. apply list_elem_of_In, in_map_iff in Hb as (x & <- & [Hx _]%List.filter_In).
      apply list_elem_of_In, in_map_iff. by exists x.
    + rewrite zlen_app. change (zlen [_]) with 1. lia.
    + apply Forall_app. split; [by apply filter_forall|]. apply Forall_singleton, new_session_ok.
Qed.

(** *** Every step keeps the table. *)

Lemma peer_ok a p (v : V) : server_ok v -> peer_find a (v_peers v) = Some p -> session_ok cfg (p_session p).
Proof.
  intros [_ _ Hs] Ef. induction (v_peers v) as [|[b q] l IH]; [done|]. apply Forall_cons in Hs as [Hq Hl]. cbn in Ef.
  destruct (bool_decide _); [by injection Ef as ->|by apply IH].
Qed.

Lemma ok_on_session {A} a (m : M W A) : keeps (good cfg) m -> keeps server_ok (on_session a m).
Proof.
  intros Hm v r v' Hv. unfold on_session. destruct (peer_find a (v_peers v)) as [p|] eqn:Ef; [|by intros [= _ <-]].
  destruct (m (world_of (p_session p) [] v)) as [r1 w] eqn:E. intros [= _ <-].
  eapply (server_ok_update a (fun p => p <| p_session := sess w |>)); [|reflexivity|exact Hv].
  intros q _. cbn. eapply Hm; [|exact E]. by eapply peer_ok.
Qed.

Lemma ok_off_session {A} (m : M W A) : keeps server_ok (off_session m).
Proof.
  intros v r v' Hv. unfold off_session. destruct (m _) as [r1 w]. intros [= _ <-].
  eapply server_ok_peers; [|exact Hv]. done.
Qed.

Lemma ok_mmod f : (forall v : V, v_peers (f v) = v_peers v) -> keeps server_ok (mmod f).
Proof. intros Hf. apply keeps_mmod. intros v. by apply server_ok_peers. Qed.

Lemma ok_get_or_create a : 1 <= max_sessions st -> keeps server_ok (get_or_create cfg st a).
Proof.
  intros Hmax v r v' Hv Hr. destruct (get_or_create_table a v Hmax) as (v1 & E & Hp & _). rewrite E in Hr.
  injection Hr as _ <-. by eapply admitted_ok.
Qed.

Lemma ok_enqueue a d : keeps server_ok (enqueue a d).
Proof. apply keeps_mmod. intros v Hv. eapply (server_ok_update a); [|reflexivity|exact Hv]. done. Qed.

Lemma ok_schedule a g : keeps server_ok (schedule_fallback (Os := Os) st a g).
Proof. apply keeps_mmod. intros v Hv. eapply (server_ok_update a); [|reflexivity|exact Hv]. done. Qed.

#[local] Hint Resolve ok_on_session ok_off_session ok_get_or_create ok_enqueue ok_schedule answer_discovery_good fallback_good : keeps.

Lemma ok_answer_status a data : keeps server_ok (maybe_answer_status cfg st a data).
Proof.
  unfold maybe_answer_status. destruct (negb _); [apply keeps_ret|]. apply keeps_bind; [apply keeps_mget|intros v].
  apply keeps_bind; [apply keeps_lift|intros x]. apply keeps_bind; [apply ok_off_session|intros _; apply keeps_ret].
Qed.

Lemma ok_receive sock a data : 1 <= max_sessions st -> keeps server_ok (core_receive cfg st sock a data).
Proof.
  intros Hmax. unfold core_receive. cbv zeta.
  match goal with |- keeps _ (match ?x with _ => _ end) => destruct x as [pt|e] end; [|apply keeps_ret].
  destruct (pt =? DISCOVERY); [|destruct (pt =? DATA); [|apply keeps_ret]].
  - unfold handle_discovery. destruct (_ <? 6); [apply keeps_ret|]. apply keeps_bind; [apply ok_answer_status|intros answered].
    destruct answered; [apply keeps_ret|]. 
    match goal with |- keeps _ (match ?x with _ => _ end) => destruct x as [[hdr disc]|e] end; [|apply keeps_ret].
    destruct (negb _); [apply keeps_ret|]. apply keeps_bind; [apply ok_off_session|intros _].
    apply keeps_bind; [by apply ok_get_or_create|intros _].
    apply keeps_bind; [apply ok_on_session, answer_discovery_good|intros [g|]; [apply ok_schedule|apply keeps_ret]].
  - unfold route_data_via. destruct (_ <? 6); [apply keeps_ret|]. destruct (data_sizes _) as [[hdr n]|e]; [|apply keeps_ret].
    destruct (negb _); [apply keeps_ret|]. destruct (_ <? n); [apply keeps_ret|].
    apply keeps_bind; [by apply ok_get_or_create|intros _; apply ok_enqueue].
Qed.

Lemma ok_worker on_data arrivals a :
  (forall b data, keeps (good cfg) (on_data b data)) -> keeps server_ok (run_worker on_data arrivals a).
Proof.
  intros Hd v r v' Hv. unfold run_worker. destruct (peer_find a (v_peers v)) as [p|] eqn:Ef; [|by intros [= _ <-]].
  destruct (worker_turn on_data _) as [r1 w] eqn:E. intros [= _ <-].
  eapply (server_ok_update a (fun p => p <| p_session := sess w |> <| p_queue := map snd (Session.inbox w) |>));
    [|reflexivity|exact Hv].
  intros q _. cbn. eapply (worker_turn_good cfg on_data Hd); [|exact E]. by eapply peer_ok.
Qed.

Lemma ok_end_worker : keeps server_ok (end_worker (Os := Os)).
Proof.
  intros v r v' Hv. unfold end_worker. destruct (v_closing v) as [|[a p] rest]; [by intros [= _ <-]|].
  destruct (close_session _) as [r1 w]. intros [= _ <-]. eapply server_ok_peers; [|exact Hv]. done.
Qed.

Lemma ok_fire_timer a : keeps server_ok (fire_timer cfg st a).
Proof.
  intros v r v' Hv. unfold fire_timer. destruct (peer_find a (v_peers v)) as [p|]; [|by intros [= _ <-]].
  destruct (p_timers p) as [|[due g] rest]; [by intros [= _ <-]|]. destruct (due <=? v_clock v); [|by intros [= _ <-]].
  apply (ok_on_session a (swallow (fallback cfg st g))); [apply keeps_swallow, fallback_good|].
  eapply (server_ok_update a (fun p => p <| p_timers := rest |>)); [|reflexivity|exact Hv]. done.
Qed.

Lemma mark_stall_ok now p : session_ok cfg (p_session p) -> session_ok cfg (p_session (mark_stall now p)).
Proof. unfold mark_stall. destruct (_ && _); [by apply session_ok_same|done]. Qed.

Lemma ok_sweep : keeps server_ok (sweep (Os := Os) st).
Proof.
  apply keeps_mmod. intros v Hv. cbv zeta. destruct (_ <? SESSION_SWEEP_INTERVAL); [done|].
  match goal with |- server_ok (if _ then ?x else _) => set (v1 := x) end.
  assert (H1 : server_ok (v <| v_peers ::= List.filter (fun ap => negb (is_idle st (v_clock v) ap)) |>)).
  { eapply (server_ok_filter _ v); [reflexivity|done]. }
  destruct (verbose st); [|by eapply server_ok_peers; [|exact H1]].
  eapply (server_ok_map (mark_stall (v_clock v))); [apply mark_stall_ok| |exact H1]. done.
Qed.

Lemma ok_shutdown : keeps server_ok (shutdown_all (Os := Os)).
Proof.
  apply keeps_mmod. intros v [Hn Hc Hs]. pose proof (zlen_nonneg (v_peers v)). split; cbn; [apply NoDup_nil_2| |constructor].
  unfold zlen in *. cbn. lia.
Qed.

Lemma ok_step e (v : V) : 1 <= max_sessions st -> server_ok v -> server_ok (step cfg st e v).
Proof.
  intros Hmax Hv. destruct e; cbn [step]; try (by apply (server_ok_peers v)).
  - destruct (core_receive _ _ _ _ _ v) eqn:E. eapply ok_receive; [exact Hmax|exact Hv|exact E].
  - destruct (run_worker _ _ _ v) eqn:E. eapply ok_worker; [|exact Hv|exact E]. intros b data. apply core_handle_data_good.
  - destruct (end_worker v) eqn:E. eapply ok_end_worker; [exact Hv|exact E].
  - destruct (fire_timer _ _ _ v) eqn:E. eapply ok_fire_timer; [exact Hv|exact E].
  - destruct (sweep _ v) eqn:E. eapply ok_sweep; [exact Hv|exact E].
  - destruct (shutdown_all v) eqn:E. eapply ok_shutdown; [exact Hv|exact E].
Qed.

(** C2. In every state the Core server can reach -- whatever datagrams arrive in whatever
    order, however workers, timers, sweeps and the shutdown interleave, whichever sends
    fail and whatever others do to the host -- there are at most [max_sessions] sessions,
    each with its own address, and every session's table of handles is sound: at most
    [MAX_HANDLES] distinct handles, all given out before, with the block device as
    handle 0 whenever there is one. *)
Theorem sessions_sound o summary now (v : V) :
  1 <= max_sessions st -> reachable cfg st o summary now v ->
  NoDup (map fst (v_peers v)) /\ zlen (v_peers v) <= max_sessions st /\
  Forall (fun ap => let s := p_session (snd ap) in
    table_ok s /\ (forall f, bd_fh cfg = Some f -> hget BLOCK_DEVICE_HANDLE (handles s) = Some (F_file f))) (v_peers v).
Proof.
  intros Hmax Hr. assert (Hv : server_ok v).
  { induction Hr as [|e v _ IH]; [|by apply ok_step].
    split; cbn; [apply NoDup_nil_2|change (zlen []) with 0; lia|constructor]. }
  destruct Hv as [Hn Hc Hs]. split_and!; [done..|]. eapply Forall_impl; [exact Hs|]. by intros ap (Ht & Hf & _).
Qed.

(** ** Eviction, and who is left *)

(** A datagram of an unknown client takes exactly one session out of a full table: one
    whose last activity is the least, which is shut down; every other client keeps its
    session, and the new client's is added last. *)
Theorem eviction_least_recent a (v : V) :
  1 <= max_sessions st -> NoDup (map fst (v_peers v)) -> peer_find a (v_peers v) = None ->
  max_sessions st <= zlen (v_peers v) ->
  exists victim v', get_or_create cfg st a v = (Ok tt, v') /\
    victim ∈ v_peers v /\ Forall (fun q => activity victim <= activity q) (v_peers v) /\
    v_closing v' = v_closing v ++ [shut victim] /\
    v_peers v' = List.filter (fun q => negb (bool_decide (fst q = fst victim))) (v_peers v)
                 ++ [(a, touched (v_clock v) (Peer (new_session a (bd_fh cfg) (initial_profile st) (v_clock v)) [] []))] /\
    zlen (v_peers v') = zlen (v_peers v).
Proof.
  intros Hmax Hn Ef Hfull. destruct (get_or_create_table a v Hmax) as (v' & E & Hp & Hcl & _).
  unfold admitted, evicted in *. rewrite Ef in Hp, Hcl. unfold victim_of in Hp, Hcl.
  destruct (v_peers v) as [|q rest] eqn:Ep; [change (zlen []) with 0 in Hfull; lia|]. rewrite <- Ep in *.
  rewrite (proj2 (Z.leb_le _ _) Hfull) in Hp, Hcl.
  assert (Hin : oldest q rest ∈ v_peers v) by (rewrite Ep; apply oldest_in).
  exists (oldest q rest), v'. split; [done|]. split; [done|]. split; [rewrite Ep; apply oldest_least|]. split; [done|].
  assert (Hnew : a ∉ map fst (peer_remove (fst (oldest q rest)) (v_peers v))).
  { intros Ha. apply list_elem_of_In, in_map_iff in Ha as (x & <- & [Hx _]%List.filter_In).
    apply peer_find_none in Ef. apply Ef, list_elem_of_In, in_map_iff. by exists x. }
  assert (Hup : v_peers v' = peer_remove (fst (oldest q rest)) (v_peers v)
                 ++ [(a, touched (v_clock v) (Peer (new_session a (bd_fh cfg) (initial_profile st) (v_clock v)) [] []))]).
  { rewrite Hp. unfold peer_update. rewrite map_app. cbn [map]. rewrite (bool_decide_eq_true_2 _ eq_refl). f_equal.
    rewrite <- (map_id (peer_remove _ _)) at 2. apply map_ext_in. intros [b p] Hb.
    rewrite bool_decide_eq_false_2; [done|]. intros ->. apply Hnew, list_elem_of_In, in_map_iff. by exists (a, p). }
  split; [exact Hup|]. rewrite Hup, zlen_app, remove_in; [change (zlen [_]) with 1; lia| |done].
  apply list_elem_of_In, in_map_iff. exists (oldest q rest). split; [done|]. by apply list_elem_of_In.
Qed.

(** The sweep, when it is due, takes out exactly the sessions idle for longer than the
    limit and shuts them down; the others keep their session up to the stall report's
    flag.  Before it is due it does nothing. *)
Theorem sweep_exact (v : V) :
  let now := v_clock v in
  let v' := snd (sweep st v) in
  (now - v_last_sweep v < SESSION_SWEEP_INTERVAL -> v' = v) /\
  (SESSION_SWEEP_INTERVAL <= now - v_last_sweep v ->
     v_closing v' = v_closing v ++ map shut (List.filter (fun ap => session_timeout st <? now - activity ap) (v_peers v)) /\
     Forall2 (fun ap ap' => fst ap' = fst ap /\ p_queue (snd ap') = p_queue (snd ap) /\
                            (p_session (snd ap')) <| stall_reported := stall_reported (p_session (snd ap)) |> = p_session (snd ap))
       (List.filter (fun ap => now - activity ap <=? session_timeout st) (v_peers v)) (v_peers v')).
Proof.
  intros now v'. unfold v', sweep, mmod. cbn [snd]. fold now. split.
  - intros Hlt. by rewrite (proj2 (Z.ltb_lt _ _) Hlt).
  - intros Hge. rewrite (proj2 (Z.ltb_ge _ _) Hge). cbv zeta.
    assert (Hkeep : List.filter (fun ap => negb (is_idle st now ap)) (v_peers v)
                    = List.filter (fun ap => now - activity ap <=? session_timeout st) (v_peers v)).
    { apply filter_ext. intros ap. unfold is_idle. fold (activity ap). by rewrite Z.ltb_antisym, negb_involutive. }
    split; [by destruct (verbose st)|]. rewrite <- Hkeep. clear Hkeep.
    destruct (verbose st); cbn; induction (List.filter _ (v_peers v)) as [|[a p] l IH]; cbn; constructor; try exact IH; cbn.
    + unfold mark_stall. destruct (_ && _); split_and!; try done; destruct p as [s q ts]; by destruct s.
    + split_and!; try done. destruct p as [s q ts]; by destruct s.
Qed.
End table.

(** ** Discovery while a stream runs *)

Section discovery.
Context {Os : Type} `{HostOs Os} `{Codecs} (cfg : config) (st : settings).
Abbreviation W := (world Os).
Abbreviation V := (@server Os).

(** The session without the note of a discovery to be resolved *)
Definition erase_pending (s : session) : session :=
  s <| pending_zero_discovery_at := None |> <| pending_discovery_sequence := None |>.

Lemma send_specific_spec sock pkt a (w : W) r w' :
  send_specific (tx_delay cfg) sock pkt a w = (r, w') -> sess w' = sess w /\ host w' = host w.
Proof.
  intros E. pose proof (framed_at _ _ _ _ (fun w0 => framed_send_specific (tx_delay cfg) w0 sock pkt a) E) as (Hh & _ & _).
  split; [|done]. revert E. unfold send_specific. generalize (Z.to_nat MAX_SEND_RETRIES) as tries. generalize 0 as n. clear Hh.
  intros n tries. revert n w. induction tries as [|tries IH]; intros n w; cbn [send_attempts]; [by intros [= _ <-]|].
  set (w1 := if 0 <? tx_delay cfg then _ else _).
  assert (H1 : sess w1 = sess w) by (unfold w1; by destruct (0 <? tx_delay cfg)). rewrite <- H1. clearbody w1.
  destruct (net w1) as [|[e|] rest]; [by intros [= _ <-]| |by intros [= _ <-]].
  destruct (_ || _); [by intros [= _ <-]|]. intros E. by apply IH in E.
Qed.

Lemma canonical_inform_spec a (w : W) r w' :
  canonical_inform cfg a w = (r, w') -> sess w' = sess w /\ host w' = host w.
Proof.
  unfold canonical_inform. unfold mbind, M_bind, lift. destruct (inform_packet 1 0) as [pkt|e]; [|by intros [= _ <-]].
  apply send_specific_spec.
Qed.

(** A discovery probe never ends a running stream.  Unless the server is set to MODULO,
    it only notes the probe: no handle, sequence number, buffered packet or write of the
    session changes, the host is not touched, and no fallback is scheduled. *)
Lemma streaming_discovery a seq (w : W) r w' :
  protocol_mode st <> Mode_modulo -> rx_streaming (sess w) = true ->
  answer_discovery cfg st a seq w = (r, w') ->
  erase_pending (sess w') = erase_pending (sess w) /\ host w' = host w /\ (forall g, r <> Ok (Some g)).
Proof.
  intros Hm Hs. unfold answer_discovery. rewrite (bool_decide_eq_false_2 _ Hm).
  unfold sget, mget, smod, mmod. unfold mbind at 1 2, M_bind at 1 2. cbn [id]. rewrite Hs.
  unfold mbind at 1, M_bind at 1. set (w1 := w <| sess ::= _ |>).
  assert (H1 : erase_pending (sess w1) = erase_pending (sess w) /\ host w1 = host w)
    by (split; [unfold w1; cbn; by destruct (seq =? 0)|done]).
  clearbody w1. destruct H1 as [E1 E2]. unfold mbind, M_bind. destruct (canonical_inform cfg a w1) as [[u|e] w2] eqn:E;
    intros [= <- <-]; apply canonical_inform_spec in E as [-> ->]; done.
Qed.

(** So a stray probe is harmless: when the running stream's next packet follows it, the
    session is exactly what it was before the probe, whichever number the probe had and
    even if its answer could not be sent. *)
Theorem stray_discovery_harmless a seq n (w : W) r1 w1 r2 w2 :
  protocol_mode st <> Mode_modulo -> rx_streaming (sess w) = true -> protocol_profile (sess w) <> PENDING ->
  pending_zero_discovery_at (sess w) = None -> pending_discovery_sequence (sess w) = None -> 0 < n ->
  answer_discovery cfg st a seq w = (r1, w1) ->
  negotiate cfg st (rx_seq_nr_expected (sess w)) n w1 = (r2, w2) ->
  (forall g, r1 <> Ok (Some g)) /\ r2 = Ok tt /\ sess w2 = sess w /\ host w2 = host w.
Proof.
  intros Hm Hs Hp Hz Hd Hn E1 E2. destruct (streaming_discovery _ _ _ _ _ Hm Hs E1) as (He & Hh & Hr).
  split; [exact Hr|]. clear E1 Hr.
  assert (Hrx : rx_seq_nr_expected (sess w1) = rx_seq_nr_expected (sess w)) by (by apply (erase_field _ erase_pending)).
  assert (Hpr : protocol_profile (sess w1) = protocol_profile (sess w)) by (by apply (erase_field _ erase_pending)).
  assert (Hst : rx_streaming (sess w1) = rx_streaming (sess w)) by (by apply (erase_field _ erase_pending)).
  assert (Hres : resolve_zero st (rx_seq_nr_expected (sess w)) (resolve_nonzero st (rx_seq_nr_expected (sess w)) (sess w1))
                 = erase_pending (sess w1)).
  { unfold resolve_nonzero. rewrite <- Hrx. destruct (sess w1) as []. cbn in *.
    destruct pending_discovery_sequence; cbn; rewrite ?Z.eqb_refl; unfold resolve_zero; cbn;
      destruct pending_zero_discovery_at; cbn; rewrite ?Z.eqb_refl; done. }
  revert E2. unfold negotiate, sget, mget, smod, mmod, mwhen. rewrite (proj2 (Z.ltb_lt 0 n)) by done.
  unfold mbind, M_bind. cbn [id]. cbn. rewrite Hres.
  assert (Hpr' : protocol_profile (erase_pending (sess w1)) = protocol_profile (sess w)) by done.
  rewrite Hpr', (bool_decide_eq_false_2 _ Hp). cbn [andb].
  assert (Hst' : rx_streaming (erase_pending (sess w1)) = true) by (cbn; congruence).
  rewrite Hst'. intros [= <- <-]. split; [done|]. split; [|done]. cbn. rewrite Hres, He.
  unfold erase_pending. destruct (sess w). cbn in *. by subst.
Qed.
End discovery.

(** ** One client's turn and the others *)

Section isolation.
Context {Os : Type} `{HostOs Os} `{Codecs} (cfg : config) (st : settings).
Abbreviation W := (world Os).
Abbreviation V := (@server Os).

Lemma find_update_other a b f (l : list (addr * peer)) : b <> a -> peer_find b (peer_update a f l) = peer_find b l.
Proof. intros Hb. by rewrite peer_find_update, (bool_decide_eq_false_2 _ Hb). Qed.

Lemma on_session_other {A} a b (m : M W A) (v : V) :
  b <> a -> peer_find b (v_peers (snd (on_session a m v))) = peer_find b (v_peers v).
Proof.
  intros Hb. unfold on_session. destruct (peer_find a (v_peers v)) as [p|]; [|done].
  destruct (m _) as [r w]. cbn. by apply find_update_other.
Qed.

(** What a step may change for a client *)
Definition of_client (e : event (Os := Os)) (a : addr) : Prop :=
  match e with E_worker b _ | E_timer b => b = a | _ => False end.

(** A worker's turn and a timer change no other client's session, queue or timers, whatever
    request they handle and whatever arrives meanwhile: the sessions share only the
    host, the sockets and the counters. *)
Theorem turns_isolated e a b (v : V) :
  of_client e a -> b <> a -> peer_find b (v_peers (step cfg st e v)) = peer_find b (v_peers v).
Proof.
  intros He Hb. destruct e as [| c arr | |c| | | | |]; cbn in He; try done; subst c; cbn [step].
  - unfold run_worker. destruct (peer_find a (v_peers v)) as [p|]; [|done].
    destruct (worker_turn _ _) as [r w]. cbn. by apply find_update_other.
  - unfold fire_timer. destruct (peer_find a (v_peers v)) as [p|] eqn:Ef; [|done].
    destruct (p_timers p) as [|[due g] rest]; [done|]. destruct (due <=? v_clock v); [|done].
    rewrite on_session_other by done. by apply find_update_other.
Qed.

(** ** The fallback timer *)

(** The conditions under which the delayed compatibility INFORM still makes sense *)
Definition still_waiting (g : Z) (s : session) : Prop :=
  handshake_generation s = g /\ protocol_profile s = PENDING /\ first_data_seen s = false /\
  rx_streaming s = false /\ fallback_sent s = false.

Lemma fallback_guard g (w : W) : still_waiting g (sess w) \/ fallback cfg st g w = (Ok tt, w).
Proof.
  unfold fallback, sget, mget. unfold mbind, M_bind. cbn [id].
  destruct (negb _ || _ || _ || _ || _) eqn:Eb; [by right|left].
  repeat (apply orb_false_iff in Eb as [Eb ?]).
  apply negb_false_iff, Z.eqb_eq in Eb. split_and!; try done.
  match goal with Hp : negb _ = false |- _ => by apply negb_false_iff, bool_decide_eq_true in Hp end.
Qed.

(** A timer that is not due is left alone.  One that is due is used up, and does nothing
    else unless its session still waits in the handshake the timer was started for; a
    timer of a replaced session, an earlier handshake, or a peer that has sent data in
    the meantime sends nothing. *)
Theorem stale_timer_inert a (v : V) p due g rest :
  peer_find a (v_peers v) = Some p -> p_timers p = (due, g) :: rest ->
  let v' := step cfg st (E_timer a) v in
  (v_clock v < due -> v' = v) /\
  (due <= v_clock v -> ~ still_waiting g (p_session p) ->
     v_sent v' = v_sent v /\ v_host v' = v_host v /\
     peer_find a (v_peers v') = Some (p <| p_timers := rest |>)).
Proof.
  intros Ef Et v'. unfold v'. cbn [step]. unfold fire_timer. rewrite Ef, Et. split.
  - intros Hlt. by rewrite (proj2 (Z.leb_gt _ _) Hlt).
  - intros Hdue Hnot. rewrite (proj2 (Z.leb_le _ _) Hdue). unfold on_session.
    cbn. rewrite peer_find_update, (bool_decide_eq_true_2 _ eq_refl), Ef. cbn.
    unfold swallow, mcatch. set (w := world_of _ _ _).
    destruct (fallback_guard g w) as [Hs|Hs]; [by destruct Hnot|]. rewrite Hs. cbn. split_and!; [done..|].
    rewrite peer_find_update, (bool_decide_eq_true_2 _ eq_refl), peer_find_update, (bool_decide_eq_true_2 _ eq_refl), Ef. cbn.
    by destruct p.
Qed.

(** ** The first payload *)

(** The session without what a compatibility INFORM changes *)
Definition erase_inform (s : session) : session :=
  s <| tx_seq_nr := 0 |> <| tx_seq_nr_acked := 0 |> <| fallback_sent := false |>.

Lemma compatibility_inform_spec (w : W) r w' :
  compatibility_inform cfg st w = (r, w') -> erase_inform (sess w') = erase_inform (sess w) /\ host w' = host w.
Proof.
  unfold compatibility_inform, sget, mget, lift. unfold mbind at 1 2, M_bind at 1 2. cbn [id].
  destruct (inform_packet _ _) as [pkt|e]; [|by intros [= _ <-]]. unfold mbind, M_bind.
  destruct (send_specific _ _ _ _ w) as [[u|e] w1] eqn:E; apply send_specific_spec in E as [Es Eh]; intros [= _ <-].
  - split; [|done]. cbn. by rewrite Es.
  - by rewrite Es.
Qed.

(** Session [s'] got profile [p] from session [s] with its first payload. *)
Record fixed (p : profile) (seq : Z) (from : socket) (s s' : session) : Prop := {
  fx_profile : protocol_profile s' = p;
  fx_socket : response_socket s' = from;
  fx_seen : first_data_seen s' = true;
  fx_expected : rx_seq_nr_expected s' = (if bool_decide (p = MODULO) then seq else 0);
  fx_handles : handles s' = handles s;
  fx_next : next_handle s' = next_handle s
}.

Lemma fixed_inform p seq from s s1 s2 : erase_inform s2 = erase_inform s1 -> fixed p seq from s s1 -> fixed p seq from s s2.
Proof.
  intros He [H1 H2 H3 H4 H5 H6]. split.
  - by rewrite (erase_field protocol_profile erase_inform _ _ (fun _ => eq_refl) He).
  - by rewrite (erase_field response_socket erase_inform _ _ (fun _ => eq_refl) He).
  - by rewrite (erase_field first_data_seen erase_inform _ _ (fun _ => eq_refl) He).
  - by rewrite (erase_field rx_seq_nr_expected erase_inform _ _ (fun _ => eq_refl) He).
  - by rewrite (erase_field handles erase_inform _ _ (fun _ => eq_refl) He).
  - by rewrite (erase_field next_handle erase_inform _ _ (fun _ => eq_refl) He).
Qed.

Lemma fix_profile_spec seq from (w : W) r w' :
  fix_profile cfg st seq from w = (r, w') ->
  fixed (classify_profile (discovery_sequence (sess w)) seq) seq from (sess w) (sess w') /\ host w' = host w.
Proof.
  unfold fix_profile, sget, mget, smod, mmod. unfold mbind at 1 2, M_bind at 1 2. cbn [id].
  generalize (classify_profile (discovery_sequence (sess w)) seq) as p. intros [].
  3: { unfold mbind, M_bind. cbn -[compatibility_inform]. destruct (fallback_sent (sess w)).
       - intros [= _ <-]. by split.
       - intros E. apply compatibility_inform_spec in E as [He Hh]. split; [|exact Hh].
         eapply fixed_inform; [exact He|]. by split. }
  all: intros [= _ <-]; split; [|done]; cbn; by destruct (fallback_sent (sess w)).
Qed.

(** The first payload of a session that waits for its profile is always in sequence for a
    peer of the profile found: it fixes the profile, replies go to the socket it came in
    on, no handle and nothing on the host changes, and the number now expected is the
    payload's own under MODULO and 0 under STANDARD. *)
Theorem first_payload_fixes_profile seq n from (w : W) r w' :
  0 < n -> protocol_profile (sess w) = PENDING -> ingress (sess w) = Some from ->
  pending_zero_discovery_at (sess w) = None -> pending_discovery_sequence (sess w) = None ->
  negotiate cfg st seq n w = (r, w') ->
  let p := classify_profile (discovery_sequence (sess w)) seq in
  protocol_profile (sess w') = p /\ response_socket (sess w') = from /\ first_data_seen (sess w') = true /\
  rx_seq_nr_expected (sess w') = (if bool_decide (p = MODULO) then seq else 0) /\
  handles (sess w') = handles (sess w) /\ next_handle (sess w') = next_handle (sess w) /\ host w' = host w.
Proof.
  intros Hn Hp Hi Hz Hd. unfold negotiate, sget, mget, smod, mmod, mwhen. rewrite (proj2 (Z.ltb_lt 0 n)) by done.
  unfold mbind at 1 2, M_bind at 1 2. cbn [id]. set (w1 := w <| sess ::= _ |>).
  assert (Hs1 : sess w1 = sess w).
  { unfold w1. cbn. unfold resolve_nonzero. rewrite Hd. unfold resolve_zero. by rewrite Hz. }
  assert (Hh1 : host w1 = host w) by done. clearbody w1.
  unfold mbind at 1, M_bind at 1. cbn [id]. rewrite Hs1, Hp, Hi. rewrite (bool_decide_eq_true_2 _ eq_refl). cbn [andb default].
  intros E. apply fix_profile_spec in E as [[? ? ? ? ? ?] Hh]. rewrite Hs1 in *. split_and!; [done..|]. by rewrite Hh.
Qed.
End isolation.
