(* ===== verification/LoopFacts.v ===== *)
(** * The receive loops

    The standalone server's loop survives every datagram; the Core's does not survive a
    send that fails while it answers a discovery. *)

From S2P Require Import Prelude PyStr SessionStats Compressed HostOs ChdCue Wire Session Transport TransportFacts TransferFacts Paths Handlers Server HandlersFacts Toy Core CoreFacts.

Section loop.
Context {Os : Type} `{HostOs Os} `{Codecs} (cfg : config) (st : settings).
Abbreviation W := (world Os).
Abbreviation V := (@server Os).

(** A computation that returns, or raises an [OSError] *)
Definition calm_result {A} (r : result A) : Prop := match r with Ok _ | Err (OSError _) => True | _ => False end.

Lemma unpack_prefix_ok fs data : Z.of_nat (fmts_size fs) <= zlen data -> exists vs, unpack_prefix fs data = Ok vs.
Proof.
  intros Hl. unfold unpack_prefix. destruct (unpack_total fs (ztake (Z.of_nat (fmts_size fs)) data)) as [vs Hv].
  - apply Nat2Z.inj. fold (zlen (ztake (Z.of_nat (fmts_size fs)) data)). rewrite zlen_ztake. lia.
  - exists vs. by rewrite Hv.
Qed.

Lemma header_unpack_ok data : 2 <= zlen data -> exists h, Header.unpack data = Ok h.
Proof.
  intros Hl. unfold Header.unpack. destruct (unpack_prefix_ok [fH] data Hl) as [vs ->]. by eexists.
Qed.

Lemma disc_unpack_ok data : 4 <= zlen data -> exists h, DiscHeader.unpack data = Ok h.
Proof.
  intros Hl. unfold DiscHeader.unpack. destruct (unpack_prefix_ok [fH; fH] data Hl) as [vs ->]. by eexists.
Qed.

Lemma inform_ok seq port : 0 <= port < 65536 -> exists p, inform_packet seq port = Ok p.
Proof.
  intros Hp. unfold inform_packet, DiscHeader.pack. cbn [DiscHeader.service_id DiscHeader.port].
  rewrite (pack_cons fH UDPRDMA_SVC_UDPFS _ (le_bytes 2 port)); [by eexists|done|].
  by apply (pack_single fH), fits_unsigned.
Qed.

Lemma send_calm sock pkt a (w : W) : calm_result (fst (send_specific (tx_delay cfg) sock pkt a w)).
Proof.
  unfold send_specific. generalize (Nat.lt_0_succ 9). change (Z.to_nat MAX_SEND_RETRIES) with 10%nat.
  enough (Hgen : forall tries n (w : W), 10 <= n + Z.of_nat tries -> (0 < tries)%nat ->
    calm_result (fst (send_attempts (tx_delay cfg) tries n sock pkt a w))) by (intros _; apply Hgen; lia).
  clear w. induction tries as [|tries IH]; intros n w Hn Ht; [lia|]. cbn [send_attempts].
  set (w1 := if 0 <? tx_delay cfg then _ else _). destruct (net w1) as [|[e|] rest]; [done| |done].
  destruct (negb (transient e) || _) eqn:Eb; [done|]. apply orb_false_iff in Eb as [_ Eb%Z.leb_gt].
  unfold MAX_SEND_RETRIES in Eb. apply IH; lia.
Qed.

(** Computations that return or raise an [OSError], from every state *)
Definition tame {S A} (m : M S A) : Prop := forall s, calm_result (fst (m s)).

Lemma tame_bind {S A B} (m : M S A) (k : A -> M S B) : tame m -> (forall a, tame (k a)) -> tame (m ≫= k).
Proof.
  intros Hm Hk s. unfold mbind, M_bind. pose proof (Hm s) as H1. destruct (m s) as [[a|e] s1]; [apply Hk|done].
Qed.
Lemma tame_ret {S A} (a : A) : tame (mret (M := M S) a).
Proof. done. Qed.
Lemma tame_lift {S A} (x : result A) : (exists a, x = Ok a) -> tame (S := S) (lift x).
Proof. by intros [a ->]. Qed.

Lemma tame_send_inform a : 0 <= data_port st < 65536 -> tame (send_inform (Os := Os) cfg st a).
Proof.
  intros Hp. unfold send_inform, sendto. apply tame_bind; [done|intros s]. destruct (modulo_compat st).
  - apply tame_bind; [by apply tame_lift, inform_ok|intros p]. apply tame_bind; [|done].
    apply tame_bind; [done|intros sock w; apply send_calm].
  - apply tame_bind; [by apply tame_lift, inform_ok|intros p]. apply tame_bind; [done|intros sock w; apply send_calm].
Qed.

Lemma tame_answer a seq : 0 <= data_port st < 65536 -> tame (Server.answer_discovery (Os := Os) cfg st a seq).
Proof.
  intros Hp. unfold Server.answer_discovery. apply tame_bind; [done|intros now]. apply tame_bind; [done|intros s].
  destruct (modulo_compat st); [|by apply tame_send_inform]. destruct (is_repeated_probe _ _ _).
  - apply tame_bind; [by apply tame_lift, inform_ok|intros p]. apply tame_bind; [done|intros sock w; apply send_calm].
  - apply tame_bind; [done|intros _; by apply tame_send_inform].
Qed.

(** The host's [stat] raises nothing but what [os.path.isdir] passes over. *)
Definition stat_calm : Prop := forall p o, match os_stat p o with
  | Ok _ | Err (OSError _) | Err ValueError => True | _ => False end.

Lemma tame_off_session {A} (m : M W A) : tame m -> tame (off_session m).
Proof. intros Hm v. unfold off_session. pose proof (Hm (world_of (new_session (0, 0) None PENDING 0) [] v)). by destruct (m _). Qed.

Lemma tame_status a data : stat_calm -> tame (maybe_answer_status (Os := Os) cfg st a data).
Proof.
  intros Hs. unfold maybe_answer_status. destruct (negb _); [done|]. apply tame_bind; [done|intros v].
  apply tame_bind.
  - apply tame_lift. unfold status_state, path_isdir. destruct (root_dir cfg) as [root|]; [|by eexists].
    specialize (Hs root (v_host v)). destruct (os_stat root (v_host v)) as [x|[]]; try done; by eexists.
  - intros state. apply tame_bind; [|done]. apply tame_off_session. intros w. apply send_calm.
Qed.

Lemma find_after_admission a (v : V) :
  is_Some (peer_find a (admitted cfg st a (v_clock v) (v_peers v))).
Proof.
  unfold admitted. rewrite peer_find_update, (bool_decide_eq_true_2 _ eq_refl).
  destruct (peer_find a (v_peers v)) as [p|] eqn:Ef; [rewrite Ef; by eexists|].
  assert (Hl : forall l, is_Some (peer_find a (l ++ [(a, Peer (new_session a (bd_fh cfg) (initial_profile st) (v_clock v)) [] [])]))).
  { induction l as [|[b q] l IH]; cbn [app peer_find]; [rewrite (bool_decide_eq_true_2 _ eq_refl); by eexists|].
    by destruct (bool_decide _). }
  destruct (Hl (match victim_of st (v_peers v) with Some q => peer_remove (fst q) (v_peers v) | None => v_peers v end)) as [q ->].
  by eexists.
Qed.

(** On the session of a client that was just admitted *)
Lemma tame_admitted {A} a (m : M W A) :
  1 <= max_sessions st -> tame m -> tame (get_or_create cfg st a ≫= (fun _ => on_session a m)).
Proof.
  intros Hmax Hm v. unfold mbind, M_bind. destruct (get_or_create_table cfg st a v Hmax) as (v' & -> & Hp & _).
  unfold on_session. destruct (find_after_admission a v) as [p Ef]. rewrite Hp, Ef.
  pose proof (Hm (world_of (p_session p) [] v')). by destruct (m _).
Qed.

Lemma tame_discovery a data :
  1 <= max_sessions st -> 0 <= data_port st < 65536 -> stat_calm ->
  tame (Server.handle_discovery (Os := Os) cfg st a data).
Proof.
  intros Hmax Hp Hs. unfold Server.handle_discovery. destruct (Z.ltb_spec (zlen data) 6); [done|].
  apply tame_bind; [by apply tame_status|intros []]; [done|].
  apply tame_bind; [apply tame_lift, header_unpack_ok; lia|intros hdr]. destruct (negb _); [done|].
  apply tame_bind; [apply tame_lift, disc_unpack_ok|intros disc].
  { pose proof (zlen_slice data 2 10). rewrite zlen_slice; lia. }
  destruct (negb _); [done|]. apply tame_bind; [by apply tame_off_session|intros _].
  apply tame_admitted; [done|by apply tame_answer].
Qed.

Lemma tame_route a data : 1 <= max_sessions st -> tame (route_data (Os := Os) cfg st a data).
Proof.
  intros Hmax. unfold route_data. destruct (Z.ltb_spec (zlen data) 2); [done|].
  apply tame_bind; [apply tame_lift, header_unpack_ok; lia|intros hdr]. destruct (negb _); [done|].
  apply tame_bind; [|done]. intros v. by destruct (get_or_create_table cfg st a v Hmax) as (v' & -> & _).
Qed.

(** The standalone server's receive loop outlives every datagram: with room for a
    session, a data port and a share that can be stat'ed, handling any datagram from
    anywhere on either socket returns normally, whichever sends fail -- so no client and
    no network error ends the loop for the others. *)
Theorem receive_survives sock a data (v : V) :
  1 <= max_sessions st -> 0 <= data_port st < 65536 -> stat_calm ->
  fst (receive cfg st sock a data v) = Ok tt.
Proof.
  intros Hmax Hp Hs. unfold receive, mcatch.
  assert (Ht : tame (if single_port st then
       let data := ztake 4096 data in
       discovery ← (if 2 <=? zlen data
                    then hdr ← lift (Header.unpack data); mret (Header.packet_type hdr =? DISCOVERY)
                    else mret false);
       if (discovery : bool) then Server.handle_discovery cfg st a data else route_data cfg st a data
     else match sock with
          | sock_discovery => Server.handle_discovery cfg st a (ztake 2048 data)
          | sock_data => route_data cfg st a (ztake 4096 data)
          end)).
  { destruct (single_port st); [|destruct sock; [by apply tame_discovery|by apply tame_route]]. cbv zeta.
    apply tame_bind.
    - destruct (Z.leb_spec 2 (zlen (ztake 4096 data))); [|done].
      apply tame_bind; [by apply tame_lift, header_unpack_ok|done].
    - intros []; [by apply tame_discovery|by apply tame_route]. }
  specialize (Ht v). destruct (_ v) as [[[]|e] v'] in Ht |- *; [done|]. by destruct e.
Qed.
End loop.
