(* ===== verification/Catalogue.v ===== *)
(** * The game catalogue of the HTTP server

    Models the first half of [http_server/http_server.py]: the rows of [games.csv] in its
    two formats, the rules of the consoles that read them, and [GameIndex], which scans the
    games folder and is the only way from a requested name to a file.

    Names are texts (see [PyText]); the host is a [HostOs].  What Python knows of Unicode
    beyond ASCII, [str.lower] and the digits of a regular expression, is an argument, of
    class [Unicode].  Comparisons of a lower-cased name with an ASCII literal are made on
    ASCII letters, to which no other character folds here (see [PyStr]). *)

From S2P Require Import Prelude PyStr PyText Compressed HostOs ChdCue.

Class Unicode := {
  (** [s.lower()] *)
  py_lower : text -> text;
  (** what [\d] matches *)
  is_decimal : Z -> bool
}.

Definition STARTUP_MAX : Z := 12.
Definition FILENAME_MAX : Z := 159.
Definition GAMES_CSV_MAX : Z := 8192.
Definition CD_SIZE_LIMIT : Z := 800 * 1024 * 1024.
Definition RIPTOPL_STARTUP_MAX : Z := 12.
Definition RIPTOPL_TITLE_MAX : Z := 160.
Definition RIPTOPL_PATH_MAX : Z := 255.
Definition RIPTOPL_CATALOG_BYTES_MAX : Z := 262144.
Definition RIPTOPL_CATALOG_ROWS_MAX : Z := 2048.
Definition RIPTOPL_URI_MAX : Z := 768.
Definition RIPTOPL_BASE_PATH_MAX : Z := 64.
Definition RECURSIVE_MAX_DEPTH : Z := 4.
Definition RECURSIVE_MAX_DIRS : Z := 2000.

(** [MEDIA_CD] and [MEDIA_DVD] *)
Inductive media := CD | DVD.
Definition media_text (m : media) : text := match m with CD => lit "CD" | DVD => lit "DVD" end.

#[export] Instance media_eq_dec : EqDecision media.
Proof. solve_decision. Defined.

Definition COMMA : Z := 44.
Definition QUOTE : Z := 34.
Definition NEWLINE : Z := 10.
Definition RETURN : Z := 13.
Definition UNDERSCORE : Z := 95.

(** ** Names *)

Definition is_letter (c : Z) : bool := ((65 <=? c) && (c <=? 90)) || ((97 <=? c) && (c <=? 122)).

(** [s.upper()], on ASCII letters *)
Definition upper1 (c : Z) : Z := if (97 <=? c) && (c <=? 122) then c - 32 else c.
Definition upper (s : text) : text := map upper1 s.

(** [(.+)$]: all there is, save one final newline; there is no other newline. *)
Definition rest_of_line (s : text) : option text :=
  match partition_on NEWLINE s with
  | ([], _) => None
  | (line, []) => Some line
  | _ => None
  end.

Section unicode.
Context `{Unicode}.

(** [_STARTUP_RE.match(stem)], as its two groups *)
Definition STARTUP_RE (stem : text) : option (text * text) :=
  let id := ztake 11 stem in
  match id, zdrop 11 stem with
  | [a; b; c; d; u; e; f; g; p; h; i], q :: rest =>
      if forallb is_letter [a; b; c; d] && (u =? UNDERSCORE) && forallb is_decimal [e; f; g]
         && (p =? DOT) && forallb is_decimal [h; i] && (q =? DOT)
      then line ← rest_of_line rest; Some (id, line) else None
  | _, _ => None
  end.

(** [parse_startup] *)
Definition parse_startup (stem : text) : text * text :=
  match STARTUP_RE stem with
  | Some (id, title) => (upper id, title)
  | None => (ztake STARTUP_MAX stem, stem)
  end.
End unicode.

(** [_utf8_prefix] *)
Definition utf8_prefix (s : text) (limit : Z) : result text :=
  data ← utf8_encode s;
  if zlen data <=? limit then Ok s else Ok (utf8_ignore (ztake limit data)).

(** [_csv_quote] *)
Definition csv_quote (s : text) : text :=
  QUOTE :: concat (map (fun c => if c =? QUOTE then [QUOTE; QUOTE] else [c]) s) ++ [QUOTE].

(** [_has_control] *)
Definition has_control (s : text) : bool := existsb (fun c => (c <? 32) || (c =? 127)) s.

(** [_RIPTOPL_UNRESERVED] *)
Definition unreserved (c : Z) : bool :=
  is_letter c || is_digit c || existsb (Z.eqb c) [45; 95; 46; 126; 47].

Definition hex_digit (n : Z) : Z := if n <? 10 then 48 + n else 55 + n.

(** ["%{:02X}".format(byte)] *)
Definition percent_byte (b : Z) : text := [PERCENT; hex_digit (b / 16); hex_digit (b mod 16)].

(** [riptopl_encoded_path] *)
Fixpoint riptopl_encoded_path (rel_path : text) : result text :=
  match rel_path with
  | [] => Ok []
  | ch :: rel_path =>
      if negb (scalar ch) then Err UnicodeError
      else
        rest ← riptopl_encoded_path rel_path;
        Ok (concat (map (fun b => if unreserved ch then [ch] else percent_byte b) (utf8_units ch)) ++ rest)
  end.

(** [sub in s] *)
Fixpoint contains (sub s : text) : bool :=
  startswith s sub || match s with [] => false | _ :: s => contains sub s end.

Inductive label := L_startup | L_title | L_path.

(** The reasons [riptopl_row_problem] gives *)
Inductive problem :=
  | Blank_edge (l : label) | Empty (l : label) | Control (l : label) | Not_utf8 (l : label) | Too_long (l : label)
  | Looks_like_url | Absolute_path | Has_backslash | Empty_segment | Parent_segment | Bad_extension | Long_uri.

(** The first answer there is *)
Definition first_some {A} (l : list (option A)) : option A :=
  foldr (fun x rest => match x with Some _ => x | None => rest end) None l.

(** The body of the loop over the three fields *)
Definition field_problem (f : label * text * Z) : option problem :=
  let '(label, value, limit) := f in
  if negb (str_eqb value (strip is_blank value)) then Some (Blank_edge label)
  else if str_eqb value [] then Some (Empty label)
  else if has_control value then Some (Control label)
  else match utf8_encode value with
       | Ok data => if limit <? zlen data then Some (Too_long label) else None
       | Err _ => Some (Not_utf8 label)
       end.

Definition segment_problem (segment : text) : option problem :=
  if str_eqb segment [] || str_eqb segment [DOT] then Some Empty_segment
  else if str_eqb segment [DOT; DOT] then Some Parent_segment
  else None.

(** [riptopl_row_problem] *)
Definition riptopl_row_problem (startup title rel_path : text) : result (option problem) :=
  match first_some (map field_problem [(L_startup, startup, RIPTOPL_STARTUP_MAX);
                                       (L_title, title, RIPTOPL_TITLE_MAX);
                                       (L_path, rel_path, RIPTOPL_PATH_MAX)]) with
  | Some p => Ok (Some p)
  | None =>
      if contains (lit "://") rel_path then Ok (Some Looks_like_url)
      else if startswith rel_path [SLASH] then Ok (Some Absolute_path)
      else if existsb (Z.eqb BACKSLASH) rel_path then Ok (Some Has_backslash)
      else
        match first_some (map segment_problem (split_on SLASH rel_path)) with
        | Some p => Ok (Some p)
        | None =>
            if negb (existsb (endswith (lower rel_path)) [lit ".iso"; lit ".zso"]) || (zlen rel_path <=? 4)
            then Ok (Some Bad_extension)
            else
              uri ← riptopl_encoded_path rel_path;
              Ok (if RIPTOPL_URI_MAX <=? zlen uri + RIPTOPL_BASE_PATH_MAX then Some Long_uri else None)
        end
  end.

(** ** Rows *)

(** [GameEntry] *)
Record game_entry := GameEntry {
  startup : text;
  advertised : text;
  path : text;
  ge_media : media;
  size : Z;
  compressed : bool;
  conventional : bool;
  rel_path : text;
  title : text
}.

#[export] Instance game_entry_eq_dec : EqDecision game_entry.
Proof. solve_decision. Defined.

(** [GameEntry.csv_line] *)
Definition csv_line (e : game_entry) : text :=
  startup e ++ COMMA :: advertised e ++ COMMA :: media_text (ge_media e).

(** [GameEntry.riptopl_csv_line] *)
Definition riptopl_csv_line (e : game_entry) : text :=
  csv_quote (startup e) ++ COMMA :: csv_quote (title e) ++ COMMA :: media_text (ge_media e)
  ++ COMMA :: csv_quote (rel_path e).

(** The loop of [_build_csv] *)
Fixpoint add_lines (es : list game_entry) (body : bytes) (dropped : Z) : result (bytes * Z) :=
  match es with
  | [] => Ok (body, dropped)
  | e :: es =>
      line ← utf8_encode_replace (csv_line e ++ [NEWLINE]);
      if GAMES_CSV_MAX <? zlen body + zlen line then add_lines es body (dropped + 1)
      else add_lines es (body ++ line) dropped
  end.

(** What the loop of [_build_riptopl_csv] carries: [startups] are the keys of its dict. *)
Record rows_state := RowsState {
  body : bytes;
  dropped : Z;
  rows : Z;
  startups : gset text;
  retained : list game_entry
}.

#[export] Instance eta_rows_state : Eta rows_state := fun s =>
  RowsState (body s) (dropped s) (rows s) (startups s) (retained s).

Definition no_rows : rows_state :=
  {| body := []; dropped := 0; rows := 0; startups := ∅; retained := [] |}.

Definition add_row (e : game_entry) (s : rows_state) : result rows_state :=
  problem ← riptopl_row_problem (startup e) (title e) (rel_path e);
  match problem with
  | Some _ => Ok s
  | None =>
      if bool_decide (startup e ∈ startups s) then Ok s
      else
        line ← utf8_encode (riptopl_csv_line e ++ [NEWLINE]);
        if (RIPTOPL_CATALOG_ROWS_MAX <=? rows s) || (RIPTOPL_CATALOG_BYTES_MAX <? zlen (body s) + zlen line)
        then Ok (s <| dropped ::= Z.add 1 |>)
        else Ok (RowsState (body s ++ line) (dropped s) (rows s + 1) ({[startup e]} ∪ startups s)
                   (retained s ++ [e]))
  end.

Fixpoint add_rows (es : list game_entry) (s : rows_state) : result rows_state :=
  match es with
  | [] => Ok s
  | e :: es => s ← add_row e s; add_rows es s
  end.

Section unicode.
Context `{Unicode}.

(** [_build_csv] on [entries.values()] *)
Definition build_csv (entries : list game_entry) : result (bytes * Z) :=
  add_lines (sorted (by_text (fun e => py_lower (advertised e))) entries) [] 0.

(** The key [(e.rel_path.lower(), e.rel_path)] *)
Definition row_leb (a b : game_entry) : bool :=
  let ka := py_lower (rel_path a) in
  let kb := py_lower (rel_path b) in
  if str_eqb ka kb then points_leb (rel_path a) (rel_path b) else points_leb ka kb.

(** [_build_riptopl_csv]; the final state holds the list and what it retained *)
Definition build_riptopl_csv (entries : list game_entry) : result rows_state :=
  add_rows (sorted row_leb entries) no_rows.
End unicode.

(** ** The index *)

Definition PROFILE_LEGACY_FLAT : text := lit "legacy-flat".
Definition PROFILE_RIPTOPL_PATH_AWARE : text := lit "riptopl-path-aware".

(** The attributes that [GameIndex.__init__] fixes *)
Record settings := Settings {
  root_dir : text;
  enable_compression : bool;
  path_aware : bool;
  recursive : bool
}.

(** One part of the change token: a directory with the name, time and size of each
    entry, or the [games.csv] on disk. *)
Inductive sig_part :=
  | Sig_dir (dir : text) (items : list (text * Z * Z))
  | Sig_csv (mtime size : Z).

#[export] Instance sig_part_eq_dec : EqDecision sig_part.
Proof. solve_decision. Defined.

(** The attributes that change.  [entries] is a dict in insertion order. *)
Record index := Index {
  entries : list (text * game_entry);
  path_entries : gmap text game_entry;
  exact_paths : gmap text game_entry;
  ambiguous_paths : gset text;
  ambiguous_names : gset text;
  csv : bytes;
  signature : option (list sig_part);
  last_scan : Z
}.

#[export] Instance eta_index : Eta index := fun i =>
  Index (entries i) (path_entries i) (exact_paths i) (ambiguous_paths i) (ambiguous_names i) (csv i)
    (signature i) (last_scan i).

Definition new_index : index :=
  {| entries := []; path_entries := ∅; exact_paths := ∅; ambiguous_paths := ∅; ambiguous_names := ∅;
     csv := []; signature := None; last_scan := 0 |}.

(** Seconds, in microseconds *)
Definition RESCAN_INTERVAL : Z := 5000000.

Definition IO_REPARSE_TAG_MOUNT_POINT : Z := 0xA0000003.

(** [RAW_EXTENSIONS] with [_ADVERTISED_RAW_EXTENSION] *)
Definition ADVERTISED_RAW_EXTENSION : list (text * text) :=
  [(lit ".iso", lit ".iso"); (lit ".zso", lit ".zso"); (lit ".ziso", lit ".zso")].

Definition GAMES_CSV : text := lit "games.csv".

(** A directory to scan, with the media its place implies *)
Abbreviation scan_dir := (text * option media)%type.

Section index.
Context {Os : Type} `{HostOs Os} `{Codecs} `{Unicode} (cfg : settings).

(** A host operation on a path given as text *)
Definition at_path {A} (f : str -> Os -> result A) (p : text) (o : Os) : result A :=
  q ← fsencode p; f q o.

(** [False] for an [OSError] or a [ValueError], as [os.path.isfile] and [isdir] have it *)
Definition is_kind (test : stat_result -> bool) (p : text) (o : Os) : result bool :=
  match at_path os_stat p o with
  | Ok st => Ok (test st)
  | Err (OSError _) | Err ValueError | Err UnicodeError => Ok false
  | Err e => Err e
  end.
Definition isfile : text -> Os -> result bool := is_kind S_ISREG.
Definition isdir : text -> Os -> result bool := is_kind S_ISDIR.

Definition listdir (p : text) (o : Os) : result (list text) :=
  names ← at_path os_listdir p o; Ok (map code_points names).

(** [os.path.realpath] on texts *)
Definition real_path (p : text) (o : Os) : result text :=
  q ← at_path realpath p o; Ok (code_points q).

Definition rel_to_root (p : text) (o : Os) : text := relpath (code_points (os_getcwd o)) p (root_dir cfg).

(** [_decompressible] *)
Definition decompressible : list text :=
  let exts := Formats.supported_compressed_extensions lz4_available libchdr_available in
  if negb (enable_compression cfg) then []
  else if path_aware cfg then exts
  else List.filter (fun ext => negb (existsb (str_eqb ext) [lit ".zso"; lit ".ziso"])) exts.

(** The children that [_is_real_dir] accepts, sorted by name *)
Definition is_real_dir (dir name : text) (o : Os) : result bool :=
  match at_path os_lstat (path_join dir name) o with
  | Ok st => Ok (S_ISDIR st && negb (st_reparse_tag st =? IO_REPARSE_TAG_MOUNT_POINT))
  | Err (OSError _) => Ok false
  | Err e => Err e
  end.

Fixpoint real_dirs (dir : text) (names : list text) (o : Os) : result (list text) :=
  match names with
  | [] => Ok []
  | name :: names =>
      b ← is_real_dir dir name o;
      rest ← real_dirs dir names o;
      Ok (if (b : bool) then name :: rest else rest)
  end.

Definition real_children (dir : text) (o : Os) : result (list text) :=
  names ← listdir dir o;
  children ← real_dirs dir names o;
  Ok (sorted points_leb children).

Definition implied_media (depth : Z) (name : text) (inherited : option media) : option media :=
  if depth =? 0 then
    if str_eqb (upper name) (lit "CD") then Some CD
    else if str_eqb (upper name) (lit "DVD") then Some DVD else inherited
  else inherited.

(** The loop over the children of one directory, to the limit of directories *)
Fixpoint add_children (dir : text) (inherited : option media) (depth : Z) (children : list text)
    (dirs : list scan_dir) (pending : list (scan_dir * Z)) : list scan_dir * list (scan_dir * Z) :=
  match children with
  | [] => (dirs, pending)
  | name :: children =>
      if RECURSIVE_MAX_DIRS <=? zlen dirs then (dirs, pending)
      else
        let child := (path_join dir name, implied_media depth name inherited) in
        add_children dir inherited depth children (dirs ++ [child]) (pending ++ [(child, depth + 1)])
  end.

(** The loop of [_walk_dirs] *)
Fixpoint walk (fuel : nat) (dirs : list scan_dir) (pending : list (scan_dir * Z)) (o : Os)
    : result (list scan_dir) :=
  match pending with
  | [] => Ok dirs
  | ((dir, inherited), depth) :: pending =>
      if RECURSIVE_MAX_DIRS <=? zlen dirs then Ok dirs
      else match fuel with
      | O => Err Hang
      | S fuel =>
          if RECURSIVE_MAX_DEPTH <=? depth then walk fuel dirs pending o
          else match real_children dir o with
               | Err (OSError _) => walk fuel dirs pending o
               | Err e => Err e
               | Ok children =>
                   let '(dirs, pending) := add_children dir inherited depth children dirs pending in
                   walk fuel dirs pending o
               end
      end
  end.

Definition walk_fuel : nat := Z.to_nat RECURSIVE_MAX_DIRS.

(** [_walk_dirs] *)
Definition walk_dirs (o : Os) : result (list scan_dir) :=
  walk walk_fuel [(root_dir cfg, None)] [((root_dir cfg, None), 0)] o.

(** [by_lower.get(name)]: the last entry of the listing that folds to it *)
Definition by_lower (name : text) (names : list text) : option text :=
  last (List.filter (fun n => str_eqb (lower n) (lower name)) names).

(** One of the subdirectories of [SCAN_DIRS] *)
Definition scan_sub (name : text) (m : media) (names : list text) (o : Os) : result (list scan_dir) :=
  match by_lower name names with
  | None => Ok []
  | Some actual =>
      let path := path_join (root_dir cfg) actual in
      b ← isdir path o;
      Ok (if (b : bool) then [(path, Some m)] else [])
  end.

(** [_scan_dirs] *)
Definition scan_dirs (o : Os) : result (list scan_dir) :=
  if recursive cfg then walk_dirs o
  else
    names ← match listdir (root_dir cfg) o with Err (OSError _) => Ok [] | r => r end;
    dvd ← scan_sub (lit "DVD") DVD names o;
    cd ← scan_sub (lit "CD") CD names o;
    Ok ((root_dir cfg, None) :: dvd ++ cd).

(** [_contained] *)
Definition contained (path : text) (o : Os) : result bool :=
  real ← real_path path o;
  Ok (str_eqb real (root_dir cfg) || startswith real (rstrip SLASH (root_dir cfg) ++ [SLASH])).

(** [_disk_csv_path] *)
Definition disk_csv_path (o : Os) : result (option text) :=
  let p := path_join (root_dir cfg) GAMES_CSV in
  b ← isfile p o; Ok (if (b : bool) then Some p else None).

(** ** The change token *)

(** [a <= b] on the tuples of one directory *)
Definition item_leb (a b : text * Z * Z) : bool :=
  let '(na, ta, sa) := a in
  let '(nb, tb, sb) := b in
  if str_eqb na nb then (ta <? tb) || ((ta =? tb) && (sa <=? sb)) else points_leb na nb.

Fixpoint stat_items (dir : text) (names : list text) (o : Os) : result (list (text * Z * Z)) :=
  match names with
  | [] => Ok []
  | name :: names =>
      match at_path os_stat (path_join dir name) o with
      | Err (OSError _) => stat_items dir names o
      | Err e => Err e
      | Ok st =>
          rest ← stat_items dir names o;
          Ok ((name, st_mtime_ns st, st_size st) :: rest)
      end
  end.

(** [_signature_of], its loop over the directories *)
Fixpoint dir_parts (dirs : list scan_dir) (o : Os) : result (list sig_part) :=
  match dirs with
  | [] => Ok []
  | (dir, _) :: dirs =>
      match names ← listdir dir o; stat_items dir names o with
      | Err (OSError _) => dir_parts dirs o
      | Err e => Err e
      | Ok items => rest ← dir_parts dirs o; Ok (Sig_dir dir (sorted item_leb items) :: rest)
      end
  end.

Definition signature_of (dirs : list scan_dir) (o : Os) : result (list sig_part) :=
  parts ← dir_parts dirs o;
  disk ← disk_csv_path o;
  match disk with
  | None => Ok parts
  | Some p =>
      match at_path os_stat p o with
      | Ok st => Ok (parts ++ [Sig_csv (st_mtime_ns st) (st_size st)])
      | Err (OSError _) => Ok parts
      | Err e => Err e
      end
  end.

(** ** Entries *)

(** [_media_for] *)
Definition media_for (implied : option media) (size : Z) : media :=
  match implied with
  | Some m => m
  | None => if size <=? CD_SIZE_LIMIT then CD else DVD
  end.

(** [os.path.getsize], or nothing for an [OSError] *)
Definition getsize (p : text) (o : Os) : result (option Z) :=
  match at_path os_stat p o with
  | Ok st => Ok (Some (st_size st))
  | Err (OSError _) => Ok None
  | Err e => Err e
  end.

Definition compressed_size (p : text) (o : Os) : result (option Z) :=
  info ← at_path (fun q o => Formats.get_compressed_info q (os_open_image q o)) p o;
  Ok (match info with Some (n, _) => Some n | None => None end).

(** The advertised name, the size served and whether the server decompresses; nothing
    for a file that is not a game or whose size cannot be found. *)
Definition advertise (path stem ext : text) (o : Os) : result (option (text * Z * bool)) :=
  if existsb (str_eqb (lower ext)) decompressible then
    info ← compressed_size path o;
    Ok (size ← info; Some (stem ++ lit ".iso", size, true))
  else
    match Formats.assoc (lower ext) ADVERTISED_RAW_EXTENSION with
    | Some ext =>
        size ← getsize path o;
        Ok (size ← size; Some (stem ++ ext, size, false))
    | None => Ok None
    end.

(** [_path_aware_entry] *)
Definition path_aware_entry (dir stem advertised path : text) (implied : option media) (size : Z)
    (compressed : bool) (o : Os) : result (option game_entry) :=
  inside ← contained path o;
  if negb inside then Ok None
  else
    let rel_dir := rel_to_root dir o in
    let rel := if str_eqb rel_dir [DOT] then advertised else rel_dir ++ SLASH :: advertised in
    match utf8_encode rel with
    | Err UnicodeError => Ok None
    | Err e => Err e
    | Ok _ =>
        let '(id, title) := parse_startup stem in
        let conventional := bool_decide (is_Some (STARTUP_RE stem)) in
        id ← (if (conventional : bool) then Ok id
              else p ← utf8_prefix (strip is_blank stem) RIPTOPL_STARTUP_MAX; Ok (strip is_blank p));
        title ← utf8_prefix (strip is_blank title) RIPTOPL_TITLE_MAX;
        Ok (Some {| startup := id; advertised := advertised; path := path;
                    ge_media := media_for implied size; size := size; compressed := compressed;
                    conventional := conventional; rel_path := rel; title := strip is_blank title |})
    end.

(** The characters that [games.csv] cannot carry *)
Definition breaks_csv (c : Z) : bool := existsb (Z.eqb c) [COMMA; NEWLINE; RETURN].

(** [_entry_for] *)
Definition entry_for (dir name : text) (implied : option media) (o : Os) : result (option game_entry) :=
  let path := path_join dir name in
  let '(stem, ext) := splitext name in
  found ← advertise path stem ext o;
  match found with
  | None => Ok None
  | Some (advertised, size, compressed) =>
      regular ← isfile path o;
      if negb regular then Ok None
      else if path_aware cfg then path_aware_entry dir stem advertised path implied size compressed o
      else if FILENAME_MAX <? zlen advertised then Ok None
      else if existsb breaks_csv advertised then Ok None
      else
        Ok (Some {| startup := fst (parse_startup stem); advertised := advertised; path := path;
                    ge_media := media_for implied size; size := size; compressed := compressed;
                    conventional := bool_decide (is_Some (STARTUP_RE stem));
                    rel_path := advertised; title := advertised |})
  end.

(** The entries of one directory, in the order of the names; none for an [OSError] *)
Fixpoint entries_of (dir : text) (names : list text) (implied : option media) (o : Os)
    : result (list (text * game_entry)) :=
  match names with
  | [] => Ok []
  | name :: names =>
      e ← entry_for dir name implied o;
      rest ← entries_of dir names implied o;
      Ok (match e with Some e => (name, e) :: rest | None => rest end)
  end.

Definition dir_entries (d : scan_dir) (o : Os) : result (list (text * game_entry)) :=
  match listdir (fst d) o with
  | Err (OSError _) => Ok []
  | Err e => Err e
  | Ok names => entries_of (fst d) (sorted points_leb names) (snd d) o
  end.

(** ** The flat index *)

(** What the loop of [_rebuild_flat] builds.  [seen_names] and [entries] always hold the
    same pairs. *)
Record flat_state := FlatState {
  fl_entries : list (text * game_entry);
  fl_paths : gmap text game_entry;
  fl_ambiguous : gset text
}.

Definition flat_key (rel_dir name : text) : text :=
  py_lower (strip_leading (Z.eqb SLASH) (normpath (path_join rel_dir name))).

Definition add_flat (rel_dir : text) (st : flat_state) (ne : text * game_entry) : flat_state :=
  let '(name, e) := ne in
  let key := py_lower (advertised e) in
  let paths := if str_eqb rel_dir [DOT] then fl_paths st
               else <[flat_key rel_dir name := e]> (fl_paths st) in
  match Formats.assoc key (fl_entries st) with
  | Some _ => FlatState (fl_entries st) paths ({[key]} ∪ fl_ambiguous st)
  | None => FlatState (fl_entries st ++ [(key, e)]) paths (fl_ambiguous st)
  end.

Fixpoint flat_dirs (dirs : list scan_dir) (st : flat_state) (o : Os) : result flat_state :=
  match dirs with
  | [] => Ok st
  | d :: dirs =>
      es ← dir_entries d o;
      let rel_dir := replace_char BACKSLASH SLASH (rel_to_root (fst d) o) in
      flat_dirs dirs (foldl (add_flat rel_dir) st es) o
  end.

(** [f.read()] of the whole file *)
Definition read_whole (p : text) (o : Os) : result bytes :=
  f ← at_path os_open_image p o; hf_read f 0 (hf_size f).

(** [_rebuild_flat] *)
Definition rebuild_flat (dirs : list scan_dir) (sig : list sig_part) (i : index) (o : Os) : result index :=
  st ← flat_dirs dirs (FlatState [] ∅ ∅) o;
  let i := i <| entries := fl_entries st |> <| path_entries := fl_paths st |>
             <| ambiguous_names := fl_ambiguous st |> in
  let generated := build_csv (map snd (fl_entries st)) in
  disk ← disk_csv_path o;
  match disk with
  | None => '(body, _) ← generated; Ok (i <| csv := body |> <| signature := Some sig |>)
  | Some p =>
      match read_whole p o with
      | Ok data =>
          if GAMES_CSV_MAX <? zlen data
          then '(body, _) ← generated; Ok (i <| csv := body |> <| signature := Some sig |>)
          else Ok (i <| csv := data |> <| signature := Some sig |>)
      | Err (OSError _) => '(body, _) ← generated; Ok (i <| signature := None |> <| csv := body |>)
      | Err e => Err e
      end
  end.

(** ** The path-aware index *)

Fixpoint found_dirs (dirs : list scan_dir) (o : Os) : result (list game_entry) :=
  match dirs with
  | [] => Ok []
  | d :: dirs =>
      es ← dir_entries d o;
      rest ← found_dirs dirs o;
      Ok (map snd es ++ rest)
  end.

(** [candidates]: the first entry found for each path *)
Definition add_candidate (cs : list game_entry) (e : game_entry) : list game_entry :=
  if existsb (fun c => str_eqb (rel_path c) (rel_path e)) cs then cs else cs ++ [e].

Definition candidates (found : list game_entry) : list game_entry := foldl add_candidate [] found.

(** The loop that fills [exact], [folded] and [ambiguous] *)
Definition add_exact (st : gmap text game_entry * gmap text game_entry * gset text) (e : game_entry)
    : gmap text game_entry * gmap text game_entry * gset text :=
  let '(exact, folded, ambiguous) := st in
  let key := py_lower (rel_path e) in
  (<[rel_path e := e]> exact,
   match folded !! key with Some _ => folded | None => <[key := e]> folded end,
   match folded !! key with Some _ => {[key]} ∪ ambiguous | None => ambiguous end).

(** [for key in ambiguous: folded.pop(key, None)] *)
Definition drop_keys (keys : gset text) (m : gmap text game_entry) : gmap text game_entry :=
  filter (fun kv => fst kv ∉ keys) m.

(** [_rebuild_path_aware] *)
Definition rebuild_path_aware (dirs : list scan_dir) (sig : list sig_part) (i : index) (o : Os) : result index :=
  found ← found_dirs dirs o;
  _ ← disk_csv_path o;
  st ← build_riptopl_csv (candidates found);
  let '(exact, folded, ambiguous) := foldl add_exact (∅, ∅, ∅) (retained st) in
  Ok {| entries := []; path_entries := drop_keys ambiguous folded; exact_paths := exact;
        ambiguous_paths := ambiguous; ambiguous_names := ∅; csv := body st;
        signature := Some sig; last_scan := last_scan i |}.

(** [refresh] *)
Definition refresh (force : bool) (i : index) (o : Os) : result index :=
  dirs ← scan_dirs o;
  sig ← signature_of dirs o;
  if negb force && bool_decide (Some sig = signature i) then Ok i
  else if path_aware cfg then rebuild_path_aware dirs sig i o
  else rebuild_flat dirs sig i o.

(** ** Lookup *)

(** The loop of [_lookup_path]: leading segments are dropped one at a time. *)
Fixpoint lookup_from (parts : list text) (i : index) : option game_entry :=
  match parts with
  | [] => None
  | _ :: rest =>
      let candidate := join_with SLASH parts in
      match exact_paths i !! candidate with
      | Some e => Some e
      | None =>
          let key := py_lower candidate in
          if bool_decide (key ∈ ambiguous_paths i) then None
          else match path_entries i !! key with
               | Some e => Some e
               | None => lookup_from rest i
               end
      end
  end.

Definition clean_path (name : text) : text := strip_leading (Z.eqb SLASH) (normpath name).

(** [_lookup_path] *)
Definition lookup_path (name : text) (i : index) : option game_entry :=
  lookup_from (split_on SLASH (clean_path name)) i.

(** [lookup] *)
Definition lookup (name : text) (i : index) : option game_entry :=
  if path_aware cfg then lookup_path name i
  else match path_entries i !! py_lower (clean_path name) with
       | Some e => Some e
       | None =>
           let base := py_lower (basename name) in
           if bool_decide (base ∈ ambiguous_names i) then None
           else Formats.assoc base (entries i)
       end.
End index.

Section init.
Context {Os : Type} `{HostOs Os} `{Codecs} `{Unicode}.

(** [GameIndex.__init__]; [available] is [COMPRESSION_AVAILABLE]. *)
Definition init (available : bool) (root : text) (enable_compression : bool) (profile : text)
    (recursive : bool) (o : Os) : result (settings * index) :=
  if negb (existsb (str_eqb profile) [PROFILE_LEGACY_FLAT; PROFILE_RIPTOPL_PATH_AWARE]) then Err ValueError
  else if recursive && negb (str_eqb profile PROFILE_RIPTOPL_PATH_AWARE) then Err ValueError
  else
    root ← real_path root o;
    let cfg := {| root_dir := root; enable_compression := enable_compression && available;
                  path_aware := str_eqb profile PROFILE_RIPTOPL_PATH_AWARE; recursive := recursive |} in
    i ← refresh cfg true new_index o;
    Ok (cfg, i).
End init.
