(* ===== verification/Http.v ===== *)
(** * The HTTP server: connections

    Models the second half of [http_server/http_server.py]: [Ps2HTTPRequestHandler], which
    answers the requests of one keep-alive connection from the index of [Catalogue].

    What [BaseHTTPRequestHandler] does before [do_GET] and [do_HEAD] is the input of the
    model: a [request] holds the attributes it leaves.  The header calls write the bytes of
    [send_response_only], [send_header] and [end_headers], and nothing for HTTP/0.9.  The
    socket is a script: each entry says what the next send does, and no entry that it
    succeeds; [out] is what went down the wire.  The date is an argument, [http_date]. *)

From S2P Require Import Prelude PyStr PyText SessionStats Compressed HostOs ChdCue Handlers Catalogue.

Definition EPIPE : Z := 32.
Definition ECONNRESET : Z := 104.
Definition ESHUTDOWN : Z := 108.

(** [BrokenPipeError] and [ConnectionResetError], by the number of the [OSError] *)
Definition is_reset (e : option Z) : bool :=
  existsb (fun n => bool_decide (e = Some n)) [EPIPE; ECONNRESET; ESHUTDOWN].

Inductive command := GET | HEAD.

#[export] Instance command_eq_dec : EqDecision command.
Proof. solve_decision. Defined.

(** [self.command], [self.path], the [Range] header, whether the version is HTTP/0.9, and
    the [close_connection] that the version and the [Connection] header ask for *)
Record request := Request {
  rq_command : command;
  rq_path : text;
  rq_range : option text;
  rq_http09 : bool;
  rq_close : bool
}.

(** What the next send does: [Fails n e] raises an [OSError] after [n] bytes; for
    [sendfile], [Sends n] stops after [n] bytes and [Unavailable] refuses the call. *)
Inductive sock_event := Sends (n : Z) | Fails (n : Z) (errno : option Z) | Unavailable.

(** An open image: a host file, or a reader of a compressed image *)
Inductive handle :=
  | H_raw (f : Z)
  | H_image (path : str) (c : Formats.codec) (f : hfile) (w : Base.wrapper).

(** ** Header text *)

Definition CRLF : bytes := [13; 10].
Definition field (name value : bytes) : bytes := name ++ lit ": " ++ value ++ CRLF.
Definition status_line (code : Z) (reason : bytes) : bytes :=
  lit "HTTP/1.1 " ++ decimal code ++ 32 :: reason ++ CRLF.
Definition header_block (code : Z) (reason : bytes) (fields : list (bytes * bytes)) : bytes :=
  status_line code reason ++ concat (map (fun nv => field (fst nv) (snd nv)) fields) ++ CRLF.

Definition CONTENT_TYPE : bytes := lit "application/octet-stream".

(** ** The [Range] header *)

(** [str.strip()] on Latin-1 *)
Definition is_space (c : Z) : bool := ChdCue.is_space c || (c =? 133) || (c =? 160).

Fixpoint span_digits (s : text) : text * text :=
  match s with
  | [] => ([], [])
  | c :: t => if is_digit c then let '(a, b) := span_digits t in (c :: a, b) else ([], s)
  end.

(** The match of the regular expression of [_parse_range], as its two groups of digits; the
    text is stripped, so that nothing can follow the last one. *)
Definition RANGE_RE (s : text) : option (text * text) :=
  if startswith s (lit "bytes=") then
    match span_digits (zdrop 6 s) with
    | (a, 45 :: s) => match span_digits s with (b, []) => Some (a, b) | _ => None end
    | _ => None
    end
  else None.

(** The limit of Python on the digits of [int(s)] *)
Definition INT_MAX_STR_DIGITS : Z := 4300.

Definition digits_value (s : text) : Z := foldl (fun n c => 10 * n + (c - 48)) 0 s.

Definition int_of (s : text) : result Z :=
  if INT_MAX_STR_DIGITS <? zlen s then Err ValueError else Ok (digits_value s).

(** [_parse_range] *)
Definition parse_range (header : option text) (total : Z) : result (option (Z * Z)) :=
  match header with
  | None | Some [] => Ok None
  | Some header =>
      match RANGE_RE (strip is_space header) with
      | None | Some ([], _) => Err RangeError
      | Some (a, b) =>
          first ← int_of a;
          last ← (match b with [] => Ok (total - 1) | _ => int_of b end);
          if (last <? first) || (total <=? first) || (total <=? last) then Err RangeError
          else Ok (Some (first, last))
      end
  end.

(** ** Requested names *)

(** [_normalised_path] *)
Definition normalised_path (path : text) : result (option text) :=
  let raw := fst (partition_on 35 (fst (partition_on 63 path))) in
  match unquote raw with
  | Err UnicodeError | Err ValueError => Ok None
  | Err e => Err e
  | Ok decoded => Ok (if existsb (Z.eqb 0) decoded then None else Some (clean_path decoded))
  end.

(** [_is_games_csv] *)
Definition is_games_csv (path : text) : bool := str_eqb (lower (basename path)) GAMES_CSV.

(** ** The connection *)

Section http.
Context {Os : Type} `{HostOs Os} `{Codecs} `{Unicode} (cfg : settings) (http_date : Z -> bytes).

(** [idx] and [summary] are shared by all connections; [peer] is the client's address. *)
Record web := Web {
  host : Os;
  idx : index;
  cached : option (text * handle);
  close_connection : bool;
  out : bytes;
  script : list sock_event;
  clock : Z;
  summary : option (SessionStats.stats Z);
  peer : Z
}.

#[export] Instance eta_web : Eta web := fun w =>
  Web (host w) (idx w) (cached w) (close_connection w) (out w) (script w) (clock w) (summary w) (peer w).

Definition on_host {A} (m : M Os A) : M web A := fun w =>
  let '(r, o) := m (host w) in (r, w <| host := o |>).
Definition ask {A} (f : Os -> result A) : M web A := fun w => (f (host w), w).

(** [_stat] *)
Definition stat (k : SessionStats.kind) (n : Z) : M web unit :=
  mmod (fun w => w <| summary ::= fmap (SessionStats.record (peer w) k n (clock w)) |>).

(** ** The socket *)

Definition emit (bs : bytes) : M web unit := mmod (fun w => w <| out ::= fun o => o ++ bs |>).
Definition next_event : M web (option sock_event) := fun w =>
  (Ok (head (script w)), w <| script ::= tail |>).

(** [self.wfile.write(data)] *)
Definition write (data : bytes) : M web unit :=
  ev ← next_event;
  match ev with
  | Some (Fails n e) => _ ← emit (ztake n data); raise (OSError e)
  | _ => emit data
  end.

(** [handle.seek(offset)] and [handle.read(n)] *)
Definition set_cached (path : text) (h : handle) : M web unit := mmod (fun w => w <| cached := Some (path, h) |>).

Definition handle_seek (path : text) (h : handle) (offset : Z) : M web handle :=
  match h with
  | H_raw f => _ ← on_host (f_seek f offset 0); mret h
  | H_image p c f w =>
      let '(r, w) := Base.seek offset 0 w in
      let h := H_image p c f w in
      _ ← set_cached path h; _ ← lift r; mret h
  end.

Definition handle_read (path : text) (h : handle) (n : Z) : M web (bytes * handle) :=
  match h with
  | H_raw f => data ← on_host (f_read f n); mret (data, h)
  | H_image p c f w =>
      let '(r, w) := Base.read (decompress_of p c f) n w in
      let h := H_image p c f w in
      _ ← set_cached path h; data ← lift r; mret (data, h)
  end.

(** [n] bytes of the file from [offset] go to the socket *)
Definition send_piece (path : text) (h : handle) (offset n : Z) : M web Z :=
  _ ← handle_seek path h offset;
  '(data, _) ← handle_read path h n;
  _ ← emit data;
  mret (zlen data).

(** [self.connection.sendfile(handle, offset, count)] for a host file: the bytes of the
    file from [offset], as many as the socket takes before it stops or fails *)
Definition sendfile (path : text) (h : handle) (offset count : Z) : M web Z :=
  if count <=? 0 then raise ValueError
  else
    ev ← next_event;
    match ev with
    | None => send_piece path h offset count
    | Some (Sends n) => send_piece path h offset (Z.max 0 (Z.min n count))
    | Some (Fails n e) => _ ← send_piece path h offset (Z.max 0 (Z.min n count)); raise (OSError e)
    | Some Unavailable => raise AttributeError
    end.

(** ** The cached handle *)

(** [_close_cached] *)
Definition close_cached : M web unit :=
  c ← mget cached;
  _ ← match c with
      | None => mret tt
      | Some (_, h) =>
          _ ← stat k_close 1;
          match h with
          | H_raw f => mcatch (on_host (f_close f)) (fun _ => Some (mret tt))
          | H_image _ _ _ _ => mret tt
          end
      end;
  mmod (fun w => w <| cached := None |>).

(** [open] or [_open_compressed] *)
Definition open_entry (e : game_entry) : M web handle :=
  p ← lift (fsencode (path e));
  if compressed e then
    r ← ask (fun o => Formats.open_compressed lz4_available libchdr_available (chd_open p) p (os_open_image p o) None);
    match r with
    | None => raise (OSError None)
    | Some (c, w) => f ← ask (os_open_image p); mret (H_image p c f w)
    end
  else f ← on_host (os_open p m_rb); mret (H_raw f).

(** [_handle_for] *)
Definition handle_for (e : game_entry) : M web handle :=
  c ← mget cached;
  match (match c with Some (p, h) => if str_eqb p (path e) then Some h else None | None => None end) with
  | Some h => mret h
  | None =>
      _ ← close_cached;
      h ← open_entry e;
      _ ← set_cached (path e) h;
      _ ← stat k_open 1;
      mret h
  end.

(** ** Responses *)

Definition set_close : M web unit := mmod (fun w => w <| close_connection := true |>).

(** [send_response_only], the [send_header]s and [end_headers] *)
Definition send_headers (r : request) (code : Z) (reason : bytes) (fields : list (bytes * bytes)) : M web unit :=
  if rq_http09 r then mret tt
  else
    now ← mget clock;
    write (header_block code reason ((lit "Date", http_date now) :: fields)).

(** [_send_short] *)
Definition send_short (r : request) (code : Z) (message : bytes) : M web unit :=
  let payload := message ++ [10] in
  _ ← send_headers r code message
        [(lit "Content-Type", lit "text/plain"); (lit "Content-Length", decimal (zlen payload))];
  mwhen (negb (bool_decide (rq_command r = HEAD))) (write payload).

(** [_refresh_if_stale] *)
Definition refresh_if_stale : M web unit :=
  now ← mget clock;
  i ← mget idx;
  if now - last_scan i <? RESCAN_INTERVAL then mret tt
  else
    _ ← mmod (fun w => w <| idx ::= fun i => i <| last_scan := now |> |>);
    i ← mget idx;
    i ← ask (refresh cfg false i);
    mmod (fun w => w <| idx := i |>).

(** [games_csv] *)
Definition games_csv : M web bytes := _ ← refresh_if_stale; mget (fun w => csv (idx w)).

(** [_serve_games_csv] *)
Definition serve_games_csv (r : request) (body : bool) : M web unit :=
  payload ← games_csv;
  _ ← send_headers r 200 (lit "OK")
        [(lit "Content-Type", lit "text/csv"); (lit "Content-Length", decimal (zlen payload))];
  mwhen body (write payload).

Definition READ_CHUNK : Z := 256 * 1024.

(** The read loop of [_send_bytes] *)
Fixpoint copy_loop (fuel : nat) (path : text) (h : handle) (remaining : Z) : M web unit :=
  if 0 <? remaining then
    match fuel with
    | O => raise Hang
    | S fuel =>
        '(chunk, h) ← handle_read path h (Z.min remaining READ_CHUNK);
        match chunk with
        | [] => _ ← set_close; raise (OSError None)
        | _ => _ ← write chunk; copy_loop fuel path h (remaining - zlen chunk)
        end
    end
  else mret tt.

Definition copy_bytes (path : text) (h : handle) (offset length : Z) : M web bool :=
  h ← handle_seek path h offset;
  _ ← copy_loop (Z.to_nat length) path h length;
  mret true.

(** What [_send_bytes] makes of [sendfile]: the bytes sent, or nothing when the connection
    is to be dropped *)
Definition try_sendfile (path : text) (h : handle) (offset length : Z) : M web (option Z) :=
  mcatch (n ← sendfile path h offset length; mret (Some n))
    (fun e => match e with
              | AttributeError | ValueError => Some (mret (Some 0))
              | OSError _ => Some (_ ← stat errors 1; _ ← set_close; mret None)
              | _ => None
              end).

(** [_send_bytes] *)
Definition send_bytes (e : game_entry) (offset length : Z) : M web bool :=
  h ← handle_for e;
  if compressed e then copy_bytes (path e) h offset length
  else
    sent ← try_sendfile (path e) h offset length;
    match sent with
    | None => mret false
    | Some sent =>
        if sent =? length then mret true
        else copy_bytes (path e) h (offset + sent) (length - sent)
    end.

(** [_count_read] *)
Definition count_read (length : Z) : M web unit := _ ← stat k_read 1; stat k_bytes length.

(** The body of a response, counted when it went out whole *)
Definition send_body (e : game_entry) (body : bool) (offset length : Z) : M web unit :=
  if body then done ← send_bytes e offset length; mwhen done (count_read length) else mret tt.

Definition content_range (first last total : Z) : bytes :=
  lit "bytes " ++ decimal first ++ lit "-" ++ decimal last ++ lit "/" ++ decimal total.

(** [_serve_game] *)
Definition serve_game (r : request) (e : game_entry) (body : bool) : M web unit :=
  let total := size e in
  span ← lift (parse_range (rq_range r) total);
  match span with
  | None =>
      _ ← send_headers r 200 (lit "OK")
            [(lit "Content-Type", CONTENT_TYPE); (lit "Content-Length", decimal total);
             (lit "Accept-Ranges", lit "bytes")];
      send_body e body 0 total
  | Some (first, last) =>
      let length := last - first + 1 in
      _ ← send_headers r 206 (lit "Partial Content")
            [(lit "Content-Type", CONTENT_TYPE); (lit "Content-Range", content_range first last total);
             (lit "Content-Length", decimal length); (lit "Accept-Ranges", lit "bytes")];
      send_body e body first length
  end.

(** ** Routing *)

Definition bad_request : bytes := lit "Bad Request".
Definition not_found : bytes := lit "Not Found".
Definition unsatisfiable : bytes := lit "Requested Range Not Satisfiable".
Definition server_error : bytes := lit "Internal Server Error".

(** The body of the [try] of [_dispatch] *)
Definition route (r : request) (body : bool) : M web unit :=
  path ← lift (normalised_path (rq_path r));
  match path with
  | None => _ ← stat errors 1; send_short r 400 bad_request
  | Some path =>
      if is_games_csv path then _ ← stat k_list 1; serve_games_csv r body
      else
        e ← mget (fun w => lookup cfg path (idx w));
        match e with
        | None => _ ← stat errors 1; send_short r 404 not_found
        | Some e => serve_game r e body
        end
  end.

(** [_dispatch] *)
Definition dispatch (r : request) (body : bool) : M web unit :=
  mcatch (route r body)
    (fun e => match e with
              | OSError n =>
                  Some (_ ← stat errors 1;
                        if is_reset n then set_close else send_short r 500 server_error)
              | RangeError => Some (_ ← stat errors 1; send_short r 416 unsatisfiable)
              | _ => None
              end).

(** [do_GET] and [do_HEAD], after the request line and the headers have been read *)
Definition handle_request (r : request) : M web unit :=
  _ ← mmod (fun w => w <| close_connection := rq_close r |>);
  dispatch r (bool_decide (rq_command r = GET)).

(** ** One connection *)

(** [setup] *)
Definition setup : M web unit :=
  _ ← mmod (fun w => w <| cached := None |>); stat connections 1.

(** [BaseHTTPRequestHandler.handle]: requests are taken until one closes the connection
    or the client has no more. *)
Fixpoint handle_requests (rs : list request) : M web unit :=
  match rs with
  | [] => mret tt
  | r :: rs =>
      _ ← handle_request r;
      close ← mget close_connection;
      if (close : bool) then mret tt else handle_requests rs
  end.

(** A whole connection: [finish] runs whatever was raised, and the server's
    [handle_error] lets no exception out. *)
Definition serve_connection (rs : list request) : M web unit :=
  _ ← setup;
  _ ← mcatch (handle_requests rs) (fun _ => Some (mret tt));
  close_cached.
End http.
Arguments web : clear implicits.
