(* ===== verification/CatalogueFacts.v ===== *)
(** * The catalogue lists what the server serves

    Theorems about [Catalogue]: the generated lists respect the limits of the consoles and
    read back as the rows they list; a listed path survives the trip through the URL and
    finds its entry, and nothing else is found; the scan is bounded. *)

From S2P Require Import Prelude PyStr PyText PathNames Compressed HostOs ChdCue Catalogue.

(** ** Cut texts *)

Lemma zlen_concat_take s k : zlen (concat (map utf8_units (take k s))) <= zlen (concat (map utf8_units s)).
Proof.
  rewrite <- (take_drop k s) at 2. rewrite map_app, concat_app, zlen_app.
  pose proof (zlen_nonneg (concat (map utf8_units (drop k s)))). lia.
Qed.

(** [_utf8_prefix] answers the longest prefix of a text whose encoding fits the limit: it
    fits, and with one more character it does not. *)
Theorem utf8_prefix_longest s limit :
  Forall is_scalar s -> 0 <= limit ->
  exists k data, utf8_prefix s limit = Ok (take k s) /\ utf8_encode (take k s) = Ok data /\ zlen data <= limit /\
    forall more, (k < length s)%nat -> utf8_encode (take (S k) s) = Ok more -> limit < zlen more.
Proof.
  intros Hs Hl. unfold utf8_prefix. rewrite utf8_encode_ok by done. cbn.
  destruct (Z.leb_spec (zlen (concat (map utf8_units s))) limit) as [Hle|Hgt].
  - exists (length s). eexists. rewrite take_ge by done. rewrite utf8_encode_ok by done.
    split_and!; [done|done|done|]. intros; lia.
  - destruct (utf8_ignore_cut s (Z.to_nat limit) Hs) as (k & He & Hk & Hm).
    exists k. eexists. unfold ztake. rewrite He. rewrite utf8_encode_ok by by apply Forall_take.
    split_and!; [done|done|unfold zlen; lia|]. intros more Hks.
    rewrite utf8_encode_ok by by apply Forall_take. intros [= <-]. specialize (Hm Hks). unfold zlen. lia.
Qed.

(** ** The path in the URL *)

Lemma hex_value_digit n : 0 <= n < 16 -> hex_value (hex_digit n) = Some n.
Proof.
  intros Hn. unfold hex_digit, hex_value. destruct (Z.ltb_spec n 10); zbool; cbn [andb]; f_equal; lia.
Qed.

Lemma unquote_percent b rest : 0 <= b < 256 -> unquote_to_bytes (percent_byte b ++ rest) = b :: unquote_to_bytes rest.
Proof.
  intros Hb. cbn [percent_byte app unquote_to_bytes]. rewrite Z.eqb_refl.
  rewrite !hex_value_digit by (Z.to_euclidean_division_equations; lia).
  f_equal. pose proof (Z.div_mod b 16 ltac:(done)). lia.
Qed.

(** The characters of an encoded path *)
Definition uri_char (c : Z) : bool := unreserved c || (c =? PERCENT).

Lemma unreserved_range c : unreserved c = true -> 45 <= c <= 126 /\ c <> PERCENT /\ c <> 63 /\ c <> 35.
Proof.
  unfold unreserved, is_letter, is_digit, PERCENT. cbn [existsb].
  rewrite !orb_true_iff, !andb_true_iff, !Z.leb_le, !Z.eqb_eq. lia.
Qed.

Lemma hex_digit_unreserved n : 0 <= n < 16 -> unreserved (hex_digit n) = true.
Proof.
  intros Hn. unfold unreserved, is_letter, is_digit, hex_digit. destruct (Z.ltb_spec n 10); zbool; done.
Qed.

Lemma utf8_units_bytes c : is_scalar c -> is_bytes (utf8_units c).
Proof.
  intros [Hc _]%is_scalar_spec. unfold utf8_units, is_bytes, is_byte.
  pose proof (Z.mod_pos_bound c 64 eq_refl). pose proof (Z.mod_pos_bound (c / 64) 64 eq_refl).
  pose proof (Z.mod_pos_bound (c / 4096) 64 eq_refl).
  destruct (Z.ltb_spec c 128); [|destruct (Z.ltb_spec c 2048); [|destruct (Z.ltb_spec c 65536)]];
    repeat (apply Forall_cons; split; [Z.to_euclidean_division_equations; lia|]); constructor.
Qed.

(** One character of a path in its URL: itself, or its bytes escaped *)
Definition uri_units (c : Z) : text :=
  concat (map (fun b => if unreserved c then [c] else percent_byte b) (utf8_units c)).

Lemma uri_units_unreserved c : unreserved c = true -> uri_units c = [c] /\ utf8_units c = [c].
Proof.
  intros Hc. pose proof (unreserved_range c Hc). unfold uri_units.
  rewrite utf8_units_ascii by lia. cbn. by rewrite Hc.
Qed.

Lemma uri_units_unquoted c rest :
  is_scalar c -> unquote_to_bytes (uri_units c ++ rest) = utf8_units c ++ unquote_to_bytes rest.
Proof.
  intros Hc. destruct (unreserved c) eqn:Hu.
  - destruct (uri_units_unreserved c Hu) as [-> ->]. cbn [app unquote_to_bytes].
    pose proof (unreserved_range c Hu). by rewrite (proj2 (Z.eqb_neq c PERCENT)) by tauto.
  - unfold uri_units. rewrite Hu. pose proof (utf8_units_bytes c Hc) as Hb.
    induction Hb as [|b bs Hb _ IH]; [done|]. cbn [map concat]. rewrite <- app_assoc, unquote_percent by done.
    cbn [app]. by rewrite IH.
Qed.

Lemma uri_units_chars c : is_scalar c -> forallb uri_char (uri_units c) = true.
Proof.
  intros Hc. destruct (unreserved c) eqn:Hu.
  - destruct (uri_units_unreserved c Hu) as [-> _]. cbn. unfold uri_char. by rewrite Hu.
  - unfold uri_units. rewrite Hu. pose proof (utf8_units_bytes c Hc) as Hb.
    induction Hb as [|b bs Hb _ IH]; [done|]. cbn [map concat percent_byte app forallb]. rewrite IH.
    unfold is_byte in Hb. unfold uri_char. rewrite Z.eqb_refl, orb_true_r.
    rewrite !hex_digit_unreserved by (Z.to_euclidean_division_equations; lia). done.
Qed.

Lemma riptopl_encoded_path_ok p : Forall is_scalar p -> riptopl_encoded_path p = Ok (concat (map uri_units p)).
Proof. induction 1 as [|c p Hc _ IH]; [done|]. cbn. by rewrite Hc, IH. Qed.

Lemma forallb_concat {A} (f : A -> bool) ls : Forall (fun l => forallb f l = true) ls -> forallb f (concat ls) = true.
Proof. induction 1 as [|l ls Hl _ IH]; [done|]. cbn. by rewrite forallb_app, Hl, IH. Qed.

Lemma uri_path_chars p : Forall is_scalar p -> forallb uri_char (concat (map uri_units p)) = true.
Proof.
  intros Hp. apply forallb_concat, Forall_map. eapply Forall_impl; [exact Hp|]. apply uri_units_chars.
Qed.

Lemma uri_path_unquoted p : Forall is_scalar p ->
  unquote_to_bytes (concat (map uri_units p)) = concat (map utf8_units p).
Proof. induction 1 as [|c p Hc _ IH]; [done|]. cbn [map concat]. by rewrite uri_units_unquoted, IH. Qed.

Lemma uri_path_plain p : Forall is_scalar p -> existsb (Z.eqb PERCENT) (concat (map uri_units p)) = false ->
  concat (map uri_units p) = p.
Proof.
  induction 1 as [|c p Hc _ IH]; [done|]. cbn [map concat]. rewrite existsb_app, orb_false_iff. intros [H1 H2].
  rewrite (IH H2). destruct (unreserved c) eqn:Hu.
  - by destruct (uri_units_unreserved c Hu) as [-> _].
  - exfalso. unfold uri_units in H1. rewrite Hu in H1. destruct (utf8_units c) as [|b bs] eqn:E.
    + unfold utf8_units in E. by repeat (case_match; try done).
    + cbn [map concat percent_byte app existsb] in H1. by rewrite Z.eqb_refl in H1.
Qed.

Lemma uri_char_cases c : uri_char c = true -> (unreserved c = true \/ c = PERCENT) /\ 37 <= c <= 126.
Proof.
  unfold uri_char, PERCENT. intros [Hc|Hc%Z.eqb_eq]%orb_true_iff.
  - pose proof (unreserved_range c Hc). split; [by left|lia].
  - split; [by right|lia].
Qed.

Lemma uri_char_scalar c : uri_char c = true -> is_scalar c.
Proof. intros [_ Hc]%uri_char_cases. apply is_scalar_spec. unfold is_surrogate. split; [lia|]. zbool; done. Qed.

Lemma ascii_run_all s : forallb uri_char s = true -> ascii_run s = (s, []).
Proof.
  induction s as [|c s IH]; [done|]. cbn. intros [[_ Hc]%uri_char_cases Hs]%andb_true_iff.
  rewrite (IH Hs). by rewrite (proj2 (Z.ltb_lt c 128)) by lia.
Qed.

Lemma unquote_plain_app pre s : forallb uri_char pre = true -> existsb (Z.eqb PERCENT) pre = false ->
  unquote_to_bytes (pre ++ s) = concat (map utf8_units pre) ++ unquote_to_bytes s.
Proof.
  induction pre as [|c pre IH]; [done|]. cbn [forallb existsb app unquote_to_bytes map concat].
  intros [[Hu _]%uri_char_cases Hpre]%andb_true_iff [Hc Hnp]%orb_false_iff. apply Z.eqb_neq in Hc.
  destruct Hu as [Hu| ->]; [|done]. destruct (uri_units_unreserved c Hu) as [_ ->].
  rewrite (proj2 (Z.eqb_neq c PERCENT)) by congruence. cbn [app]. by rewrite IH.
Qed.

(** Decoding a text of such characters in one piece *)
Lemma unquote_run u s : u <> [] -> forallb uri_char u = true -> Forall is_scalar s ->
  unquote_to_bytes u = concat (map utf8_units s) -> unquote_parts (length u) u = Ok s.
Proof.
  intros Hne Hu Hs Hb. destruct u as [|c u]; [done|]. cbn [length unquote_parts].
  pose proof Hu as [[_ Hc]%uri_char_cases _]%andb_true_iff.
  rewrite (proj2 (Z.ltb_lt c 128)) by lia. rewrite ascii_run_all by done. rewrite Hb.
  rewrite (utf8_decode_encode s); [|done|by rewrite utf8_encode_ok].
  destruct (length u); cbn; by rewrite app_nil_r.
Qed.

(** Decoding what the client encodes, behind a prefix that needs no encoding *)
Lemma unquote_uri pre p : forallb uri_char pre = true -> existsb (Z.eqb PERCENT) pre = false ->
  Forall is_scalar p -> unquote (pre ++ concat (map uri_units p)) = Ok (pre ++ p).
Proof.
  intros Hpre Hnp Hp. unfold unquote. rewrite existsb_app, Hnp. cbn [orb].
  destruct (existsb (Z.eqb PERCENT) (concat (map uri_units p))) eqn:E; [|by rewrite uri_path_plain].
  apply unquote_run.
  - intros [_ Hn]%app_eq_nil. by rewrite Hn in E.
  - by rewrite forallb_app, Hpre, uri_path_chars.
  - apply Forall_app. split; [|done]. apply Forall_forall. intros c Hc. apply uri_char_scalar.
    apply (proj1 (forallb_forall _ _) Hpre). by apply list_elem_of_In.
  - rewrite unquote_plain_app, uri_path_unquoted by done. by rewrite map_app, concat_app.
Qed.

(** ** The rows the console accepts *)

(** What [field_problem] checks of a field with its limit *)
Record field_valid (value : text) (limit : Z) : Prop := {
  fv_strip : strip is_blank value = value;
  fv_nonempty : value <> [];
  fv_control : has_control value = false;
  fv_size : exists data, utf8_encode value = Ok data /\ zlen data <= limit
}.

Record row_valid (id title rel_path : text) : Prop := {
  rv_startup : field_valid id RIPTOPL_STARTUP_MAX;
  rv_title : field_valid title RIPTOPL_TITLE_MAX;
  rv_path : field_valid rel_path RIPTOPL_PATH_MAX;
  rv_segments : Forall good_name (split_on SLASH rel_path);
  rv_extension : existsb (endswith (lower rel_path)) [lit ".iso"; lit ".zso"] = true;
  rv_uri : exists uri, riptopl_encoded_path rel_path = Ok uri /\ zlen uri + RIPTOPL_BASE_PATH_MAX < RIPTOPL_URI_MAX
}.

Lemma first_some_none {A} (l : list (option A)) : first_some l = None -> Forall (fun x => x = None) l.
Proof. induction l as [|[a|] l IH]; cbn; [constructor|done|]. intros H. constructor; auto. Qed.

Lemma field_problem_none l value limit : field_problem (l, value, limit) = None -> field_valid value limit.
Proof.
  unfold field_problem. destruct (str_eqb_spec value (strip is_blank value)) as [E|]; [cbn [negb]|done].
  destruct (str_eqb_spec value []) as [|Hne]; [done|]. destruct (has_control value) eqn:Hc; [done|].
  destruct (utf8_encode value) as [data|] eqn:Hd; [|done].
  destruct (Z.ltb_spec limit (zlen data)); [done|]. intros _. split; try done. by exists data.
Qed.

Lemma segments_good p : Forall (fun x => x = None) (map segment_problem (split_on SLASH p)) ->
  Forall good_name (split_on SLASH p).
Proof.
  intros Hs. pose proof (split_on_no_sep SLASH p) as Hn. apply Forall_map in Hs.
  apply Forall_forall. intros w Hw.
  pose proof (proj1 (Forall_forall _ _) Hs w Hw) as H1. pose proof (proj1 (Forall_forall _ _) Hn w Hw) as H2.
  cbn in H1. unfold segment_problem in H1.
  destruct (str_eqb_spec w []); [done|]. destruct (str_eqb_spec w [DOT]); [done|].
  destruct (str_eqb_spec w [DOT; DOT]); [done|]. by split_and!.
Qed.

Lemma row_problem_none id title p : riptopl_row_problem id title p = Ok None -> row_valid id title p.
Proof.
  unfold riptopl_row_problem. destruct (first_some (map field_problem _)) eqn:Ef; [done|].
  apply first_some_none in Ef. cbn [map] in Ef.
  apply Forall_cons in Ef as [H1 Ef]. apply Forall_cons in Ef as [H2 Ef]. apply Forall_cons in Ef as [H3 _].
  apply field_problem_none in H1, H2, H3.
  destruct (contains _ p); [done|]. destruct (startswith p [SLASH]); [done|]. destruct (existsb _ p); [done|].
  destruct (first_some (map segment_problem _)) eqn:Es; [done|]. apply first_some_none, segments_good in Es.
  destruct (existsb (endswith (lower p)) _) eqn:Ex; [|done]. destruct (zlen p <=? 4); [done|]. cbn [negb orb].
  intros H. bind_inv H. destruct (Z.leb_spec RIPTOPL_URI_MAX (zlen a + RIPTOPL_BASE_PATH_MAX)); [done|].
  split; try done. by exists a.
Qed.

(** ** A listed path is what the server sees requested *)

Lemma normpath_rel ns : ns <> [] -> Forall good_name ns -> normpath (join_with SLASH ns) = join_with SLASH ns.
Proof.
  intros Hne Hg. unfold normpath. destruct (join_head ns Hne Hg) as (c & t & E & Hc).
  rewrite (split_names ns Hg Hne), E. rewrite (isabs_head c t Hc). unfold startswith.
  rewrite (proj2 (Z.eqb_neq SLASH c)) by congruence. cbn [andb app].
  unfold norm_comps. rewrite norm_comps_good by done. rewrite app_nil_r, rev_involutive. by rewrite E.
Qed.

Lemma strip_slash_join ns : ns <> [] -> Forall good_name ns ->
  strip_leading (Z.eqb SLASH) (join_with SLASH ns) = join_with SLASH ns.
Proof.
  intros Hne Hg. destruct (join_head ns Hne Hg) as (c & t & -> & Hc). cbn [strip_leading].
  by rewrite (proj2 (Z.eqb_neq SLASH c)) by congruence.
Qed.

(** The names of a path, with or without a slash in front *)
Lemma clean_path_names ns : ns <> [] -> Forall good_name ns ->
  clean_path (join_with SLASH ns) = join_with SLASH ns /\ clean_path (SLASH :: join_with SLASH ns) = join_with SLASH ns.
Proof.
  intros Hne Hg. unfold clean_path. rewrite normpath_rel by done.
  change (SLASH :: join_with SLASH ns) with (abs_path ns). rewrite normpath_abs by done.
  unfold abs_path. cbn [strip_leading]. rewrite Z.eqb_refl. by rewrite strip_slash_join.
Qed.

Lemma clean_path_good p : Forall good_name (split_on SLASH p) -> clean_path p = p /\ clean_path (SLASH :: p) = p.
Proof.
  intros Hg. pose proof (clean_path_names _ (split_on_ne SLASH p) Hg) as H. by rewrite join_split in H.
Qed.

(** ** The path-aware list *)

Definition entry_valid (e : game_entry) : Prop := row_valid (startup e) (title e) (rel_path e).

(** The bytes of one row *)
Definition row_bytes (e : game_entry) (line : bytes) : Prop := utf8_encode (riptopl_csv_line e ++ [NEWLINE]) = Ok line.

(** What holds of the list at every turn of the loop *)
Record rows_ok (s : rows_state) : Prop := {
  ro_body : exists lines, Forall2 row_bytes (retained s) lines /\ body s = concat lines;
  ro_rows : rows s = zlen (retained s);
  ro_max_rows : rows s <= RIPTOPL_CATALOG_ROWS_MAX;
  ro_max_bytes : zlen (body s) <= RIPTOPL_CATALOG_BYTES_MAX;
  ro_startups : startups s = list_to_set (map startup (retained s));
  ro_unique : NoDup (map startup (retained s));
  ro_valid : Forall entry_valid (retained s)
}.

Lemma no_rows_ok : rows_ok no_rows.
Proof.
  split; try done; cbn; [exists []; by split|apply NoDup_nil_2].
Qed.

Lemma add_row_ok e s s' : rows_ok s -> add_row e s = Ok s' -> rows_ok s'.
Proof.
  intros Hok H. pose proof Hok as [(lines & Hl & Hb) Hr Hm Hz Hs Hu Hv]. unfold add_row in H. bind_inv H.
  destruct a as [p|]; [by injection H as <-|]. case_bool_decide as Hin; [by injection H as <-|]. bind_inv H.
  destruct (RIPTOPL_CATALOG_ROWS_MAX <=? rows s) eqn:E1; cbn [orb] in H; [by injection H as <-; destruct Hok; split|].
  destruct (RIPTOPL_CATALOG_BYTES_MAX <? zlen (body s) + zlen a) eqn:E2; [by injection H as <-; destruct Hok; split|].
  injection H as <-. apply Z.leb_gt in E1. apply Z.ltb_ge in E2. split; cbn.
  - exists (lines ++ [a]). split; [apply Forall2_app; [done|by constructor]|].
    rewrite concat_app. cbn. by rewrite app_nil_r, Hb.
  - rewrite zlen_app, zlen_cons, zlen_nil. lia.
  - lia.
  - rewrite zlen_app. lia.
  - rewrite map_app, list_to_set_app_L, Hs. cbn. rewrite union_empty_r_L. apply union_comm_L.
  - rewrite map_app. apply NoDup_app. split_and!; [done| |apply NoDup_singleton].
    intros x Hx ->%list_elem_of_singleton. apply Hin. rewrite Hs. by apply elem_of_list_to_set.
  - apply Forall_app. split; [done|]. constructor; [|constructor]. by apply row_problem_none.
Qed.

Lemma add_rows_ok es s s' : rows_ok s -> add_rows es s = Ok s' -> rows_ok s'.
Proof.
  revert s. induction es as [|e es IH]; intros s Hs H; cbn in H; [by injection H as <-|].
  bind_inv H. eapply IH; [|exact H]. by eapply add_row_ok.
Qed.

(** Every entry is retained, refused with a reason, or counted as dropped. *)
Lemma add_row_retained e s s' : add_row e s = Ok s' -> retained s' = retained s ++ [e] \/ retained s' = retained s.
Proof.
  intros H. unfold add_row in H. bind_inv H. destruct a as [p|]; [injection H as <-; by right|].
  case_bool_decide; [injection H as <-; by right|]. bind_inv H.
  destruct (_ || _); injection H as <-; [by right|by left].
Qed.

Lemma add_rows_retained es s s' : add_rows es s = Ok s' ->
  exists kept, retained s' = retained s ++ kept /\ sublist kept es.
Proof.
  revert s. induction es as [|e es IH]; intros s H; cbn in H.
  - injection H as <-. exists []. by rewrite app_nil_r.
  - bind_inv H. destruct (IH _ H) as (kept & Hk & Hsub).
    destruct (add_row_retained _ _ _ E) as [E'|E']; rewrite E' in Hk.
    + exists (e :: kept). rewrite Hk, <- app_assoc. split; [done|by constructor].
    + exists kept. split; [done|by constructor].
Qed.

(** *** Reading the list back *)

(** A reader of quoted lists written from RFC 4180, for rows that end with a newline *)
Fixpoint read_quoted (s : text) : option (text * text) :=
  match s with
  | [] => None
  | c :: s =>
      if c =? QUOTE then
        match s with
        | d :: t => if d =? QUOTE then '(f, rest) ← read_quoted t; Some (QUOTE :: f, rest) else Some ([], s)
        | [] => Some ([], [])
        end
      else '(f, rest) ← read_quoted s; Some (c :: f, rest)
  end.

Fixpoint read_plain (s : text) : text * text :=
  match s with
  | [] => ([], [])
  | c :: t => if (c =? COMMA) || (c =? NEWLINE) then ([], s) else let '(f, rest) := read_plain t in (c :: f, rest)
  end.

Definition read_field (s : text) : option (text * text) :=
  match s with
  | c :: t => if c =? QUOTE then read_quoted t else Some (read_plain s)
  | [] => Some ([], [])
  end.

Fixpoint read_rows (fuel : nat) (row : list text) (s : text) : option (list (list text)) :=
  match s, fuel with
  | [], _ => match row with [] => Some [] | _ => None end
  | _, O => None
  | _, S fuel =>
      '(f, rest) ← read_field s;
      match rest with
      | c :: rest =>
          if c =? COMMA then read_rows fuel (row ++ [f]) rest
          else if c =? NEWLINE then rows ← read_rows fuel [] rest; Some ((row ++ [f]) :: rows)
          else None
      | [] => None
      end
  end.

(** The four fields RiptOPL reads *)
Definition row_fields (e : game_entry) : list text := [startup e; title e; media_text (ge_media e); rel_path e].

Lemma read_quoted_app s c rest : c <> QUOTE ->
  read_quoted (concat (map (fun c => if c =? QUOTE then [QUOTE; QUOTE] else [c]) s) ++ QUOTE :: c :: rest)
  = Some (s, c :: rest).
Proof.
  intros Hc. induction s as [|d s IH].
  - cbn. by rewrite (proj2 (Z.eqb_neq c QUOTE)).
  - cbn [map concat]. rewrite <- app_assoc. destruct (Z.eqb_spec d QUOTE) as [->|Hd]; cbn [app read_quoted].
    + rewrite !Z.eqb_refl. by rewrite IH.
    + rewrite (proj2 (Z.eqb_neq d QUOTE)) by done. by rewrite IH.
Qed.

Lemma read_field_quoted s c rest : c <> QUOTE -> read_field (csv_quote s ++ c :: rest) = Some (s, c :: rest).
Proof.
  intros Hc. unfold csv_quote. cbn [app read_field]. rewrite Z.eqb_refl, <- app_assoc. cbn [app].
  by apply read_quoted_app.
Qed.

Lemma read_field_media m rest : read_field (media_text m ++ COMMA :: rest) = Some (media_text m, COMMA :: rest).
Proof. by destruct m. Qed.

Lemma csv_quote_cons s rest : exists c t, csv_quote s ++ rest = c :: t.
Proof. unfold csv_quote. cbn [app]. by eexists _, _. Qed.

Lemma media_cons m rest : exists c t, media_text m ++ rest = c :: t.
Proof. destruct m; cbn; by eexists _, _. Qed.

Lemma read_rows_step fuel row s f c rest :
  read_field s = Some (f, c :: rest) ->
  read_rows (S fuel) row s =
    if c =? COMMA then read_rows fuel (row ++ [f]) rest
    else if c =? NEWLINE then rows ← read_rows fuel [] rest; Some ((row ++ [f]) :: rows) else None.
Proof. intros H. destruct s as [|d s]; [by cbn in H|]. cbn [read_rows]. by rewrite H. Qed.

(** One row of the list is read as its four fields. *)
Lemma read_row fuel e rest :
  read_rows (4 + fuel) [] (riptopl_csv_line e ++ NEWLINE :: rest)
  = rows ← read_rows fuel [] rest; Some (row_fields e :: rows).
Proof.
  unfold riptopl_csv_line. rewrite <- !app_assoc. cbn [app]. rewrite <- !app_assoc. cbn [app]. rewrite <- !app_assoc. cbn [app].
  cbn [plus]. rewrite (read_rows_step _ _ _ (startup e) COMMA _) by by rewrite read_field_quoted.
  rewrite Z.eqb_refl. rewrite (read_rows_step _ _ _ (title e) COMMA _) by by rewrite read_field_quoted.
  rewrite Z.eqb_refl. rewrite (read_rows_step _ _ _ (media_text (ge_media e)) COMMA _) by by rewrite read_field_media.
  rewrite Z.eqb_refl. by rewrite (read_rows_step _ _ _ (rel_path e) NEWLINE _) by by rewrite read_field_quoted.
Qed.

Lemma read_rows_lines es fuel : (4 * length es <= fuel)%nat ->
  read_rows fuel [] (concat (map (fun e => riptopl_csv_line e ++ [NEWLINE]) es)) = Some (map row_fields es).
Proof.
  revert fuel. induction es as [|e es IH]; intros fuel Hf; [by destruct fuel|]. cbn [length] in Hf.
  destruct (Nat.le_exists_sub 4 fuel) as (k & -> & _); [lia|]. rewrite Nat.add_comm.
  cbn [map concat]. rewrite <- app_assoc. cbn [app]. rewrite read_row, IH by lia. done.
Qed.

Lemma length_riptopl_line e : (4 <= length (riptopl_csv_line e ++ [NEWLINE]))%nat.
Proof. unfold riptopl_csv_line, csv_quote. repeat first [rewrite length_app|progress cbn [length app]]. lia. Qed.

Definition rows_text (es : list game_entry) : text := concat (map (fun e => riptopl_csv_line e ++ [NEWLINE]) es).

Lemma rows_text_length es : (4 * length es <= length (rows_text es))%nat.
Proof.
  induction es as [|e es IH]; [done|]. unfold rows_text in *. cbn [map concat length]. rewrite length_app.
  pose proof (length_riptopl_line e). lia.
Qed.

Lemma rows_decode es lines : Forall2 row_bytes es lines ->
  Forall is_scalar (rows_text es) /\ concat lines = concat (map utf8_units (rows_text es)).
Proof.
  induction 1 as [|e line es lines He _ [Hs Hc]]; [done|]. unfold rows_text in *. cbn [map concat].
  unfold row_bytes in He. pose proof (utf8_encode_scalar _ _ He) as Hse.
  rewrite utf8_encode_ok in He by done. apply Ok_inj in He as <-. split.
  - apply Forall_app. by split.
  - rewrite Hc. symmetry. rewrite map_app. apply concat_app.
Qed.

Section unicode.
Context `{Unicode}.

(** C33. The list of the path-aware profile stays within the limits of the console, lists each
    STARTUP once and only rows the console accepts, each from an entry, and a reader of
    quoted fields finds exactly these rows in it. *)
Theorem riptopl_list_reads_back es st :
  build_riptopl_csv es = Ok st ->
  zlen (body st) <= RIPTOPL_CATALOG_BYTES_MAX /\ zlen (retained st) <= RIPTOPL_CATALOG_ROWS_MAX /\
  NoDup (map startup (retained st)) /\ Forall entry_valid (retained st) /\ (forall e, e ∈ retained st -> e ∈ es) /\
  exists txt, utf8_decode (body st) = Ok txt /\ read_rows (length txt) [] txt = Some (map row_fields (retained st)).
Proof.
  intros Hb. unfold build_riptopl_csv in Hb. destruct (add_rows_retained _ _ _ Hb) as (kept & Hk & Hsub).
  apply (add_rows_ok _ _ _ no_rows_ok) in Hb as [(lines & Hl & Hbody) Hr Hm Hz _ Hu Hv].
  assert (Hin : forall e, e ∈ retained st -> e ∈ es).
  { intros e He. rewrite Hk in He. cbn in He. rewrite <- (sorted_perm row_leb es).
    by eapply elem_of_sublist. }
  split_and!; [done|lia|done|done|done|].
  destruct (rows_decode _ _ Hl) as [Hs Hc]. exists (rows_text (retained st)). split.
  - apply utf8_decode_encode; [done|]. by rewrite utf8_encode_ok, Hbody, Hc.
  - apply read_rows_lines, rows_text_length.
Qed.

(** ** The flat list *)

(** The bytes of a character under [errors='replace'] *)
Definition replace_units (c : Z) : bytes := if scalar c then utf8_units c else [63].
Definition replace_bytes (s : text) : bytes := concat (map replace_units s).

Lemma utf8_encode_replace_ok s : utf8_encode_replace s = Ok (replace_bytes s).
Proof.
  unfold utf8_encode_replace, replace_bytes. induction s as [|c s IH]; [done|]. cbn. rewrite IH.
  unfold replace_units. by destruct (scalar c).
Qed.

Lemma replace_bytes_app s t : replace_bytes (s ++ t) = replace_bytes s ++ replace_bytes t.
Proof. unfold replace_bytes. by rewrite map_app, concat_app. Qed.

Lemma replace_bytes_ascii c s : 0 <= c < 128 -> replace_bytes (c :: s) = c :: replace_bytes s.
Proof.
  intros Hc. unfold replace_bytes. cbn [map concat]. unfold replace_units.
  assert (is_scalar c) as -> by (apply is_scalar_spec; unfold is_surrogate; split; [lia|]; zbool; done).
  by rewrite utf8_units_ascii by lia.
Qed.

(** An ASCII byte other than ['?'] comes from that character only. *)
Lemma replace_units_ascii b c : 0 <= b < 63 -> b ∈ replace_units c -> c = b.
Proof.
  intros Hb. unfold replace_units. destruct (scalar c) eqn:Hs; [|by intros ->%list_elem_of_singleton; lia].
  apply is_scalar_spec in Hs as [Hc _]. unfold utf8_units.
  destruct (Z.ltb_spec c 128); [by intros ->%list_elem_of_singleton|].
  destruct (Z.ltb_spec c 2048); [|destruct (Z.ltb_spec c 65536)]; rewrite !elem_of_cons, elem_of_nil; intros Hin;
    pose proof (Z.mod_pos_bound c 64 eq_refl); pose proof (Z.mod_pos_bound (c / 64) 64 eq_refl);
    pose proof (Z.mod_pos_bound (c / 4096) 64 eq_refl); pose proof (Z.div_pos c 64); pose proof (Z.div_pos c 4096);
    pose proof (Z.div_pos c 262144); lia.
Qed.

Lemma replace_bytes_without b s : 0 <= b < 63 -> b ∉ s -> b ∉ replace_bytes s.
Proof.
  intros Hb Hs (bs & Hbs & Hin)%list_elem_of_In%in_concat.
  apply list_elem_of_In, list_elem_of_fmap in Hbs as (c & -> & Hc). apply list_elem_of_In in Hin.
  apply replace_units_ascii in Hin as ->; done.
Qed.

(** Lines that contain no newline are what splitting at the newlines finds. *)
Lemma split_lines (ls : list bytes) : Forall (fun l => NEWLINE ∉ l) ls ->
  split_on NEWLINE (concat (map (fun l => l ++ [NEWLINE]) ls)) = ls ++ [[]].
Proof.
  induction 1 as [|l ls Hl _ IH]; [done|]. cbn [map concat]. rewrite <- app_assoc. cbn [app].
  by rewrite split_on_app, IH.
Qed.

(** Neither name of the row can be mistaken for two fields or two rows. *)
Record csv_safe (e : game_entry) : Prop := {
  cs_advertised : Forall (fun c => c ∉ advertised e) [COMMA; NEWLINE];
  cs_startup : Forall (fun c => c ∉ startup e) [COMMA; NEWLINE]
}.

(** The three fields, as bytes *)
Definition flat_fields (e : game_entry) : list bytes :=
  [replace_bytes (startup e); replace_bytes (advertised e); media_text (ge_media e)].

Lemma media_bytes m : replace_bytes (media_text m) = media_text m.
Proof. by destruct m. Qed.

Lemma media_no_newline m : NEWLINE ∉ media_text m.
Proof. by destruct m; apply (bool_decide_unpack _). Qed.

Lemma csv_line_fields e : csv_safe e ->
  split_on COMMA (replace_bytes (csv_line e)) = flat_fields e /\ NEWLINE ∉ replace_bytes (csv_line e).
Proof.
  intros [Ha Hs]. apply Forall_cons in Ha as [Hac Ha]. apply Forall_cons in Ha as [Han _].
  apply Forall_cons in Hs as [Hsc Hs]. apply Forall_cons in Hs as [Hsn _].
  unfold csv_line. rewrite replace_bytes_app, replace_bytes_ascii, replace_bytes_app, replace_bytes_ascii, media_bytes by done.
  split.
  - rewrite split_on_app by (apply replace_bytes_without; [by split|done]).
    rewrite split_on_app by (apply replace_bytes_without; [by split|done]). unfold flat_fields. by destruct (ge_media e).
  - rewrite not_elem_of_app, not_elem_of_cons, not_elem_of_app, not_elem_of_cons.
    split_and!; try done; try (apply replace_bytes_without; [by split|done]).
    apply media_no_newline.
Qed.

Definition line_bytes (e : game_entry) : bytes := replace_bytes (csv_line e).

Lemma add_lines_ok es body n body' n' :
  zlen body <= GAMES_CSV_MAX -> add_lines es body n = Ok (body', n') ->
  zlen body' <= GAMES_CSV_MAX /\ exists kept, sublist kept es /\ zlen kept + n' = zlen es + n /\
    body' = body ++ concat (map (fun l => l ++ [NEWLINE]) (map line_bytes kept)).
Proof.
  revert body n. induction es as [|e es IH]; intros body n Hb Ha; cbn [add_lines] in Ha.
  - injection Ha as <- <-. split; [done|]. exists []. cbn. by rewrite app_nil_r.
  - rewrite utf8_encode_replace_ok in Ha. cbn [mbind result_bind] in Ha. rewrite zlen_cons.
    destruct (Z.ltb_spec GAMES_CSV_MAX (zlen body + zlen (replace_bytes (csv_line e ++ [NEWLINE])))).
    + destruct (IH _ _ Hb Ha) as (Hz & kept & Hs & Hn & Hc). split; [done|]. exists kept.
      split_and!; [by constructor|lia|done].
    + apply IH in Ha as (Hz & kept & Hs & Hn & Hc); [|rewrite zlen_app; lia]. split; [done|].
      exists (e :: kept). rewrite zlen_cons. split_and!; [by constructor|lia|]. rewrite Hc.
      cbn [map concat]. unfold line_bytes at 2. rewrite replace_bytes_app, <- app_assoc. cbn. by rewrite <- app_assoc.
Qed.

Section unicode.
Context `{Unicode}.

(** The flat list fits the console's buffer; its lines are, split at the commas, the three
    fields of the entries that were kept, and every other entry is counted as dropped. *)
Lemma build_csv_reads es body n : Forall csv_safe es -> build_csv es = Ok (body, n) ->
  zlen body <= GAMES_CSV_MAX /\ exists kept, (forall e, e ∈ kept -> e ∈ es) /\ zlen kept + n = zlen es /\
    split_on NEWLINE body = map line_bytes kept ++ [[]] /\
    Forall (fun e => split_on COMMA (line_bytes e) = flat_fields e) kept.
Proof.
  intros Hs Hb. unfold build_csv in Hb. set (key := by_text _) in Hb.
  apply add_lines_ok in Hb as (Hz & kept & Hsub & Hn & Hc); [|done].
  assert (Hin : forall e, e ∈ kept -> e ∈ es).
  { intros e He. rewrite <- (sorted_perm key es). by eapply elem_of_sublist. }
  assert (Hk : Forall csv_safe kept).
  { apply Forall_forall. intros e He. exact (proj1 (Forall_forall _ _) Hs e (Hin e He)). }
  split; [done|]. exists kept. split_and!; [done| | |].
  - assert (zlen (sorted key es) = zlen es) by (unfold zlen; by rewrite (sorted_perm key es)). lia.
  - rewrite Hc. cbn [app]. apply split_lines, Forall_map. eapply Forall_impl; [exact Hk|].
    intros e He. by apply csv_line_fields.
  - eapply Forall_impl; [exact Hk|]. intros e He. by apply csv_line_fields.
Qed.
End unicode.

(** ** The path-aware index *)

(** The three tables agree with the listed entries: [exact_paths] has each under its path;
    a folded path leads to the only entry that folds to it; the others are ambiguous. *)
Record path_index (es : list game_entry) (exact folded : gmap text game_entry) (ambiguous : gset text) : Prop := {
  pi_exact : forall p e, exact !! p = Some e <-> e ∈ es /\ rel_path e = p;
  pi_folded : forall k e, folded !! k = Some e -> e ∈ es /\ py_lower (rel_path e) = k;
  pi_missing : forall k e, folded !! k = None -> k ∉ ambiguous -> e ∈ es -> py_lower (rel_path e) <> k;
  pi_alone : forall k e e', k ∉ ambiguous -> e ∈ es -> e' ∈ es ->
    py_lower (rel_path e) = k -> py_lower (rel_path e') = k -> e = e'
}.

Lemma add_exact_ok es e exact folded ambiguous :
  path_index es exact folded ambiguous -> (forall k, k ∈ ambiguous -> is_Some (folded !! k)) ->
  (forall e', e' ∈ es -> rel_path e' <> rel_path e) ->
  let '(x, f, a) := add_exact (exact, folded, ambiguous) e in
  path_index (es ++ [e]) x f a /\ (forall k, k ∈ a -> is_Some (f !! k)).
Proof.
  intros [Hx Hf Hm Ha] Hsub Hnew. unfold add_exact. set (key := py_lower (rel_path e)).
  assert (Hx' : forall p e', <[rel_path e := e]> exact !! p = Some e' <-> e' ∈ es ++ [e] /\ rel_path e' = p).
  { intros p e'. rewrite lookup_insert_Some, Hx, elem_of_app, list_elem_of_singleton. split.
    - intros [[<- <-]|(_ & He & <-)]; auto.
    - intros [[He| ->] <-]; [right|by left]. split_and!; try done. intros E. by apply (Hnew e'). }
  destruct (folded !! key) as [e0|] eqn:E; split.
  - apply Hf in E as [He0 Hk0]. split; [done| | |].
    + intros k e' [He' Hk]%Hf. split; [|done]. apply elem_of_app. by left.
    + intros k e' H1 [H2 H3]%not_elem_of_union. rewrite not_elem_of_singleton in H2.
      intros [He'|He'%list_elem_of_singleton]%elem_of_app; [by apply (Hm k)|]. subst e'. by intros <-.
    + intros k e1 e2 [H2 H3]%not_elem_of_union. rewrite not_elem_of_singleton in H2.
      intros [H1|H1%list_elem_of_singleton]%elem_of_app [H4|H4%list_elem_of_singleton]%elem_of_app; subst; try done; by apply (Ha k).
  - intros k [->%elem_of_singleton|Hk]%elem_of_union; [by exists e0|auto].
  - split; [done| | |].
    + intros k e'. rewrite lookup_insert_Some, elem_of_app, list_elem_of_singleton.
      intros [[<- <-]|[_ [? ?]%Hf]]; auto.
    + intros k e' H1 H2. apply lookup_insert_None in H1 as [H1 H3].
      intros [He'|He'%list_elem_of_singleton]%elem_of_app; [by apply (Hm k)|]. by subst e'.
    + intros k e1 e2 H2.
      intros [H1|H1%list_elem_of_singleton]%elem_of_app [H4|H4%list_elem_of_singleton]%elem_of_app; subst; try done; [by apply (Ha k)| |].
      * intros H5 <-. exfalso. apply (Hm key e1); [done|done|done|done].
      * intros <- H5. exfalso. apply (Hm key e2); [done|done|done|done].
  - intros k Hk. rewrite lookup_insert_is_Some. destruct (decide (key = k)); [by left|right; auto].
Qed.

Lemma path_index_empty : path_index [] ∅ ∅ ∅.
Proof.
  split.
  - intros p e. rewrite lookup_empty. split; [done|by intros [?%not_elem_of_nil _]].
  - intros k e. by rewrite lookup_empty.
  - by intros k e _ _ ?%not_elem_of_nil.
  - by intros k e e' _ ?%not_elem_of_nil.
Qed.

Lemma foldl_add_exact_ok es done exact folded ambiguous :
  path_index done exact folded ambiguous -> (forall k, k ∈ ambiguous -> is_Some (folded !! k)) ->
  NoDup (map rel_path (done ++ es)) ->
  let '(x, f, a) := foldl add_exact (exact, folded, ambiguous) es in
  path_index (done ++ es) x f a.
Proof.
  revert done exact folded ambiguous. induction es as [|e es IH]; intros done exact folded ambiguous Hp Hs Hn.
  - by rewrite app_nil_r.
  - cbn [foldl]. pose proof (add_exact_ok done e exact folded ambiguous Hp Hs) as Hadd.
    destruct (add_exact (exact, folded, ambiguous) e) as [[x f] a].
    assert (Hnew : forall e', e' ∈ done -> rel_path e' <> rel_path e).
    { intros e' He' Heq. rewrite map_app in Hn. apply NoDup_app in Hn as (_ & Hn & _).
      apply (Hn (rel_path e')); [by apply list_elem_of_fmap_2|]. rewrite Heq. cbn [map]. by left. }
    destruct (Hadd Hnew) as [Hp' Hs']. rewrite cons_middle, app_assoc in Hn |- *. by apply IH.
Qed.

(** No two candidates have the same path. *)
Lemma candidates_unique found : NoDup (map rel_path (candidates found)) /\ forall e, e ∈ candidates found -> e ∈ found.
Proof.
  unfold candidates.
  assert (G : forall cs, NoDup (map rel_path cs) -> NoDup (map rel_path (foldl add_candidate cs found)) /\
                    forall e, e ∈ foldl add_candidate cs found -> e ∈ cs \/ e ∈ found).
  { induction found as [|e found IH]; intros cs Hn; [by auto|]. cbn [foldl].
    assert (Hn' : NoDup (map rel_path (add_candidate cs e)) /\ forall x, x ∈ add_candidate cs e -> x ∈ cs \/ x = e).
    { unfold add_candidate. destruct (existsb _ cs) eqn:E; [by auto|]. split.
      - rewrite map_app. apply NoDup_app. split_and!; [done| |apply NoDup_singleton].
        intros p Hp ->%list_elem_of_singleton. apply list_elem_of_fmap in Hp as (c & Hc & Hin).
        assert (existsb (fun c => str_eqb (rel_path c) (rel_path e)) cs = true); [|congruence].
        apply existsb_exists. exists c. split; [by apply list_elem_of_In|]. by destruct (str_eqb_spec (rel_path c) (rel_path e)).
      - intros x [?|?%list_elem_of_singleton]%elem_of_app; auto. }
    destruct Hn' as [Hn1 Hin1]. destruct (IH _ Hn1) as [Hn2 Hin2]. split; [done|].
    intros x [Hx|Hx]%Hin2; [apply Hin1 in Hx as [?| ->]; [by left|right; by left]|right; by right]. }
  destruct (G [] (NoDup_nil_2)) as [H1 H2]. split; [done|]. intros e [?%not_elem_of_nil|?]%H2; done.
Qed.

Lemma sublist_map {A B} (f : A -> B) l k : sublist l k -> sublist (map f l) (map f k).
Proof. induction 1; cbn; by constructor. Qed.

Lemma NoDup_sublist {A} (l k : list A) : sublist l k -> NoDup k -> NoDup l.
Proof.
  induction 1 as [|x l k Hs IH|x l k Hs IH]; [done| |].
  - intros [Hx Hk]%NoDup_cons. apply NoDup_cons. split; [|by apply IH]. intros Hl. apply Hx. by eapply elem_of_sublist.
  - intros [_ Hk]%NoDup_cons. by apply IH.
Qed.

(** What the path-aware scan leaves: a list that reads back as the rows of [es], found in
    the scan, and tables for exactly these. *)
Record listed (found es : list game_entry) (i : index) : Prop := {
  ls_csv : exists txt, utf8_decode (csv i) = Ok txt /\ read_rows (length txt) [] txt = Some (map row_fields es);
  ls_found : forall e, e ∈ es -> e ∈ found;
  ls_valid : Forall entry_valid es;
  ls_tables : exists folded, path_index es (exact_paths i) folded (ambiguous_paths i) /\
                path_entries i = drop_keys (ambiguous_paths i) folded
}.
End unicode.

Section host.
Context {Os : Type} `{HostOs Os} `{Codecs} `{Unicode} (cfg : settings).

Lemma rebuild_listed dirs sig i o i' : rebuild_path_aware cfg dirs sig i o = Ok i' ->
  exists found es, found_dirs cfg dirs o = Ok found /\ listed found es i'.
Proof.
  unfold rebuild_path_aware. intros Hr. bind_inv Hr. bind_inv Hr. bind_inv Hr. rename a into found, a1 into st.
  destruct (candidates_unique found) as [Hn Hin]. unfold build_riptopl_csv in E1.
  destruct (add_rows_retained _ _ _ E1) as (kept & Hk & Hsub). cbn in Hk.
  pose proof (add_rows_ok _ _ _ no_rows_ok E1) as [(lines & Hl & Hbody) _ _ _ _ _ Hv].
  assert (Hn' : NoDup (map rel_path ([] ++ retained st))).
  { rewrite Hk. cbn [app]. eapply NoDup_sublist; [by apply sublist_map|].
    assert (Hp : map rel_path (sorted row_leb (candidates found)) ≡ₚ map rel_path (candidates found))
      by apply fmap_Permutation, sorted_perm.
    by rewrite Hp. }
  pose proof (foldl_add_exact_ok (retained st) [] ∅ ∅ ∅ path_index_empty (fun k Hk => False_ind _ (not_elem_of_empty k Hk)) Hn') as Hp.
  destruct (foldl add_exact (∅, ∅, ∅) (retained st)) as [[exact folded] ambiguous]. apply Ok_inj in Hr as <-.
  exists found, (retained st). split; [done|]. split; cbn.
  - destruct (rows_decode _ _ Hl) as [Hs Hc]. exists (rows_text (retained st)). split.
    + apply utf8_decode_encode; [done|]. by rewrite utf8_encode_ok, Hbody, Hc.
    + apply read_rows_lines, rows_text_length.
  - intros e He. apply Hin. rewrite Hk in He. rewrite <- (sorted_perm row_leb (candidates found)). by eapply elem_of_sublist.
  - done.
  - exists folded. by split.
Qed.

(** *** Where the entries come from *)

(** What the scan knows of an entry's file: it is a regular file whose size, or whose
    decompressed size, is the one served. *)
Record on_disk (o : Os) (e : game_entry) : Prop := {
  od_file : isfile (path e) o = Ok true;
  od_size : if compressed e then compressed_size (path e) o = Ok (Some (size e))
            else getsize (path e) o = Ok (Some (size e));
  od_inside : path_aware cfg = true -> contained cfg (path e) o = Ok true
}.

Lemma advertise_size p stem ext o a n c : advertise cfg p stem ext o = Ok (Some (a, n, c)) ->
  if c then compressed_size p o = Ok (Some n) else getsize p o = Ok (Some n).
Proof.
  unfold advertise. destruct (existsb _ _); intros Ha.
  - bind_inv Ha. apply Ok_inj in Ha. destruct a0 as [m|]; [|done]. by injection Ha as <- <- <-.
  - destruct (Formats.assoc _ _) as [x|]; [|done]. bind_inv Ha. apply Ok_inj in Ha.
    destruct a0 as [m|]; [|done]. by injection Ha as <- <- <-.
Qed.

Lemma path_aware_fields dir stem adv p implied n c o e :
  path_aware_entry cfg dir stem adv p implied n c o = Ok (Some e) ->
  contained cfg p o = Ok true /\ path e = p /\ size e = n /\ compressed e = c.
Proof.
  unfold path_aware_entry. intros He. bind_inv He. destruct a; [|done]. cbn [negb] in He.
  destruct (utf8_encode _) as [|[]]; try done. destruct (parse_startup stem) as [id title].
  bind_inv He. bind_inv He. apply Ok_inj in He. injection He as <-. done.
Qed.

Lemma entry_for_disk dir name implied o e : entry_for cfg dir name implied o = Ok (Some e) -> on_disk o e.
Proof.
  unfold entry_for. destruct (splitext name) as [stem ext]. intros He. bind_inv He.
  destruct a as [[[adv n] c]|]; [|done]. apply advertise_size in E. bind_inv He. destruct a; [|done]. cbn [negb] in He.
  destruct (path_aware cfg) eqn:Ep.
  - apply path_aware_fields in He as (Hc & Hp & Hs & Hz). split; [by rewrite Hp|by rewrite Hp, Hs, Hz|by rewrite Hp].
  - destruct (FILENAME_MAX <? _); [done|]. destruct (existsb _ _); [done|]. apply Ok_inj in He. injection He as <-.
    split; cbn; [done|done|congruence].
Qed.

Lemma entries_of_in dir names implied o es n e : entries_of cfg dir names implied o = Ok es -> (n, e) ∈ es ->
  n ∈ names /\ entry_for cfg dir n implied o = Ok (Some e).
Proof.
  revert es. induction names as [|m names IH]; intros es He Hin; cbn in He.
  - apply Ok_inj in He as <-. by apply not_elem_of_nil in Hin.
  - bind_inv He. bind_inv He. apply Ok_inj in He as <-. destruct a as [x|].
    + apply elem_of_cons in Hin as [Hin|Hin].
      * injection Hin as -> ->. split; [by left|done].
      * destruct (IH _ eq_refl Hin). split; [by right|done].
    + destruct (IH _ eq_refl Hin). split; [by right|done].
Qed.

Lemma dir_entries_in d o es n e : dir_entries cfg d o = Ok es -> (n, e) ∈ es ->
  entry_for cfg (fst d) n (snd d) o = Ok (Some e).
Proof.
  unfold dir_entries. destruct (listdir (fst d) o) as [names|[]]; try done.
  - intros He Hin. by destruct (entries_of_in _ _ _ _ _ _ _ He Hin).
  - intros [= <-] Hin. by apply not_elem_of_nil in Hin.
Qed.

Lemma found_dirs_disk dirs o found e : found_dirs cfg dirs o = Ok found -> e ∈ found -> on_disk o e.
Proof.
  revert found. induction dirs as [|d dirs IH]; intros found Hf Hin; cbn in Hf.
  - apply Ok_inj in Hf as <-. by apply not_elem_of_nil in Hin.
  - bind_inv Hf. bind_inv Hf. apply Ok_inj in Hf as <-. apply elem_of_app in Hin as [Hin|Hin].
    + apply list_elem_of_fmap in Hin as ([n x] & -> & Hin). eapply entry_for_disk, dir_entries_in; done.
    + by apply (IH _ eq_refl).
Qed.

(** *** Lookup *)

Section listed.
Context (found es : list game_entry) (i : index) (Hi : listed found es i).

Lemma lookup_from_listed name e : exact_paths i !! name = Some e -> lookup_from (split_on SLASH name) i = Some e.
Proof.
  intros He. pose proof (join_split SLASH name) as Hj. pose proof (split_on_ne SLASH name) as Hne.
  destruct (split_on SLASH name) as [|w ws]; [done|]. cbn [lookup_from]. by rewrite Hj, He.
Qed.

Lemma lookup_listed e : e ∈ es -> lookup_path (rel_path e) i = Some e.
Proof.
  intros He. destruct Hi as [_ _ Hv (folded & [Hx _ _ _] & _)].
  pose proof (proj1 (Forall_forall _ _) Hv e He) as Hve. unfold lookup_path.
  rewrite (proj1 (clean_path_good _ (rv_segments _ _ _ Hve))). apply lookup_from_listed. by apply Hx.
Qed.

(** An entry is found by its own path, or by a path that folds to its own and to no other's,
    behind any leading segments. *)
Lemma lookup_from_sound parts e : lookup_from parts i = Some e ->
  e ∈ es /\ exists pre suf, parts = pre ++ suf /\
    (rel_path e = join_with SLASH suf \/
     py_lower (rel_path e) = py_lower (join_with SLASH suf) /\
     forall e', e' ∈ es -> py_lower (rel_path e') = py_lower (rel_path e) -> e' = e).
Proof.
  destruct Hi as [_ _ _ (folded & [Hx Hf Hm Ha] & Hd)].
  induction parts as [|w parts IH]; [done|]. cbn [lookup_from].
  destruct (exact_paths i !! join_with SLASH (w :: parts)) as [x|] eqn:Ex.
  - intros [= ->]. apply Hx in Ex as [Hin Hp]. split; [done|]. exists [], (w :: parts). auto.
  - case_bool_decide as Hamb; [done|]. rewrite Hd. unfold drop_keys.
    destruct (filter _ folded !! _) as [x|] eqn:El.
    + intros [= ->]. apply map_lookup_filter_Some in El as [Hk Hn]. apply Hf in Hk as [Hin Hl].
      split; [done|]. exists [], (w :: parts). split; [done|]. right. split; [done|].
      intros e' He' Heq. apply (Ha (py_lower (join_with SLASH (w :: parts)))); try done. congruence.
    + intros He. destruct (IH He) as (Hin & pre & suf & -> & Hs). split; [done|]. by exists (w :: pre), suf.
Qed.
End listed.

(** The index serves exactly the rows it lists: every row is one the console accepts and
    its path leads to the entry of the row; whatever name is asked for, what is found is the entry of a row, whose path ends
    the name asked for, and its file lies inside the games folder through no link. *)
Definition serves (o : Os) (i : index) : Prop :=
  exists es txt,
    utf8_decode (csv i) = Ok txt /\ read_rows (length txt) [] txt = Some (map row_fields es) /\
    (forall e, e ∈ es -> entry_valid e /\ lookup cfg (rel_path e) i = Some e) /\
    forall name e, lookup cfg name i = Some e ->
      e ∈ es /\ isfile (path e) o = Ok true /\ contained cfg (path e) o = Ok true /\
      exists pre suf, split_on SLASH (clean_path name) = pre ++ suf /\
        py_lower (rel_path e) = py_lower (join_with SLASH suf).

Lemma refresh_serves_rows force i o i' :
  path_aware cfg = true -> refresh cfg force i o = Ok i' -> i' = i \/ serves o i'.
Proof.
  intros Hp Hr. unfold refresh in Hr. bind_inv Hr. bind_inv Hr. destruct (_ && _).
  { apply Ok_inj in Hr as ->. by left. }
  rewrite Hp in Hr. right. destruct (rebuild_listed _ _ _ _ _ Hr) as (found & es & Hf & Hl).
  pose proof Hl as [(txt & Ht & Hrows) Hfound Hv _]. exists es, txt. split_and!; [done|done| |].
  - intros e He. split; [by apply (proj1 (Forall_forall _ _) Hv)|]. unfold lookup. rewrite Hp. by eapply lookup_listed.
  - intros name e. unfold lookup. rewrite Hp. intros He.
    destruct (lookup_from_sound _ _ _ Hl _ _ He) as (Hin & pre & suf & Hs & Hm).
    destruct (found_dirs_disk _ _ _ e Hf (Hfound e Hin)) as [Hfile _ Hins].
    split_and!; [done|done|by apply Hins|]. exists pre, suf. split; [done|]. destruct Hm as [->|[? _]]; done.
Qed.

(** A refresh of the path-aware index, when anything has changed, leaves an index that
    serves exactly what it lists. *)
Theorem refresh_serves force i o i' :
  path_aware cfg = true -> refresh cfg force i o = Ok i' -> i' = i \/ serves o i'.
Proof. apply refresh_serves_rows. Qed.

(** *** The flat index *)

Lemma upper1_fixed c d : c < 65 -> c = upper1 d -> c = d.
Proof. unfold upper1. destruct (Z.leb_spec 97 d); destruct (Z.leb_spec d 122); cbn [andb]; lia. Qed.

(** The STARTUP of a name has no character below the letters that the name has not. *)
Lemma parse_startup_chars stem c : c < 65 -> c ∈ fst (parse_startup stem) -> c ∈ stem.
Proof.
  intros Hc. unfold parse_startup. destruct (STARTUP_RE stem) as [[id title]|] eqn:E; cbn [fst].
  - assert (id = ztake 11 stem) as ->.
    { unfold STARTUP_RE in E. repeat case_match; try done. bind_inv E. by injection E as <- _. }
    unfold upper. intros (d & Hcd & Hd)%list_elem_of_fmap. apply upper1_fixed in Hcd as ->; [|done].
    unfold ztake in Hd. by eapply elem_of_take in Hd as (? & ?%list_elem_of_lookup_2 & _).
  - unfold ztake. intros Hd. by eapply elem_of_take in Hd as (? & ?%list_elem_of_lookup_2 & _).
Qed.

Lemma advertise_stem p stem ext o a n c : advertise cfg p stem ext o = Ok (Some (a, n, c)) -> exists x, a = stem ++ x.
Proof.
  unfold advertise. destruct (existsb _ _); intros Ha.
  - bind_inv Ha. apply Ok_inj in Ha. destruct a0 as [m|]; [|done]. injection Ha as <- _ _. by eexists.
  - destruct (Formats.assoc _ _) as [x|]; [|done]. bind_inv Ha. apply Ok_inj in Ha.
    destruct a0 as [m|]; [|done]. injection Ha as <- _ _. by eexists.
Qed.

Lemma breaks_csv_none s : existsb breaks_csv s = false -> Forall (fun c => c ∉ s) [COMMA; NEWLINE].
Proof.
  intros Hb. assert (G : forall c, breaks_csv c = true -> c ∉ s).
  { intros c Hc Hin. assert (existsb breaks_csv s = true); [|congruence].
    apply existsb_exists. exists c. split; [by apply list_elem_of_In|done]. }
  apply Forall_cons. split; [by apply G|]. apply Forall_cons. split; [by apply G|apply Forall_nil_2].
Qed.

(** What a flat entry keeps of its name is safe in the list and fits the console's field. *)
Definition flat_safe (e : game_entry) : Prop := csv_safe e /\ zlen (advertised e) <= FILENAME_MAX.

Lemma entry_for_flat dir name implied o e :
  path_aware cfg = false -> entry_for cfg dir name implied o = Ok (Some e) -> flat_safe e.
Proof.
  intros Hp. unfold entry_for. destruct (splitext name) as [stem ext]. intros He. bind_inv He.
  destruct a as [[[adv n] c]|]; [|done]. apply advertise_stem in E as [x ->]. bind_inv He.
  destruct a; [|done]. cbn [negb] in He. rewrite Hp in He.
  destruct (Z.ltb_spec FILENAME_MAX (zlen (stem ++ x))); [done|].
  destruct (existsb breaks_csv (stem ++ x)) eqn:Eb; [done|]. apply Ok_inj in He. injection He as <-.
  apply breaks_csv_none in Eb. split; [|done]. split; [done|]. cbn [startup].
  apply Forall_forall. intros b Hb Hin.
  apply (proj1 (Forall_forall _ _) Eb b Hb), elem_of_app. left. apply parse_startup_chars; [|done].
  apply elem_of_cons in Hb as [-> | ->%list_elem_of_singleton]; done.
Qed.

Definition flat_entry (o : Os) (e : game_entry) : Prop := flat_safe e /\ on_disk o e.

Lemma add_flat_ok P rel_dir st ne :
  Forall (fun kv => P (snd kv)) (fl_entries st) -> P (snd ne) -> Forall (fun kv => P (snd kv)) (fl_entries (add_flat rel_dir st ne)).
Proof.
  intros Hst Hne. unfold add_flat. destruct ne as [name e]. destruct (Formats.assoc _ _); [done|]. cbn.
  apply Forall_app. split; [done|by constructor].
Qed.

Lemma flat_dirs_ok dirs o st st' : path_aware cfg = false ->
  Forall (fun kv => flat_entry o (snd kv)) (fl_entries st) -> flat_dirs cfg dirs st o = Ok st' ->
  Forall (fun kv => flat_entry o (snd kv)) (fl_entries st').
Proof.
  intros Hp. revert st. induction dirs as [|d dirs IH]; intros st Hst Hd; cbn in Hd; [by apply Ok_inj in Hd as <-|].
  bind_inv Hd. eapply IH; [|exact Hd]. rename a into es.
  assert (Hes : Forall (fun ne => flat_entry o (snd ne)) es).
  { apply Forall_forall. intros [n e] Hin. pose proof (dir_entries_in _ _ _ _ _ E Hin) as He.
    split; [by eapply entry_for_flat|by eapply entry_for_disk]. }
  clear E Hd IH. revert st Hst. induction Hes as [|ne es Hne _ IH]; intros st Hst; [done|]. cbn [foldl].
  apply IH. by apply add_flat_ok.
Qed.

(** The generated flat list: a refresh indexes regular files whose names fit the console's
    field; the list fits its buffer, every line is the three fields of an indexed entry,
    which no name can break, and the entries left out are counted. *)
Theorem flat_list_reads_back i o i' :
  path_aware cfg = false -> disk_csv_path cfg o = Ok None -> refresh cfg true i o = Ok i' ->
  let es := map snd (entries i') in
  Forall (flat_entry o) es /\ zlen (csv i') <= GAMES_CSV_MAX /\
  exists kept, (forall e, e ∈ kept -> e ∈ es) /\
    split_on NEWLINE (csv i') = map line_bytes kept ++ [[]] /\
    Forall (fun e => split_on COMMA (line_bytes e) = flat_fields e) kept /\
    build_csv es = Ok (csv i', zlen es - zlen kept).
Proof.
  intros Hp Hdisk Hr. unfold refresh in Hr. bind_inv Hr. bind_inv Hr. cbn [negb andb] in Hr. rewrite Hp in Hr.
  unfold rebuild_flat in Hr. bind_inv Hr. rename a1 into st. rewrite Hdisk in Hr. cbn [mbind result_bind] in Hr.
  bind_inv Hr. destruct a1 as [b n]. apply Ok_inj in Hr as <-. cbn.
  assert (He : Forall (flat_entry o) (map snd (fl_entries st))).
  { apply Forall_map. eapply (flat_dirs_ok _ _ (FlatState [] ∅ ∅)); [done|apply Forall_nil_2|exact E1]. }
  destruct (build_csv_reads _ _ _ (Forall_impl _ _ _ He (fun e H => proj1 (proj1 H))) E2) as (Hz & kept & Hin & Hn & Hs & Hf).
  split_and!; [done|done|]. exists kept. split_and!; [done|done|done|]. replace (zlen (map snd (fl_entries st)) - zlen kept) with n by lia. exact E2.
Qed.

(** *** The recursive scan *)

(** A directory [n] levels below the games folder, through no link or junction *)
Inductive below (o : Os) : Z -> text -> Prop :=
  | below_root : below o 0 (root_dir cfg)
  | below_child n dir name : below o n dir -> is_real_dir dir name o = Ok true -> below o (n + 1) (path_join dir name).

Lemma real_dirs_in dir names o ns name : real_dirs dir names o = Ok ns -> name ∈ ns -> is_real_dir dir name o = Ok true.
Proof.
  revert ns. induction names as [|m names IH]; intros ns Hr Hin; cbn in Hr.
  - apply Ok_inj in Hr as <-. by apply not_elem_of_nil in Hin.
  - bind_inv Hr. bind_inv Hr. apply Ok_inj in Hr as <-. destruct a; [|by apply (IH _ eq_refl)].
    apply elem_of_cons in Hin as [->|Hin]; [done|by apply (IH _ eq_refl)].
Qed.

Lemma real_children_in dir o ns name : real_children dir o = Ok ns -> name ∈ ns -> is_real_dir dir name o = Ok true.
Proof.
  unfold real_children. intros Hr Hin. bind_inv Hr. bind_inv Hr. apply Ok_inj in Hr as <-.
  rewrite (sorted_perm points_leb a0) in Hin. by eapply real_dirs_in.
Qed.

Lemma add_children_spec dir inherited depth children dirs pending dirs' pending' :
  add_children dir inherited depth children dirs pending = (dirs', pending') ->
  exists new : list scan_dir, dirs' = dirs ++ new /\ pending' = pending ++ map (fun d => (d, depth + 1)) new /\
    zlen dirs' <= Z.max (zlen dirs) RECURSIVE_MAX_DIRS /\
    Forall (fun d => exists name, name ∈ children /\ fst d = path_join dir name) new.
Proof.
  revert dirs pending. induction children as [|name children IH]; intros dirs pending Ha; cbn [add_children] in Ha.
  - injection Ha as <- <-. exists []. rewrite !app_nil_r. split_and!; [done|done|lia|apply Forall_nil_2].
  - destruct (Z.leb_spec RECURSIVE_MAX_DIRS (zlen dirs)).
    + injection Ha as <- <-. exists []. rewrite !app_nil_r. split_and!; [done|done|lia|apply Forall_nil_2].
    + apply IH in Ha as (new & -> & -> & Hz & Hn). rewrite <- !app_assoc. eexists (_ :: new).
      split_and!; [done|done| |].
      * rewrite <- app_assoc, (zlen_app dirs [_]), zlen_cons, zlen_nil in Hz. etransitivity; [exact Hz|lia].
      * apply Forall_cons. split; [exists name; split; [by left|done]|].
        eapply Forall_impl; [exact Hn|]. intros d (m & Hm & Hd). exists m. split; [by right|done].
Qed.

Definition scanned (o : Os) (d : scan_dir) : Prop := exists n, n <= RECURSIVE_MAX_DEPTH /\ below o n (fst d).

(** What the queue holds is listed, at its own depth. *)
Definition queued (o : Os) (p : scan_dir * Z) : Prop := below o (snd p) (fst (fst p)).

Lemma walk_spec o fuel dirs pending :
  zlen pending + (RECURSIVE_MAX_DIRS - zlen dirs) <= Z.of_nat fuel -> zlen dirs <= RECURSIVE_MAX_DIRS ->
  Forall (scanned o) dirs -> Forall (queued o) pending ->
  (forall more, walk (fuel + more) dirs pending o = walk fuel dirs pending o) /\
  forall dirs', walk fuel dirs pending o = Ok dirs' -> zlen dirs' <= RECURSIVE_MAX_DIRS /\ Forall (scanned o) dirs'.
Proof.
  revert dirs pending. induction fuel as [|fuel IH]; intros dirs pending Hf Hz Hd Hq.
  - destruct pending as [|[[dir inherited] depth] pending].
    { split; [by intros []|]. intros dirs' Hw. cbn in Hw. by apply Ok_inj in Hw as <-. }
    rewrite zlen_cons in Hf. pose proof (zlen_nonneg pending).
    assert (Hb : (RECURSIVE_MAX_DIRS <=? zlen dirs) = true) by (apply Z.leb_le; lia).
    split; [intros []; cbn; by rewrite Hb|]. intros dirs' Hw. cbn in Hw. rewrite Hb in Hw. by apply Ok_inj in Hw as <-.
  - destruct pending as [|[[dir inherited] depth] pending].
    { split; [done|]. intros dirs' Hw. cbn in Hw. by apply Ok_inj in Hw as <-. }
    rewrite zlen_cons in Hf. apply Forall_cons in Hq as [Hhead Hq]. cbn [walk plus].
    destruct (RECURSIVE_MAX_DIRS <=? zlen dirs) eqn:Hb; [split; [done|by intros dirs' [= <-]]|].
    destruct (Z.leb_spec RECURSIVE_MAX_DEPTH depth); [apply IH; try done; lia|].
    destruct (real_children dir o) as [children|[]] eqn:Ec; try (split; [done|done]); [|apply IH; try done; lia].
    destruct (add_children dir inherited depth children dirs pending) as [dirs2 pending2] eqn:Ea.
    apply add_children_spec in Ea as (new & -> & -> & Hz2 & Hnew).
    assert (Hbelow : Forall (fun d : scan_dir => below o (depth + 1) (fst d)) new).
    { eapply Forall_impl; [exact Hnew|]. intros d (name & Hin & ->). apply below_child; [exact Hhead|].
      by eapply real_children_in. }
    apply IH.
    + rewrite !zlen_app, zlen_map in *. lia.
    + lia.
    + apply Forall_app. split; [done|]. eapply Forall_impl; [exact Hbelow|]. intros d Hb'. exists (depth + 1). split; [lia|done].
    + apply Forall_app. split; [done|]. apply Forall_map. exact Hbelow.
Qed.

(** The recursive scan ends, whatever the host answers: its fuel is enough.  It lists at
    most the allowed number of directories, each within the allowed depth of the games
    folder and reached through no link. *)
Theorem walk_dirs_bounded o :
  (forall more, walk (walk_fuel + more) [(root_dir cfg, None)] [((root_dir cfg, None), 0)] o = walk_dirs cfg o) /\
  forall dirs, walk_dirs cfg o = Ok dirs ->
    zlen dirs <= RECURSIVE_MAX_DIRS /\ Forall (fun d => exists n, n <= RECURSIVE_MAX_DEPTH /\ below o n (fst d)) dirs.
Proof.
  apply walk_spec; try done.
  - apply Forall_cons. split; [|apply Forall_nil_2]. exists 0. split; [done|apply below_root].
  - apply Forall_cons. split; [apply below_root|apply Forall_nil_2].
Qed.
End host.
