(* ===== verification/HttpFacts.v ===== *)
(** * Every request is answered with exactly the bytes it asks for

    Theorems about [Http].  A reference function, [answer], says which response a request
    gets from an index and the contents of the files; the handler implements it on every
    host whose files can be read and every socket that does not fail, and a client that
    reads the stream by the framing headers finds exactly these responses. *)

From S2P Require Import Prelude PyStr PyText PathNames SessionStats Compressed CompressedFacts HostOs ChdCue Handlers Catalogue CatalogueFacts Http.

(** ** Decimal numbers *)

Lemma digits_spec fuel n : 0 <= n < 2 ^ Z.of_nat fuel -> (0 < fuel)%nat ->
  forallb is_digit (digits fuel n) = true /\ digits fuel n <> [] /\
  forall acc, foldl (fun n c => 10 * n + (c - 48)) acc (digits fuel n) = acc * 10 ^ zlen (digits fuel n) + n.
Proof.
  revert n. induction fuel as [|fuel IH]; intros n Hn Hf; [lia|]. cbn [digits].
  pose proof (Z.mod_pos_bound n 10 eq_refl) as Hm. pose proof (Z.div_mod n 10 ltac:(done)) as Hd.
  assert (Hdig : is_digit (48 + n mod 10) = true) by (unfold is_digit; zbool; done).
  destruct (Z.ltb_spec n 10).
  - cbn [app]. split_and!; [cbn; by rewrite Hdig|done|]. intros acc. cbn [foldl]. unfold zlen. cbn [length].
    change (10 ^ Z.of_nat 1) with 10. rewrite Z.mod_small by lia. lia.
  - assert (Hf' : (0 < fuel)%nat) by (destruct fuel; [cbn in Hn; lia|lia]).
    destruct (IH (n / 10)) as (H1 & H2 & H3); [|done|].
    { rewrite Nat2Z.inj_succ, Z.pow_succ_r in Hn by lia. lia. }
    split_and!.
    + rewrite forallb_app, H1. cbn. by rewrite Hdig.
    + by destruct (digits fuel (n / 10)).
    + intros acc. rewrite foldl_app, H3. cbn [foldl]. rewrite zlen_app, zlen_cons, zlen_nil.
      rewrite Z.pow_add_r by (pose proof (zlen_nonneg (digits fuel (n / 10))); lia). change (10 ^ (1 + 0)) with 10. lia.
Qed.

Lemma decimal_spec n : 0 <= n ->
  forallb is_digit (decimal n) = true /\ decimal n <> [] /\ digits_value (decimal n) = n.
Proof.
  intros Hn. unfold decimal, digits_value. destruct (digits_spec (S (Z.to_nat (Z.log2 n))) n) as (H1 & H2 & H3).
  - rewrite Nat2Z.inj_succ, Z2Nat.id by apply Z.log2_nonneg. split; [done|].
    destruct (Z.eq_dec n 0) as [->|]; [done|]. apply Z.log2_spec. lia.
  - lia.
  - split_and!; [done|done|]. by rewrite H3.
Qed.

Lemma digits_length fuel n k : 0 <= n < 10 ^ k -> 1 <= k -> zlen (digits fuel n) <= k.
Proof.
  revert n k. induction fuel as [|fuel IH]; intros n k Hn Hk; cbn [digits]; [rewrite zlen_nil; lia|].
  rewrite zlen_app, zlen_cons, zlen_nil. destruct (Z.ltb_spec n 10); [rewrite zlen_nil; lia|].
  destruct (Z.eq_dec k 1) as [->|]; [cbn in Hn; lia|].
  assert (zlen (digits fuel (n / 10)) <= k - 1); [|lia]. apply IH; [|lia].
  replace k with (1 + (k - 1)) in Hn by lia. rewrite Z.pow_add_r in Hn by lia. change (10 ^ 1) with 10 in Hn.
  Z.to_euclidean_division_equations; lia.
Qed.

Lemma decimal_length n k : 0 <= n < 10 ^ k -> 1 <= k -> zlen (decimal n) <= k.
Proof. apply digits_length. Qed.

Lemma span_digits_app ds c s : forallb is_digit ds = true -> is_digit c = false ->
  span_digits (ds ++ c :: s) = (ds, c :: s).
Proof.
  intros Hd Hc. induction ds as [|d ds IH]; cbn; [by rewrite Hc|].
  cbn in Hd. apply andb_true_iff in Hd as [-> Hd]. by rewrite IH.
Qed.

Lemma span_digits_all ds : forallb is_digit ds = true -> span_digits ds = (ds, []).
Proof.
  intros Hd. induction ds as [|d ds IH]; cbn; [done|].
  cbn in Hd. apply andb_true_iff in Hd as [-> Hd]. by rewrite IH.
Qed.

(** ** Responses *)

Record response := Response {
  rs_code : Z;
  rs_reason : bytes;
  rs_fields : list (bytes * bytes);
  rs_body : bytes
}.

(** What goes on the wire; a HEAD request gets no body. *)
Definition rendered (date : bytes) (c : command) (r : response) : bytes :=
  header_block (rs_code r) (rs_reason r) ((lit "Date", date) :: rs_fields r)
  ++ match c with GET => rs_body r | HEAD => [] end.

Definition short (code : Z) (message : bytes) : response :=
  let payload := message ++ [10] in
  {| rs_code := code; rs_reason := message; rs_body := payload;
     rs_fields := [(lit "Content-Type", lit "text/plain"); (lit "Content-Length", decimal (zlen payload))] |}.

Definition csv_answer (payload : bytes) : response :=
  {| rs_code := 200; rs_reason := lit "OK"; rs_body := payload;
     rs_fields := [(lit "Content-Type", lit "text/csv"); (lit "Content-Length", decimal (zlen payload))] |}.

Definition whole_answer (total : Z) (content : bytes) : response :=
  {| rs_code := 200; rs_reason := lit "OK"; rs_body := content;
     rs_fields := [(lit "Content-Type", CONTENT_TYPE); (lit "Content-Length", decimal total);
                   (lit "Accept-Ranges", lit "bytes")] |}.

Definition range_answer (first last total : Z) (content : bytes) : response :=
  {| rs_code := 206; rs_reason := lit "Partial Content"; rs_body := slice content first (last + 1);
     rs_fields := [(lit "Content-Type", CONTENT_TYPE); (lit "Content-Range", content_range first last total);
                   (lit "Content-Length", decimal (last - first + 1)); (lit "Accept-Ranges", lit "bytes")] |}.

Section answer.
Context `{Unicode} (cfg : settings).

(** The response to a request, from the index and the contents of the files by path;
    nothing where Python raises an exception that closes the connection. *)
Definition answer (i : index) (content : text -> bytes) (r : request) : option response :=
  match normalised_path (rq_path r) with
  | Err _ => None
  | Ok None => Some (short 400 bad_request)
  | Ok (Some path) =>
      if is_games_csv path then Some (csv_answer (csv i))
      else match lookup cfg path i with
           | None => Some (short 404 not_found)
           | Some e =>
               match parse_range (rq_range r) (size e) with
               | Ok None => Some (whole_answer (size e) (content (Catalogue.path e)))
               | Ok (Some (first, last)) => Some (range_answer first last (size e) (content (Catalogue.path e)))
               | Err RangeError => Some (short 416 unsatisfiable)
               | Err _ => None
               end
           end
  end.
End answer.

(** ** Reading the stream *)

(** A client of the framing headers: lines up to an empty one, then as many bytes as
    [Content-Length] says, or none after HEAD *)
Fixpoint take_line (s : bytes) : option (bytes * bytes) :=
  match s with
  | [] => None
  | c :: s =>
      if c =? 13 then match s with d :: t => if d =? 10 then Some ([], t) else None | [] => None end
      else '(l, rest) ← take_line s; Some (c :: l, rest)
  end.

Fixpoint take_lines (fuel : nat) (s : bytes) : option (list bytes * bytes) :=
  match fuel with
  | O => None
  | S fuel =>
      '(l, rest) ← take_line s;
      match l with
      | [] => Some ([], rest)
      | _ => '(ls, rest) ← take_lines fuel rest; Some (l :: ls, rest)
      end
  end.

Definition length_field (line : bytes) : option Z :=
  if startswith line (lit "Content-Length: ") then Some (digits_value (zdrop 16 line)) else None.

Definition read_response (c : command) (s : bytes) : option (Z * bytes * bytes) :=
  '(lines, rest) ← take_lines (length s) s;
  n ← head (omap length_field lines);
  let code := digits_value (fst (span_digits (zdrop 9 (hd [] lines)))) in
  match c with
  | HEAD => Some (code, [], rest)
  | GET => if zlen rest <? n then None else Some (code, ztake n rest, zdrop n rest)
  end.

Fixpoint read_responses (cs : list command) (s : bytes) : option (list (Z * bytes) * bytes) :=
  match cs with
  | [] => Some ([], s)
  | c :: cs =>
      '(code, body, rest) ← read_response c s;
      '(rs, rest) ← read_responses cs rest;
      Some ((code, body) :: rs, rest)
  end.

(** Text for one header line *)
Definition plain (s : bytes) : Prop := 13 ∉ s.

Record response_ok (r : response) : Prop := {
  ro_code : 0 <= rs_code r;
  ro_reason : plain (rs_reason r);
  ro_fields : Forall (fun nv => fst nv <> [] /\ plain (fst nv) /\ plain (snd nv)) (rs_fields r);
  ro_length : head (omap (fun nv => length_field (fst nv ++ lit ": " ++ snd nv)) (rs_fields r)) = Some (zlen (rs_body r))
}.

Lemma plain_app s t : plain (s ++ t) <-> plain s /\ plain t.
Proof. unfold plain. rewrite not_elem_of_app. done. Qed.

Lemma plain_digits s : forallb is_digit s = true -> plain s.
Proof.
  intros Hs Hin. apply list_elem_of_In in Hin. apply (proj1 (forallb_forall _ _) Hs) in Hin. done.
Qed.

Lemma plain_decimal n : 0 <= n -> plain (decimal n).
Proof. intros Hn. apply plain_digits. by destruct (decimal_spec n Hn). Qed.

Lemma take_line_plain l rest : plain l -> take_line (l ++ CRLF ++ rest) = Some (l, rest).
Proof.
  induction l as [|c l IH]; intros Hl; [done|]. apply not_elem_of_cons in Hl as [Hc Hl]. cbn [app take_line].
  rewrite (proj2 (Z.eqb_neq c 13)) by congruence. by rewrite IH.
Qed.

Definition lines_bytes (ls : list bytes) : bytes := concat (map (fun l => l ++ CRLF) ls) ++ CRLF.

Lemma take_lines_plain ls fuel rest : Forall (fun l => l <> [] /\ plain l) ls -> (length ls < fuel)%nat ->
  take_lines fuel (lines_bytes ls ++ rest) = Some (ls, rest).
Proof.
  revert fuel. induction ls as [|l ls IH]; intros fuel Hl Hf; (destruct fuel as [|fuel]; [lia|]); cbn [take_lines].
  - by change (lines_bytes [] ++ rest) with (CRLF ++ rest).
  - apply Forall_cons in Hl as [[Hne Hp] Hl]. unfold lines_bytes. cbn [map concat]. rewrite <- !app_assoc.
    rewrite take_line_plain by done. cbn [length] in Hf. specialize (IH fuel Hl ltac:(lia)).
    unfold lines_bytes in IH. rewrite <- app_assoc in IH. cbn [mbind option_bind]. destruct l; [done|]. by rewrite IH.
Qed.

Definition header_lines (code : Z) (reason : bytes) (fields : list (bytes * bytes)) : list bytes :=
  (lit "HTTP/1.1 " ++ decimal code ++ 32 :: reason) :: map (fun nv => fst nv ++ lit ": " ++ snd nv) fields.

Lemma header_block_lines code reason fields : header_block code reason fields = lines_bytes (header_lines code reason fields).
Proof.
  unfold header_block, lines_bytes, header_lines, status_line. cbn [map concat]. rewrite <- !app_assoc. cbn [app].
  rewrite <- !app_assoc. do 4 f_equal. unfold field. rewrite map_map. do 2 f_equal. f_equal.
  apply map_ext. intros [n v]. cbn. by rewrite <- !app_assoc.
Qed.

Lemma length_lines_bytes ls : (length ls < length (lines_bytes ls))%nat.
Proof.
  unfold lines_bytes. induction ls as [|l ls IH]; [cbn; lia|]. cbn [map concat length].
  rewrite !length_app in *. cbn [length CRLF] in *. lia.
Qed.

Lemma head_omap_map {A B C} (f : B -> option C) (g : A -> B) l : omap f (map g l) = omap (fun a => f (g a)) l.
Proof. induction l as [|a l IH]; [done|]. cbn. by rewrite IH. Qed.

Lemma header_length_field r date : response_ok r ->
  head (omap length_field (header_lines (rs_code r) (rs_reason r) ((lit "Date", date) :: rs_fields r)))
  = Some (zlen (rs_body r)).
Proof.
  intros [_ _ _ Hl]. rewrite <- Hl. unfold header_lines. cbn [map omap list_omap].
  replace (length_field (lit "HTTP/1.1 " ++ _)) with (@None Z) by done.
  replace (length_field (fst (lit "Date", date) ++ _)) with (@None Z) by done.
  f_equal. apply head_omap_map.
Qed.

Lemma header_code code reason : 0 <= code ->
  digits_value (fst (span_digits (zdrop 9 (lit "HTTP/1.1 " ++ decimal code ++ 32 :: reason)))) = code.
Proof.
  intros Hc. destruct (decimal_spec code Hc) as (H1 & _ & H3).
  rewrite zdrop_app_length by done. by rewrite span_digits_app by done.
Qed.

Lemma header_lines_plain r date : plain date -> response_ok r ->
  Forall (fun l => l <> [] /\ plain l) (header_lines (rs_code r) (rs_reason r) ((lit "Date", date) :: rs_fields r)).
Proof.
  intros Hdate [Hc Hr Hf _]. unfold header_lines. apply Forall_cons. split.
  - split; [done|]. rewrite !plain_app. split; [by apply (bool_decide_unpack _)|].
    split; [by apply plain_decimal|]. by apply not_elem_of_cons.
  - apply Forall_map, Forall_cons. cbn [fst snd]. split.
    + split; [done|]. rewrite !plain_app. split_and!; [by apply (bool_decide_unpack _)|by apply (bool_decide_unpack _)|done].
    + eapply Forall_impl; [exact Hf|]. intros [n v] (Hn & Hpn & Hpv). cbn [fst snd] in *.
      split; [by destruct n|]. rewrite !plain_app. split_and!; [done|by apply (bool_decide_unpack _)|done].
Qed.

(** A rendered response is read as its code and its body, whatever follows it. *)
Lemma read_rendered date c r rest : plain date -> response_ok r ->
  read_response c (rendered date c r ++ rest)
  = Some (rs_code r, match c with GET => rs_body r | HEAD => [] end, rest).
Proof.
  intros Hdate Hr. unfold rendered, read_response. rewrite <- app_assoc, header_block_lines.
  pose proof (header_length_field r date Hr) as Hl. pose proof (header_lines_plain r date Hdate Hr) as Hp.
  pose proof (header_code (rs_code r) (rs_reason r) (ro_code r Hr)) as Hc.
  set (ls := header_lines _ _ _) in *.
  rewrite take_lines_plain; [|done|rewrite length_app; pose proof (length_lines_bytes ls); lia].
  cbn [mbind option_bind]. rewrite Hl. cbn [mbind option_bind]. unfold ls, header_lines. cbn [hd]. rewrite Hc.
  destruct c; [|done]. rewrite zlen_app. destruct (Z.ltb_spec (zlen (rs_body r) + zlen rest) (zlen (rs_body r))).
  - pose proof (zlen_nonneg rest). lia.
  - by rewrite ztake_app_length, zdrop_app_length.
Qed.

Lemma read_all_rendered date rs rest : plain date -> Forall (fun cr => response_ok (snd cr)) rs ->
  read_responses (map fst rs) (concat (map (fun cr => rendered date (fst cr) (snd cr)) rs) ++ rest)
  = Some (map (fun cr : command * response => (rs_code (snd cr), match fst cr with GET => rs_body (snd cr) | HEAD => [] end)) rs, rest).
Proof.
  intros Hdate. induction 1 as [|[c r] rs Hr _ IH]; [done|]. cbn [map concat read_responses fst snd] in *.
  rewrite <- app_assoc, read_rendered by done. cbn [mbind option_bind]. by rewrite IH.
Qed.

(** ** What is answered *)

Lemma span_digits_digits s a b : span_digits s = (a, b) -> forallb is_digit a = true.
Proof.
  revert a b. induction s as [|c s IH]; intros a b Hs; cbn in Hs; [by injection Hs as <- _|].
  destruct (is_digit c) eqn:Hc; [|by injection Hs as <- _]. destruct (span_digits s) as [a' b'].
  injection Hs as <- _. cbn. rewrite Hc. by apply (IH a' b').
Qed.

Lemma digits_value_nonneg s : forallb is_digit s = true -> 0 <= digits_value s.
Proof.
  unfold digits_value. assert (G : forall acc, 0 <= acc -> forallb is_digit s = true ->
    0 <= foldl (fun n c => 10 * n + (c - 48)) acc s); [|by apply G].
  induction s as [|c s IH]; intros acc Ha Hs; [done|]. cbn in *. apply andb_true_iff in Hs as [Hc Hs].
  apply IH; [|done]. unfold is_digit in Hc. apply andb_true_iff in Hc as [H1%Z.leb_le _]. lia.
Qed.

Lemma RANGE_RE_digits s a b : RANGE_RE s = Some (a, b) -> forallb is_digit a = true /\ forallb is_digit b = true.
Proof.
  unfold RANGE_RE. destruct (startswith _ _); [|done]. destruct (span_digits (zdrop 6 s)) as [x r] eqn:E1.
  destruct r as [|c r]; [done|]. destruct (Z.eq_dec c 45) as [->|Hc].
  - destruct (span_digits r) as [y []] eqn:E2; [|done]. intros [= <- <-].
    split; by eapply span_digits_digits.
  - intros H. exfalso. repeat case_match; try done; lia.
Qed.

(** A range that is accepted lies inside the file. *)
Lemma parse_range_bounds header total a b : parse_range header total = Ok (Some (a, b)) -> 0 <= a <= b /\ b < total.
Proof.
  unfold parse_range. destruct header as [[|c h]|]; [done| |done].
  destruct (RANGE_RE _) as [[x y]|] eqn:E; [|done]. apply RANGE_RE_digits in E as [Hx Hy].
  destruct x as [|d x]; [done|]. intros H. bind_inv H. bind_inv H.
  assert (0 <= a0) by (unfold int_of in E; destruct (_ <? _) in E; [done|apply Ok_inj in E as <-; by apply digits_value_nonneg]).
  destruct (Z.ltb_spec a1 a0); [done|]. destruct (Z.leb_spec total a0); [done|]. destruct (Z.leb_spec total a1); [done|].
  injection H as <- <-. lia.
Qed.

Lemma length_field_value n : 0 <= n -> length_field (lit "Content-Length" ++ lit ": " ++ decimal n) = Some n.
Proof.
  intros Hn. change (lit "Content-Length" ++ lit ": " ++ decimal n) with (lit "Content-Length: " ++ decimal n).
  unfold length_field. rewrite startswith_app, zdrop_app_length by done. f_equal. by apply decimal_spec.
Qed.

Lemma length_field_type v : length_field (lit "Content-Type" ++ lit ": " ++ v) = None.
Proof. done. Qed.
Lemma length_field_range v : length_field (lit "Content-Range" ++ lit ": " ++ v) = None.
Proof. done. Qed.

Lemma plain_content_range a b total : 0 <= a -> 0 <= b -> 0 <= total -> plain (content_range a b total).
Proof.
  intros Ha Hb Ht. unfold content_range. rewrite !plain_app.
  split_and!; first [by apply plain_decimal|by apply (bool_decide_unpack _)].
Qed.

(** The fields of a response: constants, numbers, a range *)
Ltac fields_ok :=
  cbn [rs_fields rs_body short csv_answer whole_answer range_answer];
  repeat (apply Forall_cons; split;
    [split; [done|split; [by apply (bool_decide_unpack _)|
       first [by apply (bool_decide_unpack _)|apply plain_decimal; lia|apply plain_content_range; lia]]]|]);
  by apply Forall_nil_2.

Ltac length_ok :=
  cbn [rs_fields rs_body short csv_answer whole_answer range_answer omap list_omap fst snd];
  rewrite ?length_field_type, ?length_field_range; rewrite length_field_value by lia; cbn [head]; f_equal.

Lemma short_ok code message : 0 <= code -> plain message -> response_ok (short code message).
Proof.
  intros Hc Hm. pose proof (zlen_nonneg (message ++ [10])). split; [done|done|fields_ok|by length_ok].
Qed.

Lemma csv_answer_ok payload : response_ok (csv_answer payload).
Proof.
  pose proof (zlen_nonneg payload). split; [done|by apply (bool_decide_unpack _)|fields_ok|by length_ok].
Qed.

Lemma whole_answer_ok total content : total = zlen content -> response_ok (whole_answer total content).
Proof.
  intros ->. pose proof (zlen_nonneg content). split; [done|by apply (bool_decide_unpack _)|fields_ok|by length_ok].
Qed.

Lemma range_answer_ok a b total content : 0 <= a <= b -> b < total -> total = zlen content ->
  response_ok (range_answer a b total content).
Proof.
  intros Ha Hb ->. split; [done|by apply (bool_decide_unpack _)|fields_ok|]. length_ok. rewrite zlen_slice by lia. lia.
Qed.

Section answers.
Context `{Unicode} (cfg : settings) (i : index) (content : text -> bytes).

(** The sizes in the index are those of the files. *)
Definition sizes_agree : Prop := forall name e, lookup cfg name i = Some e -> size e = zlen (content (Catalogue.path e)).

Lemma answer_ok r rsp : sizes_agree -> answer cfg i content r = Some rsp -> response_ok rsp.
Proof.
  intros Hs. unfold answer. destruct (normalised_path _) as [[p|]|]; [| |done].
  - destruct (is_games_csv p); [intros [= <-]; apply csv_answer_ok|].
    destruct (lookup cfg p i) as [e|] eqn:El.
    + apply Hs in El. destruct (parse_range _ _) as [[[a b]|]|[]] eqn:Er; try done; intros [= <-].
      * apply parse_range_bounds in Er as [Hab Hb]. by apply range_answer_ok.
      * by apply whole_answer_ok.
      * by apply short_ok; [|by apply (bool_decide_unpack _)].
    + intros [= <-]. by apply short_ok; [|by apply (bool_decide_unpack _)].
  - intros [= <-]. by apply short_ok; [|by apply (bool_decide_unpack _)].
Qed.

(** *** The header block fits the console's buffer *)

Definition header_of (date : bytes) (rsp : response) : bytes :=
  header_block (rs_code rsp) (rs_reason rsp) ((lit "Date", date) :: rs_fields rsp).

Lemma zlen_field n v : zlen (field n v) = zlen n + zlen v + 4.
Proof. unfold field. rewrite !zlen_app. change (zlen (lit ": ")) with 2. change (zlen CRLF) with 2. lia. Qed.

Lemma zlen_header_block code reason fields :
  zlen (header_block code reason fields)
  = 14 + zlen (decimal code) + zlen reason + foldr (fun nv n => zlen (fst nv) + zlen (snd nv) + 4 + n) 0 fields.
Proof.
  unfold header_block, status_line. rewrite !zlen_app, zlen_cons, zlen_app.
  change (zlen (lit "HTTP/1.1 ")) with 9. change (zlen CRLF) with 2.
  assert (zlen (concat (map (fun nv => field (fst nv) (snd nv)) fields))
          = foldr (fun nv n => zlen (fst nv) + zlen (snd nv) + 4 + n) 0 fields) as ->; [|lia].
  induction fields as [|[n v] fields IH]; [done|]. cbn [map concat foldr fst snd].
  rewrite zlen_app, zlen_field, IH. lia.
Qed.

Definition HEADER_MAX : Z := 512.

(** Evaluates the lengths of constant texts. *)
Ltac zlen_consts :=
  repeat match goal with
  | |- context [zlen (lit ?s)] => let n := eval vm_compute in (zlen (lit s)) in change (zlen (lit s)) with n
  | |- context [zlen (decimal (Zpos ?p))] =>
      let n := eval vm_compute in (zlen (decimal (Zpos p))) in change (zlen (decimal (Zpos p))) with n
  end.

Lemma short_header code message date : zlen date = 29 -> 0 <= code < 1000 -> zlen message < 100 ->
  zlen (header_of date (short code message)) <= HEADER_MAX.
Proof.
  intros Hdate Hc Hm. unfold header_of, HEADER_MAX. rewrite zlen_header_block.
  cbn [short rs_code rs_reason rs_fields foldr fst snd]. rewrite zlen_app, zlen_cons, zlen_nil, Hdate.
  pose proof (zlen_nonneg message). pose proof (decimal_length code 3 ltac:(lia) ltac:(lia)).
  pose proof (decimal_length (zlen message + (1 + 0)) 3 ltac:(lia) ltac:(lia)). zlen_consts. lia.
Qed.

(** Every header block fits the 512 bytes the driver reads it into, for files and lists
    below an exabyte and a date of the length HTTP gives it. *)
Theorem header_fits r rsp date :
  sizes_agree -> (forall name e, lookup cfg name i = Some e -> size e < 10 ^ 18) -> zlen (csv i) < 10 ^ 18 ->
  zlen date = 29 -> answer cfg i content r = Some rsp -> zlen (header_of date rsp) <= HEADER_MAX.
Proof.
  intros Hs Hmax Hcsv Hdate Ha.
  assert (D : forall n, 0 <= n < 10 ^ 18 -> zlen (decimal n) <= 18) by (intros; by apply decimal_length).
  unfold answer in Ha. destruct (normalised_path _) as [[p|]|]; [|injection Ha as <-; by apply short_header|done].
  destruct (is_games_csv p).
  { injection Ha as <-. unfold header_of, HEADER_MAX. rewrite zlen_header_block. pose proof (zlen_nonneg (csv i)).
    cbn [csv_answer rs_code rs_reason rs_fields foldr fst snd]. specialize (D (zlen (csv i)) ltac:(lia)).
    zlen_consts. lia. }
  destruct (lookup cfg p i) as [e|] eqn:El; [|injection Ha as <-; by apply short_header].
  pose proof (Hs _ _ El) as Hz. pose proof (Hmax _ _ El). pose proof (zlen_nonneg (content (Catalogue.path e))).
  destruct (parse_range _ _) as [[[a b]|]|[]] eqn:Er; try done; injection Ha as <-; [| |by apply short_header];
    unfold header_of, HEADER_MAX; rewrite zlen_header_block.
  - apply parse_range_bounds in Er as [Hab Hb].
    cbn [range_answer rs_code rs_reason rs_fields foldr fst snd]. unfold content_range. rewrite !zlen_app.
    pose proof (D a ltac:(lia)). pose proof (D b ltac:(lia)). pose proof (D (size e) ltac:(lia)).
    pose proof (D (b - a + 1) ltac:(lia)). unfold CONTENT_TYPE. zlen_consts. lia.
  - cbn [whole_answer rs_code rs_reason rs_fields foldr fst snd]. pose proof (D (size e) ltac:(lia)).
    unfold CONTENT_TYPE. zlen_consts. lia.
Qed.
End answers.

(** ** From a row of the list to its bytes *)

Lemma partition_on_absent c s : c ∉ s -> partition_on c s = (s, []).
Proof.
  induction s as [|d s IH]; [done|]. intros [Hd Hs]%not_elem_of_cons. cbn.
  rewrite (proj2 (Z.eqb_neq d c)) by congruence. by rewrite IH.
Qed.

Lemma uri_char_absent c s : uri_char c = false -> forallb uri_char s = true -> c ∉ s.
Proof. intros Hc Hs Hin. apply list_elem_of_In in Hin. apply (proj1 (forallb_forall _ _) Hs) in Hin. congruence. Qed.

Lemma no_nul s : has_control s = false -> existsb (Z.eqb 0) (SLASH :: s) = false.
Proof.
  intros Hc. cbn. destruct (existsb (Z.eqb 0) s) eqn:E; [|done]. apply existsb_exists in E as (c & Hin & Hz%Z.eqb_eq).
  subst c. assert (has_control s = true); [|congruence]. apply existsb_exists. by exists 0.
Qed.

(** The console's URL of a listed path names that path. *)
Lemma normalised_listed id title p uri : row_valid id title p -> riptopl_encoded_path p = Ok uri ->
  normalised_path (SLASH :: uri) = Ok (Some p).
Proof.
  intros Hv He. destruct (fv_size _ _ (rv_path _ _ _ Hv)) as (data & Hd & _). apply utf8_encode_scalar in Hd.
  rewrite riptopl_encoded_path_ok in He by done. apply Ok_inj in He as <-.
  assert (Hu : forallb uri_char (SLASH :: concat (map uri_units p)) = true).
  { cbn [forallb]. by rewrite uri_path_chars. }
  unfold normalised_path. rewrite (partition_on_absent 63) by by eapply uri_char_absent.
  cbn [fst]. rewrite (partition_on_absent 35) by by eapply uri_char_absent. cbn [fst].
  change (SLASH :: concat (map uri_units p)) with ([SLASH] ++ concat (map uri_units p)).
  rewrite unquote_uri by done. change ([SLASH] ++ p) with (SLASH :: p).
  rewrite no_nul by apply (fv_control _ _ (rv_path _ _ _ Hv)).
  by rewrite (proj2 (clean_path_good p (rv_segments _ _ _ Hv))).
Qed.

Lemma lower_app s t : lower (s ++ t) = lower s ++ lower t.
Proof. apply map_app. Qed.

Lemma basename_suffix p : exists pre, p = pre ++ basename p.
Proof.
  unfold basename, path_split. exists (ztake (rfind SLASH p + 1) p).
  symmetry. destruct (forallb _ _); apply ztake_zdrop.
Qed.

(** No listed path is taken for the list itself. *)
Lemma listed_not_list id title p : row_valid id title p -> is_games_csv p = false.
Proof.
  intros Hv. unfold is_games_csv. destruct (str_eqb_spec (lower (basename p)) GAMES_CSV) as [E|]; [|done].
  pose proof (rv_extension _ _ _ Hv) as Hx. destruct (basename_suffix p) as [pre Hp].
  rewrite Hp, lower_app, E in Hx. cbn [existsb] in Hx. unfold endswith in Hx. by rewrite rev_app_distr in Hx.
Qed.

Lemma strip_leading_no P c s : P c = false -> strip_leading P (c :: s) = c :: s.
Proof. intros Hc. cbn. by rewrite Hc. Qed.

Definition range_header (a b : Z) : text := lit "bytes=" ++ decimal a ++ 45 :: decimal b.

Lemma digit_not_space c : is_digit c = true -> is_space c = false.
Proof. unfold is_digit, is_space, ChdCue.is_space. rewrite andb_true_iff, !Z.leb_le. intros. zbool; done. Qed.

Lemma strip_ends P c s d : P c = false -> P d = false -> strip P (c :: s ++ [d]) = c :: s ++ [d].
Proof.
  intros Hc Hd. unfold strip. rewrite (strip_leading_no P c) by done.
  change (c :: s ++ [d]) with ((c :: s) ++ [d]). rewrite rev_app_distr. cbn [rev app].
  rewrite (strip_leading_no P d) by done. cbn [rev]. by rewrite rev_app_distr, rev_involutive.
Qed.

Lemma strip_range a b : 0 <= b -> strip is_space (range_header a b) = range_header a b.
Proof.
  intros Hb. destruct (decimal_spec b Hb) as (Hd & Hne & _). unfold range_header.
  destruct (exists_last Hne) as (ds & d & E). rewrite E in *.
  rewrite forallb_app in Hd. apply andb_true_iff in Hd as [_ Hd]. cbn in Hd. rewrite andb_true_r in Hd.
  change (lit "bytes=") with (98 :: lit "ytes="). cbn [app].
  rewrite (app_comm_cons ds [d] 45), (app_assoc (decimal a)), app_assoc.
  by apply strip_ends, digit_not_space.
Qed.

Lemma int_of_decimal n k : 0 <= n < 10 ^ k -> 1 <= k <= INT_MAX_STR_DIGITS -> int_of (decimal n) = Ok n.
Proof.
  intros Hn Hk. pose proof (decimal_length n k Hn ltac:(lia)). unfold int_of.
  rewrite (proj2 (Z.ltb_ge _ _)) by lia. f_equal. apply decimal_spec; lia.
Qed.

(** A range inside the file is read as the console wrote it. *)
Lemma parse_range_header a b total : 0 <= a <= b -> b < total -> total < 10 ^ 18 ->
  parse_range (Some (range_header a b)) total = Ok (Some (a, b)).
Proof.
  intros Ha Hb Ht. unfold parse_range.
  destruct (range_header a b) as [|x h] eqn:Eh; [by apply (f_equal (@length Z)) in Eh|].
  rewrite <- Eh. clear Eh. rewrite strip_range by lia.
  destruct (decimal_spec a) as (Hda & Hna & _); [lia|]. destruct (decimal_spec b) as (Hdb & Hnb & _); [lia|].
  unfold RANGE_RE, range_header. rewrite startswith_app, zdrop_app_length by done.
  rewrite span_digits_app by done. rewrite span_digits_all by done.
  destruct (decimal a) as [|c cs] eqn:Ea; [done|]. rewrite <- Ea.
  rewrite (int_of_decimal a 18) by (unfold INT_MAX_STR_DIGITS; lia). cbn [mbind result_bind].
  destruct (decimal b) as [|d ds] eqn:Eb; [done|]. rewrite <- Eb.
  rewrite (int_of_decimal b 18) by (unfold INT_MAX_STR_DIGITS; lia). cbn [mbind result_bind].
  by rewrite (proj2 (Z.ltb_ge _ _)), !(proj2 (Z.leb_gt _ _)) by lia.
Qed.

Section rows.
Context {Os : Type} `{HostOs Os} `{Codecs} `{Unicode} (cfg : settings).

(** What the console asks for: bytes [a] to [b] of the row at [uri] *)
Definition row_request (c : command) (uri : text) (a b : Z) (close : bool) : request :=
  {| rq_command := c; rq_path := SLASH :: uri; rq_range := Some (range_header a b); rq_http09 := false; rq_close := close |}.

(** C15. After a refresh of the path-aware index that found changes, the list reads as rows, and
    for every row the path leads to its entry, and the console's URL of the path, with any
    range inside the file, is answered 206 with exactly the bytes of that range. *)
Theorem listed_row_answered force i o i' content :
  path_aware cfg = true -> refresh cfg force i o = Ok i' -> i' <> i ->
  exists es txt, utf8_decode (csv i') = Ok txt /\ read_rows (length txt) [] txt = Some (map row_fields es) /\
    forall e, e ∈ es -> exists uri, riptopl_encoded_path (rel_path e) = Ok uri /\
      lookup cfg (rel_path e) i' = Some e /\
      forall c a b close, 0 <= a <= b -> b < size e -> size e < 10 ^ 18 ->
        answer cfg i' content (row_request c uri a b close)
        = Some (range_answer a b (size e) (content (Catalogue.path e))).
Proof.
  intros Hp Hr Hne. destruct (refresh_serves_rows cfg force i o i' Hp Hr) as [|(es & txt & Ht & Hrows & Hrow & _)]; [done|].
  exists es, txt. split_and!; [done|done|]. intros e He. destruct (Hrow e He) as [Hv Hl].
  destruct (rv_uri _ _ _ Hv) as (uri & Hu & _). exists uri. split_and!; [done|done|].
  intros c a b close Ha Hb Hz. unfold answer, row_request. cbn [rq_path rq_range].
  rewrite (normalised_listed _ _ _ _ Hv Hu), (listed_not_list _ _ _ Hv), Hl.
  by rewrite parse_range_header.
Qed.
End rows.
