(* ===== verification/HttpServeFacts.v ===== *)
(** * The HTTP handler implements the reference answer

    [runs m w bs Q]: from [w] the handler's code [m] returns, having sent exactly [bytes].
    The host is any [StreamHost], on which an open file reads on from where it was sought;
    compressed images are read through [CompressedFacts]. *)

From S2P Require Import Prelude PyStr PyText PathNames SessionStats Compressed CompressedFacts HostOs ChdCue Handlers Catalogue CatalogueFacts Http HttpFacts.
Import Base.

(** ** The host *)

(** What serving needs of the host: a file opened for reading is at position 0, a seek
    moves it, a read returns the bytes from its position, as many as there are, and moves
    it past them; none of this changes what the paths lead to. *)
Class StreamHost (Os : Type) `{!HostOs Os} := {
  sh_file : Os -> str -> option bytes;
  sh_at : Os -> Z -> str -> Z -> Prop;
  sh_open : forall o p c, sh_file o p = Some c ->
    exists f o', os_open p m_rb o = (Ok f, o') /\ sh_at o' f p 0 /\
      (forall q, sh_file o' q = sh_file o q) /\ (forall q, os_open_image q o' = os_open_image q o);
  sh_seek : forall o f p i off, sh_at o f p i -> 0 <= off ->
    exists r o', f_seek f off 0 o = (Ok r, o') /\ sh_at o' f p off /\
      (forall q, sh_file o' q = sh_file o q) /\ (forall q, os_open_image q o' = os_open_image q o);
  sh_read : forall o f p i c n, sh_at o f p i -> sh_file o p = Some c -> 0 <= i -> 0 <= n ->
    exists o', f_read f n o = (Ok (slice c i (i + n)), o') /\ sh_at o' f p (i + zlen (slice c i (i + n))) /\
      (forall q, sh_file o' q = sh_file o q) /\ (forall q, os_open_image q o' = os_open_image q o);
  sh_close : forall o f p i, sh_at o f p i ->
    exists o', f_close f o = (Ok tt, o') /\
      (forall q, sh_file o' q = sh_file o q) /\ (forall q, os_open_image q o' = os_open_image q o)
}.

Section serve.
Context {Os : Type} `{StreamHost Os} `{Codecs} `{Unicode} (cfg : settings) (http_date : Z -> bytes).
Implicit Types w : web Os.

Definition same_files (o o' : Os) : Prop :=
  (forall q, sh_file o' q = sh_file o q) /\ (forall q, os_open_image q o' = os_open_image q o).

(** A socket that may stop early or refuse [sendfile], but does not fail *)
Definition working (s : list sock_event) : Prop :=
  Forall (fun ev => match ev with Fails _ _ => False | _ => True end) s.

(** From [w] to [w'] the code sent [bs] and left the rest of the connection alone. *)
Record sends (bs : bytes) (w w' : web Os) : Prop := {
  sn_out : out w' = out w ++ bs;
  sn_files : same_files (host w) (host w');
  sn_script : working (script w) -> working (script w');
  sn_idx : idx w' = idx w;
  sn_close : close_connection w' = close_connection w;
  sn_clock : clock w' = clock w
}.

Lemma sends_refl w : sends [] w w.
Proof. split; try done. by rewrite app_nil_r. Qed.

Lemma sends_trans a b w w1 w2 : sends a w w1 -> sends b w1 w2 -> sends (a ++ b) w w2.
Proof.
  intros [O1 [F1 I1] S1 X1 C1 T1] [O2 [F2 I2] S2 X2 C2 T2]. split.
  - by rewrite O2, O1, app_assoc.
  - split; intros q; [by rewrite F2, F1|by rewrite I2, I1].
  - auto.
  - congruence.
  - congruence.
  - congruence.
Qed.

Definition runs {A} (m : M (web Os) A) (w : web Os) (bs : bytes) (Q : A -> web Os -> Prop) : Prop :=
  exists a w', m w = (Ok a, w') /\ sends bs w w' /\ Q a w'.

Lemma runs_ret {A} (a : A) w (Q : A -> web Os -> Prop) : Q a w -> runs (mret a) w [] Q.
Proof. intros HQ. exists a, w. split_and!; [done|apply sends_refl|done]. Qed.

Lemma runs_bind {A B} (m : M (web Os) A) (k : A -> M (web Os) B) w b1 b2 Q R :
  runs m w b1 Q -> (forall a w1, Q a w1 -> sends b1 w w1 -> runs (k a) w1 b2 R) -> runs (m ≫= k) w (b1 ++ b2) R.
Proof.
  intros (a & w1 & E & S1 & HQ) Hk. destruct (Hk a w1 HQ S1) as (b & w2 & E2 & S2 & HR).
  exists b, w2. split_and!; [|by eapply sends_trans|done]. unfold mbind, M_bind. by rewrite E.
Qed.

(** The same when the first or the second part sends nothing *)
Lemma runs_quiet_bind {A B} (m : M (web Os) A) (k : A -> M (web Os) B) w bs Q R :
  runs m w [] Q -> (forall a w1, Q a w1 -> sends [] w w1 -> runs (k a) w1 bs R) -> runs (m ≫= k) w bs R.
Proof. intros Hm Hk. exact (runs_bind m k w [] bs Q R Hm Hk). Qed.

Lemma runs_bind_quiet {A B} (m : M (web Os) A) (k : A -> M (web Os) B) w bs Q R :
  runs m w bs Q -> (forall a w1, Q a w1 -> sends bs w w1 -> runs (k a) w1 [] R) -> runs (m ≫= k) w bs R.
Proof. intros Hm Hk. rewrite <- (app_nil_r bs). exact (runs_bind m k w bs [] Q R Hm Hk). Qed.

Lemma runs_weaken {A} (m : M (web Os) A) w bs (Q R : A -> web Os -> Prop) :
  runs m w bs Q -> (forall a w', Q a w' -> sends bs w w' -> R a w') -> runs m w bs R.
Proof. intros (a & w' & E & S & HQ) HR. exists a, w'. auto. Qed.

Lemma runs_mget {A} (f : web Os -> A) w : runs (mget f) w [] (fun a w' => a = f w /\ w' = w).
Proof. exists (f w), w. split_and!; [done|apply sends_refl|done|done]. Qed.

(** A change to the cached handle and the counters only *)
Lemma sends_aside w w' :
  out w' = out w -> host w' = host w -> script w' = script w -> idx w' = idx w ->
  close_connection w' = close_connection w -> clock w' = clock w -> sends [] w w'.
Proof. intros O E S X C T. split; [by rewrite app_nil_r|by rewrite E|by rewrite S|done|done|done]. Qed.

Lemma runs_stat k n w : runs (stat k n) w [] (fun _ w' => cached w' = cached w /\ host w' = host w).
Proof. eexists _, _. split_and!; [reflexivity|by apply sends_aside|done|done]. Qed.

Lemma runs_set_cached p h w :
  runs (set_cached p h) w [] (fun _ w' => cached w' = Some (p, h) /\ host w' = host w).
Proof. eexists _, _. split_and!; [reflexivity|by apply sends_aside|done|done]. Qed.

Lemma runs_write bs w : working (script w) -> runs (write bs) w bs (fun _ w' => cached w' = cached w /\ host w' = host w).
Proof.
  intros Hs. exists tt, (w <| script ::= tail |> <| out ::= fun o => o ++ bs |>).
  split; [|split_and!; [|done|done]].
  - unfold write, next_event, mbind, M_bind. destruct (script w) as [|[n|n e|] s]; try done.
    by apply Forall_cons in Hs as [].
  - split; try done. cbn. intros Hw. destruct (script w); [done|]. by apply Forall_cons in Hw as [_ ?].
Qed.

(** ** Reading an open image *)

(** A reader over a compressed image whose blocks all decode, with the bytes of the image *)
Definition image_ok (q : str) (k : Formats.codec) (f : hfile) (r : Base.wrapper) (c : bytes) : Prop :=
  exists r0 blk,
    Decoder (decompress_of q k f) blk r0 /\ geometry r0 /\ Base.strict r0 = false /\
    (forall r' n, same_image r0 r' -> 0 <= n < Base.num_blocks r0 -> exists d, decompress_of q k f r' n = Ok d) /\
    reader_inv blk r0 r /\ c = stream (image_byte r0 blk) 0 (Base.uncompressed_size r0).

(** An open image with content [c], at position [i] *)
Definition reads_at (o : Os) (h : handle) (i : Z) (c : bytes) : Prop :=
  match h with
  | H_raw f => exists q, sh_at o f q i /\ sh_file o q = Some c
  | H_image q k f r => image_ok q k f r c /\ Base.pos r = i
  end.

(** The same open image after an operation *)
Definition same_handle (h h' : handle) : Prop :=
  match h with
  | H_raw f => h' = H_raw f
  | H_image q k f _ => exists r, h' = H_image q k f r
  end.

Definition is_raw (h : handle) : bool := match h with H_raw _ => true | H_image _ _ _ _ => false end.

Lemma image_seek q k f r c off : image_ok q k f r c -> 0 <= off <= zlen c ->
  exists r', Base.seek off 0 r = (Ok off, r') /\ image_ok q k f r' c /\ Base.pos r' = off.
Proof.
  intros (r0 & blk & HD & G & Hst & Hdec & (Hsame & Hwf & Hexp) & ->) Hoff.
  rewrite zlen_stream in Hoff. pose proof (geo_size _ G).
  destruct (same_image_geometry _ _ Hsame) as (Hu & _).
  exists (r <| Base.pos := off |>). assert (Hclamp : Z.max 0 (Z.min off (Base.uncompressed_size r)) = off) by lia.
  split_and!; [unfold Base.seek; cbn [Z.eqb]; by rewrite Hclamp| |done].
  exists r0, blk. split_and!; try done. split_and!; [|by destruct Hwf|done].
  etrans; [exact Hsame|]. apply (same_image_pos (fun _ => off)).
Qed.

Lemma image_read q k f r c i n : image_ok q k f r c -> Base.pos r = i -> 0 <= i -> 0 <= n -> i + n <= zlen c ->
  exists r', Base.read (decompress_of q k f) n r = (Ok (slice c i (i + n)), r') /\ image_ok q k f r' c /\ Base.pos r' = i + n.
Proof.
  intros (r0 & blk & HD & G & Hst & Hdec & Hinv & ->) Hp Hi Hn Hz. rewrite zlen_stream in Hz. pose proof (geo_size _ G).
  pose proof (read_correct (decompress_of q k f) blk r0 n r G Hinv ltac:(lia)) as Hr.
  destruct (Base.read (decompress_of q k f) n r) as [[data|e] r'].
  - destruct Hr as (-> & Hp' & Hinv'). exists r'. rewrite Hp in *.
    assert (Z.max 0 (Z.min n (Base.uncompressed_size r0 - i)) = n) as E by lia. rewrite E in *.
    split_and!; [by rewrite slice_of_stream, Z.add_0_l by lia| |done]. exists r0, blk. by split_and!.
  - exfalso. destruct Hr as [_ [Hs|(r2 & m & Hsame & Hm & He)]].
    + destruct (same_image_geometry _ _ (proj1 Hinv)) as (_ & _ & _ & _ & Hs'). congruence.
    + destruct (Hdec r2 m Hsame Hm) as [d Hd]. congruence.
Qed.

Lemma runs_on_host {A} (m : M Os A) (a : A) w o' :
  m (host w) = (Ok a, o') -> same_files (host w) o' ->
  runs (on_host m) w [] (fun x w' => x = a /\ host w' = o' /\ cached w' = cached w).
Proof.
  intros E Hs. exists a, (w <| host := o' |>). split_and!; try done.
  - unfold on_host. by rewrite E.
  - split; try done. by rewrite app_nil_r.
Qed.

(** A handle with its path in the cache, open at [i] *)
Definition open_at (p : text) (h : handle) (i : Z) (c : bytes) w : Prop :=
  cached w = Some (p, h) /\ reads_at (host w) h i c.

Lemma runs_seek p h i c off w : open_at p h i c w -> 0 <= off <= zlen c ->
  runs (handle_seek p h off) w [] (fun h' w' => open_at p h' off c w' /\ same_handle h h').
Proof.
  intros [Hc Hr] Hoff. destruct h as [f|q k f r]; cbn [handle_seek reads_at] in *.
  - destruct Hr as (q & Hat & Hf). destruct (sh_seek _ _ _ _ off Hat ltac:(lia)) as (x & o' & E & Hat' & HF & HI).
    eapply runs_quiet_bind; [eapply runs_on_host; [exact E|by split]|].
    intros a w1 (_ & Ho & Hc1) _. apply runs_ret. split; [|done]. split; [congruence|].
    exists q. rewrite Ho. split; [done|by rewrite HF].
  - destruct Hr as [Hi Hp]. destruct (image_seek _ _ _ _ _ off Hi Hoff) as (r' & -> & Hi' & Hp').
    eapply runs_quiet_bind; [apply runs_set_cached|]. intros [] w1 [Hc1 Ho1] _.
    exists (H_image q k f r'), w1. split_and!; [done|apply sends_refl|by split|by exists r'].
Qed.

Lemma runs_read p h i c n w : open_at p h i c w -> 0 <= i -> 0 <= n -> i + n <= zlen c ->
  runs (handle_read p h n) w []
    (fun dh w' => fst dh = slice c i (i + n) /\ open_at p (snd dh) (i + n) c w' /\ same_handle h (snd dh)).
Proof.
  intros [Hc Hr] Hi Hn Hz. destruct h as [f|q k f r]; cbn [handle_read reads_at] in *.
  - destruct Hr as (q & Hat & Hf). destruct (sh_read _ _ _ _ _ n Hat Hf Hi Hn) as (o' & E & Hat' & HF & HI).
    eapply runs_quiet_bind; [eapply runs_on_host; [exact E|by split]|].
    intros a w1 (-> & Ho & Hc1) _. apply runs_ret. split_and!; [done| |done]. split; [cbn; congruence|].
    exists q. rewrite Ho. rewrite zlen_slice in Hat' by done.
    replace (Z.max 0 (Z.min (i + n - i) (zlen c - i))) with n in Hat' by lia. split; [done|by rewrite HF].
  - destruct Hr as [Hi' Hp]. destruct (image_read _ _ _ _ _ i n Hi' Hp Hi Hn Hz) as (r' & -> & Hi2 & Hp2).
    eapply runs_quiet_bind; [apply runs_set_cached|]. intros [] w1 [Hc1 Ho1] _.
    exists (slice c i (i + n), H_image q k f r'), w1. split_and!; [done|apply sends_refl|done|by split|by exists r'].
Qed.

(** ** The bytes of a response *)

Section files.
(** The folder: by path, whether the file is a compressed image, and the bytes to serve *)
Context (files : text -> option (bool * bytes)).

Definition opens (o : Os) (p : text) (z : bool) (c : bytes) : Prop :=
  exists q, fsencode p = Ok q /\
    if z then exists k f r, os_open_image q o = Ok f /\
      Formats.open_compressed lz4_available libchdr_available (chd_open q) q (Ok f) None = Ok (Some (k, r)) /\
      image_ok q k f r c /\ 0 <= Base.pos r
    else sh_file o q = Some c.

(** Every file of the folder can be opened and read to its end. *)
Definition disk_ok (o : Os) : Prop := forall p z c, files p = Some (z, c) -> opens o p z c.

(** The cached handle is open on the file of its path. *)
Definition cache_ok w : Prop :=
  match cached w with
  | None => True
  | Some (p, h) => exists i c, 0 <= i /\ reads_at (host w) h i c /\ files p = Some (negb (is_raw h), c)
  end.

Lemma folder_ok_same o o' : same_files o o' -> disk_ok o -> disk_ok o'.
Proof.
  intros [HF HI] Hd p z c Hp. destruct (Hd p z c Hp) as (q & Hq & Ho). exists q. split; [done|].
  destruct z; [|by rewrite HF]. destruct Ho as (k & f & r & Hf & Ho). exists k, f, r. by rewrite HI.
Qed.

Lemma open_at_cache p h i c w : open_at p h i c w -> 0 <= i -> files p = Some (negb (is_raw h), c) -> cache_ok w.
Proof. intros [Hc Hr] Hi Hf. unfold cache_ok. rewrite Hc. by exists i, c. Qed.

Lemma same_handle_raw h h' : same_handle h h' -> is_raw h' = is_raw h.
Proof. destruct h; cbn; [by intros ->|by intros [r ->]]. Qed.

Lemma runs_copy_loop fuel p h i c n w :
  open_at p h i c w -> 0 <= i -> 0 <= n -> i + n <= zlen c -> n <= Z.of_nat fuel -> working (script w) ->
  runs (copy_loop fuel p h n) w (slice c i (i + n)) (fun _ w' => exists h' i', open_at p h' i' c w' /\ 0 <= i' /\ same_handle h h').
Proof.
  revert h i n w. induction fuel as [|fuel IH]; intros h i n w Ho Hi Hn Hz Hf Hs; cbn [copy_loop].
  - rewrite (proj2 (Z.ltb_ge 0 n)) by lia. rewrite slice_empty by lia. apply runs_ret. exists h, i.
    split_and!; try done; try by destruct Ho. destruct h; [done|by eexists].
  - destruct (Z.ltb_spec 0 n).
    2:{ rewrite slice_empty by lia. apply runs_ret. exists h, i.
        split_and!; try done; try by destruct Ho. destruct h; [done|by eexists]. }
    set (m := Z.min n READ_CHUNK). assert (0 < m <= n) as Hm by (unfold m, READ_CHUNK; lia).
    rewrite <- (slice_app c i (i + m) (i + n)) by lia.
    eapply runs_quiet_bind; [apply (runs_read p h i c m w Ho); lia|].
    intros [chunk h1] w1 (Hd & Ho1 & Hh1) S1. cbn [fst snd] in *.
    assert (Hlen : zlen chunk = m) by (rewrite Hd, zlen_slice by lia; lia).
    destruct chunk as [|b chunk]; [rewrite zlen_nil in Hlen; lia|]. rewrite Hd in *. clear Hd.
    eapply runs_bind; [apply runs_write; by apply S1|]. intros [] w2 [Hc2 Ho2] S2. rewrite Hlen.
    replace (i + n) with (i + m + (n - m)) by lia.
    eapply runs_weaken; [apply (IH h1 (i + m) (n - m) w2); try lia|].
    + destruct Ho1 as [E1 R1]. split; [congruence|by rewrite Ho2].
    + by apply S2, S1.
    + intros [] w3 (h' & i' & Ho3 & Hi' & Hh') _. exists h', i'. split_and!; [done..|].
      destruct h; cbn in *; [by subst|]. destruct Hh1 as [r ->]. done.
Qed.

Lemma runs_copy_bytes p h i c off n w :
  open_at p h i c w -> 0 <= off -> 0 <= n -> off + n <= zlen c -> working (script w) ->
  files p = Some (negb (is_raw h), c) ->
  runs (copy_bytes p h off n) w (slice c off (off + n)) (fun b w' => b = true /\ cache_ok w').
Proof.
  intros Ho Hoff Hn Hz Hs Hf. unfold copy_bytes.
  eapply runs_quiet_bind; [apply (runs_seek p h i c off w Ho); lia|]. intros h1 w1 [Ho1 Hh1] S1.
  eapply runs_bind_quiet.
  { apply (runs_copy_loop (Z.to_nat n) p h1 off c n w1 Ho1); try lia. by apply S1. }
  intros [] w2 (h' & i' & Ho2 & Hi' & Hh') _. apply runs_ret. split; [done|].
  eapply open_at_cache; [exact Ho2|done|].
  by rewrite (same_handle_raw _ _ Hh'), (same_handle_raw _ _ Hh1).
Qed.

Lemma runs_send_piece p f i c off k w : open_at p (H_raw f) i c w -> 0 <= off -> 0 <= k -> off + k <= zlen c ->
  runs (send_piece p (H_raw f) off k) w (slice c off (off + k))
    (fun s w' => s = k /\ exists i', 0 <= i' /\ open_at p (H_raw f) i' c w').
Proof.
  intros Ho Hoff Hk Hz. unfold send_piece.
  eapply runs_quiet_bind; [apply (runs_seek p (H_raw f) i c off w Ho); lia|].
  intros h2 w2 [Ho2 ->] _. eapply runs_quiet_bind; [apply (runs_read p (H_raw f) off c k w2 Ho2); lia|].
  intros [data h3] w3 (Hd & Ho3 & Hh3) _. cbn [fst snd same_handle] in *. subst data h3.
  exists k, (w3 <| out ::= fun o => o ++ slice c off (off + k) |>). split_and!; [|by split|done|].
  - assert (E : zlen (slice c off (off + k)) = k) by (rewrite zlen_slice by lia; lia). cbn. by rewrite E.
  - exists (off + k). split; [lia|]. by destruct Ho3.
Qed.

(** [sendfile] sends the bytes from [off], as many as it says, or nothing when it refuses. *)
Lemma runs_try_sendfile p f i c off n w :
  open_at p (H_raw f) i c w -> 0 <= i -> 0 <= off -> 0 <= n -> off + n <= zlen c -> working (script w) ->
  exists k, 0 <= k <= n /\
    runs (try_sendfile p (H_raw f) off n) w (slice c off (off + k))
      (fun s w' => s = Some k /\ exists i', 0 <= i' /\ open_at p (H_raw f) i' c w').
Proof.
  intros Ho Hi Hoff Hn Hz Hs. unfold try_sendfile, sendfile.
  destruct (Z.leb_spec n 0).
  { exists 0. split; [lia|]. rewrite slice_empty by lia. exists (Some 0), w.
    split_and!; [done|apply sends_refl|done|]. by exists i. }
  set (w1 := w <| script ::= tail |>).
  assert (S1 : sends [] w w1).
  { split; try done; [by rewrite app_nil_r|]. cbn. intros Hw. destruct (script w); [done|]. by apply Forall_cons in Hw as [_ ?]. }
  assert (Ho1 : open_at p (H_raw f) i c w1) by done.
  assert (En : next_event w = (Ok (head (script w)), w1)) by done. clearbody w1.
  assert (Hev : match head (script w) with Some (Fails _ _) => False | _ => True end)
    by (destruct Hs; [done|by destruct x]).
  assert (Hsent : forall k, 0 <= k <= n -> exists w2,
    send_piece p (H_raw f) off k w1 = (Ok k, w2) /\ sends (slice c off (off + k)) w w2 /\
    exists i', 0 <= i' /\ open_at p (H_raw f) i' c w2).
  { intros k Hk. destruct (runs_send_piece p f i c off k w1 Ho1) as (a & w2 & E & S2 & -> & Hi'); try lia.
    exists w2. split_and!; [done|by apply (sends_trans []) with w1|done]. }
  destruct (head (script w)) as [[m|m e|]|]; try done.
  - set (k := Z.max 0 (Z.min m n)). exists k. split; [lia|]. destruct (Hsent k ltac:(lia)) as (w2 & E & S2 & Hi').
    exists (Some k), w2. split_and!; [|done|done|done].
    unfold mcatch, mbind, M_bind. rewrite En. fold k. by rewrite E.
  - exists 0. split; [lia|]. rewrite slice_empty by lia. exists (Some 0), w1. split_and!; [|done|done|by exists i].
    unfold mcatch, mbind, M_bind. by rewrite En.
  - exists n. split; [lia|]. destruct (Hsent n ltac:(lia)) as (w2 & E & S2 & Hi').
    exists (Some n), w2. split_and!; [|done|done|done].
    unfold mcatch, mbind, M_bind. rewrite En. by rewrite E.
Qed.

Lemma runs_mcatch {A} (m : M (web Os) A) h w bs Q : runs m w bs Q -> runs (mcatch m h) w bs Q.
Proof. intros (a & w' & E & S & HQ). exists a, w'. split_and!; try done. unfold mcatch. by rewrite E. Qed.

Lemma runs_close_cached w : cache_ok w -> runs close_cached w [] (fun _ w' => cached w' = None).
Proof.
  intros Hc. unfold close_cached. eapply runs_quiet_bind; [apply runs_mget|]. intros c w1 [-> ->] _.
  eapply runs_quiet_bind with (Q := fun _ _ => True).
  - unfold cache_ok in Hc. destruct (cached w) as [[p [f|q k f r]]|]; [| |by apply runs_ret].
    + destruct Hc as (i & c & Hi & (q & Hat & _) & _).
      eapply runs_quiet_bind; [apply runs_stat|]. intros [] w1 [_ Ho] _. rewrite <- Ho in Hat.
      destruct (sh_close _ _ _ _ Hat) as (o' & E & HF & HI).
      apply runs_mcatch. eapply runs_weaken; [eapply runs_on_host; [exact E|by split]|done].
    + eapply runs_quiet_bind; [apply runs_stat|]. intros [] w1 _ _. by apply runs_ret.
  - intros [] w1 _ _. eexists _, _. split_and!; [reflexivity|by apply sends_aside|done].
Qed.

(** Opening an entry of the folder gives a handle on its bytes. *)
Lemma runs_open_entry e c w : disk_ok (host w) -> files (Catalogue.path e) = Some (compressed e, c) ->
  runs (open_entry e) w [] (fun h w' => exists i, 0 <= i /\ reads_at (host w') h i c /\ is_raw h = negb (compressed e)).
Proof.
  intros Hd Hf. destruct (Hd _ _ _ Hf) as (q & Hq & Ho). unfold open_entry. rewrite Hq.
  change (lift (Ok q)) with (mret (M := M (web Os)) q).
  eapply runs_quiet_bind; [by apply runs_ret with (Q := fun a w' => a = q /\ w' = w)|]. intros a w1 [-> ->] _.
  destruct (compressed e).
  - destruct Ho as (k & f & r & Hi & Hoc & Hok & Hp).
    exists (H_image q k f r), w. split_and!; [|apply sends_refl|].
    + unfold mbind, M_bind, ask. rewrite Hi, Hoc. by rewrite Hi.
    + by exists (Base.pos r).
  - destruct (sh_open _ _ _ Ho) as (f & o' & E & Hat & HF & HI).
    eapply runs_quiet_bind; [eapply runs_on_host; [exact E|by split]|]. intros a w1 (-> & Hw & _) _.
    apply runs_ret. exists 0. split_and!; [done| |done]. exists q. rewrite Hw. split; [done|by rewrite HF].
Qed.

Lemma runs_handle_for e c w : disk_ok (host w) -> cache_ok w -> files (Catalogue.path e) = Some (compressed e, c) ->
  runs (handle_for e) w [] (fun h w' => exists i, 0 <= i /\ open_at (Catalogue.path e) h i c w' /\ is_raw h = negb (compressed e)).
Proof.
  intros Hd Hc Hf. unfold handle_for. eapply runs_quiet_bind; [apply runs_mget|]. intros a w1 [-> ->] _.
  assert (Hopen : runs (_ ← close_cached; h ← open_entry e; _ ← set_cached (Catalogue.path e) h;
                        _ ← stat SessionStats.k_open 1; mret h) w []
            (fun h w' => exists i, 0 <= i /\ open_at (Catalogue.path e) h i c w' /\ is_raw h = negb (compressed e))).
  { eapply runs_quiet_bind; [by apply runs_close_cached|]. intros [] w1 _ S1.
    eapply runs_quiet_bind; [apply (runs_open_entry e c); [by eapply folder_ok_same; [apply S1|]|done]|].
    intros h w2 (i & Hi & Hr & Hraw) S2. eapply runs_quiet_bind; [apply runs_set_cached|]. intros [] w3 [Hc3 Ho3] _.
    eapply runs_quiet_bind; [apply runs_stat|]. intros [] w4 [Hc4 Ho4] _. apply runs_ret.
    exists i. split_and!; [done| |done]. split; [congruence|]. by rewrite Ho4, Ho3. }
  unfold cache_ok in Hc. destruct (cached w) as [[p h]|] eqn:Ec; [|exact Hopen].
  destruct (str_eqb_spec p (Catalogue.path e)) as [->|]; [|exact Hopen].
  destruct Hc as (i & c' & Hi & Hr & Hf'). rewrite Hf in Hf'. injection Hf' as Hz ->.
  apply runs_ret. exists i. split_and!; [done|by split|]. by rewrite Hz, negb_involutive.
Qed.

(** [_send_bytes] sends exactly the bytes asked for, whatever the socket takes at a time. *)
Lemma runs_send_bytes e c off n w :
  disk_ok (host w) -> cache_ok w -> files (Catalogue.path e) = Some (compressed e, c) ->
  0 <= off -> 0 <= n -> off + n <= zlen c -> working (script w) ->
  runs (send_bytes e off n) w (slice c off (off + n)) (fun b w' => b = true /\ cache_ok w').
Proof.
  intros Hd Hc Hf Hoff Hn Hz Hs. unfold send_bytes.
  eapply runs_quiet_bind; [by apply (runs_handle_for e c)|]. intros h w1 (i & Hi & Ho & Hraw) S1.
  assert (Hf' : files (Catalogue.path e) = Some (negb (is_raw h), c)) by (by rewrite Hraw, negb_involutive).
  destruct (compressed e); cbn [negb] in Hraw.
  - eapply (runs_copy_bytes _ h i c); try done. by apply S1.
  - destruct h as [f|]; [|done].
    destruct (runs_try_sendfile (Catalogue.path e) f i c off n w1) as (k & Hk & Hrun); try done; [by apply S1|].
    rewrite <- (slice_app c off (off + k) (off + n)) by lia.
    eapply runs_bind; [exact Hrun|]. intros s w2 (-> & i' & Hi' & Ho2) S2.
    destruct (Z.eqb_spec k n) as [->|Hne].
    + rewrite slice_empty by lia. apply runs_ret. split; [done|]. by eapply open_at_cache.
    + replace (off + n) with (off + k + (n - k)) by lia.
      eapply (runs_copy_bytes _ (H_raw f) i' c); try done; try lia. by apply S2, S1.
Qed.

(** ** Responses *)

Definition kept w w' : Prop := cached w' = cached w /\ host w' = host w.

Lemma cache_ok_kept w w' : kept w w' -> cache_ok w -> cache_ok w'.
Proof. intros [Hc Ho]. unfold cache_ok. by rewrite Hc, Ho. Qed.

Lemma runs_send_headers r code reason fields w : rq_http09 r = false -> working (script w) ->
  runs (send_headers http_date r code reason fields) w
    (header_block code reason ((lit "Date", http_date (clock w)) :: fields)) (fun _ w' => kept w w').
Proof.
  intros Hv Hs. unfold send_headers. rewrite Hv.
  eapply runs_quiet_bind; [apply runs_mget|]. intros t w1 [-> ->] _. by apply runs_write.
Qed.

Definition wire (w : web Os) (r : request) (rsp : response) : bytes :=
  rendered (http_date (clock w)) (rq_command r) rsp.

Lemma runs_send_short r code message w : rq_http09 r = false -> working (script w) ->
  runs (send_short http_date r code message) w (wire w r (short code message)) (fun _ w' => kept w w').
Proof.
  intros Hv Hs. unfold send_short, wire, rendered. cbn [short rs_code rs_reason rs_fields rs_body].
  eapply runs_bind; [by apply runs_send_headers|]. intros [] w1 [Hc1 Ho1] S1.
  destruct (rq_command r); cbn [mwhen negb bool_decide].
  - eapply runs_weaken; [apply runs_write; by apply S1|]. intros [] w2 [Hc2 Ho2] _. split; congruence.
  - apply runs_ret. by split.
Qed.

(** The bodies go with GET. *)
Definition has_body (r : request) : bool := bool_decide (rq_command r = GET).

Lemma wire_body w r rsp : wire w r rsp =
  header_block (rs_code rsp) (rs_reason rsp) ((lit "Date", http_date (clock w)) :: rs_fields rsp)
  ++ (if has_body r then rs_body rsp else []).
Proof. unfold wire, rendered, has_body. by destruct (rq_command r). Qed.

Lemma runs_send_body e c body off n w :
  disk_ok (host w) -> cache_ok w -> files (Catalogue.path e) = Some (compressed e, c) ->
  0 <= off -> 0 <= n -> off + n <= zlen c -> working (script w) ->
  runs (send_body e body off n) w (if body then slice c off (off + n) else []) (fun _ w' => cache_ok w').
Proof.
  intros Hd Hc Hf Hoff Hn Hz Hs. unfold send_body. destruct body; [|by apply runs_ret].
  eapply runs_bind_quiet; [by apply (runs_send_bytes e c)|]. intros b w1 [-> Hc1] S1. cbn [mwhen].
  eapply runs_quiet_bind; [apply runs_stat|]. intros [] w2 K2 _.
  eapply runs_weaken; [apply runs_stat|]. intros [] w3 K3 _.
  eapply cache_ok_kept; [exact K3|]. by eapply cache_ok_kept; [exact K2|].
Qed.

(** What a connection needs to answer: the folder's files can be read, the index agrees
    with them and is fresh, the socket works. *)
Record ready w : Prop := {
  rd_disk : disk_ok (host w);
  rd_cache : cache_ok w;
  rd_sizes : forall name e, lookup cfg name (idx w) = Some e ->
    exists c, files (Catalogue.path e) = Some (compressed e, c) /\ size e = zlen c;
  rd_fresh : clock w - last_scan (idx w) < RESCAN_INTERVAL;
  rd_working : working (script w)
}.

Definition content (p : text) : bytes := match files p with Some (_, c) => c | None => [] end.

Lemma ready_sizes w : ready w -> sizes_agree cfg (idx w) content.
Proof.
  intros Hr name e He. destruct (rd_sizes _ Hr name e He) as (c & Hf & ->). unfold content. by rewrite Hf.
Qed.

Lemma ready_sends bs w w' : ready w -> sends bs w w' -> cache_ok w' -> ready w'.
Proof.
  intros [Hd Hc Hz Hfr Hw] [So Sf Ss Si Sc St] Hc'. split; [by eapply folder_ok_same|done|by rewrite Si|by rewrite Si, St|auto].
Qed.

Lemma runs_games_csv w : ready w -> runs (games_csv cfg) w [] (fun p w' => p = csv (idx w) /\ w' = w).
Proof.
  intros Hr. exists (csv (idx w)), w. split_and!; [|apply sends_refl|done|done].
  unfold games_csv, refresh_if_stale, mbind, M_bind, mget.
  by rewrite (proj2 (Z.ltb_lt _ _) (rd_fresh _ Hr)).
Qed.

Lemma runs_serve_game r e w span : ready w -> rq_http09 r = false ->
  (exists name, lookup cfg name (idx w) = Some e) -> parse_range (rq_range r) (size e) = Ok span ->
  runs (serve_game http_date r e (has_body r)) w
    (wire w r (match span with
               | None => whole_answer (size e) (content (Catalogue.path e))
               | Some (a, b) => range_answer a b (size e) (content (Catalogue.path e))
               end)) (fun _ w' => cache_ok w').
Proof.
  intros Hr Hv [name He] Hp. destruct (rd_sizes _ Hr name e He) as (c & Hf & Hz).
  assert (Hc : content (Catalogue.path e) = c) by (unfold content; by rewrite Hf).
  rewrite Hc, wire_body. unfold serve_game. rewrite Hp. change (lift (Ok span)) with (mret (M := M (web Os)) span).
  eapply runs_quiet_bind; [by apply runs_ret with (Q := fun a w' => a = span /\ w' = w)|]. intros a w1 [-> ->] _.
  destruct span as [[a b]|].
  - apply parse_range_bounds in Hp as [Hab Hb].
    eapply runs_bind; [apply runs_send_headers; [done|apply Hr]|]. intros [] w1 K1 S1.
    cbn [range_answer rs_body]. replace (b + 1) with (a + (b - a + 1)) by lia.
    apply (runs_send_body e c); try lia; try done; [by eapply folder_ok_same; [apply S1|apply Hr]| |apply S1, Hr].
    eapply cache_ok_kept; [exact K1|apply Hr].
  - eapply runs_bind; [apply runs_send_headers; [done|apply Hr]|]. intros [] w1 K1 S1. cbn [whole_answer rs_body].
    pose proof (zlen_nonneg c).
    assert (E : (if has_body r then c else []) = (if has_body r then slice c 0 (0 + size e) else [])).
    { destruct (has_body r); [|done]. by rewrite slice_all by lia. }
    rewrite E. apply (runs_send_body e c); try lia; try done; [by eapply folder_ok_same; [apply S1|apply Hr]| |apply S1, Hr].
    eapply cache_ok_kept; [exact K1|apply Hr].
Qed.

Lemma runs_serve_csv r w : ready w -> rq_http09 r = false ->
  runs (serve_games_csv cfg http_date r (has_body r)) w (wire w r (csv_answer (csv (idx w)))) (fun _ w' => cache_ok w').
Proof.
  intros Hr Hv. rewrite wire_body. unfold serve_games_csv.
  eapply runs_quiet_bind; [by apply runs_games_csv|]. intros p w1 [-> ->] _.
  eapply runs_bind; [apply runs_send_headers; [done|apply Hr]|]. intros [] w1 K1 S1. cbn [csv_answer rs_body].
  assert (Hc1 : cache_ok w1) by (eapply cache_ok_kept; [exact K1|apply Hr]).
  destruct (has_body r); cbn [mwhen]; [|by apply runs_ret].
  eapply runs_weaken; [apply runs_write; by apply S1, Hr|]. intros [] w2 K2 _. by eapply cache_ok_kept.
Qed.

(** An error response after the error has been counted *)
Lemma runs_refused r code message w : ready w -> rq_http09 r = false ->
  runs (_ ← stat SessionStats.errors 1; send_short http_date r code message) w (wire w r (short code message))
    (fun _ w' => cache_ok w').
Proof.
  intros Hr Hv. eapply runs_quiet_bind; [apply runs_stat|]. intros [] w1 K1 S1.
  assert (Ew : wire w r (short code message) = wire w1 r (short code message)) by (unfold wire; by rewrite (sn_clock _ _ _ S1)).
  rewrite Ew. eapply runs_weaken; [apply runs_send_short; [done|apply S1, Hr]|].
  intros [] w2 K2 _. eapply cache_ok_kept; [exact K2|]. eapply cache_ok_kept; [exact K1|apply Hr].
Qed.

(** The dispatch sends the reference answer. *)
Lemma runs_dispatch r w rsp : ready w -> rq_http09 r = false -> answer cfg (idx w) content r = Some rsp ->
  runs (dispatch cfg http_date r (has_body r)) w (wire w r rsp) (fun _ w' => cache_ok w').
Proof.
  intros Hr Hv Ha. unfold answer in Ha. unfold dispatch, route.
  destruct (normalised_path (rq_path r)) as [[p|]|] eqn:En; [| |done].
  2:{ injection Ha as <-. apply runs_mcatch.
      change (lift (Ok None)) with (mret (M := M (web Os)) (@None text)).
      eapply runs_quiet_bind; [by apply runs_ret with (Q := fun a w' => a = None /\ w' = w)|].
      intros a w1 [-> ->] _. by apply runs_refused. }
  destruct (is_games_csv p) eqn:Ec.
  { injection Ha as <-. apply runs_mcatch. change (lift (Ok (Some p))) with (mret (M := M (web Os)) (Some p)).
    eapply runs_quiet_bind; [by apply runs_ret with (Q := fun a w' => a = Some p /\ w' = w)|].
    intros a w1 [-> ->] _. rewrite Ec. eapply runs_quiet_bind; [apply runs_stat|]. intros [] w1 K1 S1.
    assert (Hr1 : ready w1) by (eapply ready_sends; [exact Hr|exact S1|eapply cache_ok_kept; [exact K1|apply Hr]]).
    unfold wire. rewrite <- (sn_clock _ _ _ S1), <- (sn_idx _ _ _ S1). by apply runs_serve_csv. }
  destruct (lookup cfg p (idx w)) as [e|] eqn:El.
  2:{ injection Ha as <-. apply runs_mcatch. change (lift (Ok (Some p))) with (mret (M := M (web Os)) (Some p)).
      eapply runs_quiet_bind; [by apply runs_ret with (Q := fun a w' => a = Some p /\ w' = w)|].
      intros a w1 [-> ->] _. rewrite Ec. eapply runs_quiet_bind; [apply runs_mget|]. intros a w1 [-> ->] _.
      rewrite El. by apply runs_refused. }
  destruct (parse_range (rq_range r) (size e)) as [span|x] eqn:Er.
  - assert (rsp = match span with
                  | None => whole_answer (size e) (content (Catalogue.path e))
                  | Some (a, b) => range_answer a b (size e) (content (Catalogue.path e))
                  end) as -> by (destruct span as [[a b]|]; by injection Ha as <-).
    apply runs_mcatch. change (lift (Ok (Some p))) with (mret (M := M (web Os)) (Some p)).
    eapply runs_quiet_bind; [by apply runs_ret with (Q := fun a w' => a = Some p /\ w' = w)|].
    intros a w1 [-> ->] _. rewrite Ec. eapply runs_quiet_bind; [apply runs_mget|]. intros a w1 [-> ->] _.
    rewrite El. apply runs_serve_game; try done. by exists p.
  - destruct x; try done. injection Ha as <-.
    destruct (runs_refused r 416 unsatisfiable w Hr Hv) as (a & w' & E & S & HQ).
    exists a, w'. split_and!; try done. unfold mcatch, mbind, M_bind, mget, lift in *. rewrite Ec, El.
    unfold serve_game, lift, mbind, M_bind. rewrite Er. exact E.
Qed.

(** ** A whole connection *)

(** The requests that are answered: those up to the first that closes the connection *)
Fixpoint served (rs : list request) : list request :=
  match rs with
  | [] => []
  | r :: rs => r :: if rq_close r then [] else served rs
  end.

Definition answers w (rs : list request) (rsps : list response) : Prop :=
  Forall2 (fun r rsp => rq_http09 r = false /\ answer cfg (idx w) content r = Some rsp) rs rsps.

Definition stream_of w (rs : list request) (rsps : list response) : bytes := concat (zip_with (wire w) rs rsps).

Lemma ready_close w b : ready w -> ready (w <| close_connection := b |>).
Proof. by intros []. Qed.

Lemma handle_requests_answers rs rsps w : ready w -> answers w (served rs) rsps ->
  exists w', handle_requests cfg http_date rs w = (Ok tt, w') /\ out w' = out w ++ stream_of w (served rs) rsps /\ cache_ok w'.
Proof.
  revert rsps w. induction rs as [|r rs IH]; intros rsps w Hr Ha.
  - inversion Ha. exists w. split_and!; [done|by rewrite app_nil_r|apply Hr].
  - cbn [served] in Ha. inversion Ha as [|? rsp ? rsps' [Hv Han] Hrest]; subst. clear Ha. cbn [handle_requests].
    destruct (runs_dispatch r (w <| close_connection := rq_close r |>) rsp (ready_close _ _ Hr) Hv Han)
      as ([] & w1 & E & S1 & Hc1).
    assert (Eh : handle_request cfg http_date r w = (Ok tt, w1)) by done.
    assert (Hclose : close_connection w1 = rq_close r) by exact (sn_close _ _ _ S1).
    pose proof (ready_sends _ _ _ (ready_close w (rq_close r) Hr) S1 Hc1) as Hr1.
    assert (Hw : wire w1 = wire w) by (unfold wire; by rewrite (sn_clock _ _ _ S1)).
    assert (Hout : out w1 = out w ++ wire w r rsp) by exact (sn_out _ _ _ S1).
    unfold mbind, M_bind, mget. rewrite Eh, Hclose. destruct (rq_close r) eqn:Er.
    + inversion Hrest; subst. exists w1. split_and!; [done| |done]. unfold stream_of. cbn.
      rewrite Er. cbn. by rewrite app_nil_r.
    + destruct (IH rsps' w1 Hr1) as (w2 & E2 & O2 & C2); [by unfold answers; rewrite (sn_idx _ _ _ S1)|].
      exists w2. split_and!; [done| |done]. rewrite O2, Hout. unfold stream_of. rewrite Hw. cbn [served zip_with concat].
      rewrite Er. by rewrite <- app_assoc.
Qed.

(** What reading the stream should give *)
Definition readings (rs : list request) (rsps : list response) : list (Z * bytes) :=
  zip_with (fun r rsp => (rs_code rsp, match rq_command r with GET => rs_body rsp | HEAD => [] end)) rs rsps.

Lemma stream_read w rs rsps : plain (http_date (clock w)) -> sizes_agree cfg (idx w) content -> answers w rs rsps ->
  read_responses (map rq_command rs) (stream_of w rs rsps) = Some (readings rs rsps, []).
Proof.
  intros Hd Hs. induction 1 as [|r rsp rs rsps [Hv Ha] _ IH]; [done|].
  unfold stream_of in *. cbn [map zip_with concat read_responses]. unfold wire at 1.
  rewrite read_rendered; [|done|by eapply answer_ok]. cbn [mbind option_bind]. by rewrite IH.
Qed.

(** C14. A keep-alive connection whose files can be read and whose socket does not fail sends,
    for every request up to the first that closes it, exactly the response the reference
    gives: a client that follows the framing headers reads their codes and bodies, in
    order, and nothing more. *)
Theorem connection_answered rs rsps w :
  ready (w <| cached := None |>) -> plain (http_date (clock w)) -> answers w (served rs) rsps ->
  exists w' stream, serve_connection cfg http_date rs w = (Ok tt, w') /\ out w' = out w ++ stream /\
    read_responses (map rq_command (served rs)) stream = Some (readings (served rs) rsps, []).
Proof.
  intros Hr Hd Ha. destruct (runs_stat SessionStats.connections 1 (w <| cached := None |>)) as ([] & w1 & E1 & S1 & K1).
  assert (Hr1 : ready w1) by (eapply ready_sends; [exact Hr|exact S1|eapply cache_ok_kept; [exact K1|apply Hr]]).
  assert (Hi : idx w1 = idx w) by exact (sn_idx _ _ _ S1).
  assert (Ht : clock w1 = clock w) by exact (sn_clock _ _ _ S1).
  assert (Ha1 : answers w1 (served rs) rsps) by (unfold answers; by rewrite Hi).
  destruct (handle_requests_answers rs rsps w1 Hr1 Ha1) as (w2 & E2 & O2 & C2).
  destruct (runs_close_cached w2 C2) as ([] & w3 & E3 & S3 & _).
  exists w3, (stream_of w1 (served rs) rsps). split_and!.
  - unfold serve_connection, setup, mbind, M_bind, mmod. rewrite E1. unfold mcatch. rewrite E2. exact E3.
  - rewrite (sn_out _ _ _ S3), app_nil_r, O2. f_equal. rewrite (sn_out _ _ _ S1). apply app_nil_r.
  - apply stream_read; [by rewrite Ht|by apply ready_sizes|done].
Qed.
End files.
End serve.
