(* ===== verification/PyHash.v ===== *)
(** * Hashes of the Python standard library

    [hashlib.md5], [hashlib.sha256] and [hmac], which the SMB servers take from Python, as
    executable functions on byte strings.  They follow RFC 1321, FIPS 180-4 and RFC 2104, and
    are checked here on the test vectors of these documents. *)

From S2P Require Import Prelude PyStr.

(** ** 32-bit words *)

Definition MASK32 : Z := 4294967295.
Definition w32 (x : Z) : Z := Z.land x MASK32.
Definition not32 (x : Z) : Z := Z.lxor x MASK32.
Definition rol (x n : Z) : Z := w32 (Z.lor (Z.shiftl x n) (Z.shiftr x (32 - n))).
Definition ror (x n : Z) : Z := rol x (32 - n).

(** [bs] in pieces of [n] bytes *)
Fixpoint pieces (fuel n : nat) (bs : bytes) : list bytes :=
  match fuel, bs with
  | O, _ | _, [] => []
  | S fuel, _ => take n bs :: pieces fuel n (drop n bs)
  end.

Definition chunks_of (n : nat) (bs : bytes) : list bytes := pieces (length bs) n bs.

(** A message padded to blocks of 64 bytes; [count] encodes its length in bits. *)
Definition pad64 (count : Z -> bytes) (data : bytes) : bytes :=
  data ++ 128 :: zeros ((55 - zlen data) mod 64) ++ count (zlen data * 8).

(** The bytes of a block as 16 words *)
Definition words_le (block : bytes) : list Z := map le_int (chunks_of 4 block).
Definition words_be (block : bytes) : list Z := map be_int (chunks_of 4 block).

Definition word (ws : list Z) (i : Z) : Z := nth (Z.to_nat i) ws 0.

(** ** MD5 *)

Definition MD5_K : list Z :=
  [3614090360; 3905402710; 606105819; 3250441966; 4118548399; 1200080426; 2821735955; 4249261313;
   1770035416; 2336552879; 4294925233; 2304563134; 1804603682; 4254626195; 2792965006; 1236535329;
   4129170786; 3225465664; 643717713; 3921069994; 3593408605; 38016083; 3634488961; 3889429448;
   568446438; 3275163606; 4107603335; 1163531501; 2850285829; 4243563512; 1735328473; 2368359562;
   4294588738; 2272392833; 1839030562; 4259657740; 2763975236; 1272893353; 4139469664; 3200236656;
   681279174; 3936430074; 3572445317; 76029189; 3654602809; 3873151461; 530742520; 3299628645;
   4096336452; 1126891415; 2878612391; 4237533241; 1700485571; 2399980690; 4293915773; 2240044497;
   1873313359; 4264355552; 2734768916; 1309151649; 4149444226; 3174756917; 718787259; 3951481745].

Definition MD5_S : list Z :=
  [7; 12; 17; 22; 7; 12; 17; 22; 7; 12; 17; 22; 7; 12; 17; 22;
   5; 9; 14; 20; 5; 9; 14; 20; 5; 9; 14; 20; 5; 9; 14; 20;
   4; 11; 16; 23; 4; 11; 16; 23; 4; 11; 16; 23; 4; 11; 16; 23;
   6; 10; 15; 21; 6; 10; 15; 21; 6; 10; 15; 21; 6; 10; 15; 21].

Definition md5_mix (i b c d : Z) : Z * Z :=
  if i <? 16 then (Z.lor (Z.land b c) (Z.land (not32 b) d), i)
  else if i <? 32 then (Z.lor (Z.land d b) (Z.land (not32 d) c), (5 * i + 1) mod 16)
  else if i <? 48 then (Z.lxor (Z.lxor b c) d, (3 * i + 5) mod 16)
  else (Z.lxor c (Z.lor b (not32 d)), (7 * i) mod 16).

Definition md5_step (ws : list Z) (st : Z * Z * Z * Z) (i : Z) : Z * Z * Z * Z :=
  let '(a, b, c, d) := st in
  let '(f, g) := md5_mix i b c d in
  (d, w32 (b + rol (w32 (f + a + word MD5_K i + word ws g)) (word MD5_S i)), b, c).

Definition md5_block (st : Z * Z * Z * Z) (block : bytes) : Z * Z * Z * Z :=
  let '(a, b, c, d) := st in
  let '(a', b', c', d') := foldl (md5_step (words_le block)) st (seqZ 0 64) in
  (w32 (a + a'), w32 (b + b'), w32 (c + c'), w32 (d + d')).

(** [hashlib.md5(data).digest()] *)
Definition md5 (data : bytes) : bytes :=
  let '(a, b, c, d) :=
    foldl md5_block (1732584193, 4023233417, 2562383102, 271733878) (chunks_of 64 (pad64 (le_bytes 8) data)) in
  le_bytes 4 a ++ le_bytes 4 b ++ le_bytes 4 c ++ le_bytes 4 d.

(** ** SHA-256 *)

Definition SHA_K : list Z :=
  [1116352408; 1899447441; 3049323471; 3921009573; 961987163; 1508970993; 2453635748; 2870763221;
   3624381080; 310598401; 607225278; 1426881987; 1925078388; 2162078206; 2614888103; 3248222580;
   3835390401; 4022224774; 264347078; 604807628; 770255983; 1249150122; 1555081692; 1996064986;
   2554220882; 2821834349; 2952996808; 3210313671; 3336571891; 3584528711; 113926993; 338241895;
   666307205; 773529912; 1294757372; 1396182291; 1695183700; 1986661051; 2177026350; 2456956037;
   2730485921; 2820302411; 3259730800; 3345764771; 3516065817; 3600352804; 4094571909; 275423344;
   430227734; 506948616; 659060556; 883997877; 958139571; 1322822218; 1537002063; 1747873779;
   1955562222; 2024104815; 2227730452; 2361852424; 2428436474; 2756734187; 3204031479; 3329325298].

Definition SHA_H : list Z :=
  [1779033703; 3144134277; 1013904242; 2773480762; 1359893119; 2600822924; 528734635; 1541459225].

Definition sha_extend (ws : list Z) (t : Z) : list Z :=
  let w15 := word ws (t - 15) in
  let w2 := word ws (t - 2) in
  let s0 := Z.lxor (Z.lxor (ror w15 7) (ror w15 18)) (Z.shiftr w15 3) in
  let s1 := Z.lxor (Z.lxor (ror w2 17) (ror w2 19)) (Z.shiftr w2 10) in
  ws ++ [w32 (word ws (t - 16) + s0 + word ws (t - 7) + s1)].

Definition sha_step (ws : list Z) (h : list Z) (t : Z) : list Z :=
  match h with
  | [a; b; c; d; e; f; g; k] =>
      let s1 := Z.lxor (Z.lxor (ror e 6) (ror e 11)) (ror e 25) in
      let ch := Z.lxor (Z.land e f) (Z.land (not32 e) g) in
      let t1 := k + s1 + ch + word SHA_K t + word ws t in
      let s0 := Z.lxor (Z.lxor (ror a 2) (ror a 13)) (ror a 22) in
      let maj := Z.lxor (Z.lxor (Z.land a b) (Z.land a c)) (Z.land b c) in
      [w32 (t1 + s0 + maj); a; b; c; w32 (d + t1); e; f; g]
  | _ => h
  end.

Definition sha_block (h : list Z) (block : bytes) : list Z :=
  let ws := foldl sha_extend (words_be block) (seqZ 16 48) in
  zip_with (fun x y => w32 (x + y)) h (foldl (sha_step ws) h (seqZ 0 64)).

(** [hashlib.sha256(data).digest()] *)
Definition sha256 (data : bytes) : bytes :=
  concat (map (be_bytes 4) (foldl sha_block SHA_H (chunks_of 64 (pad64 (be_bytes 8) data)))).

(** ** HMAC *)

(** [hmac.new(key, message, h).digest()] for a hash [h] with blocks of 64 bytes *)
Definition hmac (h : bytes -> bytes) (key message : bytes) : bytes :=
  let key := if 64 <? zlen key then h key else key in
  let key := ljust key 64 in
  let pad c := map (Z.lxor c) key in
  h (pad 92 ++ h (pad 54 ++ message)).

(** ** Test vectors *)

Definition hex (s : String.string) : bytes :=
  let value c := if c <? 58 then c - 48 else c - 87 in
  map (fun ds => match ds with [a; b] => 16 * value a + value b | _ => 0 end) (chunks_of 2 (lit s)).

Example md5_abc : md5 (lit "abc") = hex "900150983cd24fb0d6963f7d28e17f72".
Proof. vm_compute. reflexivity. Qed.

Example sha256_abc : sha256 (lit "abc") = hex "ba7816bf8f01cfea414140de5dae2223b00361a396177a9cb410ff61f20015ad".
Proof. vm_compute. reflexivity. Qed.

Example hmac_md5_jefe : hmac md5 (lit "Jefe") (lit "what do ya want for nothing?") = hex "750c783e6ab0b503eaa86e310a5db738".
Proof. vm_compute. reflexivity. Qed.

(** ** Lengths *)

Lemma length_md5 data : length (md5 data) = 16%nat.
Proof. unfold md5. destruct (foldl _ _ _) as [[[a b] c] d]. by rewrite !length_app, !length_le_bytes. Qed.

Lemma length_sha_step ws h t : length h = 8%nat -> length (sha_step ws h t) = 8%nat.
Proof. intros Hh. do 8 (destruct h as [|? h]; [done|]). destruct h; [reflexivity|done]. Qed.

Lemma length_sha_steps ws ts h : length h = 8%nat -> length (foldl (sha_step ws) h ts) = 8%nat.
Proof.
  revert h. induction ts as [|t ts IH]; intros h Hh; [done|]. cbn [foldl]. by apply IH, length_sha_step.
Qed.

Lemma length_sha_block h block : length h = 8%nat -> length (sha_block h block) = 8%nat.
Proof. intros Hh. unfold sha_block. rewrite length_zip_with_l_eq; [done|]. by rewrite length_sha_steps. Qed.

Lemma length_sha256 data : length (sha256 data) = 32%nat.
Proof.
  unfold sha256. set (bs := chunks_of _ _). clearbody bs.
  assert (Hl : length (foldl sha_block SHA_H bs) = 8%nat).
  { assert (Hh : length SHA_H = 8%nat) by done. revert Hh. generalize SHA_H as h.
    induction bs as [|b bs IH]; intros h Hh; [done|]. cbn. by apply IH, length_sha_block. }
  destruct (foldl sha_block SHA_H bs) as [|h0 l]; [done|]. do 7 (destruct l as [|? l]; [done|]).
  by destruct l.
Qed.
