(* ===== verification/PyGlob.v ===== *)
(** * File name patterns of the Python standard library

    [fnmatch.fnmatch] on a POSIX host, which the SMB2 server filters listings with: [*] is
    any text, [?] any character, and brackets enclose a set of characters.  A set is read
    the way [fnmatch.translate] turns it into a class of a regular expression. *)

From S2P Require Import Prelude PyStr PyText.

Inductive glob :=
  | Star
  | AnyChar
  | Literal (c : Z)
  | Never
  | Class (negated : bool) (parts : list text).

Definition BANG : Z := 33.
Definition HYPHEN : Z := 45.
Definition OPENING : Z := 91.
Definition CLOSING : Z := 93.

(** The inside of brackets and what follows them; the first character may be a closing one. *)
Definition bracket_end (pat : text) : option (text * text) :=
  let '(bang, pat1) := match pat with c :: t => if c =? BANG then ([c], t) else ([], pat) | [] => ([], pat) end in
  let '(first, pat2) := match pat1 with c :: t => if c =? CLOSING then ([c], t) else ([], pat1) | [] => ([], pat1) end in
  let '(body, rest) := partition_on CLOSING pat2 in
  if existsb (Z.eqb CLOSING) pat2 then Some (bang ++ first ++ body, rest) else None.

(** [s] in pieces at its hyphens, where a piece has at least [min] characters first *)
Fixpoint hyphen_chunks (min : nat) (s current : text) : list text :=
  match s with
  | [] => [rev current]
  | c :: s =>
      match min with
      | O => if c =? HYPHEN then rev current :: hyphen_chunks 2 s [] else hyphen_chunks 0 s (c :: current)
      | S min => hyphen_chunks min s (c :: current)
      end
  end.

(** An empty piece at the end is a hyphen of the one before it. *)
Fixpoint close_chunks (cs : list text) : list text :=
  match cs with
  | [c; []] => [c ++ [HYPHEN]]
  | c :: cs => c :: close_chunks cs
  | [] => []
  end.

(** Ranges whose ends are in the wrong order are dropped, from the last to the first. *)
Fixpoint drop_empty_ranges (cs : list text) : list text :=
  match cs with
  | [] => []
  | c :: cs =>
      match drop_empty_ranges cs with
      | (h :: d) :: ds =>
          if h <? default 0 (last c) then (removelast c ++ d) :: ds else c :: (h :: d) :: ds
      | ds => c :: ds
      end
  end.

(** The class that brackets with [stuff] in them stand for *)
Definition class_of (stuff : text) : glob :=
  let skip := match stuff with c :: _ => if c =? BANG then 2%nat else 1%nat | [] => 1%nat end in
  let parts := if existsb (Z.eqb HYPHEN) stuff
               then drop_empty_ranges (close_chunks (hyphen_chunks skip stuff [])) else [stuff] in
  match parts with
  | [] | [[]] => Never
  | (c :: p) :: ps =>
      if c =? BANG then match p, ps with [], [] => AnyChar | _, _ => Class true (p :: ps) end
      else Class false parts
  | [] :: _ => Class false parts
  end.

(** [fnmatch.translate] *)
Fixpoint translate (fuel : nat) (pat : text) : list glob :=
  match fuel, pat with
  | O, _ | _, [] => []
  | S fuel, c :: t =>
      if c =? 42 then Star :: translate fuel t
      else if c =? 63 then AnyChar :: translate fuel t
      else if c =? OPENING then
        match bracket_end t with
        | Some (stuff, rest) => class_of stuff :: translate fuel rest
        | None => Literal c :: translate fuel t
        end
      else Literal c :: translate fuel t
  end.

(** The pieces of a class join at hyphens, which make ranges of the characters beside them. *)
Fixpoint in_parts (parts : list text) (c : Z) : bool :=
  match parts with
  | [] => false
  | p :: ps =>
      existsb (Z.eqb c) p
      || match ps with
         | (h :: _) :: _ => match last p with Some l => (l <=? c) && (c <=? h) | None => false end
         | _ => false
         end
      || in_parts ps c
  end.

Definition matches_one (g : glob) (c : Z) : bool :=
  match g with
  | Star | AnyChar => true
  | Literal d => c =? d
  | Never => false
  | Class negated parts => Bool.eqb (in_parts parts c) (negb negated)
  end.

Fixpoint matches (gs : list glob) (s : text) {struct gs} : bool :=
  match gs with
  | [] => match s with [] => true | _ => false end
  | Star :: gs => (fix any s := matches gs s || match s with [] => false | _ :: t => any t end) s
  | g :: gs => match s with [] => false | c :: t => matches_one g c && matches gs t end
  end.

(** [fnmatch.fnmatch(name, pat)] *)
Definition fnmatch (name pat : text) : bool := matches (translate (length pat) pat) name.

Example fnmatch_star : fnmatch (lit "game.iso") (lit "*.iso") = true.
Proof. reflexivity. Qed.

Example fnmatch_class : map (fun p => fnmatch (lit "b-1") (lit p)) ["[a-c]-?"; "[!a-c]*"; "[]b]-1"; "b[1-]1"; "[c-a]*"]%string
  = [true; false; true; true; false].
Proof. reflexivity. Qed.
