(* ===== verification/Smb2Wire.v ===== *)
(** * SMB2: the wire format

    Models [smb2_server/smb2_wire.py]: the session framing over a TCP stream, the 64-byte
    header, the choice of a dialect, and the encoders of file, directory and volume
    information.  Times are opaque numbers; [ticks] is Python's [int(t * 10_000_000)] on
    them, floating-point arithmetic the model does not look into. *)

From S2P Require Import Prelude PyStr PyText Compressed HostOs.

(** ** UTF-16 *)

Definition is_high (u : Z) : bool := (55296 <=? u) && (u <=? 56319).
Definition is_low (u : Z) : bool := (56320 <=? u) && (u <=? 57343).

Definition utf16_units (c : Z) : bytes :=
  if c <? 65536 then le_bytes 2 c
  else le_bytes 2 (55296 + (c - 65536) / 1024) ++ le_bytes 2 (56320 + (c - 65536) mod 1024).

(** [utf16]: [text.encode("utf-16-le")] *)
Fixpoint utf16 (s : text) : result bytes :=
  match s with
  | [] => Ok []
  | c :: s => if is_surrogate c then Err UnicodeError else rest ← utf16 s; Ok (utf16_units c ++ rest)
  end.

Definition REPLACEMENT_POINT : Z := 65533.

(** [from_utf16]: [raw.decode("utf-16-le", "replace")]; a unit that belongs to no pair
    becomes the replacement character, and so does what is left of a unit or a pair at the
    end. *)
Fixpoint from_utf16 (raw : bytes) : text :=
  match raw with
  | [] => []
  | [_] => [REPLACEMENT_POINT]
  | a :: b :: t =>
      let u := a + 256 * b in
      if is_high u then
        match t with
        | c :: d :: t' =>
            let v := c + 256 * d in
            if is_low v then (65536 + (u - 55296) * 1024 + (v - 56320)) :: from_utf16 t'
            else REPLACEMENT_POINT :: from_utf16 t
        | _ => [REPLACEMENT_POINT]
        end
      else (if is_low u then REPLACEMENT_POINT else u) :: from_utf16 t
  end.

(** ** Session framing *)

(** What the socket has to give: bytes that arrive together, or an error *)
Inductive arrival := Chunk (bs : bytes) | Broken (errno : option Z).

(** [sock.recv(n)]: at most [n] of the bytes that arrived together, nothing at the end *)
Definition recv (n : Z) : M (list arrival) bytes := fun s =>
  match s with
  | [] => (Ok [], [])
  | Broken e :: s => (Err (OSError e), s)
  | Chunk bs :: s =>
      if zlen bs <=? n then (Ok bs, s) else (Ok (ztake n bs), Chunk (zdrop n bs) :: s)
  end.

(** [_recv_exact]; [None] at the end of the stream *)
Fixpoint recv_loop (fuel : nat) (n : Z) (buf : bytes) : M (list arrival) (option bytes) :=
  if zlen buf <? n then
    match fuel with
    | O => raise Hang
    | S fuel =>
        chunk ← recv (n - zlen buf);
        match chunk with
        | [] => mret None
        | _ => recv_loop fuel n (buf ++ chunk)
        end
    end
  else mret (Some buf).

Definition recv_exact (n : Z) : M (list arrival) (option bytes) := recv_loop (Z.to_nat n) n [].

(** [recv_msg]: a message, [Some []] for a keep-alive, [None] at the end *)
Definition recv_msg : M (list arrival) (option bytes) :=
  hdr ← recv_exact 4;
  match hdr with
  | None => mret None
  | Some hdr =>
      let length := be_int (slice hdr 1 4) in
      if negb (znth hdr 0 =? 0) then
        _ ← (if 0 <? length then recv_exact length else mret None);
        mret (Some [])
      else if length =? 0 then mret (Some [])
      else recv_exact length
  end.

(** How much is left to arrive: a bound on the messages of a connection *)
Definition arrivals (s : list arrival) : nat :=
  sum_list_with (fun a => match a with Chunk bs => S (length bs) | Broken _ => 1%nat end) s.

(** The bytes of [send_msg]; [int.to_bytes(3, "big")] raises for a longer message. *)
Definition frame (msg : bytes) : result bytes :=
  if zlen msg <? 2 ^ 24 then Ok (0 :: be_bytes 3 (zlen msg) ++ msg) else Err OverflowError.

(** ** Constants *)

Definition SMB2_MAGIC : bytes := 254 :: lit "SMB".
Definition HEADER_SIZE : Z := 64.

Definition DIALECT_202 : Z := 514.
Definition DIALECT_210 : Z := 528.
Definition DIALECT_300 : Z := 768.
Definition DIALECT_302 : Z := 770.
Definition DIALECT_311 : Z := 785.
Definition CEILING_SMB2 : Z := DIALECT_210.
Definition CEILING_SMB3 : Z := DIALECT_302.

Definition CMD_NEGOTIATE : Z := 0.
Definition CMD_SESSION_SETUP : Z := 1.
Definition CMD_LOGOFF : Z := 2.
Definition CMD_TREE_CONNECT : Z := 3.
Definition CMD_TREE_DISCONNECT : Z := 4.
Definition CMD_CREATE : Z := 5.
Definition CMD_CLOSE : Z := 6.
Definition CMD_FLUSH : Z := 7.
Definition CMD_READ : Z := 8.
Definition CMD_WRITE : Z := 9.
Definition CMD_IOCTL : Z := 11.
Definition CMD_CANCEL : Z := 12.
Definition CMD_ECHO : Z := 13.
Definition CMD_QUERY_DIRECTORY : Z := 14.
Definition CMD_QUERY_INFO : Z := 16.
Definition CMD_SET_INFO : Z := 17.

Definition FLAG_SERVER_TO_REDIR : Z := 1.
Definition FLAG_RELATED : Z := 4.
Definition FLAG_SIGNED : Z := 8.
Definition COMPOUND_FILE_ID : bytes := replicate 16 255.
Definition ACCESS_WRITE_ANY : Z :=
  Z.lor 2 (Z.lor 4 (Z.lor 33554432 (Z.lor 268435456 1073741824))).

Definition STATUS_SUCCESS : Z := 0.
Definition STATUS_NO_MORE_FILES : Z := 2147483654.
Definition STATUS_BUFFER_OVERFLOW : Z := 2147483653.
Definition STATUS_INFO_LENGTH_MISMATCH : Z := 3221225476.
Definition STATUS_INVALID_PARAMETER : Z := 3221225485.
Definition STATUS_INVALID_DEVICE_REQUEST : Z := 3221225488.
Definition STATUS_END_OF_FILE : Z := 3221225489.
Definition STATUS_MORE_PROCESSING_REQUIRED : Z := 3221225494.
Definition STATUS_ACCESS_DENIED : Z := 3221225506.
Definition STATUS_OBJECT_NAME_INVALID : Z := 3221225523.
Definition STATUS_OBJECT_NAME_NOT_FOUND : Z := 3221225524.
Definition STATUS_OBJECT_NAME_COLLISION : Z := 3221225525.
Definition STATUS_OBJECT_PATH_SYNTAX_BAD : Z := 3221225531.
Definition STATUS_LOGON_FAILURE : Z := 3221225581.
Definition STATUS_DISK_FULL : Z := 3221225599.
Definition STATUS_MEDIA_WRITE_PROTECTED : Z := 3221225634.
Definition STATUS_FILE_IS_A_DIRECTORY : Z := 3221225658.
Definition STATUS_NOT_SUPPORTED : Z := 3221225659.
Definition STATUS_NETWORK_NAME_DELETED : Z := 3221225673.
Definition STATUS_BAD_NETWORK_NAME : Z := 3221225676.
Definition STATUS_PIPE_EMPTY : Z := 3221225689.
Definition STATUS_DIRECTORY_NOT_EMPTY : Z := 3221225729.
Definition STATUS_NOT_A_DIRECTORY : Z := 3221225731.
Definition STATUS_FILE_CLOSED : Z := 3221225768.
Definition STATUS_USER_SESSION_DELETED : Z := 3221225987.

Definition ATTR_READONLY : Z := 1.
Definition ATTR_DIRECTORY : Z := 16.
Definition ATTR_ARCHIVE : Z := 32.

Definition FILE_SUPERSEDE : Z := 0.
Definition FILE_OPEN : Z := 1.
Definition FILE_CREATE : Z := 2.
Definition FILE_OPEN_IF : Z := 3.
Definition FILE_OVERWRITE : Z := 4.
Definition FILE_OVERWRITE_IF : Z := 5.
Definition FILE_OPENED : Z := 1.
Definition FILE_CREATED : Z := 2.
Definition FILE_OVERWRITTEN : Z := 3.
Definition FILE_DIRECTORY_FILE : Z := 1.
Definition FILE_NON_DIRECTORY_FILE : Z := 64.
Definition FILE_DELETE_ON_CLOSE : Z := 4096.

Definition SHARE_TYPE_DISK : Z := 1.
Definition SHARE_TYPE_PIPE : Z := 2.
Definition FSCTL_PIPE_TRANSCEIVE : Z := 1163287.
Definition FSCTL_VALIDATE_NEGOTIATE_INFO : Z := 1311236.
Definition SECURITY_MODE_SIGNING_ENABLED : Z := 1.
Definition SECURITY_MODE_SIGNING_REQUIRED : Z := 2.
Definition GLOBAL_CAP_LARGE_MTU : Z := 4.
Definition SESSION_FLAG_IS_GUEST : Z := 1.
Definition SESSION_FLAG_IS_NULL : Z := 2.
Definition MAX_TRANSACT : Z := 1048576.
Definition MAX_READ : Z := 1048576.
Definition MAX_WRITE : Z := 1048576.

(** [x & m] as a condition *)
Definition has (x m : Z) : bool := negb (Z.land x m =? 0).

(** [pick_dialect] *)
Definition pick_dialect (offered : list Z) (ceiling : Z) : option Z :=
  let usable := List.filter (fun d => (d <=? ceiling)
    && existsb (Z.eqb d) [DIALECT_202; DIALECT_210; DIALECT_300; DIALECT_302]) offered in
  match usable with [] => None | d :: ds => Some (foldl Z.max d ds) end.

(** ** The header *)

Record header := Header {
  credit_charge : Z;
  status : Z;
  command : Z;
  credits : Z;
  flags : Z;
  next_command : Z;
  message_id : Z;
  tree_id : Z;
  session_id : Z;
  signature : bytes
}.

#[export] Instance eta_header : Eta header := fun h =>
  Header (credit_charge h) (status h) (command h) (credits h) (flags h) (next_command h) (message_id h) (tree_id h)
         (session_id h) (signature h).

(** [parse_header] *)
Definition parse_header (raw : bytes) : option header :=
  if (zlen raw <? HEADER_SIZE) || negb (str_eqb (ztake 4 raw) SMB2_MAGIC) then None
  else
    match unpack_from [fH; fH; fI; fH; fH; fI; fI; fQ; fI; fI; fQ] raw 4 with
    | Some [_; charge; st; cmd; cr; fl; next; mid; _; tid; sid] =>
        Some (Header charge st cmd cr fl next mid tid sid (slice raw 48 64))
    | _ => None
    end.

(** [pack_header] *)
Definition pack_header (cmd st mid tid sid cr fl next : Z) : result bytes :=
  fields ← struct_result (pack [(fH, HEADER_SIZE); (fH, 0); (fI, st); (fH, cmd); (fH, cr);
    (fI, Z.lor fl FLAG_SERVER_TO_REDIR); (fI, next); (fQ, mid); (fI, 0); (fI, tid); (fQ, sid)]);
  Ok (SMB2_MAGIC ++ fields ++ zeros 16).

(** [error_body] *)
Definition error_body : bytes := [9; 0; 0; 0; 0; 0; 0; 0; 0].

(** ** File information *)

Class FloatTime := { ticks : Z -> Z }.

Section info.
Context `{FloatTime}.

(** [to_filetime] *)
Definition to_filetime (t : Z) : Z := if t <=? 0 then 0 else ticks t + 116444736000000000.

(** [_stat_times] *)
Definition stat_times (st : stat_result) : list (fmt * Z) :=
  [(fQ, to_filetime (st_ctime st)); (fQ, to_filetime (st_atime st)); (fQ, to_filetime (st_mtime st));
   (fQ, to_filetime (st_mtime st))].

(** [attributes_for] *)
Definition attributes_for (st : stat_result) (read_only : bool) : Z :=
  let attrs := if S_ISDIR st then ATTR_DIRECTORY else ATTR_ARCHIVE in
  if read_only then Z.lor attrs ATTR_READONLY else attrs.

(** [allocation_of] *)
Definition allocation_of (st : stat_result) : Z := Z.land (st_size st + 4095) (Z.lnot 4095).

Definition file_id64 (st : stat_result) : Z := Z.land (st_ino st) (2 ^ 64 - 1).

(** The classes of [directory_entry] and [file_info] *)
Definition FILE_DIRECTORY_INFORMATION : Z := 1.
Definition FILE_FULL_DIRECTORY_INFORMATION : Z := 2.
Definition FILE_BOTH_DIRECTORY_INFORMATION : Z := 3.
Definition FILE_BASIC_INFORMATION : Z := 4.
Definition FILE_STANDARD_INFORMATION : Z := 5.
Definition FILE_INTERNAL_INFORMATION : Z := 6.
Definition FILE_EA_INFORMATION : Z := 7.
Definition FILE_ACCESS_INFORMATION : Z := 8.
Definition FILE_NAME_INFORMATION : Z := 9.
Definition FILE_RENAME_INFORMATION : Z := 10.
Definition FILE_NAMES_INFORMATION : Z := 12.
Definition FILE_DISPOSITION_INFORMATION : Z := 13.
Definition FILE_POSITION_INFORMATION : Z := 14.
Definition FILE_MODE_INFORMATION : Z := 16.
Definition FILE_ALIGNMENT_INFORMATION : Z := 17.
Definition FILE_ALL_INFORMATION : Z := 18.
Definition FILE_END_OF_FILE_INFORMATION : Z := 20.
Definition FILE_NETWORK_OPEN_INFORMATION : Z := 34.
Definition FILE_ATTRIBUTE_TAG_INFORMATION : Z := 35.
Definition FILE_ID_BOTH_DIRECTORY_INFORMATION : Z := 37.
Definition FILE_ID_FULL_DIRECTORY_INFORMATION : Z := 38.

(** The fields every listing record but one starts with *)
Definition listing_fields (name : bytes) (st : stat_result) (read_only : bool) : list (fmt * Z) :=
  [(fI, 0); (fI, 0)] ++ stat_times st ++
  [(fq, st_size st); (fq, allocation_of st); (fI, attributes_for st read_only); (fI, zlen name)].

(** [both_directory_entry] *)
Definition both_directory_entry (name : text) (st : stat_result) (read_only with_file_id : bool) : result bytes :=
  name ← utf16 name;
  fixed ← struct_result (pack (listing_fields name st read_only ++ [(fI, 0); (fB, 0); (fB, 0)]));
  id ← (if with_file_id then struct_result (pack [(fH, 0); (fQ, file_id64 st)]) else Ok []);
  Ok (fixed ++ zeros 24 ++ id ++ name).

(** [directory_entry]; [None] for a class it does not encode *)
Definition directory_entry (name : text) (st : stat_result) (info_class : Z) (read_only : bool)
    : result (option bytes) :=
  raw ← utf16 name;
  if info_class =? FILE_BOTH_DIRECTORY_INFORMATION then
    e ← both_directory_entry name st read_only false; Ok (Some e)
  else if info_class =? FILE_ID_BOTH_DIRECTORY_INFORMATION then
    e ← both_directory_entry name st read_only true; Ok (Some e)
  else if info_class =? FILE_DIRECTORY_INFORMATION then
    e ← struct_result (pack (listing_fields raw st read_only)); Ok (Some (e ++ raw))
  else if info_class =? FILE_FULL_DIRECTORY_INFORMATION then
    e ← struct_result (pack (listing_fields raw st read_only ++ [(fI, 0)])); Ok (Some (e ++ raw))
  else if info_class =? FILE_ID_FULL_DIRECTORY_INFORMATION then
    e ← struct_result (pack (listing_fields raw st read_only ++ [(fI, 0); (fI, 0); (fQ, file_id64 st)]));
    Ok (Some (e ++ raw))
  else if info_class =? FILE_NAMES_INFORMATION then
    e ← struct_result (pack [(fI, 0); (fI, 0); (fI, zlen raw)]); Ok (Some (e ++ raw))
  else Ok None.

(** The classes of [file_info] without a name, as their fields *)
Definition info_fields (info_class : Z) (st : stat_result) (read_only : bool) : option (list (fmt * Z)) :=
  let attrs := attributes_for st read_only in
  if info_class =? FILE_BASIC_INFORMATION then Some (stat_times st ++ [(fI, attrs); (fI, 0)])
  else if info_class =? FILE_STANDARD_INFORMATION then
    Some [(fq, allocation_of st); (fq, st_size st); (fI, 1); (fB, 0); (fB, if S_ISDIR st then 1 else 0); (fH, 0)]
  else if info_class =? FILE_INTERNAL_INFORMATION then Some [(fQ, file_id64 st)]
  else if info_class =? FILE_EA_INFORMATION then Some [(fI, 0)]
  else if info_class =? FILE_ACCESS_INFORMATION then Some [(fI, 2032127)]
  else if info_class =? FILE_POSITION_INFORMATION then Some [(fq, 0)]
  else if info_class =? FILE_MODE_INFORMATION then Some [(fI, 0)]
  else if info_class =? FILE_ALIGNMENT_INFORMATION then Some [(fI, 0)]
  else if info_class =? FILE_ATTRIBUTE_TAG_INFORMATION then Some [(fI, attrs); (fI, 0)]
  else if info_class =? FILE_NETWORK_OPEN_INFORMATION then
    Some (stat_times st ++ [(fq, allocation_of st); (fq, st_size st); (fI, attrs); (fI, 0)])
  else None.

Definition plain_info (info_class : Z) (st : stat_result) (read_only : bool) : result bytes :=
  match info_fields info_class st read_only with
  | Some fields => struct_result (pack fields)
  | None => Err TypeError
  end.

Definition counted_name (name : text) : result bytes :=
  raw ← utf16 name; n ← struct_result (pack [(fI, zlen raw)]); Ok (n ++ raw).

(** [file_info]; [None] for a class it does not encode *)
Definition file_info (info_class : Z) (st : stat_result) (name : text) (read_only : bool) : result (option bytes) :=
  if info_class =? FILE_NAME_INFORMATION then e ← counted_name name; Ok (Some e)
  else if info_class =? FILE_ALL_INFORMATION then
    name ← counted_name name;
    basic ← plain_info FILE_BASIC_INFORMATION st read_only;
    standard ← plain_info FILE_STANDARD_INFORMATION st read_only;
    internal ← plain_info FILE_INTERNAL_INFORMATION st false;
    ea ← plain_info FILE_EA_INFORMATION st false;
    access ← plain_info FILE_ACCESS_INFORMATION st false;
    Ok (Some (basic ++ standard ++ internal ++ ea ++ access ++ zeros 16 ++ name))
  else
    match info_fields info_class st read_only with
    | Some fields => e ← struct_result (pack fields); Ok (Some e)
    | None => Ok None
    end.
End info.

(** ** The volume *)

Definition FS_VOLUME_INFORMATION : Z := 1.
Definition FS_SIZE_INFORMATION : Z := 3.
Definition FS_DEVICE_INFORMATION : Z := 4.
Definition FS_ATTRIBUTE_INFORMATION : Z := 5.
Definition FS_FULL_SIZE_INFORMATION : Z := 7.
Definition INFO_TYPE_FILE : Z := 1.
Definition INFO_TYPE_FILESYSTEM : Z := 2.

(** [f_blocks], [f_bavail] and [f_frsize] of [os.statvfs] *)
Record statvfs_result := Statvfs { f_blocks : Z; f_bavail : Z; f_frsize : Z }.

(** [total, free, sectors_per_unit] of [fs_info]; where [statvfs] fails, so does the
    [shutil.disk_usage] of a POSIX host, which calls it too. *)
Definition fs_sizes (usage : result statvfs_result) : result (Z * Z * Z) :=
  match usage with
  | Ok u => Ok (f_blocks u, f_bavail u, Z.max 1 (f_frsize u / 512))
  | Err (OSError _) => Ok (0, 0, 8)
  | Err e => Err e
  end.

(** [fs_info] *)
Definition fs_info (info_class : Z) (usage : result statvfs_result) (label : text) : result (option bytes) :=
  if info_class =? FS_VOLUME_INFORMATION then
    raw ← utf16 label;
    e ← struct_result (pack [(fQ, 0); (fI, 1395802707); (fI, zlen raw); (fB, 0); (fB, 0)]);
    Ok (Some (e ++ raw))
  else if (info_class =? FS_SIZE_INFORMATION) || (info_class =? FS_FULL_SIZE_INFORMATION) then
    '(total, free, sectors) ← fs_sizes usage;
    e ← struct_result (pack ([(fq, total); (fq, free)]
      ++ (if info_class =? FS_SIZE_INFORMATION then [] else [(fq, free)]) ++ [(fI, sectors); (fI, 512)]));
    Ok (Some e)
  else if info_class =? FS_DEVICE_INFORMATION then
    e ← struct_result (pack [(fI, 7); (fI, 32)]); Ok (Some e)
  else if info_class =? FS_ATTRIBUTE_INFORMATION then
    raw ← utf16 (lit "NTFS");
    e ← struct_result (pack [(fI, 6); (fI, 255); (fI, zlen raw)]); Ok (Some (e ++ raw))
  else Ok None.
