(* ===== verification/Smb2Crypto.v ===== *)
(** * SMB2: message signing

    Models [smb2_server/smb2_crypto.py]: AES-128 (encryption only), AES-CMAC, the key
    derivation of SMB 3, RC4, and signing and verifying a message.  [aes_cmac] is the
    implementation in Python; the libraries of the operating system that replace it where
    they can be loaded are not modelled. *)

From S2P Require Import Prelude PyStr PyHash.

Definition SIGNATURE_OFFSET : Z := 48.
Definition SIGNATURE_SIZE : Z := 16.

(** ** AES-128 *)

Definition SBOX : list Z :=
  [99; 124; 119; 123; 242; 107; 111; 197; 48; 1; 103; 43; 254; 215; 171; 118;
   202; 130; 201; 125; 250; 89; 71; 240; 173; 212; 162; 175; 156; 164; 114; 192;
   183; 253; 147; 38; 54; 63; 247; 204; 52; 165; 229; 241; 113; 216; 49; 21;
   4; 199; 35; 195; 24; 150; 5; 154; 7; 18; 128; 226; 235; 39; 178; 117;
   9; 131; 44; 26; 27; 110; 90; 160; 82; 59; 214; 179; 41; 227; 47; 132;
   83; 209; 0; 237; 32; 252; 177; 91; 106; 203; 190; 57; 74; 76; 88; 207;
   208; 239; 170; 251; 67; 77; 51; 133; 69; 249; 2; 127; 80; 60; 159; 168;
   81; 163; 64; 143; 146; 157; 56; 245; 188; 182; 218; 33; 16; 255; 243; 210;
   205; 12; 19; 236; 95; 151; 68; 23; 196; 167; 126; 61; 100; 93; 25; 115;
   96; 129; 79; 220; 34; 42; 144; 136; 70; 238; 184; 20; 222; 94; 11; 219;
   224; 50; 58; 10; 73; 6; 36; 92; 194; 211; 172; 98; 145; 149; 228; 121;
   231; 200; 55; 109; 141; 213; 78; 169; 108; 86; 244; 234; 101; 122; 174; 8;
   186; 120; 37; 46; 28; 166; 180; 198; 232; 221; 116; 31; 75; 189; 139; 138;
   112; 62; 181; 102; 72; 3; 246; 14; 97; 53; 87; 185; 134; 193; 29; 158;
   225; 248; 152; 17; 105; 217; 142; 148; 155; 30; 135; 233; 206; 85; 40; 223;
   140; 161; 137; 13; 191; 230; 66; 104; 65; 153; 45; 15; 176; 84; 187; 22].

(** [_xtime] *)
Definition xtime (a : Z) : Z :=
  let a := Z.shiftl a 1 in
  let a := if negb (Z.land a 256 =? 0) then Z.lxor a 283 else a in
  Z.land a 255.

Definition MUL2 : list Z := Eval vm_compute in map xtime (seqZ 0 256).
Definition MUL3 : list Z := Eval vm_compute in map (fun i => Z.lxor (word MUL2 i) i) (seqZ 0 256).

(** One turn of the loop of [_expand_key]: the next four bytes of the round keys *)
Definition expand_step (st : list Z * Z) (i : Z) : list Z * Z :=
  let '(w, rcon) := st in
  let t := slice w (i - 4) i in
  let '(t, rcon) :=
    if i mod 16 =? 0 then
      ([Z.lxor (word SBOX (word t 1)) rcon; word SBOX (word t 2); word SBOX (word t 3); word SBOX (word t 0)], xtime rcon)
    else (t, rcon) in
  (w ++ map (fun j => Z.lxor (word w (i - 16 + j)) (word t j)) (seqZ 0 4), rcon).

(** [_expand_key] *)
Definition expand_key (key : bytes) : result (list Z) :=
  if negb (zlen key =? 16) then Err ValueError
  else Ok (fst (foldl expand_step (key, 1) (map (fun k => 16 + 4 * k) (seqZ 0 40)))).

(** One column of MixColumns *)
Definition mix_column (a0 a1 a2 a3 : Z) : list Z :=
  let m2 := word MUL2 in
  let m3 := word MUL3 in
  [Z.lxor (Z.lxor (Z.lxor (m2 a0) (m3 a1)) a2) a3;
   Z.lxor (Z.lxor (Z.lxor a0 (m2 a1)) (m3 a2)) a3;
   Z.lxor (Z.lxor (Z.lxor a0 a1) (m2 a2)) (m3 a3);
   Z.lxor (Z.lxor (Z.lxor (m3 a0) a1) a2) (m2 a3)].

Definition mix_columns (s : list Z) : list Z :=
  concat (map (fun c => mix_column (word s c) (word s (c + 1)) (word s (c + 2)) (word s (c + 3))) [0; 4; 8; 12]).

(** SubBytes and ShiftRows *)
Definition sub_shift (s : list Z) : list Z := map (fun i => word SBOX (word s ((i + 4 * (i mod 4)) mod 16))) (seqZ 0 16).

Definition add_key (rk s : list Z) (base : Z) : list Z := map (fun i => Z.lxor (word s i) (word rk (base + i))) (seqZ 0 16).

Definition round (rk s : list Z) (rnd : Z) : list Z :=
  let s := sub_shift s in
  let s := if negb (rnd =? 10) then mix_columns s else s in
  add_key rk s (rnd * 16).

(** [AES128.encrypt_block], with the round keys *)
Definition encrypt_block (rk block : list Z) : result bytes :=
  if negb (zlen block =? 16) then Err ValueError
  else Ok (foldl (round rk) (add_key rk block 0) (seqZ 1 10)).

(** ** AES-CMAC *)

(** [_shift_left_one] *)
Definition shift_left_one (block : bytes) : bytes * bool :=
  let n := Z.shiftl (be_int block) 1 in
  (be_bytes 16 (Z.land n (2 ^ 128 - 1)), negb (Z.shiftr n 128 =? 0)).

(** [k[:-1] + bytes([k[-1] ^ 0x87])] after a carry *)
Definition subkey (block : bytes) : bytes :=
  let '(k, carry) := shift_left_one block in
  if carry then ztake (zlen k - 1) k ++ [Z.lxor (word k (zlen k - 1)) 135] else k.

(** [bytes(a ^ b for a, b in zip(x, y))] *)
Definition xor_bytes (x y : bytes) : bytes := zip_with Z.lxor x y.

Fixpoint cmac_blocks (rk : list Z) (blocks : list bytes) (x : bytes) : result bytes :=
  match blocks with
  | [] => Ok x
  | block :: blocks => x ← encrypt_block rk (xor_bytes x block); cmac_blocks rk blocks x
  end.

(** [aes_cmac_pure] *)
Definition aes_cmac (key message : bytes) : result bytes :=
  rk ← expand_key key;
  l_block ← encrypt_block rk (zeros 16);
  let k1 := subkey l_block in
  let k2 := subkey k1 in
  let n := (zlen message + 15) / 16 in
  let '(n, complete) := if n =? 0 then (1, false) else (n, zlen message mod 16 =? 0) in
  let last := zdrop ((n - 1) * 16) message in
  let last := if complete then xor_bytes last k1
              else xor_bytes (last ++ 128 :: zeros (15 - zlen last)) k2 in
  x ← cmac_blocks rk (map (fun i => slice message (i * 16) ((i + 1) * 16)) (seqZ 0 (n - 1))) (zeros 16);
  encrypt_block rk (xor_bytes x last).

(** ** Key derivation *)

Fixpoint kdf_loop (fuel : nat) (key label context : bytes) (length counter : Z) (out : bytes) : result bytes :=
  if zlen out <? length then
    match fuel with
    | O => Err Hang
    | S fuel =>
        let mac := hmac sha256 key
          (be_bytes 4 counter ++ label ++ [0; 0] ++ context ++ [0] ++ be_bytes 4 (length * 8)) in
        kdf_loop fuel key label context length (counter + 1) (out ++ mac)
    end
  else Ok (ztake length out).

(** [kdf]; each turn adds the 32 bytes of a hash. *)
Definition kdf (key label context : bytes) (length : Z) : result bytes :=
  kdf_loop (Z.to_nat length) key label context length 1 [].

(** ** RC4 *)

Definition swap (s : list Z) (i j : Z) : list Z :=
  let a := word s i in
  let b := word s j in
  <[Z.to_nat j := a]> (<[Z.to_nat i := b]> s).

Definition key_step (key : bytes) (st : list Z * Z) (i : Z) : list Z * Z :=
  let '(s, j) := st in
  let j := Z.land (j + word s i + word key (i mod zlen key)) 255 in
  (swap s i j, j).

(** One byte of the key stream *)
Definition rc4_next (s : list Z) (i j : Z) : Z * list Z * Z * Z :=
  let i := Z.land (i + 1) 255 in
  let j := Z.land (j + word s i) 255 in
  let s := swap s i j in
  (word s (Z.land (word s i + word s j) 255), s, i, j).

Fixpoint rc4_loop (s : list Z) (i j : Z) (data : bytes) : bytes :=
  match data with
  | [] => []
  | byte :: data => let '(k, s, i, j) := rc4_next s i j in Z.lxor byte k :: rc4_loop s i j data
  end.

(** [rc4]; an empty key raises [ZeroDivisionError], which no caller tells from [ValueError]. *)
Definition rc4 (key data : bytes) : result bytes :=
  if zlen key =? 0 then Err ValueError
  else
    let '(s, _) := foldl (key_step key) (seqZ 0 256, 0) (seqZ 0 256) in
    Ok (rc4_loop s 0 0 data).

(** ** Signing *)

(** [signing_key] *)
Definition signing_key (session_key : bytes) (dialect : Z) : result bytes :=
  let key := ztake 16 session_key in
  if 768 <=? dialect then kdf key (lit "SMB2AESCMAC") (lit "SmbSign") 16 else Ok key.

(** The message with a field of 16 bytes at the place of the signature *)
Definition with_signature (mac message : bytes) : bytes :=
  ztake SIGNATURE_OFFSET message ++ mac ++ zdrop (SIGNATURE_OFFSET + SIGNATURE_SIZE) message.

(** [sign] *)
Definition sign (key : bytes) (dialect : Z) (message : bytes) : result bytes :=
  let zeroed := with_signature (zeros SIGNATURE_SIZE) message in
  if 768 <=? dialect then aes_cmac key zeroed
  else Ok (ztake SIGNATURE_SIZE (hmac sha256 key zeroed)).

(** [signed] *)
Definition signed (key : bytes) (dialect : Z) (message : bytes) : result bytes :=
  mac ← sign key dialect message; Ok (with_signature mac message).

(** [verify] *)
Definition verify (key : bytes) (dialect : Z) (message : bytes) : result bool :=
  if zlen message <? SIGNATURE_OFFSET + SIGNATURE_SIZE then Ok false
  else
    expected ← sign key dialect message;
    Ok (str_eqb expected (slice message SIGNATURE_OFFSET (SIGNATURE_OFFSET + SIGNATURE_SIZE))).

(** ** Test vectors *)

(** FIPS-197, appendix B *)
Example aes_fips197 :
  (rk ← expand_key (hex "2b7e151628aed2a6abf7158809cf4f3c"); encrypt_block rk (hex "3243f6a8885a308d313198a2e0370734"))
  = Ok (hex "3925841d02dc09fbdc118597196a0b32").
Proof. vm_compute. reflexivity. Qed.

(** RFC 4493, examples 1 and 3 *)
Example cmac_empty : aes_cmac (hex "2b7e151628aed2a6abf7158809cf4f3c") [] = Ok (hex "bb1d6929e95937287fa37d129b756746").
Proof. vm_compute. reflexivity. Qed.

Example cmac_40 :
  aes_cmac (hex "2b7e151628aed2a6abf7158809cf4f3c")
    (hex "6bc1bee22e409f96e93d7e117393172aae2d8a571e03ac9c9eb76fac45af8e5130c81c46a35ce411")
  = Ok (hex "dfa66747de9ae63030ca32611497c827").
Proof. vm_compute. reflexivity. Qed.

Example rc4_key : rc4 (lit "Key") (lit "Plaintext") = Ok (hex "bbf316e8d940af0ad3").
Proof. vm_compute. reflexivity. Qed.
