(* ===== verification/Smb2Auth.v ===== *)
(** * SMB2: NTLMv2 credentials and their messages

    Models [smb2_server/smb2_auth.py]: MD4, the keys of NTLMv2, and [Authenticator], which
    decides whether a response proves the password.  What Python knows of the case of
    letters beyond ASCII is an argument, of class [CaseFolding].  [compare_digest] is
    equality here; the work done for an unknown user, so that the time taken tells nothing,
    has no result and is left out.  Then [smb2_server/smb2_spnego.py]: NTLMSSP and SPNEGO. *)

From S2P Require Import Prelude PyStr PyText Compressed HostOs PyHash Smb2Wire Smb2Crypto.

Class CaseFolding := {
  (** [s.casefold()] *)
  py_casefold : text -> text;
  (** [s.upper()] *)
  py_upper : text -> text;
  (** [s.lower()] *)
  py_lowercase : text -> text
}.

Definition NTLMV2_HEADER : bytes := [1; 1; 0; 0; 0; 0; 0; 0].
Definition PROOF_LEN : Z := 16.

(** ** MD4 *)

(** The states [(a, b, c, d)] between the operations *)
Abbreviation state := (Z * Z * Z * Z)%type.

Definition md4_round1 (x : list Z) (st : state) (i : Z) : state :=
  let '(a, b, c, d) := st in
  let f x y z := Z.land (Z.lor (Z.land x y) (Z.land (Z.lnot x) z)) MASK32 in
  let a := rol (w32 (a + f b c d + word x i)) 3 in
  let d := rol (w32 (d + f a b c + word x (i + 1))) 7 in
  let c := rol (w32 (c + f d a b + word x (i + 2))) 11 in
  let b := rol (w32 (b + f c d a + word x (i + 3))) 19 in
  (a, b, c, d).

Definition md4_round2 (x : list Z) (st : state) (i : Z) : state :=
  let '(a, b, c, d) := st in
  let g x y z := Z.land (Z.lor (Z.lor (Z.land x y) (Z.land x z)) (Z.land y z)) MASK32 in
  let k := 1518500249 in
  let a := rol (w32 (a + g b c d + word x i + k)) 3 in
  let d := rol (w32 (d + g a b c + word x (i + 4) + k)) 5 in
  let c := rol (w32 (c + g d a b + word x (i + 8) + k)) 9 in
  let b := rol (w32 (b + g c d a + word x (i + 12) + k)) 13 in
  (a, b, c, d).

Definition md4_round3 (x : list Z) (st : state) (i : Z) : state :=
  let '(a, b, c, d) := st in
  let h x y z := Z.land (Z.lxor (Z.lxor x y) z) MASK32 in
  let k := 1859775393 in
  let a := rol (w32 (a + h b c d + word x i + k)) 3 in
  let d := rol (w32 (d + h a b c + word x (i + 8) + k)) 9 in
  let c := rol (w32 (c + h d a b + word x (i + 4) + k)) 11 in
  let b := rol (w32 (b + h c d a + word x (i + 12) + k)) 15 in
  (a, b, c, d).

Definition md4_block (st : state) (block : bytes) : state :=
  let x := words_le block in
  let '(a, b, c, d) := st in
  let st := foldl (md4_round1 x) st [0; 4; 8; 12] in
  let st := foldl (md4_round2 x) st [0; 1; 2; 3] in
  let '(a', b', c', d') := foldl (md4_round3 x) st [0; 2; 1; 3] in
  (w32 (a' + a), w32 (b' + b), w32 (c' + c), w32 (d' + d)).

(** [md4] *)
Definition md4 (data : bytes) : bytes :=
  let count bits := le_bytes 8 bits in
  let '(a, b, c, d) :=
    foldl md4_block (1732584193, 4023233417, 2562383102, 271733878) (chunks_of 64 (pad64 count data)) in
  le_bytes 4 a ++ le_bytes 4 b ++ le_bytes 4 c ++ le_bytes 4 d.

(** RFC 1320 *)
Example md4_abc : md4 (lit "abc") = hex "a448017aaf21d8525fc10ae87aa6729d".
Proof. vm_compute. reflexivity. Qed.

(** ** NTLMv2 *)

(** [nt_hash] *)
Definition nt_hash (password : text) : result bytes := raw ← utf16 password; Ok (md4 raw).

Section auth.
Context `{CaseFolding}.

(** [ntowfv2] *)
Definition ntowfv2 (password user domain : text) : result bytes :=
  key ← nt_hash password;
  identity ← utf16 (py_upper user ++ domain);
  Ok (hmac md5 key identity).

(** [ntlmv2_proof] *)
Definition ntlmv2_proof (ntowf server_challenge blob : bytes) : bytes := hmac md5 ntowf (server_challenge ++ blob).

(** [session_base_key] *)
Definition session_base_key (ntowf proof : bytes) : bytes := hmac md5 ntowf proof.

(** [parse_ntlmv2_response] *)
Definition parse_ntlmv2_response (data : bytes) : result (bytes * bytes) :=
  if zlen data <? PROOF_LEN + zlen NTLMV2_HEADER then Err (NtStatus STATUS_LOGON_FAILURE)
  else
    let proof := ztake PROOF_LEN data in
    let blob := zdrop PROOF_LEN data in
    if negb (str_eqb (ztake (zlen NTLMV2_HEADER) blob) NTLMV2_HEADER) then Err (NtStatus STATUS_LOGON_FAILURE)
    else Ok (proof, blob).

(** ** [Authenticator] *)

(** [_users] is keyed by the folded name. *)
Record authenticator := Auth { users : list (text * text); auth_domain : text; is_open : bool }.

Definition user_password (name : text) (l : list (text * text)) : option text :=
  match find (fun up => str_eqb (fst up) name) l with Some up => Some (snd up) | None => None end.

(** [Authenticator.__init__] *)
Definition new_authenticator (names : list (text * text)) (domain : text) : result authenticator :=
  match names with
  | [] => Err ValueError
  | _ =>
      let folded := map (fun up => (py_casefold (fst up), snd up)) names in
      if bool_decide (NoDup (map fst folded)) then Ok (Auth folded domain false) else Err ValueError
  end.

(** [Authenticator.open] *)
Definition open_authenticator (domain : text) : authenticator := Auth [] domain true.

(** [Authenticator.verify]: the session's base key, or none in open mode *)
Definition verify_user (au : authenticator) (user : text) (response challenge : bytes) (domain : text)
    : result (option bytes) :=
  if is_open au then Ok None
  else
    '(proof, blob) ← parse_ntlmv2_response response;
    match user_password (py_casefold user) (users au) with
    | None => Err (NtStatus STATUS_LOGON_FAILURE)
    | Some password =>
        ntowf ← ntowfv2 password user domain;
        let expected := ntlmv2_proof ntowf challenge blob in
        if negb (str_eqb expected proof) then Err (NtStatus STATUS_LOGON_FAILURE)
        else Ok (Some (session_base_key ntowf proof))
    end.
End auth.

(** ** SMB2: NTLMSSP and SPNEGO

    Models [smb2_server/smb2_spnego.py]: the DER the server writes, the three NTLMSSP
    messages, and what an AUTHENTICATE message claims, with its MIC and its session key. *)

Definition NTLMSSP_SIGNATURE : bytes := lit "NTLMSSP" ++ [0].
Definition NTLM_NEGOTIATE : Z := 1.
Definition NTLM_CHALLENGE : Z := 2.
Definition NTLM_AUTHENTICATE : Z := 3.

Definition NEGOTIATE_SIGN : Z := 16.
Definition NEGOTIATE_VERSION : Z := 33554432.
Definition NEGOTIATE_KEY_EXCH : Z := 1073741824.

(** UNICODE, REQUEST_TARGET, NTLM, ALWAYS_SIGN, EXTENDED_SESSIONSECURITY, TARGET_INFO,
    128 and 56 *)
Definition CHALLENGE_FLAGS : Z :=
  Eval vm_compute in fold_right Z.lor 0 [1; 4; 512; 32768; 524288; 8388608; 536870912; 2147483648].
Definition ECHOED_FLAGS : Z := Eval vm_compute in Z.lor NEGOTIATE_SIGN (Z.lor NEGOTIATE_KEY_EXCH NEGOTIATE_VERSION).

Definition MSV_AV_EOL : Z := 0.
Definition MSV_AV_NB_COMPUTER_NAME : Z := 1.
Definition MSV_AV_NB_DOMAIN_NAME : Z := 2.
Definition MSV_AV_DNS_COMPUTER_NAME : Z := 3.
Definition MSV_AV_DNS_DOMAIN_NAME : Z := 4.
Definition MSV_AV_FLAGS : Z := 6.
Definition AV_FLAG_MIC_PRESENT : Z := 2.
Definition MIC_OFFSET : Z := 72.
Definition MIC_SIZE : Z := 16.

Definition SPNEGO_OID : bytes := [6; 6; 43; 6; 1; 5; 5; 2].
Definition NTLMSSP_OID : bytes := [6; 10; 43; 6; 1; 4; 1; 130; 55; 2; 2; 10].
Definition ACCEPT_COMPLETED : Z := 0.
Definition ACCEPT_INCOMPLETE : Z := 1.

(** ** DER *)

(** [n.bit_length()] *)
Definition bit_length (n : Z) : Z := if n =? 0 then 0 else Z.log2 n + 1.

(** [_der_len] *)
Definition der_len (n : Z) : bytes :=
  if n <? 128 then [n]
  else
    let raw := be_bytes (Z.to_nat ((bit_length n + 7) / 8)) n in
    Z.lor 128 (zlen raw) :: raw.

(** [_tlv] *)
Definition tlv (tag : Z) (value : bytes) : bytes := tag :: der_len (zlen value) ++ value.

(** [neg_token_init] *)
Definition neg_token_init : bytes :=
  let mech_list := tlv 48 NTLMSSP_OID in
  let token := tlv 48 (tlv 160 mech_list) in
  tlv 96 (SPNEGO_OID ++ tlv 160 token).

(** [neg_token_resp] *)
Definition neg_token_resp (neg_state : Z) (response_token : option bytes) (with_mech : bool) : bytes :=
  tlv 161 (tlv 48
    (tlv 160 (tlv 10 [neg_state])
     ++ (if with_mech then tlv 161 NTLMSSP_OID else [])
     ++ match response_token with Some t => tlv 162 (tlv 4 t) | None => [] end)).

(** [extract_ntlm]: from the first signature to the end *)
Fixpoint extract_ntlm (blob : bytes) : option bytes :=
  match blob with
  | [] => None
  | _ :: t => if startswith blob NTLMSSP_SIGNATURE then Some blob else extract_ntlm t
  end.

(** [is_raw_ntlmssp] *)
Definition is_raw_ntlmssp (blob : bytes) : bool := str_eqb (ztake (zlen NTLMSSP_SIGNATURE) blob) NTLMSSP_SIGNATURE.

(** A little-endian field of [n] bytes at [off], where the message is long enough for it *)
Definition field_at (n : nat) (token : bytes) (off : Z) : Z := le_int (slice token off (off + Z.of_nat n)).

(** [message_type] *)
Definition message_type (token : bytes) : option Z := if zlen token <? 12 then None else Some (field_at 4 token 8).

(** The [(Len, Offset)] of the triple at [off] *)
Definition triple (token : bytes) (off : Z) : result (Z * Z) :=
  fields ← struct_result (unpack_from [fH; fH; fI] token off);
  match fields with [length; _; at_] => Ok (length, at_) | _ => Err StructError end.

(** [_field] *)
Definition field_of (token : bytes) (off : Z) : result bytes :=
  '(length, at_) ← triple token off;
  if length =? 0 then Ok []
  else if zlen token <? at_ + length then Err (NtStatus STATUS_INVALID_PARAMETER)
  else Ok (slice token at_ (at_ + length)).

(** [_av_pair] *)
Definition av_pair (kind : Z) (value : bytes) : result bytes :=
  head ← struct_result (pack [(fH, kind); (fH, zlen value)]); Ok (head ++ value).

(** [negotiate_flags] *)
Definition negotiate_flags (token : bytes) : Z := if zlen token <? 16 then 0 else field_at 4 token 12.

(** [_FIELD_OFFSETS]: where the triples sit, the fixed size, where the flags sit *)
Definition FIELD_OFFSETS (kind : option Z) : option (list Z * Z * Z) :=
  match kind with
  | Some 1 => Some ([16; 24], 32, 12)
  | Some 3 => Some ([12; 20; 28; 36; 44; 52], 64, 60)
  | _ => None
  end.

Fixpoint trim_end (token : bytes) (offs : list Z) (end_ : Z) : result Z :=
  match offs with
  | [] => Ok end_
  | off :: offs =>
      '(length, at_) ← triple token off;
      trim_end token offs (if negb (length =? 0) then Z.max end_ (at_ + length) else end_)
  end.

(** [trim] *)
Definition trim (token : bytes) : result bytes :=
  match FIELD_OFFSETS (message_type token) with
  | None => Ok token
  | Some (offs, fixed, flags_at) =>
      if zlen token <? fixed then Ok token
      else
        end_ ← trim_end token offs (if has (field_at 4 token flags_at) NEGOTIATE_VERSION then fixed + 8 else fixed);
        Ok (ztake (Z.min end_ (zlen token)) token)
  end.

(** [build_challenge] *)
Definition build_challenge (challenge : bytes) (target_name computer : text) (compact : bool) (client_flags : Z)
    : result bytes :=
  let flags := Z.lor CHALLENGE_FLAGS (Z.land client_flags ECHOED_FLAGS) in
  target ← utf16 target_name;
  computer ← utf16 computer;
  domain_pair ← av_pair MSV_AV_NB_DOMAIN_NAME target;
  computer_pair ← av_pair MSV_AV_NB_COMPUTER_NAME computer;
  dns ← (if compact then Ok []
         else d ← av_pair MSV_AV_DNS_DOMAIN_NAME target; c ← av_pair MSV_AV_DNS_COMPUTER_NAME computer; Ok (d ++ c));
  eol ← av_pair MSV_AV_EOL [];
  let info := domain_pair ++ computer_pair ++ dns ++ eol in
  let target_at := 56 in
  let info_at := target_at + zlen target in
  kind ← struct_result (pack [(fI, NTLM_CHALLENGE); (fH, zlen target); (fH, zlen target); (fI, target_at); (fI, flags)]);
  info_field ← struct_result (pack [(fH, zlen info); (fH, zlen info); (fI, info_at)]);
  version ← struct_result (pack [(fB, 6); (fB, 1); (fH, 7601); (fB, 0); (fB, 0); (fB, 0); (fB, 15)]);
  Ok (NTLMSSP_SIGNATURE ++ kind ++ challenge ++ zeros 8 ++ info_field ++ version ++ target ++ info).

(** ** AUTHENTICATE *)

Record credentials := Credentials {
  user : text;
  domain : text;
  workstation : text;
  nt_response : bytes;
  lm_response : bytes;
  cr_flags : Z;
  encrypted_session_key : bytes;
  mic : option bytes;
  raw : bytes
}.

(** [Credentials.is_anonymous] *)
Definition is_anonymous (c : credentials) : bool :=
  match user c with [] => zlen (nt_response c) =? 0 | _ => false end.

(** The pairs of [av_pairs], in order; of two with one id the later counts. *)
Fixpoint av_list (fuel : nat) (nt : bytes) (at_ : Z) : list (Z * bytes) :=
  match fuel with
  | O => []
  | S fuel =>
      if at_ + 4 <=? zlen nt then
        let kind := field_at 2 nt at_ in
        let length := field_at 2 nt (at_ + 2) in
        if kind =? MSV_AV_EOL then []
        else (kind, slice nt (at_ + 4) (at_ + 4 + length)) :: av_list fuel nt (at_ + 4 + length)
      else []
  end.

(** [av_pairs(nt).get(kind, b"")]; each pair takes at least four bytes. *)
Definition av_get (kind : Z) (nt : bytes) : bytes :=
  match find (fun kv => fst kv =? kind) (rev (av_list (length nt) nt 44)) with Some kv => snd kv | None => [] end.

(** [min((offset of the field) for the fields that are not empty, default=...)] *)
Fixpoint payload_start (token : bytes) (offs : list Z) : result (option Z) :=
  match offs with
  | [] => Ok None
  | off :: offs =>
      '(length, at_) ← triple token off;
      rest ← payload_start token offs;
      Ok (if length =? 0 then rest
          else match rest with Some r => Some (Z.min at_ r) | None => Some at_ end)
  end.

(** [parse_authenticate] *)
Definition parse_authenticate (token : bytes) : result credentials :=
  if zlen token <? 64 then Err (NtStatus STATUS_INVALID_PARAMETER)
  else
    token ← trim token;
    lm ← field_of token 12;
    nt ← field_of token 20;
    domain ← field_of token 28;
    user ← field_of token 36;
    workstation ← field_of token 44;
    encrypted_key ← field_of token 52;
    flags ← struct_result (unpack_from [fI] token 60);
    let av_flags := av_get MSV_AV_FLAGS nt in
    mic ← (if (4 <=? zlen av_flags) && has (field_at 4 av_flags 0) AV_FLAG_MIC_PRESENT then
             start ← payload_start token [12; 20; 28; 36; 44; 52];
             let start := default (zlen token) start in
             if (zlen token <? MIC_OFFSET + MIC_SIZE) || (start <? MIC_OFFSET + MIC_SIZE)
             then Err (NtStatus STATUS_INVALID_PARAMETER)
             else Ok (Some (slice token MIC_OFFSET (MIC_OFFSET + MIC_SIZE)))
           else Ok None);
    Ok {| user := from_utf16 user; domain := from_utf16 domain; workstation := from_utf16 workstation;
          nt_response := nt; lm_response := lm; cr_flags := hd 0 flags; encrypted_session_key := encrypted_key;
          mic := mic; raw := token |}.

(** [exported_session_key] *)
Definition exported_session_key (base_key : bytes) (c : credentials) : result bytes :=
  if has (cr_flags c) NEGOTIATE_KEY_EXCH && (zlen (encrypted_session_key c) =? 16)
  then rc4 base_key (encrypted_session_key c)
  else Ok base_key.

(** [verify_mic]; no message is [None]. *)
Definition verify_mic (exported_key : bytes) (negotiate challenge : option bytes) (c : credentials) : result bool :=
  match mic c with
  | None => Ok true
  | Some m =>
      match negotiate with
      | None | Some [] => Ok false
      | Some n =>
          match challenge with
          | None => Err TypeError
          | Some ch =>
              let auth := ztake MIC_OFFSET (raw c) ++ zeros MIC_SIZE ++ zdrop (MIC_OFFSET + MIC_SIZE) (raw c) in
              Ok (str_eqb (hmac md5 exported_key (n ++ ch ++ auth)) m)
          end
      end
  end.
