(* ===== verification/Smb2Srvsvc.v ===== *)
(** * SMB2: the share list pipe

    Models [smb2_server/smb2_srvsvc.py]: the pipe [srvsvc] of IPC$, which answers DCE/RPC
    binds and one call, NetrShareEnum.  The list of shares is an argument of each call. *)

From S2P Require Import Prelude PyStr PyText Compressed HostOs Smb2Wire.

Definition PTYPE_REQUEST : Z := 0.
Definition PTYPE_RESPONSE : Z := 2.
Definition PTYPE_FAULT : Z := 3.
Definition PTYPE_BIND : Z := 11.
Definition PTYPE_BIND_ACK : Z := 12.
Definition PTYPE_ALTER_CONTEXT : Z := 14.
Definition PTYPE_ALTER_CONTEXT_RESP : Z := 15.
Definition PFC_FIRST_FRAG : Z := 1.
Definition PFC_LAST_FRAG : Z := 2.
Definition DREP_LE : bytes := [16; 0; 0; 0].

Definition SRVSVC_SYNTAX : bytes := [200; 79; 50; 75; 112; 22; 211; 1; 18; 120; 90; 71; 191; 110; 225; 136; 3; 0; 0; 0].
Definition NDR32_SYNTAX : bytes := [4; 93; 136; 138; 235; 28; 201; 17; 159; 232; 8; 0; 43; 16; 72; 96; 2; 0; 0; 0].
Definition OPNUM_NETR_SHARE_ENUM : Z := 15.
Definition RESULT_ACCEPTANCE : Z := 0.
Definition RESULT_PROVIDER_REJECTION : Z := 2.
Definition REASON_ABSTRACT_SYNTAX_NOT_SUPPORTED : Z := 1.
Definition REASON_TRANSFER_SYNTAXES_NOT_SUPPORTED : Z := 2.
Definition NCA_OP_RNG_ERROR : Z := 469827586.
Definition NCA_PROTO_ERROR : Z := 469827595.
Definition NCA_UNSPEC_REJECT : Z := 469762057.
Definition STYPE_DISKTREE : Z := 0.
Definition STYPE_IPC : Z := 3.
Definition STYPE_SPECIAL : Z := 2147483648.
Definition ERROR_INVALID_LEVEL : Z := 124.
Definition MAX_FRAG : Z := 4280.

(** A row of the list: name, type, remark, path *)
Record share_row := Row { sr_name : text; sr_type : Z; sr_remark : text; sr_path : text }.

Record pipe := Pipe { bound : bool; context_id : Z; max_frag : Z; outbox : bytes }.

#[export] Instance eta_pipe : Eta pipe := fun p => Pipe (bound p) (context_id p) (max_frag p) (outbox p).

Definition new_pipe : pipe := Pipe false 0 MAX_FRAG [].

(** [_header] *)
Definition rpc_header (ptype flags call_id body_len : Z) : result bytes :=
  a ← struct_result (pack [(fB, 5); (fB, 0); (fB, ptype); (fB, flags)]);
  b ← struct_result (pack [(fH, 16 + body_len); (fH, 0); (fI, call_id)]);
  Ok (a ++ DREP_LE ++ b).

Definition pdu (ptype flags call_id : Z) (body : bytes) : result bytes :=
  h ← rpc_header ptype flags call_id (zlen body); Ok (h ++ body).

(** [_pad4] *)
Definition pad4 (data : bytes) : bytes := data ++ zeros ((4 - zlen data mod 4) mod 4).

(** [_ndr_string] *)
Definition ndr_string (s : text) : result bytes :=
  raw ← utf16 (s ++ [0]);
  let count := zlen raw / 2 in
  head ← struct_result (pack [(fI, count); (fI, 0); (fI, count)]);
  Ok (pad4 (head ++ raw)).

(** [data[a:b]], where a negative [b] counts from the end *)
Definition py_slice (data : bytes) (a b : Z) : bytes := slice data a (if b <? 0 then zlen data + b else b).

(** ** [Reader] *)

(** The methods of [Reader] on its position, for the stub [data] *)
Definition align (n at_ : Z) : Z := Z.land (at_ + n - 1) (Z.lnot (n - 1)).

Definition u32 (data : bytes) : M Z Z := fun at_ =>
  let at_ := align 4 at_ in
  if zlen data <? at_ + 4 then (Err RpcError, at_)
  else (Ok (le_int (slice data at_ (at_ + 4))), at_ + 4).

Definition skip_string (data : bytes) : M Z unit :=
  max_count ← u32 data;
  _ ← u32 data;
  actual ← u32 data;
  at_ ← mget (fun at_ => at_);
  if (max_count <? actual) || (zlen data <? at_ + actual * 2) then raise RpcError
  else mmod (fun at_ => at_ + actual * 2).

(** What [_share_enum] reads: the level *)
Definition enum_request (data : bytes) : M Z Z :=
  server ← u32 data;
  _ ← (if negb (server =? 0) then skip_string data else mret tt);
  level ← u32 data;
  _ ← u32 data;
  mret level.

(** ** NetrShareEnum *)

Definition REF_START : Z := 131072.

(** [ptr()], given how many it was called before *)
Definition ptr (n : Z) : Z := REF_START + 4 * (n + 1).

(** Fixed part and deferred strings of one row, whose pointers start at [n] *)
Definition row_fixed (level n : Z) (r : share_row) : list (fmt * Z) :=
  [(fI, ptr n)]
  ++ (if 1 <=? level then [(fI, sr_type r); (fI, ptr (n + 1))] else [])
  ++ (if level =? 2 then [(fI, 0); (fI, 4294967295); (fI, 0); (fI, ptr (n + 2)); (fI, 0)] else []).

Definition row_deferred (level : Z) (r : share_row) : result bytes :=
  name ← ndr_string (sr_name r);
  remark ← (if 1 <=? level then ndr_string (sr_remark r) else Ok []);
  path ← (if level =? 2 then ndr_string (sr_path r) else Ok []);
  Ok (name ++ remark ++ path).

Fixpoint rows_encoded (level n : Z) (rows : list share_row) : result (bytes * bytes) :=
  match rows with
  | [] => Ok ([], [])
  | r :: rows =>
      fixed ← struct_result (pack (row_fixed level n r));
      deferred ← row_deferred level r;
      '(fs, ds) ← rows_encoded level (n + level + 1) rows;
      Ok (fixed ++ fs, deferred ++ ds)
  end.

(** The stub of [_share_enum] for a level *)
Definition share_enum (level : Z) (rows : list share_row) : result bytes :=
  if negb ((level =? 0) || (level =? 1) || (level =? 2)) then
    struct_result (pack [(fI, level); (fI, level); (fI, 0); (fI, 0); (fI, 0); (fI, ERROR_INVALID_LEVEL)])
  else
    '(fixed, deferred) ← rows_encoded level 0 rows;
    let n := zlen rows in
    let used := n * (level + 1) in
    head ← struct_result (pack [(fI, level); (fI, level); (fI, ptr used); (fI, n)]);
    '(rest, used) ← (match rows with
                     | [] => z ← struct_result (pack [(fI, 0)]); Ok (z, used + 1)
                     | _ => p ← struct_result (pack [(fI, ptr (used + 1)); (fI, n)]);
                            Ok (p ++ fixed ++ deferred, used + 2)
                     end);
    tail ← struct_result (pack [(fI, n); (fI, ptr used); (fI, 0); (fI, 0)]);
    Ok (head ++ rest ++ tail).

(** ** PDUs *)

Section pipe.
Context (shares : list share_row).

(** [_fault] *)
Definition fault (call_id st : Z) (p : pipe) : result bytes :=
  body ← struct_result (pack [(fI, 32); (fH, context_id p); (fB, 0); (fB, 0); (fI, st); (fI, 0)]);
  pdu PTYPE_FAULT (Z.lor (Z.lor PFC_FIRST_FRAG PFC_LAST_FRAG) 32) call_id body.

(** The loop of [_response]; a fragment carries at least a byte while any are left. *)
Fixpoint response_loop (fuel : nat) (call_id ctx room : Z) (stub : bytes) (first : bool) : result bytes :=
  match fuel with
  | O => Err Hang
  | S fuel =>
      let chunk := ztake room stub in
      let rest := zdrop (zlen chunk) stub in
      let last := match rest with [] => true | _ => false end in
      let flags := Z.lor (if first then PFC_FIRST_FRAG else 0) (if last then PFC_LAST_FRAG else 0) in
      head ← struct_result (pack [(fI, zlen rest + zlen chunk); (fH, ctx); (fB, 0); (fB, 0)]);
      out ← pdu PTYPE_RESPONSE flags call_id (head ++ chunk);
      if last then Ok out
      else more ← response_loop fuel call_id ctx room rest false; Ok (out ++ more)
  end.

(** [_response] *)
Definition response (call_id : Z) (stub : bytes) (p : pipe) : result bytes :=
  response_loop (S (length stub)) call_id (context_id p) (max_frag p - 16 - 8) stub true.

(** [_request] *)
Definition rpc_request (call_id : Z) (body : bytes) (p : pipe) : result bytes :=
  if zlen body <? 8 then Err RpcError
  else
    fields ← struct_result (unpack_from [fI; fH; fH] body 0);
    match fields with
    | [_; ctx_id; opnum] =>
        if negb (bound p) || negb (ctx_id =? context_id p) then fault call_id NCA_PROTO_ERROR p
        else if negb (opnum =? OPNUM_NETR_SHARE_ENUM) then fault call_id NCA_OP_RNG_ERROR p
        else
          match fst (enum_request (zdrop 8 body) 0) with
          | Ok level => stub ← share_enum level shares; response call_id stub p
          | Err RpcError => fault call_id NCA_PROTO_ERROR p
          | Err e => Err e
          end
    | _ => Err StructError
    end.

(** The list of transfer syntaxes of a context at [at_] *)
Definition syntaxes_at (body : bytes) (at_ n : Z) : list bytes :=
  map (fun i => slice body (at_ + 24 + 20 * i) (at_ + 44 + 20 * i)) (seqZ 0 n).

Fixpoint accepted_fuel (fuel : nat) (results : bytes) : bool :=
  match fuel, results with
  | O, _ | _, [] => false
  | S fuel, _ => str_eqb (ztake 2 results) [0; 0] || accepted_fuel fuel (zdrop 24 results)
  end.

(** [_accepted_in] *)
Definition accepted_in (results : bytes) : bool := accepted_fuel (length results) results.

Definition rejection (reason : Z) : bytes := le_bytes 2 RESULT_PROVIDER_REJECTION ++ le_bytes 2 reason ++ zeros 20.

(** The loop of [_bind] over the contexts offered *)
Fixpoint bind_contexts (n : nat) (body : bytes) (at_ : Z) (results : bytes) (p : pipe) : result bytes * pipe :=
  match n with
  | O => (Ok results, p)
  | S n =>
      if zlen body <? at_ + 24 then (Err RpcError, p)
      else
        let ctx_id := le_int (slice body at_ (at_ + 2)) in
        let n_syn := znth body (at_ + 2) in
        let abstract := slice body (at_ + 4) (at_ + 24) in
        let next := at_ + 24 + 20 * n_syn in
        if negb (str_eqb abstract SRVSVC_SYNTAX) then
          bind_contexts n body next (results ++ rejection REASON_ABSTRACT_SYNTAX_NOT_SUPPORTED) p
        else if existsb (str_eqb NDR32_SYNTAX) (syntaxes_at body at_ n_syn) && negb (accepted_in results) then
          bind_contexts n body next (results ++ zeros 4 ++ NDR32_SYNTAX) (p <| bound := true |> <| context_id := ctx_id |>)
        else bind_contexts n body next (results ++ rejection REASON_TRANSFER_SYNTAXES_NOT_SUPPORTED) p
  end.

(** [_bind] *)
Definition rpc_bind (ptype call_id : Z) (body : bytes) : M pipe bytes :=
  if zlen body <? 12 then raise RpcError
  else
    fields ← lift (struct_result (unpack_from [fH; fH; fI] body 0));
    match fields with
    | [_; max_recv; assoc] =>
        let n_ctx := znth body 8 in
        results ← bind_contexts (Z.to_nat n_ctx) body 12 [];
        _ ← mmod (fun p => p <| max_frag := Z.max 1024 (Z.min MAX_FRAG (if max_recv =? 0 then MAX_FRAG else max_recv)) |>);
        mf ← mget max_frag;
        out ← lift (struct_result (pack [(fH, mf); (fH, mf); (fI, if assoc =? 0 then 21488 else assoc)]));
        let sec := lit "\PIPE\srvsvc" ++ [0] in
        address ← lift (struct_result (pack [(fH, if ptype =? PTYPE_BIND then zlen sec else 0)]));
        let out := pad4 (out ++ address ++ (if ptype =? PTYPE_BIND then sec else [])) in
        count ← lift (struct_result (pack [(fB, n_ctx)]));
        let reply := if ptype =? PTYPE_BIND then PTYPE_BIND_ACK else PTYPE_ALTER_CONTEXT_RESP in
        lift (pdu reply (Z.lor PFC_FIRST_FRAG PFC_LAST_FRAG) call_id (out ++ count ++ zeros 3 ++ results))
    | _ => raise StructError
    end.

(** [transact] *)
Definition transact (data : bytes) : M pipe bytes :=
  if zlen data <? 16 then raise RpcError
  else
    let ptype := znth data 2 in
    let flags := znth data 3 in
    let frag_len := le_int (slice data 8 10) in
    let auth_len := le_int (slice data 10 12) in
    let call_id := le_int (slice data 12 16) in
    if negb (znth data 0 =? 5) || negb ((znth data 1 =? 0) || (znth data 1 =? 1))
       || (zlen data <? frag_len) || (frag_len <? 16) then raise RpcError
    else
      let body := py_slice data 16 (if auth_len =? 0 then frag_len else frag_len - auth_len) in
      if (ptype =? PTYPE_BIND) || (ptype =? PTYPE_ALTER_CONTEXT) then rpc_bind ptype call_id body
      else if ptype =? PTYPE_REQUEST then
        p ← mget (fun p => p);
        if negb (has flags PFC_FIRST_FRAG && has flags PFC_LAST_FRAG) then lift (fault call_id NCA_UNSPEC_REJECT p)
        else lift (rpc_request call_id body p)
      else raise RpcError.

(** [SrvsvcPipe.write] *)
Definition pipe_write (data : bytes) : M pipe Z :=
  p0 ← mget outbox;
  reply ← transact data;
  _ ← mmod (fun p => p <| outbox := p0 ++ reply |>);
  mret (zlen data).

(** [SrvsvcPipe.read] *)
Definition pipe_read (length : Z) : M pipe (bytes * bool) := fun p =>
  (Ok (ztake length (outbox p), match zdrop length (outbox p) with [] => false | _ => true end),
   p <| outbox := zdrop length (outbox p) |>).
End pipe.
