(* ===== verification/Smb2Paths.v ===== *)
(** * SMB2: shares and paths

    Models [smb2_server/smb2_paths.py]: [Share], and the only way a client's path becomes a
    path of the host.  The client's path is a text; host paths are in the host's encoding.
    Then the theorems that such a path stays inside its share. *)

From S2P Require Import Prelude PyStr PyText PathNames Compressed HostOs Smb2Wire Smb2Auth.

Record share := Share { sh_name : text; sh_root : str; sh_read_only : bool }.

(** [_RESERVED_DEVICE_NAMES] *)
Definition RESERVED_DEVICE_NAMES : list text :=
  [lit "CON"; lit "PRN"; lit "AUX"; lit "NUL"; lit "CLOCK$"]
  ++ map (fun i => lit "COM" ++ decimal i) (seqZ 1 9) ++ map (fun i => lit "LPT" ++ decimal i) (seqZ 1 9).

(** [_ILLEGAL] *)
Definition illegal (c : Z) : bool := existsb (Z.eqb c) (34 :: lit "<>:|?*") || (c <? 32).

Definition STREAM_SEPARATOR : Z := 58.
Definition MAX_COMPONENT : Z := 255.
Definition MAX_PATH_CHARS : Z := 4096.

Section resolve.
Context `{CaseFolding}.

(** The reason one component is refused *)
Definition component_refused (part : text) : option Z :=
  if str_eqb part DOTDOT then Some STATUS_OBJECT_PATH_SYNTAX_BAD
  else if (MAX_COMPONENT <? zlen part)
       || existsb (Z.eqb STREAM_SEPARATOR) part
       || existsb illegal part
       || existsb (str_eqb (py_upper (fst (partition_on DOT part)))) RESERVED_DEVICE_NAMES
       || existsb (fun c => bool_decide (last part = Some c)) [DOT; 32]
  then Some STATUS_OBJECT_NAME_INVALID
  else None.

(** The loop of [resolve] over the components *)
Fixpoint components_of (parts : list text) : result (list text) :=
  match parts with
  | [] => Ok []
  | part :: parts =>
      if str_eqb part [] || str_eqb part [DOT] then components_of parts
      else
        match component_refused part with
        | Some st => Err (NtStatus st)
        | None => rest ← components_of parts; Ok (part :: rest)
        end
  end.

(** [client_path] as its components *)
Definition client_components (client_path : text) : result (list text) :=
  if MAX_PATH_CHARS <? zlen client_path then Err (NtStatus STATUS_OBJECT_NAME_INVALID)
  else
    let normalised := replace_char BACKSLASH SLASH client_path in
    if startswith normalised [SLASH; SLASH] then Err (NtStatus STATUS_OBJECT_PATH_SYNTAX_BAD)
    else components_of (split_on SLASH normalised).
End resolve.

(** The components of a path, as [os.path.commonpath] splits it *)
Definition path_parts (p : str) : list str := List.filter (fun c => nonempty c && negb (str_eqb c [DOT])) (split_on SLASH p).

(** [_inside]: [os.path.commonpath([real, root]) == root] for absolute paths *)
Definition inside (root real : str) : bool :=
  str_eqb real root
  || (Bool.eqb (isabs real) (isabs root)
      && str_eqb ((if isabs root then [SLASH] else [])
                  ++ join_with SLASH (take (common_prefix_len (path_parts real) (path_parts root)) (path_parts root))) root).

Section host.
Context {Os : Type} `{HostOs Os} `{CaseFolding}.

(** [Share.__init__] *)
Definition new_share (name : text) (root : str) (read_only : bool) (o : Os) : result share :=
  root ← realpath root o; Ok (Share name root read_only).

(** The names of the components on the host *)
Fixpoint encode_all (cs : list text) : result (list str) :=
  match cs with
  | [] => Ok []
  | c :: cs => b ← fsencode c; bs ← encode_all cs; Ok (b :: bs)
  end.

(** [Share.resolve(client_path)] *)
Definition resolve (s : share) (client_path : text) (o : Os) : result str :=
  components ← client_components client_path;
  names ← encode_all components;
  let candidate := foldl path_join (sh_root s) names in
  real ← realpath candidate o;
  if inside (sh_root s) real then Ok real else Err (NtStatus STATUS_ACCESS_DENIED).
End host.

(** ** Where a client's path can lead

    [realpath] gives a normal path: a slash, sometimes two, and names, none of them a dot
    or two.  With it the check of [Share.resolve] means what it says: what it answers is the
    root of the share with names appended. *)

(** ** Normal paths *)

(** The names [p] is made of; two slashes at the front stay two. *)
Definition names_path (p : str) (ns : list str) : Prop :=
  Forall good_name ns /\ (p = abs_path ns \/ p = SLASH :: abs_path ns).

Lemma norm_step_good acc c : SLASH ∉ c -> Forall good_name acc -> Forall good_name (norm_step true acc c).
Proof.
  intros Hs Hacc. unfold norm_step.
  destruct (str_eqb_spec c []); [done|]. destruct (str_eqb_spec c [DOT]); [done|].
  destruct (str_eqb_spec c [DOT; DOT]) as [->|]; cbn [negb]; [|by apply Forall_cons].
  destruct acc as [|d acc]; [done|]. apply Forall_cons in Hacc as [(_ & _ & Hd & _) Hacc].
  by destruct (str_eqb_spec d [DOT; DOT]).
Qed.

Lemma norm_comps_names cs : Forall (fun c => SLASH ∉ c) cs -> Forall good_name (norm_comps true cs).
Proof.
  intros Hcs. unfold norm_comps. apply Forall_rev. generalize (Forall_nil_2 good_name). generalize (@nil str).
  induction Hcs as [|c cs Hc Hcs IH]; intros acc Hacc; [done|]. cbn. by apply IH, norm_step_good.
Qed.

Lemma normpath_names p : isabs p = true -> exists ns, names_path (normpath p) ns.
Proof.
  intros Habs. unfold normpath. destruct p as [|c p]; [done|]. rewrite Habs.
  exists (norm_comps true (split_on SLASH (c :: p))). split; [apply norm_comps_names, split_on_no_sep|].
  destruct (_ && _); [by right|by left].
Qed.

Lemma isabs_path_join a b : isabs a = true -> isabs (path_join a b) = true.
Proof.
  intros Ha. unfold path_join. destruct (isabs b) eqn:Eb; [done|]. destruct a as [|c a]; [done|].
  rewrite isabs_cons in Ha. destruct (endswith _ _); cbn [app]; by rewrite isabs_cons.
Qed.

Lemma realpath_names `{HostOs Os} f (o : Os) p :
  isabs (os_getcwd o) = true -> realpath f o = Ok p -> exists ns, names_path p ns.
Proof.
  intros Hcwd. unfold realpath. destruct (if isabs f then _ else _) as [base rest]. unfold mbind, result_bind.
  destruct (joinrealpath _ _ _ _ _) as [[[q ok] seen]|e]; [|done]. intros [= <-]. unfold abspath. apply normpath_names. destruct (isabs q) eqn:E; [done|]. by apply isabs_path_join.
Qed.

(** ** [inside] *)

Lemma path_parts_join ns : Forall good_name ns -> path_parts (join_with SLASH ns) = ns.
Proof.
  intros Hg. destruct (decide (ns = [])) as [->|Hne]; [done|]. unfold path_parts. rewrite split_names by done.
  clear Hne. induction Hg as [|n ns (Hn & Hd & _) Hg IH]; [done|]. cbn [List.filter].
  unfold nonempty, str_eqb. rewrite !bool_decide_eq_false_2 by done. cbn [negb andb]. by f_equal.
Qed.

Lemma path_parts_slash p : path_parts (SLASH :: p) = path_parts p.
Proof. unfold path_parts. cbn [split_on]. by rewrite Z.eqb_refl. Qed.

Lemma path_parts_names p ns : names_path p ns -> path_parts p = ns.
Proof. intros [Hg [->| ->]]; unfold abs_path; rewrite ?path_parts_slash; by apply path_parts_join. Qed.

Lemma common_prefix_take a b : take (common_prefix_len a b) b `prefix_of` a.
Proof.
  revert b. induction a as [|x a IH]; intros [|y b]; cbn; try apply prefix_nil.
  destruct (str_eqb_spec x y) as [->|]; cbn; [by apply prefix_cons|apply prefix_nil].
Qed.

Lemma inside_names root rs p ns : Forall good_name rs -> root = abs_path rs -> names_path p ns ->
  inside root p = true -> exists rest, ns = rs ++ rest.
Proof.
  intros Hrs -> Hp Hin. pose proof (path_parts_names _ _ Hp) as Hns.
  assert (Hroot : path_parts (abs_path rs) = rs) by (apply path_parts_names; split; [done|by left]).
  unfold inside in Hin. apply orb_true_iff in Hin as [E%bool_decide_eq_true|[_ E%bool_decide_eq_true]%andb_true_iff].
  - exists []. rewrite app_nil_r, <- Hns, E. done.
  - unfold abs_path at 1 in E. rewrite isabs_slash in E. rewrite Hns, Hroot in E. cbn [app] in E.
    assert (take (common_prefix_len ns rs) rs = rs) as Ht.
    { apply (f_equal path_parts) in E. rewrite Hroot, path_parts_slash, path_parts_join in E; [done|by apply Forall_take]. }
    destruct (common_prefix_take ns rs) as [rest Hr]. exists rest. by rewrite Ht in Hr.
Qed.

(** What [resolve] answers is below the root, in names and not only in characters. *)
Lemma resolve_below `{HostOs Os} `{CaseFolding} s name (o : Os) p rs :
  isabs (os_getcwd o) = true -> Forall good_name rs -> sh_root s = abs_path rs -> resolve s name o = Ok p ->
  exists rest, names_path p (rs ++ rest).
Proof.
  intros Hcwd Hrs Hroot. unfold resolve, mbind, result_bind. repeat (case_match; [|done]). intros [= <-].
  match goal with Er : realpath _ o = Ok ?q, Hi : inside _ ?q = true |- _ =>
    destruct (realpath_names _ _ _ Hcwd Er) as [ns Hns]; destruct (inside_names _ rs _ ns Hrs Hroot Hns Hi) as [rest ->]
  end.
  by exists rest.
Qed.

(** [Share.__init__] leaves such a root, except for a path with two slashes in front. *)
Lemma new_share_root `{HostOs Os} name root ro (o : Os) s :
  isabs (os_getcwd o) = true -> new_share name root ro o = Ok s -> exists rs, names_path (sh_root s) rs.
Proof.
  intros Hcwd. unfold new_share, mbind, result_bind. case_match; [|done]. intros [= <-]. by eapply realpath_names.
Qed.
