(* ===== verification/Smb2Server.v ===== *)
(** * The SMB2 server

    Models [smb2_server/smb2_server.py]: [Connection] and its handles, the handlers of the
    requests, and the dispatch of compound messages with signing and credits.

    One connection runs in [smb]: the host, the connection's state, what is still to arrive
    on the socket, what was sent, the clock and the session summary.  A handler answers the
    status, the body and the tree it decided on; no status is no reply.  Random bytes are
    drawn from [urandom], an argument that sees how many draws were made before. *)

From S2P Require Import Prelude Tables PyStr PyText SessionStats Compressed HostOs PyHash Smb2Wire Smb2Crypto Smb2Auth Smb2Srvsvc Smb2Paths PyGlob.

Definition EPERM : Z := 1.
Definition ENOSPC : Z := 28.
Definition EPIPE : Z := 32.
Definition ENOTEMPTY : Z := 39.
Definition ECONNABORTED : Z := 103.
Definition ECONNRESET : Z := 104.
Definition ESHUTDOWN : Z := 108.

(** What this server asks of the host beyond [HostOs] *)
Class ShareOs (Os : Type) `{!HostOs Os} := {
  os_replace : str -> str -> M Os unit;
  os_fsync : Z -> M Os unit;
  f_truncate : Z -> Z -> M Os unit;
  os_statvfs : str -> Os -> result statvfs_result
}.

(** ** State *)

(** The value of [conn.trees]: a share, or [IPC_TREE] *)
Inductive tree := Disk (s : share) | Ipc.

(** [Handle]: [h_fh] is the open file with whether its mode is ['r+b'], [h_path] is [None]
    for a pipe. *)
Record handle := Handle {
  file_id : Z;
  h_share : tree;
  h_path : option str;
  h_rel : text;
  is_dir : bool;
  h_fh : option (Z * bool);
  delete_on_close : bool;
  listing : option (list text);
  cursor : Z;
  can_write : bool;
  h_pipe : option pipe
}.

#[export] Instance eta_handle : Eta handle := fun h =>
  Handle (file_id h) (h_share h) (h_path h) (h_rel h) (is_dir h) (h_fh h) (delete_on_close h) (listing h) (cursor h)
         (can_write h) (h_pipe h).

(** [Handle.__init__] *)
Definition new_handle (hid : Z) (t : tree) (p : option str) (rel : text) (dir : bool) : handle :=
  Handle hid t p rel dir None false None 0 true None.

(** Capabilities, GUID, security mode and dialects of the client's NEGOTIATE *)
Abbreviation claims := (Z * bytes * Z * list Z)%type.

(** [Connection]; [trees] and [handles] in the order of their insertion *)
Record conn := Conn {
  dialect : option Z;
  c_session_id : Z;
  authenticated : bool;
  c_user : text;
  challenge : option bytes;
  ntlm_negotiate : option bytes;
  ntlm_challenge : option bytes;
  signing_key : option bytes;
  signing_required : bool;
  negotiate_claims : option claims;
  terminate : bool;
  trees : list (Z * tree);
  handles : list (Z * handle);
  next_tree : Z;
  next_handle : Z;
  c_credits : Z;
  compound_file_id : option bytes
}.

#[export] Instance eta_conn : Eta conn := fun c =>
  Conn (dialect c) (c_session_id c) (authenticated c) (c_user c) (challenge c) (ntlm_negotiate c) (ntlm_challenge c)
       (signing_key c) (signing_required c) (negotiate_claims c) (terminate c) (trees c) (handles c) (next_tree c)
       (next_handle c) (c_credits c) (compound_file_id c).

(** [Connection.__init__] *)
Definition new_conn : conn :=
  Conn None 0 false [] None None None None false None false [] [] 1 1 0 None.

(** [Smb2Server]: what it was built with *)
Record server := Server {
  shares : list (text * share);
  auth : authenticator;
  ceiling : Z;
  srv_read_only : bool;
  server_name : text;
  srv_domain : text;
  guid : bytes;
  start_time : Z
}.

(** [Smb2Server.__init__]: no two names of shares differ only by case. *)
Definition new_server `{CaseFolding} (shares : list (text * share)) (au : authenticator) (ceiling : Z) (read_only : bool)
    (name domain : text) (guid : bytes) (start : Z) : result server :=
  if bool_decide (NoDup (map (fun ns => py_casefold (fst ns)) shares))
  then Ok (Server shares au ceiling read_only name domain guid start)
  else Err ValueError.

Section smb.
Context {Os : Type} `{ShareOs Os} `{CaseFolding} `{FloatTime} (srv : server) (urandom : Z -> Z -> bytes).

Record smb := Smb {
  host : Os;
  cn : conn;
  incoming : list arrival;
  out : bytes;
  send_faults : list (option (Z * option Z));
  clock : Z;
  draws : Z;
  summary : option (SessionStats.stats Z);
  peer : Z
}.

#[export] Instance eta_smb : Eta smb := fun w =>
  Smb (host w) (cn w) (incoming w) (out w) (send_faults w) (clock w) (draws w) (summary w) (peer w).

Definition on_host {A} (m : M Os A) : M smb A := fun w => let '(r, o) := m (host w) in (r, w <| host := o |>).
Definition ask {A} (f : Os -> result A) : M smb A := fun w => (f (host w), w).
Definition cget {A} (f : conn -> A) : M smb A := mget (fun w => f (cn w)).
Definition cmod (f : conn -> conn) : M smb unit := mmod (fun w => w <| cn ::= f |>).
Definition fail {A} (st : Z) : M smb A := raise (NtStatus st).
Definition packed (fvs : list (fmt * Z)) : M smb bytes := lift (struct_result (pack fvs)).

(** [struct.unpack_from(..., body, off)] *)
Definition fields_at (fs : list fmt) (body : bytes) (off : Z) : M smb (list Z) :=
  lift (struct_result (unpack_from fs body off)).

(** [os.urandom(n)] *)
Definition draw (n : Z) : M smb bytes := fun w => (Ok (urandom (draws w) n), w <| draws ::= Z.add 1 |>).

(** [_session_record] *)
Definition session_record (k : SessionStats.kind) (n : Z) : M smb unit :=
  mmod (fun w => w <| summary ::= fmap (SessionStats.record (peer w) k n (clock w)) |>).
Definition session_touch : M smb unit :=
  mmod (fun w => w <| summary ::= fmap (fun s => fst (SessionStats.touch (peer w) (clock w) s)) |>).

(** ** [Connection] and [Handle] *)

(** A change of the object that handle [hid] is *)
Definition hmod (hid : Z) (f : handle -> handle) : M smb unit := cmod (fun c => c <| handles ::= aupdate hid f |>).

(** [add_handle] *)
Definition add_handle (t : tree) (p : option str) (rel : text) (dir : bool) : M smb handle :=
  hid ← cget next_handle;
  let h := new_handle hid t p rel dir in
  _ ← cmod (fun c => c <| next_handle := hid + 1 |> <| handles ::= fun l => l ++ [(hid, h)] |>);
  mret h.

(** [handle_from] *)
Definition handle_from (raw : bytes) : M smb handle :=
  compound ← cget compound_file_id;
  let raw := match compound with
             | Some id => if str_eqb raw COMPOUND_FILE_ID then id else raw
             | None => raw
             end in
  fields ← lift (struct_result (unpack [fQ; fQ] raw));
  match fields with
  | [persistent; volatile] =>
      h ← cget (fun c => alookup volatile (handles c));
      match h with
      | Some h => if persistent =? volatile then mret h else fail STATUS_FILE_CLOSED
      | None => fail STATUS_FILE_CLOSED
      end
  | _ => raise StructError
  end.

(** [Handle.close] *)
Definition ignore_oserror (m : M smb unit) : M smb unit :=
  mcatch m (fun e => match e with OSError _ => Some (mret tt) | _ => None end).

Definition close_file (h : handle) : M smb unit :=
  match h_fh h with
  | None => mret tt
  | Some (f, _) => _ ← ignore_oserror (on_host (f_close f)); hmod (file_id h) (fun h => h <| h_fh := None |>)
  end.

Fixpoint close_handles (l : list (Z * handle)) : M smb unit :=
  match l with
  | [] => mret tt
  | (_, h) :: l => _ ← close_file h; close_handles l
  end.

(** [close_all] *)
Definition close_all : M smb unit :=
  l ← cget handles; _ ← close_handles l; cmod (fun c => c <| handles := [] |>).

(** [os.stat(h.path)] and the like; [None] is no path. *)
Definition path_of (h : handle) : M smb str :=
  match h_path h with Some p => mret p | None => raise TypeError end.

(** ** Guards *)

(** [_require_session] *)
Definition require_session : M smb unit :=
  ok ← cget authenticated; if (ok : bool) then mret tt else fail STATUS_USER_SESSION_DELETED.

(** [_tree] with [ipc_ok] *)
Definition any_tree (hdr : header) : M smb tree :=
  _ ← require_session;
  t ← cget (fun c => alookup (tree_id hdr) (trees c));
  match t with Some t => mret t | None => fail STATUS_NETWORK_NAME_DELETED end.

(** [_tree] without it *)
Definition disk_tree (hdr : header) : M smb share :=
  t ← any_tree hdr;
  match t with Disk s => mret s | Ipc => fail STATUS_INVALID_DEVICE_REQUEST end.

Definition tree_read_only (t : tree) : bool := srv_read_only srv || match t with Disk s => sh_read_only s | Ipc => true end.

(** [_writable] *)
Definition writable (t : tree) : M smb unit :=
  if tree_read_only t then fail STATUS_MEDIA_WRITE_PROTECTED else mret tt.

(** [share_list] *)
Definition share_list : list share_row :=
  map (fun ns => Row (fst ns) STYPE_DISKTREE (if tree_read_only (Disk (snd ns)) then lit "read-only" else []) [])
    (sorted (by_text fst) (shares srv))
  ++ [Row (lit "IPC$") (Z.lor STYPE_IPC STYPE_SPECIAL) (lit "Remote IPC") []].

(** [share_named] *)
Definition share_named (name : text) : option share :=
  match List.find (fun ns => str_eqb (fst ns) name) (shares srv) with
  | Some ns => Some (snd ns)
  | None =>
      match List.find (fun ns => str_eqb (py_casefold (fst ns)) (py_casefold name)) (shares srv) with
      | Some ns => Some (snd ns)
      | None => None
      end
  end.

(** [request_buffer] *)
Definition request_buffer (body : bytes) (offset length least : Z) : M smb bytes :=
  if length =? 0 then mret []
  else
    let start := offset - HEADER_SIZE in
    if (offset <? least) || (start <? 0) || (length <? 0) || (zlen body <? start + length)
    then fail STATUS_INVALID_PARAMETER
    else mret (slice body start (start + length)).

(** [_status_for_oserror] *)
Definition status_for_oserror (e : option Z) : Z :=
  match e with
  | None => STATUS_INVALID_PARAMETER
  | Some n =>
      if n =? ENOENT then STATUS_OBJECT_NAME_NOT_FOUND
      else if (n =? EACCES) || (n =? EPERM) then STATUS_ACCESS_DENIED
      else if n =? EEXIST then STATUS_OBJECT_NAME_COLLISION
      else if n =? EISDIR then STATUS_FILE_IS_A_DIRECTORY
      else if n =? ENOTDIR then STATUS_NOT_A_DIRECTORY
      else if n =? ENOSPC then STATUS_DISK_FULL
      else if n =? ENOTEMPTY then STATUS_DIRECTORY_NOT_EMPTY
      else STATUS_INVALID_PARAMETER
  end.

(** ** NEGOTIATE and SESSION_SETUP *)

Definition reply := (Z * bytes)%type.
Definition ok_reply (body : bytes) : M smb reply := mret (STATUS_SUCCESS, body).

(** [negotiate_response] *)
Definition negotiate_response (d : Z) : M smb bytes :=
  now ← mget clock;
  let token := neg_token_init in
  a ← packed [(fH, 65); (fH, SECURITY_MODE_SIGNING_ENABLED); (fH, d); (fH, 0)];
  b ← packed [(fI, GLOBAL_CAP_LARGE_MTU); (fI, MAX_TRANSACT); (fI, MAX_READ); (fI, MAX_WRITE);
              (fQ, to_filetime now); (fQ, start_time srv); (fH, HEADER_SIZE + 64); (fH, zlen token); (fI, 0)];
  mret (a ++ ljust (ztake 16 (guid srv)) 16 ++ b ++ token).

(** The dialects of a NEGOTIATE, as far as the body goes *)
Fixpoint offered_dialects (n : nat) (body : bytes) (at_ : Z) : list Z :=
  match n with
  | O => []
  | S n => if zlen body <? at_ + 2 then [] else le_int (slice body at_ (at_ + 2)) :: offered_dialects n body (at_ + 2)
  end.

(** [h_negotiate] *)
Definition h_negotiate (hdr : header) (body : bytes) : M smb reply :=
  if zlen body <? 36 then fail STATUS_INVALID_PARAMETER
  else
    fields ← fields_at [fH; fH; fH; fH; fI] body 0;
    match fields with
    | [_; count; mode; _; caps] =>
        let offered := offered_dialects (Z.to_nat count) body 36 in
        _ ← cmod (fun c => c <| negotiate_claims := Some (caps, slice body 12 28, mode, offered) |>);
        match pick_dialect offered (ceiling srv) with
        | None => fail STATUS_NOT_SUPPORTED
        | Some d =>
            _ ← cmod (fun c => c <| dialect := Some d |>);
            body ← negotiate_response d;
            ok_reply body
        end
    | _ => raise StructError
    end.

(** A session id, if there is none yet *)
Definition ensure_session_id : M smb unit :=
  sid ← cget c_session_id;
  if sid =? 0 then
    bs ← draw 8;
    cmod (fun c => c <| c_session_id := if le_int bs =? 0 then 1 else le_int bs |>)
  else mret tt.

(** Round one of [h_session_setup]: a challenge *)
Definition send_challenge (token : bytes) (is_raw : bool) : M smb reply :=
  nonce ← draw 8;
  _ ← cmod (fun c => c <| challenge := Some nonce |>);
  chal ← lift (build_challenge nonce (srv_domain srv) (server_name srv) is_raw (negotiate_flags token));
  trimmed ← lift (trim token);
  _ ← cmod (fun c => c <| ntlm_negotiate := Some trimmed |> <| ntlm_challenge := Some chal |>
                       <| signing_key := None |> <| signing_required := false |>);
  let out := if is_raw then chal else neg_token_resp ACCEPT_INCOMPLETE (Some chal) true in
  _ ← ensure_session_id;
  head ← packed [(fH, 9); (fH, 0); (fH, HEADER_SIZE + 8); (fH, zlen out)];
  mret (STATUS_MORE_PROCESSING_REQUIRED, head ++ out).

(** The credentials of an AUTHENTICATE checked: the session flags and the session key *)
Definition check_credentials (creds : credentials) (nonce : bytes) : M smb (Z * option bytes) :=
  if is_anonymous creds then
    if negb (is_open (auth srv)) then fail STATUS_LOGON_FAILURE else mret (SESSION_FLAG_IS_NULL, None)
  else
    base_key ← lift (verify_user (auth srv) (user creds) (nt_response creds) nonce (domain creds));
    match base_key with
    | None => mret (SESSION_FLAG_IS_GUEST, None)
    | Some base_key =>
        key ← lift (exported_session_key base_key creds);
        n ← cget ntlm_negotiate;
        ch ← cget ntlm_challenge;
        ok ← lift (verify_mic key n ch creds);
        if negb ok then fail STATUS_LOGON_FAILURE else mret (0, Some key)
    end.

(** Round two of [h_session_setup]: the proof *)
Definition finish_session (token : bytes) (is_raw : bool) (mode : Z) : M smb reply :=
  nonce ← cget challenge;
  match nonce with
  | None => fail STATUS_LOGON_FAILURE
  | Some nonce =>
      creds ← lift (parse_authenticate token);
      '(session_flags, key) ← check_credentials creds nonce;
      _ ← cmod (fun c => c <| authenticated := true |>
                           <| c_user := match user creds with [] => lit "(anonymous)" | u => u end |>
                           <| challenge := None |> <| ntlm_negotiate := None |> <| ntlm_challenge := None |>);
      _ ← match key with
          | None => mret tt
          | Some key =>
              d ← cget dialect;
              k ← lift (Smb2Crypto.signing_key key (default 0 d));
              cmod (fun c => c <| signing_key := Some k |>
                               <| signing_required := has mode SECURITY_MODE_SIGNING_REQUIRED |>)
          end;
      _ ← ensure_session_id;
      let out := if is_raw then [] else neg_token_resp ACCEPT_COMPLETED None false in
      head ← packed [(fH, 9); (fH, session_flags); (fH, match out with [] => 0 | _ => HEADER_SIZE + 8 end); (fH, zlen out)];
      ok_reply (head ++ out)
  end.

(** [h_session_setup] *)
Definition h_session_setup (hdr : header) (body : bytes) : M smb reply :=
  if zlen body <? 24 then fail STATUS_INVALID_PARAMETER
  else
    fields ← fields_at [fH; fB; fB; fI; fI; fH; fH; fQ] body 0;
    match fields with
    | [_; _; mode; _; _; buf_off; buf_len; _] =>
        blob ← request_buffer body buf_off buf_len (HEADER_SIZE + 24);
        match extract_ntlm blob with
        | None => fail STATUS_LOGON_FAILURE
        | Some token =>
            let is_raw := is_raw_ntlmssp blob in
            let kind := message_type token in
            if bool_decide (kind = Some NTLM_NEGOTIATE) then send_challenge token is_raw
            else if negb (bool_decide (kind = Some NTLM_AUTHENTICATE)) then fail STATUS_LOGON_FAILURE
            else finish_session token is_raw mode
        end
    | _ => raise StructError
    end.

(** [h_logoff] *)
Definition h_logoff (hdr : header) (body : bytes) : M smb reply :=
  _ ← close_all;
  _ ← cmod (fun c => c <| authenticated := false |> <| trees := [] |>);
  b ← packed [(fH, 4); (fH, 0)]; ok_reply b.

(** ** Trees *)

Definition reply3 := (option Z * bytes * option Z)%type.

(** [path.rstrip("\\").rsplit("\\", 1)[-1]] *)
Definition share_component (path : text) : text :=
  let p := rstrip BACKSLASH path in zdrop (rfind BACKSLASH p + 1) p.

Definition connect_tree (t : tree) : M smb Z :=
  tid ← cget next_tree;
  _ ← cmod (fun c => c <| next_tree := tid + 1 |> <| trees ::= fun l => l ++ [(tid, t)] |>);
  mret tid.

(** [h_tree_connect] *)
Definition h_tree_connect (hdr : header) (body : bytes) : M smb reply3 :=
  _ ← require_session;
  if zlen body <? 8 then fail STATUS_INVALID_PARAMETER
  else
    fields ← fields_at [fH; fH; fH; fH] body 0;
    match fields with
    | [_; _; path_off; path_len] =>
        raw ← request_buffer body path_off path_len (HEADER_SIZE + 8);
        let name := share_component (from_utf16 raw) in
        if str_eqb (py_upper name) (lit "IPC$") then
          tid ← connect_tree Ipc;
          b ← packed [(fH, 16); (fB, SHARE_TYPE_PIPE); (fB, 0); (fI, 48); (fI, 0); (fI, 2032127)];
          mret (Some STATUS_SUCCESS, b, Some tid)
        else
          match share_named name with
          | None => fail STATUS_BAD_NETWORK_NAME
          | Some s =>
              tid ← connect_tree (Disk s);
              let access := if tree_read_only (Disk s) then 1179817 else 2032127 in
              b ← packed [(fH, 16); (fB, SHARE_TYPE_DISK); (fB, 0); (fI, 0); (fI, 0); (fI, access)];
              mret (Some STATUS_SUCCESS, b, Some tid)
          end
    | _ => raise StructError
    end.

(** [h_tree_disconnect] *)
Definition h_tree_disconnect (hdr : header) (body : bytes) : M smb reply :=
  _ ← cmod (fun c => c <| trees ::= adelete (tree_id hdr) |>);
  b ← packed [(fH, 4); (fH, 0)]; ok_reply b.

(** ** CREATE *)

(** The FileId of a handle *)
Definition file_id_bytes (h : handle) : M smb bytes := packed [(fQ, file_id h); (fQ, file_id h)].

(** The body of a CREATE response *)
Definition create_response (action : Z) (times : list (fmt * Z)) (alloc size attrs : Z) (h : handle) : M smb bytes :=
  id ← file_id_bytes h;
  a ← packed ([(fH, 89); (fB, 0); (fB, 0); (fI, action)] ++ times ++ [(fq, alloc); (fq, size); (fI, attrs); (fI, 0)]);
  b ← packed [(fI, 0); (fI, 0)];
  mret (a ++ id ++ b).

Definition name_of (body : bytes) (name_off name_len : Z) : M smb text :=
  raw ← request_buffer body name_off name_len (HEADER_SIZE + 56); mret (from_utf16 raw).

(** [_create_pipe] *)
Definition create_pipe (body : bytes) : M smb reply :=
  fields ← fields_at [fH; fH] body 44;
  match fields with
  | [name_off; name_len] =>
      name ← name_of body name_off name_len;
      if negb (str_eqb (py_lowercase (strip (Z.eqb BACKSLASH) name)) (lit "srvsvc")) then fail STATUS_OBJECT_NAME_NOT_FOUND
      else
        h ← add_handle Ipc None name false;
        _ ← hmod (file_id h) (fun h => h <| h_pipe := Some new_pipe |>);
        b ← create_response FILE_OPENED [(fQ, 0); (fQ, 0); (fQ, 0); (fQ, 0)] 4096 0 128 h;
        ok_reply b
  | _ => raise StructError
  end.

(** [with open(path, "wb"): pass] *)
Definition make_empty (p : str) : M smb unit := f ← on_host (os_open p m_wb); on_host (f_close f).

(** What CREATE does to the host before it opens the handle: the action it reports *)
Definition create_action (s : share) (p : str) (there : bool) (disposition : Z) (want_dir : bool) : M smb Z :=
  if negb there then
    _ ← writable (Disk s);
    if (want_dir : bool) then _ ← on_host (os_makedirs p); mret FILE_CREATED
    else if existsb (Z.eqb disposition) [FILE_CREATE; FILE_OPEN_IF; FILE_OVERWRITE_IF; FILE_SUPERSEDE]
    then _ ← make_empty p; mret FILE_CREATED
    else fail STATUS_OBJECT_NAME_NOT_FOUND
  else if existsb (Z.eqb disposition) [FILE_OVERWRITE; FILE_OVERWRITE_IF; FILE_SUPERSEDE] then
    dir ← ask (path_isdir p);
    if (dir : bool) then mret FILE_OPENED
    else _ ← writable (Disk s); _ ← make_empty p; mret FILE_OVERWRITTEN
  else mret FILE_OPENED.

(** CREATE on a disk share, after its fields are read *)
Definition create_file (s : share) (rel : text) (access disposition options : Z) : M smb reply :=
  p ← ask (resolve s rel);
  there ← ask (path_exists p);
  let want_dir := has options FILE_DIRECTORY_FILE in
  let want_file := has options FILE_NON_DIRECTORY_FILE in
  if (disposition =? FILE_OPEN) && negb there then fail STATUS_OBJECT_NAME_NOT_FOUND
  else if (disposition =? FILE_CREATE) && there then fail STATUS_OBJECT_NAME_COLLISION
  else
    action ← create_action s p there disposition want_dir;
    st ← ask (os_stat p);
    let dir := S_ISDIR st in
    if dir && want_file then fail STATUS_FILE_IS_A_DIRECTORY
    else if negb dir && want_dir then fail STATUS_NOT_A_DIRECTORY
    else
      h ← add_handle (Disk s) (Some p) rel dir;
      _ ← hmod (file_id h) (fun h => h <| can_write := has access ACCESS_WRITE_ANY |>);
      _ ← (if has options FILE_DELETE_ON_CLOSE then
             _ ← writable (Disk s); hmod (file_id h) (fun h => h <| delete_on_close := true |>)
           else mret tt);
      b ← create_response action (stat_times st) (allocation_of st) (st_size st)
            (attributes_for st (tree_read_only (Disk s))) h;
      ok_reply b.

(** [h_create] *)
Definition h_create (hdr : header) (body : bytes) : M smb reply :=
  t ← any_tree hdr;
  if zlen body <? 56 then fail STATUS_INVALID_PARAMETER
  else
    match t with
    | Ipc => create_pipe body
    | Disk s =>
        fields ← fields_at [fH; fB; fB; fI; fQ; fQ; fI; fI; fI; fI; fI; fH; fH; fI; fI] body 0;
        match fields with
        | [_; _; _; _; _; _; access; _; _; disposition; options; name_off; name_len; _; _] =>
            rel ← name_of body name_off name_len;
            create_file s rel access disposition options
        | _ => raise StructError
        end
    end.

(** ** CLOSE and FLUSH *)

(** The deletion of [h_close] *)
Definition delete_handle (h : handle) : M smb unit :=
  ignore_oserror (p ← path_of h; if is_dir h then on_host (os_rmdir p) else on_host (os_unlink p)).

(** [h_close] *)
Definition h_close (hdr : header) (body : bytes) : M smb reply :=
  _ ← any_tree hdr;
  if zlen body <? 24 then fail STATUS_INVALID_PARAMETER
  else
    fields ← fields_at [fH; fH; fI] body 0;
    h ← handle_from (slice body 8 24);
    st ← (match h_pipe h with
          | Some _ => mret None
          | None =>
              p ← path_of h;
              mcatch (st ← ask (os_stat p); mret (Some st)) (fun e => match e with OSError _ => Some (mret None) | _ => None end)
          end);
    _ ← close_file h;
    _ ← cmod (fun c => c <| handles ::= adelete (file_id h) |>);
    _ ← mwhen (delete_on_close h) (delete_handle h);
    match fields, st with
    | [_; fl; _], Some st =>
        if has fl 1 then
          b ← packed ([(fH, 60); (fH, fl); (fI, 0)] ++ stat_times st
                      ++ [(fq, allocation_of st); (fq, st_size st); (fI, attributes_for st (srv_read_only srv))]);
          ok_reply b
        else b ← packed [(fH, 60); (fH, 0); (fI, 0)]; ok_reply (b ++ zeros 52)
    | _, _ => b ← packed [(fH, 60); (fH, 0); (fI, 0)]; ok_reply (b ++ zeros 52)
    end.

(** [h_flush] *)
Definition h_flush (hdr : header) (body : bytes) : M smb reply :=
  _ ← disk_tree hdr;
  h ← handle_from (slice body 8 24);
  _ ← (match h_fh h with
       | None => mret tt
       | Some (f, _) => ignore_oserror (_ ← on_host (f_flush f); on_host (os_fsync f))
       end);
  b ← packed [(fH, 4); (fH, 0)]; ok_reply b.

(** ** READ and WRITE *)

(** [_open_file] *)
Definition open_file (h : handle) (to_write : bool) : M smb Z :=
  let reopen :=
    p ← path_of h;
    f ← on_host (os_open p (if to_write then m_rpb else m_rb));
    _ ← hmod (file_id h) (fun h => h <| h_fh := Some (f, to_write) |>);
    mret f in
  match h_fh h with
  | None => reopen
  | Some (f, can) =>
      if to_write && negb can then _ ← on_host (f_close f); reopen else mret f
  end.

(** A call on the pipe of a handle *)
Definition on_pipe {A} (hid : Z) (p : pipe) (m : M pipe A) : M smb A := fun w =>
  let '(r, p) := m p in (r, snd (hmod hid (fun h => h <| h_pipe := Some p |>) w)).

(** [except srvsvc.RpcError] *)
Definition rpc_refused {A} (m : M smb A) : M smb A :=
  mcatch m (fun e => match e with RpcError => Some (fail STATUS_INVALID_PARAMETER) | _ => None end).

(** [h_read] *)
Definition h_read (hdr : header) (body : bytes) : M smb reply :=
  _ ← any_tree hdr;
  if zlen body <? 48 then fail STATUS_INVALID_PARAMETER
  else
    fields ← fields_at [fH; fB; fB; fI; fQ] body 0;
    match fields with
    | [_; _; _; length; offset] =>
        h ← handle_from (slice body 16 32);
        match h_pipe h with
        | Some p =>
            '(data, more) ← on_pipe (file_id h) p (pipe_read (Z.min length MAX_READ));
            match data with
            | [] => fail STATUS_PIPE_EMPTY
            | _ =>
                b ← packed [(fH, 17); (fB, HEADER_SIZE + 16); (fB, 0); (fI, zlen data); (fI, 0); (fI, 0)];
                mret (if (more : bool) then STATUS_BUFFER_OVERFLOW else STATUS_SUCCESS, b ++ data)
            end
        | None =>
            if is_dir h then fail STATUS_INVALID_DEVICE_REQUEST
            else
              f ← open_file h false;
              _ ← on_host (f_seek f offset 0);
              data ← on_host (f_read f (Z.min length MAX_READ));
              match data with
              | [] => fail STATUS_END_OF_FILE
              | _ =>
                  b ← packed [(fH, 17); (fB, HEADER_SIZE + 16); (fB, 0); (fI, zlen data); (fI, 0); (fI, 0)];
                  ok_reply (b ++ data)
              end
        end
    | _ => raise StructError
    end.

Definition write_response (written : Z) : M smb reply :=
  b ← packed [(fH, 17); (fH, 0); (fI, written); (fI, 0); (fH, 0); (fH, 0)]; ok_reply b.

(** [h_write] *)
Definition h_write (hdr : header) (body : bytes) : M smb reply :=
  t ← any_tree hdr;
  if zlen body <? 48 then fail STATUS_INVALID_PARAMETER
  else
    fields ← fields_at [fH; fH; fI; fQ] body 0;
    match fields with
    | [_; data_off; length; offset] =>
        h ← handle_from (slice body 16 32);
        match h_pipe h with
        | Some p =>
            data ← request_buffer body data_off length (HEADER_SIZE + 48);
            written ← rpc_refused (on_pipe (file_id h) p (pipe_write share_list data));
            write_response written
        | None =>
            _ ← writable t;
            if is_dir h then fail STATUS_INVALID_DEVICE_REQUEST
            else if negb (can_write h) then fail STATUS_ACCESS_DENIED
            else if MAX_WRITE <? length then fail STATUS_INVALID_PARAMETER
            else
              data ← request_buffer body data_off length (HEADER_SIZE + 48);
              f ← open_file h true;
              _ ← on_host (f_seek f offset 0);
              written ← on_host (f_write f data);
              _ ← on_host (f_flush f);
              write_response written
        end
    | _ => raise StructError
    end.

(** ** QUERY_DIRECTORY *)

(** [_listing_for] *)
Definition listing_for (h : handle) (pattern : text) : M smb (list text) :=
  p ← path_of h;
  names ← mcatch (ns ← ask (os_listdir p); mret (sorted points_leb (map code_points ns)))
            (fun e => match e with OSError _ => Some (mret []) | _ => None end);
  let names := if existsb (str_eqb pattern) [[]; lit "*"; lit "*.*"] then names
               else List.filter (fun n => fnmatch (py_lowercase n) (py_lowercase pattern)) names in
  mret ([[DOT]; DOTDOT] ++ names).

(** The host path an entry of a listing describes *)
Definition entry_target (s : share) (p : str) (name : text) : M smb str :=
  if str_eqb name [DOT] then mret p
  else if str_eqb name DOTDOT then
    real ← ask (realpath p);
    mret (if str_eqb real (sh_root s) then p else dirname p)
  else q ← lift (fsencode name); mret (path_join p q).

Definition set_cursor (hid c : Z) : M smb unit := hmod hid (fun h => h <| cursor := c |>).

(** A record with the zeros that align the next one *)
Definition padded (record : bytes) : bytes := record ++ zeros ((8 - zlen record mod 8) mod 8).

(** The loop of [h_query_directory], from name number [c] *)
Fixpoint list_entries (s : share) (hid : Z) (p : str) (info_class : Z) (read_only single : bool) (out_len : Z)
    (names : list text) (c : Z) (entries : list bytes) (total : Z) : M smb (list bytes) :=
  match names with
  | [] => mret entries
  | name :: names =>
      target ← entry_target s p name;
      st ← mcatch (st ← ask (os_stat target); mret (Some st)) (fun e => match e with OSError _ => Some (mret None) | _ => None end);
      match st with
      | None =>
          _ ← set_cursor hid (c + 1);
          list_entries s hid p info_class read_only single out_len names (c + 1) entries total
      | Some st =>
          record ← lift (directory_entry name st info_class read_only);
          match record with
          | None => fail STATUS_INVALID_PARAMETER
          | Some record =>
              let e := padded record in
              if (out_len <? total + zlen e) && negb (bool_decide (entries = [])) then mret entries
              else
                _ ← set_cursor hid (c + 1);
                if single then mret (entries ++ [e])
                else list_entries s hid p info_class read_only single out_len names (c + 1) (entries ++ [e]) (total + zlen e)
          end
      end
  end.

(** The records with the offsets of the next ones filled in *)
Fixpoint chain (entries : list bytes) : result bytes :=
  match entries with
  | [] => Ok []
  | e :: rest =>
      n ← struct_result (pack [(fI, match rest with [] => 0 | _ => zlen e end)]);
      blob ← chain rest;
      Ok (n ++ zdrop 4 e ++ blob)
  end.

Definition RESTART_SCANS : Z := 1.
Definition SINGLE_ENTRY : Z := 2.

Definition info_response (blob : bytes) : M smb reply :=
  b ← packed [(fH, 9); (fH, HEADER_SIZE + 8); (fI, zlen blob)]; ok_reply (b ++ blob).

(** QUERY_DIRECTORY after its fields are read *)
Definition query_directory (s : share) (h : handle) (info_class fl out_len : Z) (pattern : text) : M smb reply :=
  if negb (is_dir h) then fail STATUS_INVALID_PARAMETER
  else
    _ ← (if bool_decide (listing h = None) || has fl RESTART_SCANS then
           l ← listing_for h pattern; hmod (file_id h) (fun h => h <| listing := Some l |> <| cursor := 0 |>)
         else mret tt);
    h ← cget (fun c => default h (alookup (file_id h) (handles c)));
    p ← path_of h;
    let out_len := Z.min (if out_len =? 0 then MAX_TRANSACT else out_len) MAX_TRANSACT in
    entries ← list_entries s (file_id h) p info_class (tree_read_only (Disk s)) (has fl SINGLE_ENTRY) out_len
                (zdrop (cursor h) (default [] (listing h))) (cursor h) [] 0;
    match entries with
    | [] => fail STATUS_NO_MORE_FILES
    | _ => blob ← lift (chain entries); info_response blob
    end.

(** [h_query_directory] *)
Definition h_query_directory (hdr : header) (body : bytes) : M smb reply :=
  s ← disk_tree hdr;
  if zlen body <? 32 then fail STATUS_INVALID_PARAMETER
  else
    fields ← fields_at [fH; fB; fB; fI] body 0;
    h ← handle_from (slice body 8 24);
    fields' ← fields_at [fH; fH; fI] body 24;
    match fields, fields' with
    | [_; info_class; fl; _], [name_off; name_len; out_len] =>
        raw ← request_buffer body name_off name_len (HEADER_SIZE + 32);
        let pattern := match from_utf16 raw with [] => lit "*" | p => p end in
        query_directory s h info_class fl out_len pattern
    | _, _ => raise StructError
    end.

(** ** QUERY_INFO and SET_INFO *)

(** [h_query_info] *)
Definition h_query_info (hdr : header) (body : bytes) : M smb reply :=
  s ← disk_tree hdr;
  if zlen body <? 40 then fail STATUS_INVALID_PARAMETER
  else
    fields ← fields_at [fH; fB; fB; fI] body 0;
    match fields with
    | [_; info_type; info_class; out_len] =>
        h ← handle_from (slice body 24 40);
        blob ← (if info_type =? INFO_TYPE_FILE then
                  p ← path_of h;
                  st ← ask (os_stat p);
                  let name := BACKSLASH :: replace_char SLASH BACKSLASH (h_rel h) in
                  lift (file_info info_class st name (tree_read_only (Disk s)))
                else if info_type =? INFO_TYPE_FILESYSTEM then
                  usage ← mget (fun w => os_statvfs (sh_root s) (host w));
                  lift (fs_info info_class usage (lit "PS2SERVERS"))
                else fail STATUS_NOT_SUPPORTED);
        match blob with
        | None => fail STATUS_NOT_SUPPORTED
        | Some blob =>
            if negb (out_len =? 0) && (out_len <? zlen blob) then fail STATUS_INFO_LENGTH_MISMATCH
            else info_response blob
        end
    | _ => raise StructError
    end.

(** [os.path.samefile(a, b)] *)
Definition samefile (a b : str) (o : Os) : result bool :=
  s ← os_stat a o; t ← os_stat b o; Ok ((st_ino s =? st_ino t) && (st_dev s =? st_dev t)).

(** The rename of [h_set_info] *)
Definition rename_handle (h : handle) (payload : bytes) : M smb unit :=
  let replace_if_exists := negb (znth payload 0 =? 0) in
  let name_len := le_int (slice payload 16 20) in
  if zlen payload <? 20 + name_len then fail STATUS_INVALID_PARAMETER
  else
    let target := from_utf16 (slice payload 20 (20 + name_len)) in
    match h_share h with
    | Ipc => raise AttributeError
    | Disk s =>
        dest ← ask (resolve s target);
        there ← ask (path_exists dest);
        p ← path_of h;
        same ← (if (there : bool) then ask (samefile dest p) else mret true);
        if (there : bool) && negb same && negb replace_if_exists then fail STATUS_OBJECT_NAME_COLLISION
        else
          _ ← on_host (os_replace p dest);
          hmod (file_id h) (fun h => h <| h_path := Some dest |> <| h_rel := target |>)
    end.

Definition set_info_done : M smb reply := b ← packed [(fH, 2)]; ok_reply b.

(** [h_set_info] *)
Definition h_set_info (hdr : header) (body : bytes) : M smb reply :=
  s ← disk_tree hdr;
  _ ← writable (Disk s);
  if zlen body <? 32 then fail STATUS_INVALID_PARAMETER
  else
    fields ← fields_at [fH; fB; fB; fI; fH] body 0;
    match fields with
    | [_; info_type; info_class; buf_len; buf_off] =>
        h ← handle_from (slice body 16 32);
        payload ← request_buffer body buf_off buf_len (HEADER_SIZE + 32);
        if negb (info_type =? INFO_TYPE_FILE) then fail STATUS_NOT_SUPPORTED
        else if (info_class =? FILE_END_OF_FILE_INFORMATION) && (8 <=? zlen payload) then
          let size := to_signed 8 (le_int (slice payload 0 8)) in
          if negb (can_write h) then fail STATUS_ACCESS_DENIED
          else f ← open_file h true; _ ← on_host (f_truncate f size); set_info_done
        else if (info_class =? FILE_DISPOSITION_INFORMATION) && (1 <=? zlen payload) then
          _ ← hmod (file_id h) (fun h => h <| delete_on_close := negb (znth payload 0 =? 0) |>); set_info_done
        else if info_class =? FILE_BASIC_INFORMATION then set_info_done
        else if (info_class =? FILE_RENAME_INFORMATION) && (20 <=? zlen payload) then
          _ ← rename_handle h payload; set_info_done
        else fail STATUS_NOT_SUPPORTED
    | _ => raise StructError
    end.

(** ** ECHO and IOCTL *)

(** [h_echo] *)
Definition h_echo (hdr : header) (body : bytes) : M smb reply := b ← packed [(fH, 4); (fH, 0)]; ok_reply b.

(** [validate_negotiate_info] *)
Definition validate_negotiate_info (data : bytes) : M smb bytes :=
  if zlen data <? 24 then fail STATUS_INVALID_PARAMETER
  else
    let caps := le_int (slice data 0 4) in
    let mode := le_int (slice data 20 22) in
    let count := le_int (slice data 22 24) in
    let dialects := if 24 + count * 2 <=? zlen data then Some (offered_dialects (Z.to_nat count) data 24) else None in
    mine ← cget negotiate_claims;
    if negb (bool_decide (mine <> None /\ (ds ← dialects; Some (caps, slice data 4 20, mode, ds)) = mine)) then
      _ ← cmod (fun c => c <| terminate := true |>); fail STATUS_ACCESS_DENIED
    else
      d ← cget dialect;
      match d with
      | None => raise StructError
      | Some d =>
          a ← packed [(fI, GLOBAL_CAP_LARGE_MTU)];
          b ← packed [(fH, SECURITY_MODE_SIGNING_ENABLED); (fH, d)];
          mret (a ++ ljust (ztake 16 (guid srv)) 16 ++ b)
      end.

(** [h_ioctl] *)
Definition h_ioctl (hdr : header) (body : bytes) : M smb reply :=
  _ ← any_tree hdr;
  if zlen body <? 56 then fail STATUS_INVALID_PARAMETER
  else
    let ctl_code := le_int (slice body 4 8) in
    fields ← fields_at [fI; fI; fI; fI; fI; fI; fI] body 24;
    match fields with
    | [in_off; in_len; _; _; _; max_out; _] =>
        data ← request_buffer body in_off in_len (HEADER_SIZE + 56);
        '(st, out) ← (if ctl_code =? FSCTL_VALIDATE_NEGOTIATE_INFO then
                        out ← validate_negotiate_info data; mret (STATUS_SUCCESS, out)
                      else if ctl_code =? FSCTL_PIPE_TRANSCEIVE then
                        h ← handle_from (slice body 8 24);
                        match h_pipe h with
                        | None => fail STATUS_INVALID_DEVICE_REQUEST
                        | Some p =>
                            out ← rpc_refused (on_pipe (file_id h) p (transact share_list data));
                            if negb (max_out =? 0) && (max_out <? zlen out) then
                              _ ← hmod (file_id h) (fun h =>
                                    h <| h_pipe ::= fmap (fun p => p <| outbox ::= fun q => zdrop max_out out ++ q |>) |>);
                              mret (STATUS_BUFFER_OVERFLOW, ztake max_out out)
                            else mret (STATUS_SUCCESS, out)
                        end
                      else fail STATUS_NOT_SUPPORTED);
        let off := HEADER_SIZE + 48 in
        a ← packed [(fH, 49); (fH, 0); (fI, ctl_code)];
        b ← packed [(fI, off); (fI, 0); (fI, off); (fI, zlen out); (fI, 0); (fI, 0)];
        mret (st, a ++ ljust (slice body 8 24) 16 ++ b ++ out)
    | _ => raise StructError
    end.

(** ** Dispatch *)

(** A handler that leaves the tree to the header *)
Definition plain_reply (m : M smb reply) : M smb reply3 := '(st, b) ← m; mret (Some st, b, None).

(** [_HANDLERS]; CANCEL has no reply. *)
Definition handler (hdr : header) (body : bytes) : option (M smb reply3) :=
  let c := command hdr in
  if c =? CMD_NEGOTIATE then Some (plain_reply (h_negotiate hdr body))
  else if c =? CMD_SESSION_SETUP then Some (plain_reply (h_session_setup hdr body))
  else if c =? CMD_LOGOFF then Some (plain_reply (h_logoff hdr body))
  else if c =? CMD_TREE_CONNECT then Some (h_tree_connect hdr body)
  else if c =? CMD_TREE_DISCONNECT then Some (plain_reply (h_tree_disconnect hdr body))
  else if c =? CMD_CREATE then Some (plain_reply (h_create hdr body))
  else if c =? CMD_CLOSE then Some (plain_reply (h_close hdr body))
  else if c =? CMD_FLUSH then Some (plain_reply (h_flush hdr body))
  else if c =? CMD_READ then Some (plain_reply (h_read hdr body))
  else if c =? CMD_WRITE then Some (plain_reply (h_write hdr body))
  else if c =? CMD_QUERY_DIRECTORY then Some (plain_reply (h_query_directory hdr body))
  else if c =? CMD_QUERY_INFO then Some (plain_reply (h_query_info hdr body))
  else if c =? CMD_SET_INFO then Some (plain_reply (h_set_info hdr body))
  else if c =? CMD_ECHO then Some (plain_reply (h_echo hdr body))
  else if c =? CMD_IOCTL then Some (plain_reply (h_ioctl hdr body))
  else if c =? CMD_CANCEL then Some (mret (None, [], None))
  else None.

Definition refused (st : Z) : M smb reply3 := mret (Some st, error_body, None).

(** [_dispatch]: what a handler raises becomes a status. *)
Definition dispatch (hdr : header) (body : bytes) : M smb reply3 :=
  match handler hdr body with
  | None => refused STATUS_NOT_SUPPORTED
  | Some m =>
      mcatch m (fun e => match e with
                         | NtStatus st => Some (refused st)
                         | OSError n => Some (refused (status_for_oserror n))
                         | Hang => None
                         | _ => Some (refused STATUS_INVALID_PARAMETER)
                         end)
  end.

(** [_SESSION_KINDS] *)
Definition session_kind (c : Z) : option SessionStats.kind :=
  if c =? CMD_CREATE then Some k_open
  else if c =? CMD_QUERY_DIRECTORY then Some k_list
  else if c =? CMD_READ then Some k_read
  else if c =? CMD_WRITE then Some k_write
  else if c =? CMD_CLOSE then Some k_close
  else None.

(** [_EXPECTED_STATUSES] *)
Definition expected_status (c st : Z) : bool :=
  existsb (fun cs => (c =? fst cs) && (st =? snd cs))
    [(CMD_CREATE, STATUS_OBJECT_NAME_NOT_FOUND); (CMD_READ, STATUS_END_OF_FILE);
     (CMD_QUERY_DIRECTORY, STATUS_NO_MORE_FILES); (CMD_SESSION_SETUP, STATUS_MORE_PROCESSING_REQUIRED)].

(** [_handle] *)
Definition handle_request (hdr : header) (body : bytes) : M smb reply3 :=
  let kind := session_kind (command hdr) in
  _ ← match kind with Some k => session_record k 1 | None => mret tt end;
  '(st, b, tid) ← dispatch hdr body;
  let failed := match st with
                | Some st => negb (st =? STATUS_SUCCESS) && negb (expected_status (command hdr) st)
                | None => false
                end in
  _ ← (if failed then session_record errors 1
       else match kind with None => session_touch | Some _ => mret tt end);
  mret (st, b, tid).

(** ** Signing and credits *)

(** The dialect as the functions of [smb2_crypto] compare it *)
Definition dialect_number : M smb Z :=
  d ← cget dialect; match d with Some d => mret d | None => raise TypeError end.

(** [_signature_check] *)
Definition signature_check (hdr : header) (message : bytes) : M smb (option Z) :=
  key ← cget signing_key;
  match key with
  | None => mret None
  | Some key =>
      if has (flags hdr) FLAG_SIGNED then
        if zlen message <? HEADER_SIZE then mret (Some STATUS_ACCESS_DENIED)
        else
          d ← dialect_number;
          ok ← lift (Smb2Crypto.verify key d message);
          mret (if (ok : bool) then None else Some STATUS_ACCESS_DENIED)
      else
        required ← cget signing_required;
        mret (if (required : bool) && negb (existsb (Z.eqb (command hdr)) [CMD_NEGOTIATE; CMD_SESSION_SETUP; CMD_CANCEL])
              then Some STATUS_ACCESS_DENIED else None)
  end.

(** [_should_sign] *)
Definition should_sign (hdr : header) (st : Z) : M smb bool :=
  key ← cget signing_key;
  required ← cget signing_required;
  mret (match key with
        | None => false
        | Some _ => negb (st =? STATUS_MORE_PROCESSING_REQUIRED) && (required || has (flags hdr) FLAG_SIGNED)
        end).

Definition CREDIT_LIMIT : Z := 512.

(** [_grant_credits] *)
Definition grant_credits (hdr : header) : M smb Z :=
  _ ← mwhen (negb (command hdr =? CMD_NEGOTIATE))
        (cmod (fun c => c <| c_credits ::= fun n => Z.max 0 (n - Z.max 1 (credit_charge hdr)) |>));
  held ← cget c_credits;
  let want := Z.max 1 (credits hdr) in
  let grant := Z.max 1 (Z.min want (CREDIT_LIMIT - held)) in
  _ ← cmod (fun c => c <| c_credits := held + grant |>);
  mret grant.

(** ** Compound messages *)

(** A reply that waits to be sent: the header of its request, the status, the body, the
    tree, the credits *)
Record answer := Answer { a_hdr : header; a_status : Z; a_body : bytes; a_tree : option Z; a_grant : Z }.

(** The header of a related request, with the session and the tree of the one before *)
Definition inherit (related : bool) (prev hdr : header) : header :=
  if related then
    let hdr := if session_id hdr =? 2 ^ 64 - 1 then hdr <| session_id := session_id prev |> else hdr in
    if tree_id hdr =? 2 ^ 32 - 1 then hdr <| tree_id := tree_id prev |> else hdr
  else hdr.

(** One request of a message: its header as it ends, its status, its reply *)
Definition serve_one (hdr : header) (related : bool) (prev_status : option Z) (message : bytes)
    : M smb (header * option Z * option answer) :=
  refusal ← signature_check hdr message;
  let prev_failed := match prev_status with Some st => negb (st =? STATUS_SUCCESS) | None => false end in
  '(st, b, tid) ← (if related && prev_failed then mret (prev_status, error_body, None)
                   else match refusal with
                        | Some st => refused st
                        | None => handle_request hdr (zdrop HEADER_SIZE message)
                        end);
  _ ← mwhen ((command hdr =? CMD_CREATE) && bool_decide (st = Some STATUS_SUCCESS) && (80 <=? zlen b))
        (cmod (fun c => c <| compound_file_id := Some (slice b 64 80) |>));
  let hdr := match tid with Some t => hdr <| tree_id := t |> | None => hdr end in
  grant ← grant_credits hdr;
  mret (hdr, st, match st with Some s => Some (Answer hdr s b tid grant) | None => None end).

(** [_not_smb2] and [smb1_negotiate_dialects] *)
Definition smb1_dialects (msg : bytes) : option (list bytes) :=
  if (zlen msg <? 35) || negb (str_eqb (ztake 4 msg) (255 :: lit "SMB")) || negb (znth msg 4 =? 114) then None
  else
    let at_ := 33 + znth msg 32 * 2 in
    if zlen msg <? at_ + 2 then None
    else
      let count := le_int (slice msg at_ (at_ + 2)) in
      Some (omap (fun item => match item with 2 :: t => Some t | _ => None end)
              (split_on 0 (slice msg (at_ + 2) (at_ + 2 + count)))).

(** [wire.send_msg(conn.sock, msg)]; a fault lets some of the bytes go before it raises. *)
Definition send_msg (msg : bytes) : M smb unit :=
  framed ← lift (frame msg);
  fault ← mget (fun w => head (send_faults w));
  _ ← mmod (fun w => w <| send_faults ::= tail |>);
  match fault with
  | Some (Some (n, e)) => _ ← mmod (fun w => w <| out ::= fun o => o ++ ztake n framed |>); raise (OSError e)
  | _ => mmod (fun w => w <| out ::= fun o => o ++ framed |>)
  end.

Definition not_smb2 (msg : bytes) : M smb unit :=
  match smb1_dialects msg with
  | None => mret tt
  | Some ds =>
      let offers name := existsb (str_eqb (lit name)) ds in
      let answer d :=
        _ ← cmod (fun c => c <| c_credits ::= Z.add 1 |>);
        h ← lift (pack_header CMD_NEGOTIATE STATUS_SUCCESS 0 0 0 1 0 0);
        b ← negotiate_response d;
        send_msg (h ++ b) in
      if offers "SMB 2.???"%string then answer 767
      else if offers "SMB 2.002"%string && (DIALECT_202 <=? ceiling srv) then
        _ ← cmod (fun c => c <| dialect := Some DIALECT_202 |>); answer DIALECT_202
      else mret tt
  end.

(** The first loop of [_dispatch_all]: the replies; nothing where a header cannot be read *)
Fixpoint serve_requests (fuel : nat) (msg : bytes) (offset : Z) (prev : option (header * option Z)) (replies : list answer)
    : M smb (option (list answer)) :=
  if offset <? zlen msg then
    match fuel with
    | O => raise Hang
    | S fuel =>
        match parse_header (zdrop offset msg) with
        | None => _ ← mwhen (offset =? 0) (not_smb2 msg); mret None
        | Some hdr =>
            let next := next_command hdr in
            let end_ := if next =? 0 then zlen msg else offset + next in
            let '(related, prev_hdr, prev_status) :=
              match prev with
              | Some (p, st) => (has (flags hdr) FLAG_RELATED, p, st)
              | None => (false, hdr, None)
              end in
            '(hdr, st, reply) ← serve_one (inherit related prev_hdr hdr) related prev_status (slice msg offset end_);
            let replies := replies ++ option_list reply in
            if next =? 0 then mret (Some replies)
            else serve_requests fuel msg end_ (Some (hdr, st)) replies
        end
    end
  else mret (Some replies).

(** One reply on the wire *)
Definition reply_piece (first last : bool) (a : answer) : M smb bytes :=
  let total := HEADER_SIZE + zlen (a_body a) in
  let aligned := Z.land (total + 7) (Z.lnot 7) in
  let padding := if last then [] else zeros (aligned - total) in
  let next := if last then 0 else aligned in
  let fl := if negb first && has (flags (a_hdr a)) FLAG_RELATED then FLAG_RELATED else 0 in
  sign ← should_sign (a_hdr a) (a_status a);
  let fl := if (sign : bool) then Z.lor fl FLAG_SIGNED else fl in
  sid ← cget c_session_id;
  h ← lift (pack_header (command (a_hdr a)) (a_status a) (message_id (a_hdr a))
              (match a_tree a with None => tree_id (a_hdr a) | Some t => t end)
              (if sid =? 0 then session_id (a_hdr a) else sid) (a_grant a) fl next);
  let piece := h ++ a_body a ++ padding in
  if (sign : bool) then
    key ← cget signing_key;
    d ← dialect_number;
    lift (Smb2Crypto.signed (default [] key) d piece)
  else mret piece.

Fixpoint reply_pieces (first : bool) (l : list answer) : M smb bytes :=
  match l with
  | [] => mret []
  | a :: l =>
      piece ← reply_piece first (match l with [] => true | _ => false end) a;
      rest ← reply_pieces false l;
      mret (piece ++ rest)
  end.

Fixpoint count_reads (l : list answer) : M smb unit :=
  match l with
  | [] => mret tt
  | a :: l =>
      _ ← mwhen ((command (a_hdr a) =? CMD_READ) && (a_status a =? STATUS_SUCCESS))
            (session_record k_bytes (zlen (a_body a) - 16));
      count_reads l
  end.

(** [_dispatch_all] *)
Definition dispatch_all (msg : bytes) : M smb unit :=
  _ ← cmod (fun c => c <| compound_file_id := None |>);
  replies ← serve_requests (length msg) msg 0 None [];
  match replies with
  | None => mret tt
  | Some replies =>
      _ ← cmod (fun c => c <| compound_file_id := None |>);
      out ← reply_pieces true replies;
      match out with
      | [] => mret tt
      | _ => _ ← send_msg out; count_reads replies
      end
  end.

(** ** A connection *)

Definition receive : M smb (option bytes) := fun w =>
  let '(r, s) := recv_msg (incoming w) in (r, w <| incoming := s |>).

(** The loop of [_serve_client] *)
Fixpoint client_loop (fuel : nat) : M smb unit :=
  match fuel with
  | O => raise Hang
  | S fuel =>
      msg ← receive;
      match msg with
      | None => mret tt
      | Some [] => client_loop fuel
      | Some msg =>
          _ ← dispatch_all msg;
          over ← cget terminate;
          if (over : bool) then mret tt else client_loop fuel
      end
  end.

(** [ConnectionResetError], [ConnectionAbortedError], [BrokenPipeError] *)
Definition went_away (e : option Z) : bool :=
  existsb (fun n => bool_decide (e = Some n)) [ECONNRESET; ECONNABORTED; EPIPE; ESHUTDOWN].

(** [_serve_client]: the handles are closed whatever happens. *)
Definition serve_client : M smb unit := fun w =>
  let body :=
    _ ← session_record connections 1;
    mcatch (client_loop (S (arrivals (incoming w))))
      (fun e => match e with
                | OSError n => Some (mwhen (negb (went_away n)) (session_record errors 1))
                | _ => None
                end) in
  let '(r, w) := body w in
  let '(r', w) := close_all w in
  (match r' with Ok _ => r | Err e => Err e end, w).
End smb.
Arguments smb : clear implicits.
