(* ===== verification/Smb2Facts.v ===== *)
(** * What an SMB2 request can do

    Every run of a handler of [Smb2Server] stays the tables of a connection sound and acts
    on the host by a sequence of elementary operations, listed by [touch]: which paths it
    may name, and what needs a share that can be written.  Confinement and the read-only
    promise follow. *)

From stdpp Require Import relations.
From S2P Require Import Prelude Triples Tables PyStr PyText PathNames SessionStats Compressed HostOs PyHash Smb2Wire Smb2Crypto Smb2Auth Smb2Srvsvc Smb2Paths PyGlob Smb2Server.

Create HintDb smb.

Section facts.
Context {Os : Type} `{ShareOs Os} `{CaseFolding} `{FloatTime} (srv : server) (urandom : Z -> Z -> bytes).
Abbreviation W := (smb Os).

(** ** Soundness of a connection *)

Definition shared (s : share) : Prop := exists n, (n, s) ∈ shares srv.

(** A path that a client's name stands for *)
Definition served_path (p : str) : Prop := exists s name o, shared s /\ resolve s name o = Ok p.

Definition may_write : Prop := exists s, shared s /\ tree_read_only srv (Disk s) = false.

Definition tree_ok (t : tree) : Prop := match t with Disk s => shared s | Ipc => True end.

(** A descriptor that some [open] of a served path returned; for writing, or any *)
Definition opened (f : Z) (to_write : bool) : Prop := exists p o,
  served_path p /\ (to_write = true -> may_write) /\ fst (os_open p (if to_write then m_rpb else m_rb) o) = Ok f.

Definition ours (f : Z) : Prop := exists p m o, served_path p /\ fst (os_open p m o) = Ok f.

(** A handle stands for a served path or for a pipe, its file was opened on such a path, and
    one that is to be deleted was asked for on a share that can be written. *)
Record handle_ok (h : handle) : Prop := {
  ho_share : tree_ok (h_share h);
  ho_path : match h_path h with Some p => served_path p | None => h_share h = Ipc end;
  ho_delete : delete_on_close h = true -> may_write;
  ho_file : match h_fh h with Some (f, can) => opened f can | None => True end
}.

Record conn_ok (c : conn) : Prop := {
  co_trees : Forall (fun kt => tree_ok (snd kt)) (trees c);
  co_handles : Forall (fun kh => file_id (snd kh) = fst kh /\ fst kh < next_handle c /\ handle_ok (snd kh)) (handles c);
  co_keys : NoDup (map fst (handles c))
}.

(** ** Operations on the host *)

Inductive touch : Os -> Os -> Prop :=
  | to_open p o : served_path p -> touch o (snd (os_open p m_rb o))
  | to_seek f off wh o : ours f -> touch o (snd (f_seek f off wh o))
  | to_read f n o : ours f -> touch o (snd (f_read f n o))
  | to_flush f o : ours f -> touch o (snd (f_flush f o))
  | to_fsync f o : ours f -> touch o (snd (os_fsync f o))
  | to_close f o : ours f -> touch o (snd (f_close f o))
  | to_open_write p m o : may_write -> served_path p -> touch o (snd (os_open p m o))
  | to_makedirs p o : may_write -> served_path p -> touch o (snd (os_makedirs p o))
  | to_unlink p o : may_write -> served_path p -> touch o (snd (os_unlink p o))
  | to_rmdir p o : may_write -> served_path p -> touch o (snd (os_rmdir p o))
  | to_replace p q o : may_write -> served_path p -> served_path q -> touch o (snd (os_replace p q o))
  | to_write f data o : may_write -> opened f true -> touch o (snd (f_write f data o))
  | to_truncate f n o : may_write -> opened f true -> touch o (snd (f_truncate f n o)).

Lemma opened_ours f can : opened f can -> ours f.
Proof. intros (p & o & Hp & _ & E). by eexists p, _, o. Qed.

(** ** Code that keeps a connection sound *)

(** From a sound connection the code comes to a sound one by operations of [touch], and
    what it returns satisfies [Q]. *)
Abbreviation stays := (Triples.stays host (fun w : W => conn_ok (cn w)) touch).

Abbreviation sound m := (stays (fun _ => True) m).

Lemma stays_fail {A} (Q : A -> Prop) st : stays Q (fail st : M W A).
Proof. apply stays_raise. Qed.

Lemma stays_ask {A} (f : Os -> result A) : stays (fun a => exists o, f o = Ok a) (ask f : M W A).
Proof.
  apply stays_iff. intros w Hw. split_and!; [done|apply rtc_refl|]. intros a Ha. by exists (host w).
Qed.

(** Changes outside the tables *)
Definition same_tables (f : conn -> conn) : Prop :=
  forall c, trees (f c) = trees c /\ handles (f c) = handles c /\ next_handle (f c) = next_handle c.

Lemma stays_cmod f : (forall c, conn_ok c -> conn_ok (f c)) -> sound (cmod f : M W unit).
Proof. intros Hf. apply stays_iff. intros w Hw. split_and!; [by apply Hf|apply rtc_refl|done]. Qed.

Lemma stays_same_tables f : same_tables f -> sound (cmod f : M W unit).
Proof.
  intros Hf. apply stays_cmod. intros c [K1 K2 K3]. destruct (Hf c) as (E1 & E2 & E3).
  split; rewrite ?E1, ?E2, ?E3; done.
Qed.

Lemma stays_host {A} (m : M Os A) :
  (forall o, touch o (snd (m o))) -> stays (fun a => exists o, fst (m o) = Ok a) (on_host m : M W A).
Proof.
  intros Hm. apply stays_iff. intros w Hw. unfold on_host. specialize (Hm (host w)). destruct (m (host w)) as [r o] eqn:E. cbn in *.
  split_and!; [done|by apply rtc_once|]. intros a ->. exists (host w). by rewrite E.
Qed.

Lemma stays_on_host {A} (m : M Os A) : (forall o, touch o (snd (m o))) -> sound (on_host m : M W A).
Proof. intros Hm. by eapply stays_sound, stays_host. Qed.

Lemma stays_hmod hid f :
  (forall h, handle_ok h -> handle_ok (f h)) -> (forall h, file_id (f h) = file_id h) -> sound (hmod hid f : M W unit).
Proof.
  intros Hf Hid. apply stays_cmod. intros c [K1 K2 K3]. split; cbn; [done| |].
  - unfold aupdate. apply Forall_map. eapply Forall_impl; [exact K2|]. intros [k h] (E & Hk & Hh). cbn in *.
    destruct (k =? hid); cbn; [|done]. rewrite Hid. auto.
  - unfold aupdate. rewrite map_map. erewrite map_ext; [exact K3|]. intros [k h]. cbn. by destruct (k =? hid).
Qed.

Lemma stays_tree (tid : Z) :
  stays (fun o => match o with Some t => tree_ok t | None => True end) (cget (fun c => alookup tid (trees c)) : M W _).
Proof.
  apply stays_iff. intros w Hw. split_and!; [done|apply rtc_refl|]. intros a [= <-]. destruct (alookup _ _) as [t|] eqn:E; [|done].
  apply alookup_in in E. by apply (proj1 (Forall_forall _ _) (co_trees _ Hw) _ E).
Qed.

Lemma stays_lookup (hid : Z) :
  stays (fun o => match o with Some h => handle_ok h | None => True end) (cget (fun c => alookup hid (handles c)) : M W _).
Proof.
  apply stays_iff. intros w Hw. split_and!; [done|apply rtc_refl|]. intros a [= <-]. destruct (alookup _ _) as [h|] eqn:E; [|done].
  apply alookup_in in E. by apply (proj1 (Forall_forall _ _) (co_handles _ Hw) _ E).
Qed.

Lemma stays_handles : stays (fun l => Forall (fun kh => handle_ok (snd kh)) l) (cget handles : M W _).
Proof.
  apply stays_iff. intros w Hw. split_and!; [done|apply rtc_refl|]. intros a [= <-].
  eapply Forall_impl; [exact (co_handles _ Hw)|]. by intros kh (_ & _ & Hh).
Qed.

Lemma stays_delete hid : sound (cmod (fun c => c <| handles ::= adelete hid |>) : M W unit).
Proof.
  apply stays_cmod. intros c [K1 K2 K3]. split; cbn; [done| |].
  - unfold adelete. apply Forall_forall. intros kh Hin.
    apply list_elem_of_In, filter_In in Hin as [Hin%list_elem_of_In _]. by apply (proj1 (Forall_forall _ _) K2).
  - unfold adelete. clear K1 K2. induction (handles c) as [|[k h] l IH]; [done|]. cbn in *.
    apply NoDup_cons in K3 as [Hni Hnd]. destruct (negb (k =? hid)); cbn; [|by apply IH].
    apply NoDup_cons. split; [|by apply IH]. intros Hin%list_elem_of_In. apply Hni.
    apply list_elem_of_In. apply in_map_iff in Hin as (kh & <- & Hin%filter_In). apply in_map. tauto.
Qed.

Definition added (h : handle) (c : conn) : conn :=
  c <| next_handle := next_handle c + 1 |> <| handles ::= fun l => l ++ [(next_handle c, h)] |>.

Lemma added_ok h c : conn_ok c -> file_id h = next_handle c -> handle_ok h -> conn_ok (added h c).
Proof.
  intros [K1 K2 K3] Hid Hh. split; cbn; [done| |].
  - apply Forall_app. split; [|apply Forall_cons; split; [|apply Forall_nil_2]; cbn; split_and!; [done|lia|done]].
    eapply Forall_impl; [exact K2|]. intros kh (? & ? & ?). split_and!; [done|lia|done].
  - rewrite map_app. cbn. apply NoDup_app. split_and!; [done| |apply NoDup_singleton].
    intros k Hk Hin%list_elem_of_singleton. subst k. apply list_elem_of_In, in_map_iff in Hk as (kh & E & Hin%list_elem_of_In).
    pose proof (proj1 (Forall_forall _ _) K2 _ Hin) as (_ & Hlt & _). lia.
Qed.

Lemma stays_add_handle t p rel dir :
  (forall hid, handle_ok (new_handle hid t p rel dir)) -> stays handle_ok (add_handle t p rel dir : M W handle).
Proof.
  intros Hh. apply stays_iff. intros w Hw.
  change (add_handle t p rel dir w)
    with (Ok (new_handle (next_handle (cn w)) t p rel dir),
          w <| cn ::= added (new_handle (next_handle (cn w)) t p rel dir) |>).
  split_and!; [by apply added_ok|apply rtc_refl|by intros a [= <-]].
Qed.

Lemma stays_add_tree t : tree_ok t -> sound (connect_tree t : M W Z).
Proof.
  intros Ht. apply stays_iff. intros w Hw.
  change (connect_tree t w)
    with (Ok (next_tree (cn w)),
          w <| cn ::= fun c => c <| next_tree := next_tree c + 1 |> <| trees ::= fun l => l ++ [(next_tree c, t)] |> |>).
  split_and!; [|apply rtc_refl|done]. destruct Hw as [K1 K2 K3]. split; cbn; [|done..].
  apply Forall_app. split; [done|]. apply Forall_cons. split; [done|apply Forall_nil_2].
Qed.

(** ** Automation *)

Lemma stays_packed fvs : sound (packed fvs : M W bytes).
Proof. eapply stays_sound, stays_lift. Qed.

Lemma stays_fields_at fs body off : sound (fields_at fs body off : M W (list Z)).
Proof. eapply stays_sound, stays_lift. Qed.

Lemma stays_cget {A} (f : conn -> A) : sound (cget f : M W A).
Proof. apply stays_mget. Qed.

Lemma stays_draw n : sound (draw urandom n : M W bytes).
Proof. apply stays_iff. intros w Hw. split_and!; [done|apply rtc_refl|done]. Qed.

Lemma stays_record k n : sound (session_record k n : M W unit).
Proof. by apply (stays_mmod host). Qed.

Lemma stays_touch : sound (session_touch : M W unit).
Proof. by apply (stays_mmod host). Qed.

Lemma stays_path_of h : handle_ok h -> stays served_path (path_of h : M W str).
Proof.
  intros Hh. unfold path_of. pose proof (ho_path _ Hh). destruct (h_path h); [by apply stays_ret|apply stays_raise].
Qed.

#[local] Hint Resolve stays_lift stays_ask stays_tree stays_lookup stays_handles stays_path_of : smb.
#[local] Hint Resolve stays_packed stays_fields_at stays_draw stays_record stays_touch stays_delete : smb.
#[local] Hint Resolve stays_cget stays_mget | 5 : smb.
#[local] Hint Extern 1 (same_tables _) => (split_and!; done) : smb.

(** Takes apart the code in front of it; known parts are found among the hints. *)
Ltac smb_step :=
  lazymatch goal with
  | |- stays _ (mbind _ _) =>
      first [eapply stays_bind; [solve [eauto 2 with smb nocore]|intros ? ?]
            |eapply (stays_bind (fun _ => True)); [|intros ? _]]
  | |- stays _ (mret _) => apply stays_ret
  | |- stays _ (fail _) => apply stays_fail
  | |- stays _ (raise _) => apply stays_raise
  | |- stays _ (mwhen _ _) => apply stays_when; intros ?
  | |- stays _ (match ?x with _ => _ end) => let E := fresh "E" in destruct x eqn:E
  | |- stays _ _ =>
      first [solve [eauto 2 with smb nocore]
            |solve [eapply stays_sound; eauto 2 with smb nocore]
            |apply stays_same_tables; intros ?; split_and!; reflexivity]
  end.
Ltac smb := repeat (smb_step; try done).

(** ** The pieces *)

Lemma stays_require_session : sound (require_session : M W unit).
Proof. unfold require_session. smb. Qed.
#[local] Hint Resolve stays_require_session : smb.

Lemma stays_any_tree hdr : stays tree_ok (any_tree hdr : M W tree).
Proof. unfold any_tree. smb. Qed.
#[local] Hint Resolve stays_any_tree : smb.

Lemma stays_disk_tree hdr : stays shared (disk_tree hdr : M W share).
Proof. unfold disk_tree. smb. Qed.
#[local] Hint Resolve stays_disk_tree : smb.

Lemma stays_writable t : tree_ok t -> stays (fun _ => may_write) (writable srv t : M W unit).
Proof.
  intros Ht. unfold writable. destruct (tree_read_only srv t) eqn:E; [apply stays_fail|].
  apply stays_ret. destruct t as [s|]; [by exists s|].
  unfold tree_read_only in E. by rewrite orb_true_r in E.
Qed.

Lemma stays_request_buffer body offset length least : sound (request_buffer body offset length least : M W bytes).
Proof. unfold request_buffer. smb. Qed.
#[local] Hint Resolve stays_request_buffer : smb.

Lemma stays_handle_from raw : stays handle_ok (handle_from raw : M W handle).
Proof. unfold handle_from. smb. Qed.
#[local] Hint Resolve stays_handle_from : smb.

Lemma stays_ignore m : sound m -> sound (ignore_oserror m : M W unit).
Proof. intros Hm. apply stays_mcatch; [done|]. intros [] k; try done. intros [= <-]. by apply stays_ret. Qed.

Lemma stays_close_file h : handle_ok h -> sound (close_file h : M W unit).
Proof.
  intros Hh. unfold close_file. pose proof (ho_file _ Hh) as Hf. destruct (h_fh h) as [[f can]|]; [|by apply stays_ret]. smb.
  - apply stays_ignore, stays_on_host. intros o. by eapply to_close, opened_ours.
  - apply stays_hmod; [|done]. by intros ? [].
Qed.
#[local] Hint Resolve stays_close_file : smb.

Lemma stays_close_all : sound (close_all : M W unit).
Proof.
  unfold close_all. eapply stays_bind; [apply stays_handles|]. intros l Hl. eapply (stays_bind (fun _ => True)).
  - induction Hl as [|[k h] l Hh Hl IH]; cbn [close_handles]; smb.
  - intros _ _. apply stays_cmod. intros c [K1 K2 K3]. split; cbn; [done|apply Forall_nil_2|apply NoDup_nil_2].
Qed.
#[local] Hint Resolve stays_close_all : smb.

(** ** The handlers *)

Lemma stays_negotiate_response d : sound (negotiate_response srv d : M W bytes).
Proof. unfold negotiate_response. smb. Qed.
#[local] Hint Resolve stays_negotiate_response : smb.

Lemma stays_h_negotiate hdr body : sound (h_negotiate srv hdr body : M W reply).
Proof. unfold h_negotiate, ok_reply. smb. Qed.

Lemma stays_ensure_session_id : sound (ensure_session_id urandom : M W unit).
Proof. unfold ensure_session_id. smb. Qed.
#[local] Hint Resolve stays_ensure_session_id : smb.

Lemma stays_h_session_setup hdr body : sound (h_session_setup srv urandom hdr body : M W reply).
Proof. unfold h_session_setup, send_challenge, finish_session, check_credentials, ok_reply. smb. Qed.

Lemma stays_h_logoff hdr body : sound (h_logoff hdr body : M W reply).
Proof.
  unfold h_logoff, ok_reply. smb. apply stays_cmod. intros c [K1 K2 K3]. split; cbn; [apply Forall_nil_2|done..].
Qed.

Lemma share_named_shared name s : share_named srv name = Some s -> shared s.
Proof.
  assert (Hf : forall f ns, List.find f (shares srv) = Some ns -> shared (snd ns)).
  { intros f [n t] [Hin%list_elem_of_In _]%find_some. by exists n. }
  unfold share_named. intros E. repeat case_match; simplify_eq; eauto.
Qed.
#[local] Hint Resolve share_named_shared stays_add_tree : smb.

Lemma stays_h_tree_connect hdr body : sound (h_tree_connect srv hdr body : M W reply3).
Proof. unfold h_tree_connect. smb. apply stays_add_tree. by eapply share_named_shared. Qed.

Lemma stays_h_tree_disconnect hdr body : sound (h_tree_disconnect hdr body : M W reply).
Proof.
  unfold h_tree_disconnect, ok_reply. smb. apply stays_cmod. intros c [K1 K2 K3]. split; cbn; [|done..].
  unfold adelete. apply Forall_forall. intros kt [Hin%list_elem_of_In _]%list_elem_of_In%filter_In.
  by apply (proj1 (Forall_forall _ _) K1).
Qed.

Lemma stays_create_response action times alloc size attrs h :
  sound (create_response action times alloc size attrs h : M W bytes).
Proof. unfold create_response, file_id_bytes. smb. Qed.
#[local] Hint Resolve stays_create_response : smb.

Lemma stays_name_of body off len : sound (name_of body off len : M W text).
Proof. unfold name_of. smb. Qed.
#[local] Hint Resolve stays_name_of : smb.

Lemma stays_create_pipe body : sound (create_pipe body : M W reply).
Proof.
  unfold create_pipe, ok_reply. smb; [by eapply stays_sound, stays_add_handle|]. apply stays_hmod; [|done]. by intros ? [].
Qed.
#[local] Hint Resolve stays_create_pipe : smb.

Lemma stays_make_empty p : may_write -> served_path p -> sound (make_empty p : M W unit).
Proof.
  intros Hm Hp. unfold make_empty. eapply stays_bind; [apply stays_host; intros o; by apply to_open_write|].
  intros f [o E]. apply stays_on_host. intros o'. apply to_close. by exists p, m_wb, o.
Qed.

Lemma stays_create_action s p there disposition want_dir : shared s -> served_path p ->
  sound (create_action srv s p there disposition want_dir : M W Z).
Proof.
  intros Hs Hp. unfold create_action.
  assert (Hw : stays (fun _ => may_write) (writable srv (Disk s) : M W unit)) by by apply stays_writable.
  destruct (negb there).
  - eapply stays_bind; [exact Hw|]. intros ? Hm. smb; [|by apply stays_make_empty].
    apply stays_on_host. intros o. by apply to_makedirs.
  - destruct (existsb _ _); [|by apply stays_ret]. eapply stays_bind; [apply stays_ask|]. intros dir _.
    destruct dir; [by apply stays_ret|]. eapply stays_bind; [exact Hw|]. intros ? Hm. smb. by apply stays_make_empty.
Qed.

Lemma stays_create_file s rel access disposition options : shared s ->
  sound (create_file srv s rel access disposition options : M W reply).
Proof.
  intros Hs. unfold create_file, ok_reply. eapply stays_bind; [apply stays_ask|]. intros p [o Hp].
  assert (Hsp : served_path p) by by exists s, rel, o.
  eapply stays_bind; [apply stays_ask|]. intros there _.
  destruct (_ && _); [apply stays_fail|]. destruct (_ && _); [apply stays_fail|].
  eapply stays_bind; [by apply stays_create_action|]. intros action _. eapply stays_bind; [apply stays_ask|]. intros st _.
  destruct (_ && _); [apply stays_fail|]. destruct (_ && _); [apply stays_fail|].
  eapply stays_bind; [by apply stays_add_handle|]. intros h Hh.
  eapply stays_bind; [apply stays_hmod; [by intros ? []|done]|]. intros _ _.
  eapply (stays_bind (fun _ => True)); [|intros _ _; smb].
  destruct (has options _); [|by apply stays_ret].
  eapply stays_bind; [by apply stays_writable|]. intros ? Hm. apply stays_hmod; [|done]. by intros ? [].
Qed.

Lemma stays_h_create hdr body : sound (h_create srv hdr body : M W reply).
Proof. unfold h_create. smb. by apply stays_create_file. Qed.

Lemma stays_delete_handle h : handle_ok h -> delete_on_close h = true -> sound (delete_handle h : M W unit).
Proof.
  intros Hh Hd. pose proof (ho_delete _ Hh Hd) as Hm. unfold delete_handle. apply stays_ignore.
  eapply stays_bind; [by apply stays_path_of|]. intros p Hp.
  destruct (is_dir h); apply stays_on_host; intros o; [by apply to_rmdir|by apply to_unlink].
Qed.

Lemma stays_try_stat p : sound (mcatch (st ← ask (os_stat p); mret (Some st))
  (fun e => match e with OSError _ => Some (mret None) | _ => None end) : M W (option stat_result)).
Proof. apply stays_mcatch; [smb|]. intros [] k; try done. intros [= <-]. by apply stays_ret. Qed.
#[local] Hint Resolve stays_try_stat : smb.

Lemma stays_h_close hdr body : sound (h_close srv hdr body : M W reply).
Proof. unfold h_close, ok_reply. smb. by apply stays_delete_handle. Qed.

Lemma stays_h_flush hdr body : sound (h_flush hdr body : M W reply).
Proof.
  unfold h_flush, ok_reply. eapply stays_bind; [apply stays_disk_tree|]. intros s _.
  eapply stays_bind; [apply stays_handle_from|]. intros h Hh. pose proof (ho_file _ Hh) as Hf.
  eapply (stays_bind (fun _ => True)); [|intros _ _; smb]. destruct (h_fh h) as [[f can]|]; [|by apply stays_ret].
  apply opened_ours in Hf. apply stays_ignore. smb; apply stays_on_host; intros o; [by apply to_flush|by apply to_fsync].
Qed.

(** What [open_file] returns *)
Definition usable (to_write : bool) (f : Z) : Prop := exists can, opened f can /\ (to_write = true -> can = true).

Lemma usable_ours to_write f : usable to_write f -> ours f.
Proof. intros (can & Hf & _). by eapply opened_ours. Qed.

Lemma usable_opened f : usable true f -> opened f true.
Proof. intros (can & Hf & Hc). by rewrite Hc in Hf. Qed.

Lemma stays_open_file h (to_write : bool) :
  handle_ok h -> (to_write = true -> may_write) -> stays (usable to_write) (open_file h to_write : M W Z).
Proof.
  intros Hh Hm. unfold open_file.
  assert (Hre : stays (usable to_write) (p ← path_of h; f ← on_host (os_open p (if to_write then m_rpb else m_rb));
    _ ← hmod (file_id h) (fun h => h <| h_fh := Some (f, to_write) |>); mret f : M W Z)).
  { eapply stays_bind; [by apply stays_path_of|]. intros p Hp.
    eapply stays_bind; [apply stays_host|].
    { intros o. by destruct to_write; [apply to_open_write; auto|apply to_open]. }
    intros f [o E]. assert (Hf : opened f to_write) by by exists p, o.
    eapply stays_bind; [apply stays_hmod; [|done]; by intros ? []|]. intros _ _. apply stays_ret. by exists to_write. }
  pose proof (ho_file _ Hh) as Hf. destruct (h_fh h) as [[f can]|]; [|exact Hre]. destruct (_ && _) eqn:Ew.
  - eapply (stays_bind (fun _ => True)); [|intros _ _; exact Hre]. apply stays_on_host. intros o.
    by eapply to_close, opened_ours.
  - apply stays_ret. exists can. split; [done|]. by destruct to_write, can.
Qed.

Lemma stays_on_pipe {A} hid p (m : M pipe A) : sound (on_pipe hid p m : M W A).
Proof.
  intros o w Hw. unfold on_pipe. destruct (m p) as [r p'].
  destruct (stays_hmod hid (fun h => h <| h_pipe := Some p' |>) (fun h Hh => ltac:(by destruct Hh)) (fun h => eq_refl) o w Hw)
    as (K1 & _). by split.
Qed.
#[local] Hint Resolve stays_on_pipe : smb.

Lemma stays_rpc {A} (m : M W A) : sound m -> sound (rpc_refused m).
Proof. intros Hm. apply stays_mcatch; [done|]. intros [] k; try done. intros [= <-]. apply stays_fail. Qed.

Lemma stays_open_read h : handle_ok h -> stays ours (open_file h false : M W Z).
Proof. intros Hh. eapply stays_weaken; [by apply stays_open_file|apply usable_ours]. Qed.

Lemma stays_open_write h : handle_ok h -> may_write -> stays (usable true) (open_file h true : M W Z).
Proof. intros Hh Hm. by apply stays_open_file. Qed.
#[local] Hint Resolve stays_open_read stays_open_write : smb.

Lemma stays_h_read hdr body : sound (h_read hdr body : M W reply).
Proof.
  unfold h_read, ok_reply. smb; apply stays_on_host; intros o; [by apply to_seek|by apply to_read].
Qed.

Lemma stays_write_response n : sound (write_response n : M W reply).
Proof. unfold write_response, ok_reply. smb. Qed.
#[local] Hint Resolve stays_write_response stays_writable : smb.

Lemma stays_h_write hdr body : sound (h_write srv hdr body : M W reply).
Proof.
  unfold h_write. smb.
  - apply stays_rpc. smb.
  - apply stays_on_host. intros o. by eapply to_seek, usable_ours.
  - apply stays_on_host. intros o. by apply to_write, usable_opened.
  - apply stays_on_host. intros o. by eapply to_flush, usable_ours.
Qed.

Lemma stays_listing_for h pattern : handle_ok h -> sound (listing_for h pattern : M W (list text)).
Proof.
  intros Hh. unfold listing_for. smb. apply stays_mcatch; [smb|]. intros [] k; try done. intros [= <-]. by apply stays_ret.
Qed.
#[local] Hint Resolve stays_listing_for : smb.

Lemma stays_entry_target s p name : sound (entry_target s p name : M W str).
Proof. unfold entry_target. smb. Qed.
#[local] Hint Resolve stays_entry_target : smb.

Lemma stays_set_cursor hid c : sound (set_cursor hid c : M W unit).
Proof. apply stays_hmod; [|done]. by intros ? []. Qed.
#[local] Hint Resolve stays_set_cursor : smb.

Lemma stays_list_entries s hid p info_class ro single out_len names c entries total :
  sound (list_entries s hid p info_class ro single out_len names c entries total : M W (list bytes)).
Proof.
  revert c entries total. induction names as [|name names IH]; intros c entries total; cbn [list_entries]; smb; apply IH.
Qed.
#[local] Hint Resolve stays_list_entries : smb.

Lemma stays_info_response blob : sound (info_response blob : M W reply).
Proof. unfold info_response, ok_reply. smb. Qed.
#[local] Hint Resolve stays_info_response : smb.

Lemma stays_current hid h : handle_ok h ->
  stays handle_ok (cget (fun c => default h (alookup hid (handles c))) : M W handle).
Proof.
  intros Hh o w Hw. destruct (stays_lookup hid o w Hw) as [_ Hl]. split; [done|].
  intros a [= <-]. specialize (Hl _ eq_refl). by destruct (alookup hid (handles (cn w))).
Qed.
#[local] Hint Resolve stays_current : smb.

Lemma stays_query_directory s h info_class fl out_len pattern : handle_ok h ->
  sound (query_directory srv s h info_class fl out_len pattern : M W reply).
Proof.
  intros Hh. unfold query_directory. destruct (negb _); [apply stays_fail|].
  eapply (stays_bind (fun _ => True)); [smb; apply stays_hmod; [|done]; by intros ? []|]. intros _ _.
  eapply stays_bind; [by apply stays_current|]. intros h' Hh'. smb.
Qed.
#[local] Hint Resolve stays_query_directory : smb.

Lemma stays_h_query_directory hdr body : sound (h_query_directory srv hdr body : M W reply).
Proof. unfold h_query_directory. smb. Qed.

Lemma stays_h_query_info hdr body : sound (h_query_info srv hdr body : M W reply).
Proof. unfold h_query_info. smb. Qed.

Lemma stays_rename_handle h payload : may_write -> handle_ok h -> sound (rename_handle h payload : M W unit).
Proof.
  intros Hm Hh. unfold rename_handle. destruct (_ <? _); [apply stays_fail|].
  pose proof (ho_share _ Hh) as Hs. destruct (h_share h) as [s|]; [|apply stays_raise]. cbn in Hs.
  eapply stays_bind; [apply stays_ask|]. intros dest [o Hd].
  assert (Hsd : served_path dest) by by exists s, (from_utf16 (slice payload 20 (20 + le_int (slice payload 16 20)))), o.
  eapply stays_bind; [apply stays_ask|]. intros there _. eapply stays_bind; [by apply stays_path_of|]. intros p Hp.
  eapply (stays_bind (fun _ => True)); [smb|]. intros same _. smb.
  - apply stays_on_host. intros o'. by apply to_replace.
  - apply stays_hmod; [|done]. intros h' [? ? ?]. by split.
Qed.

Lemma stays_set_info_done : sound (set_info_done : M W reply).
Proof. unfold set_info_done, ok_reply. smb. Qed.
#[local] Hint Resolve stays_set_info_done stays_rename_handle : smb.

Lemma stays_h_set_info hdr body : sound (h_set_info srv hdr body : M W reply).
Proof.
  unfold h_set_info. smb.
  - apply stays_on_host. intros o. by apply to_truncate, usable_opened.
  - apply stays_hmod; [|done]. intros ? []. by split.
Qed.

Lemma stays_h_echo hdr body : sound (h_echo hdr body : M W reply).
Proof. unfold h_echo, ok_reply. smb. Qed.

Lemma stays_validate data : sound (validate_negotiate_info srv data : M W bytes).
Proof. unfold validate_negotiate_info. smb. Qed.
#[local] Hint Resolve stays_validate : smb.

Lemma stays_h_ioctl hdr body : sound (h_ioctl srv hdr body : M W reply).
Proof.
  unfold h_ioctl. smb; [apply stays_rpc; smb|]. apply stays_hmod; [|done]. by intros ? [].
Qed.

(** ** The connection *)

Lemma stays_plain m : sound m -> sound (plain_reply m : M W reply3).
Proof. intros Hm. unfold plain_reply. eapply stays_bind; [exact Hm|]. intros [st b] _. by apply stays_ret. Qed.

Lemma stays_handler hdr body m : handler srv urandom hdr body = Some m -> sound (m : M W reply3).
Proof.
  unfold handler. intros E. repeat (case_match; [simplify_eq; try apply stays_plain|]).
  all: eauto using stays_h_negotiate, stays_h_session_setup, stays_h_logoff, stays_h_tree_connect, stays_h_tree_disconnect,
    stays_h_create, stays_h_close, stays_h_flush, stays_h_read, stays_h_write, stays_h_query_directory, stays_h_query_info,
    stays_h_set_info, stays_h_echo, stays_h_ioctl.
  1: by apply stays_ret. done.
Qed.

Lemma stays_dispatch hdr body : sound (dispatch srv urandom hdr body : M W reply3).
Proof.
  unfold dispatch, refused. destruct (handler srv urandom hdr body) as [m|] eqn:E; [|by apply stays_ret].
  apply stays_mcatch; [by eapply stays_handler|]. intros [] k; try done; intros [= <-]; by apply stays_ret.
Qed.
#[local] Hint Resolve stays_dispatch : smb.

Lemma stays_handle_request hdr body : sound (handle_request srv urandom hdr body : M W reply3).
Proof. unfold handle_request. smb. Qed.
#[local] Hint Resolve stays_handle_request : smb.

Lemma stays_dialect_number : sound (dialect_number : M W Z).
Proof. unfold dialect_number. smb. Qed.
#[local] Hint Resolve stays_dialect_number : smb.

Lemma stays_signature_check hdr message : sound (signature_check hdr message : M W (option Z)).
Proof. unfold signature_check. smb. Qed.

Lemma stays_grant_credits hdr : sound (grant_credits hdr : M W Z).
Proof. unfold grant_credits. smb. Qed.
#[local] Hint Resolve stays_signature_check stays_grant_credits : smb.

Lemma stays_serve_one hdr related prev message :
  sound (serve_one srv urandom hdr related prev message : M W (header * option Z * option answer)).
Proof. unfold serve_one, refused. smb. Qed.
#[local] Hint Resolve stays_serve_one : smb.

Lemma stays_send_msg msg : sound (send_msg msg : M W unit).
Proof. unfold send_msg. smb; by apply stays_mmod. Qed.
#[local] Hint Resolve stays_send_msg : smb.

Lemma stays_not_smb2 msg : sound (not_smb2 srv msg : M W unit).
Proof. unfold not_smb2. smb. Qed.
#[local] Hint Resolve stays_not_smb2 : smb.

Lemma stays_serve_requests fuel msg offset prev replies :
  sound (serve_requests srv urandom fuel msg offset prev replies : M W (option (list answer))).
Proof.
  revert offset prev replies. induction fuel as [|fuel IH]; intros offset prev replies; cbn [serve_requests]; smb; apply IH.
Qed.
#[local] Hint Resolve stays_serve_requests : smb.

Lemma stays_reply_pieces first l : sound (reply_pieces first l : M W bytes).
Proof.
  revert first. induction l as [|a l IH]; intros first; cbn [reply_pieces]; [by apply stays_ret|].
  unfold reply_piece, should_sign. smb; apply IH.
Qed.
#[local] Hint Resolve stays_reply_pieces : smb.

Lemma stays_count_reads l : sound (count_reads l : M W unit).
Proof. induction l; cbn [count_reads]; smb. Qed.
#[local] Hint Resolve stays_count_reads : smb.

Lemma stays_dispatch_all msg : sound (dispatch_all srv urandom msg : M W unit).
Proof. unfold dispatch_all. smb. Qed.
#[local] Hint Resolve stays_dispatch_all : smb.

Lemma stays_receive : sound (receive : M W (option bytes)).
Proof. intros o w Hw. unfold receive. destruct (recv_msg (incoming w)) as [r s]. by split. Qed.
#[local] Hint Resolve stays_receive : smb.

Lemma stays_client_loop fuel : sound (client_loop srv urandom fuel : M W unit).
Proof. induction fuel as [|fuel IH]; cbn [client_loop]; smb. Qed.

(** [serve_client] before the handles are closed *)
Lemma stays_serve_body fuel : sound (_ ← session_record connections 1;
  mcatch (client_loop srv urandom fuel)
    (fun e => match e with OSError n => Some (mwhen (negb (went_away n)) (session_record errors 1)) | _ => None end) : M W unit).
Proof.
  eapply stays_bind; [apply stays_record|]. intros _ _. apply stays_mcatch; [apply stays_client_loop|].
  intros [] k; try done. intros [= <-]. apply stays_when. intros _. apply stays_record.
Qed.

Lemma stays_serve_client : sound (serve_client srv urandom : M W unit).
Proof.
  intros o w Hw. unfold serve_client. destruct (stays_serve_body (S (arrivals (incoming w))) o w Hw) as [K1 _].
  match type of K1 with reached _ _ _ _ (snd ?x) => destruct x as [r w1] end. destruct (stays_close_all o w1 K1) as [K2 _].
  destruct (close_all w1) as [r' w2]. by split.
Qed.

(** ** What follows for a whole connection *)

Lemma new_conn_ok : conn_ok new_conn.
Proof. split; cbn; [apply Forall_nil_2|apply Forall_nil_2|apply NoDup_nil_2]. Qed.

Definition rooted (s : share) (rs : list str) : Prop := Forall good_name rs /\ sh_root s = abs_path rs.

Lemma served_below p :
  (forall o : Os, isabs (os_getcwd o) = true) -> (forall s, shared s -> exists rs, rooted s rs) -> served_path p ->
  exists s rs rest, shared s /\ rooted s rs /\ names_path p (rs ++ rest).
Proof.
  intros Hcwd Hroots (s & name & o & Hs & Hr). destruct (Hroots s Hs) as (rs & Hg & Hroot).
  destruct (resolve_below s name o p rs (Hcwd o) Hg Hroot Hr) as [rest Hp]. by exists s, rs, rest.
Qed.

(** C11. Whatever a client sends, and wherever the connection breaks: the server ends with sound
    tables and has acted on the host only by the operations of [touch], and a path it may
    name is the root of a share with names appended, none of them a dot or two. *)
Theorem connection_confined (w : W) :
  (forall o : Os, isabs (os_getcwd o) = true) -> (forall s, shared s -> exists rs, rooted s rs) -> cn w = new_conn ->
  let w' := snd (serve_client srv urandom w) in
  conn_ok (cn w') /\ rtc touch (host w) (host w') /\
  forall p, served_path p -> exists s rs rest, shared s /\ rooted s rs /\ names_path p (rs ++ rest).
Proof.
  intros Hcwd Hroots Hw. assert (Hc : conn_ok (cn w)) by (rewrite Hw; apply new_conn_ok).
  destruct (proj1 (stays_iff _ _) stays_serve_client w Hc) as (K1 & K2 & _). split_and!; [done|done|]. intros p. by apply served_below.
Qed.

(** C31. Whatever the bytes of a message are, a connection whose tables are sound has sound tables
    after it: trees of the server's shares, handles under their own numbers, all different and
    all given out before, each for a served path or a pipe, with a file opened on such a path. *)
Theorem messages_keep_tables msg (w : W) : conn_ok (cn w) -> conn_ok (cn (snd (dispatch_all srv urandom msg w))).
Proof. intros Hw. by apply (proj1 (stays_iff _ _) (stays_dispatch_all msg) w Hw). Qed.

(** The operations of [touch] that leave files and folders as they are *)
Inductive look : Os -> Os -> Prop :=
  | lk_open p o : served_path p -> look o (snd (os_open p m_rb o))
  | lk_seek f off wh o : ours f -> look o (snd (f_seek f off wh o))
  | lk_read f n o : ours f -> look o (snd (f_read f n o))
  | lk_flush f o : ours f -> look o (snd (f_flush f o))
  | lk_fsync f o : ours f -> look o (snd (os_fsync f o))
  | lk_close f o : ours f -> look o (snd (f_close f o)).

(** C12. Where every share is read-only, whether of itself or because the server is, nothing a
    client sends opens a file for writing, writes, truncates, creates, renames or deletes. *)
Theorem read_only_connection (w : W) :
  (forall s, shared s -> tree_read_only srv (Disk s) = true) -> cn w = new_conn ->
  rtc look (host w) (host (snd (serve_client srv urandom w))).
Proof.
  intros Hro Hw. assert (Hno : ~ may_write) by (intros (s & Hs & E); by rewrite Hro in E).
  assert (Hc : conn_ok (cn w)) by (rewrite Hw; apply new_conn_ok).
  destruct (proj1 (stays_iff _ _) stays_serve_client w Hc) as (_ & K2 & _).
  eapply (rtc_congruence id); [|exact K2]. intros o o' []; try done; by constructor.
Qed.
End facts.
