(* ===== verification/Smb2LogonFacts.v ===== *)
(** * SMB2: no password, no service

    Unless the server is open, a connection on which the client does not prove a user's
    password never acts on the host: the proof is the NTLMv2 response to a challenge drawn
    for this connection, and it is among the bytes that arrived.  And without a session
    every request that would need one is refused and changes nothing. *)

From S2P Require Import Prelude Triples PyStr PyText SessionStats Compressed HostOs PyHash Smb2Wire Smb2Crypto Smb2Auth Smb2Srvsvc Smb2Paths PyGlob Smb2Server.

(** ** Parts of what arrived *)

Definition part_of (x data : bytes) : Prop := exists a b, data = a ++ x ++ b.

Lemma part_refl x : part_of x x.
Proof. exists [], []. by rewrite app_nil_r. Qed.

Lemma part_trans x y z : part_of x y -> part_of y z -> part_of x z.
Proof. intros (a & b & ->) (c & d & ->). exists (c ++ a), (b ++ d). by rewrite <- !app_assoc. Qed.

Lemma part_ztake n x : part_of (ztake n x) x.
Proof. exists [], (zdrop n x). cbn. unfold ztake, zdrop. by rewrite take_drop. Qed.

Lemma part_zdrop n x : part_of (zdrop n x) x.
Proof. exists (ztake n x), []. rewrite app_nil_r. unfold ztake, zdrop. by rewrite take_drop. Qed.

Lemma part_slice x a b : part_of (slice x a b) x.
Proof. eapply part_trans; [apply part_ztake|apply part_zdrop]. Qed.

Lemma part_nil x : part_of [] x.
Proof. by exists [], x. Qed.

Lemma part_extract blob token : extract_ntlm blob = Some token -> part_of token blob.
Proof.
  induction blob as [|c blob IH]; [done|]. cbn [extract_ntlm]. destruct (startswith _ _); [intros [= <-]; apply part_refl|].
  intros (a & b & ->)%IH. by exists (c :: a), b.
Qed.

Lemma part_trim token t : trim token = Ok t -> part_of t token.
Proof.
  unfold trim. destruct (FIELD_OFFSETS _) as [[[offs fixed] at_]|]; [|intros [= <-]; apply part_refl].
  destruct (_ <? _); [intros [= <-]; apply part_refl|]. unfold mbind, result_bind.
  destruct (trim_end _ _ _); [|done]. intros [= <-]. apply part_ztake.
Qed.

Lemma part_field token off x : field_of token off = Ok x -> part_of x token.
Proof.
  unfold field_of, mbind, result_bind. destruct (triple token off) as [[n at_]|]; [|done].
  destruct (_ =? 0); [intros [= <-]; apply part_nil|]. destruct (_ <? _); [done|]. intros [= <-]. apply part_slice.
Qed.

Lemma part_authenticate token c : parse_authenticate token = Ok c -> part_of (nt_response c) token.
Proof.
  unfold parse_authenticate. destruct (_ <? _); [done|]. unfold mbind, result_bind.
  destruct (trim token) as [t|] eqn:Et; [|done]. apply part_trim in Et.
  destruct (field_of t 12); [|done]. destruct (field_of t 20) as [nt|] eqn:En; [|done]. apply part_field in En.
  repeat (case_match; [|done]). intros [= <-]. cbn. by eapply part_trans.
Qed.

(** ** Receiving *)

Definition stream_bytes (s : list arrival) : bytes :=
  concat (map (fun a => match a with Chunk bs => bs | Broken _ => [] end) s).

Lemma recv_stream n s :
  stream_bytes s = match fst (recv n s) with Ok bs => bs | Err _ => [] end ++ stream_bytes (snd (recv n s)).
Proof.
  destruct s as [|[bs|e] s]; cbn; [done| |done]. destruct (_ <=? _); [done|]. cbn. unfold stream_bytes. cbn.
  rewrite app_assoc. unfold ztake, zdrop. by rewrite take_drop.
Qed.

(** What the loop returns is what it had and what the stream gave. *)
Lemma recv_loop_stream fuel n buf s : exists got,
  stream_bytes s = got ++ stream_bytes (snd (recv_loop fuel n buf s)) /\
  forall m, fst (recv_loop fuel n buf s) = Ok (Some m) -> m = buf ++ got.
Proof.
  revert buf s. induction fuel as [|fuel IH]; intros buf s; cbn [recv_loop]; destruct (_ <? _).
  - by exists [].
  - exists []. split; [done|]. intros m [= <-]. by rewrite app_nil_r.
  - unfold mbind, M_bind. pose proof (recv_stream (n - zlen buf) s) as Hr.
    destruct (recv (n - zlen buf) s) as [[chunk|e] s1]; cbn [fst snd] in *; [|by exists []].
    destruct chunk as [|c chunk]; [by exists []|].
    destruct (IH (buf ++ c :: chunk) s1) as (got & E1 & E2). exists ((c :: chunk) ++ got). split.
    + rewrite Hr, E1. by rewrite app_assoc.
    + intros m Hm. rewrite (E2 m Hm). by rewrite <- app_assoc.
  - exists []. split; [done|]. intros m [= <-]. by rewrite app_nil_r.
Qed.

Lemma recv_msg_parts s :
  part_of (stream_bytes (snd (recv_msg s))) (stream_bytes s) /\
  forall m, fst (recv_msg s) = Ok (Some m) -> part_of m (stream_bytes s).
Proof.
  unfold recv_msg, recv_exact, mbind, M_bind.
  destruct (recv_loop_stream (Z.to_nat 4) 4 [] s) as (g & E1 & _).
  assert (Hp : part_of (stream_bytes (snd (recv_loop (Z.to_nat 4) 4 [] s))) (stream_bytes s)).
  { rewrite E1. exists g, []. by rewrite app_nil_r. }
  destruct (recv_loop (Z.to_nat 4) 4 [] s) as [[[hdr|]|e] s1]; cbn [fst snd] in *; [|by split..].
  set (n := be_int (slice hdr 1 4)).
  destruct (recv_loop_stream (Z.to_nat n) n [] s1) as (g' & E2 & E3).
  assert (Hp' : part_of (stream_bytes (snd (recv_loop (Z.to_nat n) n [] s1))) (stream_bytes s)).
  { eapply part_trans; [|exact Hp]. rewrite E2. exists g', []. by rewrite app_nil_r. }
  destruct (negb (znth hdr 0 =? 0)).
  - destruct (0 <? n); [|split; [done|]; intros m [= <-]; apply part_nil].
    destruct (recv_loop (Z.to_nat n) n [] s1) as [[r|e] s2]; cbn in *; [|by split].
    split; [done|]. intros m [= <-]. apply part_nil.
  - destruct (n =? 0); [split; [done|]; intros m [= <-]; apply part_nil|]. split; [done|].
    intros m Hm. eapply part_trans; [|exact Hp]. rewrite (E3 m Hm). cbn [app]. rewrite E2.
    by exists [], (stream_bytes (snd (recv_loop (Z.to_nat n) n [] s1))).
Qed.

Section logon.
Context {Os : Type} `{ShareOs Os} `{CaseFolding} `{FloatTime} (srv : server) (urandom : Z -> Z -> bytes).
Abbreviation W := (smb Os).

(** ** The proof of a password *)

(** Among [data] is the response that proves a user's password for a challenge, one of those
    drawn from number [from] on. *)
Definition proven (data : bytes) (from : Z) : Prop := exists i user domain password ntowf blob,
  from <= i /\
  user_password (py_casefold user) (users (auth srv)) = Some password /\
  ntowfv2 password user domain = Ok ntowf /\
  part_of (ntlmv2_proof ntowf (urandom i 8) blob ++ blob) data.

Lemma verify_user_ok user resp nonce domain r :
  is_open (auth srv) = false -> verify_user (auth srv) user resp nonce domain = Ok r ->
  exists password ntowf blob, user_password (py_casefold user) (users (auth srv)) = Some password /\
    ntowfv2 password user domain = Ok ntowf /\ resp = ntlmv2_proof ntowf nonce blob ++ blob.
Proof.
  intros Hopen. unfold verify_user. rewrite Hopen. unfold parse_ntlmv2_response, mbind, result_bind.
  destruct (_ <? _); [done|]. destruct (negb _); [done|].
  destruct (user_password _ _) as [password|]; [|done]. destruct (ntowfv2 password user domain) as [ntowf|] eqn:En; [|done].
  destruct (str_eqb _ _) eqn:E; [|done]. intros _. apply bool_decide_eq_true in E.
  exists password, ntowf, (zdrop PROOF_LEN resp). split_and!; [done|done|]. rewrite E.
  unfold ztake, zdrop. by rewrite take_drop.
Qed.

(** ** Code before a proof *)

Context (data : bytes) (from : Z) (o : Os).

(** No session yet: the host as it was, no handle, a challenge only if drawn since *)
Record pending (w : W) : Prop := {
  pd_auth : authenticated (cn w) = false;
  pd_host : host w = o;
  pd_handles : handles (cn w) = [];
  pd_draws : from <= draws w;
  pd_challenge : forall n, challenge (cn w) = Some n -> exists i, from <= i /\ n = urandom i 8
}.

Definition arriving (w : W) : Prop := part_of (stream_bytes (incoming w)) data.

Definition locked (w : W) : Prop := proven data from \/ (arriving w /\ pending w).

Abbreviation safe m := (holds locked (fun _ => True) m).

Lemma safe_proven {A} (m : M W A) : proven data from -> safe m.
Proof. intros Hp w _. split; [by left|done]. Qed.

(** Code that leaves what [locked] speaks of as it is *)
Lemma safe_intro {A} (m : M W A) : (forall w, arriving w -> pending w -> locked (snd (m w))) -> safe m.
Proof. intros Hm w [Hp|[Ha Hw]]; (split; [|done]); [by left|by apply Hm]. Qed.

Lemma safe_mget {A} (f : W -> A) : safe (mget f).
Proof. eapply holds_true, holds_mget. Qed.

Lemma safe_cget {A} (f : conn -> A) : safe (cget f : M W A).
Proof. apply safe_mget. Qed.

Lemma safe_lift {A} (r : result A) : safe (lift r : M W A).
Proof. eapply holds_true, holds_lift. Qed.

Lemma safe_packed fvs : safe (packed fvs : M W bytes).
Proof. apply safe_lift. Qed.

Lemma safe_fields_at fs body off : safe (fields_at fs body off : M W (list Z)).
Proof. apply safe_lift. Qed.

Lemma safe_ask {A} (f : Os -> result A) : safe (ask f : M W A).
Proof. apply safe_intro. intros w Ha Hw. by right. Qed.

Definition quiet (f : conn -> conn) : Prop := forall c,
  authenticated (f c) = authenticated c /\ handles (f c) = handles c /\ challenge (f c) = challenge c.

Lemma safe_quiet f : quiet f -> safe (cmod f : M W unit).
Proof.
  intros Hf. apply safe_intro. intros w Ha [? ? ? ? ?]. right. split; [done|]. destruct (Hf (cn w)) as (E1 & E2 & E3).
  by split; cbn; rewrite ?E1, ?E2, ?E3.
Qed.

Lemma safe_mmod f : (forall w : W, cn (f w) = cn w /\ host (f w) = host w /\ draws (f w) = draws w /\
  incoming (f w) = incoming w) -> safe (mmod f).
Proof.
  intros Hf. apply safe_intro. intros w Ha [? ? ? ? ?]. right. destruct (Hf w) as (E1 & E2 & E3 & E4).
  split; [by unfold arriving in *; cbn; rewrite E4|]. by split; cbn; rewrite ?E1, ?E2, ?E3.
Qed.

Lemma safe_record k n : safe (session_record k n : M W unit).
Proof. by apply safe_mmod. Qed.

Lemma safe_touch : safe (session_touch : M W unit).
Proof. by apply safe_mmod. Qed.

(** The drawn challenge is among those the proof may be for. *)
Lemma holds_draw n : holds locked (fun bs => proven data from \/ exists i, from <= i /\ bs = urandom i n) (draw urandom n : M W bytes).
Proof.
  intros w [Hp|[Ha [? ? ? ? ?]]]; (split; [|intros bs [= <-]]); [by left|by left| |right; by exists (draws w)].
  right. split; [done|]. split; cbn; try done. lia.
Qed.

Lemma safe_challenge nonce : (proven data from \/ exists i, from <= i /\ nonce = urandom i 8) ->
  safe (cmod (fun c => c <| challenge := Some nonce |>) : M W unit).
Proof.
  intros [Hp|Hn]; [by apply safe_proven|]. apply safe_intro. intros w Ha [? ? ? ? ?]. right. split; [done|].
  split; cbn; try done. by intros n [= <-].
Qed.

Lemma holds_challenge : holds locked
  (fun o => forall n, o = Some n -> proven data from \/ exists i, from <= i /\ n = urandom i 8) (cget challenge : M W _).
Proof.
  intros w Hl. split; [done|]. intros a [= <-] n E. destruct Hl as [Hp|[_ Hw]]; [by left|]. right.
  by apply (pd_challenge _ Hw).
Qed.

Create HintDb logon.
#[local] Hint Resolve safe_mget safe_cget safe_lift safe_packed safe_fields_at safe_ask safe_record safe_touch : logon.

(** Takes apart the code in front of it. *)
Ltac lk_step :=
  lazymatch goal with
  | |- holds _ _ (mbind _ _) =>
      first [eapply holds_bind; [solve [eauto 2 with logon nocore]|intros ? ?]
            |eapply (holds_bind _ (fun _ => True)); [|intros ? _]]
  | |- holds _ _ (mret _) => by apply holds_ret
  | |- holds _ _ (fail _) => apply holds_raise
  | |- holds _ _ (raise _) => apply holds_raise
  | |- holds _ _ (mwhen _ _) => apply holds_when; intros ?
  | |- holds _ _ (match ?x with _ => _ end) => let E := fresh "E" in destruct x eqn:E
  | |- holds _ _ _ =>
      first [solve [eauto 2 with logon nocore]
            |apply safe_proven; assumption
            |apply safe_quiet; intros ?; split_and!; reflexivity]
  end.
Ltac lk := repeat lk_step.

(** ** The guards *)

Lemma holds_require_session : holds locked (fun _ => proven data from) (require_session : M W unit).
Proof.
  intros w [Hp|[Ha Hw]].
  - split; [by left|done].
  - unfold require_session, mbind, M_bind. cbn. rewrite (pd_auth _ Hw). split; [by right|done].
Qed.

Lemma holds_any_tree hdr : holds locked (fun _ => proven data from) (any_tree hdr : M W tree).
Proof.
  unfold any_tree. eapply holds_bind; [apply holds_require_session|]. intros _u Hp.
  eapply holds_weaken; [by apply safe_proven|done].
Qed.

Lemma holds_disk_tree hdr : holds locked (fun _ => proven data from) (disk_tree hdr : M W share).
Proof.
  unfold disk_tree. eapply holds_bind; [apply holds_any_tree|]. intros t Hp.
  eapply holds_weaken; [by apply safe_proven|done].
Qed.

(** A handler that starts with a guard *)
Lemma safe_guarded {A B} (g : M W A) (k : A -> M W B) :
  holds locked (fun _ => proven data from) g -> safe (g ≫= k).
Proof. intros Hg. eapply holds_bind; [exact Hg|]. intros a Hp. by apply safe_proven. Qed.

(** ** The handlers of a client without a session *)

Lemma safe_negotiate_response d : safe (negotiate_response srv d : M W bytes).
Proof. unfold negotiate_response. lk. Qed.
#[local] Hint Resolve safe_negotiate_response : logon.

Lemma safe_h_negotiate hdr body : safe (h_negotiate srv hdr body : M W reply).
Proof. unfold h_negotiate, ok_reply. lk. Qed.

Lemma safe_request_buffer body off len least :
  holds locked (fun x => part_of x body) (request_buffer body off len least : M W bytes).
Proof.
  unfold request_buffer. destruct (_ =? 0); [apply holds_ret, part_nil|].
  destruct (_ || _); [apply holds_raise|apply holds_ret, part_slice].
Qed.

Lemma safe_ensure_session_id : safe (ensure_session_id urandom : M W unit).
Proof. unfold ensure_session_id. lk. eapply holds_true, holds_draw. Qed.
#[local] Hint Resolve safe_ensure_session_id : logon.

Lemma safe_send_challenge token is_raw : safe (send_challenge srv urandom token is_raw : M W reply).
Proof.
  unfold send_challenge. eapply holds_bind; [apply holds_draw|]. intros nonce Hn.
  eapply holds_bind; [by apply safe_challenge|]. intros _ _. lk.
Qed.

Lemma safe_check_credentials creds nonce :
  is_open (auth srv) = false -> part_of (nt_response creds) data ->
  (proven data from \/ exists i, from <= i /\ nonce = urandom i 8) ->
  holds locked (fun _ => proven data from) (check_credentials srv creds nonce : M W (Z * option bytes)).
Proof.
  intros Hopen Hpart Hn. unfold check_credentials. rewrite Hopen. destruct (is_anonymous creds); [apply holds_raise|].
  eapply holds_bind; [apply holds_lift|]. intros key Hv.
  assert (Hp : proven data from).
  { destruct Hn as [Hp|(i & Hi & ->)]; [done|].
    destruct (verify_user_ok _ _ _ _ _ Hopen Hv) as (password & ntowf & blob & Hu & Hk & E).
    exists i, (user creds), (domain creds), password, ntowf, blob. by rewrite <- E. }
  eapply holds_weaken; [by apply safe_proven|done].
Qed.

Lemma safe_finish_session token is_raw mode :
  is_open (auth srv) = false -> part_of token data -> safe (finish_session srv urandom token is_raw mode : M W reply).
Proof.
  intros Hopen Hpart. unfold finish_session. eapply holds_bind; [apply holds_challenge|]. intros [nonce|] Hn; [|apply holds_raise].
  eapply holds_bind; [apply holds_lift|]. intros creds Hc. apply safe_guarded, safe_check_credentials; [done| |by apply Hn].
  eapply part_trans; [|exact Hpart]. by apply part_authenticate.
Qed.

Lemma safe_h_session_setup hdr body :
  is_open (auth srv) = false -> part_of body data -> safe (h_session_setup srv urandom hdr body : M W reply).
Proof.
  intros Hopen Hpart. unfold h_session_setup. destruct (_ <? _); [apply holds_raise|].
  eapply holds_bind; [apply safe_fields_at|]. intros fields _.
  repeat (case_match; try apply holds_raise). eapply holds_bind; [apply safe_request_buffer|]. intros blob Hb.
  destruct (extract_ntlm blob) as [token|] eqn:Et; [|apply holds_raise]. apply part_extract in Et.
  destruct (bool_decide _); [apply safe_send_challenge|]. destruct (negb _); [apply holds_raise|].
  apply safe_finish_session; [done|]. eapply part_trans; [exact Et|]. by eapply part_trans; [exact Hb|].
Qed.

Lemma safe_close_all : safe (close_all : M W unit).
Proof.
  apply safe_intro. intros w Ha [? ? Hh ? ?]. right. unfold close_all, mbind, M_bind. cbn. rewrite Hh. cbn.
  split; [done|]. by split.
Qed.
#[local] Hint Resolve safe_close_all : logon.

Lemma safe_h_logoff hdr body : safe (h_logoff hdr body : M W reply).
Proof.
  unfold h_logoff, ok_reply. lk. apply safe_intro. intros w Ha [? ? ? ? ?]. right. split; [done|]. by split.
Qed.

Lemma safe_h_tree_disconnect hdr body : safe (h_tree_disconnect hdr body : M W reply).
Proof. unfold h_tree_disconnect, ok_reply. lk. Qed.

Lemma safe_h_echo hdr body : safe (h_echo hdr body : M W reply).
Proof. unfold h_echo, ok_reply. lk. Qed.

(** ** The connection *)

Hypothesis closed : is_open (auth srv) = false.

Lemma safe_plain m : safe m -> safe (plain_reply m : M W reply3).
Proof. intros Hm. unfold plain_reply. eapply holds_bind; [exact Hm|]. intros [st b] _. by apply holds_ret. Qed.

Lemma safe_handler hdr body m : part_of body data -> handler srv urandom hdr body = Some m -> safe m.
Proof.
  intros Hb. unfold handler. intros E. repeat (case_match; [simplify_eq; try apply safe_plain|]);
    eauto using safe_h_negotiate, safe_h_session_setup, safe_h_logoff, safe_h_tree_disconnect, safe_h_echo, safe_guarded,
      holds_any_tree, holds_disk_tree, holds_require_session.
  - by apply holds_ret.
  - done.
Qed.

Lemma safe_dispatch hdr body : part_of body data -> safe (dispatch srv urandom hdr body : M W reply3).
Proof.
  intros Hb. unfold dispatch, refused. destruct (handler srv urandom hdr body) as [m|] eqn:E; [|by apply holds_ret].
  apply holds_mcatch; [by eapply safe_handler|]. intros [] k; try done; intros [= <-]; by apply holds_ret.
Qed.
#[local] Hint Resolve safe_dispatch : logon.

Lemma safe_handle_request hdr body : part_of body data -> safe (handle_request srv urandom hdr body : M W reply3).
Proof. intros Hb. unfold handle_request. lk. Qed.

Lemma safe_dialect_number : safe (dialect_number : M W Z).
Proof. unfold dialect_number. lk. Qed.
#[local] Hint Resolve safe_dialect_number : logon.

Lemma safe_signature_check hdr message : safe (signature_check hdr message : M W (option Z)).
Proof. unfold signature_check. lk. Qed.

Lemma safe_grant_credits hdr : safe (grant_credits hdr : M W Z).
Proof. unfold grant_credits. lk. Qed.
#[local] Hint Resolve safe_signature_check safe_grant_credits : logon.

Lemma safe_serve_one hdr related prev message : part_of message data ->
  safe (serve_one srv urandom hdr related prev message : M W (header * option Z * option answer)).
Proof.
  intros Hm. unfold serve_one, refused. lk. apply safe_handle_request. eapply part_trans; [apply part_zdrop|done].
Qed.

Lemma safe_send_msg msg : safe (send_msg msg : M W unit).
Proof. unfold send_msg. lk; by apply safe_mmod. Qed.
#[local] Hint Resolve safe_send_msg : logon.

Lemma safe_not_smb2 msg : safe (not_smb2 srv msg : M W unit).
Proof. unfold not_smb2. lk. Qed.
#[local] Hint Resolve safe_not_smb2 : logon.

Lemma safe_serve_requests fuel msg offset prev replies : part_of msg data ->
  safe (serve_requests srv urandom fuel msg offset prev replies : M W (option (list answer))).
Proof.
  intros Hm. revert offset prev replies. induction fuel as [|fuel IH]; intros offset prev replies; cbn [serve_requests]; lk;
    try apply IH; apply safe_serve_one; (eapply part_trans; [apply part_slice|done]).
Qed.
#[local] Hint Resolve safe_serve_requests : logon.

Lemma safe_reply_pieces first l : safe (reply_pieces first l : M W bytes).
Proof.
  revert first. induction l as [|a l IH]; intros first; cbn [reply_pieces]; [by apply holds_ret|].
  unfold reply_piece, should_sign. lk; apply IH.
Qed.
#[local] Hint Resolve safe_reply_pieces : logon.

Lemma safe_count_reads l : safe (count_reads l : M W unit).
Proof. induction l; cbn [count_reads]; lk. Qed.
#[local] Hint Resolve safe_count_reads : logon.

Lemma safe_dispatch_all msg : part_of msg data -> safe (dispatch_all srv urandom msg : M W unit).
Proof. intros Hm. unfold dispatch_all. lk. Qed.
#[local] Hint Resolve safe_dispatch_all : logon.

(** What is received is a part of what was to arrive. *)
Lemma safe_receive : holds locked (fun m => proven data from \/ forall msg, m = Some msg -> part_of msg data) (receive : M W (option bytes)).
Proof.
  intros w [Hp|[Ha Hw]]; unfold receive.
  - destruct (recv_msg _). split; [by left|]. intros a _. by left.
  - destruct (recv_msg_parts (incoming w)) as [K1 K2]. destruct (recv_msg (incoming w)) as [r s]. cbn in *. split.
    + right. destruct Hw. split; [by eapply part_trans|]. by split.
    + intros m ->. right. intros msg ->. by eapply part_trans; [apply K2|].
Qed.

Lemma safe_client_loop fuel : safe (client_loop srv urandom fuel : M W unit).
Proof.
  induction fuel as [|fuel IH]; cbn [client_loop]; [apply holds_raise|].
  eapply holds_bind; [apply safe_receive|]. intros msg [Hp|Hm]; [by apply safe_proven|].
  destruct msg as [msg|]; [|by apply holds_ret]. specialize (Hm msg eq_refl).
  destruct msg as [|c msg]; [apply IH|]. lk.
Qed.

Lemma safe_serve_body fuel : safe (_ ← session_record connections 1;
  mcatch (client_loop srv urandom fuel)
    (fun e => match e with OSError n => Some (mwhen (negb (went_away n)) (session_record errors 1)) | _ => None end) : M W unit).
Proof.
  eapply holds_bind; [apply safe_record|]. intros _ _. apply holds_mcatch; [apply safe_client_loop|].
  intros [] k; try done. intros [= <-]. apply holds_when. intros _. apply safe_record.
Qed.

Lemma safe_serve_client : safe (serve_client srv urandom : M W unit).
Proof.
  intros w Hw. unfold serve_client. destruct (safe_serve_body (S (arrivals (incoming w))) w Hw) as [K1 _].
  match type of K1 with locked (snd ?x) => destruct x as [r w1] end.
  destruct (safe_close_all w1 K1) as [K2 _]. destruct (close_all w1) as [r' w2]. by split.
Qed.
End logon.

Section theorems.
Context {Os : Type} `{ShareOs Os} `{CaseFolding} `{FloatTime} (srv : server) (urandom : Z -> Z -> bytes).

(** C10. Unless the server is open, a connection either leaves the host as it was and ends
    without a session, or among the bytes that arrived is the NTLMv2 response of a user's
    password to a challenge drawn for this connection. *)
Theorem service_needs_the_password (w : smb Os) :
  is_open (auth srv) = false -> cn w = new_conn ->
  let w' := snd (serve_client srv urandom w) in
  (host w' = host w /\ authenticated (cn w') = false) \/ proven srv urandom (stream_bytes (incoming w)) (draws w).
Proof.
  intros Hopen Hw.
  destruct (safe_serve_client srv urandom (stream_bytes (incoming w)) (draws w) (host w) Hopen w) as [[Hp|[_ Hp]] _].
  - right. split; [apply part_refl|]. split; rewrite ?Hw; done || lia.
  - by right.
  - left. by destruct Hp.
Qed.

(** The requests that need a session *)
Definition needs_session (c : Z) : Prop :=
  c ∈ [CMD_TREE_CONNECT; CMD_CREATE; CMD_CLOSE; CMD_FLUSH; CMD_READ; CMD_WRITE; CMD_QUERY_DIRECTORY; CMD_QUERY_INFO;
       CMD_SET_INFO; CMD_IOCTL].

Definition session_gone {A} (w : smb Os) (m : M (smb Os) A) : Prop := m w = (Err (NtStatus STATUS_USER_SESSION_DELETED), w).

Lemma gone_bind {A B} w (g : M (smb Os) A) (k : A -> M (smb Os) B) : session_gone w g -> session_gone w (g ≫= k).
Proof. unfold session_gone, mbind, M_bind. by intros ->. Qed.

Lemma gone_require w : authenticated (cn w) = false -> session_gone w (require_session : M (smb Os) unit).
Proof. intros Ha. unfold session_gone, require_session, mbind, M_bind. cbn. by rewrite Ha. Qed.

Lemma gone_handler w hdr body : authenticated (cn w) = false -> needs_session (command hdr) ->
  exists m, handler srv urandom hdr body = Some m /\ session_gone w m.
Proof.
  intros Ha%gone_require Hc. unfold needs_session in Hc. unfold handler.
  repeat (apply elem_of_cons in Hc as [->|Hc]; [eexists; split; [reflexivity|]; repeat first [exact Ha|apply gone_bind]|]).
  by apply not_elem_of_nil in Hc.
Qed.

(** Without a session every one of them is refused, whatever it says, and changes nothing. *)
Theorem unauthenticated_refused (w : smb Os) hdr body :
  authenticated (cn w) = false -> needs_session (command hdr) ->
  dispatch srv urandom hdr body w = (Ok (Some STATUS_USER_SESSION_DELETED, error_body, None), w).
Proof.
  intros Ha Hc. destruct (gone_handler w hdr body Ha Hc) as (m & Em & Hm).
  unfold dispatch. rewrite Em. unfold mcatch. by rewrite Hm.
Qed.
End theorems.
