(* ===== verification/Smb2WireFacts.v ===== *)
(** * SMB2: what is written is what is read

    Messages framed over a TCP stream arrive as they were sent however the stream cuts them;
    text survives UTF-16; a header reads back; and the replies of a compound message can be
    told apart by the offsets in their headers. *)

From S2P Require Import Prelude PyStr PyText SessionStats Compressed HostOs PyHash Smb2Wire Smb2Crypto Smb2Auth Smb2Srvsvc Smb2Paths PyGlob Smb2Server Smb2LogonFacts Smb2SignFacts.

(** ** Framing *)

(** A stream that is not cut off: bytes, at least one at a time *)
Definition flowing (s : list arrival) : Prop := Forall (fun a => exists c bs, a = Chunk (c :: bs)) s.

Lemma recv_flowing n s x y : flowing s -> 0 < n -> stream_bytes s = x ++ y -> zlen x = n ->
  exists g x' s', recv n s = (Ok g, s') /\ g <> [] /\ x = g ++ x' /\ stream_bytes s' = x' ++ y /\ flowing s'.
Proof.
  intros Hs Hn Hb Hx. destruct s as [|a s]; [destruct x; [unfold zlen in Hx; cbn in Hx; lia|done]|].
  apply Forall_cons in Hs as [(c & bs & ->) Hs]. cbn [recv]. change (stream_bytes (Chunk (c :: bs) :: s)) with ((c :: bs) ++ stream_bytes s) in Hb.
  destruct (Z.leb_spec (zlen (c :: bs)) n) as [Hle|Hgt].
  - assert (E : x = (c :: bs) ++ zdrop (zlen (c :: bs)) x).
    { rewrite <- (ztake_app_length (zlen (c :: bs)) (c :: bs) (stream_bytes s)) at 1 by done. rewrite Hb.
      rewrite ztake_app_le by lia. unfold ztake, zdrop. by rewrite take_drop. }
    exists (c :: bs), (zdrop (zlen (c :: bs)) x), s. split_and!; [done|done|done| |done].
    rewrite E in Hb at 1. rewrite <- app_assoc in Hb. by apply app_inv_head in Hb.
  - assert (E : ztake n (c :: bs) = x).
    { rewrite <- (ztake_app_le n (c :: bs) (stream_bytes s)) by lia. rewrite Hb. by apply ztake_app_length. }
    exists (ztake n (c :: bs)), [], (Chunk (zdrop n (c :: bs)) :: s). split_and!; [done|..].
    + intros E'. rewrite E' in E. rewrite <- E in Hx. unfold zlen in Hx. cbn in Hx. lia.
    + by rewrite app_nil_r.
    + cbn. rewrite <- E in Hb. apply (app_inv_head (ztake n (c :: bs))).
      change (stream_bytes (Chunk (zdrop n (c :: bs)) :: s)) with (zdrop n (c :: bs) ++ stream_bytes s).
      rewrite <- Hb. unfold ztake, zdrop. by rewrite app_assoc, take_drop.
    + apply Forall_cons. split; [|done]. destruct (zdrop n (c :: bs)) as [|d ds] eqn:Ed; [|by exists d, ds].
      apply (f_equal zlen) in Ed. rewrite zlen_zdrop in Ed. change (zlen (@nil Z)) with 0 in Ed. lia.
Qed.

Lemma recv_loop_flowing fuel n buf s x y :
  flowing s -> stream_bytes s = x ++ y -> zlen buf + zlen x = n -> (length x <= fuel)%nat ->
  exists s', recv_loop fuel n buf s = (Ok (Some (buf ++ x)), s') /\ stream_bytes s' = y /\ flowing s'.
Proof.
  revert buf s x. induction fuel as [|fuel IH]; intros buf s x Hs Hb Hx Hf; cbn [recv_loop].
  - destruct x; [|cbn in Hf; lia]. rewrite app_nil_r. unfold zlen in *. cbn in Hx. rewrite (proj2 (Z.ltb_ge _ _)) by lia. by exists s.
  - destruct (Z.ltb_spec (zlen buf) n) as [Hlt|Hge].
    + destruct (recv_flowing (n - zlen buf) s x y) as (g & x' & s1 & E & Hg & -> & Hb' & Hs'); [done|lia|done|lia|].
      unfold mbind, M_bind. rewrite E. destruct g as [|c g]; [done|].
      destruct (IH (buf ++ c :: g) s1 x') as (s2 & E2 & ?); [done|done|rewrite zlen_app in *; lia|cbn in Hf; rewrite length_app in Hf; cbn in Hf; lia|].
      exists s2. rewrite E2. by rewrite <- app_assoc.
    + assert (x = []) as ->. { destruct x; [done|]. rewrite zlen_cons in Hx. pose proof (zlen_nonneg x). lia. }
      rewrite app_nil_r. by exists s.
Qed.

Lemma recv_exact_flowing s x y : flowing s -> stream_bytes s = x ++ y ->
  exists s', recv_exact (zlen x) s = (Ok (Some x), s') /\ stream_bytes s' = y /\ flowing s'.
Proof. intros Hs Hb. unfold recv_exact. apply (recv_loop_flowing _ _ []); try done. unfold zlen. lia. Qed.

(** A message that was framed and is the next to arrive is received as it was sent, however
    the stream cuts it, and what follows is left for the next call. *)
Theorem framed_received m f s rest :
  frame m = Ok f -> flowing s -> stream_bytes s = f ++ rest ->
  exists s', recv_msg s = (Ok (Some m), s') /\ stream_bytes s' = rest /\ flowing s'.
Proof.
  unfold frame. destruct (Z.ltb_spec (zlen m) (2 ^ 24)) as [Hm|]; [|done]. intros <-%Ok_inj Hs Hb.
  change (0 :: be_bytes 3 (zlen m) ++ m) with ((0 :: be_bytes 3 (zlen m)) ++ m) in Hb. rewrite <- app_assoc in Hb.
  destruct (recv_exact_flowing s (0 :: be_bytes 3 (zlen m)) (m ++ rest) Hs Hb) as (s1 & E1 & Hb1 & Hs1).
  assert (Hl : be_int (slice (0 :: be_bytes 3 (zlen m)) 1 4) = zlen m).
  { change (slice (0 :: be_bytes 3 (zlen m)) 1 4) with (ztake 3 (be_bytes 3 (zlen m))).
    rewrite ztake_all by (rewrite be_bytes_length; lia). unfold be_int, be_bytes. rewrite rev_involutive, le_int_le_bytes.
    apply Z.mod_small. pose proof (zlen_nonneg m). lia. }
  unfold recv_msg. unfold mbind at 1, M_bind at 1.
  rewrite zlen_cons, be_bytes_length in E1. change (1 + Z.of_nat 3) with 4 in E1.
  rewrite E1. cbv zeta. rewrite Hl. cbn [znth].
  replace (negb _) with false by done. destruct (Z.eqb_spec (zlen m) 0) as [E0|_].
  - assert (m = []) as -> by by apply zlen_0_nil. by exists s1.
  - by apply recv_exact_flowing.
Qed.

(** ** The end of a connection

    Every message takes something off what is left to arrive. *)

Lemma recv_fewer n s : 0 < n -> s <> [] -> (arrivals (snd (recv n s)) < arrivals s)%nat.
Proof.
  intros Hn Hs. destruct s as [|[bs|e] s]; [done| |cbn; lia]. cbn [recv]. destruct (Z.leb_spec (zlen bs) n); cbn; [lia|].
  unfold zdrop, zlen in *. rewrite length_drop. lia.
Qed.

Lemma recv_loop_fewer fuel n buf s : (arrivals (snd (recv_loop fuel n buf s)) <= arrivals s)%nat /\
  (zlen buf < n -> forall m, fst (recv_loop fuel n buf s) = Ok (Some m) -> (arrivals (snd (recv_loop fuel n buf s)) < arrivals s)%nat).
Proof.
  revert buf s. induction fuel as [|fuel IH]; intros buf s; cbn [recv_loop]; destruct (Z.ltb_spec (zlen buf) n) as [Hlt|Hge];
    try (split; [done|intros; lia]); [by split|].
  unfold mbind, M_bind. destruct s as [|a s]; [by split|].
  assert (Hr : (arrivals (snd (recv (n - zlen buf) (a :: s))) < arrivals (a :: s))%nat) by (apply recv_fewer; [lia|done]).
  destruct (recv (n - zlen buf) (a :: s)) as [[[|c chunk]|e] s1]; cbn [fst snd mret M_ret] in *; [split; [lia|done]| |split; [lia|done]].
  destruct (IH (buf ++ c :: chunk) s1) as [K _]. split; [lia|intros; lia].
Qed.

Lemma recv_msg_fewer s m : fst (recv_msg s) = Ok (Some m) -> (arrivals (snd (recv_msg s)) < arrivals s)%nat.
Proof.
  unfold recv_msg, mbind, M_bind, recv_exact. destruct (recv_loop_fewer (Z.to_nat 4) 4 [] s) as [_ K].
  destruct (recv_loop (Z.to_nat 4) 4 [] s) as [[[hdr|]|e] s1]; cbn [fst snd] in *; [|done..].
  specialize (K eq_refl hdr eq_refl). set (n := be_int _). destruct (recv_loop_fewer (Z.to_nat n) n [] s1) as [K1 _].
  destruct (negb _).
  - destruct (0 <? n); [|by cbn]. destruct (recv_loop (Z.to_nat n) n [] s1) as [[o|e] s2]; cbn in *; [lia|done].
  - destruct (n =? 0); [by cbn|]. lia.
Qed.

(** ** UTF-16 *)

Lemma le2 v : 0 <= v < 65536 -> exists a b, le_bytes 2 v = [a; b] /\ a + 256 * b = v.
Proof. intros Hv. eexists _, _. split; [reflexivity|]. divlia. Qed.

(** [from_utf16] reads back what [utf16] writes, for every text of code points. *)
Theorem utf16_roundtrip s raw : Forall (fun c => 0 <= c < 1114112) s -> utf16 s = Ok raw -> from_utf16 raw = s.
Proof.
  intros Hs. revert raw. induction Hs as [|c s Hc Hs IH]; intros raw; cbn [utf16]; [by intros <-%Ok_inj|].
  destruct (is_surrogate c) eqn:Esur; [done|]. unfold is_surrogate in Esur.
  destruct (utf16 s) as [rest|]; [|done]. cbn [mbind result_bind]. intros <-%Ok_inj. unfold utf16_units.
  destruct (Z.ltb_spec c 65536) as [Hlt|Hge].
  - destruct (le2 c) as (a & b & -> & E); [lia|]. cbn [app from_utf16]. rewrite E. unfold is_high, is_low.
    replace ((55296 <=? c) && (c <=? 56319)) with false by (symmetry; lia).
    replace ((56320 <=? c) && (c <=? 57343)) with false by (symmetry; lia). by rewrite (IH rest eq_refl).
  - destruct (le2 (55296 + (c - 65536) / 1024)) as (a & b & -> & E); [divlia|].
    destruct (le2 (56320 + (c - 65536) mod 1024)) as (a' & b' & -> & E'); [divlia|].
    cbn [app from_utf16]. rewrite E, E'. unfold is_high, is_low.
    replace (_ && _) with true by (symmetry; divlia). replace (_ && _) with true by (symmetry; divlia).
    rewrite (IH rest eq_refl). f_equal. divlia.
Qed.

(** ** The header *)

(** The header [pack_header] writes, as [parse_header] reads it *)
Lemma parse_pack_header cmd st mid tid sid cr fl next raw rest :
  pack_header cmd st mid tid sid cr fl next = Ok raw ->
  zlen raw = HEADER_SIZE /\
  parse_header (raw ++ rest) = Some (Header 0 st cmd cr (Z.lor fl FLAG_SERVER_TO_REDIR) next mid tid sid (zeros 16)).
Proof.
  unfold pack_header. set (fvs := [(fH, HEADER_SIZE); _; _; _; _; _; _; _; _; _; _]).
  destruct (pack fvs) as [fields|] eqn:Ep; [|done]. cbn [struct_result mbind result_bind]. intros <-%Ok_inj.
  assert (Hl : zlen fields = 44) by (unfold zlen; by rewrite (length_pack _ _ Ep)).
  split; [rewrite !zlen_app, Hl; done|].
  unfold parse_header. rewrite <- !app_assoc.
  rewrite (proj2 (Z.ltb_ge _ _)) by (rewrite !zlen_app, Hl, zlen_zeros; change (zlen SMB2_MAGIC) with 4; pose proof (zlen_nonneg rest); unfold HEADER_SIZE; lia).
  rewrite (ztake_app_length 4 SMB2_MAGIC) by done. unfold str_eqb. rewrite bool_decide_eq_true_2 by done. cbn [negb orb].
  pose proof (unpack_from_mid fvs fields SMB2_MAGIC (zeros 16 ++ rest) 4 eq_refl Ep) as Hu.
  cbn [map fst snd fvs] in Hu. rewrite Hu.
  do 2 f_equal. unfold slice. rewrite (app_assoc SMB2_MAGIC). rewrite zdrop_app_length by (rewrite zlen_app, Hl; done).
  by apply ztake_app_length.
Qed.

Lemma ztake_ztake_min {A} (l : list A) n m : n <= m -> ztake n (ztake m l) = ztake n l.
Proof. intros Hnm. unfold ztake. rewrite take_take. f_equal. lia. Qed.

(** Of the fields only the signature is in the place of the signature. *)
Lemma parse_signed mac p h : zlen mac = 16 -> parse_header p = Some h ->
  parse_header (with_signature mac p) = Some (h <| signature := mac |>).
Proof.
  intros Hmac. unfold parse_header. destruct (Z.ltb_spec (zlen p) HEADER_SIZE) as [|Hp]; [done|].
  unfold HEADER_SIZE in Hp. set (q := with_signature mac p).
  assert (H48 : zlen (ztake 48 p) = 48) by (rewrite zlen_ztake; lia).
  assert (Eq : q = ztake 48 p ++ mac ++ zdrop 64 p) by done.
  assert (Ht : ztake 48 q = ztake 48 p) by (rewrite Eq; by apply ztake_app_length).
  assert (Hq : zlen q = zlen p) by (rewrite Eq, !zlen_app, H48, zlen_zdrop; lia).
  rewrite Hq, (proj2 (Z.ltb_ge (zlen p) HEADER_SIZE)) by (unfold HEADER_SIZE; lia).
  rewrite <- (ztake_ztake_min q 4 48), Ht, ztake_ztake_min by lia. destruct (_ || _); [done|].
  assert (Hf : forall l : bytes, slice l 4 (4 + 44) = zdrop 4 (ztake 48 l)).
  { intros l. unfold slice, ztake, zdrop. by rewrite skipn_firstn_comm. }
  unfold unpack_from. change (4 + Z.of_nat _) with (4 + 44). rewrite !Hf, Ht.
  repeat (case_match; try done). intros [= <-]. unfold q. change HEADER_SIZE with 64. rewrite with_signature_mid by done. done.
Qed.

(** ** Compound replies *)

(** A client takes a message apart: each header says where the next one starts. *)
Fixpoint split_replies (n : nat) (msg : bytes) : list (header * bytes) :=
  match n, parse_header msg with
  | S n, Some h =>
      if next_command h =? 0 then [(h, zdrop HEADER_SIZE msg)]
      else (h, slice msg HEADER_SIZE (next_command h)) :: split_replies n (zdrop (next_command h) msg)
  | _, _ => []
  end.

(** The reply in the message is the one to the request: its command, message, status and
    credits, and its body with at most seven zeros behind it. *)
Definition replies_to (a : answer) (hb : header * bytes) : Prop :=
  command (fst hb) = command (a_hdr a) /\ message_id (fst hb) = message_id (a_hdr a) /\
  status (fst hb) = a_status a /\ credits (fst hb) = a_grant a /\
  exists k, 0 <= k < 8 /\ snd hb = a_body a ++ zeros k.

Section replies.
Context {Os : Type}.
Abbreviation W := (smb Os).

Definition aligned_size (a : answer) : Z := Z.land (HEADER_SIZE + zlen (a_body a) + 7) (Z.lnot 7).

Lemma aligned_eq n : Z.land (n + 7) (Z.lnot 7) = (n + 7) / 8 * 8.
Proof.
  rewrite <- Z.ldiff_land. change 7 with (Z.ones 3) at 2. rewrite Z.ldiff_ones_r by lia.
  rewrite Z.shiftl_mul_pow2, Z.shiftr_div_pow2 by lia. done.
Qed.

Lemma sign_length key d m mac : sign key d m = Ok mac -> zlen mac = 16.
Proof.
  unfold sign. destruct (_ <=? _).
  - unfold aes_cmac, mbind, result_bind. destruct (expand_key key); [|done]. destruct (encrypt_block _ _); [|done].
    destruct (if _ =? 0 then _ else _). destruct (cmac_blocks _ _ _); [|done]. apply encrypt_block_length.
  - intros <-%Ok_inj. rewrite zlen_ztake, (zlen_of_nat _ 32); [done|]. apply length_sha256.
Qed.

(** One reply on the wire: a header, the body, the padding, and perhaps a signature *)
Lemma reply_piece_run first last a (w : W) piece w' :
  reply_piece first last a w = (Ok piece, w') ->
  w' = w /\ exists tid sid fl raw, let next := if last then 0 else aligned_size a in
    pack_header (command (a_hdr a)) (a_status a) (message_id (a_hdr a)) tid sid (a_grant a) fl next = Ok raw /\
    let plain := raw ++ a_body a ++ (if last then [] else zeros (aligned_size a - (HEADER_SIZE + zlen (a_body a)))) in
    (piece = plain \/ exists mac, zlen mac = 16 /\ piece = with_signature mac plain).
Proof.
  unfold reply_piece, should_sign, aligned_size, mbind, M_bind, cget, mget, mret, M_ret, lift. cbv beta iota zeta.
  set (sign := match signing_key (cn w) with None => false | Some _ => _ end).
  match goal with |- context [pack_header ?c ?s ?m ?t ?i ?g ?f ?n] => set (tid := t); set (sid := i); set (fl := f) end.
  destruct (pack_header _ _ _ _ _ _ _ _) as [raw|e] eqn:Eh; cbv beta iota zeta; [|done].
  destruct sign; [|intros [= <- <-]; split; [done|]; exists tid, sid, fl, raw; auto].
  unfold dialect_number, mbind, M_bind, cget, mget, mret, M_ret, raise. cbv beta iota zeta.
  destruct (dialect (cn w)) as [d|]; [|done]. unfold signed.
  destruct (Smb2Crypto.sign _ _ _) as [mac|e] eqn:Es; cbn [mbind result_bind]; [|done]. intros [= <- <-]. split; [done|].
  exists tid, sid, fl, raw. split; [done|]. right. exists mac. split; [by eapply sign_length|done].
Qed.

Lemma padding_small n : 0 <= (n + 7) / 8 * 8 - n < 8.
Proof. divlia. Qed.

Lemma with_signature_app mac p rest : zlen mac = 16 -> 64 <= zlen p -> with_signature mac p ++ rest = with_signature mac (p ++ rest).
Proof.
  intros Hmac Hp. unfold with_signature, SIGNATURE_OFFSET, SIGNATURE_SIZE.
  rewrite ztake_app_le, zdrop_app_le by lia. by rewrite <- !app_assoc.
Qed.

Lemma with_signature_zdrop mac p : zlen mac = 16 -> 64 <= zlen p -> zdrop 64 (with_signature mac p) = zdrop 64 p.
Proof.
  intros Hmac Hp. unfold with_signature, SIGNATURE_OFFSET, SIGNATURE_SIZE. rewrite app_assoc. apply zdrop_app_length.
  rewrite zlen_app, zlen_ztake. lia.
Qed.

Lemma reply_piece_parses first last a (w : W) piece w' :
  reply_piece first last a w = (Ok piece, w') ->
  w' = w /\ exists h, (forall rest, parse_header (piece ++ rest) = Some h) /\
    next_command h = (if last then 0 else zlen piece) /\ HEADER_SIZE <= zlen piece /\ replies_to a (h, zdrop HEADER_SIZE piece).
Proof.
  intros (-> & tid & sid & fl & raw & Hh & Hp)%reply_piece_run. split; [done|]. cbv zeta in Hh, Hp.
  set (pad := if last then [] else _) in Hp. pose proof (zlen_nonneg (a_body a)) as Hbody.
  assert (Hpad : exists k, 0 <= k < 8 /\ pad = zeros k /\ (last = false -> aligned_size a = HEADER_SIZE + zlen (a_body a) + k)).
  { unfold pad, aligned_size. rewrite aligned_eq. destruct last; [by exists 0|]. eexists. split; [apply padding_small|]. split; [done|lia]. }
  destruct Hpad as (k & Hk & Hpk & Hal). rewrite Hpk in Hp.
  destruct (parse_pack_header _ _ _ _ _ _ _ _ _ [] Hh) as [Hraw _]. unfold HEADER_SIZE in Hraw.
  set (plain := raw ++ a_body a ++ zeros k) in Hp.
  assert (Hlen : zlen plain = 64 + zlen (a_body a) + k) by (unfold plain; rewrite !zlen_app, zlen_zeros; lia).
  assert (Hrest : zdrop 64 plain = a_body a ++ zeros k) by (unfold plain; by apply zdrop_app_length).
  assert (Hparse : forall rest, parse_header (plain ++ rest) = Some (Header 0 (a_status a) (command (a_hdr a)) (a_grant a)
    (Z.lor fl FLAG_SERVER_TO_REDIR) (if last then 0 else aligned_size a) (message_id (a_hdr a)) tid sid (zeros 16))).
  { intros rest. unfold plain. rewrite <- app_assoc. by apply (parse_pack_header _ _ _ _ _ _ _ _ _ _ Hh). }
  assert (Hnext : (if last then 0 else aligned_size a) = (if last then 0 else zlen plain)).
  { destruct last; [done|]. rewrite Hal, Hlen by done. done. }
  destruct Hp as [->|(mac & Hmac & ->)]; eexists; split.
  - intros rest. apply Hparse.
  - cbn. split_and!; [done|unfold HEADER_SIZE; lia|]. unfold replies_to. cbn. split_and!; try done. by exists k.
  - intros rest. rewrite with_signature_app by (done || lia). by apply parse_signed, Hparse.
  - assert (Hws : zlen (with_signature mac plain) = zlen plain).
    { unfold with_signature, SIGNATURE_OFFSET, SIGNATURE_SIZE. rewrite !zlen_app, zlen_ztake, zlen_zdrop. lia. }
    cbn. rewrite Hws. split_and!; [done|unfold HEADER_SIZE; lia|]. unfold replies_to. cbn. split_and!; try done.
    change HEADER_SIZE with 64. rewrite with_signature_zdrop by (done || lia). by exists k.
Qed.

(** C36. The replies of a compound message can be told apart: following the offsets of the headers
    a client finds one reply for each request, in their order. *)
Theorem replies_split first l (w : W) out w' :
  reply_pieces first l w = (Ok out, w') -> Forall2 replies_to l (split_replies (length l) out).
Proof.
  revert first out. induction l as [|a l IH]; intros first out; [intros; constructor|]. cbn [reply_pieces length split_replies].
  set (last := match l with [] => true | _ => false end). unfold mbind at 1, M_bind at 1.
  destruct (reply_piece first last a w) as [[piece|e] w1] eqn:Ep; [|done].
  apply reply_piece_parses in Ep as (-> & h & Hh & Hn & Hlen & Hr).
  unfold mbind at 1, M_bind at 1. destruct (reply_pieces false l w) as [[rest|e] w2] eqn:Er; [|done]. intros [= <- <-].
  rewrite Hh, Hn. destruct l as [|b l]; cbn [last].
  - cbn in Er. injection Er as <- <-. rewrite app_nil_r. cbn. by constructor.
  - subst last. cbn. unfold HEADER_SIZE in Hlen. rewrite (proj2 (Z.eqb_neq _ 0)) by lia. constructor.
    + unfold slice. rewrite zdrop_app_le by (unfold HEADER_SIZE; lia). rewrite ztake_app_length; [done|].
      rewrite zlen_zdrop. unfold HEADER_SIZE. lia.
    + rewrite zdrop_app_length by done. by apply (IH false).
Qed.
End replies.
