(* ===== verification/Smb2FileFacts.v ===== *)
(** * SMB2: what a client reads and lists

    READ answers the bytes of the file that were asked for.  A client that asks for a folder's
    entries until there are no more gets every name of the snapshot described exactly once,
    in order, however small its buffer is, and the calls come to an end. *)

From S2P Require Import Prelude Tables PyStr PyText SessionStats Compressed HostOs PyHash Smb2Wire Smb2Crypto Smb2Auth Smb2Srvsvc Smb2Paths PyGlob Smb2Server Smb2SignFacts Smb2WireFacts HttpServeFacts.

(** ** READ *)

Section read.
Context {Os : Type} `{!HostOs Os, !StreamHost Os, !ShareOs Os} `{CaseFolding} `{FloatTime} (srv : server).

(** The handle's file can be read: it is open, or its path names a file. *)
Definition reads (o : Os) (h : handle) (p : str) (c : bytes) : Prop :=
  h_path h = Some p /\ sh_file o p = Some c /\
  match h_fh h with Some (f, _) => exists i, sh_at o f p i | None => True end.

Lemma open_file_reads (w : smb Os) h p c : reads (host w) h p c ->
  exists f w', open_file h false w = (Ok f, w') /\ (exists i, sh_at (host w') f p i) /\ same_files (host w) (host w').
Proof.
  intros (Hp & Hc & Hf). unfold open_file. cbn [andb]. destruct (h_fh h) as [[f can]|].
  - destruct Hf as [i Hi]. exists f, w. split_and!; [done|by exists i|by split].
  - unfold path_of. rewrite Hp. destruct (sh_open (host w) p c Hc) as (f & o' & E & Hat & Hsame).
    eexists f, _. unfold mbind, M_bind, on_host. cbn. rewrite E. cbn. split_and!; [done|by exists 0|done].
Qed.

(** READ of a file gives its bytes from the offset on, as many as were asked for, as the
    server allows and as there are; none are an error.  No file changes. *)
Theorem read_exact (w : smb Os) hdr body t h p c f0 f1 f2 length offset :
  any_tree hdr w = (Ok t, w) -> 48 <= zlen body ->
  unpack_from [fH; fB; fB; fI; fQ] body 0 = Some [f0; f1; f2; length; offset] -> 0 <= length -> 0 <= offset ->
  handle_from (slice body 16 32) w = (Ok h, w) -> h_pipe h = None -> is_dir h = false -> reads (host w) h p c ->
  let data := slice c offset (offset + Z.min length MAX_READ) in
  exists w', same_files (host w) (host w') /\
    h_read hdr body w =
      (if bool_decide (data = []) then Err (NtStatus STATUS_END_OF_FILE)
       else Ok (STATUS_SUCCESS, [17; 0; 80; 0] ++ le_bytes 4 (zlen data) ++ zeros 8 ++ data), w').
Proof.
  intros Ht Hb Hu Hl Ho Hh Hpipe Hdir Hr data.
  destruct (open_file_reads w h p c Hr) as (f & w1 & E1 & [i Hi] & Hs1).
  destruct Hr as (_ & Hc & _). rewrite <- (proj1 Hs1 p) in Hc.
  destruct (sh_seek (host w1) f p i offset Hi Ho) as (r & o2 & E2 & Hi2 & Hs2a & Hs2b).
  assert (Hc2 : sh_file o2 p = Some c) by by rewrite Hs2a.
  destruct (sh_read o2 f p offset c (Z.min length MAX_READ) Hi2 Hc2 Ho) as (o3 & E3 & _ & Hs3a & Hs3b).
  { unfold MAX_READ. lia. }
  exists (w1 <| host := o3 |>). split.
  { destruct Hs1. split; intros q; cbn; rewrite ?Hs3a, ?Hs3b, ?Hs2a, ?Hs2b; done. }
  unfold h_read. unfold mbind at 1, M_bind at 1. rewrite Ht. rewrite (proj2 (Z.ltb_ge _ _)) by lia.
  unfold fields_at, lift. rewrite Hu. unfold mbind at 1, M_bind at 1. cbn [struct_result].
  unfold mbind at 1, M_bind at 1. rewrite Hh, Hpipe, Hdir.
  unfold mbind at 1, M_bind at 1. rewrite E1.
  unfold mbind at 1, M_bind at 1. unfold on_host at 1. rewrite E2.
  unfold mbind at 1, M_bind at 1. unfold on_host at 1.
  change (host (w1 <| host := o2 |>)) with o2. rewrite E3. fold data.
  change (w1 <| host := o2 |> <| host := o3 |>) with (w1 <| host := o3 |>).
  assert (Hfit : 0 <= zlen data < 256 ^ Z.of_nat 4).
  { unfold data. rewrite zlen_slice by lia. change (256 ^ Z.of_nat 4) with 4294967296. unfold MAX_READ. lia. }
  destruct data as [|b ds] eqn:Ed; [done|]. rewrite bool_decide_eq_false_2 by done.
  unfold packed, lift. cbn [pack]. rewrite (fits_unsigned 4 (zlen (b :: ds))) by done. done.
Qed.
End read.

(** ** QUERY_DIRECTORY *)

(** The sum of [f] over a list *)
Fixpoint sum_Z {A} (f : A -> Z) (l : list A) : Z := match l with [] => 0 | a :: l => f a + sum_Z f l end.

(** A client takes a page apart: each entry says how far the next one is. *)
Fixpoint split_entries (n : nat) (blob : bytes) : list bytes :=
  match n with
  | O => []
  | S n =>
      let next := le_int (ztake 4 blob) in
      if next =? 0 then [zdrop 4 blob] else slice blob 4 next :: split_entries n (zdrop next blob)
  end.

Lemma pack_one w v n : pack [(Un w, v)] = Some n -> n = le_bytes w v /\ 0 <= v < 256 ^ Z.of_nat w.
Proof.
  intros E. destruct (fits (Un w) v) eqn:Ef; [|cbn [pack] in E; by rewrite Ef in E].
  rewrite pack_single in E by done. split; [by simplify_eq|by apply fits_nonneg].
Qed.

(** The entries of a page can be told apart. *)
Lemma chain_splits n entries blob : entries <> [] -> (length entries <= n)%nat -> Forall (fun e => 4 < zlen e) entries ->
  chain entries = Ok blob -> split_entries n blob = map (zdrop 4) entries /\ zlen blob = sum_Z zlen entries.
Proof.
  intros Hne Hn He. revert n Hne Hn blob. induction He as [|e entries He Hes IH]; intros n Hne Hn blob; [done|].
  destruct n as [|n]; [cbn in Hn; lia|]. cbn [chain map split_entries].
  set (v := match entries with [] => 0 | _ => zlen e end).
  destruct (pack _) as [hd4|] eqn:En; [|done]. apply pack_one in En as [-> Hv]. cbn [struct_result mbind result_bind].
  destruct (chain entries) as [rest|] eqn:Er; [|done]. cbn [mbind result_bind]. intros <-%Ok_inj.
  assert (H4 : zlen (le_bytes 4 v) = 4) by (unfold zlen; by rewrite length_le_bytes).
  rewrite !(ztake_app_length 4) by done. rewrite le_int_le_bytes, Z.mod_small by done.
  unfold v in *. clear v. destruct entries as [|e' entries].
  - cbn in Er. apply Ok_inj in Er as <-. cbn [map sum_Z]. rewrite app_nil_r, Z.eqb_refl. rewrite (zdrop_app_length 4) by done.
    split; [done|]. rewrite zlen_app, H4, zlen_zdrop. lia.
  - rewrite (proj2 (Z.eqb_neq _ 0)) by lia. destruct (IH n) with (blob := rest) as [K1 K2]; [done|cbn in *; lia|done|].
    split; [f_equal|].
    + unfold slice. rewrite (zdrop_app_length 4) by done. apply ztake_app_length. rewrite zlen_zdrop. lia.
    + rewrite app_assoc, zdrop_app_length; [done|]. rewrite zlen_app, zlen_zdrop, H4. lia.
    + rewrite !zlen_app, zlen_zdrop, H4, K2. cbn [sum_Z]. lia.
Qed.

Lemma sum_zlen_nonneg (l : list bytes) : 0 <= sum_Z zlen l.
Proof. induction l as [|e l IH]; cbn [sum_Z]; [done|]. pose proof (zlen_nonneg e). lia. Qed.

Lemma sum_Z_app {A} (f : A -> Z) l k : sum_Z f (l ++ k) = sum_Z f l + sum_Z f k.
Proof. induction l as [|a l IH]; [done|]. cbn [app sum_Z]. lia. Qed.

Lemma chain_total entries : sum_Z zlen entries < 2 ^ 32 -> exists blob, chain entries = Ok blob.
Proof.
  induction entries as [|e entries IH]; intros Hs; [by eexists|]. cbn [chain sum_Z] in *.
  pose proof (sum_zlen_nonneg entries). pose proof (zlen_nonneg e). destruct IH as [blob ->]; [lia|].
  rewrite pack_single; [by eexists|]. apply fits_unsigned. change (256 ^ Z.of_nat 4) with (2 ^ 32). destruct entries; lia.
Qed.

(** The entries of the first names are no more than all of them. *)
Lemma omap_take_sum (es : list (option bytes)) k : sum_Z zlen (omap id (take k es)) <= sum_Z zlen (omap id es).
Proof.
  revert k. induction es as [|e es IH]; intros [|k]; cbn; try done.
  - apply sum_zlen_nonneg.
  - specialize (IH k). destruct e; cbn; lia.
Qed.

Lemma omap_take_Forall (P : bytes -> Prop) (es : list (option bytes)) k : Forall P (omap id es) -> Forall P (omap id (take k es)).
Proof.
  intros Hf. rewrite <- (take_drop k es) in Hf. rewrite omap_app in Hf. by apply Forall_app in Hf as [? _].
Qed.

Section scan.
Context {Os : Type} `{ShareOs Os} `{CaseFolding} `{FloatTime}.
Context (s : share) (hid : Z) (p : str) (info_class : Z) (read_only single : bool) (out_len : Z).
Abbreviation W := (smb Os).

(** What a name of the snapshot stands for: the entry that describes it, or nothing where it
    is gone *)
Definition described (o : Os) (name : text) (e : option bytes) : Prop :=
  exists target, (forall w : W, host w = o -> entry_target s p name w = (Ok target, w)) /\
  match e with
  | None => exists n, os_stat target o = Err (OSError n)
  | Some e => exists st r, os_stat target o = Ok st /\ directory_entry name st info_class read_only = Ok (Some r) /\ e = padded r
  end.

(** The state with the cursor of the handle at [c] *)
Definition at_cursor (c : Z) (w : W) : W := w <| cn ::= fun k => k <| handles ::= aupdate hid (fun h => h <| cursor := c |>) |> |>.

Lemma at_cursor_twice c d w : at_cursor c (at_cursor d w) = at_cursor c w.
Proof.
  set (put l := w <| cn ::= fun k => k <| handles := l |> |>).
  transitivity (put (aupdate hid (fun h => h <| cursor := c |>) (aupdate hid (fun h => h <| cursor := d |>) (handles (cn w))))).
  - by destruct w as [? [] ? ? ? ? ? ? ?].
  - rewrite aupdate_twice. by destruct w as [? [] ? ? ? ? ? ? ?].
Qed.

(** A page: the entries of the names from [c] to [c + k], where [k] is at least one unless
    there is no name left *)
Lemma list_entries_page names es c entries total (w : W) :
  Forall2 (described (host w)) names es ->
  exists k w', list_entries s hid p info_class read_only single out_len names c entries total w
      = (Ok (entries ++ omap id (take k es)), w') /\
   (k <= length es)%nat /\ w' = (if (k =? 0)%nat then w else at_cursor (c + Z.of_nat k) w) /\
   (entries = [] -> es <> [] -> (0 < k)%nat) /\ (entries ++ omap id (take k es) = [] -> k = length es).
Proof.
  intros Hes. revert c entries total w Hes. revert es.
  induction names as [|name names IH]; intros es c entries total w Hes; inversion Hes as [|? e ? es' (target & Ht & He) Hes']; subst.
  { exists 0%nat, w. cbn. rewrite app_nil_r. split_and!; done || lia. }
  assert (Hnext : forall entries' total', (entries' = [] -> entries = []) -> (entries ++ option_list e = entries') ->
    exists k w', list_entries s hid p info_class read_only single out_len names (c + 1) entries' total' (at_cursor (c + 1) w)
      = (Ok (entries ++ omap id (take (S k) (e :: es'))), w') /\ (k <= length es')%nat /\ w' = at_cursor (c + Z.of_nat (S k)) w /\
      (entries ++ omap id (take (S k) (e :: es')) = [] -> k = length es')).
  { intros entries' total' Hemp Heq. destruct (IH es' (c + 1) entries' total' (at_cursor (c + 1) w)) as (k & w' & E & Hk & -> & _ & Hlast); [done|].
    exists k, (at_cursor (c + Z.of_nat (S k)) w).
    assert (Eq : entries' ++ omap id (take k es') = entries ++ omap id (take (S k) (e :: es'))).
    { rewrite <- Heq. destruct e; cbn; [by rewrite <- app_assoc|by rewrite app_nil_r]. }
    rewrite <- Eq. split_and!; [|done|done|done]. rewrite E. f_equal.
    destruct k; cbn [Nat.eqb]; [done|]. rewrite at_cursor_twice. f_equal. lia. }
  cbn [list_entries]. unfold mbind at 1, M_bind at 1. rewrite Ht by done.
  unfold mbind at 1, M_bind at 1, mcatch at 1. unfold mbind at 1, M_bind at 1, ask at 1.
  destruct e as [e|].
  - destruct He as (st & r & Est & Er & ->). rewrite Est. cbv beta iota zeta. unfold mret at 1, M_ret at 1. cbv beta iota zeta.
    unfold mbind at 1, M_bind at 1, lift at 1. rewrite Er. cbv beta iota zeta.
    destruct ((out_len <? total + zlen (padded r)) && negb (bool_decide (entries = []))) eqn:Efull.
    + exists 0%nat, w. cbn. rewrite app_nil_r. apply andb_true_iff in Efull as [_ Hne%negb_true_iff%bool_decide_eq_false].
      split_and!; done || lia.
    + unfold mbind at 1, M_bind at 1. change (set_cursor hid (c + 1) w) with (Ok tt, at_cursor (c + 1) w). cbv beta iota zeta.
      destruct single eqn:Es.
      * exists 1%nat, (at_cursor (c + 1) w). cbn. split_and!; try done; try lia. intros E. by apply app_nil in E as [_ ?].
      * destruct (Hnext (entries ++ [padded r]) (total + zlen (padded r))) as (k & w' & E & Hk & -> & Hlast).
        { intros E. by apply app_nil in E as [_ ?]. }
        { done. }
        exists (S k), (at_cursor (c + Z.of_nat (S k)) w). rewrite E. split_and!; try done; cbn; [lia|lia|].
        intros E'. rewrite Hlast; done.
  - destruct He as (n & Est). rewrite Est. cbv beta iota zeta. unfold mret at 1, M_ret at 1. cbv beta iota zeta.
    unfold mbind at 1, M_bind at 1. change (set_cursor hid (c + 1) w) with (Ok tt, at_cursor (c + 1) w). cbv beta iota zeta.
    destruct (Hnext entries total) as (k & w' & E & Hk & -> & Hlast); [done|by rewrite app_nil_r|].
    exists (S k), (at_cursor (c + Z.of_nat (S k)) w). rewrite E. split_and!; try done; cbn; [lia|lia|].
    intros E'. rewrite Hlast; done.
Qed.
End scan.

(** What a client reads out of the body of a response *)
Definition page_entries (body : bytes) : list bytes := split_entries (length body) (zdrop 8 body).

Lemma struct_length fvs b : struct_result (pack fvs) = Ok b -> zlen b = Z.of_nat (fmts_size (map fst fvs)).
Proof. destruct (pack fvs) as [x|] eqn:E; [|done]. intros <-%Ok_inj. unfold zlen. by rewrite (length_pack _ _ E). Qed.

Lemma directory_entry_long `{FloatTime} name st info_class ro r :
  directory_entry name st info_class ro = Ok (Some r) -> 8 <= zlen r.
Proof.
  unfold directory_entry, both_directory_entry, mbind, result_bind. destruct (utf16 name) as [raw|]; [|done].
  repeat match goal with
  | |- context [struct_result (pack ?l)] =>
      let E := fresh "E" in destruct (struct_result (pack l)) eqn:E; [apply struct_length in E; cbn in E|done]
  | |- context [if ?b then _ else _] => destruct b; try done
  end; intros <-%Ok_inj%Some_inj; rewrite zlen_app; (match goal with |- context [_ + zlen ?t] => pose proof (zlen_nonneg t) end); lia.
Qed.

Lemma described_long `{ShareOs Os, CaseFolding, FloatTime} s p info_class ro (o : Os) names es :
  Forall2 (described s p info_class ro o) names es -> Forall (fun e => 4 < zlen e) (omap id es).
Proof.
  induction 1 as [|name e names es (t & _ & He) _ IH]; [apply Forall_nil_2|]. destruct e as [e|]; [|done].
  destruct He as (st & r & _ & Hr%directory_entry_long & ->). cbn. apply Forall_cons. split; [|done].
  unfold padded. rewrite zlen_app, zlen_zeros. lia.
Qed.

Section client.
Context {Os : Type} `{ShareOs Os} `{CaseFolding} `{FloatTime} (srv : server).
Context (s : share) (hid : Z) (p : str) (info_class fl out_len : Z) (pattern : text).
Abbreviation W := (smb Os).

(** The handle is a folder with a snapshot [names], of which [c] were gone through. *)
Definition listing_at (names : list text) (c : Z) (h : handle) (w : W) : Prop :=
  alookup hid (handles (cn w)) = Some h /\ file_id h = hid /\ is_dir h = true /\ h_path h = Some p /\
  listing h = Some names /\ cursor h = c.

Abbreviation describes o := (Forall2 (described s p info_class (tree_read_only srv (Disk s)) o)).

Lemma listing_moves names c h (w : W) d : listing_at names c h w -> listing_at names d (h <| cursor := d |>) (at_cursor hid d w).
Proof.
  intros (Hl & Hid & Hd & Hp & Hn & _). split_and!; try done.
  assert (handles (cn (at_cursor hid d w)) = aupdate hid (fun h => h <| cursor := d |>) (handles (cn w))) as -> by by destruct w as [? [] ? ? ? ? ? ? ?].
  rewrite alookup_aupdate, Hl. done.
Qed.

(** One request: the next names, at least one while there are any *)
Lemma query_directory_page names c es h (w : W) :
  listing_at names c h w -> 0 <= c -> has fl RESTART_SCANS = false ->
  describes (host w) (zdrop c names) es -> sum_Z zlen (omap id es) < 2 ^ 32 ->
  exists k, (k <= length es)%nat /\
    let w' := if (k =? 0)%nat then w else at_cursor hid (c + Z.of_nat k) w in
    (es <> [] -> (0 < k)%nat) /\
    match omap id (take k es) with
    | [] => query_directory srv s h info_class fl out_len pattern w = (Err (NtStatus STATUS_NO_MORE_FILES), w') /\ k = length es
    | page => exists body, query_directory srv s h info_class fl out_len pattern w = (Ok (STATUS_SUCCESS, body), w') /\
        page_entries body = map (zdrop 4) page
    end.
Proof.
  intros (Hl & Hid & Hd & Hp & Hn & Hc) Hc0 Hfl Hes Hsum. pose proof (described_long _ _ _ _ _ _ _ Hes) as H4.
  set (size := Z.min (if out_len =? 0 then MAX_TRANSACT else out_len) MAX_TRANSACT).
  destruct (list_entries_page s hid p info_class (tree_read_only srv (Disk s)) (has fl SINGLE_ENTRY) size
    (zdrop c names) es c [] 0 w Hes) as (k & w' & E & Hk & Hw & Hpos & Hlast).
  exists k. split; [done|]. cbv zeta. split; [by apply Hpos|]. rewrite <- Hw.
  assert (Hq : query_directory srv s h info_class fl out_len pattern w = match omap id (take k es) with
    | [] => (Err (NtStatus STATUS_NO_MORE_FILES), w')
    | entries => (blob ← lift (chain entries); info_response blob) w' end).
  { unfold query_directory. rewrite Hd. cbn [negb]. rewrite Hn, Hfl. unfold mbind at 1, M_bind at 1. cbn [orb].
    rewrite bool_decide_eq_false_2 by done. cbn [orb]. unfold mret at 1, M_ret at 1. cbv beta iota zeta.
    unfold mbind at 1, M_bind at 1, cget at 1, mget at 1. rewrite Hid, Hl. cbn [default from_option id].
    unfold mbind at 1, M_bind at 1, path_of at 1. rewrite Hp. unfold mret at 1, M_ret at 1. cbv beta iota zeta.
    unfold mbind at 1, M_bind at 1. rewrite Hid, Hn, Hc. cbn [default from_option id]. cbv zeta. fold size. rewrite E. cbn [app].
    by destruct (omap id (take k es)). }
  rewrite Hq. destruct (omap id (take k es)) as [|e page] eqn:Epage; [split; [done|by apply Hlast]|].
  pose proof (omap_take_sum es k) as Hle. pose proof (omap_take_Forall _ es k H4) as Hall. rewrite Epage in Hle, Hall.
  destruct (chain_total (e :: page)) as [blob Eb]; [lia|].
  assert (Hlen : zlen blob = sum_Z zlen (e :: page)) by (eapply chain_splits; [| |done|done]; [done|reflexivity]).
  assert (Hfit : 0 <= zlen blob < 256 ^ Z.of_nat 4).
  { change (256 ^ Z.of_nat 4) with (2 ^ 32). pose proof (zlen_nonneg blob). lia. }
  unfold mbind at 1, M_bind at 1, lift at 1. rewrite Eb. unfold info_response, packed, lift. cbn [pack].
  rewrite (fits_unsigned 4 (zlen blob)) by done. eexists. split; [reflexivity|].
  unfold page_entries. rewrite zdrop_app_length by (unfold zlen; by rewrite length_app, length_le_bytes).
  eapply chain_splits; [done| |done|done]. rewrite !length_app.
  enough (length (e :: page) <= length blob)%nat by lia. clear -Hlen Hall. change (zlen blob) with (Z.of_nat (length blob)) in Hlen.
  assert (Hs : Z.of_nat (length (e :: page)) <= sum_Z zlen (e :: page)); [|lia].
  clear Hlen. induction Hall as [|x l Hx Hl IH]; [done|]. cbn [sum_Z length]. lia.
Qed.

(** The client asks until there are no more. *)
Fixpoint scan (fuel : nat) (h : handle) (w : W) : result (list bytes) * W :=
  match fuel with
  | O => (Err Hang, w)
  | S fuel =>
      match query_directory srv s h info_class fl out_len pattern w with
      | (Ok (_, body), w) =>
          let h := default h (alookup hid (handles (cn w))) in
          let '(r, w) := scan fuel h w in (bodies ← r; Ok (body :: bodies), w)
      | (Err (NtStatus st), w) => if st =? STATUS_NO_MORE_FILES then (Ok [], w) else (Err (NtStatus st), w)
      | (Err e, w) => (Err e, w)
      end
  end.

(** C17. Whatever the size of its buffer, and whether it asks for one entry at a time or for as
    many as fit, a client that asks until there are no more is told of every name of the
    snapshot that still exists exactly once and in order, after at most one more call than
    there are names.  This is for snapshots whose existing names can all be put in an entry
    ([describes]): a name that UTF-16 cannot encode, which a file name of a host that is not
    UTF-8 becomes, makes the listing fail. *)
Theorem listing_once names c es h fuel (w : W) :
  listing_at names c h w -> 0 <= c -> has fl RESTART_SCANS = false ->
  describes (host w) (zdrop c names) es -> sum_Z zlen (omap id es) < 2 ^ 32 ->
  (length es < fuel)%nat ->
  exists bodies w', scan fuel h w = (Ok bodies, w') /\ host w' = host w /\
    concat (map page_entries bodies) = map (zdrop 4) (omap id es).
Proof.
  revert names c es h w. induction fuel as [|fuel IH]; intros names c es h w Hl Hc Hfl Hes Hsum Hfuel; [lia|].
  destruct (query_directory_page names c es h w Hl Hc Hfl Hes Hsum) as (k & Hk & Hpos & Hq). cbv zeta in Hpos, Hq.
  assert (Hsplit : omap id es = omap id (take k es) ++ omap id (drop k es)) by by rewrite <- omap_app, take_drop.
  set (w' := if (k =? 0)%nat then w else at_cursor hid (c + Z.of_nat k) w) in *.
  assert (Hw : host w' = host w) by (unfold w'; by destruct (k =? 0)%nat).
  cbn [scan]. destruct (omap id (take k es)) as [|e page] eqn:Epage.
  - destruct Hq as [-> ->]. cbn. exists [], w'. split_and!; [done|done|]. rewrite Hsplit, drop_all. done.
  - destruct Hq as (body & -> & Hbody). destruct k as [|k]; [done|]. cbn [Nat.eqb] in w'.
    pose proof (listing_moves names c h w (c + Z.of_nat (S k)) Hl) as Hl'. fold w' in Hl'.
    rewrite (proj1 Hl'). cbn [default from_option id].
    destruct (IH names (c + Z.of_nat (S k)) (drop (S k) es) (h <| cursor := c + Z.of_nat (S k) |>) w') as (bodies & w2 & -> & Hh & Hb).
    + done.
    + lia.
    + done.
    + rewrite Hw, Z.add_comm, <- zdrop_zdrop by lia. unfold zdrop at 1. rewrite Nat2Z.id. by apply Forall2_drop.
    + pose proof (sum_zlen_nonneg (e :: page)). rewrite Hsplit, sum_Z_app in Hsum. lia.
    + rewrite length_drop. lia.
    + exists (body :: bodies), w2. split_and!; [done|by rewrite Hh|]. cbn [map concat]. rewrite Hb, Hbody, Hsplit. by rewrite map_app.
Qed.
End client.
