(* ===== verification/Smb2SrvsvcFacts.v ===== *)
(** * SMB2: the answers of the share list pipe

    A response longer than a fragment is cut into fragments no larger than the client asked
    for, and a client that puts them together gets the response. *)

From S2P Require Import Prelude Triples PyStr PyText Compressed HostOs Smb2Wire Smb2Srvsvc Smb2WireFacts.

(** A client's reading of the fragments of a response: each is a PDU of type RESPONSE for the
    call, no longer than [limit], flagged as the first and the last where it is, and says how
    many bytes are still to come. *)
Fixpoint reassemble (n : nat) (limit call_id : Z) (first : bool) (data : bytes) : option bytes :=
  match n with
  | O => None
  | S n =>
      let frag_len := le_int (slice data 8 10) in
      let last := has (znth data 3) PFC_LAST_FRAG in
      let chunk := slice data 24 frag_len in
      let rest := zdrop frag_len data in
      if (znth data 2 =? PTYPE_RESPONSE) && Bool.eqb (has (znth data 3) PFC_FIRST_FRAG) first
         && (le_int (slice data 12 16) =? call_id) && (24 <=? frag_len) && (frag_len <=? Z.min limit (zlen data))
      then
        if last then (if (le_int (slice data 16 20) =? zlen chunk) && bool_decide (rest = []) then Some chunk else None)
        else
          more ← reassemble n limit call_id false rest;
          if le_int (slice data 16 20) =? zlen chunk + zlen more then Some (chunk ++ more) else None
      else None
  end.

(** One fragment *)
Definition fragment (flags call_id ctx hint : Z) (chunk : bytes) : bytes :=
  [5; 0; 2; flags; 16; 0; 0; 0] ++ le_bytes 2 (24 + zlen chunk) ++ [0; 0] ++ le_bytes 4 call_id ++ le_bytes 4 hint
  ++ le_bytes 2 ctx ++ [0; 0] ++ chunk.

Lemma fragment_eq flags call_id ctx hint chunk :
  0 <= flags < 256 -> 0 <= call_id < 2 ^ 32 -> 0 <= ctx < 2 ^ 16 -> 0 <= hint < 2 ^ 32 -> zlen chunk <= 65000 ->
  exists head, struct_result (pack [(fI, hint); (fH, ctx); (fB, 0); (fB, 0)]) = Ok head /\
    pdu PTYPE_RESPONSE flags call_id (head ++ chunk) = Ok (fragment flags call_id ctx hint chunk).
Proof.
  intros Hf Hc Hx Hh Hn. pose proof (zlen_nonneg chunk). exists (le_bytes 4 hint ++ le_bytes 2 ctx ++ [0; 0]). split.
  { cbn [pack]. rewrite (fits_unsigned 4 hint), (fits_unsigned 2 ctx) by done. reflexivity. }
  unfold pdu, rpc_header.
  assert (Hl : zlen ((le_bytes 4 hint ++ le_bytes 2 ctx ++ [0; 0]) ++ chunk) = 8 + zlen chunk).
  { rewrite !zlen_app. done. }
  rewrite Hl. cbn [pack]. change (fits fB 5) with true. change (fits fB 0) with true. change (fits fB PTYPE_RESPONSE) with true.
  change (fits fH 0) with true.
  rewrite (fits_unsigned 1 flags), (fits_unsigned 2 (16 + (8 + zlen chunk))), (fits_unsigned 4 call_id) by (done || (change (256 ^ Z.of_nat 2) with 65536; lia)).
  cbn [mbind option_bind result_bind struct_result].
  unfold fragment. rewrite (Z.add_assoc 16 8). change (16 + 8) with 24. f_equal.
  rewrite <- !app_assoc. change (le_bytes (fsize fB) flags) with [flags mod 256]. rewrite Z.mod_small by done. done.
Qed.

Lemma fragment_length flags call_id ctx hint chunk : zlen (fragment flags call_id ctx hint chunk) = 24 + zlen chunk.
Proof. unfold fragment. rewrite !zlen_app. unfold zlen. rewrite !length_le_bytes. cbn. lia. Qed.

(** What a client reads in a fragment with more behind it *)
Lemma fragment_fields flags call_id ctx hint chunk rest :
  0 <= call_id < 2 ^ 32 -> 0 <= hint < 2 ^ 32 -> 0 <= 24 + zlen chunk < 2 ^ 16 ->
  let data := fragment flags call_id ctx hint chunk ++ rest in
  znth data 2 = PTYPE_RESPONSE /\ znth data 3 = flags /\ le_int (slice data 8 10) = 24 + zlen chunk /\
  le_int (slice data 12 16) = call_id /\ le_int (slice data 16 20) = hint /\
  slice data 24 (24 + zlen chunk) = chunk /\ zdrop (24 + zlen chunk) data = rest.
Proof.
  intros Hc Hh Hn data.
  assert (Hmid : forall pre n v post, data = pre ++ le_bytes n v ++ post -> 0 <= v < 256 ^ Z.of_nat n ->
    le_int (slice data (zlen pre) (zlen pre + Z.of_nat n)) = v).
  { intros pre n v post -> Hv. unfold slice. rewrite zdrop_app_length, ztake_app_length; [|unfold zlen; rewrite length_le_bytes; lia|done].
    by rewrite le_int_le_bytes, Z.mod_small. }
  split_and!.
  - done.
  - done.
  - apply (Hmid [5; 0; 2; flags; 16; 0; 0; 0] 2%nat _ _ eq_refl). done.
  - refine (Hmid ([5; 0; 2; flags; 16; 0; 0; 0] ++ le_bytes 2 (24 + zlen chunk) ++ [0; 0]) 4%nat _ _ eq_refl Hc).
  - refine (Hmid ([5; 0; 2; flags; 16; 0; 0; 0] ++ le_bytes 2 (24 + zlen chunk) ++ [0; 0] ++ le_bytes 4 call_id) 4%nat _ _ eq_refl Hh).
  - unfold slice. change data with (([5; 0; 2; flags; 16; 0; 0; 0] ++ le_bytes 2 (24 + zlen chunk) ++ [0; 0] ++ le_bytes 4 call_id
      ++ le_bytes 4 hint ++ le_bytes 2 ctx ++ [0; 0]) ++ chunk ++ rest).
    rewrite zdrop_app_length by done. apply ztake_app_length. lia.
  - apply zdrop_app_length. by rewrite fragment_length.
Qed.

(** Flags as the loop puts them together *)
Definition frag_flags (first last : bool) : Z :=
  Z.lor (if first then PFC_FIRST_FRAG else 0) (if last then PFC_LAST_FRAG else 0).

Lemma response_loop_reassembles fuel call_id ctx room limit stub first :
  0 <= call_id < 2 ^ 32 -> 0 <= ctx < 2 ^ 16 -> 0 < room <= 65000 -> room + 24 <= limit -> zlen stub < 2 ^ 32 ->
  (length stub < fuel)%nat ->
  exists out, response_loop fuel call_id ctx room stub first = Ok out /\ reassemble fuel limit call_id first out = Some stub.
Proof.
  intros Hc Hx Hroom Hlim. revert stub first. induction fuel as [|fuel IH]; intros stub first Hs Hf; [lia|].
  cbn [response_loop]. set (chunk := ztake room stub). set (rest := zdrop (zlen chunk) stub).
  assert (Hstub : stub = chunk ++ rest).
  { unfold rest, chunk. rewrite zlen_ztake. unfold ztake, zdrop. pose proof (zlen_nonneg stub).
    destruct (Z.le_gt_cases room (zlen stub)).
    - rewrite Z.min_l, Z.max_r by lia. by rewrite take_drop.
    - rewrite Z.min_r, Z.max_r by lia. unfold zlen. rewrite Nat2Z.id, drop_all, app_nil_r. rewrite take_ge; [done|unfold zlen in *; lia]. }
  assert (Hcl : 0 <= zlen chunk <= room) by (unfold chunk; rewrite zlen_ztake; pose proof (zlen_nonneg stub); lia).
  set (last := match rest with [] => true | _ => false end).
  fold (frag_flags first last).
  assert (Hsum : zlen rest + zlen chunk = zlen stub) by (rewrite Hstub at 1; rewrite zlen_app; lia).
  pose proof (zlen_nonneg rest).
  destruct (fragment_eq (frag_flags first last) call_id ctx (zlen rest + zlen chunk) chunk) as (head & -> & Hp);
    [by destruct first, last|done|done|lia|lia|].
  cbn [mbind result_bind]. rewrite Hp. cbn [mbind result_bind]. clear Hp.
  assert (Hread : forall tail, let data := fragment (frag_flags first last) call_id ctx (zlen rest + zlen chunk) chunk ++ tail in
    reassemble (S fuel) limit call_id first data =
      if last then (if (zlen rest =? 0) && bool_decide (tail = []) then Some chunk else None)
      else more ← reassemble fuel limit call_id false tail;
           if zlen rest + zlen chunk =? zlen chunk + zlen more then Some (chunk ++ more) else None).
  { intros tail data. destruct (fragment_fields (frag_flags first last) call_id ctx (zlen rest + zlen chunk) chunk tail)
      as (E1 & E2 & E3 & E4 & E5 & E6 & E7); [lia..|]. fold data in E1, E2, E3, E4, E5, E6, E7.
    cbn [reassemble]. rewrite E1, E2, E3, E4, E5, E6, E7, !Z.eqb_refl.
    assert (Hz : zlen data = 24 + zlen chunk + zlen tail) by (unfold data; by rewrite zlen_app, fragment_length).
    pose proof (zlen_nonneg tail).
    rewrite (proj2 (Z.leb_le 24 _)), (proj2 (Z.leb_le (24 + zlen chunk) _)) by lia.
    replace (has (frag_flags first last) PFC_FIRST_FRAG) with first by (by destruct first, last).
    replace (has (frag_flags first last) PFC_LAST_FRAG) with last by (by destruct first, last).
    rewrite eqb_reflx. cbn [andb]. destruct last; [|done].
    replace (zlen rest + zlen chunk =? zlen chunk) with (zlen rest =? 0); [done|].
    apply eq_bool_prop_intro. rewrite !Is_true_true, !Z.eqb_eq. lia. }
  destruct last eqn:El.
  - eexists. split; [done|]. specialize (Hread []). cbv zeta in Hread. rewrite app_nil_r in Hread. rewrite Hread.
    assert (rest = []) as Er by (unfold last in El; by destruct rest). rewrite Er, bool_decide_eq_true_2 by done. cbn.
    by rewrite Hstub, Er, app_nil_r.
  - assert (rest <> []) as Hne by (intros Er; unfold last in El; by rewrite Er in El).
    assert (0 < zlen chunk).
    { destruct (decide (zlen chunk = 0)) as [E0|]; [|lia]. exfalso. apply Hne. unfold chunk in E0. rewrite zlen_ztake in E0.
      apply zlen_0_nil. pose proof (zlen_nonneg stub). lia. }
    destruct (IH rest false) as (more & -> & Hm).
    { lia. }
    { rewrite Hstub, length_app in Hf. unfold zlen in *. lia. }
    eexists. split; [done|]. rewrite Hread, Hm. cbn [mbind option_bind].
    rewrite (proj2 (Z.eqb_eq _ _)) by lia. by rewrite <- Hstub.
Qed.

(** What the pipe answers with is always within what it agreed to. *)
Definition pipe_ok (p : pipe) : Prop := 1024 <= max_frag p <= MAX_FRAG /\ 0 <= context_id p < 2 ^ 16.

(** A response of any length comes as fragments none of which is longer than the client asked
    for, and put together they are the response. *)
Theorem response_reassembles call_id stub p :
  pipe_ok p -> 0 <= call_id < 2 ^ 32 -> zlen stub < 2 ^ 32 ->
  exists out, response call_id stub p = Ok out /\ reassemble (S (length stub)) (max_frag p) call_id true out = Some stub.
Proof.
  intros [Hm Hx] Hc Hs. unfold MAX_FRAG in Hm. unfold response. apply response_loop_reassembles; try done; lia.
Qed.

Lemma le_int_slice2 body a : is_bytes body -> 0 <= a -> 0 <= le_int (slice body a (a + 2)) < 2 ^ 16.
Proof.
  intros Hb Ha. pose proof (le_int_bound _ (is_bytes_slice body a (a + 2) Hb)) as Hi. rewrite zlen_slice in Hi by done.
  split; [lia|]. eapply Z.lt_le_trans; [apply Hi|]. change (2 ^ 16) with (256 ^ 2). apply Z.pow_le_mono_r; lia.
Qed.

Lemma znth_byte l i : is_bytes l -> 0 <= znth l i < 256.
Proof.
  intros Hb. unfold znth. destruct (Nat.lt_ge_cases (Z.to_nat i) (length l)) as [Hi|Hi]; [|by rewrite nth_overflow].
  apply (proj1 (List.Forall_forall _ _) Hb). by apply nth_In.
Qed.

Lemma bind_contexts_ok n body at_ results : is_bytes body -> 0 <= at_ ->
  holds pipe_ok (fun _ => True) (bind_contexts n body at_ results).
Proof.
  intros Hb. revert at_ results. induction n as [|n IH]; intros at_ results Ha p Hp; cbn [bind_contexts]; [done|].
  destruct (_ <? _); [done|]. pose proof (znth_byte body (at_ + 2) Hb).
  destruct (negb _); [apply IH; [lia|done]|]. destruct (_ && _); apply IH; try done; try lia.
  destruct Hp as [Hm _]. split; [done|]. by apply le_int_slice2.
Qed.

Lemma rpc_bind_ok ptype call_id body : is_bytes body -> holds pipe_ok (fun _ => True) (rpc_bind ptype call_id body).
Proof.
  intros Hb. unfold rpc_bind. destruct (_ <? _); [apply holds_raise|]. eapply holds_bind; [apply holds_lift|]. intros fields _.
  destruct fields as [|? [|max_recv [|assoc [|]]]]; try apply holds_raise. eapply holds_bind; [by apply bind_contexts_ok|]. intros results _.
  eapply holds_bind; [apply holds_mmod|]. { intros p [_ Hx]. split; [cbn; unfold MAX_FRAG; lia|done]. }
  intros _ _. eapply holds_bind; [apply holds_mget|]. intros mf _. repeat (eapply holds_bind; [apply holds_lift|]; intros ? _).
  eapply holds_true, holds_lift.
Qed.

(** Whatever a client writes to the pipe, the size of fragment agreed on and the context stay
    within their bounds. *)
Lemma transact_ok rows data : is_bytes data -> holds pipe_ok (fun _ => True) (transact rows data).
Proof.
  intros Hb. unfold transact. destruct (_ <? _); [apply holds_raise|]. destruct (_ || _); [apply holds_raise|].
  destruct (_ || _); [apply rpc_bind_ok; by apply is_bytes_slice|]. destruct (_ =? _); [|apply holds_raise].
  eapply holds_bind; [apply holds_mget|]. intros p _. destruct (negb _); eapply holds_true, holds_lift.
Qed.
