(* ===== verification/Smb1Wire.v ===== *)
(** * SMB1: the wire format

    Models the message level of [smbv1_server/smbserver_opl.py]: the header and the body of
    a message, the parsing of a request, and the SMB2 header of its unfinished SMB2 mode.
    The framing over TCP is that of [Smb2Wire], which the source repeats. *)

From S2P Require Import Prelude PyStr PyText Compressed HostOs.
From S2P Require Smb2Wire.

Definition SMB_MAGIC : bytes := 255 :: lit "SMB".
Definition SMB2_MAGIC : bytes := 254 :: lit "SMB".

Definition SMB_COM_CREATE_DIRECTORY : Z := 0.
Definition SMB_COM_CLOSE : Z := 4.
Definition SMB_COM_CHECK_DIRECTORY : Z := 16.
Definition SMB_COM_QUERY_INFORMATION_DISK : Z := 128.
Definition SMB_COM_TRANSACTION : Z := 37.
Definition SMB_COM_ECHO : Z := 43.
Definition SMB_COM_OPEN_ANDX : Z := 45.
Definition SMB_COM_READ_ANDX : Z := 46.
Definition SMB_COM_WRITE_ANDX : Z := 47.
Definition SMB_COM_TRANS2 : Z := 50.
Definition SMB_COM_TREE_DISCONNECT : Z := 113.
Definition SMB_COM_NEGOTIATE : Z := 114.
Definition SMB_COM_SESSION_SETUP_ANDX : Z := 115.
Definition SMB_COM_LOGOFF_ANDX : Z := 116.
Definition SMB_COM_TREE_CONNECT_ANDX : Z := 117.
Definition SMB_COM_NT_CREATE_ANDX : Z := 162.
Definition SMB_COM_NONE : Z := 255.

Definition STATUS_SUCCESS : Z := 0.
Definition STATUS_NOT_IMPLEMENTED : Z := 3221225474.
Definition STATUS_ACCESS_DENIED : Z := 3221225506.
Definition STATUS_OBJECT_NAME_NOT_FOUND : Z := 3221225524.
Definition STATUS_OBJECT_NAME_COLLISION : Z := 3221225525.
Definition STATUS_LOGON_FAILURE : Z := 3221225581.

Definition CAP_LARGE_FILES : Z := 8.
Definition CAP_NT_SMBS : Z := 16.
Definition CAP_STATUS32 : Z := 64.
Definition CAP_LARGE_READX : Z := 16384.
Definition SERVER_CAPS : Z := Z.lor (Z.lor (Z.lor CAP_NT_SMBS CAP_STATUS32) CAP_LARGE_FILES) CAP_LARGE_READX.
Definition FLAGS2 : Z := 16385.
Definition FLAGS1_REPLY : Z := 128.
Definition ATTR_NORMAL : Z := 128.
Definition ATTR_DIRECTORY : Z := 16.

Definition FILE_SUPERSEDE : Z := 0.
Definition FILE_OPEN : Z := 1.
Definition FILE_CREATE : Z := 2.
Definition FILE_OPEN_IF : Z := 3.
Definition FILE_OVERWRITE : Z := 4.
Definition FILE_OVERWRITE_IF : Z := 5.
Definition FILE_SUPERSEDED : Z := 0.
Definition FILE_OPENED : Z := 1.
Definition FILE_CREATED : Z := 2.
Definition FILE_OVERWRITTEN : Z := 3.
Definition FILE_DIRECTORY_FILE : Z := 1.

Definition TRANS2_FIND_FIRST2 : Z := 1.
Definition TRANS2_FIND_NEXT2 : Z := 2.
Definition TRANS2_QUERY_PATH_INFORMATION : Z := 5.
Definition SMB_QUERY_FILE_BASIC_INFO : Z := 257.
Definition SMB_QUERY_FILE_STANDARD_INFO : Z := 258.

(** ** Fields and strings *)

(** [struct.pack(fmt, *values)] where the number of values may be wrong *)
Definition pack_values (fs : list fmt) (vs : list Z) : result bytes :=
  if (length fs =? length vs)%nat then struct_result (pack (zip fs vs)) else Err StructError.

(** [struct.unpack_from("<H", bs, off)[0]] and the same with ["<I"] *)
Definition int_at (n : nat) (bs : bytes) (off : Z) : result Z :=
  if off + Z.of_nat n <=? zlen bs then Ok (le_int (slice bs off (off + Z.of_nat n))) else Err StructError.
Definition u16_at : bytes -> Z -> result Z := int_at 2.
Definition u32_at : bytes -> Z -> result Z := int_at 4.

(** [d[:d.index(0)]], all of [d] where there is no zero *)
Fixpoint z_string (d : bytes) : bytes :=
  match d with
  | [] => []
  | c :: d => if c =? 0 then [] else c :: z_string d
  end.

(** [bytes.decode("ascii", "ignore")] and [str.encode("ascii", "ignore")] *)
Definition ascii_only (d : list Z) : list Z := List.filter (fun c => c <? 128) d.

(** [raw.decode("utf-16-le", "ignore")] *)
Fixpoint utf16_ignore (raw : bytes) : text :=
  match raw with
  | a :: b :: t =>
      let u := a + 256 * b in
      if Smb2Wire.is_high u then
        match t with
        | c :: d :: t' =>
            let v := c + 256 * d in
            if Smb2Wire.is_low v then (65536 + (u - 55296) * 1024 + (v - 56320)) :: utf16_ignore t'
            else utf16_ignore t
        | _ => []
        end
      else (if Smb2Wire.is_low u then [] else [u]) ++ utf16_ignore t
  | _ => []
  end.

(** ** Messages *)

(** [pack_header] *)
Definition pack_header (cmd status tid pid uid mid : Z) : bytes :=
  SMB_MAGIC ++ [cmd; Z.land status 255; 0] ++ le_bytes 2 (Z.land (Z.shiftr status 16) 65535) ++ [FLAGS1_REPLY]
  ++ le_bytes 2 FLAGS2 ++ zeros 12 ++ le_bytes 2 (Z.land tid 65535) ++ le_bytes 2 (Z.land pid 65535)
  ++ le_bytes 2 (Z.land uid 65535) ++ le_bytes 2 (Z.land mid 65535).

Record req := Req {
  cmd : Z;
  tid : Z;
  pid : Z;
  uid : Z;
  mid : Z;
  msg : bytes;
  wordcount : Z;
  params : bytes;
  data : bytes
}.

(** [Req.__init__], for a message of at least 33 bytes *)
Definition parse_req (m : bytes) : req :=
  let wc := znth m 32 in
  let bc_off := 33 + wc * 2 in
  let bc := if bc_off + 2 <=? zlen m then le_int (slice m bc_off (bc_off + 2)) else 0 in
  Req (znth m 4) (le_int (slice m 24 26)) (le_int (slice m 26 28)) (le_int (slice m 28 30)) (le_int (slice m 30 32)) m
    wc (slice m 33 (33 + wc * 2)) (slice m (bc_off + 2) (bc_off + 2 + bc)).

(** [build_body] *)
Definition build_body (ps d : bytes) : result bytes :=
  if negb (zlen ps mod 2 =? 0) then Err AssertionError
  else
    if 255 <? zlen ps / 2 then Err ValueError
    else n ← struct_result (pack [(fH, zlen d)]); Ok (zlen ps / 2 :: ps ++ n ++ d).

(** ** The header of the SMB2 mode: 66 bytes, not the 64 of SMB2 *)

(** [pack_smb2_hdr] *)
Definition pack_smb2_hdr (cmd status message_id session_id : Z) : result bytes :=
  fields ← struct_result (pack [(fH, 64); (fH, 0); (fI, status); (fI, cmd); (fH, 1); (fI, 1); (fI, 0); (fQ, message_id);
                                (fQ, 0); (fQ, session_id)]);
  Ok (SMB2_MAGIC ++ fields ++ zeros 16).

(** [Smb2Req]: the command, the message and the session *)
Definition parse_smb2_req (m : bytes) : result (Z * Z * Z) :=
  if zlen m <? 66 then Err StructError
  else
    fields ← struct_result (unpack_from [fH; fH; fI; fI; fH; fI; fI; fQ; fQ; fQ] m 4);
    match fields with
    | [_; _; _; c; _; _; _; message; _; session] => Ok (c, message, session)
    | _ => Err StructError
    end.

(** [h2_negotiate] *)
Definition h2_negotiate (smb_version : Z) : result bytes :=
  let dialect := if smb_version =? 3 then 768 else 514 in
  let blob := [96; 9; 6; 7; 43; 6; 1; 4; 1; 130; 55; 2; 2; 10] in
  a ← struct_result (pack [(fH, 65); (fH, 1); (fH, dialect)]);
  b ← struct_result (pack [(fI, 1); (fI, 65536); (fI, 65536); (fI, 65536); (fQ, 0); (fQ, 0); (fH, 128); (fH, zlen blob); (fH, 0)]);
  Ok (a ++ seqZ 1 16 ++ b ++ blob).

(** The bodies of [h2_session_setup], [h2_create], [h2_read], [h2_write], [h2_echo] and
    [h2_generic_ok], and those of [h2_tree_connect] and [h2_close], which have a value more
    than their format *)
Definition h2_session_setup_body : result bytes := struct_result (pack [(fH, 9); (fH, 1); (fH, 0); (fH, 0)]).
Definition h2_tree_connect : result bytes := pack_values [fB; fB; fI; fI] [16; 1; 0; 48; 983071].
Definition h2_create : result bytes :=
  a ← struct_result (pack [(fB, 89); (fB, 0); (fI, 1); (fQ, 0); (fQ, 0); (fQ, 0); (fQ, 0); (fQ, 0); (fQ, 0); (fI, 32); (fI, 0)]);
  Ok (a ++ [1; 0; 0; 0; 0; 0; 0; 0; 1; 0; 0; 0; 0; 0; 0; 0] ++ zeros 8).
Definition h2_read : result bytes := struct_result (pack [(fB, 16); (fB, 80); (fI, 0); (fB, 0); (fI, 0)]).
Definition h2_write : result bytes := struct_result (pack [(fH, 17); (fH, 0); (fI, 0); (fI, 0)]).
Definition h2_close : result bytes :=
  pack_values [fH; fH; fQ; fQ; fQ; fQ; fQ; fI] [60; 0; 0; 0; 0; 0; 0; 0; 0].
Definition h2_echo : result bytes := struct_result (pack [(fH, 4); (fH, 0)]).
Definition h2_generic_ok : result bytes := struct_result (pack [(fH, 4); (fH, 0)]).
