(* ===== verification/Smb1Server.v ===== *)
(** * The SMB1 server

    Models [smbv1_server/smbserver_opl.py]: [Share], [Conn] and its open files and searches,
    the handlers of the commands, and [serve_conn], the thread of one connection.

    One connection runs in [smb1]: the host, the connection's state, what is still to arrive
    on the socket, what was sent, the clock and the session summary.  A handler answers the
    parameters (none for an error), the data, the status, and the UID and TID of the reply
    where they differ from the request's.  The counters that only feed log lines are left
    out.  In the SMB2 mode the same thread answers from the unfinished handlers of [Smb1Wire]. *)

From S2P Require Import Prelude Tables PyStr PyText SessionStats Compressed HostOs.
From S2P Require Import Smb2Wire Smb2Auth Smb2Paths Smb1Wire.

(** [open(path, "xb")] *)
Class ExclusiveOs (Os : Type) `{!HostOs Os} := { os_create : str -> M Os Z }.

(** ** Shares *)

Record share := Share { sh_name : text; sh_root : str }.

Section share.
Context {Os : Type} `{HostOs Os}.

(** [Share.__init__] *)
Definition new_share (name : text) (root : str) (o : Os) : result share := root ← realpath root o; Ok (Share name root).

(** [Share.resolve]; [_inside] is the method of the same name in [smb2_paths.py]. *)
Definition resolve (s : share) (smb_path : text) (o : Os) : result (option str) :=
  let p := strip_leading (Z.eqb SLASH) (replace_char BACKSLASH SLASH smb_path) in
  full ← realpath (path_join (sh_root s) p) o;
  Ok (if inside (sh_root s) full then Some full else None).

(** [os.path.isfile] *)
Definition path_isfile (p : str) (o : Os) : result bool :=
  match os_stat p o with
  | Ok st => Ok (S_ISREG st)
  | Err (OSError _) | Err ValueError => Ok false
  | Err e => Err e
  end.
End share.

(** ** State *)

(** A value of [conn.trees] *)
Inductive tree := Disk (s : share) | Ipc.

(** [OpenFile] *)
Record open_file := OpenFile { of_path : str; of_is_dir : bool; of_size : Z; of_fh : option Z }.

(** An entry of a search: the name and the path that describes it *)
Abbreviation entry := (text * str)%type.

(** [Conn] *)
Record conn := Conn {
  c_uid : Z;
  next_fid : Z;
  next_tid : Z;
  next_sid : Z;
  trees : list (Z * tree);
  files : list (Z * open_file);
  searches : list (Z * (list entry * Z))
}.

#[export] Instance eta_conn : Eta conn := fun c =>
  Conn (c_uid c) (next_fid c) (next_tid c) (next_sid c) (trees c) (files c) (searches c).

(** [Conn.__init__] *)
Definition new_conn : conn := Conn 0 4096 1 1 [] [] [].

(** [SmbServer]; [users] by their folded names *)
Record server := Server { shares : list (text * share); read_only : bool; smb_version : Z; users : list (text * text) }.

(** [dict.get] *)
Definition get_text {A} (k : text) (l : list (text * A)) : option A :=
  match List.find (fun ka => str_eqb (fst ka) k) l with Some ka => Some (snd ka) | None => None end.

(** What a handler answers *)
Record reply := Reply { r_params : option bytes; r_data : bytes; r_status : Z; r_uid : option Z; r_tid : option Z }.

Definition done (ps d : bytes) : reply := Reply (Some ps) d STATUS_SUCCESS None None.
Definition refuse (st : Z) : reply := Reply None [] st None None.

Section smb1.
Context {Os : Type} `{ExclusiveOs Os} `{CaseFolding} `{FloatTime} (srv : server).

Record smb1 := Smb1 {
  host : Os;
  cn : conn;
  incoming : list arrival;
  out : bytes;
  send_faults : list (option (Z * option Z));
  clock : Z;
  summary : option (SessionStats.stats Z);
  peer : Z
}.

#[export] Instance eta_smb1 : Eta smb1 := fun w =>
  Smb1 (host w) (cn w) (incoming w) (out w) (send_faults w) (clock w) (summary w) (peer w).

Definition on_host {A} (m : M Os A) : M smb1 A := fun w => let '(r, o) := m (host w) in (r, w <| host := o |>).
Definition ask {A} (f : Os -> result A) : M smb1 A := fun w => (f (host w), w).
Definition cget {A} (f : conn -> A) : M smb1 A := mget (fun w => f (cn w)).
Definition cmod (f : conn -> conn) : M smb1 unit := mmod (fun w => w <| cn ::= f |>).
Definition packed (fvs : list (fmt * Z)) : M smb1 bytes := lift (struct_result (pack fvs)).

(** [except OSError]: the errno, where there is one *)
Definition attempt {A} (m : M smb1 A) : M smb1 (A + option Z) :=
  mcatch (a ← m; mret (inl a)) (fun e => match e with OSError n => Some (mret (inr n)) | _ => None end).

(** [_session_record] *)
Definition session_record (k : SessionStats.kind) (n : Z) : M smb1 unit :=
  mmod (fun w => w <| summary ::= fmap (SessionStats.record (peer w) k n (clock w)) |>).

(** [OpenFile.__init__] *)
Definition open_file_at (p : str) (is_dir : bool) : M smb1 open_file :=
  if is_dir then mret (OpenFile p true 0 None)
  else st ← ask (os_stat p); f ← on_host (os_open p m_rb); mret (OpenFile p false (st_size st) (Some f)).

(** [OpenFile.close], of an object that is in no table any more *)
Definition close_file (f : open_file) : M smb1 unit :=
  match of_fh f with
  | None => mret tt
  | Some fh => _ ← attempt (on_host (f_close fh)); mret tt
  end.

(** [(n + 1) & 0xFFFF or first] *)
Definition next_id (first n : Z) : Z := let m := Z.land (n + 1) 65535 in if m =? 0 then first else m.

(** [alloc_fid], [alloc_tid] and [alloc_sid] *)
Definition alloc_fid : M smb1 Z := _ ← cmod (fun c => c <| next_fid ::= next_id 4096 |>); cget next_fid.
Definition alloc_tid : M smb1 Z := _ ← cmod (fun c => c <| next_tid ::= next_id 1 |>); cget next_tid.
Definition alloc_sid : M smb1 Z := _ ← cmod (fun c => c <| next_sid ::= next_id 1 |>); cget next_sid.

(** [cleanup] *)
Fixpoint close_files (l : list (Z * open_file)) : M smb1 unit :=
  match l with
  | [] => mret tt
  | (_, f) :: l => _ ← close_file f; close_files l
  end.
Definition cleanup : M smb1 unit := l ← cget files; _ ← close_files l; cmod (fun c => c <| files := [] |>).

(** [with open(path, mode) as f:] *)
Definition with_open {A} (opens : M Os Z) (k : Z -> M smb1 A) : M smb1 A :=
  f ← on_host opens;
  a ← mcatch (k f) (fun e => Some (_ ← on_host (f_close f); raise e));
  _ ← on_host (f_close f);
  mret a.

(** ** NEGOTIATE and SESSION_SETUP *)

(** The dialects of a NEGOTIATE: what follows a byte 2, up to a zero; [fuel] is the length. *)
Fixpoint dialects_of (fuel : nat) (d : bytes) : list text :=
  match fuel, d with
  | S fuel, c :: d =>
      if c =? 2 then ascii_only (z_string d) :: dialects_of fuel (zdrop (zlen (z_string d) + 1) d)
      else dialects_of fuel d
  | _, _ => []
  end.

(** [list.index] *)
Fixpoint index_of (x : text) (l : list text) : option Z :=
  match l with
  | [] => None
  | y :: l => if str_eqb y x then Some 0 else i ← index_of x l; Some (1 + i)
  end.

(** The first of the names that the client offers *)
Fixpoint first_index (names : list text) (dialects : list text) : option Z :=
  match names with
  | [] => None
  | n :: names => match index_of n dialects with Some i => Some i | None => first_index names dialects end
  end.

Definition negotiate_reply (idx mode : Z) : M smb1 reply :=
  ps ← packed [(fH, idx); (fB, mode); (fH, 1); (fH, 1); (fI, 65535); (fI, 65536); (fI, 0); (fI, SERVER_CAPS); (fq, 0);
               (fH, 0); (fB, 0)];
  mret (done ps (lit "WORKGROUP" ++ [0])).

(** [h_negotiate] *)
Definition h_negotiate (r : req) : M smb1 reply :=
  let dialects := dialects_of (length (data r)) (data r) in
  let smb2 := if (smb_version srv =? 2) || (smb_version srv =? 3)
              then first_index [lit "SMB 2.002"; lit "SMB 2.??? "; lit "2.002"; lit "2.10"] dialects else None in
  match smb2 with
  | Some i => negotiate_reply i 2
  | None => negotiate_reply (default 0 (index_of (lit "NT LM 0.12") dialects)) 0
  end.

(** [_parse_session_setup] *)
Definition parse_session_setup (r : req) : result (text * text) :=
  if wordcount r <? 13 then Ok ([], [])
  else
    ansi_len ← u16_at (params r) 14;
    uni_len ← u16_at (params r) 16;
    let d := data r in
    let uni_pw := slice d ansi_len (ansi_len + uni_len) in
    let account := ascii_only (z_string (zdrop (ansi_len + uni_len) d)) in
    let password := ascii_only (rstrip 0 (ztake ansi_len d)) in
    Ok (account, match password with
                 | [] => rstrip 0 (utf16_ignore uni_pw)
                 | _ => password
                 end).

(** [hmac.compare_digest] of two [str]: a [TypeError] unless both are ASCII *)
Definition compare_digest (a b : text) : result bool :=
  if forallb (fun c => c <? 128) a && forallb (fun c => c <? 128) b then Ok (str_eqb a b) else Err TypeError.

(** The check of [h_session_setup]: the action, or none where the logon is refused *)
Definition check_user (r : req) : result (option Z) :=
  match users srv with
  | [] => Ok (Some 1)
  | _ =>
      '(account, password) ← parse_session_setup r;
      match get_text (py_casefold account) (users srv) with
      | None => Ok None
      | Some expected => same ← compare_digest password expected; Ok (if (same : bool) then Some 0 else None)
      end
  end.

(** [h_session_setup] *)
Definition h_session_setup (r : req) : M smb1 reply :=
  action ← lift (check_user r);
  match action with
  | None => mret (refuse STATUS_LOGON_FAILURE)
  | Some action =>
      _ ← cmod (fun c => c <| c_uid ::= fun u => if u =? 0 then 2048 else u |>);
      ps ← packed [(fB, SMB_COM_NONE); (fB, 0); (fH, 0); (fH, action)];
      u ← cget c_uid;
      mret (Reply (Some ps) (lit "OPLSMB" ++ [0] ++ lit "OPLSMB" ++ [0]) STATUS_SUCCESS (Some u) None)
  end.

(** ** Trees *)

(** [_parse_treeconnect_path] *)
Definition parse_treeconnect_path (r : req) : result text :=
  pwlen ← (if 4 <=? wordcount r then u16_at (params r) 6 else Ok 1);
  let path := ascii_only (z_string (zdrop pwlen (data r))) in
  let p := rstrip BACKSLASH (replace_char SLASH BACKSLASH path) in
  Ok (zdrop (rfind BACKSLASH p + 1) p).

(** The share a TREE_CONNECT means; the only one where there is one *)
Definition share_named (name : text) : option share :=
  match get_text name (shares srv) with
  | Some s => Some s
  | None =>
      match get_text (py_lowercase name) (shares srv) with
      | Some s => Some s
      | None => match shares srv with [(_, s)] => Some s | _ => None end
      end
  end.

(** [h_tree_connect] *)
Definition h_tree_connect (r : req) : M smb1 reply :=
  name ← lift (parse_treeconnect_path r);
  tid ← alloc_tid;
  let connect t service :=
    _ ← cmod (fun c => c <| trees ::= aset tid t |>);
    ps ← packed [(fB, SMB_COM_NONE); (fB, 0); (fH, 0); (fH, 1)];
    mret (Reply (Some ps) (service ++ lit "NTFS" ++ [0]) STATUS_SUCCESS None (Some tid)) in
  if str_eqb (py_upper name) (lit "IPC$") then connect Ipc (lit "IPC" ++ [0])
  else
    match share_named name with
    | None => mret (refuse STATUS_OBJECT_NAME_NOT_FOUND)
    | Some s => connect (Disk s) (lit "A:" ++ [0])
    end.

(** [_share_for_tid] *)
Definition share_for_tid (r : req) : M smb1 (option share) :=
  t ← cget (fun c => alookup (tid r) (trees c));
  mret (match t with Some (Disk s) => Some s | _ => None end).

(** [h_tree_disconnect] *)
Definition h_tree_disconnect (r : req) : M smb1 reply :=
  _ ← cmod (fun c => c <| trees ::= adelete (tid r) |>); mret (done [] []).

(** ** Opening *)

(** [conn.files[fid] = of] for a new [fid] *)
Definition add_file (f : open_file) : M smb1 Z :=
  fid ← alloc_fid; _ ← cmod (fun c => c <| files ::= aset fid f |>); mret fid.

(** [h_open_andx] *)
Definition h_open_andx (r : req) : M smb1 reply :=
  sh ← share_for_tid r;
  let name := ascii_only (z_string (data r)) in
  match sh with
  | None => mret (refuse STATUS_OBJECT_NAME_NOT_FOUND)
  | Some s =>
      local ← ask (resolve s name);
      match local with
      | None => mret (refuse STATUS_OBJECT_NAME_NOT_FOUND)
      | Some p =>
          file ← ask (path_isfile p);
          if negb file then mret (refuse STATUS_OBJECT_NAME_NOT_FOUND)
          else
            f ← open_file_at p false;
            fid ← add_file f;
            ps ← packed [(fB, SMB_COM_NONE); (fB, 0); (fH, 0); (fH, fid); (fH, 0); (fI, 0);
                         (fI, Z.land (of_size f) 4294967295); (fH, 0); (fH, 0); (fH, 0); (fH, 1); (fI, 0); (fH, 0)];
            mret (done ps [])
      end
  end.

Definition make_empty (p : str) : M smb1 unit := with_open (os_open p m_wb) (fun _ => mret tt).
Definition make_new (p : str) : M smb1 unit := with_open (os_create p) (fun _ => mret tt).

(** A call that makes a name: the refusal, where it fails *)
Definition making (m : M smb1 unit) : M smb1 (option Z) :=
  r ← attempt m;
  mret (match r with
        | inl _ => None
        | inr e => Some (if bool_decide (e = Some EEXIST) then STATUS_OBJECT_NAME_COLLISION else STATUS_ACCESS_DENIED)
        end).

(** What [h_nt_create_andx] does to the host before it opens the file: the action, or the
    status that refuses *)
Definition create_action (p : str) (disposition : Z) (requested_dir : bool) : M smb1 (Z + Z) :=
  there ← ask (path_exists p);
  if (there : bool) then
    dir ← ask (path_isdir p);
    if disposition =? FILE_CREATE then mret (inr STATUS_OBJECT_NAME_COLLISION)
    else if requested_dir && negb dir then mret (inr STATUS_ACCESS_DENIED)
    else if existsb (Z.eqb disposition) [FILE_SUPERSEDE; FILE_OVERWRITE; FILE_OVERWRITE_IF] then
      if read_only srv || dir then mret (inr STATUS_ACCESS_DENIED)
      else
        e ← attempt (make_empty p);
        mret (match e with
              | inl _ => inl (if disposition =? FILE_SUPERSEDE then FILE_SUPERSEDED else FILE_OVERWRITTEN)
              | inr _ => inr STATUS_ACCESS_DENIED
              end)
    else mret (inl FILE_OPENED)
  else if existsb (Z.eqb disposition) [FILE_OPEN; FILE_OVERWRITE] then mret (inr STATUS_OBJECT_NAME_NOT_FOUND)
  else if read_only srv then mret (inr STATUS_ACCESS_DENIED)
  else
    parent ← ask (path_isdir (dirname p));
    if negb parent then mret (inr STATUS_OBJECT_NAME_NOT_FOUND)
    else
      e ← making (if requested_dir then on_host (os_mkdir p 511) else make_new p);
      mret (match e with None => inl FILE_CREATED | Some st => inr st end).

(** The answer to an NT_CREATE_ANDX that succeeds *)
Definition created_reply (fid action mtime size : Z) (dir : bool) : M smb1 reply :=
  ps ← packed [(fB, SMB_COM_NONE); (fB, 0); (fH, 0); (fB, 0); (fH, fid); (fI, action); (fq, mtime); (fq, mtime); (fq, mtime);
               (fq, mtime); (fI, if dir then ATTR_DIRECTORY else ATTR_NORMAL); (fQ, size); (fQ, size); (fH, 0); (fH, 0);
               (fB, if dir then 1 else 0)];
  mret (done ps []).

(** NT_CREATE_ANDX after its fields are read *)
Definition nt_create (s : share) (name : text) (disposition : Z) (requested_dir : bool) : M smb1 reply :=
  local ← ask (resolve s name);
  match local with
  | None => mret (refuse STATUS_ACCESS_DENIED)
  | Some p =>
      action ← create_action p disposition requested_dir;
      match action with
      | inr st => mret (refuse st)
      | inl action =>
          dir ← ask (path_isdir p);
          opened ← attempt (f ← open_file_at p dir; st ← ask (os_stat p); mret (f, to_filetime (st_mtime st)));
          match opened with
          | inr _ => mret (refuse STATUS_ACCESS_DENIED)
          | inl (f, mtime) => fid ← add_file f; created_reply fid action mtime (of_size f) dir
          end
      end
  end.

(** [h_nt_create_andx] *)
Definition h_nt_create_andx (r : req) : M smb1 reply :=
  sh ← share_for_tid r;
  match sh with
  | None => mret (refuse STATUS_OBJECT_NAME_NOT_FOUND)
  | Some s =>
      if zlen (params r) <? 39 then mret (refuse STATUS_ACCESS_DENIED)
      else
        name_len ← lift (u16_at (params r) 5);
        disposition ← lift (u32_at (params r) 35);
        options ← (if 43 <=? zlen (params r) then lift (u32_at (params r) 39) else mret 0);
        if FILE_OVERWRITE_IF <? disposition then mret (refuse STATUS_ACCESS_DENIED)
        else
          let raw := match data r with 0 :: d => d | d => d end in
          nt_create s (ascii_only (z_string (ztake name_len raw))) disposition (has options FILE_DIRECTORY_FILE)
  end.

(** ** Reading and writing *)

(** [h_read_andx] *)
Definition h_read_andx (r : req) : M smb1 reply :=
  let p := params r in
  fid ← lift (u16_at p 4);
  off_low ← lift (u32_at p 6);
  count_low ← lift (u16_at p 10);
  count_high ← lift (u16_at p 14);
  off_high ← (if 24 <=? zlen p then lift (u32_at p 20) else mret 0);
  let maxcount := Z.lor count_low (Z.shiftl count_high 16) in
  let offset := Z.lor off_low (Z.shiftl off_high 32) in
  let requested := if negb (maxcount =? 0) then Z.min maxcount 65535 else 0 in
  f ← cget (fun c => alookup fid (files c));
  match f ≫= of_fh with
  | None => mret (refuse STATUS_OBJECT_NAME_NOT_FOUND)
  | Some fh =>
      _ ← on_host (f_seek fh offset 0);
      chunk ← on_host (f_read fh requested);
      let n := zlen chunk in
      ps ← packed [(fB, SMB_COM_NONE); (fB, 0); (fH, 0); (fH, 0); (fH, 0); (fH, 0); (fH, Z.land n 65535); (fH, 59);
                   (fI, Z.shiftr n 16)];
      mret (done (ps ++ zeros 6) chunk)
  end.

(** [h_write_andx] *)
Definition h_write_andx (r : req) : M smb1 reply :=
  if read_only srv then mret (refuse STATUS_ACCESS_DENIED)
  else
    let p := params r in
    fid ← lift (u16_at p 4);
    off_low ← lift (u32_at p 6);
    len_high ← lift (u16_at p 18);
    len_low ← lift (u16_at p 20);
    data_off ← lift (u16_at p 22);
    off_high ← (if 28 <=? zlen p then lift (u32_at p 24) else mret 0);
    let n := Z.lor len_low (Z.shiftl len_high 16) in
    f ← cget (fun c => alookup fid (files c));
    match f with
    | None => mret (refuse STATUS_ACCESS_DENIED)
    | Some f =>
        let payload := slice (msg r) data_off (data_off + n) in
        e ← attempt (with_open (os_open (of_path f) m_rpb) (fun w =>
               _ ← on_host (f_seek w (Z.lor off_low (Z.shiftl off_high 32)) 0);
               _ ← on_host (f_write w payload);
               mret tt));
        match e with
        | inr _ => mret (refuse STATUS_ACCESS_DENIED)
        | inl _ =>
            ps ← packed [(fB, SMB_COM_NONE); (fB, 0); (fH, 0); (fH, Z.land (zlen payload) 65535); (fH, 0); (fH, 0); (fH, 0)];
            mret (done ps [])
        end
    end.

(** [h_close] *)
Definition h_close (r : req) : M smb1 reply :=
  fid ← (if 2 <=? zlen (params r) then lift (u16_at (params r) 0) else mret 0);
  f ← cget (fun c => alookup fid (files c));
  match f with
  | None => mret (done [] [])
  | Some f => _ ← cmod (fun c => c <| files ::= adelete fid |>); _ ← close_file f; mret (done [] [])
  end.

(** [h_echo], [h_logoff] and [h_query_disk] *)
Definition h_echo (r : req) : M smb1 reply := ps ← packed [(fH, 1)]; mret (done ps (data r)).
Definition h_logoff (r : req) : M smb1 reply := ps ← packed [(fB, SMB_COM_NONE); (fB, 0); (fH, 0)]; mret (done ps []).
Definition h_query_disk (r : req) : M smb1 reply :=
  ps ← packed [(fH, 65535); (fH, 64); (fH, 512); (fH, 65535); (fH, 0)]; mret (done ps []).

(** ** Directories *)

(** [h_create_directory] *)
Definition h_create_directory (r : req) : M smb1 reply :=
  if read_only srv then mret (refuse STATUS_ACCESS_DENIED)
  else
    sh ← share_for_tid r;
    match sh with
    | None => mret (refuse STATUS_OBJECT_NAME_NOT_FOUND)
    | Some s =>
        let raw := match data r with 4 :: d => d | d => d end in
        local ← ask (resolve s (ascii_only (z_string raw)));
        match local with
        | None => mret (refuse STATUS_ACCESS_DENIED)
        | Some p =>
            there ← ask (path_exists p);
            if (there : bool) then mret (refuse STATUS_OBJECT_NAME_COLLISION)
            else
              parent ← ask (path_isdir (dirname p));
              if negb parent then mret (refuse STATUS_OBJECT_NAME_NOT_FOUND)
              else
                e ← making (on_host (os_mkdir p 511));
                mret (match e with None => done [] [] | Some st => refuse st end)
        end
    end.

(** [name or "\\"] *)
Definition or_root (name : text) : text := match name with [] => [BACKSLASH] | _ => name end.

(** [h_check_directory] *)
Definition h_check_directory (r : req) : M smb1 reply :=
  sh ← share_for_tid r;
  match sh with
  | None => mret (refuse STATUS_OBJECT_NAME_NOT_FOUND)
  | Some s =>
      local ← ask (resolve s (or_root (ascii_only (z_string (data r)))));
      match local with
      | None => mret (refuse STATUS_OBJECT_NAME_NOT_FOUND)
      | Some p =>
          dir ← ask (path_isdir p);
          mret (if (dir : bool) then done [] [] else refuse STATUS_OBJECT_NAME_NOT_FOUND)
      end
  end.

(** ** TRANS2 and TRANSACTION *)

(** [_trans2_parse]: the subcommand, the parameters and the data *)
Definition trans2_parse (r : req) : result (Z * bytes * bytes) :=
  let p := params r in
  param_count ← u16_at p 18;
  param_off ← u16_at p 20;
  data_count ← u16_at p 22;
  data_off ← u16_at p 24;
  if zlen p <? 27 then Err IndexError
  else
    setup ← (if 1 <=? znth p 26 then u16_at p 28 else Ok 0);
    Ok (setup, slice (msg r) param_off (param_off + param_count), slice (msg r) data_off (data_off + data_count)).

(** The answer of [_build_trans2_reply] and of [h_transaction]: parameters and data, each at a
    multiple of four from the start of the header *)
Definition trans_reply (t_params t_data : bytes) : M smb1 reply :=
  let base := 55 in
  let param_off := Z.land (base + 3) (Z.lnot 3) in
  let data_start := param_off + zlen t_params in
  let data_off := Z.land (data_start + 3) (Z.lnot 3) in
  ps ← packed [(fH, zlen t_params); (fH, zlen t_data); (fH, 0); (fH, zlen t_params); (fH, param_off); (fH, 0);
               (fH, zlen t_data); (fH, data_off); (fH, 0); (fB, 0); (fB, 0)];
  mret (done ps (zeros (param_off - base) ++ t_params ++ zeros (data_off - data_start) ++ t_data)).

(** [_dir_entry_104] *)
Definition dir_entry_104 (e : entry) : M smb1 bytes :=
  let '(name, p) := e in
  found ← attempt (st ← ask (os_stat p); dir ← ask (path_isdir p); mret (dir, if (dir : bool) then 0 else st_size st, to_filetime (st_mtime st)));
  let '(dir, size, ft) := match found with
                          | inl x => x
                          | inr _ => (str_eqb name [DOT] || str_eqb name [DOT; DOT], 0, 0)
                          end in
  let nb := ascii_only name in
  fields ← packed [(fI, 0); (fI, 0); (fq, ft); (fq, ft); (fq, ft); (fq, ft); (fQ, size); (fQ, size);
                   (fI, if (dir : bool) then ATTR_DIRECTORY else ATTR_NORMAL); (fI, zlen nb); (fI, 0); (fB, 0); (fB, 0)];
  mret (fields ++ zeros 24 ++ nb).

(** The folder of a search pattern: without the wildcard at its end *)
Definition search_dir (pattern : text) : text :=
  let d := replace_char SLASH BACKSLASH pattern in
  if endswith d [BACKSLASH; 42] then ztake (zlen d - 2) d
  else if endswith d [42] then ztake (zlen d - 1) d
  else d.

(** The entries of a folder: itself, its parent, and its names in order *)
Definition entries_of (p : str) (names : list str) : list entry :=
  ([DOT], p) :: ([DOT; DOT], p)
  :: map (fun n => (code_points n, path_join p n)) (sorted (fun a b => points_leb (code_points a) (code_points b)) names).

(** [h_trans2_find_first2] *)
Definition h_trans2_find_first2 (r : req) (t_params : bytes) : M smb1 reply :=
  let pattern := ascii_only (z_string (zdrop 12 t_params)) in
  sh ← share_for_tid r;
  match sh with
  | None => mret (refuse STATUS_OBJECT_NAME_NOT_FOUND)
  | Some s =>
      local ← ask (resolve s (or_root (search_dir pattern)));
      match local with
      | None => mret (refuse STATUS_OBJECT_NAME_NOT_FOUND)
      | Some p =>
          dir ← ask (path_isdir p);
          if negb dir then mret (refuse STATUS_OBJECT_NAME_NOT_FOUND)
          else
            names ← attempt (ask (os_listdir p));
            match names with
            | inr _ => mret (refuse STATUS_OBJECT_NAME_NOT_FOUND)
            | inl names =>
                let entries := entries_of p names in
                let eos := if (length entries =? 1)%nat then 1 else 0 in
                sid ← alloc_sid;
                _ ← cmod (fun c => c <| searches ::= aset sid (entries, 1) |>);
                rp ← packed [(fH, sid); (fH, 1); (fH, eos); (fH, 0); (fH, 0)];
                rd ← dir_entry_104 ([DOT], p);
                trans_reply rp rd
            end
      end
  end.

Definition search_over : M smb1 reply :=
  rp ← packed [(fH, 0); (fH, 1); (fH, 0); (fH, 0)]; trans_reply rp [].

(** [h_trans2_find_next2] *)
Definition h_trans2_find_next2 (t_params : bytes) : M smb1 reply :=
  sid ← lift (u16_at t_params 0);
  state ← cget (fun c => alookup sid (searches c));
  match state with
  | None => search_over
  | Some (entries, cursor) =>
      match entries !! Z.to_nat cursor with
      | None => _ ← cmod (fun c => c <| searches ::= adelete sid |>); search_over
      | Some e =>
          let eos := if cursor =? Z.of_nat (length entries) - 1 then 1 else 0 in
          _ ← cmod (fun c => c <| searches ::= aset sid (entries, cursor + 1) |>);
          rp ← packed [(fH, 1); (fH, eos); (fH, 0); (fH, 0)];
          rd ← dir_entry_104 e;
          trans_reply rp rd
      end
  end.

(** [h_trans2_query_path] *)
Definition h_trans2_query_path (r : req) (t_params : bytes) : M smb1 reply :=
  level ← lift (u16_at t_params 0);
  let name := ascii_only (z_string (zdrop 6 t_params)) in
  sh ← share_for_tid r;
  match sh with
  | None => mret (refuse STATUS_OBJECT_NAME_NOT_FOUND)
  | Some s =>
      local ← ask (resolve s (or_root name));
      match local with
      | None => mret (refuse STATUS_OBJECT_NAME_NOT_FOUND)
      | Some p =>
          there ← ask (path_exists p);
          if negb there then mret (refuse STATUS_OBJECT_NAME_NOT_FOUND)
          else
            dir ← ask (path_isdir p);
            found ← attempt (st ← ask (os_stat p); mret (if (dir : bool) then 0 else st_size st, to_filetime (st_mtime st)));
            let '(size, ft) := match found with inl x => x | inr _ => (0, 0) end in
            rd ← (if level =? SMB_QUERY_FILE_STANDARD_INFO
                  then packed [(fQ, size); (fQ, size); (fI, 0); (fB, 0); (fB, if (dir : bool) then 1 else 0); (fH, 0)]
                  else packed [(fq, ft); (fq, ft); (fq, ft); (fq, ft);
                               (fI, if (dir : bool) then ATTR_DIRECTORY else ATTR_NORMAL); (fI, 0)]);
            trans_reply [] rd
      end
  end.

(** [h_trans2] *)
Definition h_trans2 (r : req) : M smb1 reply :=
  '(setup, t_params, _) ← lift (trans2_parse r);
  _ ← mwhen ((setup =? TRANS2_FIND_FIRST2) || (setup =? TRANS2_FIND_NEXT2)) (session_record k_list 1);
  if setup =? TRANS2_FIND_FIRST2 then h_trans2_find_first2 r t_params
  else if setup =? TRANS2_FIND_NEXT2 then h_trans2_find_next2 t_params
  else if setup =? TRANS2_QUERY_PATH_INFORMATION then h_trans2_query_path r t_params
  else mret (refuse STATUS_NOT_IMPLEMENTED).

(** The record of one share in the answer of [h_transaction]; [at_] is where its comment is. *)
Definition share_record (name : text) (at_ : Z) : result bytes :=
  let n13 := ztake 13 (ascii_only name) in
  tail ← struct_result (pack [(fH, 0); (fI, at_)]); Ok (n13 ++ zeros (13 - zlen n13) ++ [0] ++ tail).

Fixpoint share_records (names : list text) (at_ : Z) : result bytes :=
  match names with
  | [] => Ok []
  | n :: names => r ← share_record n at_; rest ← share_records names (at_ + 1); Ok (r ++ rest)
  end.

(** [h_transaction] *)
Definition h_transaction (r : req) : M smb1 reply :=
  let n := Z.of_nat (length (shares srv)) in
  records ← lift (share_records (map (fun ns => sh_name (snd ns)) (shares srv)) (20 * n));
  rp ← packed [(fH, 0); (fH, 0); (fH, n); (fH, n)];
  trans_reply rp (records ++ zeros n).

(** ** Messages *)

(** [HANDLERS] *)
Definition HANDLERS : list (Z * (req -> M smb1 reply)) :=
  [(SMB_COM_CREATE_DIRECTORY, h_create_directory); (SMB_COM_NEGOTIATE, h_negotiate);
   (SMB_COM_SESSION_SETUP_ANDX, h_session_setup); (SMB_COM_TREE_CONNECT_ANDX, h_tree_connect);
   (SMB_COM_TREE_DISCONNECT, h_tree_disconnect); (SMB_COM_LOGOFF_ANDX, h_logoff); (SMB_COM_OPEN_ANDX, h_open_andx);
   (SMB_COM_NT_CREATE_ANDX, h_nt_create_andx); (SMB_COM_READ_ANDX, h_read_andx); (SMB_COM_WRITE_ANDX, h_write_andx);
   (SMB_COM_CLOSE, h_close); (SMB_COM_ECHO, h_echo); (SMB_COM_QUERY_INFORMATION_DISK, h_query_disk);
   (SMB_COM_CHECK_DIRECTORY, h_check_directory); (SMB_COM_TRANS2, h_trans2); (SMB_COM_TRANSACTION, h_transaction)].

(** [_SESSION_KINDS] *)
Definition SESSION_KINDS : list (Z * SessionStats.kind) :=
  [(SMB_COM_OPEN_ANDX, k_open); (SMB_COM_NT_CREATE_ANDX, k_open); (SMB_COM_READ_ANDX, k_read);
   (SMB_COM_WRITE_ANDX, k_write); (SMB_COM_CLOSE, k_close)].

(** [_PROBE_COMMANDS] *)
Definition PROBE_COMMANDS : list Z :=
  [SMB_COM_OPEN_ANDX; SMB_COM_NT_CREATE_ANDX; SMB_COM_CHECK_DIRECTORY; SMB_COM_TRANS2].

(** [conn.send]; a fault lets some of the bytes go before it raises. *)
Definition send (m : bytes) : M smb1 unit :=
  framed ← lift (frame m);
  fault ← mget (fun w => head (send_faults w));
  _ ← mmod (fun w => w <| send_faults ::= tail |>);
  match fault with
  | Some (Some (n, e)) => _ ← mmod (fun w => w <| out ::= fun o => o ++ ztake n framed |>); raise (OSError e)
  | _ => mmod (fun w => w <| out ::= fun o => o ++ framed |>)
  end.

(** The answer that is only a status *)
Definition send_status (r : req) (st : Z) : M smb1 unit :=
  body ← lift (build_body [] []); send (pack_header (cmd r) st (tid r) (pid r) (uid r) (mid r) ++ body).

(** What the loop of [serve_conn] does with what a handler answers *)
Definition send_reply (r : req) (rep : reply) : M smb1 unit :=
  match r_params rep with
  | Some ps =>
      if r_status rep =? STATUS_SUCCESS then
        body ← lift (build_body ps (r_data rep));
        _ ← send (pack_header (cmd r) (r_status rep) (default (tid r) (r_tid rep)) (pid r) (default (uid r) (r_uid rep)) (mid r)
                  ++ body);
        mwhen ((cmd r =? SMB_COM_READ_ANDX) && nonempty (r_data rep)) (session_record k_bytes (zlen (r_data rep)))
      else
        _ ← mwhen (negb ((r_status rep =? STATUS_OBJECT_NAME_NOT_FOUND) && existsb (Z.eqb (cmd r)) PROBE_COMMANDS))
              (session_record errors 1);
        send_status r (r_status rep)
  | None =>
      _ ← mwhen (negb ((r_status rep =? STATUS_OBJECT_NAME_NOT_FOUND) && existsb (Z.eqb (cmd r)) PROBE_COMMANDS))
            (session_record errors 1);
      send_status r (r_status rep)
  end.

(** An SMB1 request in the loop of [serve_conn] *)
Definition serve_request (r : req) : M smb1 unit :=
  _ ← match alookup (cmd r) SESSION_KINDS with Some k => session_record k 1 | None => mret tt end;
  match alookup (cmd r) HANDLERS with
  | None => _ ← session_record errors 1; send_status r STATUS_NOT_IMPLEMENTED
  | Some h => rep ← h r; send_reply r rep
  end.

(** *** The SMB2 mode *)

(** [h2_session_setup] *)
Definition h2_session_setup : M smb1 bytes :=
  _ ← cmod (fun c => c <| c_uid ::= fun u => if u =? 0 then 4294967297 else u |>); lift h2_session_setup_body.

(** [SMB2_HANDLERS] *)
Definition SMB2_HANDLERS : list (Z * M smb1 bytes) :=
  [(0, lift (h2_negotiate (smb_version srv))); (1, h2_session_setup); (2, lift h2_generic_ok); (3, lift h2_tree_connect);
   (4, lift h2_generic_ok); (5, lift h2_create); (6, lift h2_close); (8, lift h2_read); (9, lift h2_write); (18, lift h2_echo)].

(** An SMB2 message in the loop of [serve_conn] *)
Definition serve_smb2 (m : bytes) : M smb1 unit :=
  '(c, message, session) ← lift (parse_smb2_req m);
  match alookup c SMB2_HANDLERS with
  | None => h ← lift (pack_smb2_hdr c STATUS_NOT_IMPLEMENTED message session); send h
  | Some handler =>
      body ← handler;
      u ← cget c_uid;
      h ← lift (pack_smb2_hdr c STATUS_SUCCESS message (if u =? 0 then session else u));
      send (h ++ body)
  end.

(** ** A connection *)

Definition serve_message (m : bytes) : M smb1 unit :=
  if (64 <=? zlen m) && str_eqb (ztake 4 m) Smb1Wire.SMB2_MAGIC then serve_smb2 m
  else if (zlen m <? 33) || negb (str_eqb (ztake 4 m) SMB_MAGIC) then mret tt
  else serve_request (parse_req m).

Definition receive : M smb1 (option bytes) := fun w =>
  let '(r, s) := recv_msg (incoming w) in (r, w <| incoming := s |>).

(** The loop of [serve_conn] *)
Fixpoint serve_loop (fuel : nat) : M smb1 unit :=
  match fuel with
  | O => raise Hang
  | S fuel =>
      m ← receive;
      match m with
      | None => mret tt
      | Some [] => serve_loop fuel
      | Some m => _ ← serve_message m; serve_loop fuel
      end
  end.

(** The connection until its [finally] *)
Definition serve_body : M smb1 unit := fun w =>
  (_ ← session_record connections 1;
   mcatch (serve_loop (S (arrivals (incoming w))))
     (fun e => match e with OSError _ => Some (session_record errors 1) | _ => None end)) w.

(** [serve_conn]: the files are closed whatever happens. *)
Definition serve_conn : M smb1 unit := fun w =>
  let '(r, w) := serve_body w in
  let '(r', w) := cleanup w in
  (match r' with Ok _ => r | Err e => Err e end, w).
End smb1.
Arguments smb1 : clear implicits.

(** ** Start *)

(** [SmbServer.__init__]: the users by their folded names, the last of a name counts. *)
Definition set_text {A} (k : text) (a : A) (l : list (text * A)) : list (text * A) :=
  if existsb (fun ka => str_eqb (fst ka) k) l then map (fun ka => if str_eqb (fst ka) k then (fst ka, a) else ka) l
  else l ++ [(k, a)].
Definition new_server `{CaseFolding} (shares : list (text * share)) (read_only : bool) (smb_version : Z)
    (users : list (text * text)) : server :=
  Server shares read_only smb_version (foldl (fun l up => set_text (py_casefold (fst up)) (snd up) l) [] users).

(** The shares of the command line; [None] is [ap.error], which ends the program. *)
Fixpoint parse_shares {Os} `{HostOs Os} (specs : list text) (l : list (text * share)) (o : Os)
    : result (option (list (text * share))) :=
  match specs with
  | [] => Ok (match l with [] => None | _ => Some l end)
  | spec :: specs =>
      if negb (existsb (Z.eqb 61) spec) then Ok None
      else
        let '(name, path) := (fst (partition_on 61 spec), zdrop (zlen (fst (partition_on 61 spec)) + 1) spec) in
        p ← fsencode path;
        dir ← path_isdir p o;
        if negb dir then Ok None else s ← new_share name p o; parse_shares specs (set_text name s l) o
  end.

(** The accounts of the command line *)
Fixpoint parse_users (specs : list text) (l : list (text * text)) : option (list (text * text)) :=
  match specs with
  | [] => Some l
  | spec :: specs =>
      if negb (existsb (Z.eqb 58) spec) then None
      else
        let name := fst (partition_on 58 spec) in
        match name with
        | [] => None
        | _ => parse_users specs (set_text name (zdrop (zlen name + 1) spec) l)
        end
  end.

(** [_bind_listener]; [binds n port] says whether attempt [n] succeeds at [port], and [expired n]
    whether the deadline has passed after it. *)
Fixpoint bind_again (fuel : nat) (binds : nat -> bool) (expired : nat -> bool) (n : nat) (port : Z) : result (option Z) :=
  match fuel with
  | O => Err Hang
  | S fuel => if binds n then Ok (Some port) else if expired n then Ok None else bind_again fuel binds expired (S n) port
  end.
Definition bind_forward (binds : Z -> bool) (port : Z) : option Z := List.find binds (seqZ port 12).
