(* ===== verification/Smb1Facts.v ===== *)
(** * What an SMB1 client can do

    Every run of a handler of [Smb1Server] keeps the tables of a connection sound and acts on
    the host by operations of [touch]: on paths below the root of a share, and for writing
    only where the server is not read-only. *)

From stdpp Require Import relations.
From S2P Require Import Prelude Triples Tables PyStr PyText PathNames SessionStats Compressed HostOs Smb2Wire Smb2Auth Smb2Paths Smb1Wire Smb1Server.

Create HintDb smb1.

Section facts.
Context {Os : Type} `{ExclusiveOs Os} `{CaseFolding} `{FloatTime} (srv : server).
Abbreviation W := (smb1 Os).

Definition shared (s : share) : Prop := exists n, (n, s) ∈ shares srv.

(** A path that a client's name stands for *)
Definition served_path (p : str) : Prop := exists s name o, shared s /\ resolve s name o = Ok (Some p).

(** A descriptor that an [open] of a served path returned; one for writing *)
Definition ours (f : Z) : Prop :=
  exists p o, served_path p /\ ((exists m, fst (os_open p m o) = Ok f) \/ fst (os_create p o) = Ok f).
Definition for_writing (f : Z) : Prop := exists p o, served_path p /\ fst (os_open p m_rpb o) = Ok f.

Inductive touch : Os -> Os -> Prop :=
  | to_open p o : served_path p -> touch o (snd (os_open p m_rb o))
  | to_seek f off wh o : ours f -> touch o (snd (f_seek f off wh o))
  | to_read f n o : ours f -> touch o (snd (f_read f n o))
  | to_close f o : ours f -> touch o (snd (f_close f o))
  | to_open_write p m o : read_only srv = false -> served_path p -> touch o (snd (os_open p m o))
  | to_create p o : read_only srv = false -> served_path p -> touch o (snd (os_create p o))
  | to_mkdir p mode o : read_only srv = false -> served_path p -> touch o (snd (os_mkdir p mode o))
  | to_write f d o : read_only srv = false -> for_writing f -> touch o (snd (f_write f d o)).

Lemma writing_ours f : for_writing f -> ours f.
Proof. intros (p & o & Hp & E). exists p, o. split; [done|]. left. by exists m_rpb. Qed.

Definition tree_ok (t : tree) : Prop := match t with Disk s => shared s | Ipc => True end.
Definition file_ok (f : open_file) : Prop :=
  served_path (of_path f) /\ match of_fh f with Some fh => ours fh | None => True end.

(** The trees of a connection are the server's shares, its files were opened on served paths. *)
Record conn_ok (c : conn) : Prop := {
  co_trees : Forall (fun kt => tree_ok (snd kt)) (trees c);
  co_files : Forall (fun kf => file_ok (snd kf)) (files c)
}.

Abbreviation stays := (Triples.stays host (fun w : W => conn_ok (cn w)) touch).
Abbreviation sound m := (stays (fun _ => True) m).

Lemma stays1_ask {A} (f : Os -> result A) : stays (fun a => exists o, f o = Ok a) (ask f : M W A).
Proof. apply stays_iff. intros w Hw. split_and!; [done|apply rtc_refl|]. intros a Ha. by exists (host w). Qed.

Lemma stays1_cmod f : (forall c, conn_ok c -> conn_ok (f c)) -> sound (cmod f : M W unit).
Proof. intros Hf. apply stays_iff. intros w Hw. split_and!; [by apply Hf|apply rtc_refl|done]. Qed.

Lemma stays_same f : (forall c, trees (f c) = trees c /\ files (f c) = files c) -> sound (cmod f : M W unit).
Proof. intros Hf. apply stays1_cmod. intros c [K1 K2]. destruct (Hf c) as (E1 & E2). split; by rewrite ?E1, ?E2. Qed.

Lemma stays1_host {A} (m : M Os A) :
  (forall o, touch o (snd (m o))) -> stays (fun a => exists o, fst (m o) = Ok a) (on_host m : M W A).
Proof.
  intros Hm. apply stays_iff. intros w Hw. unfold on_host. specialize (Hm (host w)). destruct (m (host w)) as [r o] eqn:E. cbn in *.
  split_and!; [done|by apply rtc_once|]. intros a ->. exists (host w). by rewrite E.
Qed.

Lemma stays1_on_host {A} (m : M Os A) : (forall o, touch o (snd (m o))) -> sound (on_host m : M W A).
Proof. intros Hm. by eapply stays_sound, stays1_host. Qed.

Lemma stays_attempt {A} (Q : A -> Prop) (m : M W A) :
  stays Q m -> stays (fun r => match r with inl a => Q a | inr _ => True end) (attempt m : M W (A + option Z)).
Proof.
  intros Hm. apply stays_mcatch.
  - eapply stays_bind; [exact Hm|]. intros a Ha. by apply stays_ret.
  - intros [] k; try done. intros [= <-]. by apply stays_ret.
Qed.

Lemma stays_attempt_sound {A} (m : M W A) : sound m -> sound (attempt m : M W (A + option Z)).
Proof. intros Hm. by eapply stays_sound, stays_attempt. Qed.

Lemma stays1_packed fvs : sound (packed fvs : M W bytes).
Proof. eapply stays_sound, stays_lift. Qed.

Lemma stays1_cget {A} (f : conn -> A) : sound (cget f : M W A).
Proof. apply stays_mget. Qed.

Lemma stays1_record k n : sound (session_record k n : M W unit).
Proof. by apply (stays_mmod host). Qed.

Lemma stays_file (fid : Z) :
  stays (fun o => match o with Some f => file_ok f | None => True end) (cget (fun c => alookup fid (files c)) : M W _).
Proof.
  apply stays_iff. intros w Hw. split_and!; [done|apply rtc_refl|]. intros a [= <-]. destruct (alookup _ _) as [f|] eqn:E; [|done].
  exact (Forall_alookup _ _ _ _ (co_files _ Hw) E).
Qed.

Lemma stays_alloc f g : (forall c, trees (f c) = trees c /\ files (f c) = files c) -> sound (_ ← cmod f; cget g : M W Z).
Proof. intros Hf. eapply stays_bind; [by apply stays_same|]. intros _ _. apply stays1_cget. Qed.

#[local] Hint Resolve stays_lift stays1_ask stays_file : smb1.
#[local] Hint Resolve stays1_packed stays1_record : smb1.
#[local] Hint Resolve stays1_cget stays_mget stays_attempt_sound | 5 : smb1.

(** Takes apart the code in front of it; known parts are found among the hints. *)
Ltac smb1_step :=
  lazymatch goal with
  | |- Triples.stays _ _ _ _ (mbind _ _) =>
      first [eapply stays_bind; [solve [eauto 2 with smb1 nocore]|intros ? ?]
            |eapply (stays_bind (fun _ => True)); [|intros ? _]]
  | |- Triples.stays _ _ _ _ (mret _) => apply stays_ret
  | |- Triples.stays _ _ _ _ (raise _) => apply stays_raise
  | |- Triples.stays _ _ _ _ (mwhen _ _) => apply stays_when; intros ?
  | |- Triples.stays _ _ _ _ (match ?x with _ => _ end) => let E := fresh "E" in destruct x eqn:E
  | |- Triples.stays _ _ _ _ _ =>
      first [solve [eauto 2 with smb1 nocore]
            |solve [eapply stays_sound; eauto 2 with smb1 nocore]
            |apply stays_same; intros ?; split; reflexivity]
  end.
Ltac smb1 := repeat (smb1_step; try done).

(** ** The pieces *)

Lemma stays_share_for_tid r :
  stays (fun o => match o with Some s => shared s | None => True end) (share_for_tid r : M W (option share)).
Proof.
  apply stays_iff. intros w Hw. split_and!; [done|apply rtc_refl|]. intros a [= <-].
  destruct (alookup (tid r) (trees (cn w))) as [[s|]|] eqn:E; try done. exact (Forall_alookup _ _ _ _ (co_trees _ Hw) E).
Qed.
#[local] Hint Resolve stays_share_for_tid : smb1.

Lemma stays_resolve s name : shared s ->
  stays (fun l => match l with Some p => served_path p | None => True end) (ask (resolve s name) : M W (option str)).
Proof.
  intros Hs. eapply stays_weaken; [apply stays1_ask|]. intros [p|] [o E]; [|done]. by exists s, name, o.
Qed.
#[local] Hint Resolve stays_resolve : smb1.

Lemma stays_open_file_at p dir : served_path p -> stays file_ok (open_file_at p dir : M W open_file).
Proof.
  intros Hp. unfold open_file_at. destruct dir; [apply stays_ret; by split|].
  eapply stays_bind; [apply stays1_ask|]. intros st _.
  eapply stays_bind; [apply stays1_host; intros o; by apply to_open|]. intros f [o E]. apply stays_ret. split; [done|].
  exists p, o. split; [done|]. left. by exists m_rb.
Qed.

Lemma stays1_close_file f : file_ok f -> sound (close_file f : M W unit).
Proof.
  intros [_ Hf]. unfold close_file. destruct (of_fh f) as [fh|]; [|by apply stays_ret].
  eapply stays_bind; [apply stays_attempt_sound, stays1_on_host; intros o; by apply to_close|]. intros _ _. by apply stays_ret.
Qed.

Lemma stays_add_file f : file_ok f -> sound (add_file f : M W Z).
Proof.
  intros Hf. unfold add_file, alloc_fid. eapply stays_bind; [by apply stays_alloc|]. intros fid _.
  eapply stays_bind; [|intros _ _; by apply stays_ret]. apply stays1_cmod. intros c [K1 K2]. split; cbn; [done|by apply Forall_aset].
Qed.

Lemma stays_with_open {A} (P : Z -> Prop) opens (k : Z -> M W A) :
  stays P (on_host opens : M W Z) -> (forall f, P f -> ours f) -> (forall f, P f -> sound (k f)) -> sound (with_open opens k).
Proof.
  intros Ho Hours Hk. assert (Hc : forall f, P f -> sound (on_host (f_close f) : M W unit)).
  { intros f Hf. apply stays1_on_host. intros o. by apply to_close, Hours. }
  unfold with_open. eapply stays_bind; [exact Ho|]. intros f Hf. eapply (stays_bind (fun _ => True)).
  - apply stays_mcatch; [by apply Hk|]. intros e m [= <-]. eapply stays_bind; [by apply Hc|]. intros _ _. apply stays_raise.
  - intros a _. eapply stays_bind; [by apply Hc|]. intros _ _. by apply stays_ret.
Qed.

Lemma stays1_make_empty p : read_only srv = false -> served_path p -> sound (make_empty p : M W unit).
Proof.
  intros Hro Hp. eapply (stays_with_open ours); [|done|intros f _; by apply stays_ret].
  eapply stays_weaken; [apply stays1_host; intros o; by apply to_open_write|].
  intros f [o E]. exists p, o. split; [done|]. left. by exists m_wb.
Qed.

Lemma stays_make_new p : read_only srv = false -> served_path p -> sound (make_new p : M W unit).
Proof.
  intros Hro Hp. eapply (stays_with_open ours); [|done|intros f _; by apply stays_ret].
  eapply stays_weaken; [apply stays1_host; intros o; by apply to_create|]. intros f [o E]. exists p, o. split; [done|by right].
Qed.

Lemma stays_making m : sound (m : M W unit) -> sound (making m : M W (option Z)).
Proof. intros Hm. unfold making. smb1. Qed.

Lemma stays_mkdir p : read_only srv = false -> served_path p -> sound (making (on_host (os_mkdir p 511)) : M W (option Z)).
Proof. intros Hro Hp. apply stays_making, stays1_on_host. intros o. by apply to_mkdir. Qed.

Lemma stays1_create_action p disposition dir : served_path p -> sound (create_action srv p disposition dir : M W (Z + Z)).
Proof.
  intros Hp. unfold create_action. eapply stays_bind; [apply stays1_ask|]. intros there _. destruct there.
  - eapply stays_bind; [apply stays1_ask|]. intros d _. destruct (disposition =? FILE_CREATE); [by apply stays_ret|].
    destruct (dir && negb d); [by apply stays_ret|]. destruct (existsb _ _); [|by apply stays_ret].
    destruct (read_only srv) eqn:Hro; cbn [orb]; [by apply stays_ret|]. destruct d; [by apply stays_ret|].
    eapply stays_bind; [by apply stays_attempt_sound, stays1_make_empty|]. intros e _. by apply stays_ret.
  - destruct (existsb _ _); [by apply stays_ret|]. destruct (read_only srv) eqn:Hro; [by apply stays_ret|].
    eapply stays_bind; [apply stays1_ask|]. intros parent _. destruct (negb parent); [by apply stays_ret|].
    eapply (stays_bind (fun _ => True)); [|intros e _; by apply stays_ret].
    destruct dir; [by apply stays_mkdir|by apply stays_making, stays_make_new].
Qed.

(** ** The handlers *)

Lemma stays_nt_create s name disposition dir : shared s -> sound (nt_create srv s name disposition dir : M W reply).
Proof.
  intros Hs. unfold nt_create. eapply stays_bind; [by apply stays_resolve|]. intros [p|] Hp; [|by apply stays_ret].
  eapply stays_bind; [by apply stays1_create_action|]. intros [action|st] _; [|by apply stays_ret].
  eapply stays_bind; [apply stays1_ask|]. intros d _.
  eapply (stays_bind (fun r => match r with inl ft => file_ok (fst ft) | inr _ => True end)).
  - apply (stays_attempt (fun ft : open_file * Z => file_ok (fst ft))).
    eapply stays_bind; [by apply stays_open_file_at|]. intros f Hf. eapply stays_bind; [apply stays1_ask|]. intros st _. by apply stays_ret.
  - intros [[f mtime]|] Hf; [|by apply stays_ret]. eapply stays_bind; [by apply stays_add_file|]. intros fid _.
    unfold created_reply. smb1.
Qed.
#[local] Hint Resolve stays_nt_create : smb1.

Lemma stays_h_nt_create_andx r : sound (h_nt_create_andx srv r : M W reply).
Proof. unfold h_nt_create_andx. smb1. Qed.

Lemma stays_h_open_andx r : sound (h_open_andx r : M W reply).
Proof.
  unfold h_open_andx. eapply stays_bind; [apply stays_share_for_tid|]. intros [s|] Hs; [|by apply stays_ret].
  eapply stays_bind; [by apply stays_resolve|]. intros [p|] Hp; [|by apply stays_ret].
  eapply stays_bind; [apply stays1_ask|]. intros b _. destruct (negb b); [by apply stays_ret|].
  eapply stays_bind; [by apply stays_open_file_at|]. intros f Hf. eapply stays_bind; [by apply stays_add_file|]. intros fid _. smb1.
Qed.

Lemma fh_ours (x : option open_file) fh :
  match x with Some f => file_ok f | None => True end -> x ≫= of_fh = Some fh -> ours fh.
Proof. destruct x as [f|]; [|done]. intros [_ Hf] E. cbn in E. by rewrite E in Hf. Qed.

Lemma stays_h_read_andx r : sound (h_read_andx r : M W reply).
Proof.
  unfold h_read_andx. smb1; apply stays1_on_host; intros o; [apply to_seek|apply to_read]; (eapply fh_ours; [|eassumption]; assumption).
Qed.

Lemma stays_write_at p off d : read_only srv = false -> served_path p ->
  sound (with_open (os_open p m_rpb) (fun w => _ ← on_host (f_seek w off 0); _ ← on_host (f_write w d); mret tt) : M W unit).
Proof.
  intros Hro Hp. apply (stays_with_open for_writing); [|apply writing_ours|].
  - eapply stays_weaken; [apply stays1_host; intros o; by apply to_open_write|]. intros f [o E]. by exists p, o.
  - intros f Hf. eapply stays_bind; [apply stays1_on_host; intros o; by apply to_seek, writing_ours|]. intros _ _.
    eapply stays_bind; [apply stays1_on_host; intros o; by apply to_write|]. intros _ _. by apply stays_ret.
Qed.

Lemma stays_h_write_andx r : sound (h_write_andx srv r : M W reply).
Proof.
  unfold h_write_andx. destruct (read_only srv) eqn:Hro; [by apply stays_ret|]. smb1.
  match goal with Hf : file_ok _ |- _ => destruct Hf as [Hp _] end. by apply stays_attempt_sound, stays_write_at.
Qed.

Lemma stays1_h_close r : sound (h_close r : M W reply).
Proof.
  unfold h_close. eapply (stays_bind (fun _ => True)); [smb1|]. intros fid _.
  eapply stays_bind; [apply stays_file|]. intros [f|] Hf; [|by apply stays_ret].
  eapply stays_bind; [apply stays1_cmod; intros c [K1 K2]; split; cbn; [done|by apply Forall_adelete]|]. intros _ _.
  eapply stays_bind; [by apply stays1_close_file|]. intros _ _. by apply stays_ret.
Qed.

Lemma stays_h_create_directory r : sound (h_create_directory srv r : M W reply).
Proof.
  unfold h_create_directory. destruct (read_only srv) eqn:Hro; [by apply stays_ret|].
  eapply stays_bind; [apply stays_share_for_tid|]. intros [s|] Hs; [|by apply stays_ret].
  eapply stays_bind; [by apply stays_resolve|]. intros [p|] Hp; [|by apply stays_ret].
  eapply stays_bind; [apply stays1_ask|]. intros there _. destruct there; [by apply stays_ret|].
  eapply stays_bind; [apply stays1_ask|]. intros parent _. destruct (negb parent); [by apply stays_ret|].
  eapply stays_bind; [by apply stays_mkdir|]. intros e _. by apply stays_ret.
Qed.

Lemma stays1_h_negotiate r : sound (h_negotiate srv r : M W reply).
Proof. unfold h_negotiate, negotiate_reply. smb1. Qed.

Lemma stays1_h_session_setup r : sound (h_session_setup srv r : M W reply).
Proof. unfold h_session_setup. smb1. Qed.

Lemma share_named_shared1 name s : share_named srv name = Some s -> shared s.
Proof.
  assert (Hf : forall n t, get_text n (shares srv) = Some t -> shared t).
  { intros n t. unfold get_text. destruct (List.find _ _) as [[m u]|] eqn:E; [|done]. intros [= <-].
    apply find_some in E as [Hin%list_elem_of_In _]. by exists m. }
  unfold share_named. intros E. repeat case_match; simplify_eq; eauto.
  eexists. match goal with E : shares srv = _ |- _ => rewrite E end. by left.
Qed.

Lemma stays_alloc_tid : sound (alloc_tid : M W Z).
Proof. by apply stays_alloc. Qed.
Lemma stays_alloc_sid : sound (alloc_sid : M W Z).
Proof. by apply stays_alloc. Qed.
#[local] Hint Resolve stays_alloc_tid stays_alloc_sid : smb1.

Lemma stays1_add_tree t k : tree_ok t -> sound (cmod (fun c => c <| trees ::= aset k t |>) : M W unit).
Proof. intros Ht. apply stays1_cmod. intros c [K1 K2]. split; cbn; [by apply Forall_aset|done]. Qed.

Lemma stays1_h_tree_connect r : sound (h_tree_connect srv r : M W reply).
Proof. unfold h_tree_connect. smb1; apply stays1_add_tree; [done|by eapply share_named_shared1]. Qed.

Lemma stays1_h_tree_disconnect r : sound (h_tree_disconnect r : M W reply).
Proof.
  unfold h_tree_disconnect. eapply stays_bind; [|intros _ _; by apply stays_ret].
  apply stays1_cmod. intros c [K1 K2]. split; cbn; [by apply Forall_adelete|done].
Qed.

Lemma stays1_h_logoff r : sound (h_logoff r : M W reply).
Proof. unfold h_logoff. smb1. Qed.
Lemma stays1_h_echo r : sound (h_echo r : M W reply).
Proof. unfold h_echo. smb1. Qed.
Lemma stays_h_query_disk r : sound (h_query_disk r : M W reply).
Proof. unfold h_query_disk. smb1. Qed.
Lemma stays_h_check_directory r : sound (h_check_directory r : M W reply).
Proof. unfold h_check_directory. smb1. Qed.

Lemma stays_trans_reply ps d : sound (trans_reply ps d : M W reply).
Proof. unfold trans_reply. smb1. Qed.
#[local] Hint Resolve stays_trans_reply : smb1.

Lemma stays_dir_entry_104 e : sound (dir_entry_104 e : M W bytes).
Proof. unfold dir_entry_104. destruct e. smb1. apply stays_attempt_sound. smb1. Qed.
#[local] Hint Resolve stays_dir_entry_104 : smb1.

Lemma stays_h_trans2 r : sound (h_trans2 r : M W reply).
Proof.
  unfold h_trans2, h_trans2_find_first2, h_trans2_find_next2, search_over, h_trans2_query_path.
  smb1; apply stays_attempt_sound; smb1.
Qed.

Lemma stays_h_transaction r : sound (h_transaction srv r : M W reply).
Proof. unfold h_transaction. smb1. Qed.

(** ** The connection *)

Lemma stays_handlers : Forall (fun kh => forall r, sound (snd kh r : M W reply)) (HANDLERS srv).
Proof.
  unfold HANDLERS. repeat (apply Forall_cons; split); try apply Forall_nil_2; cbn [snd];
  [apply stays_h_create_directory|apply stays1_h_negotiate|apply stays1_h_session_setup|apply stays1_h_tree_connect
  |apply stays1_h_tree_disconnect|apply stays1_h_logoff|apply stays_h_open_andx|apply stays_h_nt_create_andx
  |apply stays_h_read_andx|apply stays_h_write_andx|apply stays1_h_close|apply stays1_h_echo|apply stays_h_query_disk
  |apply stays_h_check_directory|apply stays_h_trans2|apply stays_h_transaction].
Qed.

Lemma stays_send m : sound (send m : M W unit).
Proof. unfold send. smb1; by apply (stays_mmod host). Qed.
#[local] Hint Resolve stays_send : smb1.

Lemma stays_send_status r st : sound (send_status r st : M W unit).
Proof. unfold send_status. smb1. Qed.
#[local] Hint Resolve stays_send_status : smb1.

Lemma stays_send_reply r rep : sound (send_reply r rep : M W unit).
Proof. unfold send_reply. smb1. Qed.
#[local] Hint Resolve stays_send_reply : smb1.

Lemma stays_serve_request r : sound (serve_request srv r : M W unit).
Proof.
  unfold serve_request. eapply (stays_bind (fun _ => True)); [smb1|]. intros _ _.
  destruct (alookup (cmd r) (HANDLERS srv)) as [h|] eqn:E; [|smb1].
  eapply stays_bind; [apply (Forall_alookup (fun h => forall r, sound (h r)) _ _ _ stays_handlers E)|]. intros rep _. smb1.
Qed.
#[local] Hint Resolve stays_serve_request : smb1.

Lemma stays_smb2_handlers : Forall (fun kh => sound (snd kh : M W bytes)) (SMB2_HANDLERS srv).
Proof.
  unfold SMB2_HANDLERS. repeat (apply Forall_cons; split); try apply Forall_nil_2; cbn [snd]; try (eapply stays_sound, stays_lift).
  unfold h2_session_setup. smb1.
Qed.

Lemma stays_serve_message m : sound (serve_message srv m : M W unit).
Proof.
  unfold serve_message. destruct (_ && _); [|smb1]. unfold serve_smb2. smb1.
  eapply (Forall_alookup (fun h => sound h)); [apply stays_smb2_handlers|eassumption].
Qed.
#[local] Hint Resolve stays_serve_message : smb1.

Lemma stays1_receive : sound (receive : M W (option bytes)).
Proof. intros o w Hw. unfold receive. destruct (recv_msg (incoming w)) as [r s]. by split. Qed.
#[local] Hint Resolve stays1_receive : smb1.

Lemma stays_serve_loop fuel : sound (serve_loop srv fuel : M W unit).
Proof. induction fuel as [|fuel IH]; cbn [serve_loop]; smb1. Qed.

Lemma stays1_serve_body : sound (serve_body srv : M W unit).
Proof.
  enough (Hb : forall fuel, sound (_ ← session_record connections 1;
    mcatch (serve_loop srv fuel) (fun e => match e with OSError _ => Some (session_record errors 1) | _ => None end) : M W unit)).
  { intros o w. apply (Hb _ o w). }
  intros fuel. eapply stays_bind; [apply stays1_record|]. intros _ _.
  apply stays_mcatch; [apply stays_serve_loop|]. intros [] k; try done. intros [= <-]. apply stays1_record.
Qed.

Lemma stays_cleanup : sound (cleanup : M W unit).
Proof.
  unfold cleanup. eapply (stays_bind (fun l => Forall (fun kf => file_ok (snd kf)) l)).
  { apply stays_iff. intros w Hw. split_and!; [done|apply rtc_refl|]. intros a [= <-]. apply (co_files _ Hw). }
  intros l Hl. eapply (stays_bind (fun _ => True)).
  - induction Hl as [|[k f] l Hf Hl IH]; cbn [close_files]; [by apply stays_ret|].
    eapply stays_bind; [by apply stays1_close_file|]. by intros _ _.
  - intros _ _. apply stays1_cmod. intros c [K1 K2]. split; cbn; [done|apply Forall_nil_2].
Qed.

Lemma stays_serve_conn : sound (serve_conn srv : M W unit).
Proof.
  intros o w Hw. unfold serve_conn. destruct (stays1_serve_body o w Hw) as [K1 _].
  destruct (serve_body srv w) as [r w1]. destruct (stays_cleanup o w1 K1) as [K2 _]. destruct (cleanup w1) as [r' w2]. by split.
Qed.

Lemma new_conn_ok1 : conn_ok new_conn.
Proof. split; apply Forall_nil_2. Qed.

(** What [resolve] answers is below the root, in names and not only in characters. *)
Lemma smb1_resolve_below s name (o : Os) p rs :
  isabs (os_getcwd o) = true -> Forall good_name rs -> sh_root s = abs_path rs -> resolve s name o = Ok (Some p) ->
  exists rest, names_path p (rs ++ rest).
Proof.
  intros Hcwd Hrs Hroot. unfold resolve, mbind, result_bind. destruct (realpath _ _) as [q|] eqn:Er; [|done].
  destruct (inside _ _) eqn:Hi; [|done]. intros [= <-].
  destruct (realpath_names _ _ _ Hcwd Er) as [ns Hns]. destruct (inside_names _ rs _ ns Hrs Hroot Hns Hi) as [rest ->]. by exists rest.
Qed.

Definition rooted (s : share) (rs : list str) : Prop := Forall good_name rs /\ sh_root s = abs_path rs.

(** C13. Whatever a client sends, in either mode, and wherever the connection breaks: the server
    ends with sound tables and has acted on the host only by the operations of [touch], and a
    path it may name is the root of a share with names appended, none of them a dot or two. *)
Theorem smb1_confined (w : W) :
  (forall o : Os, isabs (os_getcwd o) = true) -> (forall s, shared s -> exists rs, rooted s rs) -> cn w = new_conn ->
  let w' := snd (serve_conn srv w) in
  conn_ok (cn w') /\ rtc touch (host w) (host w') /\
  forall p, served_path p -> exists s rs rest, shared s /\ rooted s rs /\ names_path p (rs ++ rest).
Proof.
  intros Hcwd Hroots Hw. assert (Hc : conn_ok (cn w)) by (rewrite Hw; apply new_conn_ok1).
  destruct (proj1 (stays_iff _ _) stays_serve_conn w Hc) as (K1 & K2 & _). split_and!; [done|done|].
  intros p (s & name & o & Hs & Hr). destruct (Hroots s Hs) as (rs & Hg & Hroot).
  destruct (smb1_resolve_below s name o p rs (Hcwd o) Hg Hroot Hr) as [rest Hp]. by exists s, rs, rest.
Qed.

(** The operations of [touch] that leave files and folders as they are *)
Inductive look : Os -> Os -> Prop :=
  | lk_open p o : served_path p -> look o (snd (os_open p m_rb o))
  | lk_seek f off wh o : ours f -> look o (snd (f_seek f off wh o))
  | lk_read f n o : ours f -> look o (snd (f_read f n o))
  | lk_close f o : ours f -> look o (snd (f_close f o)).

(** A read-only server opens for reading, seeks, reads and closes, whatever a client sends. *)
Theorem smb1_read_only (w : W) : read_only srv = true -> cn w = new_conn ->
  rtc look (host w) (host (snd (serve_conn srv w))).
Proof.
  intros Hro Hw. assert (Hc : conn_ok (cn w)) by (rewrite Hw; apply new_conn_ok1).
  destruct (proj1 (stays_iff _ _) stays_serve_conn w Hc) as (_ & K2 & _).
  eapply (rtc_congruence id); [|exact K2]. intros o o' []; try congruence; by constructor.
Qed.
End facts.
