(* ===== verification/Smb1AnswerFacts.v ===== *)
(** * SMB1: one answer to every request

    A request that is served has exactly one answer: under its own command, process and
    multiplex numbers, with a status the client can put together again, and with parameters
    that are whole words.  Messages, statuses and TRANS2 answers read back. *)

From S2P Require Import Prelude Triples Tables PyStr PyText PathNames SessionStats Compressed HostOs Smb2Wire Smb2Auth Smb2Paths Smb2WireFacts Smb1Wire Smb1Server.

(** ** SMB1: messages read back

    A request is read back as it was written, a client reconstructs the status of an answer
    from the two fields the header spreads it over, and it finds parameters and data of a
    TRANS2 answer where their offsets say. *)

Lemma low16 v : 0 <= v < 65536 -> Z.land v 65535 = v.
Proof. intros Hv. change 65535 with (Z.ones 16). rewrite Z.land_ones by lia. by apply Z.mod_small. Qed.

Lemma le2_field v : 0 <= v < 65536 -> le_int (le_bytes 2 v) = v.
Proof. intros Hv. rewrite le_int_le_bytes. by apply Z.mod_small. Qed.

Lemma le4_field v : 0 <= v < 4294967296 -> le_int (le_bytes 4 v) = v.
Proof. intros Hv. rewrite le_int_le_bytes. by apply Z.mod_small. Qed.

Lemma zlen_header c st t p u m : zlen (pack_header c st t p u m) = 32.
Proof. reflexivity. Qed.

(** A message of the given command, status, identifiers, parameters and data *)
Definition message (c st t p u m : Z) (ps d : bytes) : bytes :=
  pack_header c st t p u m ++ zlen ps / 2 :: ps ++ le_bytes 2 (zlen d) ++ d.

Lemma build_body_ok ps d : zlen ps mod 2 = 0 -> zlen ps <= 510 -> zlen d < 65536 ->
  build_body ps d = Ok (zlen ps / 2 :: ps ++ le_bytes 2 (zlen d) ++ d).
Proof.
  intros Hmod Hps Hd. pose proof (zlen_nonneg d). unfold build_body. rewrite Hmod. cbn [negb Z.eqb].
  rewrite (proj2 (Z.ltb_ge 255 _)) by (apply Z.div_le_upper_bound; lia).
  rewrite (pack_single fH) by (by apply fits_unsigned). done.
Qed.

(** Positions behind the header *)
Lemma slice_behind (h l : bytes) a b : zlen h = 32 -> 32 <= a -> slice (h ++ l) a b = slice l (a - 32) (b - 32).
Proof.
  intros Hh Ha. unfold slice. replace (b - 32 - (a - 32)) with (b - a) by lia. f_equal.
  replace a with ((a - 32) + 32) at 1 by lia. rewrite <- zdrop_zdrop by lia. by rewrite (zdrop_app_length 32).
Qed.

Lemma slice_at {A} (l k : list A) a b : a = zlen l -> slice (l ++ k) a b = ztake (b - a) k.
Proof. intros ->. unfold slice. by rewrite zdrop_app_length. Qed.

(** A message is read back: command, identifiers, parameters and data. *)
Lemma parse_message c st t p u m ps d :
  0 <= t < 65536 -> 0 <= p < 65536 -> 0 <= u < 65536 -> 0 <= m < 65536 ->
  zlen ps mod 2 = 0 -> zlen ps <= 510 -> zlen d < 65536 ->
  parse_req (message c st t p u m ps d) = Req c t p u m (message c st t p u m ps d) (zlen ps / 2) ps d.
Proof.
  intros Ht Hp Hu Hm Hmod Hps Hd. pose proof (zlen_nonneg ps). pose proof (zlen_nonneg d).
  assert (Hwc : zlen ps / 2 * 2 = zlen ps) by (pose proof (Z.div_mod (zlen ps) 2); lia).
  unfold parse_req. cbv zeta.
  assert (H32 : znth (message c st t p u m ps d) 32 = zlen ps / 2) by reflexivity.
  rewrite H32, Hwc. set (k := zlen ps) in *.
  assert (Hl : zlen (message c st t p u m ps d) = 35 + k + zlen d).
  { unfold message. rewrite zlen_app, zlen_header, zlen_cons, !zlen_app. change (zlen (le_bytes 2 _)) with 2. fold k. lia. }
  rewrite Hl, (proj2 (Z.leb_le _ _)) by lia.
  change (slice (message c st t p u m ps d) 24 26) with (le_bytes 2 (Z.land t 65535)).
  change (slice (message c st t p u m ps d) 26 28) with (le_bytes 2 (Z.land p 65535)).
  change (slice (message c st t p u m ps d) 28 30) with (le_bytes 2 (Z.land u 65535)).
  change (slice (message c st t p u m ps d) 30 32) with (le_bytes 2 (Z.land m 65535)).
  rewrite !low16 by done. rewrite !le2_field by done.
  assert (Hbehind : forall a b, 33 <= a -> slice (message c st t p u m ps d) a b
                     = slice (ps ++ le_bytes 2 (zlen d) ++ d) (a - 33) (b - 33)).
  { intros a b Ha. unfold message. rewrite slice_behind by (done || lia). unfold slice. replace (a - 32) with ((a - 33) + 1) by lia.
    rewrite <- zdrop_zdrop by lia. change (zdrop 1 (?x :: ?l)) with l. f_equal. lia. }
  rewrite !Hbehind by lia.
  assert (E1 : slice (ps ++ le_bytes 2 (zlen d) ++ d) (33 - 33) (33 + k - 33) = ps).
  { unfold slice. rewrite zdrop_0. apply ztake_app_length. fold k. lia. }
  assert (E2 : slice (ps ++ le_bytes 2 (zlen d) ++ d) (33 + k - 33) (33 + k + 2 - 33) = le_bytes 2 (zlen d)).
  { rewrite slice_at by (fold k; lia). apply ztake_app_length. change (zlen (le_bytes 2 _)) with 2. lia. }
  rewrite E1, E2, le2_field by lia.
  assert (E3 : slice (ps ++ le_bytes 2 (zlen d) ++ d) (33 + k + 2 - 33) (33 + k + 2 + zlen d - 33) = d).
  { rewrite app_assoc, slice_at by (rewrite zlen_app; change (zlen (le_bytes 2 _)) with 2; fold k; lia).
    apply ztake_all. lia. }
  by rewrite E3.
Qed.

(** The status as OPL puts it together: [Eclass | (Ecode << 16)] *)
Definition status_of (m : bytes) : Z := Z.lor (znth m 5) (Z.shiftl (le_int (slice m 7 9)) 16).

(** Where bits 8 to 15 of a status are clear, the client has it back. *)
Lemma status_read_back c st t p u m ps d :
  0 <= st < 2 ^ 32 -> Z.land st 65280 = 0 -> status_of (message c st t p u m ps d) = st.
Proof.
  intros Hst Hmid. unfold status_of.
  change (znth (message c st t p u m ps d) 5) with (Z.land st 255).
  change (slice (message c st t p u m ps d) 7 9) with (le_bytes 2 (Z.land (Z.shiftr st 16) 65535)).
  assert (Hs : 0 <= Z.shiftr st 16 < 65536) by (rewrite Z.shiftr_div_pow2 by lia; divlia).
  rewrite low16, le2_field by done.
  apply Z.bits_inj'. intros n Hn. rewrite Z.lor_spec, Z.land_spec, Z.shiftl_spec by done.
  assert (Hbit : Z.testbit st n && Z.testbit 65280 n = false) by (rewrite <- Z.land_spec, Hmid; apply Z.bits_0).
  assert (H255 : Z.testbit 255 n = (n <? 8)) by (change 255 with (Z.ones 8); rewrite Z.testbit_ones_nonneg by lia; done).
  destruct (Z.ltb_spec n 16) as [Hlt|Hge].
  - rewrite (Z.testbit_neg_r _ (n - 16)) by lia. rewrite orb_false_r, H255. destruct (Z.ltb_spec n 8) as [|H8]; [by rewrite andb_true_r|].
    rewrite andb_false_r. assert (H65280 : Z.testbit 65280 n = true).
    { change 65280 with (Z.shiftl (Z.ones 8) 8). rewrite Z.shiftl_spec by lia. rewrite Z.testbit_ones_nonneg by lia. apply Z.ltb_lt. lia. }
    by rewrite H65280, andb_true_r in Hbit.
  - rewrite Z.shiftr_spec by lia. rewrite H255, (proj2 (Z.ltb_ge _ _)) by lia. rewrite andb_false_r. cbn [orb]. f_equal. lia.
Qed.

(** ** TRANS2 *)

(** Where a client finds the parameters and the data of a TRANS2 answer *)
Definition trans_params (m : bytes) : bytes :=
  slice m (le_int (slice m 41 43)) (le_int (slice m 41 43) + le_int (slice m 39 41)).
Definition trans_data (m : bytes) : bytes :=
  slice m (le_int (slice m 47 49)) (le_int (slice m 47 49) + le_int (slice m 45 47)).

Lemma align4 n : Z.land n (Z.lnot 3) = 4 * (n / 4).
Proof.
  rewrite <- Z.ldiff_land. change 3 with (Z.ones 2). rewrite Z.ldiff_ones_r by lia.
  rewrite Z.shiftl_mul_pow2, Z.shiftr_div_pow2 by lia. change (2 ^ 2) with 4. lia.
Qed.

(** The parameters of a TRANS2 answer *)
Definition trans_words (ps d : bytes) : bytes :=
  let data_off := Z.land (56 + zlen ps + 3) (Z.lnot 3) in
  le_bytes 2 (zlen ps) ++ le_bytes 2 (zlen d) ++ le_bytes 2 0 ++ le_bytes 2 (zlen ps) ++ le_bytes 2 56 ++ le_bytes 2 0
  ++ le_bytes 2 (zlen d) ++ le_bytes 2 data_off ++ le_bytes 2 0 ++ [0; 0].
Definition trans_body (ps d : bytes) : bytes :=
  let data_off := Z.land (56 + zlen ps + 3) (Z.lnot 3) in
  zeros 1 ++ ps ++ zeros (data_off - (56 + zlen ps)) ++ d.

Lemma trans_reply_ok {Os} `{ExclusiveOs Os} (w : smb1 Os) ps d :
  zlen ps < 65000 -> zlen d < 65536 -> trans_reply ps d w = (Ok (done (trans_words ps d) (trans_body ps d)), w).
Proof.
  intros Hps Hd. pose proof (zlen_nonneg ps). pose proof (zlen_nonneg d).
  unfold trans_reply. change (Z.land (55 + 3) (Z.lnot 3)) with 56.
  assert (Hoff : 0 <= Z.land (56 + zlen ps + 3) (Z.lnot 3) < 65536) by (rewrite align4; divlia).
  unfold mbind, M_bind, packed, lift. cbn [pack]. rewrite !fits_unsigned by (done || (change (256 ^ Z.of_nat 2) with 65536; lia)).
  done.
Qed.

(** Parameters and data are where the answer says, each at a multiple of four. *)
Lemma trans_read_back c st t p u m ps d : zlen ps < 65000 -> zlen d < 65536 ->
  let msg := message c st t p u m (trans_words ps d) (trans_body ps d) in
  trans_params msg = ps /\ trans_data msg = d.
Proof.
  intros Hps Hd msg. pose proof (zlen_nonneg ps). pose proof (zlen_nonneg d).
  set (off := Z.land (56 + zlen ps + 3) (Z.lnot 3)) in *.
  assert (Hoff : 56 + zlen ps <= off <= 56 + zlen ps + 3) by (unfold off; rewrite align4; divlia).
  unfold trans_params, trans_data.
  change (slice msg 41 43) with (le_bytes 2 56). change (slice msg 39 41) with (le_bytes 2 (zlen ps)).
  change (slice msg 47 49) with (le_bytes 2 off). change (slice msg 45 47) with (le_bytes 2 (zlen d)).
  rewrite !le2_field by lia.
  assert (Hbehind : forall a b, 56 <= a -> slice msg a b = slice (ps ++ zeros (off - (56 + zlen ps)) ++ d) (a - 56) (b - 56)).
  { intros a b Ha. unfold slice. replace (b - 56 - (a - 56)) with (b - a) by lia. f_equal.
    replace a with ((a - 56) + 56) at 1 by lia. rewrite <- zdrop_zdrop by lia. reflexivity. }
  rewrite !Hbehind by lia. split.
  - unfold slice. rewrite zdrop_0. apply ztake_app_length. lia.
  - rewrite app_assoc, slice_at by (rewrite zlen_app, zlen_zeros; lia). apply ztake_all. lia.
Qed.

(** ** READ *)

(** What a client takes from the answer to a READ_ANDX: [DataLength] bytes from [DataOffset] *)
Definition read_data (m : bytes) : bytes :=
  let n := Z.lor (le_int (slice m 43 45)) (Z.shiftl (le_int (slice m 47 51)) 16) in
  slice m (le_int (slice m 45 47)) (le_int (slice m 45 47) + n).

(** The parameters of an answer to a READ_ANDX *)
Definition read_words (n : Z) : bytes :=
  [255; 0] ++ zeros 8 ++ le_bytes 2 n ++ le_bytes 2 59 ++ zeros 4 ++ zeros 6.

Lemma read_read_back c st t p u m d : zlen d < 65536 -> read_data (message c st t p u m (read_words (zlen d)) d) = d.
Proof.
  intros Hd. pose proof (zlen_nonneg d). set (msg := message _ _ _ _ _ _ _ _). unfold read_data.
  change (slice msg 43 45) with (le_bytes 2 (zlen d)). change (slice msg 45 47) with (le_bytes 2 59).
  change (slice msg 47 51) with (zeros 4). change (le_int (zeros 4)) with 0. rewrite Z.shiftl_0_l, Z.lor_0_r, !le2_field by lia.
  change (slice msg 59 (59 + zlen d)) with (ztake (59 + zlen d - 59) d). apply ztake_all. lia.
Qed.

(** The statuses this server answers with *)
Definition STATUSES : list Z :=
  [STATUS_SUCCESS; STATUS_NOT_IMPLEMENTED; STATUS_ACCESS_DENIED; STATUS_OBJECT_NAME_NOT_FOUND;
   STATUS_OBJECT_NAME_COLLISION; STATUS_LOGON_FAILURE].

Create HintDb answers.

Section answers.
Context {Os : Type} `{ExclusiveOs Os} `{CaseFolding} `{FloatTime} (srv : server) (sent : bytes) (inc : list arrival).
Abbreviation W := (smb1 Os).

Definition words (ps : bytes) : Prop := zlen ps mod 2 = 0 /\ zlen ps <= 510.

Definition reply_ok (rep : reply) : Prop :=
  r_status rep ∈ STATUSES /\ match r_params rep with Some ps => words ps | None => r_status rep <> STATUS_SUCCESS end.

(** The code sends and receives nothing, and what it returns satisfies [Q]. *)
Abbreviation gives := (holds (fun w : W => out w = sent /\ incoming w = inc)).
Abbreviation quiet m := (gives (fun _ => True) m).

Lemma quiet_of {A} (Q : A -> Prop) (m : M W A) : gives Q m -> quiet m.
Proof. intros Hm. by eapply holds_weaken. Qed.

Lemma quiet_lift {A} (r : result A) : quiet (lift r : M W A).
Proof. eapply quiet_of, holds_lift. Qed.
Lemma quiet_ask {A} (f : Os -> result A) : quiet (ask f : M W A).
Proof. by intros w Hw. Qed.
Lemma quiet_on_host {A} (m : M Os A) : quiet (on_host m : M W A).
Proof. intros w Hw. unfold on_host. by destruct (m (host w)). Qed.
Lemma quiet_cget {A} (f : conn -> A) : quiet (cget f : M W A).
Proof. by intros w Hw. Qed.
Lemma quiet_cmod f : quiet (cmod f : M W unit).
Proof. by intros w Hw. Qed.
Lemma quiet_record k n : quiet (session_record k n : M W unit).
Proof. by intros w Hw. Qed.
Lemma quiet_attempt {A} (m : M W A) : quiet m -> quiet (attempt m : M W (A + option Z)).
Proof.
  intros Hm. apply holds_mcatch.
  - eapply holds_bind; [exact Hm|]. intros a _. by apply holds_ret.
  - intros [] k; try done. intros [= <-]. by apply holds_ret.
Qed.
Lemma quiet_with_open {A} opens (k : Z -> M W A) : (forall f, quiet (k f)) -> quiet (with_open opens k).
Proof.
  intros Hk. unfold with_open. eapply holds_bind; [apply quiet_on_host|]. intros f _. eapply (holds_bind _ (fun _ => True)).
  - apply holds_mcatch; [apply Hk|]. intros e m [= <-]. eapply holds_bind; [apply quiet_on_host|]. intros _ _. apply holds_raise.
  - intros a _. eapply holds_bind; [apply quiet_on_host|]. intros _ _. by apply holds_ret.
Qed.

Lemma gives_packed fvs : gives (fun bs => zlen bs = Z.of_nat (fmts_size (map fst fvs))) (packed fvs : M W bytes).
Proof.
  eapply holds_weaken; [apply holds_lift|]. intros bs E. cbn beta in E. destruct (pack fvs) as [bs'|] eqn:Ep; [|done].
  apply Ok_inj in E as ->. unfold zlen. by rewrite (length_pack _ _ Ep).
Qed.

Lemma refuse_ok st : st ∈ STATUSES -> st <> STATUS_SUCCESS -> reply_ok (refuse st).
Proof. by split. Qed.

Lemma done_ok ps d : words ps -> reply_ok (done ps d).
Proof. split; [by left|done]. Qed.

Lemma reply_tree_ok ps d u t : words ps -> reply_ok (Reply (Some ps) d STATUS_SUCCESS u t).
Proof. split; [by left|done]. Qed.

Lemma in_statuses st : bool_decide (st ∈ STATUSES) = true -> st ∈ STATUSES.
Proof. apply bool_decide_eq_true_1. Qed.

Ltac words := match goal with E : zlen _ = _ |- _ => unfold words; rewrite ?zlen_app, E; by vm_compute end.

#[local] Hint Resolve quiet_lift quiet_ask quiet_on_host quiet_cget quiet_cmod quiet_record gives_packed : answers.

(** Takes apart a handler *)
Ltac answers_step :=
  lazymatch goal with
  | |- holds _ _ (mbind _ _) =>
      first [eapply holds_bind; [solve [eauto 2 with answers nocore]|intros ? ?; cbn beta in *]
            |eapply (holds_bind _ (fun _ => True)); [|intros ? _]]
  | |- holds _ _ (mret _) => apply holds_ret
  | |- holds _ _ (raise _) => apply holds_raise
  | |- holds _ _ (mwhen _ _) => apply holds_when; intros ?
  | |- holds _ _ (attempt _) => apply quiet_attempt
  | |- holds _ _ (with_open _ _) => apply quiet_with_open; intros ?
  | |- holds _ _ (match ?x with _ => _ end) => let E := fresh "E" in destruct x eqn:E
  | |- reply_ok (refuse _) => apply refuse_ok; [by apply in_statuses|done]
  | |- reply_ok (done _ _) => apply done_ok; try words
  | |- reply_ok (Reply _ _ _ _ _) => apply reply_tree_ok; try words
  | |- reply_ok (match ?x with _ => _ end) => destruct x
  | |- holds _ _ _ => solve [eauto 2 with answers nocore|eapply quiet_of; eauto 2 with answers nocore]
  end.
Ltac answers := repeat (answers_step; try done).

Lemma words_nil : words [].
Proof. by split. Qed.
#[local] Hint Resolve words_nil : core.

Definition refusal (st : Z) : Prop := st ∈ STATUSES /\ st <> STATUS_SUCCESS.

Lemma refusal_in st : bool_decide (st ∈ STATUSES) && negb (st =? STATUS_SUCCESS) = true -> refusal st.
Proof. intros [Hin%bool_decide_eq_true Hne%negb_true_iff%Z.eqb_neq]%andb_true_iff. by split. Qed.

Lemma making_refuses m : quiet m -> gives (fun e => match e with Some st => refusal st | None => True end) (making m : M W (option Z)).
Proof.
  intros Hm. unfold making. eapply holds_bind; [by apply quiet_attempt|]. intros [u|e] _; apply holds_ret; [done|].
  by destruct (bool_decide _); apply refusal_in.
Qed.

Lemma quiet_make_empty p : quiet (make_empty p : M W unit).
Proof. unfold make_empty. answers. Qed.
Lemma quiet_make_new p : quiet (make_new p : M W unit).
Proof. unfold make_new. answers. Qed.
#[local] Hint Resolve quiet_make_empty quiet_make_new : answers.

Lemma mkdir_refuses p : gives (fun e => match e with Some st => refusal st | None => True end) (making (on_host (os_mkdir p 511)) : M W (option Z)).
Proof. apply making_refuses, quiet_on_host. Qed.
Lemma make_refuses (dir : bool) p : gives (fun e => match e with Some st => refusal st | None => True end)
  (making (if dir then on_host (os_mkdir p 511) else make_new p) : M W (option Z)).
Proof. apply making_refuses. destruct dir; [apply quiet_on_host|apply quiet_make_new]. Qed.
#[local] Hint Resolve mkdir_refuses make_refuses : answers.

Lemma quiet_open_file_at p dir : quiet (open_file_at p dir : M W open_file).
Proof. unfold open_file_at. answers. Qed.
Lemma quiet_close_file f : quiet (close_file f : M W unit).
Proof. unfold close_file. answers. Qed.
Lemma quiet_share_for_tid r : quiet (share_for_tid r : M W (option share)).
Proof. unfold share_for_tid. answers. Qed.
Lemma quiet_alloc_fid : quiet (alloc_fid : M W Z).
Proof. unfold alloc_fid. answers. Qed.
Lemma quiet_alloc_tid : quiet (alloc_tid : M W Z).
Proof. unfold alloc_tid. answers. Qed.
Lemma quiet_alloc_sid : quiet (alloc_sid : M W Z).
Proof. unfold alloc_sid. answers. Qed.
#[local] Hint Resolve quiet_open_file_at quiet_close_file quiet_share_for_tid quiet_alloc_fid quiet_alloc_tid quiet_alloc_sid : answers.
Lemma quiet_add_file f : quiet (add_file f : M W Z).
Proof. unfold add_file. answers. Qed.
Lemma quiet_dir_entry_104 e : quiet (dir_entry_104 e : M W bytes).
Proof. unfold dir_entry_104. answers. Qed.
#[local] Hint Resolve quiet_add_file quiet_dir_entry_104 : answers.


Lemma create_action_refuses p disposition dir :
  gives (fun a => match a with inr st => refusal st | inl _ => True end) (create_action srv p disposition dir : M W (Z + Z)).
Proof.
  unfold create_action. answers; repeat case_match; simplify_eq; first [done|by apply refusal_in].
Qed.
#[local] Hint Resolve create_action_refuses : answers.

Lemma answers_trans_reply ps d : gives reply_ok (trans_reply ps d : M W reply).
Proof. unfold trans_reply. answers. Qed.
#[local] Hint Resolve answers_trans_reply : answers.

Lemma answers_handlers : Forall (fun kh => forall r, gives reply_ok (snd kh r : M W reply)) (HANDLERS srv).
Proof.
  unfold HANDLERS. repeat (apply Forall_cons; split); try apply Forall_nil_2; cbn [snd]; intros r.
  - unfold h_create_directory. answers.
  - unfold h_negotiate, negotiate_reply. answers.
  - unfold h_session_setup. answers.
  - unfold h_tree_connect. answers.
  - unfold h_tree_disconnect. answers.
  - unfold h_logoff. answers.
  - unfold h_open_andx. answers.
  - unfold h_nt_create_andx, nt_create, created_reply. answers.
  - unfold h_read_andx. answers.
  - unfold h_write_andx. answers.
  - unfold h_close. answers.
  - unfold h_echo. answers.
  - unfold h_query_disk. answers.
  - unfold h_check_directory. answers.
  - unfold h_trans2, h_trans2_find_first2, h_trans2_find_next2, search_over, h_trans2_query_path. answers.
  - unfold h_transaction. answers.
Qed.
End answers.

(** ** On the wire *)

Section wire.
Context {Os : Type} `{ExclusiveOs Os} `{CaseFolding} `{FloatTime} (srv : server).
Abbreviation W := (smb1 Os).

(** A message behind its length *)
Definition framed (m : bytes) : bytes := 0 :: be_bytes 3 (zlen m) ++ m.

Lemma send_out m (w w' : W) : send m w = (Ok tt, w') -> out w' = out w ++ framed m.
Proof.
  unfold send, mbind, M_bind, lift, frame, mget, mmod, raise. destruct (zlen m <? 2 ^ 24); [|done].
  destruct (head (send_faults w)) as [[[n e]|]|]; intros [= <-]; done.
Qed.

(** What an answer is *)
Definition answered (r : req) (o : bytes) (w' : W) : Prop := exists st t u ps d,
  let m := message (cmd r) st t (pid r) u (mid r) ps d in
  out w' = o ++ framed m /\ status_of m = st /\ st ∈ STATUSES /\ words ps.

Lemma statuses_fit st : st ∈ STATUSES -> 0 <= st < 2 ^ 32 /\ Z.land st 65280 = 0.
Proof.
  assert (Hall : Forall (fun st => (0 <=? st) && (st <? 2 ^ 32) && (Z.land st 65280 =? 0) = true) STATUSES).
  { repeat (apply Forall_cons; split); try apply Forall_nil_2; by vm_compute. }
  intros Hin. apply (proj1 (Forall_forall _ _) Hall) in Hin. cbn beta in Hin. rewrite !andb_true_iff in Hin. lia.
Qed.

Lemma build_body_inv ps d body : build_body ps d = Ok body -> body = zlen ps / 2 :: ps ++ le_bytes 2 (zlen d) ++ d.
Proof.
  unfold build_body. destruct (negb _); [done|]. destruct (255 <? _); [done|]. unfold mbind, result_bind.
  destruct (pack [(fH, zlen d)]) as [n|] eqn:E; [|done]. cbn [struct_result]. intros [= <-].
  destruct (fits fH (zlen d)) eqn:Ef; [|cbn [pack] in E; by rewrite Ef in E]. rewrite pack_single in E by done. by simplify_eq.
Qed.

Lemma send_status_answers r st (w w' : W) : st ∈ STATUSES -> send_status r st w = (Ok tt, w') -> answered r (out w) w'.
Proof.
  intros Hst. unfold send_status, mbind, M_bind, lift. destruct (build_body [] []) as [body|] eqn:E; [|done].
  apply build_body_inv in E as ->. intros Hs%send_out. exists st, (tid r), (uid r), [], [].
  split_and!; [exact Hs|apply status_read_back; by apply statuses_fit|done|by split].
Qed.

Lemma keeps_out_bind {A B} (m : M W A) (k : A -> M W B) (w w' : W) b :
  (m ≫= k) w = (Ok b, w') -> exists a w1, m w = (Ok a, w1) /\ k a w1 = (Ok b, w').
Proof. unfold mbind, M_bind. destruct (m w) as [[a|] w1]; [|done]. intros E. by exists a, w1. Qed.

Lemma send_reply_answers r rep (w w' : W) : reply_ok rep -> send_reply r rep w = (Ok tt, w') -> answered r (out w) w'.
Proof.
  assert (Hrefused : forall st (b : bool) (v v' : W), st ∈ STATUSES ->
    (_ ← mwhen b (session_record errors 1); send_status r st) v = (Ok tt, v') -> answered r (out v) v').
  { intros st b v v' Hst (u & v1 & E1 & E2)%keeps_out_bind. apply (send_status_answers r st) in E2; [|done].
    enough (out v1 = out v) as Ho by by rewrite Ho in E2. destruct b; cbv [mwhen session_record mmod mret M_ret] in E1; by injection E1 as _ <-. }
  intros [Hst Hps]. unfold send_reply. destruct (r_params rep) as [ps|]; [|by apply Hrefused].
  destruct (r_status rep =? STATUS_SUCCESS); [|by apply Hrefused].
  intros (body & w1 & E1 & (u & w2 & E2 & E3)%keeps_out_bind)%keeps_out_bind. injection E1 as E1 <-.
  apply build_body_inv in E1 as ->. destruct u. apply send_out in E2.
  exists (r_status rep), (default (tid r) (r_tid rep)), (default (uid r) (r_uid rep)), ps, (r_data rep).
  split_and!; [|apply status_read_back; by apply statuses_fit|done|done].
  cbv [mwhen session_record mmod mret M_ret] in E3. by destruct (_ && _) in E3; injection E3 as <-.
Qed.

Lemma handler_quiet c h r (w : W) : alookup c (HANDLERS srv) = Some h ->
  out (snd (h r w)) = out w /\ incoming (snd (h r w)) = incoming w /\ forall rep, fst (h r w) = Ok rep -> reply_ok rep.
Proof.
  intros E. destruct (Forall_alookup (fun h => forall r, holds (fun v : W => out v = out w /\ incoming v = incoming w) reply_ok (h r))
    _ _ _ (answers_handlers srv (out w) (incoming w)) E r w (conj eq_refl eq_refl)) as [[K1 K2] K3]. by split_and!.
Qed.

(** A request that is served without the connection breaking has exactly one answer: with its
    own command, process and multiplex number, with a status of which the client has every
    bit although the header leaves eight of them out, and with whole words as parameters. *)
Theorem one_answer r (w w' : W) : serve_request srv r w = (Ok tt, w') -> answered r (out w) w'.
Proof.
  unfold serve_request. intros (u & w1 & E1 & E2)%keeps_out_bind.
  assert (Ho : out w1 = out w) by (destruct (alookup (cmd r) SESSION_KINDS); cbv [session_record mmod mret M_ret] in E1; by injection E1 as _ <-).
  rewrite <- Ho. destruct (alookup (cmd r) (HANDLERS srv)) as [h|] eqn:Eh.
  - apply keeps_out_bind in E2 as (rep & w2 & E3 & E4).
    destruct (handler_quiet (cmd r) h r w1 Eh) as (K1 & _ & K2). rewrite E3 in K1, K2. cbn [fst snd] in K1, K2.
    rewrite <- K1. eapply send_reply_answers; [by apply K2|done].
  - apply keeps_out_bind in E2 as (u' & w2 & E3 & E4). cbv [session_record mmod] in E3. injection E3 as _ <-.
    apply (send_status_answers r STATUS_NOT_IMPLEMENTED) in E4; [done|by apply in_statuses].
Qed.

(** ** The end of a connection *)

Abbreviation listens inc m := (holds (fun w : W => incoming w = inc) (fun _ => True) m).

Lemma listens_any {A} inc (m : M W A) : (forall w, incoming (snd (m w)) = incoming w) -> listens inc m.
Proof. intros Hm w Hw. split; [by rewrite Hm|done]. Qed.

Lemma listens_send inc m : listens inc (send m : M W unit).
Proof.
  apply listens_any. intros w. unfold send, mbind, M_bind, lift, frame, mget, mmod, raise. destruct (zlen m <? 2 ^ 24); [|done].
  by destruct (head (send_faults w)) as [[[n e]|]|].
Qed.

Lemma listens_lift {A} inc (r : result A) : listens inc (lift r : M W A).
Proof. by apply listens_any. Qed.
Lemma listens_record inc k n : listens inc (session_record k n : M W unit).
Proof. by apply listens_any. Qed.
#[local] Hint Resolve listens_send listens_lift listens_record : answers.

Ltac listens :=
  repeat lazymatch goal with
  | |- holds _ _ (mbind _ _) => eapply (holds_bind _ (fun _ => True)); [|intros ? _]
  | |- holds _ _ (mret _) => by apply holds_ret
  | |- holds _ _ (mwhen _ _) => apply holds_when; intros ?
  | |- holds _ _ (match ?x with _ => _ end) => destruct x eqn:?
  | |- holds _ _ _ => solve [eauto 2 with answers nocore]
  end.

Lemma listens_send_status inc r st : listens inc (send_status r st : M W unit).
Proof. unfold send_status. listens. Qed.
#[local] Hint Resolve listens_send_status : answers.

Lemma listens_send_reply inc r rep : listens inc (send_reply r rep : M W unit).
Proof. unfold send_reply. listens. Qed.
#[local] Hint Resolve listens_send_reply : answers.

Lemma listens_serve_request inc r : listens inc (serve_request srv r : M W unit).
Proof.
  unfold serve_request. eapply (holds_bind _ (fun _ => True)); [listens|]. intros _ _.
  destruct (alookup (cmd r) (HANDLERS srv)) as [h|] eqn:E; [|listens].
  eapply (holds_bind _ (fun _ => True)); [|intros rep _; listens].
  apply listens_any. intros w. by destruct (handler_quiet (cmd r) h r w E) as (_ & K & _).
Qed.

Lemma listens_smb2_handlers inc : Forall (fun kh => listens inc (snd kh : M W bytes)) (SMB2_HANDLERS srv).
Proof.
  unfold SMB2_HANDLERS. repeat (apply Forall_cons; split); try apply Forall_nil_2; cbn [snd]; by apply listens_any.
Qed.

Lemma listens_serve_message inc m : listens inc (serve_message srv m : M W unit).
Proof.
  unfold serve_message. destruct (_ && _); [|destruct (_ || _); [by apply holds_ret|apply listens_serve_request]].
  unfold serve_smb2. listens. - eapply (Forall_alookup (fun h => listens inc h)); [apply listens_smb2_handlers|eassumption].
  - by apply listens_any.
Qed.

(** The loop of a connection ends: with as many rounds as what is left to arrive allows messages
    it does what it does with any greater number. *)
Theorem connection_ends fuel (w : W) : (arrivals (incoming w) < fuel)%nat ->
  serve_loop srv fuel w = serve_loop srv (S (arrivals (incoming w))) w.
Proof.
  revert w. induction fuel as [fuel IH] using lt_wf_ind. intros w Hf. destruct fuel as [|fuel]; [lia|].
  assert (Hnext : forall v : W, (arrivals (incoming v) < arrivals (incoming w))%nat ->
    serve_loop srv fuel v = serve_loop srv (arrivals (incoming w)) v).
  { intros v Hv. destruct (arrivals (incoming w)) as [|n] eqn:En; [lia|].
    rewrite (IH fuel) by lia. symmetry. apply (IH (S n)); lia. }
  cbn [serve_loop]. unfold mbind at 1 3, M_bind at 1 3.
  assert (Hr : forall m, fst (receive w) = Ok (Some m) -> (arrivals (incoming (snd (receive w))) < arrivals (incoming w))%nat).
  { intros m. unfold receive. pose proof (recv_msg_fewer (incoming w) m) as K. by destruct (recv_msg (incoming w)). }
  destruct (receive w) as [[[m|]|e] v]; [|done..]. cbn [fst snd] in Hr. specialize (Hr m eq_refl).
  destruct m as [|b m]; [by apply Hnext|]. unfold mbind, M_bind.
  destruct (listens_serve_message (incoming v) (b :: m) v eq_refl) as [K _].
  destruct (serve_message srv (b :: m) v) as [[u|e] v']; [|done]. apply Hnext. cbn [snd] in K. by rewrite K.
Qed.
End wire.
