(* ===== verification/Smb1FileFacts.v ===== *)
(** * SMB1: what a client reads and lists

    READ_ANDX answers the bytes of the file that were asked for.  A client that starts a
    search and asks for the next entry until the server says it was the last is told of the
    folder, its parent and every name exactly once, in order. *)

From S2P Require Import Prelude Triples Tables PyStr PyText PathNames SessionStats Compressed HostOs HttpServeFacts Smb2Wire Smb2Auth Smb2Paths Smb1Wire Smb1Server Smb1AnswerFacts.

(** ** READ *)

Section read.
Context {Os : Type} `{!HostOs Os, !StreamHost Os, !ExclusiveOs Os} `{CaseFolding} `{FloatTime} (srv : server).
Abbreviation W := (smb1 Os).

(** The parameters of a READ_ANDX request *)
Definition read_request (fid offset count : Z) : bytes :=
  [255; 0; 0; 0] ++ le_bytes 2 fid ++ le_bytes 4 (offset mod 2 ^ 32) ++ le_bytes 2 (count mod 2 ^ 16) ++ le_bytes 2 0
  ++ le_bytes 2 (count / 2 ^ 16) ++ le_bytes 2 0 ++ le_bytes 2 0 ++ le_bytes 4 (offset / 2 ^ 32).

(** The socket takes what is sent next. *)
Definition sending (w : W) : Prop := match head (send_faults w) with Some (Some _) => False | _ => True end.

Lemma send_works m (w : W) : sending w -> zlen m < 2 ^ 24 ->
  exists w', send m w = (Ok tt, w') /\ out w' = out w ++ framed m /\ host w' = host w /\ cn w' = cn w.
Proof.
  intros Hs Hm. unfold sending in Hs. unfold send, mbind, M_bind, lift, frame, mget, mmod. rewrite (proj2 (Z.ltb_lt _ _)) by done.
  destruct (head (send_faults w)) as [[]|]; [done|..]; by eexists.
Qed.

(** A request whose handler is [h] *)
Lemma serve_request_with r h (w : W) : alookup (cmd r) (HANDLERS srv) = Some h ->
  exists w1, host w1 = host w /\ cn w1 = cn w /\ out w1 = out w /\ send_faults w1 = send_faults w /\
    forall rep w2, h r w1 = (Ok rep, w2) -> serve_request srv r w = send_reply r rep w2.
Proof.
  intros Hh. unfold serve_request. rewrite Hh. destruct (alookup (cmd r) SESSION_KINDS) as [k|].
  - eexists. split_and!; cycle -1; [intros rep w2 E; unfold mbind at 1, M_bind at 1, session_record, mmod|..].
    + unfold mbind at 1, M_bind at 1. rewrite E. reflexivity.
    + done.
    + done.
    + done.
    + done.
  - exists w. split_and!; try done. intros rep w2 E. unfold mbind, M_bind, mret, M_ret. by rewrite E.
Qed.

(** An answer that can be sent *)
Lemma send_reply_works r ps d ou ot (w : W) : words ps -> zlen d < 65536 -> sending w ->
  let m := message (cmd r) STATUS_SUCCESS (default (tid r) ot) (pid r) (default (uid r) ou) (mid r) ps d in
  exists w', send_reply r (Reply (Some ps) d STATUS_SUCCESS ou ot) w = (Ok tt, w') /\ out w' = out w ++ framed m /\
    host w' = host w /\ cn w' = cn w.
Proof.
  intros [Hps1 Hps2] Hd Hs m.
  assert (Hm : zlen m < 2 ^ 24).
  { unfold m, message. rewrite zlen_app, zlen_header, zlen_cons, !zlen_app. change (zlen (le_bytes 2 _)) with 2. lia. }
  destruct (send_works m w Hs Hm) as (w1 & E & Ho & Hh & Hc).
  unfold send_reply. cbn [r_params r_status r_data r_tid r_uid]. change (STATUS_SUCCESS =? STATUS_SUCCESS) with true. cbv beta iota.
  unfold mbind at 1, M_bind at 1, lift at 1. rewrite build_body_ok by done. cbv beta iota.
  unfold mbind at 1, M_bind at 1. fold (message (cmd r) STATUS_SUCCESS (default (tid r) ot) (pid r) (default (uid r) ou) (mid r) ps d).
  fold m. rewrite E. cbv beta iota. destruct (_ && _); eexists; split; [reflexivity|by split_and!|reflexivity|by split_and!].
Qed.

Lemma lor_parts k v : 0 <= k -> 0 <= v -> Z.lor (v mod 2 ^ k) (Z.shiftl (v / 2 ^ k) k) = v.
Proof.
  intros Hk Hv. assert (0 < 2 ^ k) by (apply Z.pow_pos_nonneg; lia). rewrite lor_shiftl_add; [|done|apply Z.mod_pos_bound; lia].
  pose proof (Z.div_mod v (2 ^ k)). lia.
Qed.

(** The bytes of an open file: as many as were asked for, as one answer holds and as there
    are, from the offset on *)
Lemma h_read_andx_exact r fid offset count (w : W) f fh p c i :
  params r = read_request fid offset count -> 0 <= fid < 65536 -> 0 <= offset < 2 ^ 64 -> 0 <= count < 2 ^ 32 ->
  alookup fid (files (cn w)) = Some f -> of_fh f = Some fh -> sh_at (host w) fh p i -> sh_file (host w) p = Some c ->
  let d := slice c offset (offset + Z.min count 65535) in
  exists o, h_read_andx r w = (Ok (done (read_words (zlen d)) d), w <| host := o |>) /\ same_files (host w) o /\
    sh_at o fh p (offset + zlen d).
Proof.
  intros Hr Hfid Hoff Hcount Hf Hfh Hat Hc d.
  destruct (sh_seek (host w) fh p i offset Hat ltac:(lia)) as (x & o1 & E1 & Hat1 & Hs1a & Hs1b).
  assert (Hc1 : sh_file o1 p = Some c) by by rewrite Hs1a.
  destruct (sh_read o1 fh p offset c (Z.min count 65535) Hat1 Hc1) as (o2 & E2 & Hat2 & Hs2a & Hs2b); [lia|lia|].
  exists o2. split; [|split; [split; intros q; by rewrite ?Hs2a, ?Hs2b|done]].
  assert (Hd : 0 <= zlen d < 65536) by (unfold d; rewrite zlen_slice by lia; pose proof (zlen_nonneg c); lia).
  unfold h_read_andx. rewrite Hr. cbv zeta.
  unfold mbind at 1, M_bind at 1, lift at 1. change (u16_at (read_request fid offset count) 4) with (Ok (le_int (le_bytes 2 fid))).
  unfold mbind at 1, M_bind at 1, lift at 1. change (u32_at (read_request fid offset count) 6) with (Ok (le_int (le_bytes 4 (offset mod 2 ^ 32)))).
  unfold mbind at 1, M_bind at 1, lift at 1. change (u16_at (read_request fid offset count) 10) with (Ok (le_int (le_bytes 2 (count mod 2 ^ 16)))).
  unfold mbind at 1, M_bind at 1, lift at 1. change (u16_at (read_request fid offset count) 14) with (Ok (le_int (le_bytes 2 (count / 2 ^ 16)))).
  change (24 <=? zlen (read_request fid offset count)) with true. cbv beta iota.
  unfold mbind at 1, M_bind at 1, lift at 1. change (u32_at (read_request fid offset count) 20) with (Ok (le_int (le_bytes 4 (offset / 2 ^ 32)))).
  rewrite !le2_field, !le4_field by divlia. rewrite !lor_parts by lia.
  cbv beta iota. unfold mbind at 1, M_bind at 1, cget at 1, mget at 1. cbv beta iota. rewrite Hf. cbn [mbind option_bind]. rewrite Hfh.
  assert (Hreq : (if negb (count =? 0) then Z.min count 65535 else 0) = Z.min count 65535) by (destruct (Z.eqb_spec count 0); cbn [negb]; lia).
  rewrite Hreq. unfold mbind at 1, M_bind at 1. unfold on_host at 1. rewrite E1.
  unfold mbind at 1, M_bind at 1. unfold on_host at 1. change (host (w <| host := o1 |>)) with o1. rewrite E2. fold d.
  change (w <| host := o1 |> <| host := o2 |>) with (w <| host := o2 |>).
  assert (Hsh : Z.shiftr (zlen d) 16 = 0) by (rewrite Z.shiftr_div_pow2 by lia; divlia). rewrite low16, Hsh by done.
  unfold mbind at 1, M_bind at 1, packed, lift. cbn [pack]. rewrite (fits_unsigned 2 (zlen d)) by done. done.
Qed.

(** C24. A request for [count] bytes at [offset] of an open file is answered with a message in which
    the client finds, where the message says they are, exactly those bytes of the file; the
    file and the connection's tables stay as they are. *)
Theorem client_reads_file r fid offset count (w : W) f fh p c i :
  cmd r = SMB_COM_READ_ANDX -> params r = read_request fid offset count ->
  0 <= fid < 65536 -> 0 <= offset < 2 ^ 64 -> 0 <= count < 2 ^ 32 ->
  alookup fid (files (cn w)) = Some f -> of_fh f = Some fh -> sh_at (host w) fh p i -> sh_file (host w) p = Some c ->
  sending w ->
  exists m w', serve_request srv r w = (Ok tt, w') /\ out w' = out w ++ framed m /\ status_of m = STATUS_SUCCESS /\
    read_data m = slice c offset (offset + Z.min count 65535) /\ cn w' = cn w /\ same_files (host w) (host w') /\
    exists j, sh_at (host w') fh p j.
Proof.
  intros Hcmd Hr Hfid Hoff Hcount Hf Hfh Hat Hc Hsend.
  destruct (serve_request_with r h_read_andx w) as (w1 & Hh1 & Hc1 & Ho1 & Hs1 & Hserve); [by rewrite Hcmd|].
  rewrite <- Hh1 in Hat, Hc. rewrite <- Hc1 in Hf.
  destruct (h_read_andx_exact r fid offset count w1 f fh p c i Hr Hfid Hoff Hcount Hf Hfh Hat Hc) as (o & E & Hfiles & Hat').
  set (d := slice c offset _) in *.
  assert (Hd : 0 <= zlen d < 65536) by (unfold d; rewrite zlen_slice by lia; pose proof (zlen_nonneg c); lia).
  rewrite (Hserve _ _ E). set (v := set_field _ _ w1). assert (Hv : sending v) by (unfold sending; cbn; by rewrite Hs1).
  destruct (send_reply_works r (read_words (zlen d)) d None None v) as (w2 & E2 & Ho2 & Hh2 & Hc2); [by split|lia|done|].
  exists (message (cmd r) STATUS_SUCCESS (tid r) (pid r) (uid r) (mid r) (read_words (zlen d)) d), w2.
  split_and!; [exact E2|by rewrite <- Ho1|by apply (status_read_back (cmd r) STATUS_SUCCESS)|apply read_read_back; lia|by rewrite Hc2| |].
  - by rewrite Hh2, <- Hh1.
  - rewrite Hh2. by eexists.
Qed.
End read.

(** ** Searches *)

Section find.
Context {Os : Type} `{ExclusiveOs Os} `{CaseFolding} `{FloatTime} (srv : server).
Abbreviation W := (smb1 Os).

(** What a client takes from the answer to a TRANS2 request: its parameters and its data *)
Definition answer_of (rep : reply) : option (bytes * bytes) :=
  ps ← r_params rep; let m := message 0 0 0 0 0 0 ps (r_data rep) in Some (trans_params m, trans_data m).

Lemma trans_reply_answers ps d (w : W) : zlen ps < 65000 -> zlen d < 65536 ->
  exists rep, trans_reply ps d w = (Ok rep, w) /\ answer_of rep = Some (ps, d).
Proof.
  intros Hps Hd. eexists. split; [by apply trans_reply_ok|]. unfold answer_of. cbn [r_params done mbind option_bind r_data].
  by destruct (trans_read_back 0 0 0 0 0 0 ps d Hps Hd) as [-> ->].
Qed.

(** The record of an entry as the host is *)
Definition described (o : Os) (e : entry) (b : bytes) : Prop := forall w : W, host w = o -> dir_entry_104 e w = (Ok b, w).

(** The record of a file or folder that is there: its size, its kind and its name *)
Lemma described_entry o name p st dir :
  os_stat p o = Ok st -> path_isdir p o = Ok dir -> fits fQ (st_size st) = true -> fits fq (to_filetime (st_mtime st)) = true ->
  zlen (ascii_only name) < 2 ^ 32 ->
  exists b, described o (name, p) b /\ zdrop 94 b = ascii_only name /\
    le_int (slice b 40 48) = (if dir then 0 else st_size st) /\
    le_int (slice b 56 60) = (if dir then ATTR_DIRECTORY else ATTR_NORMAL) /\ le_int (slice b 60 64) = zlen (ascii_only name).
Proof.
  intros Hst Hdir Hsize Hft Hname. pose proof (zlen_nonneg (ascii_only name)) as Hn0.
  set (size := if dir then 0 else st_size st). set (ft := to_filetime (st_mtime st)).
  assert (Hs : fits fQ size = true) by (unfold size; by destruct dir).
  set (fields := le_bytes 4 0 ++ le_bytes 4 0 ++ le_bytes 8 ft ++ le_bytes 8 ft ++ le_bytes 8 ft ++ le_bytes 8 ft ++ le_bytes 8 size
    ++ le_bytes 8 size ++ le_bytes 4 (if dir then ATTR_DIRECTORY else ATTR_NORMAL) ++ le_bytes 4 (zlen (ascii_only name)) ++ le_bytes 4 0
    ++ [0; 0]).
  exists (fields ++ zeros 24 ++ ascii_only name). split_and!.
  - intros w Hw. unfold dir_entry_104. unfold mbind at 1, M_bind at 1.
    assert (Ef : attempt (st0 ← ask (os_stat p); dir0 ← ask (path_isdir p);
                          mret (dir0, if (dir0 : bool) then 0 else st_size st0, to_filetime (st_mtime st0))) w
                 = (Ok (inl (dir, size, ft)), w)).
    { unfold attempt, mcatch, mbind, M_bind, ask, mret, M_ret. by rewrite Hw, Hst, Hdir. }
    rewrite Ef. cbv beta iota zeta. unfold mbind at 1, M_bind at 1.
    assert (Hp : packed [(fI, 0); (fI, 0); (fq, ft); (fq, ft); (fq, ft); (fq, ft); (fQ, size); (fQ, size);
                   (fI, if dir then ATTR_DIRECTORY else ATTR_NORMAL); (fI, zlen (ascii_only name)); (fI, 0); (fB, 0); (fB, 0)] w
                 = (Ok fields, w)).
    { unfold packed, lift. cbn [pack]. fold ft in Hft. rewrite Hft, Hs, (fits_unsigned 4 (zlen _)) by done.
      rewrite (fits_unsigned 4 (if dir then _ else _)) by (destruct dir; by vm_compute). done. }
    by rewrite Hp.
  - reflexivity.
  - change (slice _ 40 48) with (le_bytes 8 size). rewrite le_int_le_bytes. apply Z.mod_small. by apply (fits_nonneg 8).
  - change (slice _ 56 60) with (le_bytes 4 (if dir then ATTR_DIRECTORY else ATTR_NORMAL)). by destruct dir.
  - change (slice _ 60 64) with (le_bytes 4 (zlen (ascii_only name))). by apply le4_field.
Qed.

(** The client asks for the next entry until the server says that it was the last. *)
Fixpoint next_entries (fuel : nat) (sid : Z) (w : W) : result (list bytes) * W :=
  match fuel with
  | O => (Err Hang, w)
  | S fuel =>
      match h_trans2_find_next2 (le_bytes 2 sid) w with
      | (Ok rep, w) =>
          match answer_of rep with
          | Some (rp, rd) =>
              if le_int (slice rp 0 2) =? 0 then (Ok [], w)
              else if le_int (slice rp 2 4) =? 1 then (Ok [rd], w)
              else let '(rds, w) := next_entries fuel sid w in (rds ← rds; Ok (rd :: rds), w)
          | None => (Err ValueError, w)
          end
      | (Err e, w) => (Err e, w)
      end
  end.

(** The whole search *)
Definition find_entries (fuel : nat) (r : req) (t_params : bytes) (w : W) : result (list bytes) * W :=
  match h_trans2_find_first2 r t_params w with
  | (Ok rep, w) =>
      match answer_of rep with
      | Some (rp, rd) =>
          if le_int (slice rp 4 6) =? 1 then (Ok [rd], w)
          else let '(rds, w) := next_entries fuel (le_int (slice rp 0 2)) w in (rds ← rds; Ok (rd :: rds), w)
      | None => (Err ValueError, w)
      end
  | (Err e, w) => (Err e, w)
  end.

Lemma alloc_sid_run (w : W) :
  exists w', alloc_sid w = (Ok (next_id 1 (next_sid (cn w))), w') /\ host w' = host w.
Proof. eexists. split; reflexivity. Qed.

Lemma next_step sid entries c e b (w : W) : 0 <= sid < 65536 -> 0 <= c ->
  alookup sid (searches (cn w)) = Some (entries, c) -> entries !! Z.to_nat c = Some e -> described (host w) e b -> zlen b < 65536 ->
  exists rep w', h_trans2_find_next2 (le_bytes 2 sid) w = (Ok rep, w') /\
    answer_of rep = Some (le_bytes 2 1 ++ le_bytes 2 (if c =? Z.of_nat (length entries) - 1 then 1 else 0) ++ zeros 4, b) /\
    host w' = host w /\ alookup sid (searches (cn w')) = Some (entries, c + 1).
Proof.
  intros Hsid Hc Hs He Hd Hb. unfold h_trans2_find_next2.
  unfold mbind at 1, M_bind at 1, lift at 1. change (u16_at (le_bytes 2 sid) 0) with (Ok (le_int (le_bytes 2 sid))).
  rewrite le2_field by done. cbv beta iota.
  unfold mbind at 1, M_bind at 1, cget at 1, mget at 1. cbv beta iota. rewrite Hs, He. cbv zeta.
  unfold mbind at 1, M_bind at 1, cmod at 1, mmod at 1. cbv beta iota. set (w1 := set_field cn _ w).
  set (eos := if _ =? _ then 1 else 0).
  set (rp := le_bytes 2 1 ++ le_bytes 2 eos ++ zeros 4).
  unfold mbind at 1, M_bind at 1.
  assert (Hp : packed [(fH, 1); (fH, eos); (fH, 0); (fH, 0)] w1 = (Ok rp, w1)).
  { unfold packed, lift. cbn [pack]. rewrite (fits_unsigned 2 eos); [done|]. unfold eos. destruct (_ =? _); by vm_compute. }
  rewrite Hp. cbv beta iota. unfold mbind at 1, M_bind at 1. rewrite (Hd w1 eq_refl). cbv beta iota.
  destruct (trans_reply_answers rp b w1) as (rep & Er & Ea); [done|done|]. exists rep, w1. rewrite Er. split_and!; [done|done|done|].
  unfold w1. cbn. by rewrite alookup_aset.
Qed.

Lemma next_entries_all sid entries bs c fuel (w : W) : 0 <= sid < 65536 -> 0 <= c ->
  alookup sid (searches (cn w)) = Some (entries, c) -> Forall2 (described (host w)) (zdrop c entries) bs -> bs <> [] ->
  Forall (fun b => zlen b < 65536) bs -> (length bs <= fuel)%nat ->
  exists w', next_entries fuel sid w = (Ok bs, w') /\ host w' = host w.
Proof.
  intros Hsid Hc0 Hs Hd Hne Hb Hf. revert c bs w Hc0 Hs Hd Hne Hb Hf. induction fuel as [|fuel IH]; intros c bs w Hc0 Hs Hd Hne Hb Hf.
  { destruct bs; [done|cbn in Hf; lia]. }
  destruct bs as [|b bs]; [done|]. apply Forall_cons in Hb as [Hb Hbs]. clear Hne.
  inversion Hd as [|e ? es ? He Hes Ees]; subst.
  assert (Hat : entries !! Z.to_nat c = Some e) by (rewrite <- (Nat.add_0_r (Z.to_nat c)), <- lookup_drop; change (drop _ _) with (zdrop c entries); by rewrite <- Ees).
  assert (Hlen : Z.of_nat (length entries) = c + 1 + Z.of_nat (length bs)).
  { apply (f_equal length) in Ees. cbn in Ees. unfold zdrop in Ees. rewrite length_drop in Ees. apply Forall2_length in Hes. lia. }
  destruct (next_step sid entries c e b w Hsid Hc0 Hs Hat He Hb) as (rep & w1 & E & Ea & Hh & Hs1).
  cbn [next_entries]. rewrite E, Ea. set (eos := if _ =? _ then _ else _) in *.
  change (slice (le_bytes 2 1 ++ le_bytes 2 eos ++ zeros 4) 0 2) with (le_bytes 2 1).
  change (slice (le_bytes 2 1 ++ le_bytes 2 eos ++ zeros 4) 2 4) with (le_bytes 2 eos).
  change (le_int (le_bytes 2 1) =? 0) with false. cbv beta iota.
  assert (Heos : le_int (le_bytes 2 eos) = eos) by (apply le2_field; unfold eos; destruct (_ =? _); lia). rewrite Heos.
  destruct bs as [|b' bs].
  - unfold eos. rewrite (proj2 (Z.eqb_eq c _)) by (cbn in Hlen; lia). exists w1. by rewrite Hh.
  - unfold eos. rewrite (proj2 (Z.eqb_neq c _)) by (cbn in Hlen; lia). change (0 =? 1) with false. cbv beta iota.
    destruct (IH (c + 1) (b' :: bs) w1) as (w2 & E2 & Hh2); [lia|done| |done|done|cbn in *; lia|].
    + rewrite Hh. rewrite Z.add_comm, <- zdrop_zdrop by lia. rewrite <- Ees. exact Hes.
    + rewrite E2. exists w2. by rewrite Hh2, Hh.
Qed.

(** Whatever the order in which the host lists a folder, a client that searches it and asks for
    the next entry until it is told that there is none after it is given, within as many
    requests, the record of the folder, of its parent and of every name exactly once, the
    names in order; the host is as before. *)
Theorem search_lists_once fuel r t_params s p names bs (w : W) :
  share_for_tid r w = (Ok (Some s), w) ->
  resolve s (or_root (search_dir (ascii_only (z_string (zdrop 12 t_params))))) (host w) = Ok (Some p) ->
  path_isdir p (host w) = Ok true -> os_listdir p (host w) = Ok names ->
  Forall2 (described (host w)) (entries_of p names) bs -> Forall (fun b => zlen b < 65536) bs -> (length bs <= fuel)%nat ->
  exists w', find_entries fuel r t_params w = (Ok bs, w') /\ host w' = host w.
Proof.
  intros Hsh Hres Hdir Hls Hd Hb Hf. destruct bs as [|b bs]; [inversion Hd|]. apply Forall_cons in Hb as [Hb Hbs].
  inversion Hd as [|e ? es ? He Hes Ee]; subst. pose proof (Forall2_length _ _ _ Hes) as Hlen.
  set (sid := next_id 1 (next_sid (cn w))).
  assert (Hsid : 0 <= sid < 65536).
  { unfold sid, next_id. change 65535 with (Z.ones 16). rewrite Z.land_ones by lia.
    pose proof (Z.mod_pos_bound (next_sid (cn w) + 1) (2 ^ 16)). destruct (_ =? 0); lia. }
  unfold find_entries, h_trans2_find_first2. unfold mbind at 1, M_bind at 1. rewrite Hsh. cbv beta iota.
  unfold mbind at 1, M_bind at 1, ask at 1. rewrite Hres. cbv beta iota.
  unfold mbind at 1, M_bind at 1, ask at 1. rewrite Hdir. cbv beta iota. cbn [negb].
  unfold mbind at 1, M_bind at 1. assert (Hls' : attempt (ask (os_listdir p)) w = (Ok (inl names), w)) by (unfold attempt, mcatch, mbind, M_bind, ask; by rewrite Hls).
  rewrite Hls'. cbv beta iota zeta.
  assert (Heos : (if (length (entries_of p names) =? 1)%nat then 1 else 0) = 0) by by destruct names.
  rewrite Heos. unfold mbind at 1, M_bind at 1. destruct (alloc_sid_run w) as (w1 & Ew1 & Hh1). rewrite Ew1. fold sid. cbv beta iota.
  unfold mbind at 1, M_bind at 1, cmod at 1, mmod at 1. cbv beta iota. set (w2 := set_field cn _ w1).
  assert (Hs2 : alookup sid (searches (cn w2)) = Some (entries_of p names, 1)) by (unfold w2; cbn; by rewrite alookup_aset).
  set (rp := le_bytes 2 sid ++ le_bytes 2 1 ++ zeros 6).
  assert (Hp : packed [(fH, sid); (fH, 1); (fH, 0); (fH, 0); (fH, 0)] w2 = (Ok rp, w2)).
  { unfold packed, lift. cbn [pack]. by rewrite (fits_unsigned 2 sid). }
  unfold mbind at 1, M_bind at 1. rewrite Hp. cbv beta iota. unfold mbind at 1, M_bind at 1.
  rewrite (He w2 Hh1). cbv beta iota.
  destruct (trans_reply_answers rp b w2) as (rep & Er & Ea); [done|done|]. rewrite Er, Ea.
  change (slice rp 4 6) with (le_bytes 2 0). change (le_int (le_bytes 2 0) =? 1) with false. cbv beta iota.
  change (slice rp 0 2) with (le_bytes 2 sid). rewrite le2_field by done.
  destruct (next_entries_all sid (entries_of p names) bs 1 fuel w2) as (w3 & E3 & Hh3);
    [done|done|done| |by destruct bs|done|cbn in Hf; lia|].
  - replace (host w2) with (host w) by (symmetry; exact Hh1). exact Hes.
  - rewrite E3. exists w3. split; [done|]. by rewrite Hh3.
Qed.
End find.
