(* ===== verification/HttpWitnesses.v ===== *)
(** * The HTTP server: a concrete folder

    The small host of [Toy] is a [StreamHost]; on a folder of it, where names fold as ASCII
    does, the hypotheses of the theorems about the catalogue and the handler hold together,
    and the behaviours reported as findings are evaluated. *)

From S2P Require Import Prelude PyStr PyText PathNames SessionStats Compressed HostOs ChdCue Handlers Toy Catalogue CatalogueFacts Http HttpFacts HttpServeFacts.

(** ** The host *)

#[export] Instance ascii_unicode : Unicode := {| py_lower := lower; is_decimal := is_digit |}.

Definition stream_file (t : toy) (p : str) : option bytes :=
  match node_at p (t_nodes t) with Some (N_file c) => Some c | _ => None end.

Definition stream_at (t : toy) (f : Z) (p : str) (i : Z) : Prop :=
  exists o c, file_at f (t_files t) = Some o /\ of_path o = p /\ of_pos o = i /\ node_at p (t_nodes t) = Some (N_file c).

Lemma file_at_own f o l : file_at f (set_file f o l) = Some o.
Proof. unfold set_file. cbn. by rewrite Z.eqb_refl. Qed.

Lemma stream_file_inv t p c : stream_file t p = Some c -> node_at p (t_nodes t) = Some (N_file c).
Proof. unfold stream_file. destruct (node_at p (t_nodes t)) as [[]|]; try done. by intros [= <-]. Qed.

(** An operation that moves the position and leaves the content *)
Lemma with_file_moves {A} t f p i c (k : open_file -> bytes -> result A * open_file * bytes) a j :
  stream_at t f p i -> node_at p (t_nodes t) = Some (N_file c) ->
  (forall o, of_path o = p -> of_pos o = i -> k o c = (Ok a, at_pos o j, c)) ->
  exists t', with_file f k t = (Ok a, t') /\ stream_at t' f p j /\ t_nodes t' = t_nodes t.
Proof.
  intros (o & c' & Ho & Hp & Hi & Hc') Hc Hk. exists (t <| t_files := set_file f (at_pos o j) (t_files t) |>).
  unfold with_file. rewrite Ho, Hp, Hc, (Hk o Hp Hi), bool_decide_true by done. split_and!; [by destruct t| |done].
  exists (at_pos o j), c. split_and!; [apply file_at_own|done|done|done].
Qed.

#[export] Program Instance toy_stream : StreamHost toy := {| sh_file := stream_file; sh_at := stream_at |}.
Next Obligation.
  intros t p c Hp%stream_file_inv. cbn. unfold toy_open. cbn [follow]. rewrite Hp.
  eexists _, _. split; [reflexivity|]. split_and!; [|done|done].
  exists (OpenFile p 0 m_rb), c. split_and!; [apply file_at_own|done|done|done].
Qed.
Next Obligation.
  intros t f p i off Hat Hoff. pose proof Hat as (o & c & Hf).
  destruct (with_file_moves t f p i c (fun o c => (Ok off, at_pos o off, c)) off off) as (t' & E & H' & Hn);
    [done|apply Hf|done|].
  exists off, t'. split_and!; [done|done|..]; intros q; cbn; unfold stream_file; by rewrite Hn.
Qed.
Next Obligation.
  intros t f p i c n Hat Hc%stream_file_inv Hi Hn.
  destruct (with_file_moves t f p i c (fun o c => let d := slice c (of_pos o) (of_pos o + n) in
                                        (Ok d, at_pos o (of_pos o + zlen d), c))
              (slice c i (i + n)) (i + zlen (slice c i (i + n)))) as (t' & E & H' & Hn'); [done|done| |].
  { intros o _ <-. done. }
  exists t'. split_and!; [done|done|..]; intros q; cbn; unfold stream_file; by rewrite Hn'.
Qed.
Next Obligation. intros t f p i _. by eexists. Qed.

(** ** A games folder *)

Definition rumble : text := lit "/g/DVD/SLUS_201.74.Rumble Racing.iso".

Definition folder : toy :=
  {| t_nodes := [(lit "/", N_dir); (lit "/g", N_dir); (lit "/g/DVD", N_dir); (rumble, N_file (lit "0123456789"));
                 (lit "/g/b,c.iso", N_file (lit "abc"))];
     t_files := []; t_next := 3 |}.

Definition served_by (aware : bool) : settings :=
  {| root_dir := lit "/g"; enable_compression := false; path_aware := aware; recursive := aware |}.

Definition index_of (aware : bool) : index :=
  match refresh (served_by aware) true new_index folder with Ok i => i | Err _ => new_index end.

Definition files_of (p : text) : option (bool * bytes) :=
  match stream_file folder p with Some c => Some (false, c) | None => None end.

Lemma index_refreshed aware : refresh (served_by aware) true new_index folder = Ok (index_of aware).
Proof. by destruct aware; vm_compute. Qed.

Lemma utf8_prefix_longest_witness : exists k data,
  utf8_prefix [233; 128190; 97] 5 = Ok (take k [233; 128190; 97]) /\ zlen (data : bytes) <= 5.
Proof.
  destruct (utf8_prefix_longest [233; 128190; 97] 5) as (k & data & E & _ & Hz & _).
  - repeat constructor; unfold is_scalar; lia.
  - lia.
  - by exists k, data.
Defined.

(** The entries of the folder *)
Definition entries_here : list game_entry := map snd (map_to_list (exact_paths (index_of true))).

Lemma riptopl_list_reads_back_witness : exists st, build_riptopl_csv entries_here = Ok st /\ zlen (retained st) = 2 /\
  NoDup (map startup (retained st)).
Proof.
  destruct (build_riptopl_csv entries_here) as [st|e] eqn:E; [|by vm_compute in E].
  exists st. split; [done|]. split; [by vm_compute in E; apply Ok_inj in E as <-|].
  apply (riptopl_list_reads_back entries_here st E).
Defined.

Lemma refresh_serves_witness : serves (served_by true) folder (index_of true).
Proof.
  destruct (refresh_serves (served_by true) true new_index folder (index_of true) eq_refl (index_refreshed true)) as [E|Hs];
    [|exact Hs].
  exfalso. apply (f_equal (fun i => zlen (csv i))) in E. by vm_compute in E.
Defined.

Lemma listed_row_answered_witness : exists e uri,
  Catalogue.path e = lit "/g/b,c.iso" /\ riptopl_encoded_path (rel_path e) = Ok uri /\
  answer (served_by true) (index_of true) (content files_of) (row_request GET uri 1 2 false)
  = Some (range_answer 1 2 3 (lit "abc")).
Proof.
  destruct (listed_row_answered (served_by true) true new_index folder (index_of true) (content files_of) eq_refl
              (index_refreshed true)) as (es & txt & Ht & Hr & Ha).
  { intros E. apply (f_equal (fun i => zlen (csv i))) in E. by vm_compute in E. }
  vm_compute in Ht. apply Ok_inj in Ht as <-. vm_compute in Hr. apply (f_equal (fun l => hd [] (default [] l))) in Hr.
  destruct es as [|e es]; [done|]. cbn in Hr. destruct (Ha e (list_elem_of_here e es)) as (uri & Hu & Hl & Hans).
  assert (Hp : rel_path e = lit "b,c.iso") by (vm_compute; congruence). clear Hr.
  rewrite Hp in Hl. vm_compute in Hl. injection Hl as <-. eexists _, uri. split_and!; [|exact Hu|]; [done|].
  by apply Hans; vm_compute.
Defined.

Lemma flat_list_reads_back_witness : Forall (flat_entry (served_by false) folder) (map snd (entries (index_of false))).
Proof.
  apply (flat_list_reads_back (served_by false) new_index folder (index_of false) eq_refl); [done|].
  exact (index_refreshed false).
Defined.

(** *** The handler *)

(** Every entry a name can lead to *)
Lemma lookup_range cfg name i e : lookup cfg name i = Some e ->
  In e (map snd (map_to_list (exact_paths i)) ++ map snd (map_to_list (path_entries i)) ++ map snd (entries i)).
Proof.
  intros Hl. assert (Hm : forall (m : gmap text game_entry) k, m !! k = Some e -> In e (map snd (map_to_list m))).
  { intros m k Hk. apply in_map_iff. exists (k, e). split; [done|]. by apply list_elem_of_In, elem_of_map_to_list. }
  assert (Ha : forall b l, Formats.assoc b l = Some e -> In e (map snd l)).
  { intros b l. induction l as [|[k x] l IH]; [done|]. cbn. destruct (str_eqb _ _); [intros [= ->]; by left|right; auto]. }
  rewrite !in_app_iff. unfold lookup in Hl. destruct (path_aware cfg).
  - unfold lookup_path in Hl. revert Hl. generalize (split_on SLASH (clean_path name)) as parts.
    induction parts as [|p parts IH]; [done|]. cbn [lookup_from].
    destruct (exact_paths i !! _) eqn:E1; [intros [= ->]; left; by eapply Hm|].
    case_bool_decide; [done|]. destruct (path_entries i !! _) eqn:E2; [intros [= ->]; right; left; by eapply Hm|exact IH].
  - destruct (path_entries i !! _) eqn:E2; [injection Hl as ->; right; left; by eapply Hm|].
    case_bool_decide; [done|]. right; right. by eapply Ha.
Qed.

(** The index agrees with the folder. *)
Definition entry_agrees (e : game_entry) : bool :=
  match files_of (Catalogue.path e) with
  | Some (z, c) => Bool.eqb z (compressed e) && (size e =? zlen c)
  | None => false
  end.

Lemma index_agrees aware name e : lookup (served_by aware) name (index_of aware) = Some e ->
  exists c, files_of (Catalogue.path e) = Some (compressed e, c) /\ size e = zlen c.
Proof.
  intros Hl%lookup_range.
  assert (Ha : forallb entry_agrees (map snd (map_to_list (exact_paths (index_of aware)))
                 ++ map snd (map_to_list (path_entries (index_of aware))) ++ map snd (entries (index_of aware))) = true)
    by by destruct aware; vm_compute.
  pose proof (proj1 (forallb_forall _ _) Ha e Hl) as He. unfold entry_agrees in He.
  destruct (files_of _) as [[z c]|]; [|done]. apply andb_prop in He as [<-%Bool.eqb_prop Hs%Z.eqb_eq]. by exists c.
Qed.

Lemma folder_files p c : stream_file folder p = Some c ->
  p = rumble /\ c = lit "0123456789" \/ p = lit "/g/b,c.iso" /\ c = lit "abc".
Proof.
  unfold stream_file, node_at. cbn [t_nodes folder].
  repeat match goal with |- context [str_eqb ?q p] => destruct (str_eqb_spec q p) as [<-|] end; try done;
    intros E; apply (inj Some) in E as <-; auto.
Qed.

Lemma header_fits_witness :
  zlen (header_of (zeros 29) (range_answer 2 5 10 (lit "0123456789"))) <= HEADER_MAX.
Proof.
  apply (header_fits (served_by true) (index_of true) (content files_of)
           (Request GET (lit "/DVD/SLUS_201.74.Rumble%20Racing.iso") (Some (lit "bytes=2-5")) false false)).
  - intros name e He. destruct (index_agrees _ _ _ He) as (c & Hf & ->). unfold content. by rewrite Hf.
  - intros name e He. destruct (index_agrees _ _ _ He) as (c & Hf & ->). unfold files_of in Hf.
    destruct (stream_file _ _) as [d|] eqn:Ed; [|done]. injection Hf as _ <-.
    by destruct (folder_files _ _ Ed) as [[_ ->]|[_ ->]]; vm_compute.
  - by vm_compute.
  - done.
  - by vm_compute.
Defined.

(** A connection that the folder's list was made for *)
Definition web_of (aware : bool) (t : toy) (s : list sock_event) : web toy :=
  {| host := t; idx := index_of aware; cached := None; close_connection := false; out := []; script := s; clock := 0;
     summary := None; peer := 1 |}.

Definition no_date (now : Z) : bytes := lit "Thu, 01 Jan 1970 00:00:00 GMT".

Lemma folder_ready aware s : working s -> ready (served_by aware) files_of (web_of aware folder s).
Proof.
  intros Hs. split; [|done|apply index_agrees|by destruct aware; vm_compute|done].
  intros p z c. unfold files_of. destruct (stream_file folder p) as [d|] eqn:E; [|done]. intros [= <- <-].
  exists p. split; [|exact E]. by destruct (folder_files _ _ E) as [[-> _]|[-> _]]; vm_compute.
Qed.

Definition get (uri range : String.string) : request := Request GET (lit uri) (Some (lit range)) false false.

(** Three requests: a range, the list's size, a name that is not there.  [sendfile] stops
    after three bytes, and the rest is copied. *)
Definition three_requests : list request :=
  [get "/DVD/SLUS_201.74.Rumble%20Racing.iso" "bytes=2-7"; Request HEAD (lit "/GAMES.csv") None false false;
   get "/none.iso" ""].

Lemma connection_answered_witness : exists w' stream,
  serve_connection (served_by true) no_date three_requests (web_of true folder [Sends 0; Sends 3]) = (Ok tt, w') /\
  out w' = stream /\
  read_responses [GET; HEAD; GET] stream = Some ([(206, lit "234567"); (200, []); (404, not_found ++ [10])], []).
Proof.
  destruct (connection_answered (served_by true) no_date files_of three_requests
              [range_answer 2 7 10 (lit "0123456789"); csv_answer (csv (index_of true)); short 404 not_found]
              (web_of true folder [Sends 0; Sends 3])) as (w' & stream & Hr & Ho & Hs).
  - apply (folder_ready true [Sends 0; Sends 3]). by repeat constructor.
  - apply (bool_decide_unpack _). by vm_compute.
  - repeat constructor; by vm_compute.
  - exists w', stream. split_and!; [exact Hr|exact Ho|exact Hs].
Defined.

(** ** Faults *)

(** A read error after the headers: a second response, 500, is sent inside the body that
    the first one announced, and the connection is left open. *)
Lemma failed_copy_sends_two_responses :
  let w := web_of true folder [Sends 0; Unavailable; Fails 0 (Some EIO)] in
  let '(r, w') := handle_requests (served_by true) no_date [get "/DVD/SLUS_201.74.Rumble%20Racing.iso" "bytes=2-7"] w in
  r = Ok tt /\ close_connection w' = false /\
  out w' = header_of (no_date 0) (range_answer 2 7 10 (lit "0123456789"))
           ++ header_of (no_date 0) (short 500 server_error) ++ server_error ++ [10].
Proof. by vm_compute. Qed.

(** The same when the file cannot be opened any more *)
Lemma vanished_file_sends_two_responses :
  let w := web_of true (folder <| t_nodes := [] |>) [] in
  let '(r, w') := handle_requests (served_by true) no_date [get "/DVD/SLUS_201.74.Rumble%20Racing.iso" "bytes=2-7"] w in
  r = Ok tt /\ close_connection w' = false /\
  out w' = header_of (no_date 0) (range_answer 2 7 10 (lit "0123456789"))
           ++ header_of (no_date 0) (short 500 server_error) ++ server_error ++ [10].
Proof. by vm_compute. Qed.

(** A name with an unescaped [#] is cut there, and not found. *)
Lemma hash_name_cut : normalised_path (lit "/a#b.iso") = Ok (Some (lit "a")).
Proof. reflexivity. Qed.

(** Two files of one name: the flat list has a row for the name, and the name it gives is
    answered 404. *)
Lemma listed_duplicate_not_found :
  let o := {| t_nodes := [(lit "/", N_dir); (lit "/g", N_dir); (lit "/g/DVD", N_dir);
                          (lit "/g/DVD/SLUS_1.iso", N_file (lit "0123")); (lit "/g/SLUS_1.iso", N_file (lit "abc"))];
              t_files := []; t_next := 3 |} in
  exists i, refresh (served_by false) true new_index o = Ok i /\
    length (entries i) = 1%nat /\ zlen (split_on NEWLINE (csv i)) = 2 /\
    answer (served_by false) i (fun _ => []) (get "/SLUS_1.iso" "bytes=0-1") = Some (short 404 not_found).
Proof. eexists. split; [vm_compute; reflexivity|]. by vm_compute. Qed.
