(* ===== verification/Smb2Witnesses.v ===== *)
(** * The SMB2 server: a concrete folder

    The small host of [Toy] has what the server asks for; with ASCII case and whole seconds
    the hypotheses of the theorems about a connection hold together, whole connections
    evaluate, and so do the behaviours reported as findings. *)

From stdpp Require Import relations.
From S2P Require Import Prelude Tables PyStr PyText PathNames SessionStats Compressed HostOs PyHash PyGlob Smb2Wire Smb2Crypto Smb2Auth Smb2Srvsvc Smb2Paths Smb2Server Smb2Facts Smb2LogonFacts Smb2SignFacts Smb2WireFacts Smb2FileFacts Smb2SrvsvcFacts Toy.

(** ** The host *)

#[export] Instance ascii_case : CaseFolding := {|
  py_casefold := lower;
  py_upper := map (fun c => if (97 <=? c) && (c <=? 122) then c - 32 else c);
  py_lowercase := lower
|}.

#[export] Instance whole_seconds : FloatTime := {| ticks t := t * 10000000 |}.

#[export] Instance toy_share : ShareOs toy := {
  os_replace p q t :=
    match node_at p (t_nodes t) with
    | Some n => (Ok tt, t <| t_nodes ::= fun l => set_node q n (List.filter (fun qn => negb (str_eqb (fst qn) p)) l) |>)
    | None => (oserror ENOENT, t)
    end;
  os_fsync f t := (Ok tt, t);
  f_truncate f n := with_file f (fun o c =>
    if n <? 0 then (oserror EINVAL, o, c)
    else if writes_mode (of_mode o) then (Ok tt, o, ljust (ztake n c) n)
    else (Err (OSError None), o, c));
  os_statvfs p t := Ok (Statvfs 1000 500 4096)
}.

(** A folder served for writing, one served read-only, and one with awkward names *)
Definition disk : toy :=
  {| t_nodes := [(lit "/", N_dir); (lit "/g", N_dir); (lit "/g/a.iso", N_file (lit "0123456789")); (lit "/g/d", N_dir);
                 (lit "/g/d/x", N_file (lit "abc")); (lit "/r", N_dir); (lit "/r/a.iso", N_file (lit "read only"));
                 (lit "/o", N_dir); (lit "/o/a[1].iso", N_file []); (lit "/o/" ++ [255], N_file [])];
     t_files := []; t_next := 3 |}.

Definition share_list : list (text * share) :=
  [(lit "games", Share (lit "games") (lit "/g") false); (lit "kept", Share (lit "kept") (lit "/r") true);
   (lit "odd", Share (lit "odd") (lit "/o") false)].

Definition serves (au : authenticator) (ro : bool) : server :=
  Server share_list au CEILING_SMB3 ro (lit "PS2") (lit "W") (zeros 16) 0.

Definition open_server : server := serves (open_authenticator (lit "W")) false.
Definition safe_server : server := serves (open_authenticator (lit "W")) true.
Definition locked_server : server := serves (Auth [(lit "ada", lit "secret")] (lit "W") false) false.

Definition urandom (i n : Z) : bytes := map (fun k => (i * 7 + k) mod 256) (seqZ 0 n).

(** ** Messages of a client *)

Definition packing (l : list (fmt * Z)) : bytes := default [] (pack l).

Definition head_of (cmd mid tid fl next : Z) : bytes :=
  SMB2_MAGIC ++ packing [(fH, 64); (fH, 1); (fI, 0); (fH, cmd); (fH, 10); (fI, fl); (fI, next); (fQ, mid); (fI, 0);
                         (fI, tid); (fQ, 0)] ++ zeros 16.

Definition u16 (s : string) : bytes := match utf16 (lit s) with Ok b => b | _ => [] end.

Definition negotiate : bytes :=
  head_of 0 0 0 0 0 ++ packing [(fH, 36); (fH, 2); (fH, 1); (fH, 0); (fI, 0)] ++ zeros 24 ++ packing [(fH, 514); (fH, 770)].

Definition ntlm_first : bytes := NTLMSSP_SIGNATURE ++ packing [(fI, 1); (fI, 0); (fQ, 0); (fQ, 0)].

(** An AUTHENTICATE with a response and a name behind its 64 bytes *)
Definition ntlm_third (response : bytes) (name : bytes) : bytes :=
  NTLMSSP_SIGNATURE ++ packing [(fI, 3); (fH, 0); (fH, 0); (fI, 0); (fH, zlen response); (fH, 0); (fI, 64); (fH, 0); (fH, 0);
    (fI, 0); (fH, zlen name); (fH, 0); (fI, 64 + zlen response); (fH, 0); (fH, 0); (fI, 0); (fH, 0); (fH, 0); (fI, 0); (fI, 0)]
  ++ response ++ name.

Definition setup (mid : Z) (token : bytes) : bytes :=
  head_of 1 mid 0 0 0
  ++ packing [(fH, 25); (fB, 0); (fB, 2); (fI, 0); (fI, 0); (fH, 64 + 24); (fH, zlen token); (fQ, 0)] ++ token.

Definition connect (mid : Z) (s : string) : bytes :=
  head_of 3 mid 0 0 0 ++ packing [(fH, 9); (fH, 0); (fH, 72); (fH, zlen (u16 s))] ++ u16 s.

Definition create (mid tid : Z) (s : string) (access disp opt : Z) : bytes :=
  head_of 5 mid tid 0 0
  ++ packing [(fH, 57); (fB, 0); (fB, 0); (fI, 0); (fQ, 0); (fQ, 0); (fI, access); (fI, 0); (fI, 0); (fI, disp); (fI, opt);
              (fH, 120); (fH, zlen (u16 s)); (fI, 0); (fI, 0)] ++ u16 s.

Definition read (mid tid fid len off : Z) : bytes :=
  head_of 8 mid tid 0 0
  ++ packing [(fH, 49); (fB, 0); (fB, 0); (fI, len); (fQ, off); (fQ, fid); (fQ, fid); (fQ, 0); (fQ, 0)].

Definition write (mid tid fid off : Z) (data : bytes) : bytes :=
  head_of 9 mid tid 0 0
  ++ packing [(fH, 49); (fH, 112); (fI, zlen data); (fQ, off); (fQ, fid); (fQ, fid); (fQ, 0); (fQ, 0)] ++ data.

Definition query (mid tid fid cls fl : Z) (s : string) : bytes :=
  head_of 14 mid tid 0 0
  ++ packing [(fH, 33); (fB, cls); (fB, fl); (fI, 0); (fQ, fid); (fQ, fid); (fH, 96); (fH, zlen (u16 s)); (fI, 65536)] ++ u16 s.

Definition echo (mid fl : Z) : bytes := head_of 13 mid 0 fl 0 ++ [4; 0; 0; 0].

Definition framed (m : bytes) : bytes := match frame m with Ok b => b | _ => [] end.

(** A connection on which these messages arrive *)
Definition client (c : conn) (ms : list bytes) : smb toy :=
  {| host := disk; cn := c; incoming := map (fun m => Chunk (framed m)) ms; out := []; send_faults := []; clock := 0;
     draws := 0; summary := None; peer := 1 |}.

(** The messages the server sent *)
Fixpoint unframed (fuel : nat) (s : bytes) : list bytes :=
  match fuel, s with
  | S fuel, _ :: a :: b :: c :: t => let n := be_int [a; b; c] in ztake n t :: unframed fuel (zdrop n t)
  | _, _ => []
  end.

Definition replies (w : smb toy) : list bytes := unframed (length (out w)) (out w).
Definition statuses (w : smb toy) : list Z := map (fun m => le_int (slice m 8 12)) (replies w).
Definition content (p : string) (w : smb toy) : option node := node_at (lit p) (t_nodes (host w)).
Definition ends (srv : server) (w : smb toy) : result unit * smb toy := serve_client srv urandom w.

Definition anonymous_login : list bytes := [negotiate; setup 1 ntlm_first; setup 2 (ntlm_third [] [])].

(** ** Whole connections *)

Definition reading : list bytes :=
  anonymous_login ++ [connect 3 "\\h\GAMES"; create 4 1 "a.iso" 1 1 0; read 5 1 1 4 3; create 6 1 "" 1 1 0;
                      query 7 1 2 12 0 "*"; query 8 1 2 12 0 "*"].

Example reading_works : let '(r, w) := ends open_server (client new_conn reading) in
  r = Ok tt /\ statuses w = [0; STATUS_MORE_PROCESSING_REQUIRED; 0; 0; 0; 0; 0; 0; STATUS_NO_MORE_FILES] /\
  map (zdrop 80) (take 1 (drop 5 (replies w))) = [lit "3456"].
Proof. vm_compute. split_and!; reflexivity. Qed.

(** A client that knows the password *)
Definition response_for (password : string) : bytes :=
  match ntowfv2 (lit password) (lit "ada") [] with
  | Ok k => let blob := NTLMV2_HEADER ++ zeros 24 in ntlmv2_proof k (urandom 0 8) blob ++ blob
  | _ => []
  end.

Definition login (password : string) : list bytes :=
  [negotiate; setup 1 ntlm_first; setup 2 (ntlm_third (response_for password) (u16 "ada"))].

Example right_password : let w := snd (ends locked_server (client new_conn (login "secret"))) in
  statuses w = [0; STATUS_MORE_PROCESSING_REQUIRED; 0] /\ authenticated (cn w) = true.
Proof. vm_compute. split_and!; reflexivity. Qed.

Example wrong_password : let w := snd (ends locked_server (client new_conn (login "secreT"))) in
  statuses w = [0; STATUS_MORE_PROCESSING_REQUIRED; STATUS_LOGON_FAILURE] /\ authenticated (cn w) = false.
Proof. vm_compute. split_and!; reflexivity. Qed.

(** ** Behaviours reported as findings *)

(** A session that requires signatures *)
Definition signed_session : conn :=
  new_conn <| dialect := Some DIALECT_302 |> <| authenticated := true |> <| signing_key := Some (zeros 16) |>
           <| signing_required := true |> <| c_session_id := 5 |>.

(** One unsigned SESSION_SETUP, and unsigned requests are served again: the session is still
    authenticated, but its key is gone. *)
Example unsigned_setup_drops_signing :
  statuses (snd (ends open_server (client signed_session [connect 1 "\\h\GAMES"]))) = [STATUS_ACCESS_DENIED] /\
  statuses (snd (ends open_server (client signed_session [setup 1 ntlm_first; connect 2 "\\h\GAMES"])))
  = [STATUS_MORE_PROCESSING_REQUIRED; 0].
Proof. vm_compute. split; reflexivity. Qed.

(** A file opened on a read-only share is written through the tree of another. *)
Example read_only_file_written :
  let w := snd (ends open_server (client new_conn (anonymous_login ++
    [connect 3 "\\h\kept"; connect 4 "\\h\games"; create 5 1 "a.iso" 3 1 0; write 6 1 1 0 (lit "X"); write 7 2 1 0 (lit "X")]))) in
  drop 5 (statuses w) = [0; STATUS_MEDIA_WRITE_PROTECTED; 0] /\ content "/r/a.iso" w = Some (N_file (lit "Xead only")).
Proof. vm_compute. split; reflexivity. Qed.

(** OVERWRITE_IF that asks for a folder empties the file and then fails. *)
Example refused_overwrite_truncates :
  let w := snd (ends open_server (client new_conn (anonymous_login ++ [connect 3 "\\h\games"; create 4 1 "a.iso" 3 5 1]))) in
  drop 4 (statuses w) = [STATUS_NOT_A_DIRECTORY] /\ content "/g/a.iso" w = Some (N_file []).
Proof. vm_compute. split; reflexivity. Qed.

(** A refused DELETE_ON_CLOSE leaves a handle behind that the client was never told of. *)
Example refused_delete_leaks :
  let '(r, w) := (client_loop open_server urandom 100) (client new_conn (anonymous_login ++
    [connect 3 "\\h\kept"; create 4 1 "a.iso" 1 1 4096])) in
  drop 4 (statuses w) = [STATUS_MEDIA_WRITE_PROTECTED] /\ map fst (handles (cn w)) = [1].
Proof. vm_compute. split; reflexivity. Qed.

(** A name that is not UTF-8 makes every listing of its folder fail. *)
Example undecodable_name_hides_folder :
  drop 4 (statuses (snd (ends open_server (client new_conn (anonymous_login ++
    [connect 3 "\\h\odd"; create 4 1 "" 1 1 0; query 5 1 1 12 0 "*"; query 6 1 1 12 0 "*"])))))
  = [0; STATUS_INVALID_PARAMETER; STATUS_INVALID_PARAMETER].
Proof. vm_compute. reflexivity. Qed.

(** The exact name of an existing file, brackets and all, matches nothing: only the two dot
    entries are listed. *)
Example bracketed_name_not_found :
  map (fun m => length (page_entries (zdrop 64 m))) (drop 5 (replies (snd (ends open_server (client new_conn (anonymous_login ++
    [connect 3 "\\h\odd"; create 4 1 "" 1 1 0; query 5 1 1 12 0 "a[1].iso"])))))) = [2%nat].
Proof. vm_compute. reflexivity. Qed.

(** A session set up without NEGOTIATE has a key and no dialect: the next signed request ends
    the connection with an exception. *)
Example signed_without_dialect :
  fst (ends open_server (client (signed_session <| dialect := None |>) [echo 1 8])) = Err TypeError.
Proof. vm_compute. reflexivity. Qed.

(** NEGOTIATE grants a credit each time and never takes one. *)
Example negotiate_beyond_the_limit :
  c_credits (cn (snd (ends open_server (client new_conn (replicate 60 negotiate))))) = 520.
Proof. vm_compute. reflexivity. Qed.

(** ** The theorems applied *)

Lemma toy_rooted srv s : shares srv = share_list -> shared srv s -> exists rs, rooted s rs.
Proof.
  intros E (n & Hs). rewrite E in Hs.
  repeat (apply elem_of_cons in Hs as [[= -> ->]|Hs]).
  - exists [lit "g"]. split; [|done]. apply Forall_singleton. split_and!; try done. apply (bool_decide_unpack _). done.
  - exists [lit "r"]. split; [|done]. apply Forall_singleton. split_and!; try done. apply (bool_decide_unpack _). done.
  - exists [lit "o"]. split; [|done]. apply Forall_singleton. split_and!; try done. apply (bool_decide_unpack _). done.
  - by apply not_elem_of_nil in Hs.
Qed.

Lemma toy_read_only s : shared safe_server s -> tree_read_only safe_server (Disk s) = true.
Proof. done. Qed.

Lemma connection_confined_witness :
  let w' := snd (ends open_server (client new_conn reading)) in
  conn_ok open_server (cn w') /\ rtc (touch open_server) disk (host w') /\
  forall p, served_path (Os := toy) open_server p ->
    exists s rs rest, shared open_server s /\ rooted s rs /\ names_path p (rs ++ rest).
Proof.
  apply (connection_confined open_server urandom (client new_conn reading)).
  - intros o. reflexivity.
  - intros s. by apply toy_rooted.
  - reflexivity.
Defined.

Lemma messages_keep_tables_witness :
  conn_ok open_server (cn (snd (dispatch_all open_server urandom negotiate (client new_conn [])))).
Proof. apply (messages_keep_tables open_server urandom negotiate (client new_conn [])). apply new_conn_ok. Defined.

Lemma read_only_connection_witness :
  rtc (look safe_server) disk (host (snd (ends safe_server (client new_conn reading)))).
Proof. apply (read_only_connection safe_server urandom (client new_conn reading)); [apply toy_read_only|reflexivity]. Defined.

(** The client with the wrong password *)
Lemma service_needs_the_password_witness :
  let w := client new_conn (login "secreT") in
  let w' := snd (ends locked_server w) in
  (host w' = host w /\ authenticated (cn w') = false) \/ proven locked_server urandom (stream_bytes (incoming w)) 0.
Proof. apply (service_needs_the_password locked_server urandom (client new_conn (login "secreT"))); reflexivity. Defined.

Definition echo_header : header := Header 1 0 CMD_ECHO 10 0 0 1 0 0 (zeros 16).


Definition signed_echo : bytes := match signed (zeros 16) DIALECT_302 (echo 1 8) with Ok m => m | _ => [] end.

Lemma verify_signed_iff_witness :
  verify (zeros 16) DIALECT_302 signed_echo = Ok true /\
  (verify (zeros 16) DIALECT_302 signed_echo = Ok true <->
   exists m', 64 <= zlen m' /\ signed (zeros 16) DIALECT_302 m' = Ok signed_echo).
Proof. split; [vm_compute; reflexivity|]. apply (verify_signed_iff (zeros 16) DIALECT_302 signed_echo); [reflexivity|vm_compute; discriminate]. Defined.

(** Two replies of which the first is signed *)
Definition two_answers : list answer :=
  [Answer (echo_header <| flags := FLAG_SIGNED |>) 0 [4; 0; 0; 0] None 3; Answer echo_header STATUS_FILE_CLOSED error_body None 1].

Definition signing_client : smb toy := client (signed_session <| signing_required := false |>) [].

Definition two_replies : bytes := match fst (reply_pieces true two_answers signing_client) with Ok m => m | _ => [] end.

Lemma replies_split_witness :
  reply_pieces true two_answers signing_client = (Ok two_replies, signing_client) /\
  Forall2 replies_to two_answers (split_replies 2 two_replies).
Proof.
  split; [vm_compute; reflexivity|]. apply (replies_split true two_answers signing_client two_replies signing_client).
  vm_compute. reflexivity.
Defined.

Lemma framed_received_witness :
  exists s', recv_msg [Chunk (0 :: zeros 1); Chunk [0; 2; 7]; Chunk [8; 9]] = (Ok (Some [7; 8]), s') /\ stream_bytes s' = [9] /\ flowing s'.
Proof.
  apply (framed_received [7; 8] [0; 0; 0; 2; 7; 8] [Chunk (0 :: zeros 1); Chunk [0; 2; 7]; Chunk [8; 9]] [9]); [reflexivity| |reflexivity].
  repeat (apply Forall_cons; split; [by eexists _, _|]). apply Forall_nil_2.
Defined.

Definition small_pipe : pipe := new_pipe <| max_frag := 1024 |>.
Definition long_stub : bytes := zeros 1100.

Lemma response_reassembles_witness :
  exists out, response 7 long_stub small_pipe = Ok out /\
    reassemble (S (length long_stub)) (max_frag small_pipe) 7 true out = Some long_stub.
Proof.
  apply (response_reassembles 7 long_stub small_pipe).
  - split; [split; vm_compute; discriminate|split; [vm_compute; discriminate|reflexivity]].
  - split; [discriminate|reflexivity].
  - vm_compute. reflexivity.
Defined.

(** The snapshot of the folder of games, listed one entry at a time *)
Definition games : share := Share (lit "games") (lit "/g") false.
Definition snapshot : list text := [[DOT]; DOTDOT; lit "a.iso"; lit "gone"; lit "d"].
Definition games_handle : handle :=
  (new_handle 1 (Disk games) (Some (lit "/g")) [] true) <| listing := Some snapshot |>.
Definition listing_client : smb toy := client (new_conn <| handles := [(1, games_handle)] |>) [].

(** The entry the model makes of a name, looked up on the host *)
Definition entry_on_disk (name : text) : option bytes :=
  match (t ← entry_target games (lit "/g") name; ask (os_stat t)) listing_client with
  | (Ok st, _) => match directory_entry name st 12 false with Ok (Some r) => Some (padded r) | _ => None end
  | _ => None
  end.

Lemma snapshot_described :
  Forall2 (described games (lit "/g") 12 (tree_read_only open_server (Disk games)) disk) snapshot (map entry_on_disk snapshot).
Proof.
  assert (Ht : forall name target, entry_target games (lit "/g") name listing_client = (Ok target, listing_client) ->
    forall w : smb toy, host w = disk -> entry_target games (lit "/g") name w = (Ok target, w)).
  { intros name target E w Hw. unfold entry_target, mbind, M_bind, ask, lift, mret, M_ret in *. revert E.
    destruct (str_eqb name [DOT]), (str_eqb name DOTDOT); cbv beta; rewrite ?Hw; change (host listing_client) with disk; repeat case_match; intros E; by simplify_eq. }
  repeat (apply Forall2_cons; split); [..|apply Forall2_nil; done].
  - exists (lit "/g"). split; [by apply Ht|]. eexists _, _. split_and!; vm_compute; reflexivity.
  - exists (lit "/g"). split; [by apply Ht|]. eexists _, _. split_and!; vm_compute; reflexivity.
  - exists (lit "/g/a.iso"). split; [by apply Ht|]. eexists _, _. split_and!; vm_compute; reflexivity.
  - exists (lit "/g/gone"). split; [by apply Ht|]. by exists (Some ENOENT).
  - exists (lit "/g/d"). split; [by apply Ht|]. eexists _, _. split_and!; vm_compute; reflexivity.
Qed.

Lemma listing_once_witness :
  exists bodies w', scan open_server games 1 12 SINGLE_ENTRY 0 (lit "*") 6 games_handle listing_client = (Ok bodies, w') /\
    host w' = disk /\ concat (map page_entries bodies) = map (zdrop 4) (omap id (map entry_on_disk snapshot)).
Proof.
  apply (listing_once open_server games 1 (lit "/g") 12 SINGLE_ENTRY 0 (lit "*") snapshot 0 (map entry_on_disk snapshot)
           games_handle 6 listing_client).
  - split_and!; reflexivity.
  - discriminate.
  - reflexivity.
  - exact snapshot_described.
  - vm_compute. reflexivity.
  - vm_compute. lia.
Defined.
