(* ===== verification/Ipv4.v ===== *)
(** * IPv4 addresses and networks

    What the sources use of [ipaddress] and [socket] for IPv4, and the helpers of
    [launcher/directlink.py] on addresses as numbers of 32 bits: the mask of a prefix, the
    network of an address, and whether two networks overlap.

    [ipaddress.IPv4Address] accepts only what it prints; [socket.inet_aton] is that of the C
    library: one to four numbers, decimal, octal or hexadecimal, of which the last fills the
    bytes that are left, and anything behind white space. *)

From S2P Require Import Prelude PyStr PyText ChdCue Http.

(** ** Texts *)

(** [s.isdigit()] of a text of ASCII *)
Definition isdigit (s : text) : bool := nonempty s && forallb is_digit s.

(** A number of a dotted quad as [ipaddress] takes it *)
Definition octet_ok (s : text) : bool :=
  isdigit s && (zlen s <=? 3) && ((zlen s =? 1) || negb (znth s 0 =? 48)) && (digits_value s <=? 255).

(** What [ipaddress.IPv4Address(s)] accepts, as [str] prints it *)
Definition IPv4Address (s : text) : result text :=
  match split_on DOT s with
  | [a; b; c; d] => if octet_ok a && octet_ok b && octet_ok c && octet_ok d then Ok s else Err ValueError
  | _ => Err ValueError
  end.

Definition quad (a b c d : Z) : Z := ((a * 256 + b) * 256 + c) * 256 + d.

(** [int(ipaddress.IPv4Address(s))] *)
Definition ipv4_value (s : text) : result Z :=
  match split_on DOT s with
  | [a; b; c; d] =>
      if octet_ok a && octet_ok b && octet_ok c && octet_ok d
      then Ok (quad (digits_value a) (digits_value b) (digits_value c) (digits_value d)) else Err ValueError
  | _ => Err ValueError
  end.

(** [socket.inet_ntoa] of the four bytes of a number *)
Definition dotted (n : Z) : text :=
  join_with DOT [decimal (n / 16777216); decimal (n / 65536 mod 256); decimal (n / 256 mod 256); decimal (n mod 256)].

Definition U32 : Z := 0xFFFFFFFF.

Definition is_xdigit (c : Z) : bool := bool_decide (is_Some (hex_value c)).
Definition is_odigit (c : Z) : bool := (48 <=? c) && (c <=? 55).

(** The digits of a number in base [base], as long as [ok] holds, and what follows *)
Fixpoint c_digits (base : Z) (ok : Z -> bool) (acc : Z) (s : text) : Z * text :=
  match s with
  | c :: t => if ok c then c_digits base ok (acc * base + default 0 (hex_value c)) t else (acc, s)
  | [] => (acc, [])
  end.

(** [strtoul(s, &end, 0)] of a text that begins with a digit *)
Definition c_number (s : text) : Z * text :=
  match s with
  | 48 :: x :: h :: t =>
      if ((x =? 120) || (x =? 88)) && is_xdigit h then c_digits 16 is_xdigit 0 (h :: t)
      else c_digits 8 is_odigit 0 s
  | 48 :: _ => c_digits 8 is_odigit 0 s
  | _ => c_digits 10 is_digit 0 s
  end.

(** What may follow an address *)
Definition aton_end (s : text) : bool :=
  match s with [] => true | c :: _ => ((9 <=? c) && (c <=? 13)) || (c =? 32) end.

(** [inet_aton] of what follows some dots, when [dots] more may come *)
Fixpoint aton (dots : nat) (high : Z) (s : text) : option Z :=
  match s with
  | [] => None
  | c :: _ =>
      if negb (is_digit c) then None
      else
        let '(v, rest) := c_number s in
        if U32 <? v then None
        else
          match rest with
          | 46 :: t =>
              match dots with
              | S d => if 255 <? v then None else aton d (high * 256 + v) t
              | O => None
              end
          | _ =>
              let room := 256 ^ (Z.of_nat dots + 1) in
              if aton_end rest && (v <? room) then Some (high * room + v) else None
          end
  end.

(** [_ip_to_int] *)
Definition ip_to_int (ip : text) : result Z :=
  if existsb (Z.eqb 0) ip then Err ValueError
  else match aton 3 0 ip with Some n => Ok n | None => Err (OSError None) end.

(** [_int_to_ip] *)
Definition int_to_ip (n : Z) : text := dotted (Z.land n U32).

(** ** Networks *)

(** [(0xFFFFFFFF << (32 - prefixlen)) & 0xFFFFFFFF if prefixlen else 0]; a negative count of
    a shift raises. *)
Definition prefix_mask (prefixlen : Z) : result Z :=
  if prefixlen =? 0 then Ok 0
  else if 32 <? prefixlen then Err ValueError
  else Ok (Z.land (Z.shiftl U32 (32 - prefixlen)) U32).

(** [_network_of] *)
Definition network_of (ip : text) (prefixlen : Z) : result Z :=
  mask ← prefix_mask prefixlen; n ← ip_to_int ip; Ok (Z.land n mask).

(** [_network_of_int] *)
Definition network_of_int (ip_int prefixlen : Z) : result Z :=
  mask ← prefix_mask prefixlen; Ok (Z.land ip_int mask).

(** [_prefix_to_netmask] *)
Definition prefix_to_netmask (prefixlen : Z) : result text := mask ← prefix_mask prefixlen; Ok (int_to_ip mask).

(** [networks_overlap] *)
Definition networks_overlap (net1 plen1 net2 plen2 : Z) : result bool :=
  let plen := Z.min plen1 plen2 in
  if plen <=? 0 then Ok true
  else
    let shift := 32 - plen in
    if shift <? 0 then Err ValueError
    else Ok (Z.shiftr net1 shift =? Z.shiftr net2 shift).

(** [ipaddress.IPv4Network(f"{ip}/{prefixlen}", strict=False)] of an address and a prefix of
    1 to 30 bits: the first address, the last one, and whether an address is inside *)
Definition network_address (ip prefixlen : Z) : Z := ip / 2 ^ (32 - prefixlen) * 2 ^ (32 - prefixlen).
Definition broadcast_address (ip prefixlen : Z) : Z := network_address ip prefixlen + 2 ^ (32 - prefixlen) - 1.
Definition in_network (a ip prefixlen : Z) : bool :=
  (network_address ip prefixlen <=? a) && (a <=? broadcast_address ip prefixlen).

(** ** Addresses read back *)

Lemma split_on_quad a b c d : DOT ∉ a -> DOT ∉ b -> DOT ∉ c -> DOT ∉ d ->
  split_on DOT (join_with DOT [a; b; c; d]) = [a; b; c; d].
Proof. intros. apply split_join; [done|]. by repeat constructor. Qed.

(** A number below 256 printed in decimal is read back by [inet_aton] and by [ipaddress]. *)
Definition octet_reads (v : Z) : Prop :=
  (forall t, c_number (decimal v ++ DOT :: t) = (v, DOT :: t)) /\ c_number (decimal v) = (v, []) /\
  match decimal v with c :: _ => is_digit c = true | [] => False end /\
  octet_ok (decimal v) = true /\ digits_value (decimal v) = v /\ existsb (Z.eqb DOT) (decimal v) = false /\
  existsb (Z.eqb 0) (decimal v) = false.

Lemma octet_reads_all : Forall octet_reads (seqZ 0 256).
Proof.
  vm_compute seqZ.
  repeat (apply Forall_cons; split; [split; [by intros [|? ?]|by vm_compute]|]). apply Forall_nil_2.
Qed.

Lemma octet_reads_of v : 0 <= v < 256 -> octet_reads v.
Proof. intros Hv. apply (proj1 (Forall_forall _ _) octet_reads_all), elem_of_seqZ. lia. Qed.

Lemma not_existsb_eqb (c : Z) l : existsb (Z.eqb c) l = false -> c ∉ l.
Proof.
  intros H Hin%list_elem_of_In. assert (existsb (Z.eqb c) l = true); [|congruence].
  apply existsb_exists. exists c. by rewrite Z.eqb_refl.
Qed.

Lemma aton_dot d h v t : 0 <= v < 256 -> aton (S d) h (decimal v ++ DOT :: t) = aton d (h * 256 + v) t.
Proof.
  intros Hv. destruct (octet_reads_of v Hv) as (Hr & _ & Hd & _). specialize (Hr t).
  destruct (decimal v) as [|c l]; [done|]. cbn [app] in *. cbn [aton]. rewrite Hd. cbn [negb]. rewrite Hr.
  unfold U32. rewrite (proj2 (Z.ltb_ge _ _)) by lia. unfold DOT. by rewrite (proj2 (Z.ltb_ge _ _)) by lia.
Qed.

Lemma aton_last h v : 0 <= v < 256 -> aton 0 h (decimal v) = Some (h * 256 + v).
Proof.
  intros Hv. destruct (octet_reads_of v Hv) as (_ & Hr & Hd & _).
  destruct (decimal v) as [|c l]; [done|]. cbn [aton]. rewrite Hd. cbn [negb]. rewrite Hr.
  unfold U32. rewrite (proj2 (Z.ltb_ge _ _)) by lia. cbn. by rewrite (proj2 (Z.ltb_lt _ _)) by lia.
Qed.

Lemma existsb_nul_join a b c d : existsb (Z.eqb 0) a = false -> existsb (Z.eqb 0) b = false ->
  existsb (Z.eqb 0) c = false -> existsb (Z.eqb 0) d = false -> existsb (Z.eqb 0) (join_with DOT [a; b; c; d]) = false.
Proof. intros Ha Hb Hc Hd. cbn [join_with]. rewrite !existsb_app. cbn [existsb Z.eqb orb]. rewrite Ha, ?existsb_app. cbn [existsb Z.eqb orb DOT]. rewrite Hb, ?existsb_app. cbn [existsb Z.eqb orb DOT]. by rewrite Hc, Hd. Qed.

(** The four numbers of an address *)
Lemma quad_octets n : 0 <= n < 4294967296 ->
  quad (n / 16777216) (n / 65536 mod 256) (n / 256 mod 256) (n mod 256) = n /\
  0 <= n / 16777216 < 256 /\ 0 <= n / 65536 mod 256 < 256 /\ 0 <= n / 256 mod 256 < 256 /\ 0 <= n mod 256 < 256.
Proof. intros Hn. unfold quad. Z.to_euclidean_division_equations. lia. Qed.

Lemma quad_bound a b c d : 0 <= a < 256 -> 0 <= b < 256 -> 0 <= c < 256 -> 0 <= d < 256 -> 0 <= quad a b c d < 4294967296.
Proof. unfold quad. lia. Qed.

Lemma dotted_quad a b c d : 0 <= a < 256 -> 0 <= b < 256 -> 0 <= c < 256 -> 0 <= d < 256 ->
  dotted (quad a b c d) = join_with DOT [decimal a; decimal b; decimal c; decimal d].
Proof. intros. unfold dotted, quad. repeat f_equal; Z.to_euclidean_division_equations; lia. Qed.

(** What is printed is read as the same address by both readers. *)
Lemma ip_to_int_dotted n : 0 <= n < 4294967296 -> ip_to_int (dotted n) = Ok n.
Proof.
  intros Hn. destruct (quad_octets n Hn) as (Hq & Ha & Hb & Hc & Hd). unfold ip_to_int, dotted.
  rewrite existsb_nul_join by (by apply octet_reads_of). cbn [join_with].
  rewrite !aton_dot, aton_last by done. f_equal. unfold quad in Hq. lia.
Qed.

Lemma ipv4_value_dotted n : 0 <= n < 4294967296 -> ipv4_value (dotted n) = Ok n.
Proof.
  intros Hn. destruct (quad_octets n Hn) as (Hq & Ha & Hb & Hc & Hd). unfold ipv4_value, dotted.
  rewrite split_on_quad by (by apply not_existsb_eqb, octet_reads_of).
  destruct (octet_reads_of _ Ha) as (_ & _ & _ & -> & -> & _). destruct (octet_reads_of _ Hb) as (_ & _ & _ & -> & -> & _).
  destruct (octet_reads_of _ Hc) as (_ & _ & _ & -> & -> & _). destruct (octet_reads_of _ Hd) as (_ & _ & _ & -> & -> & _).
  cbn [andb]. by rewrite Hq.
Qed.

(** The texts of at most three digits *)
Definition short_digits : list text :=
  let ds := seqZ 48 10 in
  (x ← ds; [[x]]) ++ (x ← ds; y ← ds; [[x; y]]) ++ (x ← ds; y ← ds; z ← ds; [[x; y; z]]).

Lemma short_digits_canonical :
  forallb (fun a => implb (octet_ok a) (str_eqb a (decimal (digits_value a)))) short_digits = true.
Proof. by vm_compute. Qed.

Lemma in_short_digits a : isdigit a = true -> zlen a <= 3 -> a ∈ short_digits.
Proof.
  intros [Hne Hd]%andb_true_iff Hl. rewrite forallb_forall in Hd.
  assert (Hx : forall x, In x a -> x ∈ seqZ 48 10).
  { intros x Hin. specialize (Hd x Hin). unfold is_digit in Hd. apply elem_of_seqZ. lia. }
  clear Hd. unfold short_digits. rewrite !elem_of_app.
  destruct a as [|x [|y [|z [|]]]]; [done| | | |unfold zlen in Hl; cbn in Hl; lia].
  - left. apply list_elem_of_bind. exists x. split; [by left|apply Hx; by left].
  - right; left. apply list_elem_of_bind. exists x. split; [|apply Hx; by left].
    apply list_elem_of_bind. exists y. split; [by left|apply Hx; by right; left].
  - right; right. apply list_elem_of_bind. exists x. split; [|apply Hx; by left].
    apply list_elem_of_bind. exists y. split; [|apply Hx; by right; left].
    apply list_elem_of_bind. exists z. split; [by left|apply Hx; by right; right; left].
Qed.

Lemma octet_canonical a : octet_ok a = true -> a = decimal (digits_value a) /\ 0 <= digits_value a < 256.
Proof.
  intros Ho. pose proof Ho as Ho'. unfold octet_ok in Ho'. rewrite !andb_true_iff in Ho'. destruct Ho' as [[[Hd Hl] _] Hv].
  assert (Hin : a ∈ short_digits) by (apply in_short_digits; [done|lia]).
  pose proof (proj1 (forallb_forall _ _) short_digits_canonical a (proj1 (list_elem_of_In _ _) Hin)) as Hc.
  cbv beta in Hc. rewrite Ho in Hc. cbn in Hc. apply bool_decide_eq_true in Hc. split; [done|].
  split; [|lia]. apply andb_true_iff in Hd as [_ Hd]. clear -Hd. unfold digits_value.
  assert (H : forall acc, 0 <= acc -> 0 <= foldl (fun n c => 10 * n + (c - 48)) acc a); [|by apply H].
  induction a as [|x a IH]; intros acc Hacc; [done|]. cbn in Hd. apply andb_true_iff in Hd as [Hx Hd].
  cbn [foldl]. apply IH; [done|]. unfold is_digit in Hx. lia.
Qed.

(** [ipaddress] accepts exactly the texts of addresses as they are printed. *)
Lemma ipv4_value_canonical s v : ipv4_value s = Ok v -> 0 <= v < 4294967296 /\ s = dotted v.
Proof.
  unfold ipv4_value. destruct (split_on DOT s) as [|a [|b [|c [|d [|]]]]] eqn:E; try done.
  destruct (octet_ok a && octet_ok b && octet_ok c && octet_ok d) eqn:Ho; [|done]. intros [= <-].
  rewrite !andb_true_iff in Ho. destruct Ho as [[[Ha Hb] Hc] Hd].
  apply octet_canonical in Ha as [Ha ?], Hb as [Hb ?], Hc as [Hc ?], Hd as [Hd ?].
  split; [by apply quad_bound|]. rewrite dotted_quad, <- Ha, <- Hb, <- Hc, <- Hd by done. by rewrite <- E, join_split.
Qed.

Lemma IPv4Address_value s : IPv4Address s = (v ← ipv4_value s; Ok (dotted v)).
Proof.
  pose proof (ipv4_value_canonical s) as H. revert H. unfold IPv4Address, ipv4_value.
  destruct (split_on DOT s) as [|a [|b [|c [|d [|]]]]]; try done.
  destruct (_ && _); [|done]. intros H. destruct (H _ eq_refl) as [_ ->]. reflexivity.
Qed.

(** ** Networks *)

Definition is_ip (n : Z) : Prop := 0 <= n < 4294967296.

Lemma prefix_masks :
  forallb (fun p => match prefix_mask p with Ok m => m =? Z.ldiff (Z.ones 32) (Z.ones (32 - p)) | Err _ => false end)
    (seqZ 0 33) = true.
Proof. by vm_compute. Qed.

Lemma prefix_mask_ldiff p : 0 <= p <= 32 -> prefix_mask p = Ok (Z.ldiff (Z.ones 32) (Z.ones (32 - p))).
Proof.
  intros Hp. pose proof (proj1 (forallb_forall _ _) prefix_masks p) as H. cbv beta in H.
  assert (Hin : In p (seqZ 0 33)) by (apply list_elem_of_In, elem_of_seqZ; lia). specialize (H Hin).
  destruct (prefix_mask p); [|done]. apply Z.eqb_eq in H. by rewrite H.
Qed.

Lemma network_of_int_eq n p : is_ip n -> 0 <= p <= 32 -> network_of_int n p = Ok (network_address n p).
Proof.
  intros Hn Hp. unfold network_of_int. rewrite prefix_mask_ldiff by done. cbn [mbind result_bind]. f_equal.
  rewrite Z.ldiff_land, Z.land_assoc, Z.land_ones, Z.mod_small, <- Z.ldiff_land by (unfold is_ip in Hn; lia).
  rewrite Z.ldiff_ones_r, Z.shiftl_mul_pow2, Z.shiftr_div_pow2 by lia. done.
Qed.

Lemma network_of_dotted n p : is_ip n -> 0 <= p <= 32 -> network_of (dotted n) p = Ok (network_address n p).
Proof.
  intros Hn Hp. rewrite <- network_of_int_eq by done. unfold network_of, network_of_int.
  rewrite ip_to_int_dotted by done. done.
Qed.

Lemma pow_pos k : 0 <= k -> 0 < 2 ^ k.
Proof. intros. by apply Z.pow_pos_nonneg. Qed.

Lemma in_network_spec a n p : 0 <= p <= 32 -> in_network a n p = true <-> a / 2 ^ (32 - p) = n / 2 ^ (32 - p).
Proof.
  intros Hp. unfold in_network, broadcast_address, network_address. pose proof (pow_pos (32 - p) ltac:(lia)).
  generalize dependent (2 ^ (32 - p)). intros m Hm. rewrite andb_true_iff, !Z.leb_le. split.
  - intros H. symmetry. apply (Z.div_unique_pos _ _ _ (a - n / m * m)); lia.
  - intros <-. Z.to_euclidean_division_equations. lia.
Qed.

Lemma network_address_is_ip n p :
  is_ip n -> 0 <= p <= 32 -> is_ip (network_address n p) /\ network_address n p <= n <= broadcast_address n p.
Proof.
  unfold is_ip, broadcast_address, network_address. intros Hn Hp. pose proof (pow_pos (32 - p) ltac:(lia)).
  generalize dependent (2 ^ (32 - p)). intros m Hm. assert (0 <= n / m) by (apply Z.div_pos; lia).
  assert (0 <= n / m * m) by nia. pose proof (Z.mod_pos_bound n m Hm). pose proof (Z.div_mod n m ltac:(lia)). lia.
Qed.

Lemma broadcast_is_ip n p : is_ip n -> 0 <= p <= 32 -> is_ip (broadcast_address n p).
Proof.
  unfold is_ip, broadcast_address, network_address. intros Hn Hp.
  assert (E : 4294967296 = 2 ^ p * 2 ^ (32 - p)) by (rewrite <- Z.pow_add_r by lia; by replace (p + (32 - p)) with 32 by lia).
  pose proof (pow_pos (32 - p) ltac:(lia)). pose proof (pow_pos p ltac:(lia)). rewrite E in *.
  generalize dependent (2 ^ (32 - p)). generalize dependent (2 ^ p). intros q Hq m. intros.
  assert (n / m < q) by (apply Z.div_lt_upper_bound; lia). assert (0 <= n / m) by (apply Z.div_pos; lia).
  assert (n / m * m <= (q - 1) * m) by (apply Z.mul_le_mono_nonneg_r; lia). lia.
Qed.

(** A network is the same from each of its addresses. *)
Lemma network_address_idem n p : 0 <= p <= 32 -> network_address (network_address n p) p = network_address n p.
Proof.
  intros Hp. unfold network_address. pose proof (pow_pos (32 - p) ltac:(lia)). by rewrite Z_div_mult by lia.
Qed.

Lemma in_network_address a n p : 0 <= p <= 32 -> in_network a (network_address n p) p = in_network a n p.
Proof. intros Hp. unfold in_network, broadcast_address. by rewrite network_address_idem. Qed.

Lemma div_coarser a b k j : 0 <= k <= j -> a / 2 ^ k = b / 2 ^ k -> a / 2 ^ j = b / 2 ^ j.
Proof.
  intros Hk E. replace j with (k + (j - k)) by lia. rewrite Z.pow_add_r by lia.
  rewrite <- !Z.div_div, E by (apply pow_pos || apply Z.lt_gt || idtac; try lia; apply pow_pos; lia). done.
Qed.

(** Two networks overlap exactly if some address is in both. *)
Lemma networks_overlap_spec n1 p1 n2 p2 : is_ip n1 -> is_ip n2 -> 0 <= p1 <= 32 -> 0 <= p2 <= 32 ->
  exists b, networks_overlap n1 p1 n2 p2 = Ok b /\
    (b = true <-> exists a, is_ip a /\ in_network a n1 p1 = true /\ in_network a n2 p2 = true).
Proof.
  intros Hn1 Hn2 Hp1 Hp2. unfold networks_overlap.
  assert (Hmid : forall b, (b = true <-> n1 / 2 ^ (32 - Z.min p1 p2) = n2 / 2 ^ (32 - Z.min p1 p2)) ->
    (b = true <-> exists a, is_ip a /\ in_network a n1 p1 = true /\ in_network a n2 p2 = true)).
  { intros b ->. setoid_rewrite in_network_spec; [|done..]. split.
    - intros E. destruct (Z.min_spec p1 p2) as [[? Em]|[? Em]]; rewrite Em in E; [exists n2|exists n1]; done.
    - intros (a & _ & E1 & E2). apply (div_coarser _ _ _ (32 - Z.min p1 p2)) in E1, E2; [congruence|lia..]. }
  destruct (Z.leb_spec (Z.min p1 p2) 0).
  - exists true. split; [done|]. apply Hmid. replace (Z.min p1 p2) with 0 by lia. change (2 ^ (32 - 0)) with 4294967296.
    by rewrite !Z.div_small.
  - rewrite (proj2 (Z.ltb_ge _ _)) by lia. eexists. split; [done|]. apply Hmid.
    by rewrite Z.eqb_eq, !Z.shiftr_div_pow2 by lia.
Qed.
