(* ===== verification/RaProtocol.v ===== *)
(** * RetroAchievements: the console's messages

    Models [launcher/ra_protocol.py]: the requests of a console and the replies to it, the
    chunks of a watch list, the telemetry datagrams, and [SnapshotAssembler], which puts the
    parts of a memory snapshot together; and [launcher/ra_watchlist.py], the lists of addresses
    that a console watches.

    Times are numbers on the clock the assembler is given.  The checks of the types of
    arguments are left out: a packet is bytes, a port a number. *)

From S2P Require Import Prelude Tables PyStr PyText ChdCue Http Ipv4.

Definition MAX_DATAGRAM : Z := 1472.
Definition MAX_PARTS : Z := 9.
Definition MAX_VALUES : Z := (1472 - 191) * MAX_PARTS.
Definition SEQUENCE_MODULUS : Z := 1000000.

(** ** Characters *)

Definition is_upper (c : Z) : bool := (65 <=? c) && (c <=? 90).
Definition is_lower (c : Z) : bool := (97 <=? c) && (c <=? 122).
Definition is_alnum (c : Z) : bool := is_digit c || is_upper c || is_lower c.
Definition is_hex (c : Z) : bool := is_digit c || ((97 <=? c) && (c <=? 102)) || ((65 <=? c) && (c <=? 70)).
(** [[A-Za-z0-9_.-]] *)
Definition is_serial_char (c : Z) : bool := is_alnum c || existsb (Z.eqb c) (lit "_.-").

(** [re.fullmatch] of between [lo] and [hi] characters of one class *)
Definition fullmatch (P : Z -> bool) (lo hi : Z) (s : text) : bool := (lo <=? zlen s) && (zlen s <=? hi) && forallb P s.
Definition IMAGE_HASH : text -> bool := fullmatch is_hex 32 32.
Definition SERIAL : text -> bool := fullmatch is_serial_char 1 15.

(** ** Requests *)

(** [ConsoleRequest] *)
Record console_request := Request {
  kind : text;
  address : text;
  port : Z;
  image_hash : text;
  serial : text;
  index : Z;
  extra : list text
}.

Definition port_ok (p : Z) : bool := (1 <=? p) && (p <=? 65535).

(** The reply endpoint from the source of the datagram *)
Definition source_endpoint (peer : option (text * Z)) : result (text * Z) :=
  match peer with
  | None => Err ValueError
  | Some (host, p) => a ← IPv4Address host; if port_ok p then Ok (a, p) else Err ValueError
  end.

(** The endpoint a request names *)
Definition named_endpoint (fields : list text) : result (text * Z) :=
  match fields with
  | [host; p] =>
      if negb (isdigit p) then Err ValueError
      else
        a ← IPv4Address host;
        n ← int_of p;
        if str_eqb a (lit "0.0.0.0") || str_eqb a (lit "255.255.255.255") || negb (port_ok n) then Err ValueError
        else Ok (a, n)
  | _ => Err ValueError
  end.

(** [packet.decode("ascii").split()] *)
Definition request_fields (packet : bytes) : result (list text) :=
  if (zlen packet <? 1) || (256 <? zlen packet) then Err ValueError
  else if forallb (fun c => c <? 128) packet then Ok (split_space packet []) else Err ValueError.

(** What follows the endpoint of a RAQ1 or RAG1 *)
Definition finish_request (k a : text) (p : Z) (fields : list text) : result console_request :=
  let hash := default [] (fields !! 1%nat) in
  if negb (IMAGE_HASH hash) then Err ValueError
  else if str_eqb k (lit "RAQ1") then
    let s := default [] (fields !! 2%nat) in
    if nonempty s && negb (SERIAL s) then Err ValueError else Ok (Request k a p (lower hash) s 0 [])
  else
    let i := default [] (fields !! 2%nat) in
    if negb (fullmatch is_digit 1 5 i) then Err ValueError
    else n ← int_of i; Ok (Request k a p (lower hash) [] n []).

(** [parse_request] *)
Definition parse_request (packet : bytes) (peer : option (text * Z)) : result console_request :=
  fields ← request_fields packet;
  match fields with
  | [] => Err ValueError
  | k :: rest =>
      if existsb (str_eqb k) [lit "RAH1"; lit "RAK1"; lit "RAK2"] then
        '(a, p) ← source_endpoint peer; Ok (Request k a p [] [] 0 rest)
      else if negb (existsb (str_eqb k) [lit "RAP1"; lit "RAQ1"; lit "RAG1"]) then Err ValueError
      else
        let short := str_eqb k (lit "RAP1") in
        let minimum := if str_eqb k (lit "RAQ1") then 2 else 3 in
        let maximum := if short then 3 else 5 in
        if (zlen fields <? minimum) || (maximum <? zlen fields) then Err ValueError
        else
          let at_ := if short then 1 else 3 in
          '(a, p) ← (match named_endpoint (slice fields at_ (at_ + 2)) with
                     | Ok e => Ok e
                     | Err ValueError => source_endpoint peer
                     | Err e => Err e
                     end);
          if short then Ok (Request k a p [] [] 0 []) else finish_request k a p fields
  end.

(** ** Replies *)

(** [pad_reply] *)
Definition pad_reply (body : bytes) : result bytes :=
  if (zlen body <? 1) || (960 <=? zlen body) then Err ValueError
  else Ok (body ++ replicate (Z.to_nat (Z.max 128 ((zlen body + 63) / 64 * 64) - zlen body)) 32).

(** [unicodedata] *)
Class Normalize := { nfkd : text -> text; combining : Z -> bool }.

(** [clean_title] *)
Definition clean_title `{Normalize} (title : text) (limit : Z) : text :=
  ztake limit (map (fun c => if (32 <=? c) && (c <=? 126) then c else 32)
                   (List.filter (fun c => negb (combining c)) (nfkd title))).

(** [format_unlock_notice] *)
Definition format_unlock_notice `{Normalize} (achievement_id points : Z) (title : option text) : result bytes :=
  if (achievement_id <? 1) || (4294967295 <? achievement_id) then Err ValueError
  else if (points <? 0) || (999999 <? points) then Err ValueError
  else
    pad_reply (lit "RAU1 " ++ decimal achievement_id ++ [32] ++ decimal points
               ++ match title with Some t => 32 :: clean_title t 63 | None => [] end).

(** [watch_chunk] *)
Definition watch_chunk (watch_file : bytes) (index : Z) : result bytes :=
  if (zlen watch_file <? 1) || (17432 <? zlen watch_file) || (index <? 0) || ((zlen watch_file + 895) / 896 <=? index)
  then Err ValueError
  else
    let d := slice watch_file (index * 896) ((index + 1) * 896) in
    pad_reply (lit "RAC1 " ++ decimal index ++ [32] ++ decimal (zlen d) ++ [32] ++ d).

(** ** Telemetry *)

(** [SnapshotPart] *)
Record part := Part { p_serial : text; p_sequence : Z; p_count : Z; p_index : Z; p_parts : Z; p_values : bytes }.

(** [s.find(sub, 0, limit)], where it is *)
Fixpoint find_within (sub s : bytes) (i limit : Z) : option Z :=
  match s with
  | [] => None
  | _ :: t =>
      if limit <? i + zlen sub then None
      else if startswith s sub then Some i
      else find_within sub t (i + 1) limit
  end.

(** [([a-z]+)=([A-Za-z0-9+.-]+)] *)
Definition field_of (token : bytes) : option (bytes * bytes) :=
  let '(k, v) := partition_on 61 token in
  if existsb (Z.eqb 61) token && nonempty k && forallb is_lower k && nonempty v
     && forallb (fun c => is_alnum c || existsb (Z.eqb c) (lit "+.-")) v
  then Some (k, v) else None.

Definition get_field (k : bytes) (fields : list (bytes * bytes)) : option bytes :=
  match List.find (fun kv => str_eqb (fst kv) k) fields with Some kv => Some (snd kv) | None => None end.

Fixpoint fields_of (tokens : list bytes) (fields : list (bytes * bytes)) : result (list (bytes * bytes)) :=
  match tokens with
  | [] => Ok fields
  | t :: tokens =>
      match field_of t with
      | None => Err ValueError
      | Some (k, v) => match get_field k fields with Some _ => Err ValueError | None => fields_of tokens (fields ++ [(k, v)]) end
      end
  end.

(** The number in a field of fixed width *)
Definition number (fields : list (bytes * bytes)) (k : bytes) (width : Z) : result Z :=
  let v := default [] (get_field k fields) in
  if (zlen v =? width) && isdigit v then Ok (digits_value v) else Err ValueError.

(** [[A-Za-z0-9_.-]+~*] *)
Definition serial_field_ok (s : bytes) : bool :=
  let body := rstrip 126 s in nonempty body && forallb is_serial_char body.

(** [parse_snapshot] *)
Definition parse_snapshot (packet : bytes) : result part :=
  if (zlen packet <? 1) || (MAX_DATAGRAM <? zlen packet) then Err ValueError
  else if negb (startswith packet (lit "RA15 ")) then Err ValueError
  else
    match find_within (lit " id=") packet 0 191 with
    | None => Err ValueError
    | Some marker =>
        let offset := marker + 4 + 15 + 1 in
        if (191 <? offset) || (zlen packet <? offset) || negb (str_eqb (slice packet (offset - 1) offset) [32])
        then Err ValueError
        else
          let sf := slice packet (marker + 4) (offset - 1) in
          if negb (serial_field_ok sf) then Err ValueError
          else
            fields ← fields_of (split_on 32 (slice packet 5 marker)) [];
            sq ← number fields (lit "sq") 6;
            vb ← number fields (lit "vb") 4;
            n ← number fields (lit "n") 4;
            pt ← number fields (lit "pt") 1;
            np ← number fields (lit "np") 1;
            if (n <? 1) || (4096 <? n) || (np <? 1) || (MAX_PARTS <? np) || (np <=? pt) then Err ValueError
            else if (vb <? 1) || (MAX_VALUES <? vb) || negb (zlen packet - offset =? vb) then Err ValueError
            else Ok (Part (rstrip 126 sf) sq n pt np (zdrop offset packet))
    end.

(** [SnapshotAssembler]; the fragments by index *)
Record assembler := Assembler {
  a_serial : text;
  a_count : Z;
  a_sizes : list Z;
  a_timeout : Z;
  sequence : option Z;
  parts : option Z;
  fragments : list (Z * bytes);
  blocked : bool;
  completed : bool;
  last_seen : option Z
}.

#[export] Instance eta_assembler : Eta assembler := fun a =>
  Assembler (a_serial a) (a_count a) (a_sizes a) (a_timeout a) (sequence a) (parts a) (fragments a) (blocked a) (completed a)
            (last_seen a).

(** [SnapshotAssembler.__init__] *)
Definition new_assembler (serial : text) (count : Z) (sizes : list Z) (timeout : Z) : result assembler :=
  if negb (nonempty serial) || (count <? 1) || (4096 <? count) || bool_decide (sizes = []) then Err ValueError
  else if existsb (fun s => (s <? 1) || (MAX_VALUES <? s)) sizes then Err ValueError
  else if timeout <=? 0 then Err ValueError
  else Ok (Assembler serial count sizes timeout None None [] false false None).

(** [reset] *)
Definition reset (a : assembler) : assembler :=
  Assembler (a_serial a) (a_count a) (a_sizes a) (a_timeout a) None None [] false false None.

(** [blocked = True] with the fragments forgotten *)
Definition block (a : assembler) : assembler := a <| blocked := true |> <| fragments := [] |>.

Definition total (l : list bytes) : Z := zlen (concat l).

(** All the fragments, in order of their index *)
Fixpoint in_order (n : nat) (i : Z) (l : list (Z * bytes)) : option (list bytes) :=
  match n with
  | O => Some []
  | S n => v ← alookup i l; vs ← in_order n (i + 1) l; Some (v :: vs)
  end.

(** The lengths that the parts of one frame have *)
Definition lengths_ok (vs : list bytes) (sizes : list Z) : bool :=
  let ls := map zlen vs in
  match ls with
  | [] => false
  | l0 :: _ =>
      forallb (fun l => l =? l0) (removelast ls)
      && ((zlen ls <=? 1) || (List.last ls 0 <=? l0))
      && existsb (Z.eqb (total vs)) sizes
  end.

(** The session expires before a datagram that comes too late. *)
Definition expired (now : Z) (a : assembler) : assembler :=
  match last_seen a with
  | Some t => if a_timeout a <=? now - t then reset a else a
  | None => a
  end.

(** How far a datagram is ahead of the sequence, 1 where there is none *)
Definition distance (p : part) (a : assembler) : Z :=
  match sequence a with Some s => (p_sequence p - s) mod SEQUENCE_MODULUS | None => 1 end.

(** A newer sequence replaces the frame that was being assembled. *)
Definition adopt (p : part) (a : assembler) : assembler :=
  if distance p a =? 0 then a
  else a <| sequence := Some (p_sequence p) |> <| parts := Some (p_parts p) |> <| fragments := [] |> <| blocked := false |>
         <| completed := false |>.

(** A part of the current frame.  The index of a part is below the number of parts, so that
    as many fragments as parts are all the fragments. *)
Definition take_part (p : part) (now : Z) (a : assembler) : option bytes * assembler :=
  if blocked a || completed a then (None, a)
  else if bool_decide (parts a <> Some (p_parts p)) then (None, block a)
  else
    let previous := alookup (p_index p) (fragments a) in
    if match previous with Some v => negb (str_eqb v (p_values p)) | None => false end then (None, block a)
    else
      let a := a <| fragments ::= aset (p_index p) (p_values p) |> in
      if foldr Z.max 0 (a_sizes a) <? total (map snd (fragments a)) then (None, block a)
      else
        let a := match previous with None => a <| last_seen := Some now |> | Some _ => a end in
        if negb (zlen (fragments a) =? p_parts p) then (None, a)
        else
          match in_order (Z.to_nat (p_parts p)) 0 (fragments a) with
          | Some vs =>
              if lengths_ok vs (a_sizes a) then (Some (concat vs), a <| completed := true |> <| fragments := [] |>)
              else (None, block a)
          | None => (None, a)
          end.

(** [feed] after the datagram is parsed *)
Definition feed_part (p : part) (now : Z) (a : assembler) : option bytes * assembler :=
  if negb (str_eqb (p_serial p) (a_serial a)) || negb (p_count p =? a_count a) then (None, a)
  else
    let a := expired now a in
    if SEQUENCE_MODULUS / 2 <=? distance p a then (None, a) else take_part p now (adopt p a).

(** [feed] *)
Definition feed (packet : bytes) (now : Z) : M assembler (option bytes) := fun a =>
  match parse_snapshot packet with
  | Err e => (Err e, a)
  | Ok p => let '(v, a) := feed_part p now a in (Ok v, a)
  end.

(** ** RetroAchievements: watch lists

    Models [launcher/ra_watchlist.py]: the validation of the list of addresses that a console
    watches, and [WatchSession], which binds a list to the image it belongs to and assembles
    the snapshots of the values. *)

(** [WatchList] *)
Record watch_list := Watch { data : bytes; count : Z; direct_bytes : Z; nodes : Z }.

(** [snapshot_sizes] *)
Definition snapshot_sizes (w : watch_list) : list Z := [direct_bytes w; direct_bytes w + nodes w * 8].

Definition RAWL : Z := 1280786770.
Definition RANL : Z := 1280196946.

(** The 32-bit word at an offset the caller has checked *)
Definition word (d : bytes) (off : Z) : Z := le_int (slice d off (off + 4)).
Definition size_ok (s : Z) : bool := (s =? 1) || (s =? 2) || (s =? 4).

(** The sizes of the entries *)
Definition entry_sizes (d : bytes) (n : Z) : list Z := map (fun i => Z.shiftr (word d (16 + i * 4)) 28) (seqZ 0 n).

(** A node reads an earlier node or an entry *)
Definition node_ok (d : bytes) (end_ count i : Z) : bool :=
  let w := word d (end_ + 8 + i * 8) in
  let parent := Z.land w 4095 in
  let from_node := negb (Z.land (Z.shiftr w 12) 1 =? 0) in
  size_ok (Z.land (Z.shiftr w 13) 7) && (parent <? (if from_node then i else count)).

(** The number of nodes in the tail, 0 without one *)
Definition tail_nodes (d : bytes) (end_ count : Z) : result Z :=
  if end_ =? zlen d then Ok 0
  else if zlen d - end_ <? 8 then Err ValueError
  else
    let n := word d (end_ + 4) in
    if negb (word d end_ =? RANL) || (n <? 1) || (128 <? n) || negb (end_ + 8 + n * 8 =? zlen d) then Err ValueError
    else if forallb (node_ok d end_ count) (seqZ 0 n) then Ok n else Err ValueError.

(** [validate_watchlist] *)
Definition validate_watchlist (d : bytes) : result watch_list :=
  if (zlen d <? 20) || (17432 <? zlen d) then Err ValueError
  else
    let n := word d 8 in
    let direct := word d 12 in
    if negb (word d 0 =? RAWL) || negb (word d 4 =? 1) || (n <? 1) || (4096 <? n) then Err ValueError
    else
      let end_ := 16 + n * 4 in
      if zlen d <? end_ then Err ValueError
      else
        let sizes := entry_sizes d n in
        if negb (forallb size_ok sizes) || negb (foldr Z.add 0 sizes =? direct) then Err ValueError
        else
          ns ← tail_nodes d end_ n;
          if (1 <=? direct) && (direct <=? direct + ns * 8) && (direct + ns * 8 <=? MAX_VALUES)
          then Ok (Watch d n direct ns) else Err ValueError.

(** [validate_orbit_watchlist] *)
Definition validate_orbit_watchlist (d : bytes) : result watch_list :=
  w ← validate_watchlist d;
  if 1216 <? direct_bytes w then Err ValueError else if negb (nodes w =? 0) then Err ValueError else Ok w.

(** [WatchSession]; [w_timeout] is the option it passes to its assemblers. *)
Record watch_session := Watching {
  w_timeout : Z;
  generation : Z;
  w_image : option text;
  w_serial : option text;
  watch : option watch_list;
  assembling : option assembler
}.

#[export] Instance eta_watch_session : Eta watch_session := fun s =>
  Watching (w_timeout s) (generation s) (w_image s) (w_serial s) (watch s) (assembling s).

(** [clear] *)
Definition clear_watch (s : watch_session) : watch_session :=
  s <| generation ::= Z.add 1 |> <| w_image := None |> <| w_serial := None |> <| watch := None |> <| assembling := None |>.

(** [WatchSession.__init__] *)
Definition new_watch_session (timeout : Z) : watch_session := clear_watch (Watching timeout 0 None None None None).

(** [install] *)
Definition install (image_hash serial : text) (d : bytes) : M watch_session unit := fun s =>
  let installed :=
    if negb (IMAGE_HASH image_hash) then Err ValueError
    else if negb (SERIAL serial) then Err ValueError
    else
      w ← validate_watchlist d;
      a ← new_assembler serial (count w) (snapshot_sizes w) (w_timeout s);
      Ok (w, a)
  in
  match installed with
  | Err e => (Err e, s)
  | Ok (w, a) =>
      (Ok tt, s <| generation ::= Z.add 1 |> <| w_image := Some (lower image_hash) |> <| w_serial := Some serial |>
                <| watch := Some w |> <| assembling := Some a |>)
  end.

(** [chunk] *)
Definition chunk (image_hash : text) (index : Z) (s : watch_session) : result (option bytes) :=
  match watch s with
  | None => Ok None
  | Some w => if bool_decide (Some image_hash = w_image s) then c ← watch_chunk (data w) index; Ok (Some c) else Ok None
  end.

(** [WatchSession.feed] *)
Definition feed_session (packet : bytes) (now : Z) : M watch_session (option bytes) := fun s =>
  match assembling s with
  | None => (Ok None, s)
  | Some a => let '(r, a) := feed packet now a in (r, s <| assembling := Some a |>)
  end.
