(* ===== verification/RaFrames.v ===== *)
(** * Snapshots of memory are whole

    What [SnapshotAssembler] returns is the concatenation of the parts of one frame, whatever
    datagrams come in between and in whatever order; and a frame whose parts all arrive is
    returned exactly once, at the part that completes it. *)

From S2P Require Import Prelude Tables PyStr PyText ChdCue Http HttpFacts Ipv4 RaProtocol.

(** ** The fragments by index *)

Lemma in_order_spec n i l vs : in_order n i l = Some vs ->
  length vs = n /\ forall k, (k < n)%nat -> vs !! k = alookup (i + Z.of_nat k) l.
Proof.
  revert i vs. induction n as [|n IH]; intros i vs; cbn [in_order]; [intros [= <-]; split; [done|lia]|].
  destruct (alookup i l) as [v|] eqn:Ev; [|done]. cbn. destruct (in_order n (i + 1) l) as [r|] eqn:Er; [|done].
  intros [= <-]. destruct (IH _ _ Er) as [<- Hk]. split; [done|]. intros [|k] Hlt; [cbn; by rewrite Z.add_0_r, Ev|].
  cbn. rewrite Hk by lia. f_equal. lia.
Qed.

Lemma in_order_lookup l vs i : (forall k, (k < length vs)%nat -> alookup (i + Z.of_nat k) l = vs !! k) ->
  in_order (length vs) i l = Some vs.
Proof.
  revert i. induction vs as [|v vs IH]; intros i Hk; [done|]. cbn.
  pose proof (Hk 0%nat ltac:(cbn; lia)) as H0. rewrite Z.add_0_r in H0. rewrite H0. cbn. rewrite IH; [done|].
  intros k Hlt. specialize (Hk (S k) ltac:(cbn; lia)).
  change (alookup (i + Z.of_nat (S k)) l = vs !! k) in Hk. rewrite <- Hk. f_equal. lia.
Qed.

Lemma zlen_aupdate {A} k (f : A -> A) l : zlen (aupdate k f l) = zlen l.
Proof. apply zlen_map. Qed.

(** ** One datagram *)

(** [p] is of frame [s] of the list that [a] assembles. *)
Definition of_frame (a : assembler) (s : Z) (p : part) : Prop :=
  p_serial p = a_serial a /\ p_count p = a_count a /\ p_sequence p = s.

Definition valid_part (p : part) : Prop := 0 <= p_index p < p_parts p /\ 0 <= p_sequence p < SEQUENCE_MODULUS.
Definition numbered (a : assembler) : Prop := forall s, sequence a = Some s -> 0 <= s < SEQUENCE_MODULUS.

(** The fragments of [a] are the values of the parts of its frame among [cur]. *)
Definition gathers (a : assembler) (s : Z) (cur : list part) : Prop :=
  (forall q, q ∈ cur -> of_frame a s q -> parts a = Some (p_parts q) /\ alookup (p_index q) (fragments a) = Some (p_values q)) /\
  (forall i v, alookup i (fragments a) = Some v -> exists q, q ∈ cur /\ of_frame a s q /\ p_index q = i /\ p_values q = v).

(** A frame being assembled holds the parts that came since it was taken up. *)
Definition traced (a : assembler) (ps : list part) : Prop :=
  forall s, sequence a = Some s -> blocked a = false -> completed a = false ->
  exists old cur, ps = old ++ cur /\ gathers a s cur.

(** [v] is one frame of the parts [ps], none of which contradicts it. *)
Definition one_frame (a : assembler) (s : Z) (ps : list part) (v : bytes) : Prop :=
  exists old cur vs, ps = old ++ cur /\ v = concat vs /\ zlen v ∈ a_sizes a /\ vs <> [] /\
    (forall k d, vs !! k = Some d ->
       exists q, q ∈ cur /\ of_frame a s q /\ p_parts q = zlen vs /\ p_index q = Z.of_nat k /\ p_values q = d) /\
    (forall q, q ∈ cur -> of_frame a s q -> p_parts q = zlen vs /\ vs !! Z.to_nat (p_index q) = Some (p_values q)).

(** What no operation changes *)
Definition same_list (a b : assembler) : Prop :=
  a_serial b = a_serial a /\ a_count b = a_count a /\ a_sizes b = a_sizes a /\ a_timeout b = a_timeout a.

Lemma same_refl a : same_list a a.
Proof. done. Qed.
Lemma same_trans a b c : same_list a b -> same_list b c -> same_list a c.
Proof. unfold same_list. intuition congruence. Qed.
Lemma same_frame a b s p : same_list a b -> of_frame a s p -> of_frame b s p.
Proof. unfold same_list, of_frame. intuition congruence. Qed.

Lemma same_expired t a : same_list a (expired t a).
Proof. unfold expired. destruct (last_seen a); [|done]. by destruct (_ <=? _). Qed.
Lemma same_adopt p a : same_list a (adopt p a).
Proof. unfold adopt. by destruct (_ =? 0). Qed.

Lemma take_part_same p t a : same_list a (snd (take_part p t a)).
Proof.
  unfold take_part. repeat (case_match; try done).
Qed.

Lemma sequence_take_part p t a : sequence (snd (take_part p t a)) = sequence a.
Proof. unfold take_part. repeat (case_match; try done). Qed.

(** A part is gathered unless it conflicts. *)
Lemma gathers_aset a s cur p : gathers a s cur -> of_frame a s p -> parts a = Some (p_parts p) ->
  (alookup (p_index p) (fragments a) = None \/ alookup (p_index p) (fragments a) = Some (p_values p)) ->
  gathers (a <| fragments ::= aset (p_index p) (p_values p) |>) s (cur ++ [p]).
Proof.
  intros [G1 G2] Hp Hn Hc. split; cbn.
  - intros q [Hq| ->%list_elem_of_singleton]%elem_of_app Hf; [|split; [done|apply alookup_aset]].
    destruct (G1 q Hq Hf) as [E1 E2]. split; [done|].
    destruct (decide (p_index q = p_index p)) as [E|E]; [|by rewrite alookup_aset_ne].
    rewrite E, alookup_aset in *. rewrite E2 in Hc. by destruct Hc as [|[= ->]].
  - intros i v. destruct (decide (i = p_index p)) as [->|E].
    + rewrite alookup_aset. intros [= <-]. exists p. split; [by apply elem_of_app; right; left|done].
    + rewrite alookup_aset_ne by done. intros (q & Hq & H)%G2. exists q. split; [by apply elem_of_app; left|done].
Qed.

(** The fragments of a complete frame are one frame. *)
Lemma gathered_frame a s old cur vs n : gathers a s cur -> parts a = Some n -> 0 < n -> Forall valid_part cur ->
  in_order (Z.to_nat n) 0 (fragments a) = Some vs -> lengths_ok vs (a_sizes a) = true -> one_frame a s (old ++ cur) (concat vs).
Proof.
  intros [G1 G2] Hn H0 Hv Hi Hl. apply in_order_spec in Hi as [Elen Hk].
  assert (En : n = zlen vs) by (unfold zlen; lia).
  exists old, cur, vs. split_and!; [done|done| | | |].
  - unfold lengths_ok in Hl. destruct (map zlen vs); [done|]. rewrite !andb_true_iff in Hl.
    destruct Hl as [_ [x [Hx Ex%Z.eqb_eq]]%existsb_exists]. unfold total in Ex. rewrite Ex. by apply list_elem_of_In.
  - intros ->. cbn in *. lia.
  - intros k d Ek. pose proof (lookup_lt_Some _ _ _ Ek). rewrite Hk in Ek by lia. rewrite Z.add_0_l in Ek.
    destruct (G2 _ _ Ek) as (q & Hq & Hf & Eq & Evals). exists q. split_and!; try done.
    destruct (G1 q Hq Hf) as [E _]. congruence.
  - intros q Hq Hf. destruct (G1 q Hq Hf) as [E1 E2]. assert (p_parts q = zlen vs) by congruence. split; [done|].
    pose proof (proj1 (Forall_forall _ _) Hv q Hq) as Hr. unfold valid_part in Hr.
    rewrite Hk by (unfold zlen in *; lia). rewrite Z.add_0_l, Z2Nat.id by lia. done.
Qed.

Lemma traced_block a ps : traced (block a) ps.
Proof. intros s. by cbn. Qed.

(** A part of the current frame keeps the trace, and what it completes is one frame. *)
Lemma take_part_traced p t a old cur :
  let s := p_sequence p in
  sequence a = Some s -> of_frame a s p -> Forall valid_part (cur ++ [p]) ->
  (blocked a = false -> completed a = false -> gathers a s cur) ->
  traced (snd (take_part p t a)) (old ++ cur ++ [p]) /\
  (forall v, fst (take_part p t a) = Some v -> one_frame a s (old ++ cur ++ [p]) v).
Proof.
  intros s Es Hp Hv Hg. unfold take_part.
  destruct (blocked a) eqn:Eb; [cbn; split; [|done]; intros s' _; by rewrite Eb|].
  destruct (completed a) eqn:Ec; [cbn; split; [|done]; intros s' _ _; by rewrite Ec|]. specialize (Hg eq_refl eq_refl). cbn [orb].
  case_bool_decide as En; [split; [apply traced_block|done]|].
  destruct (match alookup _ _ with Some _ => _ | None => _ end) eqn:Econ; [split; [apply traced_block|done]|].
  assert (G := gathers_aset a s cur p Hg Hp En). set (b := set_field fragments _ a) in *.
  assert (Hb : gathers b s (cur ++ [p])).
  { apply G. destruct (alookup _ _); [right|by left]. f_equal. unfold str_eqb in Econ. by case_bool_decide. }
  destruct (_ <? _); [split; [apply traced_block|done]|].
  set (c := match alookup _ _ with Some _ => _ | None => _ end).
  assert (Hc : gathers c s (cur ++ [p]) /\ sequence c = Some s /\ parts c = Some (p_parts p) /\ a_sizes c = a_sizes a /\
               fragments c = fragments b) by (subst c; case_match; cbn; by split_and!).
  clearbody c. destruct Hc as (Hc & Ecs & Ecn & Esz & Efr).
  destruct (negb _); [split; [|done]; intros s' Es' _ _; exists old, (cur ++ [p]); split; [done|]; cbn in *; by simplify_eq|].
  destruct (in_order _ _ _) as [vs|] eqn:Ei; [|split; [|done]; intros s' Es' _ _; exists old, (cur ++ [p]); split; [done|]; cbn in *; by simplify_eq].
  destruct (lengths_ok vs (a_sizes c)) eqn:El; [|split; [apply traced_block|done]].
  split; [intros s' _ _; by cbn|]. intros v [= <-].
  assert (Hn0 : 0 < p_parts p) by (apply Forall_app in Hv as [_ [Hv _]%Forall_cons]; unfold valid_part in Hv; lia).
  rewrite Efr in Ei. pose proof (gathered_frame b s old (cur ++ [p]) vs (p_parts p)) as H. rewrite Esz in El.
  by apply H.
Qed.

Lemma one_frame_same a b s ps v : same_list a b -> one_frame a s ps v -> one_frame b s ps v.
Proof.
  intros Hs (old & cur & vs & E & Ev & Hz & Hne & H1 & H2). exists old, cur, vs. split_and!; try done.
  - destruct Hs as (_ & _ & -> & _). done.
  - intros k d Hk. destruct (H1 k d Hk) as (q & Hq & Hf & ?). exists q. split_and!; try tauto. by eapply same_frame.
  - intros q Hq Hf. apply H2; [done|]. eapply same_frame; [|done]. unfold same_list in *. intuition congruence.
Qed.

Lemma traced_more a ps p : traced a ps -> (forall s, sequence a = Some s -> p_sequence p = s -> ~ of_frame a s p) -> traced a (ps ++ [p]).
Proof.
  intros Ht Hn s Es Eb Ec. destruct (Ht s Es Eb Ec) as (old & cur & -> & G1 & G2).
  exists old, (cur ++ [p]). split; [by rewrite app_assoc|]. split.
  - intros q [Hq| ->%list_elem_of_singleton]%elem_of_app Hf; [by apply G1|]. destruct (Hn s Es (proj2 (proj2 Hf)) Hf).
  - intros i v (q & Hq & H)%G2. exists q. split; [by apply elem_of_app; left|done].
Qed.

Lemma traced_expired t a ps : traced a ps -> traced (expired t a) ps.
Proof. unfold expired. destruct (last_seen a); [|done]. by destruct (_ <=? _). Qed.

Lemma feed_part_same p t a : same_list a (snd (feed_part p t a)).
Proof.
  unfold feed_part. destruct (_ || _); [done|]. destruct (_ <=? _); [apply same_expired|].
  eapply same_trans; [apply same_expired|]. eapply same_trans; [apply same_adopt|apply take_part_same].
Qed.

Lemma numbered_expired t a : numbered a -> numbered (expired t a).
Proof. unfold expired. destruct (last_seen a); [|done]. by destruct (_ <=? _). Qed.

Lemma feed_part_numbered p t a : numbered a -> valid_part p -> numbered (snd (feed_part p t a)).
Proof.
  intros Hn [_ Hp]. unfold feed_part. destruct (_ || _); [done|]. destruct (_ <=? _); [by apply numbered_expired|].
  intros s. rewrite sequence_take_part. unfold adopt. destruct (_ =? 0); [by apply numbered_expired|]. by intros [= <-].
Qed.

(** No difference modulo the numbers of frames is the same frame. *)
Lemma same_number s q : 0 <= s < SEQUENCE_MODULUS -> 0 <= q < SEQUENCE_MODULUS -> (q - s) mod SEQUENCE_MODULUS = 0 -> s = q.
Proof. unfold SEQUENCE_MODULUS. intros. Z.to_euclidean_division_equations. lia. Qed.

(** Each part keeps the trace, and what comes out is one frame of the parts so far. *)
Lemma feed_part_traced p t a ps : traced a ps -> numbered a -> Forall valid_part (ps ++ [p]) ->
  traced (snd (feed_part p t a)) (ps ++ [p]) /\
  (forall v, fst (feed_part p t a) = Some v ->
     one_frame a (p_sequence p) (ps ++ [p]) v /\ sequence (snd (feed_part p t a)) = Some (p_sequence p)).
Proof.
  intros Ht Hn%(numbered_expired t) Hv. unfold feed_part.
  destruct (_ || _) eqn:Eo.
  { cbn. split; [|done]. apply traced_more; [done|]. intros s _ _ (H1 & H2 & _).
    unfold str_eqb in Eo. rewrite bool_decide_true in Eo by done. rewrite H2, Z.eqb_refl in Eo. done. }
  apply orb_false_iff in Eo as [E1%negb_false_iff E2%negb_false_iff%Z.eqb_eq].
  unfold str_eqb in E1. apply bool_decide_eq_true in E1.
  pose proof (traced_expired t a ps Ht) as Ht'. pose proof (same_expired t a) as Hs. set (b := expired t a) in *. clearbody b.
  destruct (_ <=? _) eqn:Ed.
  { cbn. split; [|done]. apply traced_more; [done|]. intros s Es Ep _. unfold distance in Ed. rewrite Es, Ep, Z.sub_diag in Ed.
    by vm_compute in Ed. }
  assert (Hs' : same_list a (adopt p b)) by (eapply same_trans; [exact Hs|apply same_adopt]).
  assert (Hf : of_frame (adopt p b) (p_sequence p) p).
  { apply (same_frame a); [done|]. by split_and!. }
  assert (exists old cur, ps = old ++ cur /\ sequence (adopt p b) = Some (p_sequence p) /\
            (blocked (adopt p b) = false -> completed (adopt p b) = false -> gathers (adopt p b) (p_sequence p) cur))
    as (old & cur & -> & Es & Hg).
  { unfold adopt. destruct (Z.eqb_spec (distance p b) 0) as [E0|E0].
    - unfold distance in E0. destruct (sequence b) as [s|] eqn:Es; [|done].
      apply Forall_app in Hv as [_ [[_ Hq] _]%Forall_cons]. apply same_number in E0 as ->; [|by apply Hn|done].
      destruct (blocked b) eqn:Eb; [exists ps, []; by rewrite app_nil_r|].
      destruct (completed b) eqn:Ec; [exists ps, []; by rewrite app_nil_r|].
      destruct (Ht' _ Es Eb Ec) as (old & cur & -> & Hg). by exists old, cur.
    - exists ps, []. rewrite app_nil_r. split_and!; [done..|]. intros _ _. split; cbn; [intros q Hq; by apply not_elem_of_nil in Hq|done]. }
  rewrite <- app_assoc. destruct (take_part_traced p t (adopt p b) old cur) as [T1 T2]; try done.
  { rewrite <- app_assoc in Hv. apply Forall_app in Hv. tauto. }
  split; [done|]. intros v Ev. split; [|by rewrite sequence_take_part].
  apply T2 in Ev. eapply one_frame_same; [|exact Ev]. unfold same_list in *. intuition congruence.
Qed.

(** ** Datagrams *)

Lemma digits_value_bound s : forallb is_digit s = true -> 0 <= digits_value s < 10 ^ zlen s.
Proof.
  unfold digits_value. assert (G : forall acc, forallb is_digit s = true ->
    acc * 10 ^ zlen s <= foldl (fun n c => 10 * n + (c - 48)) acc s < (acc + 1) * 10 ^ zlen s).
  { induction s as [|c s IH]; intros acc Hs; [rewrite zlen_nil; cbn; lia|]. cbn in Hs. apply andb_true_iff in Hs as [Hc Hs].
    unfold is_digit in Hc. apply andb_true_iff in Hc as [H1%Z.leb_le H2%Z.leb_le].
    specialize (IH (10 * acc + (c - 48)) Hs). cbn [foldl]. pose proof (zlen_nonneg s).
    rewrite zlen_cons, Z.pow_add_r by lia. change (10 ^ 1) with 10.
    assert (0 < 10 ^ zlen s) by (apply Z.pow_pos_nonneg; lia). nia. }
  intros Hs. specialize (G 0 Hs). lia.
Qed.

Lemma number_bound fields k w n : number fields k w = Ok n -> 0 <= n < 10 ^ w.
Proof.
  unfold number. intros H. if_inv H. apply andb_true_iff in E as [<-%Z.eqb_eq Hd]. injection H as <-.
  apply digits_value_bound. unfold isdigit in Hd. by apply andb_true_iff in Hd as [_ ?].
Qed.

Lemma find_within_from sub s i limit j : find_within sub s i limit = Some j -> i <= j.
Proof.
  revert i. induction s as [|c s IH]; intros i; cbn [find_within]; [done|]. destruct (_ <? _); [done|].
  destruct (startswith _ _); [intros [= <-]; lia|]. intros H%IH. lia.
Qed.

(** A part that is read has an index below its count, a number of six digits and a payload. *)
Lemma parse_valid packet p : parse_snapshot packet = Ok p ->
  valid_part p /\ 1 <= p_parts p <= MAX_PARTS /\ 1 <= zlen (p_values p) <= MAX_VALUES.
Proof.
  unfold parse_snapshot. intros H. if_inv H. if_inv H. destruct (find_within _ _ _ _) as [m|] eqn:Em; [|done]. cbv zeta in H.
  if_inv H. if_inv H. bind_inv H. do 5 bind_inv H. if_inv H. if_inv H. injection H as <-. cbn.
  apply number_bound in E4 as Hsq. apply number_bound in E7 as Hpt. pose proof (find_within_from _ _ _ _ _ Em) as Hm.
  repeat match goal with E : _ || _ = false |- _ => apply orb_false_iff in E as [? ?] end.
  repeat match goal with E : negb _ = false |- _ => apply negb_false_iff in E end.
  unfold valid_part. cbn. rewrite zlen_zdrop. change (10 ^ 6) with SEQUENCE_MODULUS in Hsq. unfold MAX_PARTS in *. cbn [negb] in *. lia.
Qed.

(** ** Runs *)

(** The datagrams fed with the times, and what each returned; [None] where it raised. *)
Fixpoint feeds (ins : list (bytes * Z)) (a : assembler) : list (option bytes) * assembler :=
  match ins with
  | [] => ([], a)
  | (packet, t) :: ins =>
      let '(r, a) := feed packet t a in
      let '(vs, a) := feeds ins a in (match r with Ok v => v | Err _ => None end :: vs, a)
  end.

(** The parts among the datagrams *)
Definition parts_of (ins : list (bytes * Z)) : list part :=
  omap (fun it => match parse_snapshot (fst it) with Ok p => Some p | Err _ => None end) ins.

Lemma parts_valid ins : Forall valid_part (parts_of ins).
Proof.
  apply Forall_forall. intros p Hp. apply list_elem_of_omap in Hp as ([b t] & _ & Hb). cbn in Hb.
  destruct (parse_snapshot b) eqn:E; [|done]. simplify_eq. exact (proj1 (parse_valid _ _ E)).
Qed.

Lemma parts_of_snoc ins packet t :
  parts_of (ins ++ [(packet, t)]) = parts_of ins ++ match parse_snapshot packet with Ok p => [p] | Err _ => [] end.
Proof. unfold parts_of. rewrite omap_app. f_equal. cbn. by destruct (parse_snapshot packet). Qed.

(** The state of a run *)
Record run_ok (a0 : assembler) (ins : list (bytes * Z)) (a : assembler) : Prop := {
  ro_same : same_list a0 a;
  ro_numbered : numbered a;
  ro_traced : traced a (parts_of ins)
}.

Lemma run_ok_feed a0 ins a packet t : run_ok a0 ins a ->
  run_ok a0 (ins ++ [(packet, t)]) (snd (feed packet t a)) /\
  (forall v, fst (feed packet t a) = Ok (Some v) ->
     exists s, sequence (snd (feed packet t a)) = Some s /\ one_frame a0 s (parts_of (ins ++ [(packet, t)])) v).
Proof.
  intros [Hs Hn Ht]. unfold feed. pose proof (parts_valid (ins ++ [(packet, t)])) as Hv. rewrite parts_of_snoc in *.
  destruct (parse_snapshot packet) as [p|e] eqn:Ep.
  2: { split; [|done]. split; [done..|]. by rewrite parts_of_snoc, Ep, app_nil_r. }
  destruct (feed_part_traced p t a (parts_of ins) Ht Hn Hv) as [T1 T2].
  assert (Hp : valid_part p) by (apply Forall_app in Hv as [_ [Hv _]%Forall_cons]; done).
  pose proof (feed_part_numbered p t a Hn Hp) as Hn'. pose proof (feed_part_same p t a) as Hs'.
  destruct (feed_part p t a) as [o b]. cbn [fst snd] in *. split.
  - split; [by eapply same_trans|done|]. by rewrite parts_of_snoc, Ep.
  - intros v [= ->]. destruct (T2 v eq_refl) as [H1 H2]. exists (p_sequence p). split; [done|].
    eapply one_frame_same; [|exact H1]. unfold same_list in *. intuition congruence.
Qed.

Lemma run_ok_feeds a0 ins0 ins a : run_ok a0 ins0 a -> run_ok a0 (ins0 ++ ins) (snd (feeds ins a)).
Proof.
  revert ins0 a. induction ins as [|[packet t] ins IH]; intros ins0 a H; [by rewrite app_nil_r|]. cbn [feeds].
  apply (run_ok_feed a0 ins0 a packet t) in H as [H _]. destruct (feed packet t a) as [r b]. cbn [snd] in H.
  specialize (IH _ _ H). rewrite <- app_assoc in IH. by destruct (feeds ins b).
Qed.

Lemma run_ok_new serial n sizes timeout a : new_assembler serial n sizes timeout = Ok a -> run_ok a [] a.
Proof. unfold new_assembler. intros H. do 3 if_inv H. injection H as <-. by split. Qed.

(** Whatever datagrams an assembler is fed, and whenever: what it returns is the values of one
    frame, put together from all of its parts in order, none of which was contradicted by
    another one since the frame was taken up; its size is one of those of the watch list. *)
Theorem frame_whole serial n sizes timeout a ins packet t v b :
  new_assembler serial n sizes timeout = Ok a -> feed packet t (snd (feeds ins a)) = (Ok (Some v), b) ->
  exists s, sequence b = Some s /\ one_frame a s (parts_of (ins ++ [(packet, t)])) v.
Proof.
  intros Ha Hf. apply run_ok_new, (run_ok_feeds a [] ins) in Ha.
  destruct (run_ok_feed a ins _ packet t Ha) as [_ H]. rewrite Hf in H. by apply H.
Qed.

(** ** A frame whose parts all arrive *)

Lemma total_concat l k : total (l ++ k) = total l + total k.
Proof. unfold total. by rewrite concat_app, zlen_app. Qed.

Lemma total_perm l k : l ≡ₚ k -> total l = total k.
Proof.
  induction 1; [done| | |congruence].
  - change (?x :: ?l) with ([x] ++ l). rewrite !total_concat. lia.
  - change (y :: x :: l) with ([y] ++ [x] ++ l). change (x :: y :: l) with ([x] ++ [y] ++ l). rewrite !total_concat. lia.
Qed.

(** The parts of a frame by index *)
Definition numbered_parts (vs : list bytes) : list (Z * bytes) := imap (fun k v => (Z.of_nat k, v)) vs.

Lemma numbered_parts_in vs i v : (i, v) ∈ numbered_parts vs <-> exists k, i = Z.of_nat k /\ vs !! k = Some v.
Proof.
  unfold numbered_parts. rewrite elem_of_lookup_imap. split.
  - intros (k & w & [= -> ->] & Hk). by exists k.
  - intros (k & -> & Hk). by exists k, v.
Qed.

Lemma numbered_parts_values vs : map snd (numbered_parts vs) = vs.
Proof. unfold numbered_parts. change (map snd) with (fmap (M:=list) (@snd Z bytes)). rewrite fmap_imap.
  change (imap (const id) vs = vs). by rewrite imap_const, list_fmap_id.
Qed.

Lemma keys_aset {A} k (a : A) l : NoDup (map fst l) -> NoDup (map fst (aset k a l)).
Proof.
  intros Hn. unfold aset. destruct (alookup k l) eqn:E.
  - unfold aupdate. rewrite map_map. erewrite map_ext; [exact Hn|]. intros [j b]. cbn. by destruct (j =? k).
  - rewrite map_app. apply NoDup_app. split_and!; [done| |apply NoDup_singleton]. intros j Hj Hk. cbn in Hk.
    apply list_elem_of_singleton in Hk as ->. apply list_elem_of_In, in_map_iff in Hj as ([j b] & E' & Hin). cbn in E'. subst j.
    clear Hn. induction l as [|[j c] l IH]; [done|]. cbn in E. destruct (Z.eqb_spec j k); [done|].
    destruct Hin as [[= -> _]|Hin]; [done|by apply IH].
Qed.

Lemma aset_in {A} k (a : A) l j b : (j, b) ∈ aset k a l -> (j = k /\ b = a) \/ (j, b) ∈ l.
Proof.
  unfold aset. destruct (alookup k l).
  - unfold aupdate. intros ([i c] & E & Hin)%list_elem_of_In%in_map_iff. cbn in E. destruct (Z.eqb_spec i k) as [->|].
    + injection E as <- <-. by left.
    + injection E as -> ->. right. by apply list_elem_of_In.
  - intros [Hin|[= -> ->]%list_elem_of_singleton]%elem_of_app; [by right|by left].
Qed.

Lemma alookup_some {A} k (a : A) l : NoDup (map fst l) -> (k, a) ∈ l -> alookup k l = Some a.
Proof.
  induction l as [|[j b] l IH]; [by intros _ ?%not_elem_of_nil|]. cbn. intros [Hj Hn]%NoDup_cons [[= <- <-]|Hin]%elem_of_cons.
  - by rewrite Z.eqb_refl.
  - destruct (Z.eqb_spec j k) as [->|]; [|by apply IH]. destruct Hj. apply list_elem_of_In, in_map_iff. exists (k, a).
    split; [done|by apply list_elem_of_In].
Qed.

(** [l] holds parts of the frame [vs], those of the indices [ks]. *)
Record partial (vs : list bytes) (ks : list nat) (l : list (Z * bytes)) : Prop := {
  pa_keys : NoDup (map fst l);
  pa_parts : forall i v, (i, v) ∈ l -> exists k, i = Z.of_nat k /\ vs !! k = Some v /\ k ∈ ks;
  pa_all : forall k v, k ∈ ks -> vs !! k = Some v -> alookup (Z.of_nat k) l = Some v
}.

Definition covers (vs : list bytes) (ks : list nat) : Prop := forall k, (k < length vs)%nat -> k ∈ ks.

Section partial.
Context (vs : list bytes) (ks : list nat) (l : list (Z * bytes)) (Hl : partial vs ks l).

Lemma partial_submseteq : l ⊆+ numbered_parts vs.
Proof.
  apply NoDup_submseteq; [exact (NoDup_fmap_1 fst l (pa_keys _ _ _ Hl))|]. intros [i v] Hi.
  apply numbered_parts_in. destruct (pa_parts _ _ _ Hl i v Hi) as (k & E & Hk & _). by exists k.
Qed.

Lemma partial_total : total (map snd l) <= total vs.
Proof.
  destruct (submseteq_Permutation _ _ partial_submseteq) as [r Hr]. rewrite <- (numbered_parts_values vs).
  rewrite (total_perm (map snd (numbered_parts vs)) (map snd (l ++ r))) by (by apply (fmap_Permutation snd)).
  rewrite map_app, total_concat. unfold total at 3. pose proof (zlen_nonneg (concat (map snd r))). lia.
Qed.

Lemma partial_length : zlen l = zlen vs <-> covers vs ks.
Proof.
  assert (En : length (numbered_parts vs) = length vs) by apply length_imap. unfold zlen. split.
  - intros E k Hk. apply lookup_lt_is_Some in Hk as [v Hv].
    assert (Hin : (Z.of_nat k, v) ∈ l).
    { rewrite (submseteq_length_Permutation _ _ partial_submseteq) by lia. apply numbered_parts_in. by exists k. }
    destruct (pa_parts _ _ _ Hl _ _ Hin) as (k' & E' & _ & Hk'). by replace k with k' by lia.
  - intros Hc. pose proof (submseteq_length _ _ partial_submseteq). assert (length (numbered_parts vs) <= length l)%nat; [|lia].
    apply submseteq_length, NoDup_submseteq.
    + apply (NoDup_fmap_1 fst). unfold numbered_parts. rewrite fmap_imap.
      change (NoDup (imap (fun n _ => Z.of_nat n) vs)). apply NoDup_alt. intros i j x Hi Hj.
      rewrite list_lookup_imap in Hi, Hj. destruct (vs !! i), (vs !! j); try done. cbn in *. simplify_eq. lia.
    + intros [i v] (k & -> & Hk)%numbered_parts_in. apply alookup_in. apply (pa_all _ _ _ Hl); [|done]. apply Hc.
      by eapply lookup_lt_Some.
Qed.

Lemma partial_in_order : covers vs ks -> in_order (Z.to_nat (zlen vs)) 0 l = Some vs.
Proof.
  intros Hc. unfold zlen. rewrite Nat2Z.id. apply in_order_lookup. intros k Hk. rewrite Z.add_0_l.
  destruct (proj2 (lookup_lt_is_Some vs k) Hk) as [v Hv]. rewrite Hv. apply (pa_all _ _ _ Hl); [by apply Hc|done].
Qed.

Lemma partial_aset k v : vs !! k = Some v -> partial vs (k :: ks) (aset (Z.of_nat k) v l).
Proof.
  intros Hv. split.
  - apply keys_aset, (pa_keys _ _ _ Hl).
  - intros i w [[-> ->]|Hin]%aset_in; [exists k; split_and!; [done|done|by left]|].
    destruct (pa_parts _ _ _ Hl _ _ Hin) as (k' & ? & ? & ?). exists k'. split_and!; [done|done|by right].
  - intros k' w Hk' Hw. destruct (decide (k' = k)) as [->|Hne]; [rewrite alookup_aset; congruence|].
    rewrite alookup_aset_ne by lia. apply (pa_all _ _ _ Hl); [|done]. by apply elem_of_cons in Hk' as [|].
Qed.
End partial.

(** [packet] carries part [k] of the frame [vs] with number [s], for the list that [a] assembles. *)
Definition piece (a : assembler) (s : Z) (vs : list bytes) (k : nat) (packet : bytes) : Prop :=
  exists d, vs !! k = Some d /\
    parse_snapshot packet = Ok (Part (a_serial a) s (a_count a) (Z.of_nat k) (zlen vs) d).

(** Frame [s] is newer than the one [a] is at. *)
Definition takes_up (a : assembler) (s : Z) : Prop :=
  match sequence a with None => True | Some q => 0 < (s - q) mod SEQUENCE_MODULUS < SEQUENCE_MODULUS / 2 end.

Section delivery.
Context (a0 : assembler) (s : Z) (vs : list bytes) (t0 : Z).
Context (Hlen : lengths_ok vs (a_sizes a0) = true).

(** Frame [s] is being assembled, the parts [ks] are there. *)
Record taking (ks : list nat) (a : assembler) : Prop := {
  ta_same : same_list a0 a;
  ta_sequence : sequence a = Some s;
  ta_parts : parts a = Some (zlen vs);
  ta_open : blocked a = false /\ completed a = false;
  ta_partial : partial vs ks (fragments a);
  ta_seen : ks <> [] -> exists u, last_seen a = Some u /\ t0 <= u
}.

(** Frame [s] was returned. *)
Record taken (a : assembler) : Prop := {
  tk_same : same_list a0 a;
  tk_sequence : sequence a = Some s;
  tk_completed : completed a = true;
  tk_seen : exists u, last_seen a = Some u /\ t0 <= u
}.

Lemma sizes_total : total vs <= foldr Z.max 0 (a_sizes a0).
Proof.
  unfold lengths_ok in Hlen. destruct (map zlen vs); [done|]. rewrite !andb_true_iff in Hlen.
  destruct Hlen as [_ [x [Hx <-%Z.eqb_eq]]%existsb_exists]. induction (a_sizes a0) as [|y sizes IH]; [done|].
  cbn. destruct Hx as [->|Hx]; [lia|]. specialize (IH Hx). lia.
Qed.

Lemma take_piece ks k d a t : taking ks a -> t0 <= t -> vs !! k = Some d ->
  let r := take_part (Part (a_serial a0) s (a_count a0) (Z.of_nat k) (zlen vs) d) t a in
  (covers vs (k :: ks) -> fst r = Some (concat vs) /\ taken (snd r)) /\
  (~ covers vs (k :: ks) -> fst r = None /\ taking (k :: ks) (snd r)).
Proof.
  intros [Hs Es Ep [Eb Ec] Hl Hu] Ht Hd. pose proof Hs as (_ & _ & Ez & _). unfold take_part. rewrite Eb, Ec. cbn [orb p_parts p_index p_values].
  rewrite Ep, bool_decide_false by tauto.
  set (prev := alookup (Z.of_nat k) (fragments a)).
  assert (Hprev : prev = None \/ prev = Some d /\ k ∈ ks).
  { destruct prev as [w|] eqn:E; [right|by left]. apply alookup_in in E.
    destruct (pa_parts _ _ _ Hl _ _ E) as (k' & Ek & Hw & Hin). assert (k' = k) as -> by lia. split; [congruence|done]. }
  destruct (match prev with Some _ => _ | None => _ end) eqn:Econ.
  { destruct Hprev as [E|[E _]]; rewrite E in Econ; [done|]. unfold str_eqb in Econ. by rewrite bool_decide_true in Econ. }
  pose proof (partial_aset _ _ _ Hl k d Hd) as Hl'. set (b := a <| fragments ::= aset (Z.of_nat k) d |>).
  change (fragments b) with (aset (Z.of_nat k) d (fragments a)). change (a_sizes b) with (a_sizes a). rewrite Ez.
  rewrite (proj2 (Z.ltb_ge _ _)) by (pose proof sizes_total; pose proof (partial_total _ _ _ Hl'); lia).
  set (c := match prev with Some _ => b | None => _ end).
  assert (Hc : taking (k :: ks) c).
  { subst c. destruct Hprev as [->|[-> Hin]]; split; try done; intros _; [by exists t|]. apply Hu. by destruct ks; [apply not_elem_of_nil in Hin|]. }
  assert (Ef : fragments c = aset (Z.of_nat k) d (fragments a)) by (subst c; by destruct prev).
  assert (Ez' : a_sizes c = a_sizes a0) by apply (ta_same _ _ Hc). clearbody c. rewrite Ef. split.
  - intros Hcov. rewrite (proj2 (partial_length _ _ _ Hl')) by done. rewrite Z.eqb_refl. cbn [negb].
    rewrite (partial_in_order _ _ _ Hl') by done. rewrite Ez', Hlen. split; [done|]. destruct Hc as [? ? ? ? ? Hu'].
    split; try done. by apply Hu'.
  - intros Hcov. rewrite (proj2 (Z.eqb_neq _ _)); [by split|]. by rewrite (partial_length _ _ _ Hl').
Qed.

(** The datagrams come before the session of [a0] would expire. *)
Definition in_time (t : Z) : Prop := t0 <= t < t0 + a_timeout a0.

Lemma feed_piece a t p : same_list a0 a -> sequence a = Some s -> (exists u, last_seen a = Some u /\ t0 <= u) -> in_time t ->
  of_frame a0 s p -> feed_part p t a = take_part p t a.
Proof.
  intros (E1 & E2 & _ & E4) Es (u & Eu & Hu) Ht (P1 & P2 & P3). unfold feed_part, str_eqb, in_time in *.
  rewrite bool_decide_true, P2, E2, Z.eqb_refl by congruence. cbn [negb orb]. unfold expired. rewrite Eu, (proj2 (Z.leb_gt (a_timeout a) (t - u))) by lia.
  unfold adopt, distance. rewrite Es, P3, Z.sub_diag. done.
Qed.

Lemma feed_piece_first t k d : takes_up a0 s -> let p := Part (a_serial a0) s (a_count a0) (Z.of_nat k) (zlen vs) d in
  exists a, taking [] a /\ feed_part p t a0 = take_part p t a.
Proof.
  intros Ht p. unfold feed_part, str_eqb. rewrite bool_decide_true, Z.eqb_refl by done. cbn [negb orb].
  assert (He : 1 <= distance p (expired t a0) < SEQUENCE_MODULUS / 2).
  { unfold takes_up, expired in *. unfold distance. destruct (last_seen a0); [destruct (_ <=? _)|]; subst p; cbn [sequence reset p_sequence];
      try destruct (sequence a0); solve [lia|done]. }
  rewrite (proj2 (Z.leb_gt _ _)) by lia. exists (adopt p (expired t a0)). split; [|done]. unfold adopt.
  rewrite (proj2 (Z.eqb_neq _ _)) by lia. split; try done; [apply same_expired|].
  split; [apply NoDup_nil_2|by intros ? ? ?%not_elem_of_nil|by intros ? ? ?%not_elem_of_nil].
Qed.

Lemma feeds_app xs ys a :
  feeds (xs ++ ys) a = let '(r, b) := feeds xs a in let '(r', c) := feeds ys b in (r ++ r', c).
Proof.
  revert a. induction xs as [|[q t] xs IH]; intros a; cbn [feeds app]; [by destruct (feeds ys a)|].
  destruct (feed q t a) as [o b]. rewrite IH. destruct (feeds xs b) as [r c]. by destruct (feeds ys c).
Qed.

(** What is fed: the index of a part, its datagram and the time *)
Definition arrives (x : nat * (bytes * Z)) : Prop := piece a0 s vs (fst x) (fst (snd x)) /\ in_time (snd (snd x)).


Definition phase (ks : list nat) (a : assembler) : Prop := (ks = [] /\ a = a0 /\ takes_up a0 s) \/ (ks <> [] /\ taking ks a).

Lemma phase_step ks a x : phase ks a -> arrives x ->
  let r := feed (fst (snd x)) (snd (snd x)) a in
  (covers vs (fst x :: ks) -> fst r = Ok (Some (concat vs)) /\ taken (snd r)) /\
  (~ covers vs (fst x :: ks) -> fst r = Ok None /\ phase (fst x :: ks) (snd r)).
Proof.
  destruct x as [k [packet t]]. intros Hp [(d & Hd & Ep) Ht]. cbn [fst snd] in *. unfold feed. rewrite Ep.
  set (p := Part _ _ _ _ _ _).
  assert (exists b, taking ks b /\ feed_part p t a = take_part p t b) as (b & Hb & ->).
  { destruct Hp as [(-> & -> & Hup)|[Hne Hta]]; [by apply feed_piece_first|]. exists a. split; [done|].
    apply feed_piece; [apply Hta|apply Hta|by apply Hta|done|by split_and!]. }
  destruct (take_piece ks k d b t Hb (proj1 Ht) Hd) as [H1 H2]. change (Part _ _ _ _ _ _) with p in H1, H2.
  destruct (take_part p t b) as [o c]. cbn [fst snd] in *. split.
  - intros Hc. by destruct (H1 Hc) as [-> ?].
  - intros Hc. destruct (H2 Hc) as [-> ?]. split; [done|]. by right.
Qed.

Lemma taken_step a x : taken a -> arrives x -> feed (fst (snd x)) (snd (snd x)) a = (Ok None, a).
Proof.
  destruct x as [k [packet t]]. intros [Hs Es Ec Hu] [(d & Hd & Ep) Ht]. cbn [fst snd] in *. unfold feed. rewrite Ep.
  rewrite feed_piece by (try done; by split_and!). unfold take_part. by rewrite Ec, orb_true_r.
Qed.

Lemma feeds_phase xs ks a : phase ks a -> Forall arrives xs -> ~ covers vs (rev (map fst xs) ++ ks) ->
  let r := feeds (map snd xs) a in fst r = replicate (length xs) None /\ phase (rev (map fst xs) ++ ks) (snd r).
Proof.
  revert ks a. induction xs as [|[k [packet t]] xs IH]; intros ks a Hp Hall Hc; [done|]. apply Forall_cons in Hall as [Hx Hxs].
  cbn [map rev fst snd feeds] in *. rewrite <- app_assoc in *.
  destruct (phase_step ks a _ Hp Hx) as [_ H]. cbn [fst snd] in H.
  destruct H as [E Hp']; [intros Hk; apply Hc; intros i Hi; apply elem_of_app; right; by apply Hk|].
  destruct (feed packet t a) as [o b]. cbn [fst snd] in *. subst o. destruct (IH _ _ Hp' Hxs Hc) as [E1 E2].
  destruct (feeds (map snd xs) b) as [r c]. cbn in *. by rewrite E1.
Qed.

Lemma feeds_taken xs a : taken a -> Forall arrives xs -> feeds (map snd xs) a = (replicate (length xs) None, a).
Proof.
  intros Ha. induction xs as [|[k [packet t]] xs IH]; intros Hall; [done|].
  apply Forall_cons in Hall as [Hx Hxs]. cbn [map snd feeds].
  pose proof (taken_step a _ Ha Hx) as E. cbn [fst snd] in E. rewrite E. by rewrite IH.
Qed.
End delivery.

(** C37. Parts of a newer frame that arrive in any order, any of them more than once, before the
    session expires: nothing is returned up to the part that completes the frame, the values of
    the frame with that part, and nothing for those that come again. *)
Theorem frame_delivered a s vs t0 pre x post :
  lengths_ok vs (a_sizes a) = true -> takes_up a s -> Forall (arrives a s vs t0) (pre ++ x :: post) ->
  ~ covers vs (map fst pre) -> covers vs (map fst (pre ++ [x])) ->
  fst (feeds (map snd (pre ++ x :: post)) a) = replicate (length pre) None ++ Some (concat vs) :: replicate (length post) None.
Proof.
  intros Hl Hup [Hpre [Hx Hpost]%Forall_cons]%Forall_app Hn Hc. rewrite map_app, map_cons.
  change (snd x :: map snd post) with ([snd x] ++ map snd post). rewrite !feeds_app.
  assert (Hp0 : phase a s vs t0 [] a) by by left.
  assert (Hrev : forall (l : list nat) k, k ∈ rev l ++ [] <-> k ∈ l).
  { intros l k. by rewrite app_nil_r, !list_elem_of_In, <- in_rev. }
  destruct (feeds_phase a s vs t0 Hl pre [] a Hp0 Hpre) as [E1 E2]; [intros H; apply Hn; intros k Hk%H; by apply Hrev|].
  destruct (feeds (map snd pre) a) as [r b]. cbn [fst snd] in *. subst r.
  destruct (phase_step a s vs t0 Hl _ b x E2 Hx) as [H _].
  destruct H as [E Hta]; [intros k Hk%Hc; rewrite map_app in Hk; apply elem_of_app in Hk as [Hk| ->%list_elem_of_singleton];
    [right; by apply Hrev|by left]|].
  destruct x as [k [packet t]]. cbn [feeds fst snd app] in *. destruct (feed packet t b) as [o c]. cbn [fst snd] in *. subst o.
  by rewrite (feeds_taken a s vs t0 post c Hta Hpost).
Qed.
