(* ===== verification/RaReceiver.v ===== *)
(** * RetroAchievements: the receiver

    Models [launcher/ra_receiver.py]: one console at a time owns the receiver; it asks which
    set belongs to its image, gets the watch list in chunks and then sends memory snapshots.
    The set is looked up by a worker outside, whose results come back by [complete].

    Every operation is given the time the clock shows; the assembler of a snapshot reads the
    clock a second time. *)

From S2P Require Import Prelude Tables PyStr PyText ChdCue Ipv4 RaProtocol.

(** [IdentificationJob] *)
Record job := Job { j_token : Z; j_image : text; j_serial : text }.

#[export] Instance job_eq_dec : EqDecision job.
Proof. solve_decision. Defined.

(** [ReceiverOutput]; [()] for the destination is [None]. *)
Record output := Output {
  reply : bytes;
  destination : option (text * Z);
  values : bytes;
  o_generation : Z;
  o_sequence : option Z
}.

Definition silent : output := Output [] None [] 0 None.
Definition replying (r : bytes) (d : text * Z) : output := Output r (Some d) [] 0 None.

(** [Receiver] *)
Record receiver := Receiver {
  lease_seconds : Z;
  identify_seconds : Z;
  requests_per_second : Z;
  advertised_replies : bool;
  token : Z;
  window : Z;
  requests : Z;
  datagrams : Z;
  owner : option text;
  reply_to : option (text * Z);
  acknowledged : gset Z;
  last_activity : option Z;
  pending : option job;
  pending_since : option Z;
  queued : option job;
  identified : option (text * text);
  unsupported : bool;
  title : text;
  achievements : Z;
  sent_chunks : gset Z;
  session : watch_session
}.

#[export] Instance eta_receiver : Eta receiver := fun r =>
  Receiver (lease_seconds r) (identify_seconds r) (requests_per_second r) (advertised_replies r) (token r) (window r)
           (requests r) (datagrams r) (owner r) (reply_to r) (acknowledged r) (last_activity r) (pending r)
           (pending_since r) (queued r) (identified r) (unsupported r) (title r) (achievements r) (sent_chunks r)
           (session r).

Abbreviation R := receiver.

(** [clear] *)
Definition clear (r : R) : R :=
  r <| token ::= Z.add 1 |> <| owner := None |> <| reply_to := None |> <| acknowledged := ∅ |> <| last_activity := None |>
    <| pending := None |> <| pending_since := None |> <| queued := None |> <| identified := None |> <| unsupported := false |>
    <| title := [] |> <| achievements := 0 |> <| sent_chunks := ∅ |> <| session ::= clear_watch |>.

(** [Receiver.__init__] *)
Definition new_receiver (lease identify per_second : Z) (advertised : bool) (now : Z) : result receiver :=
  if (lease <=? 0) || (identify <=? 0) || (per_second <? 1) then Err ValueError
  else
    Ok (clear (Receiver lease identify per_second advertised 0 now 0 0 None None ∅ None None None None None false [] 0 ∅
                        (new_watch_session lease))).

(** [_expire] *)
Definition expire (now : Z) (r : R) : R :=
  if match last_activity r with Some t => lease_seconds r <=? now - t | None => false end then clear r
  else if match pending r with Some _ => identify_seconds r <=? now - default 0 (pending_since r) | None => false end
  then r <| token ::= Z.add 1 |> <| pending := None |> <| queued := None |>
  else r.

(** [take_jobs] *)
Definition take_jobs (now : Z) (r : R) : option job * R :=
  let r := expire now r in (queued r, r <| queued := None |>).

(** [tick] *)
Definition tick (now : Z) (r : R) : R := expire now r.

(** The result of a job: no file is a transient failure, or that the image is not supported. *)
Record completion := Completion {
  c_file : option bytes;
  c_unsupported : bool;
  c_serial : option text;
  c_title : text;
  c_achievements : Z
}.

(** What [complete] does with a watch file *)
Definition publish `{Normalize} (j : job) (c : completion) (file : bytes) : M R unit := fun r =>
  if c_unsupported c then (Err ValueError, r)
  else
    match validate_watchlist file with
    | Err e => (Err e, r)
    | Ok _ =>
        if (c_achievements c <? 0) || (10000000 <? c_achievements c) then (Err ValueError, r)
        else
          let serial := match c_serial c with Some s => if nonempty s then s else j_serial j | None => j_serial j end in
          match install (j_image j) serial file (session r) with
          | (Err e, s) => (Err e, r <| session := s |>)
          | (Ok _, s) =>
              (Ok tt, r <| session := s |> <| title := clean_title (c_title c) 63 |> <| achievements := c_achievements c |>)
          end
    end.

(** [complete] *)
Definition complete `{Normalize} (now : Z) (j : job) (c : completion) : M R bool := fun r =>
  let r := expire now r in
  if negb (bool_decide (pending r = Some j)) || negb (j_token j =? token r) then (Ok false, r)
  else
    (_ ← (match c_file c with Some file => publish j c file | None => mret tt end);
     _ ← mmod (fun r =>
           r <| pending := None |> <| queued := None |>
             <| identified := if bool_decide (is_Some (c_file c)) || c_unsupported c then Some (j_image j, j_serial j)
                              else None |>
             <| unsupported := c_unsupported c |>);
     mret true) r.

(** The source of a datagram *)
Definition source_of (peer : text * Z) : option (text * Z) :=
  match IPv4Address (fst peer) with Ok a => if port_ok (snd peer) then Some (a, snd peer) else None | Err _ => None end.

(** How many chunks a file has *)
Definition chunk_count (d : bytes) : Z := (zlen d + 895) / 896.

(** A telemetry datagram *)
Definition receive_telemetry (packet : bytes) (src : text * Z) (now fed : Z) (r : R) : output * R :=
  match owner r, watch (session r) with
  | Some _, Some w =>
      if negb (Z.of_nat (size (sent_chunks r)) =? chunk_count (data w)) then (silent, r)
      else
        match feed_session packet fed (session r) with
        | (Err _, s) => (silent, r <| session := s |>)
        | (Ok None, s) => (silent, r <| session := s |>)
        | (Ok (Some v), s) =>
            let r := r <| session := s |> <| last_activity := Some now |> in
            (Output [] (Some (default src (reply_to r))) v (generation s)
                    (match assembling s with Some a => sequence a | None => None end), r)
        end
  | _, _ => (silent, r)
  end.

(** [int(item)] of the acknowledged items; others are passed over. *)
Definition acknowledge (items : list text) (seen : gset Z) : gset Z :=
  foldl (fun seen item => match py_int10 item with Some n => {[n]} ∪ seen | None => seen end) seen items.

Definition yes_reply (r : R) (d : bytes) : bytes :=
  lit "RAA1 OK " ++ decimal (zlen d) ++ [32] ++ decimal (chunk_count d) ++ [32] ++ decimal (achievements r)
  ++ lit " 0 0 " ++ title r.

(** A new identity asks for a job. *)
Definition ask_for (identity : text * text) (now : Z) (r : R) : R :=
  if match pending r with
     | Some j => negb (bool_decide ((j_image j, j_serial j) = identity))
     | None => true
     end
  then
    let r := r <| token ::= Z.add 1 |> <| session ::= clear_watch |> <| sent_chunks := ∅ |> <| identified := None |>
               <| unsupported := false |> in
    let j := Job (token r) (fst identity) (snd identity) in
    r <| pending := Some j |> <| pending_since := Some now |> <| queued := Some j |>
  else r.

(** RAQ1 *)
Definition receive_query (q : console_request) (now : Z) (dest : text * Z) : M R output := fun r =>
  let identity := (image_hash q, serial q) in
  let '(body, r) :=
    if bool_decide (identified r = Some identity) then
      if unsupported r then (Ok (lit "RAA1 NO"), r)
      else (match watch (session r) with Some w => Ok (yes_reply r (data w)) | None => Err AttributeError end, r)
    else (Ok (lit "RAA1 WAIT"), ask_for identity now r) in
  (b ← body; p ← pad_reply b; Ok (replying p dest), r).

(** RAG1 *)
Definition receive_chunk (q : console_request) (dest : text * Z) (r : R) : output * R :=
  match chunk (image_hash q) (index q) (session r) with
  | Ok (Some c) => if nonempty c then (replying c dest, r <| sent_chunks ::= union {[index q]} |>) else (silent, r)
  | _ => (silent, r)
  end.

(** A request that was parsed *)
Definition receive_request (q : console_request) (src : text * Z) (now : Z) : M R output := fun r =>
  if bool_decide (owner r = None) && str_eqb (kind q) (lit "RAG1") then (Ok silent, r)
  else
    let dest := if advertised_replies r then (address q, port q) else src in
    let r := (match owner r with None => r <| owner := Some (fst src) |> | Some _ => r end)
             <| last_activity := Some now |> <| reply_to := Some dest |> in
    if existsb (str_eqb (kind q)) [lit "RAH1"; lit "RAK1"; lit "RAK2"] then
      (Ok (replying [] dest),
       if str_eqb (kind q) (lit "RAH1") then r else r <| acknowledged ::= acknowledge (extra q) |>)
    else if str_eqb (kind q) (lit "RAP1") then
      (p ← pad_reply (lit "RAO1 OK PS2-Servers/owned-protocol"); Ok (replying p dest), r)
    else if str_eqb (kind q) (lit "RAG1") then let '(o, r) := receive_chunk q dest r in (Ok o, r)
    else receive_query q now dest r.

(** The counters start again every second. *)
Definition roll_window (now : Z) (r : R) : R :=
  if 1 <=? now - window r then r <| window := now |> <| requests := 0 |> <| datagrams := 0 |> else r.

(** [receive] *)
Definition receive (now fed : Z) (packet : bytes) (peer : text * Z) : M R output := fun r =>
  let r := roll_window now (expire now r) in
  match source_of peer with
  | None => (Ok silent, r)
  | Some src =>
      if match owner r with Some o => negb (str_eqb (fst src) o) | None => false end then (Ok silent, r)
      else
        let r := r <| datagrams ::= Z.add 1 |> in
        if 256 <? datagrams r then (Ok silent, r)
        else if startswith packet (lit "RA15 ") then
          let '(o, r) := receive_telemetry packet src now fed r in (Ok o, r)
        else
          let r := r <| requests ::= Z.add 1 |> in
          if requests_per_second r <? requests r then (Ok silent, r)
          else
            match parse_request packet (Some peer) with
            | Err _ => (Ok silent, r)
            | Ok q => receive_request q src now r
            end
  end.
