(* ===== verification/RaReceiverFacts.v ===== *)
(** * What the receiver hands on

    In every run of the receiver the memory values it hands on are one frame of the datagrams
    it was given, for a watch list whose chunks were all sent before; and two consoles are
    answered only with a lease between them. *)

From S2P Require Import Prelude Tables PyStr PyText ChdCue Http HttpFacts Ipv4 RaProtocol RaFrames RaReceiver.

(** ** Watch lists *)

(** The conditions that were checked *)
Ltac checked :=
  repeat match goal with
         | E : _ || _ = false |- _ => apply orb_false_iff in E as [? ?]
         | E : _ && _ = true |- _ => apply andb_true_iff in E as [? ?]
         | E : negb _ = false |- _ => apply negb_false_iff in E
         | E : negb _ = true |- _ => apply negb_true_iff in E
         end.

Lemma tail_nodes_spec d end_ n : match tail_nodes d end_ n with Ok k => 0 <= k | Err e => e = ValueError end.
Proof. unfold tail_nodes. cbv zeta. repeat case_match; simplify_eq; checked; try done; lia. Qed.

Lemma validate_spec d : match validate_watchlist d with
  | Ok w => data w = d /\ 20 <= zlen d <= 17432 /\ 1 <= count w <= 4096 /\
            1 <= direct_bytes w /\ direct_bytes w + nodes w * 8 <= MAX_VALUES /\ 0 <= nodes w
  | Err e => e = ValueError
  end.
Proof.
  unfold validate_watchlist. cbv zeta. pose proof (tail_nodes_spec d (16 + word d 8 * 4) (word d 8)) as Ht.
  destruct (tail_nodes _ _ _) as [k|e]; cbn [mbind result_bind]; repeat case_match; simplify_eq; checked; try done; cbn; split; [done|lia].
Qed.

Lemma validated d w : validate_watchlist d = Ok w -> data w = d /\ 20 <= zlen d <= 17432 /\ 1 <= count w <= 4096 /\
  1 <= direct_bytes w /\ direct_bytes w + nodes w * 8 <= MAX_VALUES /\ 0 <= nodes w.
Proof. intros H. pose proof (validate_spec d) as Hs. by rewrite H in Hs. Qed.

Lemma validate_data d w : validate_watchlist d = Ok w -> validate_watchlist (data w) = Ok w.
Proof. intros H. by rewrite (proj1 (validated _ _ H)). Qed.

Lemma new_assembler_error serial n sizes timeout e : new_assembler serial n sizes timeout = Err e -> e = ValueError.
Proof. unfold new_assembler. repeat case_match; by intros [= <-]. Qed.

(** A session has an assembler when it has a list: one made for the list and fed with [ins]. *)
Definition listening (ins : list (bytes * Z)) (s : watch_session) : Prop :=
  match watch s, assembling s with
  | None, None => True
  | Some w, Some a =>
      validate_watchlist (data w) = Ok w /\
      exists serial timeout a0 fed, new_assembler serial (count w) (snapshot_sizes w) timeout = Ok a0 /\
        run_ok a0 fed a /\ fed ⊆ ins
  | _, _ => False
  end.

Lemma listening_more ins ins' s : listening ins s -> ins ⊆ ins' -> listening ins' s.
Proof.
  unfold listening. destruct (watch s), (assembling s); try done. intros (Hw & serial & timeout & a0 & fed & H1 & H2 & H3) Hi.
  split; [done|]. exists serial, timeout, a0, fed. split_and!; [done..|set_solver].
Qed.

Lemma install_spec image serial d s ins : listening ins s ->
  let '(r, s') := install image serial d s in
  listening ins s' /\ match r with Ok _ => is_Some (watch s') | Err e => e = ValueError /\ s' = s end.
Proof.
  intros Hs. unfold install. cbv zeta.
  destruct (IMAGE_HASH image); cbn [negb]; [|by split].
  destruct (SERIAL serial); cbn [negb]; [|by split].
  pose proof (validate_spec d) as Hv. destruct (validate_watchlist d) as [w|e] eqn:Ew; cbn [mbind result_bind]; [|by split].
  destruct (new_assembler _ _ _ _) as [a|e] eqn:Ea; cbn [mbind result_bind].
  - split; [|by exists w]. cbn. split; [by apply (validate_data d)|]. exists serial, (w_timeout s), a, []. split_and!; [done| |set_solver].
    by apply (run_ok_new _ _ _ _ _ Ea).
  - split; [done|]. by apply new_assembler_error in Ea as ->.
Qed.

(** What a session hands on is one frame of what it was fed. *)
Lemma feed_session_spec packet t s ins : listening ins s ->
  let '(r, s') := feed_session packet t s in
  listening ((packet, t) :: ins) s' /\ watch s' = watch s /\ generation s' = generation s /\
  forall v, r = Ok (Some v) -> exists w a sq fed, watch s = Some w /\ assembling s' = Some a /\ sequence a = Some sq /\
    fed ⊆ (packet, t) :: ins /\ one_frame a sq (parts_of fed) v /\ a_count a = count w /\ a_sizes a = snapshot_sizes w.
Proof.
  intros Hs. unfold feed_session. unfold listening in Hs.
  destruct (assembling s) as [a|] eqn:Ea.
  2: { split_and!; [|done..]. unfold listening. rewrite Ea. by destruct (watch s). }
  destruct (watch s) as [w|] eqn:Ew; [|done]. destruct Hs as (Hw & serial & timeout & a0 & fed & H1 & H2 & H3).
  destruct (run_ok_feed a0 fed a packet t H2) as [R1 R2]. destruct (feed packet t a) as [r b]. cbn [fst snd] in *.
  assert (Hf : fed ++ [(packet, t)] ⊆ (packet, t) :: ins) .
  { intros y [Hy| ->%list_elem_of_singleton]%elem_of_app; [right; by apply H3|left]. }
  split_and!; [|done..|].
  - unfold listening. cbn. rewrite Ew. split; [done|]. exists serial, timeout, a0, (fed ++ [(packet, t)]). by split_and!.
  - intros v ->. destruct (R2 v eq_refl) as (sq & Es & Hone). exists w, b, sq, (fed ++ [(packet, t)]).
    destruct R1 as [Hsame _ _]. split_and!; try done; [by apply (one_frame_same a0)| |];
      destruct Hsame as (_ & Hc & Hz & _); rewrite ?Hc, ?Hz; unfold new_assembler in H1; do 3 if_inv H1; by injection H1 as <-.
Qed.

(** ** The invariant of the receiver *)

(** [ins] are the datagrams given so far with the time their assembler read, [outs] what was
    sent. *)
Record sound (ins : list (bytes * Z)) (outs : list output) (r : receiver) : Prop := {
  so_idle : owner r = None -> pending r = None /\ identified r = None /\ watch (session r) = None;
  so_pending : forall j, pending r = Some j -> watch (session r) = None /\ identified r = None /\ j_token j = token r;
  so_queued : forall j, queued r = Some j -> pending r = Some j;
  so_identified : forall id, identified r = Some id -> unsupported r = false -> is_Some (watch (session r));
  so_session : listening ins (session r);
  so_chunks : forall i, i ∈ sent_chunks r ->
    exists w, watch (session r) = Some w /\ exists o, o ∈ outs /\ watch_chunk (data w) i = Ok (reply o);
  so_set : zlen (title r) <= 63 /\ 0 <= achievements r <= 10000000
}.

(** Operations that leave alone what the invariant is about *)
Definition same_work (r r' : receiver) : Prop :=
  (owner r' = None -> owner r = None) /\ pending r' = pending r /\ queued r' = queued r /\ identified r' = identified r /\
  unsupported r' = unsupported r /\ token r' = token r /\ session r' = session r /\ sent_chunks r' = sent_chunks r /\
  title r' = title r /\ achievements r' = achievements r.

Lemma sound_same ins outs r r' : same_work r r' -> sound ins outs r -> sound ins outs r'.
Proof.
  intros (E0 & E1 & E2 & E3 & E4 & E5 & E6 & E7 & E8 & E9) [S1 S2 S3 S4 S5 S6 S7].
  split; rewrite ?E1, ?E2, ?E3, ?E4, ?E5, ?E6, ?E7, ?E8, ?E9; auto.
Qed.

Lemma sound_more ins outs ins' outs' r : sound ins outs r -> ins ⊆ ins' -> outs ⊆ outs' -> sound ins' outs' r.
Proof.
  intros [S1 S2 S3 S4 S5 S6 S7] Hi Ho. split; try done; [by eapply listening_more|].
  intros i (w & Hw & o & Hin & E)%S6. exists w. split; [done|]. exists o. split; [by apply Ho|done].
Qed.

Lemma sound_clear ins outs r : sound ins outs r -> sound ins outs (clear r).
Proof. intros _. by split. Qed.

Lemma sound_expire ins outs now r : sound ins outs r -> sound ins outs (expire now r).
Proof.
  intros Hs. unfold expire. destruct (match last_activity r with Some _ => _ | None => _ end); [by apply sound_clear|].
  destruct (match pending r with Some _ => _ | None => _ end); [|done]. destruct Hs as [S1 S2 S3 S4 S5 S6 S7].
  split; cbn; try done. intros H. by destruct (S1 H) as (_ & ? & ?).
Qed.

Lemma same_roll now r : same_work r (roll_window now r).
Proof. unfold roll_window. by destruct (1 <=? _). Qed.

Lemma chunk_count_pos d : 1 <= zlen d -> 1 <= chunk_count d.
Proof. unfold chunk_count. intros. Z.to_euclidean_division_equations. lia. Qed.

(** ** Replies fit the console's buffer *)

Lemma pad_reply_ok body : 1 <= zlen body < 960 -> exists r, pad_reply body = Ok r /\ r <> [].
Proof.
  intros Hb. unfold pad_reply. rewrite (proj2 (Z.ltb_ge _ _)), (proj2 (Z.leb_gt _ _)) by lia. cbn [orb].
  eexists. split; [done|]. destruct body; [rewrite zlen_nil in Hb; lia|done].
Qed.

Lemma decimal_bound n k : 0 <= n < 10 ^ k -> 1 <= k -> 1 <= zlen (decimal n) <= k.
Proof.
  intros Hn Hk. split; [|by apply decimal_length]. destruct (decimal_spec n ltac:(lia)) as (_ & Hne & _).
  destruct (decimal n); [done|]. rewrite zlen_cons. pose proof (zlen_nonneg l). lia.
Qed.

Lemma yes_reply_ok ins outs r w : sound ins outs r -> watch (session r) = Some w ->
  exists p, pad_reply (yes_reply r (data w)) = Ok p /\ p <> [].
Proof.
  intros Hs Hw. pose proof (so_set _ _ _ Hs) as [Ht Ha]. pose proof (so_session _ _ _ Hs) as Hl. unfold listening in Hl.
  rewrite Hw in Hl. destruct (assembling (session r)); [|done]. destruct Hl as [Hv%validated _].
  apply pad_reply_ok. unfold yes_reply. rewrite !zlen_app.
  pose proof (decimal_bound (zlen (data w)) 5 ltac:(lia) ltac:(lia)).
  pose proof (decimal_bound (chunk_count (data w)) 5) as Hc. unfold chunk_count in *.
  pose proof (decimal_bound (achievements r) 8 ltac:(lia) ltac:(lia)). pose proof (zlen_nonneg (title r)).
  change (zlen (lit "RAA1 OK ")) with 8. change (zlen (lit " 0 0 ")) with 5. change (zlen [32]) with 1.
  assert (1 <= zlen (decimal ((zlen (data w) + 895) / 896)) <= 5); [|lia].
  apply Hc; [|lia]. Z.to_euclidean_division_equations. lia.
Qed.

Lemma watch_chunk_ok w i c : watch_chunk w i = Ok c -> 0 <= i < chunk_count w /\ c <> [].
Proof.
  unfold watch_chunk, chunk_count. intros H. if_inv H. checked. split; [lia|]. unfold pad_reply in H. if_inv H. by injection H as <-.
Qed.

(** ** The chunks of a watch list *)

Definition piece_of (d : bytes) (i : Z) : bytes := slice d (i * 896) ((i + 1) * 896).

(** What a console takes from a chunk: its index, and as many bytes as it says *)
Definition read_chunk (r : bytes) : option (Z * bytes) :=
  if negb (startswith r (lit "RAC1 ")) then None
  else
    let '(i, rest) := span_digits (zdrop 5 r) in
    let '(n, rest) := span_digits (zdrop 1 rest) in
    Some (digits_value i, ztake (digits_value n) (zdrop 1 rest)).

Lemma pieces_join d n : 0 <= n -> concat (map (piece_of d) (seqZ 0 n)) = ztake (n * 896) d.
Proof.
  intros Hn. pattern n. apply natlike_ind; [by rewrite ztake_0| |done]. intros k Hk IH.
  rewrite <- Z.add_1_r, seqZ_app, map_app, concat_app, IH by lia. replace (seqZ (0 + k) 1) with [k] by (unfold seqZ; cbn; f_equal; lia).
  cbn [map concat]. rewrite app_nil_r.
  unfold piece_of, slice. replace ((k + 1) * 896) with (k * 896 + 896) by lia.
  by rewrite Z.add_simpl_l, ztake_split by lia.
Qed.

Lemma pad_reply_length b r : pad_reply b = Ok r -> zlen r mod 64 = 0 /\ 128 <= zlen r <= 960 /\ exists k, r = b ++ replicate k 32.
Proof.
  unfold pad_reply. intros H. if_inv H. checked. injection H as <-. rewrite zlen_app.
  set (k := Z.max 128 ((zlen b + 63) / 64 * 64) - zlen b). assert (Hk : zlen (replicate (Z.to_nat k) 32) = Z.max 0 k).
  { unfold zlen. rewrite length_replicate. lia. }
  rewrite Hk. subst k. clear Hk. split; [|split; [|by eexists]]; Z.to_euclidean_division_equations; lia.
Qed.

Lemma zdrop_1 {A} (x : A) l : zdrop 1 (x :: l) = l.
Proof. done. Qed.

(** The chunks of a watch list fit the buffer of a console, which reads from each its index and
    its piece; and the pieces are the list. *)
Theorem chunks_read_back d w : validate_watchlist d = Ok w ->
  concat (map (piece_of d) (seqZ 0 (chunk_count d))) = d /\
  forall i, 0 <= i < chunk_count d -> exists r, watch_chunk d i = Ok r /\ zlen r mod 64 = 0 /\ 128 <= zlen r <= 960 /\
    read_chunk r = Some (i, piece_of d i).
Proof.
  intros Hv%validated. destruct Hv as (_ & Hd & _). unfold chunk_count. split.
  { rewrite pieces_join by (Z.to_euclidean_division_equations; lia). apply ztake_all. Z.to_euclidean_division_equations; lia. }
  intros i Hi. pose proof (zlen_slice d (i * 896) ((i + 1) * 896)) as Hz. change (slice d _ _) with (piece_of d i) in Hz.
  assert (Hp : 1 <= zlen (piece_of d i) <= 896) by (Z.to_euclidean_division_equations; lia).
  destruct (decimal_spec i ltac:(lia)) as (I1 & I2 & I3). destruct (decimal_spec (zlen (piece_of d i)) ltac:(lia)) as (L1 & L2 & L3).
  assert (Hi5 : i < 10 ^ 5) by (Z.to_euclidean_division_equations; lia).
  pose proof (decimal_length i 5 ltac:(lia) ltac:(lia)). pose proof (decimal_length (zlen (piece_of d i)) 5 ltac:(lia) ltac:(lia)).
  set (b := lit "RAC1 " ++ decimal i ++ [32] ++ decimal (zlen (piece_of d i)) ++ [32] ++ piece_of d i).
  assert (Hb : 1 <= zlen b < 960).
  { subst b. rewrite !zlen_app. change (zlen (lit "RAC1 ")) with 5. change (zlen [32]) with 1.
    pose proof (zlen_nonneg (decimal i)). pose proof (zlen_nonneg (decimal (zlen (piece_of d i)))). lia. }
  destruct (pad_reply_ok b Hb) as (r & Er & _). exists r. unfold watch_chunk.
  rewrite !(proj2 (Z.ltb_ge _ _)), (proj2 (Z.leb_gt _ _)) by lia. cbn [orb]. split; [exact Er|].
  destruct (pad_reply_length b r Er) as (M1 & M2 & k & ->). split; [done|]. split; [done|]. unfold read_chunk. subst b.
  rewrite <- !app_assoc. rewrite startswith_app. cbn [negb]. rewrite zdrop_app_length by done. cbn [app].
  rewrite span_digits_app by done. rewrite zdrop_1, span_digits_app by done.
  by rewrite zdrop_1, I3, L3, ztake_app_length.
Qed.

(** ** One datagram *)

(** The values in [o] are one frame of the parts in [ins], for the list of [r], and all chunks of
    that list are among [outs]. *)
Definition delivered (ins : list (bytes * Z)) (outs : list output) (o : output) (r : receiver) : Prop :=
  exists w a sq fed, watch (session r) = Some w /\ o_generation o = generation (session r) /\ o_sequence o = Some sq /\
    a_count a = count w /\ a_sizes a = snapshot_sizes w /\ one_frame a sq (parts_of fed) (values o) /\ fed ⊆ ins /\
    forall i, 0 <= i < chunk_count (data w) -> exists o', o' ∈ outs /\ watch_chunk (data w) i = Ok (reply o').

(** What is shown of a step that answers [o] *)
Definition answers (ins : list (bytes * Z)) (outs : list output) (o : output) (r : receiver) : Prop :=
  sound ins (o :: outs) r /\ (values o <> [] -> delivered ins outs o r).

Lemma answers_quiet ins outs o r : values o = [] -> sound ins outs r -> answers ins outs o r.
Proof. intros Ho Hs. split; [|by rewrite Ho]. eapply sound_more; [exact Hs|done|]. intros x Hx. by right. Qed.

(** As many chunks as there are were sent: all of them. *)
Lemma all_sent ins outs r w : sound ins outs r -> watch (session r) = Some w ->
  Z.of_nat (size (sent_chunks r)) = chunk_count (data w) ->
  forall i, 0 <= i < chunk_count (data w) -> exists o, o ∈ outs /\ watch_chunk (data w) i = Ok (reply o).
Proof.
  intros Hs Hw Hn i Hi. assert (Hsub : sent_chunks r ⊆ list_to_set (seqZ 0 (chunk_count (data w)))).
  { intros k Hk. destruct (so_chunks _ _ _ Hs k Hk) as (w' & Hw' & o & _ & E). assert (w' = w) as -> by congruence.
    apply elem_of_list_to_set, elem_of_seqZ. apply watch_chunk_ok in E as [? _]. lia. }
  assert (Heq : sent_chunks r = list_to_set (seqZ 0 (chunk_count (data w)))).
  { apply set_subseteq_size_eq; [done|]. rewrite size_list_to_set by apply NoDup_seqZ. rewrite length_seqZ. lia. }
  destruct (so_chunks _ _ _ Hs i) as (w' & Hw' & o & Ho & E).
  - rewrite Heq. apply elem_of_list_to_set, elem_of_seqZ. lia.
  - assert (w' = w) as -> by congruence. by exists o.
Qed.

Lemma receive_telemetry_answers packet src now fed ins outs r : sound ins outs r ->
  let '(o, r') := receive_telemetry packet src now fed r in answers ((packet, fed) :: ins) outs o r'.
Proof.
  intros Hs. assert (Hq : answers ((packet, fed) :: ins) outs silent r).
  { apply answers_quiet; [done|]. eapply sound_more; [exact Hs| |done]. intros x Hx. by right. }
  unfold receive_telemetry. destruct (owner r) as [ow|]; [|done]. destruct (watch (session r)) as [w|] eqn:Ew; [|done].
  destruct (negb _) eqn:En; [done|]. apply negb_false_iff, Z.eqb_eq in En.
  pose proof (feed_session_spec packet fed (session r) ins (so_session _ _ _ Hs)) as Hf.
  destruct (feed_session packet fed (session r)) as [v s]. destruct Hf as (F1 & F2 & F3 & F4).
  assert (Hs' : forall la, sound ((packet, fed) :: ins) outs (r <| session := s |> <| last_activity := la |>)).
  { intros la. destruct Hs as [S1 S2 S3 S4 S5 S6 S7]. split; cbn; rewrite ?F2; try done; auto. }
  assert (answers ((packet, fed) :: ins) outs silent (r <| session := s |>)).
  { apply answers_quiet; [done|]. apply (Hs' (last_activity r)). }
  destruct v as [[v|]|e]; [|done..]. split.
  - eapply sound_more; [apply Hs'|done|]. intros x Hx. by right.
  - intros _. destruct (F4 v eq_refl) as (w' & a & sq & fd & W1 & W2 & W3 & W4 & W5 & W6 & W7).
    assert (w' = w) as -> by congruence. exists w, a, sq, fd. cbn. rewrite F2, W2. split_and!; try done.
    by apply (all_sent ins outs r).
Qed.

Lemma receive_chunk_answers q dest ins outs r : sound ins outs r ->
  let '(o, r') := receive_chunk q dest r in answers ins outs o r'.
Proof.
  intros Hs. assert (Hq : answers ins outs silent r) by by apply answers_quiet. unfold receive_chunk, chunk.
  destruct (watch (session r)) as [w|] eqn:Ew; [|done]. case_bool_decide; [|done].
  destruct (watch_chunk (data w) (index q)) as [c|e] eqn:Ec; cbn [mbind result_bind]; [|done].
  destruct (nonempty c); [|done]. split; [|done]. eapply (sound_more ins outs ins (replying c dest :: outs)) in Hs; [|done|].
  2: { intros x Hx. by right. }
  destruct Hs as [S1 S2 S3 S4 S5 S6 S7]. split; try done. cbn. intros i [->%elem_of_singleton|Hi]%elem_of_union; [|by apply S6].
  exists w. split; [done|]. exists (replying c dest). split; [by left|done].
Qed.

Lemma sound_ask id now ins outs r : sound ins outs r -> owner r <> None -> sound ins outs (ask_for id now r).
Proof.
  intros Hs Ho. unfold ask_for. destruct (match pending r with Some _ => _ | None => true end); [|done].
  destruct Hs as [S1 S2 S3 S4 S5 S6 S7]. split; cbn; try done; intros j [= <-]; done.
Qed.

Lemma receive_query_answers q now dest ins outs r : sound ins outs r -> owner r <> None ->
  exists o, fst (receive_query q now dest r) = Ok o /\ values o = [] /\ sound ins outs (snd (receive_query q now dest r)).
Proof.
  intros Hs Ho. unfold receive_query. cbv zeta.
  assert (Hp : forall b, 1 <= zlen b < 960 -> exists o, (p ← pad_reply b; Ok (replying p dest)) = Ok o /\ values o = []).
  { intros b Hb. destruct (pad_reply_ok b Hb) as (p & -> & _). by exists (replying p dest). }
  case_bool_decide as Ei; [destruct (unsupported r) eqn:Eu|].
  - destruct (Hp (lit "RAA1 NO")) as (o & E & V); [done|]. by exists o.
  - destruct (so_identified _ _ _ Hs _ Ei Eu) as [w Ew]. rewrite Ew. destruct (yes_reply_ok _ _ _ w Hs Ew) as (p & Ep & _).
    exists (replying p dest). cbn [mbind result_bind fst snd]. by rewrite Ep.
  - destruct (Hp (lit "RAA1 WAIT")) as (o & E & V); [done|]. exists o. split_and!; [done|done|]. by apply sound_ask.
Qed.

Lemma receive_request_answers q src now ins outs r : sound ins outs r ->
  exists o, fst (receive_request q src now r) = Ok o /\ answers ins outs o (snd (receive_request q src now r)).
Proof.
  intros Hs. unfold receive_request. destruct (bool_decide (owner r = None) && _).
  { exists silent. split; [done|]. by apply answers_quiet. }
  cbv zeta. set (dest := if advertised_replies r then _ else _). set (b := set_field reply_to _ _).
  assert (Hb : same_work r b) by (subst b; unfold same_work; destruct (owner r) eqn:E; cbn; rewrite ?E; by split_and!).
  assert (Hob : owner b <> None) by (subst b; destruct (owner r) eqn:E; [cbn; by rewrite E|done]).
  apply (sound_same ins outs r b Hb) in Hs. clearbody b.
  destruct (existsb _ _); [exists (replying [] dest); split; [done|]; apply answers_quiet; [done|]; cbn [snd]; destruct (str_eqb _ _); [done|by apply (sound_same _ _ b)]|].
  destruct (str_eqb (kind q) (lit "RAP1")).
  { eexists. split; [vm_compute; reflexivity|]. by apply answers_quiet. }
  destruct (str_eqb (kind q) (lit "RAG1")).
  - pose proof (receive_chunk_answers q dest ins outs b Hs). destruct (receive_chunk q dest b) as [o c]. by exists o.
  - destruct (receive_query_answers q now dest ins outs b Hs Hob) as (o & E & V & S). exists o. split; [done|].
    by apply answers_quiet.
Qed.

(** Every datagram is answered, at most with one reply or one frame. *)
Lemma receive_answers now fed packet peer ins outs r : sound ins outs r ->
  exists o, fst (receive now fed packet peer r) = Ok o /\
    answers ((packet, fed) :: ins) outs o (snd (receive now fed packet peer r)).
Proof.
  intros Hs. unfold receive. cbv zeta. set (b := roll_window now (expire now r)).
  assert (sound ((packet, fed) :: ins) outs b /\ sound ins outs b) as [Hb Hb'].
  { assert (sound ins outs b) by (eapply sound_same; [apply same_roll|by apply sound_expire]).
    split; [|done]. eapply sound_more; [done| |done]. intros x Hx. by right. }
  clearbody b.
  assert (Hq : forall b', same_work b b' -> exists o, Ok silent = Ok o /\ answers ((packet, fed) :: ins) outs o b').
  { intros b' Hs2. exists silent. split; [done|]. apply answers_quiet; [done|]. by apply (sound_same _ _ b). }
  destruct (source_of peer) as [src|]; [|by apply Hq].
  destruct (match owner b with Some _ => _ | None => _ end); [by apply Hq|].
  set (c := b <| datagrams ::= Z.add 1 |>). destruct (256 <? datagrams c); [by apply Hq|].
  destruct (startswith packet _).
  - pose proof (receive_telemetry_answers packet src now fed ins outs c) as H.
    destruct (receive_telemetry packet src now fed c) as [o d]. exists o. split; [done|]. apply H. by apply (sound_same ins outs b).
  - destruct (_ <? _); [by apply Hq|]. destruct (parse_request packet (Some peer)) as [q|e]; [|by apply Hq].
    apply receive_request_answers. by apply (sound_same _ _ b).
Qed.

(** A watch file is published whole or not at all. *)
Lemma publish_spec `{Normalize} j c file ins outs r : sound ins outs r ->
  let '(x, r') := publish j c file r in
  match x with
  | Err e => e = ValueError /\ same_work r r'
  | Ok _ =>
      c_unsupported c = false /\ listening ins (session r') /\ is_Some (watch (session r')) /\ owner r' = owner r /\
      sent_chunks r' = sent_chunks r /\ zlen (title r') <= 63 /\ 0 <= achievements r' <= 10000000
  end.
Proof.
  intros Hs. unfold publish. destruct (c_unsupported c); [done|].
  pose proof (validate_spec file) as Hv. destruct (validate_watchlist file) as [w|e]; [|by subst e].
  destruct (_ || _) eqn:Ea; [done|]. checked. cbv zeta.
  match goal with |- context [install ?i ?s ?f ?w] => pose proof (install_spec i s f w ins (so_session _ _ _ Hs)) as Hin; destruct (install i s f w) as [x s'] end.
  destruct Hin as [L1 L2]. destruct x as [[]|e].
  - cbn. split_and!; try done; [|lia..]. unfold clean_title. rewrite zlen_ztake. lia.
  - destruct L2 as [-> ->]. by split_and!.
Qed.

Lemma sound_complete `{Normalize} now j c ins outs r : sound ins outs r ->
  sound ins outs (snd (complete now j c r)) /\ (forall e, fst (complete now j c r) = Err e -> e = ValueError).
Proof.
  intros Hs%(sound_expire _ _ now). unfold complete. cbv zeta. set (b := expire now r) in *. clearbody b.
  case_bool_decide as Ep; [|done]. cbn [negb orb]. destruct (_ =? _); [|done]. cbn [negb].
  destruct (so_pending _ _ _ Hs j Ep) as (Hw & Hi & _).
  assert (Ho : owner b <> None) by (intros Ho; destruct (so_idle _ _ _ Hs Ho); congruence).
  assert (Hc : sent_chunks b = ∅).
  { apply set_eq. intros i. split; [|set_solver]. intros (w & E & _)%(so_chunks _ _ _ Hs). congruence. }
  cbv [mbind M_bind mmod mret M_ret]. destruct (c_file c) as [file|].
  - pose proof (publish_spec j c file ins outs b Hs) as Hp.
    destruct (publish j c file b) as [[[]|e] b'].
    + destruct Hp as (-> & P1 & P2 & P3 & P4 & P5 & P6). split; [|done]. split; cbn; try done; [intros; congruence|].
      intros i. by rewrite P4, Hc.
    + destruct Hp as [-> Hsame]. split; [by apply (sound_same ins outs b)|by intros e [= <-]].
  - split; [|done]. destruct Hs as [S1 S2 S3 S4 S5 S6 S7]. split; cbn; try done.
    destruct (c_unsupported c); [|done]. by intros id _ ?.
Qed.

(** ** Runs *)

Inductive event :=
  | Datagram (now fed : Z) (packet : bytes) (peer : text * Z)
  | TakeJobs (now : Z)
  | Finished (now : Z) (j : job) (c : completion)
  | Tick (now : Z)
  | Reset (now : Z).

Definition event_time (e : event) : Z :=
  match e with Datagram now _ _ _ | TakeJobs now | Finished now _ _ | Tick now | Reset now => now end.

Section runs.
Context `{Normalize}.

(** One event, and what is sent *)
Definition step (e : event) (r : receiver) : option output * receiver :=
  match e with
  | Datagram now fed packet peer =>
      let '(x, r) := receive now fed packet peer r in (match x with Ok o => Some o | Err _ => None end, r)
  | TakeJobs now => (None, snd (take_jobs now r))
  | Finished now j c => (None, snd (complete now j c r))
  | Tick now => (None, tick now r)
  | Reset _ => (None, clear r)
  end.

Fixpoint run (evs : list event) (r : receiver) : list output * receiver :=
  match evs with
  | [] => ([], r)
  | e :: evs =>
      let '(o, r) := step e r in
      let '(os, r) := run evs r in (option_list o ++ os, r)
  end.

Definition datagrams_of (evs : list event) : list (bytes * Z) :=
  omap (fun e => match e with Datagram _ fed packet _ => Some (packet, fed) | _ => None end) evs.

Lemma sound_new lease identify per_second advertised now r :
  new_receiver lease identify per_second advertised now = Ok r -> sound [] [] r.
Proof. unfold new_receiver. intros H1. if_inv H1. injection H1 as <-. split; cbn; try done; lia. Qed.

Lemma sound_take_jobs now ins outs r : sound ins outs r -> sound ins outs (snd (take_jobs now r)).
Proof. intros Hs%(sound_expire _ _ now). unfold take_jobs. cbn. destruct Hs. by split. Qed.

Lemma sound_step e ins outs r : sound ins outs r ->
  sound (datagrams_of [e] ++ ins) (option_list (fst (step e r)) ++ outs) (snd (step e r)).
Proof.
  intros Hs. destruct e as [now fed packet peer|now|now j c|now|now]; cbn [step datagrams_of omap list_omap app option_list].
  - destruct (receive_answers now fed packet peer ins outs r Hs) as (o & E & S & _).
    destruct (receive now fed packet peer r) as [x r']. cbn in *. by subst x.
  - by apply sound_take_jobs.
  - by apply sound_complete.
  - by apply sound_expire.
  - by apply (sound_clear ins outs r).
Qed.

Lemma sound_run evs ins outs r : sound ins outs r ->
  sound (ins ++ datagrams_of evs) (outs ++ fst (run evs r)) (snd (run evs r)).
Proof.
  revert ins outs r. induction evs as [|e evs IH]; intros ins outs r Hs; [by rewrite !app_nil_r|]. cbn [run].
  apply (sound_step e) in Hs. destruct (step e r) as [o r1]. cbn [fst snd] in Hs. apply IH in Hs.
  destruct (run evs r1) as [os r2]. cbn [fst snd] in *. eapply sound_more; [exact Hs| |].
  - change (e :: evs) with ([e] ++ evs). unfold datagrams_of. rewrite omap_app. clear. intros x.
    rewrite !elem_of_app. tauto.
  - clear. intros x. rewrite !elem_of_app. tauto.
Qed.

(** C18. Whatever a receiver is given, it answers every datagram; and where it hands on memory values,
    they are one frame of the datagrams it was given, of the size of the watch list that the
    console has, and every chunk of that list was sent before. *)
Theorem telemetry_sound lease identify per_second advertised t0 r0 evs now fed packet peer :
  new_receiver lease identify per_second advertised t0 = Ok r0 ->
  let '(outs, r) := run evs r0 in
  let '(x, r') := receive now fed packet peer r in
  exists o, x = Ok o /\ (values o <> [] -> delivered ((packet, fed) :: datagrams_of evs) outs o r').
Proof.
  intros Hs%sound_new%(sound_run evs). destruct (run evs r0) as [outs r]. cbn [app fst snd] in Hs.
  destruct (receive_answers now fed packet peer _ _ r Hs) as (o & E & _ & D).
  destruct (receive now fed packet peer r) as [x r']. by exists o.
Qed.

(** ** The lease *)

(** The owner and its last sign of life are as before, or the datagram came from the owner. *)
Definition keeps_lease (src : text) (now : Z) (r r' : receiver) : Prop :=
  lease_seconds r' = lease_seconds r /\
  ((owner r' = owner r /\ last_activity r' = last_activity r) \/
   (owner r' = Some src /\ last_activity r' = Some now /\ (owner r = None \/ owner r = Some src))).

(** An answer goes to the owner. *)
Definition leased (src : text) (now : Z) (x : result output) (r r' : receiver) : Prop :=
  keeps_lease src now r r' /\
  (forall o, x = Ok o -> destination o <> None -> owner r' = Some src /\ last_activity r' = Some now /\ (owner r = None \/ owner r = Some src)).

Lemma leased_silent src now r r' : lease_seconds r' = lease_seconds r -> owner r' = owner r ->
  last_activity r' = last_activity r -> leased src now (Ok silent) r r'.
Proof. intros. split; [split; [done|by left]|]. by intros o [= <-]. Qed.

Lemma leased_owner src now x r r' : lease_seconds r' = lease_seconds r -> owner r' = Some src -> last_activity r' = Some now ->
  owner r = None \/ owner r = Some src -> leased src now x r r'.
Proof. intros. split; [split; [done|by right]|done]. Qed.

Definition same_lease (r r' : receiver) : Prop :=
  lease_seconds r' = lease_seconds r /\ owner r' = owner r /\ last_activity r' = last_activity r.

Lemma ask_for_lease id now r : same_lease r (ask_for id now r).
Proof. unfold ask_for. by destruct (match pending r with Some _ => _ | None => true end). Qed.
Lemma receive_query_lease q now dest r : same_lease r (snd (receive_query q now dest r)).
Proof.
  unfold receive_query. cbv zeta. case_bool_decide; [by destruct (unsupported r)|]. apply ask_for_lease.
Qed.
Lemma receive_chunk_lease q dest r : same_lease r (snd (receive_chunk q dest r)).
Proof. unfold receive_chunk. repeat (case_match; try done). Qed.

Lemma receive_request_lease q src now r : owner r = None \/ owner r = Some (fst src) ->
  let '(x, r') := receive_request q src now r in leased (fst src) now x r r'.
Proof.
  intros Ho. unfold receive_request. destruct (bool_decide (owner r = None) && _); [by apply leased_silent|].
  cbv zeta. set (dest := if advertised_replies r then _ else _). set (b := set_field reply_to _ _).
  assert (Hb : lease_seconds b = lease_seconds r /\ owner b = Some (fst src) /\ last_activity b = Some now).
  { subst b. destruct Ho as [E|E]; rewrite E; cbn; by rewrite ?E. }
  clearbody b. destruct Hb as (B1 & B2 & B3).
  assert (Hq : forall x b', same_lease b b' -> leased (fst src) now x r b').
  { intros x b' (E1 & E2 & E3). apply leased_owner; [congruence..|done]. }
  destruct (existsb _ _); [apply Hq; by destruct (str_eqb _ _)|].
  destruct (str_eqb (kind q) (lit "RAP1")); [by apply Hq|]. destruct (str_eqb (kind q) (lit "RAG1")).
  - pose proof (receive_chunk_lease q dest b). destruct (receive_chunk q dest b). by apply Hq.
  - pose proof (receive_query_lease q now dest b). destruct (receive_query q now dest b). by apply Hq.
Qed.

Lemma receive_telemetry_lease packet src now fed r : owner r = None \/ owner r = Some (fst src) ->
  let '(o, r') := receive_telemetry packet src now fed r in leased (fst src) now (Ok o) r r'.
Proof.
  intros Ho. unfold receive_telemetry. destruct (owner r) as [ow|] eqn:Eo; [|by apply leased_silent].
  destruct (watch (session r)); [|by apply leased_silent]. destruct (negb _); [by apply leased_silent|].
  destruct (feed_session packet fed (session r)) as [[[v|]|e] s]; [|by apply leased_silent..].
  apply leased_owner; try done; [cbn; rewrite Eo; by destruct Ho|by rewrite Eo].
Qed.

Lemma IPv4_same s a : IPv4Address s = Ok a -> a = s.
Proof. unfold IPv4Address. repeat (case_match; try done). by intros [= <-]. Qed.

(** After expiry a datagram keeps the lease of the owner, and only the owner is answered. *)
Lemma receive_lease now fed packet peer r :
  let '(x, r') := receive now fed packet peer r in leased (fst peer) now x (expire now r) r'.
Proof.
  unfold receive. cbv zeta. set (b := expire now r).
  assert (Hb : same_lease b (roll_window now b)) by (unfold roll_window; by destruct (1 <=? _)).
  set (c := roll_window now b) in *. clearbody c. clearbody b. destruct Hb as (B1 & B2 & B3).
  destruct (source_of peer) as [src|] eqn:Es; [|by apply leased_silent].
  assert (Hs : fst src = fst peer).
  { unfold source_of in Es. destruct (IPv4Address (fst peer)) as [a|] eqn:Ea; [|done]. destruct (port_ok _); [|done].
    injection Es as <-. by apply IPv4_same. }
  destruct (match owner c with Some _ => _ | None => _ end) eqn:Ew; [by apply leased_silent|].
  assert (Ho : owner b = None \/ owner b = Some (fst src)).
  { rewrite <- B2. destruct (owner c) as [o|]; [right|by left]. unfold str_eqb in Ew. case_bool_decide; [by f_equal|done]. }
  set (d := c <| datagrams ::= Z.add 1 |>). destruct (256 <? datagrams d); [by apply leased_silent|].
  rewrite <- Hs. assert (Hd : owner d = None \/ owner d = Some (fst src)) by (subst d; cbn; by rewrite B2).
  assert (HL : forall x r', leased (fst src) now x d r' -> leased (fst src) now x b r').
  { unfold leased, keeps_lease. subst d. cbn. by rewrite B1, B2, B3. }
  destruct (startswith packet _).
  - pose proof (receive_telemetry_lease packet src now fed d Hd) as Ht. destruct (receive_telemetry packet src now fed d). by apply HL.
  - destruct (_ <? _); [by apply leased_silent|]. destruct (parse_request packet (Some peer)) as [q|e]; [|by apply leased_silent].
    set (f := d <| requests ::= Z.add 1 |>). assert (Hf : owner f = None \/ owner f = Some (fst src)) by done.
    pose proof (receive_request_lease q src now f Hf) as Hr. destruct (receive_request q src now f). by apply HL.
Qed.

Lemma publish_lease j c file r : same_lease r (snd (publish j c file r)).
Proof.
  unfold publish. destruct (c_unsupported c); [done|]. destruct (validate_watchlist file); [|done]. destruct (_ || _); [done|].
  cbv zeta. by destruct (install _ _ _ _) as [[|] ?].
Qed.

Lemma complete_lease now j c r : same_lease (expire now r) (snd (complete now j c r)).
Proof.
  unfold complete. cbv zeta. set (b := expire now r). clearbody b. destruct (_ || _); [done|].
  cbv [mbind M_bind mmod mret M_ret]. destruct (c_file c) as [file|]; [|done]. pose proof (publish_lease j c file b).
  by destruct (publish j c file b) as [[|] ?].
Qed.

Lemma expire_seconds now r : lease_seconds (expire now r) = lease_seconds r.
Proof. unfold expire. by repeat case_match. Qed.

(** [a] still owns the receiver, with a sign of life after [t1]; or its lease is over. *)
Definition held (a : text) (t1 lease now : Z) (r : receiver) : Prop :=
  lease_seconds r = lease /\
  ((owner r = Some a /\ exists t, last_activity r = Some t /\ t1 <= t) \/ t1 + lease <= now).

Lemma held_expire a t1 lease n now r : held a t1 lease n r -> n <= now -> held a t1 lease now (expire now r).
Proof.
  intros [E Hh] Hn. unfold held. split.
  { by rewrite expire_seconds. }
  destruct Hh as [(Ho & t & Ht & Hle)|Hh]; [|right; lia]. unfold expire. rewrite Ht.
  destruct (Z.leb_spec (lease_seconds r) (now - t)); [right; lia|left].
  destruct (pending r) as [j|]; [destruct (_ <=? _)|]; split; try done; by exists t.
Qed.

Lemma held_same a t1 lease now r r' : same_lease r r' -> held a t1 lease now r -> held a t1 lease now r'.
Proof. intros (E1 & E2 & E3) [L H1]. split; [congruence|]. by rewrite E2, E3. Qed.

Definition is_reset (e : event) : bool := match e with Reset _ => true | _ => false end.

Lemma held_step a t1 lease n e r : held a t1 lease n r -> n <= event_time e -> t1 <= event_time e -> is_reset e = false ->
  held a t1 lease (event_time e) (snd (step e r)).
Proof.
  intros Hh Hn Ht Hr. apply (held_expire _ _ _ _ (event_time e)) in Hh; [|done].
  destruct e as [now fed packet peer|now|now j c|now|now]; cbn [event_time step] in *; try done.
  - pose proof (receive_lease now fed packet peer r) as Hl. destruct (receive now fed packet peer r) as [x r']; cbn [snd].
    destruct Hl as [[L K] _], Hh as [E H1]. split; [congruence|]. destruct H1 as [(Ho & t & Hla & Hle)|H1]; [left|by right].
    destruct K as [[K1 K2]|(K1 & K2 & K3)]; [rewrite K1, K2; split; [done|by exists t]|].
    rewrite K1, K2. split; [destruct K3; congruence|by exists now].
  - by apply (held_same _ _ _ _ _ _ (complete_lease now j c r)).
Qed.

(** Times that do not go back *)
Fixpoint times_from (t : Z) (evs : list event) : Prop :=
  match evs with [] => True | e :: evs => t <= event_time e /\ times_from (event_time e) evs end.

Lemma held_run a t1 lease n evs r last : held a t1 lease n r -> t1 <= n -> times_from n (evs ++ [last]) ->
  Forall (fun e => is_reset e = false) evs ->
  exists m, n <= m <= event_time last /\ held a t1 lease m (snd (run evs r)).
Proof.
  revert n r. induction evs as [|e evs IH]; intros n r Hh Ht Hts Hr; [exists n; cbn in *; split; [lia|done]|].
  cbn [times_from app] in Hts. destruct Hts as [Hn Hts]. apply Forall_cons in Hr as [He Hr]. cbn [run].
  apply (held_step _ _ _ _ e) in Hh; [|lia..|done]. destruct (step e r) as [o r1]. cbn [snd] in Hh.
  destruct (IH _ _ Hh ltac:(lia) Hts Hr) as (m & Hm & Hh'). exists m. split; [lia|]. by destruct (run evs r1).
Qed.

(** C26. Two answers to datagrams from different addresses are at least a lease apart, whatever
    happens in between except a reset ([clear], by which the program drops the console):
    another console cannot take over from one that is answered. *)
Theorem lease_exclusive r now1 fed1 p1 peer1 evs now2 fed2 p2 peer2 o1 o2 :
  let e1 := Datagram now1 fed1 p1 peer1 in
  let e2 := Datagram now2 fed2 p2 peer2 in
  times_from now1 (evs ++ [e2]) -> Forall (fun e => is_reset e = false) evs ->
  fst (step e1 r) = Some o1 -> destination o1 <> None ->
  fst (step e2 (snd (run evs (snd (step e1 r))))) = Some o2 -> destination o2 <> None ->
  fst peer1 <> fst peer2 -> now1 + lease_seconds r <= now2.
Proof.
  intros e1 e2 Ht Hr E1 D1 E2 D2 Hne. cbn [step e1] in *.
  pose proof (receive_lease now1 fed1 p1 peer1 r) as L1. destruct (receive now1 fed1 p1 peer1 r) as [[x1|] r1]; [|done].
  injection E1 as ->. destruct L1 as [[L _] A]. destruct (A o1 eq_refl D1) as (O1 & O2 & _). cbn [snd] in E2.
  pose proof (expire_seconds now1 r) as Hle.
  assert (Hh : held (fst peer1) now1 (lease_seconds r) now1 r1) by (split; [congruence|left; split; [done|by exists now1]]).
  destruct (held_run _ _ _ _ evs r1 e2 Hh ltac:(lia) Ht Hr) as (m & Hm & Hh2). cbn [event_time e2] in Hm.
  apply (held_expire _ _ _ _ now2) in Hh2; [|lia]. pose proof (receive_lease now2 fed2 p2 peer2 (snd (run evs r1))) as L2.
  cbn [step e2 fst] in E2. destruct (receive now2 fed2 p2 peer2 _) as [[x2|] r2]; [|done]. injection E2 as ->.
  destruct L2 as [_ A2]. destruct (A2 o2 eq_refl D2) as (_ & _ & [Q|Q]); destruct Hh2 as [_ [(Q' & _)|Q']]; congruence || lia.
Qed.
End runs.
