(* ===== verification/RaEvaluator.v ===== *)
(** * RetroAchievements: the evaluator

    Models [launcher/ra_evaluator.py] and [launcher/ra_evaluated_receiver.py]: the owner of a
    runtime of the native library, which it gives one memory snapshot after the other, and the
    receiver that feeds it.

    The native library is a parameter: its state, and the calls that are made of it.  A call of
    [rc_runtime_do_frame] is given the callback that reads memory; it returns the events it
    reports and the reads it made.  The lock of the evaluator is left out: every method runs
    under it from end to end.  A dictionary of definitions is the list of its items. *)

From S2P Require Import Prelude Tables PyStr PyText Ipv4 RaProtocol RaReceiver.

(** [rc_runtime_*]; handles are numbers *)
Class Rcheevos (Lib : Type) := {
  rt_alloc : Lib -> option Z * Lib;
  rt_destroy : Z -> Lib -> Lib;
  rt_activate : Z -> Z -> bytes -> Lib -> Z * Lib;
  rt_do_frame : Z -> (Z * Z -> Z) -> Lib -> (list (Z * Z * Z) * list (Z * Z)) * Lib
}.

Definition TRIGGERED : Z := 3.

(** An event: its type, its id and its value *)
Definition ev_type (e : Z * Z * Z) : Z := fst (fst e).
Definition ev_id (e : Z * Z * Z) : Z := snd (fst e).
Definition is_trigger (e : Z * Z * Z) : bool := ev_type e =? TRIGGERED.

(** [Evaluation] *)
Record evaluation := Evaluation {
  accepted : bool;
  events : list (Z * Z * Z);
  was_reset : bool;
  missing : list (Z * Z)
}.

Definition rejected : evaluation := Evaluation false [] false [].

(** [Evaluation.triggered] *)
Definition triggers (e : evaluation) : list Z := map ev_id (List.filter is_trigger (events e)).

(** [Evaluator] *)
Record evaluator := Evaluator {
  definitions : list (Z * bytes);
  e_watch : watch_list;
  e_generation : Z;
  e_sequence : option Z;
  triggered : gset Z;
  runtime : option Z
}.

#[export] Instance eta_evaluator : Eta evaluator := fun e =>
  Evaluator (definitions e) (e_watch e) (e_generation e) (e_sequence e) (triggered e) (runtime e).

(** ** The memory of a snapshot *)

Abbreviation memory := (gmap (Z * Z) Z).

(** [reads.setdefault(k, v)] *)
Definition setdefault (k : Z * Z) (v : Z) (m : memory) : memory := match m !! k with Some _ => m | None => <[k := v]> m end.

(** The reads of [size] bytes inside [value] *)
Definition add_sized (address : Z) (value : bytes) (size : Z) (reads : memory) : memory :=
  foldl (fun reads off => setdefault (address + off, size) (le_int (slice value off (off + size))) reads) reads
        (seqZ 0 (zlen value - size + 1)).

(** [_add_reads] *)
Definition add_reads (reads : memory) (address : Z) (value : bytes) : memory :=
  foldl (fun reads size => add_sized address value size reads) reads [1; 2; 4].

(** The entries of the list, with the offset of the next value *)
Definition entry_reads (w : watch_list) (values : bytes) (st : memory * Z) (i : Z) : memory * Z :=
  let '(reads, off) := st in
  let entry := word (data w) (16 + 4 * i) in
  let size := Z.shiftr entry 28 in
  (add_reads reads (Z.land entry 268435455) (slice values off (off + size)), off + size).

(** The nodes, each the address it resolved to and the value there *)
Definition node_reads (w : watch_list) (values : bytes) (st : memory * Z) (i : Z) : memory * Z :=
  let '(reads, off) := st in
  let node := word (data w) (16 + 4 * count w + 8 + 8 * i) in
  let address := word values off in
  let size := Z.land (Z.shiftr node 13) 7 in
  (if negb (address =? 0) then add_reads reads address (slice values (off + 4) (off + 4 + size)) else reads, off + 8).

(** [_reads] *)
Definition reads (w : watch_list) (values : bytes) : memory :=
  let st := foldl (entry_reads w values) (∅, 0) (seqZ 0 (count w)) in
  fst (if direct_bytes w <? zlen values then foldl (node_reads w values) st (seqZ 0 (nodes w)) else st).

(** The callback [peek]: 0 where nothing was read *)
Definition peek (reads : memory) (k : Z * Z) : Z := default 0 (reads !! k).

Definition pair_leb (a b : Z * Z) : bool := (fst a <? fst b) || ((fst a =? fst b) && (snd a <=? snd b)).

Section evaluator.
Context {Lib : Type} `{Rcheevos Lib}.

(** ** The runtime *)

(** The conditions that are not done are activated. *)
Fixpoint activate_all (h : Z) (defs : list (Z * bytes)) (done : gset Z) : M Lib unit :=
  match defs with
  | [] => mret tt
  | (id, expression) :: defs =>
      if decide (id ∈ done) then activate_all h defs done
      else fun l =>
        let '(code, l) := rt_activate h id expression l in
        if negb (code =? 0) then (Err ValueError, l) else activate_all h defs done l
  end.

(** [_allocate] *)
Definition allocate (defs : list (Z * bytes)) (done : gset Z) : M Lib Z := fun l =>
  match rt_alloc l with
  | (None, l) => (Err MemoryError, l)
  | (Some h, l) =>
      match activate_all h defs done l with
      | (Ok _, l) => (Ok h, l)
      | (Err e, l) => (Err e, rt_destroy h l)
      end
  end.

(** The definitions with their expressions encoded *)
Fixpoint encode_definitions (defs : list (Z * text)) : result (list (Z * bytes)) :=
  match defs with
  | [] => Ok []
  | (id, expression) :: defs =>
      if (id <? 1) || (4294967295 <? id) then Err ValueError
      else if (zlen expression <? 1) || (16384 <? zlen expression) || existsb (Z.eqb 0) expression then Err ValueError
      else if negb (forallb (fun c => c <? 128) expression) then Err UnicodeError
      else rest ← encode_definitions defs; Ok ((id, expression) :: rest)
  end.

(** [Evaluator.__init__] *)
Definition new_evaluator (defs : list (Z * text)) (watch_file : bytes) (gen : Z) : M Lib evaluator := fun l =>
  let checked :=
    if gen <? 1 then Err ValueError
    else if (zlen defs <? 1) || (4096 <? zlen defs) then Err ValueError
    else
      encoded ← encode_definitions defs;
      if 4 * 1024 * 1024 <? foldr Z.add 0 (map (fun d => zlen (snd d)) encoded) then Err ValueError
      else w ← validate_watchlist watch_file; Ok (encoded, w)
  in
  match checked with
  | Err e => (Err e, l)
  | Ok (encoded, w) =>
      match allocate encoded ∅ l with
      | (Ok h, l) => (Ok (Evaluator encoded w gen None ∅ (Some h)), l)
      | (Err e, l) => (Err e, l)
      end
  end.

Abbreviation ME := (M (evaluator * Lib)).

(** [_reset]: the new runtime is made before the old one goes. *)
Definition reset_runtime : ME unit := fun '(e, l) =>
  match allocate (definitions e) (triggered e) l with
  | (Err x, l) => (Err x, (e, l))
  | (Ok h, l) =>
      (Ok tt, (e <| runtime := Some h |>, match runtime e with Some old => rt_destroy old l | None => l end))
  end.

(** [close] *)
Definition close_evaluator (e : evaluator) (l : Lib) : evaluator * Lib :=
  match runtime e with Some h => (e <| runtime := None |>, rt_destroy h l) | None => (e, l) end.

(** A frame given to the runtime: its events and the reads that no entry answers *)
Definition frame (reads : memory) (h : Z) : ME (list (Z * Z * Z) * list (Z * Z)) := fun '(e, l) =>
  let '((evs, asked), l) := rt_do_frame h (peek reads) l in
  let absent := List.filter (fun k => match reads !! k with Some _ => false | None => true end) asked in
  (Ok (evs, sorted pair_leb (elements (list_to_set absent : gset (Z * Z)))), (e, l)).

(** How far [seq] is after the last one, 1 at first *)
Definition delta (e : evaluator) (seq : Z) : Z :=
  match e_sequence e with Some s => (seq - s) mod 1000000 | None => 1 end.

(** The snapshot is the next one, or the history is forgotten first. *)
Definition evaluate_new (values : bytes) (seq : Z) : ME evaluation := fun '(e, l) =>
  (let reset := negb (delta e seq =? 1) in
   _ ← mwhen reset reset_runtime;
   h ← mget (fun st => default 0 (runtime (fst st)));
   w ← mget (fun st => e_watch (fst st));
   '(evs, absent) ← frame (reads w values) h;
   _ ← mmod (fun st => ((fst st) <| e_sequence := Some seq |>, snd st));
   if negb (bool_decide (absent = [])) then _ ← reset_runtime; mret (Evaluation false [] true absent)
   else
     done ← mget (fun st => triggered (fst st));
     let evs := List.filter (fun x => negb (is_trigger x) || negb (bool_decide (ev_id x ∈ done))) evs in
     _ ← mmod (fun st => ((fst st) <| triggered ::= union (list_to_set (map ev_id (List.filter is_trigger evs))) |>, snd st));
     mret (Evaluation true evs reset [])) (e, l).

(** [evaluate]; a sequence that is no number is [None]. *)
Definition evaluate (values : bytes) (gen : Z) (seq : option Z) : ME evaluation := fun '(e, l) =>
  match runtime e with
  | None => (Err RuntimeError, (e, l))
  | Some _ =>
      if negb (gen =? e_generation e) then (Ok rejected, (e, l))
      else
        match seq with
        | None => (Err ValueError, (e, l))
        | Some s =>
            if (s <? 0) || (1000000 <=? s) then (Err ValueError, (e, l))
            else if negb (existsb (Z.eqb (zlen values)) (snapshot_sizes (e_watch e))) then (Err ValueError, (e, l))
            else
              let d := delta e s in
              if (d =? 0) || (500000 <=? d) then (Ok rejected, (e, l)) else evaluate_new values s (e, l)
        end
  end.

(** [evaluate_frame] *)
Definition evaluate_frame (o : output) : ME evaluation := evaluate (values o) (o_generation o) (o_sequence o).
End evaluator.

(** ** RetroAchievements: the evaluated receiver

    Models [launcher/ra_evaluated_receiver.py] without the account: the receiver and at most one
    evaluator, which lives as long as the watch list it was made for.  [bind_account],
    [clear_account] and [complete_set], which derive the watch list from a set of an account,
    are left out, and with them the context of a set.

    The library is part of the state.  Each reading of the clock is an argument. *)

(** [EvaluatedReceiver]; the metadata by the id of an achievement *)
Record ereceiver := EReceiver {
  er_receiver : receiver;
  er_evaluator : option evaluator;
  er_closed : bool;
  er_profile : text;
  er_metadata : list (Z * (Z * text))
}.

#[export] Instance eta_ereceiver : Eta ereceiver := fun r =>
  EReceiver (er_receiver r) (er_evaluator r) (er_closed r) (er_profile r) (er_metadata r).

(** [EvaluatedOutput] *)
Record eoutput := EOutput { wire : output; evaluated : option evaluation; notices : list bytes }.

(** [EvaluatedReceiver.__init__] *)
Definition new_ereceiver (lease identify per_second : Z) (advertised : bool) (now : Z) : result ereceiver :=
  r ← new_receiver lease identify per_second advertised now; Ok (EReceiver r None false (lit "opl") []).

(** What [complete] is given besides the job *)
Record published := Published {
  p_completion : completion;
  p_definitions : list (Z * text);
  p_profile : text;
  p_metadata : list (Z * (Z * text))
}.

Section evaluated.
Context {Lib : Type} `{Rcheevos Lib} `{Normalize}.
Abbreviation E := (ereceiver * Lib)%type.
Abbreviation MR := (M E).

(** [_reconcile] *)
Definition reconcile (s : E) : E :=
  let '(r, l) := s in
  match er_evaluator r with
  | Some e =>
      if match watch (session (er_receiver r)) with
         | Some _ => negb (e_generation e =? generation (session (er_receiver r)))
         | None => true
         end
      then (r <| er_evaluator := None |>, snd (close_evaluator e l))
      else s
  | None => s
  end.

(** [_check_open] *)
Definition check_open : MR unit := fun s => (if er_closed (fst s) then Err RuntimeError else Ok tt, s).

Definition with_receiver (f : receiver -> receiver) (s : E) : E := ((fst s) <| er_receiver ::= f |>, snd s).

(** [tick] *)
Definition e_tick (now : Z) : MR unit :=
  _ ← check_open; mmod (fun s => reconcile (with_receiver (tick now) s)).

(** An operation of the receiver *)
Definition at_receiver {A} (m : M receiver A) : MR A := fun s =>
  let '(x, r) := m (er_receiver (fst s)) in (x, ((fst s) <| er_receiver := r |>, snd s)).

(** [take_jobs] *)
Definition e_take_jobs (now now' : Z) : MR (option job) :=
  _ ← e_tick now; at_receiver (fun r => let '(j, r) := take_jobs now' r in (Ok j, r)).

(** The evaluator of a watch file, and whether the receiver accepted the file; when one of the
    two raises, the runtime that was made is released. *)
Definition try_candidate (now : Z) (j : job) (p : published) (file : bytes) : MR (evaluator * bool) := fun s =>
  match new_evaluator (p_definitions p) file (generation (session (er_receiver (fst s))) + 1) (snd s) with
  | (Err e, l) => (Err e, (fst s, l))
  | (Ok candidate, l) =>
      match at_receiver (complete now j (p_completion p)) (fst s, l) with
      | (Ok accepted, s) => (Ok (candidate, accepted), s)
      | (Err e, s) => (Err e, (fst s, snd (close_evaluator candidate (snd s))))
      end
  end.

(** [complete] of a watch file *)
Definition complete_file (now : Z) (j : job) (p : published) (file : bytes) : MR bool := fun s =>
  match try_candidate now j p file s with
  | (Err e, s) => (Err e, reconcile (with_receiver clear s))
  | (Ok (candidate, false), s) => (Ok false, (fst s, snd (close_evaluator candidate (snd s))))
  | (Ok (candidate, true), s) =>
      let '(r, l) := reconcile s in
      (Ok true, (r <| er_evaluator := Some candidate |> <| er_profile := p_profile p |> <| er_metadata := p_metadata p |>, l))
  end.

(** [complete] *)
Definition e_complete (now now' : Z) (j : job) (p : published) : MR bool :=
  _ ← e_tick now;
  r ← mget (fun s => er_receiver (fst s));
  if negb (bool_decide (pending r = Some j)) || negb (j_token j =? token r) then mret false
  else
    match c_file (p_completion p) with
    | None => accepted ← at_receiver (complete now' j (p_completion p)); _ ← mmod reconcile; mret accepted
    | Some file => complete_file now' j p file
    end.

(** The notices of the achievements that a frame triggered *)
Fixpoint format_notices (profile : text) (metadata : list (Z * (Z * text))) (ids : list Z) : result (list bytes) :=
  match ids with
  | [] => Ok []
  | id :: ids =>
      let '(points, title) := default (0, []) (alookup id metadata) in
      n ← format_unlock_notice id points
            (if str_eqb profile (lit "caduceus") && nonempty title then Some title else None);
      ns ← format_notices profile metadata ids;
      Ok (n :: ns)
  end.

(** The evaluation of the frame of an output *)
Definition e_evaluate (o : output) : MR (option evaluation) := fun s =>
  match er_evaluator (fst s) with
  | Some e =>
      if nonempty (values o) then
        let '(x, (e, l)) := evaluate_frame o (e, snd s) in
        (v ← x; Ok (Some v), ((fst s) <| er_evaluator := Some e |>, l))
      else (Ok None, s)
  | None => (Ok None, s)
  end.

(** [receive] *)
Definition e_receive (now fed : Z) (packet : bytes) (peer : text * Z) : MR eoutput :=
  _ ← check_open;
  o ← at_receiver (receive now fed packet peer);
  _ ← mmod reconcile;
  v ← e_evaluate o;
  r ← mget fst;
  ns ← lift (match v with Some v => format_notices (er_profile r) (er_metadata r) (triggers v) | None => Ok [] end);
  mret (EOutput o v ns).

(** [reset] *)
Definition e_reset : MR unit :=
  _ ← check_open;
  mmod (fun s => let s := reconcile (with_receiver clear s) in ((fst s) <| er_metadata := [] |> <| er_profile := lit "opl" |>, snd s)).

(** [close] *)
Definition e_close : MR unit := fun s =>
  if er_closed (fst s) then (Ok tt, s) else (_ ← e_reset; mmod (fun s => ((fst s) <| er_closed := true |>, snd s))) s.
End evaluated.
