(* ===== verification/RaEvaluatorFacts.v ===== *)
(** * What the native runtime is given

    An evaluator owns one runtime of the library and releases it; the frames that a runtime has
    seen are consecutive, so that no condition spans a gap; and an achievement is reported once.
    In every run of the evaluated receiver the evaluator is that of the watch list the console
    has, so that every frame the receiver hands on and that is newer is given to the runtime.

    The library is any that keeps account of its runtimes and their frames: [RcheevosLaws]. *)

From stdpp Require Import relations.
From S2P Require Import Prelude Triples Tables PyStr PyText ChdCue Ipv4 RaProtocol RaFrames RaReceiver RaReceiverFacts RaEvaluator.

(** What is relied on of the library: which runtimes there are, and the memory callbacks of the
    frames that each was given. *)
Class RcheevosLaws (Lib : Type) `{Rcheevos Lib} := {
  live : Lib -> gset Z;
  frames : Lib -> Z -> list (Z * Z -> Z);
  alloc_new l h l' : rt_alloc l = (Some h, l') ->
    h ∉ live l /\ live l' = ({[h]} ∪ live l) /\ frames l' h = [] /\ forall k, k <> h -> frames l' k = frames l k;
  alloc_none l l' : rt_alloc l = (None, l') -> live l' = live l /\ forall k, frames l' k = frames l k;
  destroy_live h l : live (rt_destroy h l) = (live l ∖ {[h]}) /\ forall k, k <> h -> frames (rt_destroy h l) k = frames l k;
  activate_live h id d l : live (snd (rt_activate h id d l)) = live l /\ forall k, frames (snd (rt_activate h id d l)) k = frames l k;
  frame_live h f l : h ∈ live l -> live (snd (rt_do_frame h f l)) = live l /\ frames (snd (rt_do_frame h f l)) h = frames l h ++ [f] /\
    forall k, k <> h -> frames (snd (rt_do_frame h f l)) k = frames l k
}.

Section facts.
Context {Lib : Type} `{RcheevosLaws Lib}.
Abbreviation ME := (M (evaluator * Lib)).

(** The calls of the library, each on a runtime that there is *)
Inductive call : Lib -> Lib -> Prop :=
  | call_alloc l : call l (snd (rt_alloc l))
  | call_destroy h l : h ∈ live l -> call l (rt_destroy h l)
  | call_activate h id d l : h ∈ live l -> call l (snd (rt_activate h id d l))
  | call_frame h f l : h ∈ live l -> call l (snd (rt_do_frame h f l)).

(** Nothing changed but by calls; the runtimes and the frames of those there were are the same. *)
Definition same_runtimes (l l' : Lib) : Prop :=
  live l' = live l /\ forall k, k ∈ live l -> frames l' k = frames l k.

Lemma activate_all_spec h defs done l : h ∈ live l ->
  let l' := snd (activate_all h defs done l) in
  rtc call l l' /\ live l' = live l /\ forall k, frames l' k = frames l k.
Proof.
  revert l. induction defs as [|[id d] defs IH]; intros l Hh; cbn [activate_all]; [by split_and!|].
  destruct (decide (id ∈ done)); [by apply IH|]. cbv zeta. destruct (activate_live h id d l) as [A1 A2].
  pose proof (call_activate h id d l Hh) as Hc. destruct (rt_activate h id d l) as [code l1]. cbn [snd] in *.
  destruct (negb _); [split_and!; [by apply rtc_once|done|done]|].
  destruct (IH l1) as (B1 & B2 & B3); [by rewrite A1|]. split_and!; [by eapply rtc_l|congruence|]. intros k. by rewrite B3, A2.
Qed.

(** A runtime is made whole, or none is left. *)
Lemma allocate_spec defs done l :
  let '(x, l') := allocate defs done l in
  rtc call l l' /\
  match x with
  | Ok h => h ∉ live l /\ live l' = ({[h]} ∪ live l) /\ frames l' h = [] /\ forall k, k <> h -> frames l' k = frames l k
  | Err _ => same_runtimes l l'
  end.
Proof.
  unfold allocate. pose proof (call_alloc l) as Hc. destruct (rt_alloc l) as [[h|] l1] eqn:Ea; cbn [snd] in Hc.
  2: { apply alloc_none in Ea as [E1 E2]. split; [by apply rtc_once|]. by split. }
  apply alloc_new in Ea as (A1 & A2 & A3 & A4). destruct (activate_all_spec h defs done l1) as (B1 & B2 & B3); [set_solver|].
  destruct (activate_all h defs done l1) as [[[]|e] l2]; cbn [snd] in *.
  - split; [by eapply rtc_l|]. rewrite B2, B3. split_and!; try done. intros k Hk. by rewrite B3, A4.
  - destruct (destroy_live h l2) as [D1 D2]. split.
    + eapply rtc_l; [done|]. eapply rtc_r; [done|]. apply call_destroy. set_solver.
    + split; [rewrite D1, B2, A2; set_solver|]. intros k Hk. assert (k <> h) by set_solver. by rewrite D2, B3, A4.
Qed.

(** [e] owns its runtime besides those of [base]. *)
Definition owns (base : gset Z) (e : evaluator) (l : Lib) : Prop :=
  match runtime e with Some h => h ∉ base /\ live l = {[h]} ∪ base | None => live l = base end.

(** The frames of the runtime of [e]: consecutive snapshots, up to the last one *)
Fixpoint consecutive (log : list (Z * bytes)) : Prop :=
  match log with
  | a :: (b :: _) as rest => (fst b - fst a) mod 1000000 = 1 /\ consecutive rest
  | _ => True
  end.

Definition remembers (e : evaluator) (l : Lib) (log : list (Z * bytes)) : Prop :=
  match runtime e with
  | Some h => frames l h = map (fun sv => peek (reads (e_watch e) (snd sv))) log
  | None => log = []
  end /\ consecutive log /\ (forall sv, last log = Some sv -> e_sequence e = Some (fst sv)).

Definition same_evaluator (e e' : evaluator) : Prop :=
  definitions e' = definitions e /\ e_watch e' = e_watch e /\ e_generation e' = e_generation e.

Lemma runtime_reset_spec base e l : owns base e l -> is_Some (runtime e) ->
  let '(x, (e', l')) := reset_runtime (e, l) in
  rtc call l l' /\ owns base e' l' /\ is_Some (runtime e') /\ same_evaluator e e' /\
  triggered e' = triggered e /\ e_sequence e' = e_sequence e /\
  match x with
  | Ok _ => forall h, runtime e' = Some h -> frames l' h = []
  | Err _ => e' = e /\ same_runtimes l l'
  end.
Proof.
  intros Ho [old Eo]. unfold reset_runtime. pose proof (allocate_spec (definitions e) (triggered e) l) as Ha.
  destruct (allocate _ _ l) as [[h|x] l1]; destruct Ha as [Hc Ha].
  - rewrite Eo. unfold owns in *. rewrite Eo in Ho. destruct Ho as [O1 O2]. destruct Ha as (A1 & A2 & A3 & A4).
    destruct (destroy_live old l1) as [D1 D2]. assert (h <> old) by set_solver. cbn. split_and!; try done.
    + eapply rtc_r; [done|]. apply call_destroy. set_solver.
    + set_solver.
    + rewrite D1, A2, O2. set_solver.
    + intros k [= <-]. by rewrite D2.
  - split_and!; try done. unfold owns in *. rewrite Eo in *. by rewrite (proj1 Ha).
Qed.

Lemma consecutive_snoc log sv :
  consecutive log -> (forall a, last log = Some a -> (fst sv - fst a) mod 1000000 = 1) -> consecutive (log ++ [sv]).
Proof.
  induction log as [|a [|b log] IH]; intros Hc Hl; [done| |].
  - cbn. split; [by apply Hl|done].
  - destruct Hc as [Hab Hc]. split; [done|]. apply IH; [done|]. intros x Hx. by apply Hl.
Qed.

Lemma last_snoc {A} (l : list A) x : last (l ++ [x]) = Some x.
Proof. induction l as [|a [|b l] IH]; done. Qed.

(** One more frame for the runtime of [e] *)
Lemma frame_spec base e l log h s values : owns base e l -> remembers e l log -> runtime e = Some h ->
  (forall a, last log = Some a -> (s - fst a) mod 1000000 = 1) ->
  let l' := snd (rt_do_frame h (peek (reads (e_watch e) values)) l) in
  call l l' /\ owns base (e <| e_sequence := Some s |>) l' /\ remembers (e <| e_sequence := Some s |>) l' (log ++ [(s, values)]).
Proof.
  intros Ho [Hf [Hc Hs]] Eh Hn. unfold owns, remembers in *. cbn. rewrite Eh in *. destruct Ho as [O1 O2].
  assert (Hl : h ∈ live l) by set_solver.
  destruct (frame_live h (peek (reads (e_watch e) values)) l Hl) as (F1 & F2 & F3). split_and!.
  - by apply call_frame.
  - done.
  - by rewrite F1.
  - rewrite F2, Hf, map_app. done.
  - by apply consecutive_snoc.
  - intros sv. rewrite last_snoc. by intros [= <-].
Qed.

Lemma remembers_same e l l' log : remembers e l log -> (forall h, runtime e = Some h -> h ∈ live l) -> same_runtimes l l' ->
  remembers e l' log.
Proof.
  intros [Hf Hc] Hl [_ Hs]. split; [|done]. destruct (runtime e) as [h|]; [|done]. rewrite Hs by by apply Hl. done.
Qed.

Lemma owns_live base e l h : owns base e l -> runtime e = Some h -> h ∈ live l.
Proof. unfold owns. intros Ho E. rewrite E in Ho. set_solver. Qed.

(** What an evaluation leaves behind: the snapshots the runtime remembers are those from before,
    none, or with the new one at the end. *)
Definition grows (new : Z * bytes) (log log' : list (Z * bytes)) : Prop :=
  log' = log \/ log' = [] \/ log' = log ++ [new] \/ log' = [new].

(** Triggers are reported that were not before, and remembered. *)
Definition reports (e e' : evaluator) (v : evaluation) : Prop :=
  triggered e ⊆ triggered e' /\
  forall id, id ∈ triggers v -> id ∉ triggered e /\ id ∈ triggered e'.

Lemma reports_nothing e e' v : triggered e' = triggered e -> events v = [] -> reports e e' v.
Proof. intros Ht Hv. split; [by rewrite Ht|]. unfold triggers. rewrite Hv. intros id Hid. by apply not_elem_of_nil in Hid. Qed.

Lemma new_triggers e evs : let evs' := List.filter (fun x => negb (is_trigger x) || negb (bool_decide (ev_id x ∈ triggered e))) evs in
  reports e (e <| triggered ::= union (list_to_set (map ev_id (List.filter is_trigger evs'))) |>) (Evaluation true evs' false []).
Proof.
  cbv zeta. split; [cbn; set_solver|]. unfold triggers. cbn. intros id Hid. split; [|apply elem_of_union; left; by apply elem_of_list_to_set].
  apply list_elem_of_In, in_map_iff in Hid as (x & <- & [[_ Hx]%filter_In Ht]%filter_In). rewrite Ht in Hx. cbn in Hx.
  case_bool_decide; done.
Qed.

Lemma reports_from e1 e2 e3 v v' : triggered e2 = triggered e1 -> events v' = events v -> reports e2 e3 v -> reports e1 e3 v'.
Proof. unfold reports, triggers. by intros -> ->. Qed.

Lemma same_evaluator_trans e1 e2 e3 : same_evaluator e1 e2 -> same_evaluator e2 e3 -> same_evaluator e1 e3.
Proof. unfold same_evaluator. intuition congruence. Qed.

Lemma evaluate_new_spec base e l log values s : owns base e l -> remembers e l log -> is_Some (runtime e) ->
  let '(x, (e', l')) := evaluate_new values s (e, l) in
  rtc call l l' /\ owns base e' l' /\ is_Some (runtime e') /\ same_evaluator e e' /\
  (exists log', remembers e' l' log' /\ grows (s, values) log log') /\
  match x with Ok v => reports e e' v | Err _ => triggered e ⊆ triggered e' end.
Proof.
  intros Ho Hr Hrt. unfold evaluate_new.
  (* up to the frame *)
  assert (H1 : let '(x, (e1, l1)) := mwhen (negb (delta e s =? 1)) reset_runtime (e, l) in
    rtc call l l1 /\ owns base e1 l1 /\ is_Some (runtime e1) /\ same_evaluator e e1 /\ triggered e1 = triggered e /\
    match x with
    | Ok _ => exists log1, remembers e1 l1 log1 /\ (log1 = log \/ log1 = []) /\
        forall a, last log1 = Some a -> (s - fst a) mod 1000000 = 1
    | Err _ => remembers e1 l1 log
    end).
  { unfold mwhen. destruct (Z.eqb_spec (delta e s) 1) as [Ed|Ed]; cbn [negb].
    - cbn. split_and!; try done. exists log. split_and!; [done|by left|]. intros a Ha.
      unfold delta in Ed. by rewrite (proj2 (proj2 Hr) a Ha) in Ed.
    - pose proof (runtime_reset_spec base e l Ho Hrt) as R. destruct (reset_runtime (e, l)) as [[[]|x] [e1 l1]].
      + destruct R as (R1 & R2 & R3 & R4 & R5 & R6 & R7). split_and!; try done. exists []. split_and!; [|by right|done].
        split; [|done]. destruct (runtime e1) as [h|]; [|done]. by apply R7.
      + destruct R as (R1 & R2 & R3 & R4 & R5 & R6 & -> & R7). split_and!; try done.
        eapply remembers_same; [done| |done]. intros h. by apply (owns_live base). }
  unfold mbind at 1, M_bind at 1. destruct (mwhen _ _ (e, l)) as [[[]|x] [e1 l1]].
  2: { destruct H1 as (A1 & A2 & A3 & A4 & A5 & A6). split_and!; try done; [exists log; split; [done|by left]|by rewrite A5]. }
  destruct H1 as (A1 & A2 & [h Eh] & A4 & A5 & log1 & A6 & A7 & A8). cbv [mbind M_bind mmod mret M_ret mget frame]. cbn [fst snd].
  rewrite Eh. cbn [default]. destruct (frame_spec base e1 l1 log1 h s values A2 A6 Eh A8) as (F1 & F2 & F3).
  unfold id. destruct (rt_do_frame h _ l1) as [[evs asked] l2]. cbn [snd] in F1, F2, F3.
  set (absent := sorted pair_leb _). clearbody absent. cbn [fst snd].
  set (e2 := e1 <| e_sequence := Some s |>) in *. assert (Ht2 : triggered e2 = triggered e) by exact A5.
  assert (Hc : rtc call l l2) by (by eapply rtc_r).
  assert (Hg : grows (s, values) log (log1 ++ [(s, values)])).
  { destruct A7 as [-> | ->]; [by right; right; left|by right; right; right]. }
  case_bool_decide as Ea; cbn [negb].
  - split_and!; [done|exact F2|by exists h|exact A4|by exists (log1 ++ [(s, values)])|].
    exact (reports_from e e2 _ _ _ Ht2 eq_refl (new_triggers e2 evs)).
  - pose proof (runtime_reset_spec base e2 l2 F2 (ex_intro _ h Eh)) as R. destruct (reset_runtime (e2, l2)) as [[[]|x] [e3 l3]];
      destruct R as (R1 & R2 & R3 & R4 & R5 & R6 & R7).
    + split_and!; [by etrans|done|done|exact (same_evaluator_trans _ _ _ A4 R4)| |].
      * exists []. split; [|by right; left]. split; [|done]. destruct (runtime e3) as [k|]; [by apply R7|done].
      * apply reports_nothing; [congruence|done].
    + destruct R7 as [-> R7]. split_and!; [by etrans|done|by exists h|exact A4| |by rewrite Ht2].
      exists (log1 ++ [(s, values)]). split; [|done]. eapply remembers_same; [done| |done]. intros k. by apply (owns_live base).
Qed.

Lemma evaluate_spec base e l log values gen seq : owns base e l -> remembers e l log ->
  let '(x, (e', l')) := evaluate values gen seq (e, l) in
  rtc call l l' /\ owns base e' l' /\ (is_Some (runtime e) -> is_Some (runtime e')) /\ same_evaluator e e' /\
  (exists log', remembers e' l' log' /\
     (log' ⊆ log \/ exists s, seq = Some s /\ gen = e_generation e /\ grows (s, values) log log')) /\
  match x with Ok v => reports e e' v | Err _ => triggered e ⊆ triggered e' end.
Proof.
  intros Ho Hr. unfold evaluate. assert (Hn : forall v, events v = [] -> reports e e v) by (intros v; by apply reports_nothing).
  assert (Hl : exists log', remembers e l log' /\ (log' ⊆ log \/ exists s, seq = Some s /\ gen = e_generation e /\ grows (s, values) log log')).
  { exists log. split; [done|by left]. }
  destruct (runtime e) as [h|] eqn:Eh; [|by split_and!].
  destruct (Z.eqb_spec gen (e_generation e)) as [Eg|]; cbn [negb]; [|by split_and!; try apply Hn].
  destruct seq as [s|]; [|by split_and!]. destruct (_ || _); [by split_and!|]. destruct (negb _); [by split_and!|].
  cbv zeta. destruct (_ || _); [by split_and!; try apply Hn|].
  pose proof (evaluate_new_spec base e l log values s Ho Hr (ex_intro _ h Eh)) as R.
  destruct (evaluate_new values s (e, l)) as [x [e' l']]. destruct R as (R1 & R2 & R3 & R4 & (log' & R5 & R6) & R7).
  split_and!; try done. exists log'. split; [done|]. right. by exists s.
Qed.

(** Calls of [evaluate], with what each returned *)
Fixpoint evaluations (cs : list (bytes * Z * option Z)) (st : evaluator * Lib) : list (result evaluation) * (evaluator * Lib) :=
  match cs with
  | [] => ([], st)
  | (values, gen, seq) :: cs =>
      let '(x, st) := evaluate values gen seq st in
      let '(xs, st) := evaluations cs st in (x :: xs, st)
  end.

(** The snapshots of a log were given by the calls [cs]. *)
Definition given (gen : Z) (cs : list (bytes * Z * option Z)) (log : list (Z * bytes)) : Prop :=
  forall s values, (s, values) ∈ log -> (values, gen, Some s) ∈ cs.

Lemma evaluations_spec base cs cs0 e l log : owns base e l -> remembers e l log -> given (e_generation e) cs0 log ->
  let '(xs, (e', l')) := evaluations cs (e, l) in
  rtc call l l' /\ owns base e' l' /\ same_evaluator e e' /\
  (exists log', remembers e' l' log' /\ given (e_generation e) (cs0 ++ cs) log') /\ triggered e ⊆ triggered e' /\
  forall v, Ok v ∈ xs -> forall id, id ∈ triggers v -> id ∉ triggered e.
Proof.
  revert cs0 e l log. induction cs as [|[[values gen] seq] cs IH]; intros cs0 e l log Ho Hr Hg; cbn [evaluations].
  { split_and!; try done; [exists log; by rewrite app_nil_r|]. intros v Hv. by apply not_elem_of_nil in Hv. }
  pose proof (evaluate_spec base e l log values gen seq Ho Hr) as R. destruct (evaluate values gen seq (e, l)) as [x [e1 l1]].
  destruct R as (R1 & R2 & _ & R3 & (log1 & R4 & R5) & R6). pose proof R3 as (D1 & D2 & D3).
  assert (Hg1 : given (e_generation e1) (cs0 ++ [(values, gen, seq)]) log1).
  { intros s vs Hin. rewrite D3. apply elem_of_app. destruct R5 as [Hsub|(s' & -> & -> & Hgr)]; [left; by apply Hg, Hsub|].
    destruct Hgr as [->|[->|[->| ->]]]; [left; by apply Hg|by apply not_elem_of_nil in Hin| |].
    - apply elem_of_app in Hin as [Hin|[= -> ->]%list_elem_of_singleton]; [left; by apply Hg|right; by left].
    - apply list_elem_of_singleton in Hin as [= -> ->]. right. by left. }
  specialize (IH _ _ _ _ R2 R4 Hg1). destruct (evaluations cs (e1, l1)) as [xs [e2 l2]].
  destruct IH as (I1 & I2 & I3 & (log2 & I4 & I5) & I6 & I7).
  assert (Ht : triggered e ⊆ triggered e1) by (destruct x; [apply R6|done]).
  split_and!; [by etrans|done|by eapply same_evaluator_trans| |set_solver|].
  - exists log2. split; [done|]. rewrite <- app_assoc in I5. cbn in I5. by rewrite <- D3.
  - intros v [<-|Hv]%elem_of_cons id Hid; [by apply R6|]. specialize (I7 v Hv id Hid). set_solver.
Qed.

Lemma new_evaluator_spec defs file gen l :
  let '(x, l') := new_evaluator defs file gen l in
  rtc call l l' /\
  match x with
  | Ok e => owns (live l) e l' /\ remembers e l' [] /\ e_generation e = gen /\ validate_watchlist file = Ok (e_watch e) /\ is_Some (runtime e)
  | Err _ => same_runtimes l l'
  end.
Proof.
  unfold new_evaluator. cbv zeta. destruct (gen <? 1); [by split|]. destruct (_ || _); [by split|].
  destruct (encode_definitions defs) as [encoded|]; cbn [mbind result_bind]; [|by split]. destruct (_ <? _); [by split|].
  destruct (validate_watchlist file) as [w|]; cbn [mbind result_bind]; [|by split].
  pose proof (allocate_spec encoded ∅ l) as Ha. destruct (allocate encoded ∅ l) as [[h|] l1]; destruct Ha as [Hc Ha]; [|done].
  destruct Ha as (A1 & A2 & A3 & _). split; [done|]. split_and!; try done.
Qed.

(** Making an evaluator, any evaluations and closing it call the library on runtimes there are
    only, and leave it the runtimes it had: none is leaked, also where a step raises. *)
Theorem evaluator_releases defs file gen l :
  let '(x, l1) := new_evaluator defs file gen l in
  rtc call l l1 /\
  match x with
  | Err _ => live l1 = live l
  | Ok e => forall cs,
      let '(e2, l2) := snd (evaluations cs (e, l1)) in
      let '(e3, l3) := close_evaluator e2 l2 in
      rtc call l1 l3 /\ live l3 = live l /\ runtime e3 = None
  end.
Proof.
  pose proof (new_evaluator_spec defs file gen l) as Hn. destruct (new_evaluator defs file gen l) as [[e|x] l1]; destruct Hn as [Hc Hn].
  2: { split; [done|apply Hn]. }
  split; [done|]. intros cs. destruct Hn as (N1 & N2 & _).
  pose proof (evaluations_spec _ cs [] e l1 [] N1 N2) as Hs. destruct (evaluations cs (e, l1)) as [xs [e2 l2]]. cbn [snd].
  destruct Hs as (S1 & S2 & _); [intros s v Hin; by apply not_elem_of_nil in Hin|].
  unfold close_evaluator, owns in *. destruct (runtime e2) as [h|] eqn:Eh; [|by split_and!].
  destruct S2 as [O1 O2]. destruct (destroy_live h l2) as [D1 _]. split_and!; [|rewrite D1, O2; set_solver|done].
  eapply rtc_r; [done|]. apply call_destroy. set_solver.
Qed.

(** C25. The frames that the runtime of an evaluator has seen are snapshots it was given for its own
    watch list, with consecutive numbers: no condition sees a frame from before a gap. *)
Theorem history_consecutive defs file gen l e l1 cs e2 l2 h :
  new_evaluator defs file gen l = (Ok e, l1) -> snd (evaluations cs (e, l1)) = (e2, l2) -> runtime e2 = Some h ->
  exists log, frames l2 h = map (fun sv => peek (reads (e_watch e) (snd sv))) log /\ consecutive log /\ given gen cs log.
Proof.
  intros En Ec Eh. pose proof (new_evaluator_spec defs file gen l) as Hn. rewrite En in Hn. destruct Hn as (_ & N1 & N2 & <- & _).
  pose proof (evaluations_spec _ cs [] e l1 [] N1 N2) as Hs. destruct (evaluations cs (e, l1)) as [xs st]. cbn [snd] in Ec. subst st.
  destruct Hs as (_ & _ & (_ & Ew & _) & (log & [Hf [Hc _]] & Hg) & _); [intros s v Hin; by apply not_elem_of_nil in Hin|].
  rewrite Eh, Ew in Hf. by exists log.
Qed.

Lemma evaluations_once base cs e l log : owns base e l -> remembers e l log ->
  forall i j v w, (i < j)%nat -> fst (evaluations cs (e, l)) !! i = Some (Ok v) -> fst (evaluations cs (e, l)) !! j = Some (Ok w) ->
  forall id, id ∈ triggers v -> id ∉ triggers w.
Proof.
  revert e l log. induction cs as [|[[values gen] seq] cs IH]; intros e l log Ho Hr i j v w Hij; cbn [evaluations]; [done|].
  pose proof (evaluate_spec base e l log values gen seq Ho Hr) as R. destruct (evaluate values gen seq (e, l)) as [x [e1 l1]].
  destruct R as (_ & R2 & _ & _ & (log1 & R4 & _) & R6). specialize (IH e1 l1 log1 R2 R4).
  assert (exists cs0, given (e_generation e1) cs0 log1) as [cs0 Hg].
  { exists (map (fun sv => (snd sv, e_generation e1, Some (fst sv))) log1). intros s vs Hin.
    apply list_elem_of_In, in_map_iff. exists (s, vs). split; [done|by apply list_elem_of_In]. }
  pose proof (evaluations_spec base cs cs0 e1 l1 log1 R2 R4 Hg) as Hs.
  destruct (evaluations cs (e1, l1)) as [xs [e2 l2]]. destruct Hs as (_ & _ & _ & _ & _ & Hnew). cbn [fst] in *.
  destruct j as [|j]; [lia|]. destruct i as [|i]; cbn; intros Hv Hw id Hid.
  - injection Hv as ->. intros Hin. apply (Hnew w) in Hin; [|by eapply list_elem_of_lookup_2]. destruct R6 as [_ R6]. by apply Hin, R6.
  - apply (IH i j v w); [lia|done..].
Qed.

(** An achievement is reported by one evaluation at most, whatever the runtime reports. *)
Theorem triggered_once defs file gen l e l1 cs i j v w id :
  new_evaluator defs file gen l = (Ok e, l1) -> (i < j)%nat ->
  fst (evaluations cs (e, l1)) !! i = Some (Ok v) -> fst (evaluations cs (e, l1)) !! j = Some (Ok w) ->
  id ∈ triggers v -> id ∉ triggers w.
Proof.
  intros En Hij Hv Hw. pose proof (new_evaluator_spec defs file gen l) as Hn. rewrite En in Hn. destruct Hn as (_ & N1 & N2 & _).
  by apply (evaluations_once _ cs e l1 [] N1 N2 i j v w).
Qed.
End facts.

(** ** Every frame is evaluated, no runtime is leaked

    In every run of the evaluated receiver the evaluator is the one of the watch list that the
    console has, so that each frame the receiver hands on is evaluated by it; and the library
    has at most the one runtime of the evaluator more than before. *)

(** ** The generations of a session *)

(** The watch list is the same, or it was cleared in a later generation. *)
Definition keeps_watch (s s' : watch_session) : Prop :=
  (generation s' = generation s /\ watch s' = watch s) \/ (generation s < generation s' /\ watch s' = None).

Lemma keeps_watch_refl s : keeps_watch s s.
Proof. by left. Qed.
Lemma keeps_watch_trans s1 s2 s3 : keeps_watch s1 s2 -> keeps_watch s2 s3 -> keeps_watch s1 s3.
Proof.
  intros [[A1 A2]|[A1 A2]] [[B1 B2]|[B1 B2]]; [left; split; congruence|right; split; [lia|done]| |right; split; [lia|done]].
  right. split; [lia|congruence].
Qed.
Lemma keeps_watch_clear s : keeps_watch s (clear_watch s).
Proof. right. cbn. split; [lia|done]. Qed.

Definition on_watch (r r' : receiver) : Prop := keeps_watch (session r) (session r').

Lemma on_watch_clear r : on_watch r (clear r).
Proof. apply keeps_watch_clear. Qed.
Lemma on_watch_expire now r : on_watch r (expire now r).
Proof. unfold expire. repeat case_match; try apply keeps_watch_refl; apply on_watch_clear. Qed.
Lemma on_watch_roll now r : on_watch r (roll_window now r).
Proof. unfold roll_window. case_match; apply keeps_watch_refl. Qed.
Lemma on_watch_take_jobs now r : on_watch r (snd (take_jobs now r)).
Proof. apply on_watch_expire. Qed.
Lemma on_watch_ask id now r : on_watch r (ask_for id now r).
Proof. unfold ask_for. case_match; [apply keeps_watch_clear|apply keeps_watch_refl]. Qed.

Lemma feed_session_watch packet t s :
  watch (snd (feed_session packet t s)) = watch s /\ generation (snd (feed_session packet t s)) = generation s.
Proof. unfold feed_session. destruct (assembling s); [|done]. by destruct (feed packet t a). Qed.

Lemma on_watch_telemetry packet src now fed r : on_watch r (snd (receive_telemetry packet src now fed r)).
Proof.
  unfold receive_telemetry. destruct (owner r); [|apply keeps_watch_refl]. destruct (watch (session r)) eqn:Ew; [|apply keeps_watch_refl].
  destruct (negb _); [apply keeps_watch_refl|]. destruct (feed_session_watch packet fed (session r)) as [F1 F2].
  destruct (feed_session packet fed (session r)) as [[[v|]|e] s]; by left.
Qed.

Lemma on_watch_request q src now r : on_watch r (snd (receive_request q src now r)).
Proof.
  unfold receive_request. destruct (_ && _); [apply keeps_watch_refl|]. cbv zeta.
  set (dest := if advertised_replies r then _ else _). set (b := set_field reply_to _ _).
  assert (Hb : session b = session r) by (subst b; by destruct (owner r)). unfold on_watch. rewrite <- Hb. clearbody b.
  destruct (existsb _ _); [cbn [snd]; destruct (str_eqb _ _); apply keeps_watch_refl|].
  destruct (str_eqb (kind q) (lit "RAP1")); [apply keeps_watch_refl|]. destruct (str_eqb (kind q) (lit "RAG1")).
  - unfold receive_chunk. repeat case_match; simplify_eq; apply keeps_watch_refl.
  - unfold receive_query. cbv zeta. case_bool_decide; [destruct (unsupported b); apply keeps_watch_refl|apply on_watch_ask].
Qed.

Lemma on_watch_receive now fed packet peer r : on_watch r (snd (receive now fed packet peer r)).
Proof.
  unfold receive. cbv zeta. set (b := roll_window now (expire now r)).
  assert (Hb : on_watch r b) by (eapply keeps_watch_trans; [apply on_watch_expire|apply on_watch_roll]).
  destruct (source_of peer) as [src|]; [|done]. destruct (match owner b with Some _ => _ | None => _ end); [done|].
  set (c := b <| datagrams ::= Z.add 1 |>). destruct (256 <? datagrams c); [done|].
  assert (Hc : forall r', on_watch c r' -> on_watch r r') by (intros r' Hr'; eapply keeps_watch_trans; [exact Hb|exact Hr']).
  destruct (startswith packet _).
  - pose proof (on_watch_telemetry packet src now fed c) as Ht. destruct (receive_telemetry packet src now fed c). by apply Hc.
  - destruct (_ <? _); [done|]. destruct (parse_request packet (Some peer)) as [q|]; [|done].
    set (d := c <| requests ::= Z.add 1 |>). assert (Hd : session d = session c) by done. apply Hc.
    pose proof (on_watch_request q src now d) as Hq. unfold on_watch in *. by rewrite Hd in Hq.
Qed.

(** What [complete] does to the session: a file that is accepted is the next generation. *)
Lemma complete_watch `{Normalize} now j c r :
  let '(x, r') := complete now j c r in
  match x, c_file c with
  | Ok true, Some file => generation (session r') = generation (session r) + 1 /\
      exists w, validate_watchlist file = Ok w /\ watch (session r') = Some w
  | _, _ => on_watch r r'
  end.
Proof.
  pose proof (on_watch_expire now r) as He. unfold complete. cbv zeta.
  case_bool_decide as Ep; cbn [negb orb]; [|by destruct (c_file c)].
  assert (Hs : session (expire now r) = session r).
  { unfold expire in *. repeat case_match; try done; cbn in Ep; done. }
  set (b := expire now r) in *. clearbody b. destruct (_ =? _); cbn [negb]; [|by destruct (c_file c)].
  cbv [mbind M_bind mmod mret M_ret]. destruct (c_file c) as [file|]; [|exact He]. unfold publish.
  destruct (c_unsupported c); [exact He|]. destruct (validate_watchlist file) as [w|] eqn:Ew; [|exact He].
  destruct (_ || _); [exact He|]. unfold install. cbv zeta.
  destruct (IMAGE_HASH _); cbn [negb]; [|exact He]. destruct (SERIAL _); cbn [negb]; [|exact He]. rewrite Ew.
  cbn [mbind result_bind]. destruct (new_assembler _ _ _ _); cbn [mbind result_bind]; [|exact He].
  cbn. rewrite Hs. split; [lia|by exists w].
Qed.

(** ** The invariant *)

Section facts.
Context {Lib : Type} `{RcheevosLaws Lib} `{Normalize} (base : gset Z).
Abbreviation E := (ereceiver * Lib)%type.

(** [e] has the one runtime besides those of [base], and what it saw is consecutive. *)
Definition eval_ok (e : evaluator) (l : Lib) : Prop := owns base e l /\ is_Some (runtime e) /\ exists log, remembers e l log.

(** A watch list is that of the evaluator, in its generation. *)
Definition bound (e : evaluator) (s : watch_session) : Prop :=
  forall w, watch s = Some w -> e_generation e = generation s /\ e_watch e = w.

Definition settled (s : E) : Prop :=
  (exists ins outs, sound ins outs (er_receiver (fst s))) /\
  (er_closed (fst s) = true -> er_evaluator (fst s) = None) /\
  match er_evaluator (fst s) with
  | Some e => eval_ok e (snd s) /\ bound e (session (er_receiver (fst s)))
  | None => live (snd s) = base /\ watch (session (er_receiver (fst s))) = None
  end.

(** After [_reconcile] the evaluator is the one of the watch list. *)
Definition matched (s : E) : Prop :=
  settled s /\
  match er_evaluator (fst s) with
  | Some e => e_generation e = generation (session (er_receiver (fst s))) /\ watch (session (er_receiver (fst s))) = Some (e_watch e)
  | None => True
  end.

Lemma close_spec e l : eval_ok e l ->
  rtc call l (snd (close_evaluator e l)) /\ live (snd (close_evaluator e l)) = base.
Proof.
  intros (Ho & [h Eh] & _). unfold close_evaluator, owns in *. rewrite Eh in *. destruct Ho as [O1 O2]. cbn.
  destruct (destroy_live h l) as [D1 _]. split; [|rewrite D1, O2; set_solver]. apply rtc_once, call_destroy. set_solver.
Qed.

Lemma reconcile_spec s : settled s ->
  matched (reconcile s) /\ rtc call (snd s) (snd (reconcile s)) /\ er_receiver (fst (reconcile s)) = er_receiver (fst s).
Proof.
  destruct s as [r l]. intros Hs. pose proof Hs as (S1 & S2 & S3). unfold reconcile. cbn [fst snd] in *.
  destruct (er_evaluator r) as [e|] eqn:Ee; [|split_and!; [split; [done|cbn; by rewrite Ee]|done..]]. destruct S3 as [He Hb].
  destruct (close_spec e l He) as [C1 C2]. destruct (watch (session (er_receiver r))) as [w|] eqn:Ew.
  - destruct (Hb w Ew) as [Eg <-]. rewrite Eg, Z.eqb_refl. cbn [negb]. split_and!; [|done..]. split; [done|]. cbn. by rewrite Ee.
  - split_and!; [|exact C1|done]. split; [|done]. split_and!; done.
Qed.

(** The receiver goes on without a new watch list. *)
Lemma settled_receiver s r : settled s -> on_watch (er_receiver (fst s)) r -> (exists ins outs, sound ins outs r) ->
  settled ((fst s) <| er_receiver := r |>, snd s).
Proof.
  intros (S1 & S2 & S3) Hw Hr. split; [done|]. split; [done|]. cbn. destruct (er_evaluator (fst s)) as [e|].
  - destruct S3 as [He Hb]. split; [done|]. intros w Ew. destruct Hw as [[W1 W2]|[W1 W2]]; [|congruence].
    rewrite W1. apply Hb. congruence.
  - destruct S3 as [S3 Hn]. split; [done|]. destruct Hw as [[W1 W2]|[W1 W2]]; congruence.
Qed.

Abbreviation stays := (Triples.stays (snd : E -> Lib) settled call).
Abbreviation stable m := (stays (fun _ => True) m).

Lemma stays_steps {A} (m : M E A) :
  (forall s, settled s -> settled (snd (m s)) /\ rtc call (snd s) (snd (snd (m s)))) -> stable m.
Proof. intros Hm. apply stays_iff. intros s Hs. destruct (Hm s Hs). by split_and!. Qed.

Lemma stays_check_open : stays (fun _ => True) (check_open : M E unit).
Proof. apply stays_iff. intros s Hs. split_and!; [done|apply rtc_refl|done]. Qed.

Lemma stays_reconcile f : (forall s, settled s -> settled (f s) /\ snd (f s) = snd s) ->
  stable (mmod (fun s => reconcile (f s)) : M E unit).
Proof.
  intros Hf. apply stays_iff. intros s Hs. destruct (Hf s Hs) as [H1' H2']. destruct (reconcile_spec (f s) H1') as ([R1 _] & R2 & _).
  cbn. split_and!; [done|by rewrite <- H2'|done].
Qed.

(** An operation of the receiver that brings no watch list *)
Lemma stays_at_receiver {A} (m : M receiver A) :
  (forall ins outs r, sound ins outs r -> on_watch r (snd (m r)) /\ exists ins outs, sound ins outs (snd (m r))) ->
  stable (at_receiver m : M E A).
Proof.
  intros Hm. apply stays_iff. intros s Hs. unfold at_receiver. pose proof Hs as [(ins & outs & S1) _].
  destruct (Hm ins outs _ S1) as [M1 M2]. destruct (m (er_receiver (fst s))) as [x r]. cbn [fst snd] in *.
  split_and!; [|apply rtc_refl|done]. by apply settled_receiver.
Qed.

Lemma stays_evaluate o : stable (e_evaluate o : M E (option evaluation)).
Proof.
  apply stays_iff. intros s Hs. unfold e_evaluate. pose proof Hs as (S1 & S2 & S3).
  destruct (er_evaluator (fst s)) as [e|] eqn:Ee; [|by split_and!; [|apply rtc_refl|]].
  destruct (nonempty (values o)); [|by split_and!; [|apply rtc_refl|]]. destruct S3 as [(Ho & Hrt & log & Hl) Hb].
  unfold evaluate_frame. pose proof (evaluate_spec base e (snd s) log (values o) (o_generation o) (o_sequence o) Ho Hl) as R.
  destruct (evaluate _ _ _ _) as [x [e' l']]. destruct R as (R1 & R2 & R3 & (D1 & D2 & D3) & (log' & R5 & _) & _). cbn [fst snd].
  split_and!; [|exact R1|done]. split; [done|]. split; [cbn; intros Hc; apply S2 in Hc; congruence|]. cbn. split.
  - split_and!; [done|by apply R3|by exists log'].
  - intros w Hw. rewrite D2, D3. by apply Hb.
Qed.

(** Without an evaluator *)
Definition empty_handed (s : E) : Prop := (exists ins outs, sound ins outs (er_receiver (fst s))) /\ er_evaluator (fst s) = None /\
  live (snd s) = base /\ watch (session (er_receiver (fst s))) = None.

Lemma empty_settled s : empty_handed s -> settled s.
Proof. intros (S1 & S2 & S3 & S4). split; [done|]. split; [done|]. by rewrite S2. Qed.

Lemma complete_file_spec now j p file s : empty_handed s -> er_closed (fst s) = false -> c_file (p_completion p) = Some file ->
  settled (snd (complete_file now j p file s)) /\ rtc call (snd s) (snd (snd (complete_file now j p file s))).
Proof.
  destruct s as [r l]. intros ((ins & outs & S1) & S2 & S3 & S4) Hcl Ef. unfold complete_file, try_candidate. cbn [fst snd] in *.
  pose proof (new_evaluator_spec (p_definitions p) file (generation (session (er_receiver r)) + 1) l) as Hn.
  destruct (new_evaluator _ _ _ l) as [[e|x] l1]; destruct Hn as [N1 N2].
  2: { assert (Hc : empty_handed (with_receiver clear (r, l1))).
       { split_and!; [|done|cbn; by rewrite (proj1 N2)|done]. exists ins, outs. by apply (sound_clear ins outs (er_receiver r)). }
       destruct (reconcile_spec _ (empty_settled _ Hc)) as ([R1 _] & R2 & _). cbn [snd] in *. split; [done|]. by etrans. }
  destruct N2 as (N2 & N3 & N4 & N5 & N6). unfold at_receiver. cbn [fst snd].
  pose proof (complete_watch now j (p_completion p) (er_receiver r)) as Hw.
  pose proof (sound_complete now j (p_completion p) ins outs (er_receiver r) S1) as [Hs _].
  destruct (complete now j (p_completion p) (er_receiver r)) as [x r']. cbn [fst snd] in *.
  assert (He : eval_ok e l1) by (rewrite S3 in N2; split_and!; [done|done|by exists []]). destruct (close_spec e l1 He) as [C1 C2].
  rewrite Ef in Hw. destruct x as [[|]|x].
  - destruct Hw as (W1 & w & W2 & W3). cbn. rewrite S2. cbn. split; [|done]. split; [by exists ins, outs|]. split; [cbn; congruence|].
    cbn. split; [done|]. intros w' Hw'. cbn in *. split; congruence.
  - cbn. split; [|by etrans]. apply empty_settled. split_and!; [by exists ins, outs|done|done|].
    destruct Hw as [[_ Hw]|[_ Hw]]; cbn; congruence.
  - cbn. rewrite S2. cbn. split; [|by etrans]. apply empty_settled.
    split_and!; [exists ins, outs; by apply (sound_clear ins outs r')|done..].
Qed.

Lemma e_tick_spec now s : settled s ->
  let '(x, s') := e_tick now s in
  settled s' /\ rtc call (snd s) (snd s') /\ er_closed (fst s') = er_closed (fst s) /\
  match x with
  | Ok _ => er_closed (fst s) = false /\ matched s'
  | Err e => e = RuntimeError /\ er_closed (fst s) = true /\ s' = s
  end.
Proof.
  intros Hs. unfold e_tick, check_open. cbv [mbind M_bind mmod]. destruct (er_closed (fst s)) eqn:Ec; [by split_and!|].
  pose proof Hs as [(ins & outs & S1) _].
  assert (Hr : settled (with_receiver (tick now) s)).
  { apply (settled_receiver s); [done|apply on_watch_expire|]. exists ins, outs. by apply sound_expire. }
  destruct (reconcile_spec _ Hr) as (R1 & R2 & R3). split_and!; [apply R1|exact R2| |done|done].
  unfold reconcile. destruct (with_receiver _ s) as [r l] eqn:E0. injection E0 as <- <-. cbn.
  destruct (er_evaluator (fst s)); [|done]. by destruct (match watch _ with Some _ => _ | None => _ end).
Qed.

Lemma complete_sound_on_watch now j c ins outs r : c_file c = None -> sound ins outs r ->
  on_watch r (snd (complete now j c r)) /\ exists ins outs, sound ins outs (snd (complete now j c r)).
Proof.
  intros Ef Hs. split; [|exists ins, outs; by apply sound_complete]. pose proof (complete_watch now j c r) as Hw. rewrite Ef in Hw.
  destruct (complete now j c r) as [[[|]|] r']; done.
Qed.

Lemma stays_complete now now' j p : stable (e_complete now now' j p : M E bool).
Proof.
  apply stays_steps. intros s Hs.
  assert (Hm : let '(x, s') := e_complete now now' j p s in settled s' /\ rtc call (snd s) (snd s')).
  2: { by destruct (e_complete now now' j p s). }
  unfold e_complete. unfold mbind at 1, M_bind at 1.
  pose proof (e_tick_spec now s Hs) as Ht. destruct (e_tick now s) as [[[]|x] s1]; destruct Ht as (T1 & T2 & T3 & T4); [|done].
  destruct T4 as [Hcl Hm]. unfold mbind at 1, M_bind at 1. cbn [mget].
  case_bool_decide as Ep; [|done]. cbn [negb orb]. destruct (_ =? _); [|done]. cbn [negb].
  destruct (c_file (p_completion p)) as [file|] eqn:Ef.
  - pose proof T1 as ((ins & outs & S1) & S2 & S3). destruct (so_pending _ _ _ S1 j Ep) as (Hw & _).
    assert (Hnone : er_evaluator (fst s1) = None).
    { destruct Hm as [_ Hm]. destruct (er_evaluator (fst s1)); [|done]. destruct Hm. congruence. }
    rewrite Hnone in S3. destruct (complete_file_spec now' j p file s1) as [C1 C2]; [|congruence|done|].
    + split_and!; [by exists ins, outs|done|by destruct S3..].
    + destruct (complete_file now' j p file s1) as [x s2]. split; [done|by etrans].
  - assert (Hst : stable (accepted ← at_receiver (complete now' j (p_completion p)); _ ← mmod reconcile; mret accepted : M E bool)).
    { eapply stays_bind; [apply stays_at_receiver; intros ins outs r Hr; by apply (complete_sound_on_watch _ _ _ ins outs)|].
      intros b _. eapply stays_bind; [apply (stays_reconcile (fun s => s)); done|]. intros _ _. by apply stays_ret. }
    destruct (proj1 (stays_iff _ _) Hst s1 T1) as (H1' & H2' & H3').
    match goal with |- let '(x, s') := ?m in _ => destruct m as [x s2] end. split; [done|by etrans].
Qed.

Lemma stays_tick now : stable (e_tick now : M E unit).
Proof.
  apply stays_steps. intros s Hs. pose proof (e_tick_spec now s Hs) as Ht. destruct (e_tick now s) as [x s'].
  by destruct Ht as (T1 & T2 & _).
Qed.

Lemma stays_take_jobs now now' : stable (e_take_jobs now now' : M E (option job)).
Proof.
  eapply stays_bind; [apply stays_tick|]. intros _ _. apply stays_at_receiver. intros ins outs r Hr.
  pose proof (on_watch_take_jobs now' r) as Hw. pose proof (sound_take_jobs now' ins outs r Hr) as Hs.
  destruct (take_jobs now' r) as [j r']. split; [exact Hw|by exists ins, outs].
Qed.

Lemma sound_receive now fed packet peer ins outs r : sound ins outs r ->
  on_watch r (snd (receive now fed packet peer r)) /\ exists ins outs, sound ins outs (snd (receive now fed packet peer r)).
Proof.
  intros Hs. split; [apply on_watch_receive|]. destruct (receive_answers now fed packet peer ins outs r Hs) as (o & _ & S & _). eauto.
Qed.

Lemma stays_e_receive now fed packet peer : stable (e_receive now fed packet peer : M E eoutput).
Proof.
  unfold e_receive. eapply stays_bind; [apply stays_check_open|]. intros _ _.
  eapply stays_bind; [apply stays_at_receiver; intros ins outs r; apply sound_receive|]. intros o _.
  eapply stays_bind; [apply (stays_reconcile (fun s => s)); done|]. intros _ _.
  eapply stays_bind; [apply stays_evaluate|]. intros v _.
  eapply stays_bind; [apply stays_mget|]. intros r _.
  eapply stays_bind; [apply stays_lift|]. intros ns _. by apply stays_ret.
Qed.

(** [clear] revokes the evaluator. *)
Lemma reset_spec_empty s : settled s ->
  let s' := reconcile (with_receiver clear s) in
  empty_handed s' /\ rtc call (snd s) (snd s').
Proof.
  intros Hs s'. pose proof Hs as [(ins & outs & S1) _].
  assert (Hr : settled (with_receiver clear s)).
  { apply (settled_receiver s); [done|apply on_watch_clear|]. exists ins, outs. by apply (sound_clear ins outs (er_receiver (fst s))). }
  destruct (reconcile_spec _ Hr) as ([R1 R1'] & R2 & R3). fold s' in R1, R1', R2, R3.
  assert (Hn : er_evaluator (fst s') = None).
  { destruct (er_evaluator (fst s')); [|done]. rewrite R3 in R1'. by destruct R1'. }
  split; [|exact R2]. destruct R1 as (R1 & _ & R4). rewrite Hn in R4. by destruct R4.
Qed.

Lemma stays_reset : stable (e_reset : M E unit).
Proof.
  unfold e_reset. eapply stays_bind; [apply stays_check_open|]. intros _ _. apply stays_steps. intros s Hs.
  destruct (reset_spec_empty s Hs) as [R1 R2].
  split; [apply empty_settled; destruct R1 as (? & ? & ? & ?); by split_and!|done].
Qed.

Lemma e_close_spec s : settled s ->
  let s' := snd (e_close s) in
  settled s' /\ rtc call (snd s) (snd s') /\ live (snd s') = base.
Proof.
  intros Hs. unfold e_close. destruct (er_closed (fst s)) eqn:Ec.
  - pose proof Hs as (_ & S2 & S3). rewrite (S2 Ec) in S3. by destruct S3.
  - unfold e_reset, check_open. cbv [mbind M_bind mmod]. rewrite Ec. destruct (reset_spec_empty s Hs) as [R1 R2].
    split; [apply empty_settled; destruct R1 as (? & ? & ? & ?); by split_and!|]. split; [done|]. by destruct R1 as (_ & _ & ? & _).
Qed.

(** ** Runs *)

Inductive eevent :=
  | EReceive (now fed : Z) (packet : bytes) (peer : text * Z)
  | ETick (now : Z)
  | ETakeJobs (now now' : Z)
  | EComplete (now now' : Z) (j : job) (p : published)
  | EReset.

Definition estep (ev : eevent) (s : E) : E :=
  match ev with
  | EReceive now fed packet peer => snd (e_receive now fed packet peer s)
  | ETick now => snd (e_tick now s)
  | ETakeJobs now now' => snd (e_take_jobs now now' s)
  | EComplete now now' j p => snd (e_complete now now' j p s)
  | EReset => snd (e_reset s)
  end.

Lemma estep_spec ev s : settled s -> settled (estep ev s) /\ rtc call (snd s) (snd (estep ev s)).
Proof.
  intros Hs. destruct ev as [now fed packet peer|now|now now'|now now' j p|]; cbn [estep].
  - destruct (proj1 (stays_iff _ _) (stays_e_receive now fed packet peer) s Hs) as (? & ? & _). done.
  - destruct (proj1 (stays_iff _ _) (stays_tick now) s Hs) as (? & ? & _). done.
  - destruct (proj1 (stays_iff _ _) (stays_take_jobs now now') s Hs) as (? & ? & _). done.
  - destruct (proj1 (stays_iff _ _) (stays_complete now now' j p) s Hs) as (? & ? & _). done.
  - destruct (proj1 (stays_iff _ _) stays_reset s Hs) as (? & ? & _). done.
Qed.

Lemma esteps_spec evs s : settled s -> settled (foldl (fun s ev => estep ev s) s evs) /\
  rtc call (snd s) (snd (foldl (fun s ev => estep ev s) s evs)).
Proof.
  revert s. induction evs as [|ev evs IH]; intros s Hs; [done|]. cbn [foldl]. destruct (estep_spec ev s Hs) as [H1' H2'].
  destruct (IH _ H1') as [H3' H4']. split; [done|by etrans].
Qed.
End facts.

(** A frame has a number and one of the sizes of its list. *)
Lemma one_frame_number a sq fd v : one_frame a sq (parts_of fd) v -> 0 <= sq < SEQUENCE_MODULUS /\ zlen v ∈ a_sizes a.
Proof.
  intros (old & cur & vs & E & _ & Hz & Hne & H1 & _). split; [|done]. destruct vs as [|d vs]; [done|].
  destruct (H1 0%nat d eq_refl) as (q & Hq & (_ & _ & <-) & _). pose proof (parts_valid fd) as Hv.
  eapply (proj1 (Forall_forall _ _) Hv q). rewrite E. apply elem_of_app. by right.
Qed.

(** ** The way of a frame *)

Section way.
Context {Lib : Type} `{RcheevosLaws Lib} `{Normalize}.
Abbreviation E := (ereceiver * Lib)%type.

(** The runtime that a frame is given to: the one there is for the next frame, a new one after a
    gap, when the old one is released. *)
Definition frame_runtime (e : evaluator) (sq : Z) (l : Lib) (h : Z) (l1 : Lib) : Prop :=
  (delta e sq = 1 /\ runtime e = Some h /\ l1 = l) \/
  (1 < delta e sq < 500000 /\ exists old l', runtime e = Some old /\
     allocate (definitions e) (triggered e) l = (Ok h, l') /\ l1 = rt_destroy old l').

(** What the runtime asked for and the frame does not have, in order *)
Definition unanswered (seen : memory) (asked : list (Z * Z)) : list (Z * Z) :=
  sorted pair_leb (elements (list_to_set (List.filter (fun k => match seen !! k with Some _ => false | None => true end) asked) : gset (Z * Z))).

(** What comes of a frame for which the runtime [h] reported [evs] and asked for [asked]: an
    evaluation with the triggers that were not reported before, which are then remembered; or,
    when memory is missing, none, and a new runtime. *)
Definition frame_outcome (e : evaluator) (sq : Z) (seen : memory) (h : Z) (evs : list (Z * Z * Z)) (asked : list (Z * Z)) (l : Lib) :
    result evaluation * (evaluator * Lib) :=
  let e' := e <| runtime := Some h |> <| e_sequence := Some sq |> in
  if bool_decide (unanswered seen asked = []) then
    let fresh := List.filter (fun x => negb (is_trigger x) || negb (bool_decide (ev_id x ∈ triggered e))) evs in
    (Ok (Evaluation true fresh (negb (delta e sq =? 1)) []),
     (e' <| triggered := list_to_set (map ev_id (List.filter is_trigger fresh)) ∪ triggered e |>, l))
  else
    match allocate (definitions e) (triggered e) l with
    | (Ok h', l) => (Ok (Evaluation false [] true (unanswered seen asked)), (e' <| runtime := Some h' |>, rt_destroy h l))
    | (Err x, l) => (Err x, (e', l))
    end.

(** What the receiver makes of an evaluation: its answer with the notices, and its state *)
Definition answer_frame (o : output) (r : receiver) (s : E) (out : result evaluation * (evaluator * Lib)) : result eoutput * E :=
  let '(v, (e, l)) := out in
  ((v ← v; ns ← format_notices (er_profile (fst s)) (er_metadata (fst s)) (triggers v); Ok (EOutput o (Some v) ns)),
   ((fst s) <| er_receiver := r |> <| er_evaluator := Some e |>, l)).

Lemma evaluate_new_outcome e l sq values h l1 evs asked l2 : frame_runtime e sq l h l1 ->
  rt_do_frame h (peek (reads (e_watch e) values)) l1 = ((evs, asked), l2) ->
  evaluate_new values sq (e, l) = frame_outcome e sq (reads (e_watch e) values) h evs asked l2.
Proof.
  intros Hrt Hf. assert (Hm : mwhen (negb (delta e sq =? 1)) reset_runtime (e, l) = (Ok tt, (e <| runtime := Some h |>, l1))).
  { unfold mwhen. destruct Hrt as [(-> & Eh & ->)|(Hd & old & l' & Eo & Ea & ->)].
    - destruct e. cbn in Eh. by subst.
    - rewrite (proj2 (Z.eqb_neq _ _)) by lia. unfold reset_runtime. cbn [negb]. by rewrite Ea, Eo. }
  unfold evaluate_new, frame_outcome. unfold mbind at 1, M_bind at 1. rewrite Hm. cbv [mbind M_bind mmod mret M_ret mget frame].
  cbn [fst snd]. change (runtime (e <| runtime := Some h |>)) with (Some h). cbn [default].
  change (e_watch (e <| runtime := Some h |>)) with (e_watch e). unfold id. rewrite Hf. fold (unanswered (reads (e_watch e) values) asked).
  cbn [fst snd]. case_bool_decide; cbn [negb]; [done|]. unfold reset_runtime. cbn [definitions triggered runtime].
  set (e' := _ <| e_sequence := _ |>). change (definitions e') with (definitions e). change (triggered e') with (triggered e).
  by destruct (allocate _ _ l2) as [[h'|x] l3].
Qed.

Lemma reconcile_open (s : E) : er_closed (fst (reconcile s)) = er_closed (fst s).
Proof. destruct s as [r l]. unfold reconcile. destruct (er_evaluator r); [|done]. by destruct (match watch _ with Some _ => _ | None => _ end). Qed.

Lemma open_complete now now' j p (s : E) : er_closed (fst s) = false -> er_closed (fst (snd (e_complete now now' j p s))) = false.
Proof.
  intros Ho. unfold e_complete, e_tick, check_open. cbv [mbind M_bind mmod mget mret M_ret]. rewrite Ho.
  set (s1 := reconcile _). assert (Ho1 : er_closed (fst s1) = false) by (subst s1; by rewrite reconcile_open).
  clearbody s1. destruct (_ || _); [done|]. destruct (c_file _) as [file|].
  - unfold complete_file, try_candidate, at_receiver. destruct (new_evaluator _ _ _ _) as [[e|x] l1].
    2: { cbn [fst snd]. by rewrite reconcile_open. }
    cbn [fst snd]. destruct (complete now' j (p_completion p) (er_receiver (fst s1))) as [[[|]|x] r']; cbn [fst snd].
    + set (s2 := (_ <| er_receiver := r' |>, l1)). assert (Ho2 : er_closed (fst (reconcile s2)) = false) by by rewrite reconcile_open. by destruct (reconcile s2).
    + done.
    + cbn [fst snd]; by rewrite reconcile_open.
  - unfold at_receiver. destruct (complete now' j (p_completion p) (er_receiver (fst s1))) as [[a|x] r']; [cbn [fst snd]; by rewrite reconcile_open|done].
Qed.

Lemma open_step ev (s : E) : er_closed (fst s) = false -> er_closed (fst (estep ev s)) = false.
Proof.
  intros Ho. destruct ev as [now fed packet peer|now|now now'|now now' j p|]; cbn [estep]; [| | |by apply open_complete|].
  - unfold e_receive, check_open, at_receiver, e_evaluate. cbv [mbind M_bind mmod mget mret M_ret lift]. rewrite Ho.
    destruct (receive _ _ _ _ _) as [[o|x] r]; [|done]. set (s1 := reconcile _).
    assert (Ho1 : er_closed (fst s1) = false) by (subst s1; by rewrite reconcile_open). clearbody s1.
    destruct (er_evaluator (fst s1)) as [e|]; [|done]. destruct (nonempty _); [|done].
    destruct (evaluate_frame o _) as [[v|x] [e' l']]; cbn; [by destruct (format_notices _ _ _)|done].
  - unfold e_tick, check_open. cbv [mbind M_bind mmod]. rewrite Ho. cbn [fst snd]; by rewrite reconcile_open.
  - unfold e_take_jobs, e_tick, check_open, at_receiver. cbv [mbind M_bind mmod]. rewrite Ho.
    set (s1 := reconcile _). assert (Ho1 : er_closed (fst s1) = false) by (subst s1; by rewrite reconcile_open). by destruct (take_jobs _ _).
  - unfold e_reset, check_open. cbv [mbind M_bind mmod]. rewrite Ho.
    transitivity (er_closed (fst (reconcile (with_receiver clear s)))); [done|by rewrite reconcile_open].
Qed.

Lemma open_steps evs (s : E) : er_closed (fst s) = false -> er_closed (fst (foldl (fun s ev => estep ev s) s evs)) = false.
Proof. revert s. induction evs as [|ev evs IH]; intros s Ho; [done|]. by apply IH, open_step. Qed.

(** A frame handed on reaches the evaluator there is. *)
Lemma frame_reaches base now fed packet peer o r (s : E) : settled base s -> er_closed (fst s) = false ->
  receive now fed packet peer (er_receiver (fst s)) = (Ok o, r) -> values o <> [] ->
  exists e sq, er_evaluator (fst s) = Some e /\ is_Some (runtime e) /\ o_sequence o = Some sq /\ 0 <= delta e sq /\
    e_receive now fed packet peer s = answer_frame o r s
      (if (delta e sq =? 0) || (500000 <=? delta e sq) then (Ok rejected, (e, snd s)) else evaluate_new (values o) sq (e, snd s)).
Proof.
  intros Hs Hopen Hr Hv. pose proof Hs as [(ins & outs & S1) _].
  destruct (receive_answers now fed packet peer ins outs _ S1) as (o' & E1 & S2 & D).
  pose proof (on_watch_receive now fed packet peer (er_receiver (fst s))) as Hw. rewrite Hr in E1, S2, D, Hw. cbn [fst snd] in *. injection E1 as <-.
  destruct (D Hv) as (w & a & sq & fd & D1 & D2 & D3 & D4 & D5 & D6 & _).
  pose proof (settled_receiver base s r Hs Hw (ex_intro _ _ (ex_intro _ _ S2))) as Hs'.
  set (s1 := ((fst s) <| er_receiver := r |>, snd s)) in *. pose proof Hs' as (_ & _ & R1).
  destruct (er_evaluator (fst s)) as [e|] eqn:Ee; change (er_evaluator (fst s1)) with (er_evaluator (fst s)) in R1; rewrite Ee in R1; [|destruct R1; cbn in *; congruence].
  destruct R1 as [(_ & [h Eh] & _) Hb]. change (er_receiver (fst s1)) with r in Hb. destruct (Hb w D1) as [Eg Ew].
  assert (Hrec : reconcile s1 = s1).
  { unfold reconcile. unfold s1 at 1 2. cbn [fst snd]. change (er_evaluator _) with (er_evaluator (fst s)) at 1.
    change (er_receiver (_ <| er_receiver := r |>)) with r. rewrite Ee, D1, Eg, Z.eqb_refl. done. }
  exists e, sq. split; [done|]. split; [by exists h|]. split; [done|].
  split; [unfold delta; destruct (e_sequence e); [by apply Z.mod_pos_bound|done]|].
  destruct (one_frame_number _ _ _ _ D6) as [Q1 Q2].
  assert (Hf : evaluate_frame o (e, snd s) =
    if (delta e sq =? 0) || (500000 <=? delta e sq) then (Ok rejected, (e, snd s)) else evaluate_new (values o) sq (e, snd s)).
  { unfold evaluate_frame, evaluate. rewrite Eh, D2, Eg, Z.eqb_refl, D3. cbn [negb].
    rewrite (proj2 (Z.ltb_ge _ _)), (proj2 (Z.leb_gt _ _)) by (unfold SEQUENCE_MODULUS in Q1; lia). cbn [orb].
    assert (existsb (Z.eqb (zlen (values o))) (snapshot_sizes (e_watch e)) = true) as ->; [|done].
    apply existsb_exists. exists (zlen (values o)). split; [|apply Z.eqb_refl]. apply list_elem_of_In. by rewrite Ew, <- D5. }
  rewrite <- Hf. unfold e_receive, check_open, at_receiver. cbv [mbind M_bind mmod mget mret M_ret lift]. rewrite Hopen, Hr. fold s1. rewrite Hrec.
  unfold e_evaluate. change (er_evaluator (fst s1)) with (er_evaluator (fst s)). rewrite Ee.
  assert (nonempty (values o) = true) as -> by by destruct (values o). change (snd s1) with (snd s).
  unfold answer_frame. destruct (evaluate_frame o (e, snd s)) as [[v|x] [e' l']]; [|done]. cbn.
  by destruct (format_notices _ _ _).
Qed.
End way.

Section theorems.
Context {Lib : Type} `{RcheevosLaws Lib} `{Normalize}.

Lemma settled_new lease identify per_second advertised now r (l : Lib) :
  new_ereceiver lease identify per_second advertised now = Ok r -> settled (live l) (r, l).
Proof.
  unfold new_ereceiver. intros Hn. destruct (new_receiver _ _ _ _ _) as [r0|] eqn:E0; [|done]. cbn in Hn. injection Hn as <-.
  pose proof (sound_new _ _ _ _ _ _ E0) as Hs. split; [by exists [], []|]. split; [done|]. cbn. split; [done|].
  by destruct (so_idle _ _ _ Hs) as (_ & _ & ?); [unfold new_receiver in E0; if_inv E0; by injection E0 as <-|].
Qed.

(** C19. Whatever an evaluated receiver is given, it calls the library on runtimes there are only, has
    at most one runtime more than there were, and after [close] none. *)
Theorem no_runtime_leaked lease identify per_second advertised t0 r0 (l0 : Lib) evs :
  new_ereceiver lease identify per_second advertised t0 = Ok r0 ->
  let s := foldl (fun s ev => estep ev s) (r0, l0) evs in
  rtc call l0 (snd s) /\
  (live (snd s) = live l0 \/ exists e h, er_evaluator (fst s) = Some e /\ runtime e = Some h /\ h ∉ live l0 /\ live (snd s) = {[h]} ∪ live l0) /\
  rtc call (snd s) (snd (snd (e_close s))) /\ live (snd (snd (e_close s))) = live l0.
Proof.
  intros Hn s. pose proof (settled_new _ _ _ _ _ _ l0 Hn) as H0'. destruct (esteps_spec (live l0) evs _ H0') as [Hs Hc]. fold s in Hs, Hc.
  split; [done|]. split; [|by destruct (e_close_spec (live l0) s Hs) as (_ & ? & ?)].
  destruct Hs as (_ & _ & Hs). destruct (er_evaluator (fst s)) as [e|]; [right|left; by destruct Hs].
  destruct Hs as [(Ho & [h Eh] & _) _]. unfold owns in Ho. rewrite Eh in Ho. destruct Ho. by exists e, h.
Qed.

(** C27. Every frame that the receiver hands on is given to the evaluator that there is, by that
    same call: [e_receive] returns what comes of it.  A frame that is not newer than the last one
    -- and these are also, after a restart of the console, up to half a million frames -- is
    rejected without effect.  Any other is given to the runtime, [frame_outcome] (to a new one
    after a gap, [frame_runtime]), and where no new runtime can be made the call raises. *)
Theorem frames_evaluated lease identify per_second advertised t0 r0 (l0 : Lib) evs now fed packet peer o r :
  new_ereceiver lease identify per_second advertised t0 = Ok r0 ->
  let s := foldl (fun s ev => estep ev s) (r0, l0) evs in
  receive now fed packet peer (er_receiver (fst s)) = (Ok o, r) -> values o <> [] ->
  exists e sq, er_evaluator (fst s) = Some e /\ is_Some (runtime e) /\ o_sequence o = Some sq /\
    (delta e sq = 0 \/ 500000 <= delta e sq ->
       e_receive now fed packet peer s = answer_frame o r s (Ok rejected, (e, snd s))) /\
    (forall h l1 evs asked l2, frame_runtime e sq (snd s) h l1 ->
       rt_do_frame h (peek (reads (e_watch e) (values o))) l1 = ((evs, asked), l2) ->
       e_receive now fed packet peer s = answer_frame o r s (frame_outcome e sq (reads (e_watch e) (values o)) h evs asked l2)) /\
    (forall x l1, 1 < delta e sq < 500000 -> allocate (definitions e) (triggered e) (snd s) = (Err x, l1) ->
       e_receive now fed packet peer s = answer_frame o r s (Err x, (e, l1))).
Proof.
  intros Hn s Hr Hv. pose proof (settled_new _ _ _ _ _ _ l0 Hn) as H0'. destruct (esteps_spec (live l0) evs _ H0') as [Hs _].
  assert (Hopen : er_closed (fst s) = false).
  { apply (open_steps evs). unfold new_ereceiver in Hn. destruct (new_receiver _ _ _ _ _); [|done]. by injection Hn as <-. }
  fold s in Hs. destruct (frame_reaches (live l0) now fed packet peer o r s Hs Hopen Hr Hv) as (e & sq & E1 & [h Eh] & E3 & E4 & E5).
  exists e, sq. split_and!; [done|by exists h|done|..].
  - intros Hd. rewrite E5. destruct (Z.eqb_spec (delta e sq) 0), (Z.leb_spec 500000 (delta e sq)); done || lia.
  - intros h1 l1 xs asked l2 Hrt Hf. rewrite E5. rewrite <- (evaluate_new_outcome e (snd s) sq (values o) h1 l1 xs asked l2 Hrt Hf).
    assert (0 < delta e sq < 500000) by (destruct Hrt as [(? & _)|(? & _)]; lia).
    rewrite (proj2 (Z.eqb_neq _ _)), (proj2 (Z.leb_gt _ _)) by lia. done.
  - intros x l1 Hd Ha. rewrite E5. rewrite (proj2 (Z.eqb_neq _ _)), (proj2 (Z.leb_gt _ _)) by lia. cbn [orb].
    unfold evaluate_new, mwhen. rewrite (proj2 (Z.eqb_neq _ 1)) by lia. cbn [negb]. unfold mbind at 1, M_bind at 1, reset_runtime.
    by rewrite Ha.
Qed.
End theorems.
