(* ===== verification/RaWitnesses.v ===== *)
(** * RetroAchievements: a console played through

    A library, a watch list and the datagrams of a console, run through the receiver and the
    evaluator, and the theorems applied to them. *)

From stdpp Require Import relations.
From S2P Require Import Prelude Triples Tables PyStr PyText ChdCue Ipv4 RaProtocol RaFrames RaReceiver RaReceiverFacts RaEvaluator RaEvaluatorFacts.

(** Texts without marks *)
#[local] Instance plain_text : Normalize := { nfkd := fun t => t; combining := fun _ => false }.

(** ** A library with one condition: the byte at 0x80000 is 1 *)

(** The runtimes with their frames *)
Record toy := Toy { runtimes : list (Z * list (Z * Z -> Z)) }.

Definition toy_frame (h : Z) (f : Z * Z -> Z) (l : toy) : (list (Z * Z * Z) * list (Z * Z)) * toy :=
  ((if f (524288, 1) =? 1 then [(TRIGGERED, 10, 0)] else [], [(524288, 1)]),
   Toy (map (fun kf => if fst kf =? h then (fst kf, snd kf ++ [f]) else kf) (runtimes l))).

#[local] Instance toy_library : Rcheevos toy := {
  rt_alloc l := (Some (1 + foldr Z.max 0 (map fst (runtimes l))),
                 Toy ((1 + foldr Z.max 0 (map fst (runtimes l)), []) :: runtimes l));
  rt_destroy h l := Toy (adelete h (runtimes l));
  rt_activate h id d l := (0, l);
  rt_do_frame := toy_frame
}.

Definition toy_frames (l : toy) (h : Z) : list (Z * Z -> Z) := default [] (alookup h (runtimes l)).

Lemma fresh_handle (l : list (Z * list (Z * Z -> Z))) k : k ∈ map fst l -> k < 1 + foldr Z.max 0 (map fst l).
Proof.
  induction l as [|[j w] l IH]; [by intros ?%not_elem_of_nil|]. cbn. intros [->|Hin]%elem_of_cons; [lia|].
  specialize (IH Hin). lia.
Qed.

Lemma delete_keys (l : list (Z * list (Z * Z -> Z))) h :
  (list_to_set (map fst (adelete h l)) : gset Z) = list_to_set (map fst l) ∖ {[h]}.
Proof.
  induction l as [|[j w] l IH]; [set_solver|]. cbn. destruct (Z.eqb_spec j h) as [->|Hne]; cbn; fold (adelete h l); rewrite IH; set_solver.
Qed.

#[local] Instance toy_laws : RcheevosLaws toy.
Proof.
  refine {| live l := list_to_set (map fst (runtimes l)); frames := toy_frames |}.
  - intros l h l' [= <- <-]. unfold toy_frames. cbn. split_and!.
    + intros Hin%elem_of_list_to_set%fresh_handle. lia.
    + done.
    + by rewrite Z.eqb_refl.
    + intros k Hk. by rewrite (proj2 (Z.eqb_neq _ _)).
  - done.
  - intros h l. split; [apply delete_keys|]. intros k Hk. unfold toy_frames. cbn. by rewrite alookup_adelete_ne.
  - intros. by split.
  - intros h f l Hin. cbn [rt_do_frame toy_library toy_frame snd runtimes]. unfold toy_frames. cbn [runtimes]. split_and!.
    + f_equal. rewrite map_map. apply map_ext. intros [j w]. cbn. by destruct (j =? h).
    + apply elem_of_list_to_set in Hin. induction (runtimes l) as [|[j w] r IH]; [by apply not_elem_of_nil in Hin|]. cbn in *.
      destruct (Z.eqb_spec j h) as [->|Hne]; cbn; [by rewrite Z.eqb_refl|]. rewrite (proj2 (Z.eqb_neq j h)) by done.
      apply IH. by apply elem_of_cons in Hin as [|].
    + intros k Hk. clear Hin. induction (runtimes l) as [|[j w] r IH]; [done|]. cbn.
      destruct (Z.eqb_spec j h) as [->|Hne]; cbn; destruct (_ =? k) eqn:E; try done. apply Z.eqb_eq in E. by subst.
Defined.

(** ** The console and its list: one byte at 0x80000 *)

Definition list_file : bytes := flat_map (le_bytes 4) [RAWL; 1; 1; 1; 268435456 + 524288].
Definition the_image : text := lit "0123456789abcdef0123456789abcdef".
Definition console : text * Z := (lit "192.0.2.10", 18195).
Definition stranger : text * Z := (lit "192.0.2.20", 18195).
Definition query : bytes := lit "RAQ1 " ++ the_image ++ lit " SLUS_210.65".
Definition get_chunk : bytes := lit "RAG1 " ++ the_image ++ lit " 0".
Definition telemetry (fields serial values : bytes) : bytes :=
  lit "RA15 " ++ fields ++ lit " id=" ++ serial ++ replicate (Z.to_nat (15 - zlen serial)) 126 ++ [32] ++ values.
Definition snapshot (sq : text) (values : bytes) : bytes :=
  telemetry (lit "seq=000001 sq=" ++ sq ++ lit " n=0001 err=+000 vb=0001 pt=0 np=1") (lit "SLUS_210.65") values.

Example list_file_valid : validate_watchlist list_file = Ok (Watch list_file 1 1 0).
Proof. reflexivity. Qed.

Example snapshot_read : parse_snapshot (snapshot (lit "000007") [1]) = Ok (Part (lit "SLUS_210.65") 7 1 0 1 [1]).
Proof. reflexivity. Qed.

(** ** Snapshots *)

Definition assembling_two : assembler := Assembler (lit "SLUS_210.65") 2 [6] 15 None None [] false false None.
Definition two_parts (k : text) (values : bytes) : bytes :=
  telemetry (lit "sq=000007 n=0002 vb=" ++ (if str_eqb k (lit "0") then lit "0004" else lit "0002") ++ lit " pt=" ++ k ++ lit " np=2")
            (lit "SLUS_210.65") values.
Definition part0 : bytes := two_parts (lit "0") (lit "abcd").
Definition part1 : bytes := two_parts (lit "1") (lit "ef").

Lemma frame_delivered_witness :
  fst (feeds [(part1, 0); (part1, 1); (part0, 2); (part1, 3)] assembling_two) = [None; None; Some (lit "abcdef"); None].
Proof.
  apply (frame_delivered assembling_two 7 [lit "abcd"; lit "ef"] 0 [(1%nat, (part1, 0)); (1%nat, (part1, 1))] (0%nat, (part0, 2))
           [(1%nat, (part1, 3))]).
  - reflexivity.
  - exact I.
  - repeat (apply Forall_cons; split; [split; [eexists; split; [|vm_compute; reflexivity]; reflexivity|unfold in_time; cbn; lia]|]).
    apply Forall_nil_2.
  - intros H. assert (Hin : 0%nat ∈ [1%nat; 1%nat]) by (apply H; cbn; lia). set_solver.
  - intros [|[|k]] Hk; cbn in *; [set_solver|set_solver|lia].
Defined.

(** A part that comes twice with other values spoils its frame. *)
Example conflicting_part :
  fst (feeds [(part1, 0); (two_parts (lit "1") (lit "eg"), 1); (part0, 2)] assembling_two) = [None; None; None].
Proof. reflexivity. Qed.

(** ** The receiver *)

Definition fresh_receiver : receiver :=
  clear (Receiver 15 30 40 true 0 0 0 0 None None ∅ None None None None None false [] 0 ∅ (new_watch_session 15)).
Definition identified_game : completion := Completion (Some list_file) false None (lit "Game") 1.
Definition the_job : job := Job 2 the_image (lit "SLUS_210.65").

(** The console asks, the worker answers, the console asks again and takes the list. *)
Definition conversation : list event :=
  [Datagram 0 0 query console; TakeJobs 0; Finished 1 the_job identified_game; Datagram 1 1 query console; Datagram 1 1 get_chunk console].

Example conversation_replies :
  map (fun o => rstrip 32 (ztake 20 (reply o))) (fst (run conversation fresh_receiver)) =
  [lit "RAA1 WAIT"; lit "RAA1 OK 20 1 1 0 0 G"; lit "RAC1 0 20 RAWL" ++ [1; 0; 0; 0; 1; 0]].
Proof. vm_compute. reflexivity. Qed.

Lemma telemetry_sound_witness :
  let '(outs, r) := run conversation fresh_receiver in
  let '(x, r') := receive 2 2 (snapshot (lit "000007") [1]) console r in
  exists o, x = Ok o /\ values o = [1] /\ delivered ((snapshot (lit "000007") [1], 2) :: datagrams_of conversation) outs o r'.
Proof.
  pose proof (telemetry_sound 15 30 40 true 0 fresh_receiver conversation 2 2 (snapshot (lit "000007") [1]) console eq_refl) as H.
  assert (Ev : match fst (receive 2 2 (snapshot (lit "000007") [1]) console (snd (run conversation fresh_receiver))) with
               | Ok o => values o | Err _ => [] end = [1]) by (vm_compute; reflexivity).
  destruct (run conversation fresh_receiver) as [outs r]. cbn [snd] in Ev. destruct (receive _ _ _ _ r) as [x r'].
  destruct H as (o & -> & D). exists o. cbn [fst] in Ev. split; [reflexivity|]. split; [exact Ev|]. apply D. rewrite Ev. discriminate.
Defined.

(** The stranger is not answered while the lease runs, and then it is. *)
Lemma lease_exclusive_witness : 0 + lease_seconds fresh_receiver <= 15.
Proof.
  refine (lease_exclusive fresh_receiver 0 0 query console [Datagram 6 6 query stranger; Tick 7] 15 15 query stranger _ _ _ _ _ _ _ _ _).
  - cbn. lia.
  - repeat constructor.
  - vm_compute. reflexivity.
  - discriminate.
  - vm_compute. reflexivity.
  - discriminate.
  - discriminate.
Defined.

Example stranger_waits : fst (receive 6 6 query stranger (snd (receive 0 0 query console fresh_receiver))) = Ok silent.
Proof. vm_compute. reflexivity. Qed.

Lemma chunks_read_back_witness : chunk_count list_file = 1 /\
  exists r, watch_chunk list_file 0 = Ok r /\ read_chunk r = Some (0, list_file).
Proof.
  split; [reflexivity|]. destruct (chunks_read_back list_file (Watch list_file 1 1 0) eq_refl) as [_ H].
  destruct (H 0) as (r & E & _ & _ & R); [vm_compute; split; [discriminate|reflexivity]|]. exists r. split; [exact E|exact R].
Defined.

(** ** The evaluator *)

Definition conditions : list (Z * text) := [(10, lit "0xH080000=1")].
Definition the_evaluator : evaluator := Evaluator conditions (Watch list_file 1 1 0) 1 None ∅ (Some 1).
Definition snapshots : list (bytes * Z * option Z) := [([0], 1, Some 0); ([0], 1, Some 1); ([1], 1, Some 3); ([1], 1, Some 4)].

Example evaluated_snapshots :
  map (fun x => match x with Ok v => (accepted v, triggers v, was_reset v) | Err _ => (false, [], false) end)
      (fst (evaluations snapshots (the_evaluator, Toy [(1, [])]))) =
  [(true, [], false); (true, [], false); (true, [10], true); (true, [], false)].
Proof. vm_compute. reflexivity. Qed.

Lemma history_consecutive_witness : exists log,
  frames (snd (snd (evaluations snapshots (the_evaluator, Toy [(1, [])])))) 2 =
    map (fun sv => peek (reads (e_watch the_evaluator) (snd sv))) log /\ consecutive log /\ given 1 snapshots log.
Proof.
  destruct (history_consecutive conditions list_file 1 (Toy []) the_evaluator (Toy [(1, [])]) snapshots
              (fst (snd (evaluations snapshots (the_evaluator, Toy [(1, [])])))) (snd (snd (evaluations snapshots (the_evaluator, Toy [(1, [])])))) 2)
    as (log & H1 & H2 & H3).
  - vm_compute. reflexivity.
  - apply surjective_pairing.
  - vm_compute. reflexivity.
  - exists log. split; [exact H1|]. split; [exact H2|exact H3].
Defined.

Lemma triggered_once_witness : 10 ∉ triggers (Evaluation true [] false []).
Proof.
  refine (triggered_once conditions list_file 1 (Toy []) the_evaluator (Toy [(1, [])]) snapshots 2 3
            (Evaluation true [(3, 10, 0)] true []) (Evaluation true [] false []) 10 _ _ _ _ _).
  - vm_compute. reflexivity.
  - lia.
  - vm_compute. reflexivity.
  - vm_compute. reflexivity.
  - cbn. set_solver.
Defined.

(** ** The evaluated receiver *)

Definition fresh_ereceiver : ereceiver := EReceiver fresh_receiver None false (lit "opl") [].
Definition publication : published := Published identified_game conditions (lit "caduceus") [(10, (5, lit "First"))].
Definition game : list eevent :=
  [EReceive 0 0 query console; ETakeJobs 0 0; EComplete 1 1 the_job publication; EReceive 1 1 query console; EReceive 1 1 get_chunk console].
Definition playing : ereceiver * toy := foldl (fun s ev => estep ev s) (fresh_ereceiver, Toy []) game.

Example notice_sent :
  match fst (e_receive 2 2 (snapshot (lit "000007") [1]) console playing) with
  | Ok out => map (rstrip 32) (notices out)
  | Err _ => []
  end = [lit "RAU1 10 5 First"].
Proof. vm_compute. reflexivity. Qed.

Lemma no_runtime_leaked_witness :
  live (snd playing) = {[1]} /\ live (snd (snd (e_close playing))) = live (Toy []).
Proof.
  split; [vm_compute; reflexivity|].
  destruct (no_runtime_leaked 15 30 40 true 0 fresh_ereceiver (Toy []) game eq_refl) as (_ & _ & _ & H). exact H.
Defined.

Definition frame_output : output := Output [] (Some console) [1] 4 (Some 7).
Definition after_frame : receiver := snd (receive 2 2 (snapshot (lit "000007") [1]) console (er_receiver (fst playing))).
(** The first frame after the list is given to the runtime 1, which reports the achievement. *)
Lemma frames_evaluated_witness :
  let s := foldl (fun s ev => estep ev s) (fresh_ereceiver, Toy []) game in
  let out := e_receive 2 2 (snapshot (lit "000007") [1]) console s in
  fst out = Ok (EOutput frame_output (Some (Evaluation true [(TRIGGERED, 10, 0)] false []))
                  (match format_unlock_notice 10 5 (Some (lit "First")) with Ok n => [n] | Err _ => [] end)) /\
  frames (snd (snd out)) 1 = [peek (reads (Watch list_file 1 1 0) [1])].
Proof.
  cbv zeta.
  destruct (frames_evaluated 15 30 40 true 0 fresh_ereceiver (Toy []) game 2 2 (snapshot (lit "000007") [1]) console frame_output
              after_frame eq_refl) as (e & sq & He & _ & Hq & _ & Hg & _).
  - vm_compute. reflexivity.
  - discriminate.
  - injection Hq as <-.
    assert (Hp : er_evaluator (fst (foldl (fun s ev => estep ev s) (fresh_ereceiver, Toy []) game))
                   = Some (the_evaluator <| e_generation := 4 |>)) by (vm_compute; reflexivity).
    rewrite Hp in He. apply (inj Some) in He as <-.
    set (seen := peek (reads (e_watch the_evaluator) (values frame_output))).
    assert (Hf : rt_do_frame 1 seen (snd (foldl (fun s ev => estep ev s) (fresh_ereceiver, Toy []) game)) =
              ([(TRIGGERED, 10, 0)], [(524288, 1)], Toy [(1, [seen])])) by (vm_compute; reflexivity).
    rewrite (Hg 1 _ _ _ _ (or_introl (conj eq_refl (conj eq_refl eq_refl))) Hf).
    split; vm_compute; reflexivity.
Defined.

(** A console that starts again under the same lease: the assembler takes its frames up after the
    idle time, the evaluator refuses them until their numbers pass the old ones. *)
Definition restarted : ereceiver * toy :=
  foldl (fun s ev => estep ev s) playing
    [EReceive 2 2 (snapshot (lit "030000") [0]) console; EReceive 10 10 query console; EReceive 16 16 query console].

Example restart_refused :
  match fst (e_receive 18 18 (snapshot (lit "000000") [1]) console restarted) with
  | Ok out => (values (wire out), evaluated out)
  | Err _ => ([], None)
  end = ([1], Some rejected).
Proof. vm_compute. reflexivity. Qed.
