(* ===== verification/Dhcp.v ===== *)
(** * Direct link: DHCP packets

    Models the packets of [launcher/directlink.py]: [parse_packet], which reads a request,
    [build_reply] and [_build_discover], which write, and [_foreign_offer_server_id], which tells
    that somebody else answers.  The facts: the option loop ends on every datagram, a client reads
    back the reply that was meant, and a reply to a probe is recognised. *)

From S2P Require Import Prelude Tables PyStr PyText Ipv4.

Definition DHCP_SERVER_PORT : Z := 67.
Definition DHCP_CLIENT_PORT : Z := 68.
Definition LEASE_SECONDS : Z := 86400.
Definition PREFIX_LENGTH : Z := 24.
Definition SERVER_HOST_NUM : Z := 1.
Definition CLIENT_HOST_NUM : Z := 10.

Definition MAGIC_COOKIE : bytes := [0x63; 0x82; 0x53; 0x63].

Definition MSG_DISCOVER : Z := 1.
Definition MSG_OFFER : Z := 2.
Definition MSG_REQUEST : Z := 3.
Definition MSG_DECLINE : Z := 4.
Definition MSG_ACK : Z := 5.
Definition MSG_NAK : Z := 6.
Definition MSG_RELEASE : Z := 7.
Definition MSG_INFORM : Z := 8.

(** ** The fixed header *)

(** The fields of [_BOOTP] in their order *)
Record bootp := Bootp {
  op : Z;
  htype : Z;
  hlen : Z;
  hops : Z;
  xid : Z;
  secs : Z;
  flags : Z;
  ciaddr : Z;
  yiaddr : Z;
  siaddr : Z;
  giaddr : Z;
  chaddr : bytes;
  sname : bytes;
  bootfile : bytes
}.

(** A field of [struct] in network order, and one of a string of fixed length *)
Definition net_field (w : nat) (v : Z) : result bytes := if fits (Un w) v then Ok (be_bytes w v) else Err StructError.
Definition str_field (w : Z) (s : bytes) : bytes := ljust (ztake w s) w.

(** The numbers of the header with their widths *)
Definition bootp_numbers (b : bootp) : list (nat * Z) :=
  [(1%nat, op b); (1%nat, htype b); (1%nat, hlen b); (1%nat, hops b); (4%nat, xid b); (2%nat, secs b); (2%nat, flags b);
   (4%nat, ciaddr b); (4%nat, yiaddr b); (4%nat, siaddr b); (4%nat, giaddr b)].

Fixpoint net_fields (fs : list (nat * Z)) : result bytes :=
  match fs with
  | [] => Ok []
  | (w, v) :: fs => a ← net_field w v; rest ← net_fields fs; Ok (a ++ rest)
  end.

(** [_BOOTP.pack] *)
Definition bootp_pack (b : bootp) : result bytes :=
  numbers ← net_fields (bootp_numbers b);
  Ok (numbers ++ str_field 16 (chaddr b) ++ str_field 64 (sname b) ++ str_field 128 (bootfile b)).

(** [_BOOTP.unpack] of 236 bytes *)
Definition bootp_unpack (d : bytes) : bootp :=
  let at_ a n := be_int (slice d a (a + n)) in
  Bootp (at_ 0 1) (at_ 1 1) (at_ 2 1) (at_ 3 1) (at_ 4 4) (at_ 8 2) (at_ 10 2) (at_ 12 4) (at_ 16 4) (at_ 20 4) (at_ 24 4)
        (slice d 28 44) (slice d 44 108) (slice d 108 236).

(** ** Requests *)

(** The loop over the options from [i], which the two readers share *)
Fixpoint parse_options (fuel : nat) (data : bytes) (i : Z) (options : list (Z * bytes)) : result (list (Z * bytes)) :=
  match fuel with
  | O => Err Hang
  | S fuel =>
      if zlen data <=? i then Ok options
      else
        let tag := znth data i in
        if tag =? 0 then parse_options fuel data (i + 1) options
        else if (tag =? 255) || (zlen data <=? i + 1) then Ok options
        else
          let length := znth data (i + 1) in
          parse_options fuel data (i + 2 + length) (aset tag (slice data (i + 2) (i + 2 + length)) options)
  end.

Definition options_fuel (data : bytes) : nat := S (length data).

(** What [parse_packet] returns *)
Record packet := Packet {
  pk_htype : Z;
  pk_hlen : Z;
  pk_xid : Z;
  pk_flags : Z;
  pk_ciaddr : Z;
  pk_giaddr : Z;
  pk_mac : bytes;
  pk_chaddr : bytes;
  pk_options : list (Z * bytes)
}.

Definition has_cookie (data : bytes) : bool := (240 <=? zlen data) && str_eqb (slice data 236 240) MAGIC_COOKIE.

(** [parse_packet] *)
Definition parse_packet (data : bytes) : result (option packet) :=
  if negb (has_cookie data) then Ok None
  else
    let b := bootp_unpack (slice data 0 236) in
    if negb (op b =? 1) then Ok None
    else
      options ← parse_options (options_fuel data) data 240 [];
      let mac_len := if (1 <=? hlen b) && (hlen b <=? 16) then hlen b else 6 in
      Ok (Some (Packet (htype b) (hlen b) (xid b) (flags b) (ciaddr b) (giaddr b) (ztake mac_len (chaddr b)) (chaddr b)
                       options)).

(** ** Replies *)

(** [bytes([...])] of numbers *)
Definition byte_of (v : Z) : result Z := if (0 <=? v) && (v <? 256) then Ok v else Err ValueError.

(** The options of a reply *)
Definition reply_options (msg_type server mask lease : Z) : result bytes :=
  t ← byte_of msg_type;
  s ← net_field 4 server;
  if msg_type =? MSG_NAK then Ok ([53; 1; t; 54; 4] ++ s ++ [255])
  else
    l ← net_field 4 lease; m ← net_field 4 mask;
    Ok ([53; 1; t; 54; 4] ++ s ++ [51; 4] ++ l ++ [1; 4] ++ m ++ [3; 4] ++ s ++ [255]).

Definition is_lease (msg_type : Z) : bool := (msg_type =? MSG_OFFER) || (msg_type =? MSG_ACK).

(** [build_reply] *)
Definition build_reply (pkt : packet) (msg_type : Z) (server_ip client_ip : text) (prefixlen lease : Z) : result bytes :=
  server ← ip_to_int server_ip;
  yiaddr ← (if is_lease msg_type then ip_to_int client_ip else Ok 0);
  let ciaddr := if msg_type =? MSG_ACK then pk_ciaddr pkt else 0 in
  mask ← (if 32 <? prefixlen then Err ValueError else Ok (Z.land (Z.shiftl U32 (32 - prefixlen)) U32));
  options ← reply_options msg_type server mask lease;
  header ← bootp_pack (Bootp 2 (pk_htype pkt) (pk_hlen pkt) 0 (pk_xid pkt) 0 (pk_flags pkt) ciaddr yiaddr server
                             (pk_giaddr pkt) (pk_chaddr pkt) [] []);
  Ok (ljust (header ++ MAGIC_COOKIE ++ options) 300).

(** ** Probing for another server *)

(** [_build_discover] *)
Definition build_discover (x : Z) (mac : bytes) : result bytes :=
  let chaddr := ljust mac 16 in
  header ← bootp_pack (Bootp 1 1 (zlen mac) 0 x 0 0x8000 0 0 0 0 chaddr [] []);
  Ok (header ++ MAGIC_COOKIE ++ [53; 1; MSG_DISCOVER; 55; 1; 1] ++ [255]).

(** [_foreign_offer_server_id] *)
Definition foreign_offer_server_id (data : bytes) (x : Z) : result (option text) :=
  pkt ← parse_packet data;
  match pkt with
  | Some _ => Ok None
  | None =>
      if negb (has_cookie data) then Ok None
      else if negb (znth data 0 =? 2) then Ok None
      else if negb (be_int (slice data 4 8) =? x) then Ok None
      else
        options ← parse_options (options_fuel data) data 240 [];
        match default [] (alookup 53 options) with
        | [] => Ok None
        | mtype :: _ =>
            if negb (existsb (Z.eqb mtype) [MSG_OFFER; MSG_ACK; MSG_NAK]) then Ok None
            else
              let sid := default [] (alookup 54 options) in
              if zlen sid =? 4 then Ok (Some (dotted (be_int sid)))
              else
                let siaddr := be_int (slice data 20 24) in
                if negb (siaddr =? 0) then Ok (Some (int_to_ip siaddr)) else Ok (Some (lit "unknown DHCP server"))
        end
  end.

(** What [probe_for_foreign_dhcp_server] returns: [[]] is the empty text of a probe that could
    not be made, otherwise the first of the datagrams received until the deadline that shows a
    server *)
Fixpoint first_server (received : list bytes) (x : Z) : result (option text) :=
  match received with
  | [] => Ok None
  | d :: ds => s ← foreign_offer_server_id d x; match s with Some _ => Ok s | None => first_server ds x end
  end.
Definition probe_for_foreign_dhcp_server (receives sends : bool) (received : list bytes) (x : Z) : result (option text) :=
  if negb receives || negb sends then Ok (Some []) else first_server received x.

(** ** The option loop ends *)

Lemma byte_at l i : is_bytes l -> 0 <= znth l i < 256.
Proof.
  intros Hl. unfold znth. rewrite nth_lookup. destruct (l !! Z.to_nat i) as [b|] eqn:E; [|cbn; lia].
  exact (proj1 (Forall_lookup _ _) Hl _ _ E).
Qed.

Lemma parse_options_ends fuel data i o : is_bytes data -> 0 <= i -> Z.max 0 (zlen data - i) < Z.of_nat fuel ->
  exists o', parse_options fuel data i o = Ok o'.
Proof.
  intros Hb. revert i o. induction fuel as [|fuel IH]; intros i o Hi Hf; [lia|]. cbn [parse_options].
  destruct (Z.leb_spec (zlen data) i); [eauto|]. pose proof (byte_at data (i + 1) Hb).
  destruct (znth data i =? 0); [apply IH; lia|].
  destruct (_ || _); [eauto|]. apply IH; lia.
Qed.

Lemma options_fuel_enough data o : is_bytes data -> exists o', parse_options (options_fuel data) data 240 o = Ok o'.
Proof. intros Hb. apply parse_options_ends; [done|lia|]. unfold options_fuel, zlen. lia. Qed.

(** Every datagram is parsed or dropped. *)
Lemma parse_packet_ends data : is_bytes data -> exists o, parse_packet data = Ok o.
Proof.
  intros Hb. unfold parse_packet. destruct (has_cookie data); cbn [negb]; [|eauto]. destruct (_ =? 1); cbn [negb]; [|eauto].
  destruct (options_fuel_enough data [] Hb) as [o ->]. cbn. eauto.
Qed.

Lemma foreign_offer_ends data x : is_bytes data -> exists o, foreign_offer_server_id data x = Ok o.
Proof.
  intros Hb. unfold foreign_offer_server_id. destruct (parse_packet_ends data Hb) as [p ->]. cbn [mbind result_bind].
  destruct p; [eauto|]. destruct (has_cookie data); cbn [negb]; [|eauto]. do 2 (destruct (_ =? _); cbn [negb]; [|eauto]).
  destruct (options_fuel_enough data [] Hb) as [o ->]. cbn [mbind result_bind].
  destruct (default [] _); [eauto|]. destruct (existsb _ _); cbn [negb]; [|eauto]. destruct (_ =? 4); [eauto|].
  destruct (_ =? 0); cbn [negb]; eauto.
Qed.

(** ** Fields *)

Lemma be_int_bound bs : is_bytes bs -> 0 <= be_int bs < 256 ^ zlen bs.
Proof.
  intros Hb. unfold be_int. replace (zlen bs) with (zlen (rev bs)) by (unfold zlen; by rewrite length_rev).
  apply le_int_bound. by apply Forall_rev.
Qed.

Lemma be_int_be_bytes n v : be_int (be_bytes n v) = v mod 256 ^ Z.of_nat n.
Proof. unfold be_int, be_bytes. rewrite rev_involutive. apply le_int_le_bytes. Qed.

Lemma be_bytes_be_int bs : is_bytes bs -> be_bytes (length bs) (be_int bs) = bs.
Proof.
  intros Hb. unfold be_int, be_bytes. rewrite <- (length_rev bs), le_bytes_le_int by (by apply Forall_rev).
  apply rev_involutive.
Qed.

Lemma is_bytes_be_bytes n v : is_bytes (be_bytes n v).
Proof. apply Forall_rev, is_bytes_le_bytes. Qed.

Lemma net_field_ok w v : 0 <= v < 256 ^ Z.of_nat w -> net_field w v = Ok (be_bytes w v).
Proof. intros Hv. unfold net_field. by rewrite fits_unsigned. Qed.

Lemma str_field_zlen w s : 0 <= w -> zlen (str_field w s) = w.
Proof. intros Hw. unfold str_field. rewrite zlen_ljust, zlen_ztake. pose proof (zlen_nonneg s). lia. Qed.

Lemma str_field_exact w s : zlen s = w -> str_field w s = s.
Proof. intros Hw. unfold str_field, ljust. rewrite ztake_all, Hw, Z.sub_diag by lia. apply app_nil_r. Qed.

(** ** The header *)

(** The numbers fit their fields. *)
Definition bootp_ok (b : bootp) : Prop := Forall (fun wv => 0 <= snd wv < 256 ^ Z.of_nat (fst wv)) (bootp_numbers b).

Lemma net_fields_ok fs : Forall (fun wv => 0 <= snd wv < 256 ^ Z.of_nat (fst wv)) fs ->
  net_fields fs = Ok (concat (map (fun wv => be_bytes (fst wv) (snd wv)) fs)).
Proof.
  induction 1 as [|[w v] fs Hv _ IH]; [done|]. cbn [net_fields fst snd] in *. rewrite net_field_ok by done. cbn. by rewrite IH.
Qed.

Definition bootp_bytes (b : bootp) : bytes :=
  concat (map (fun wv => be_bytes (fst wv) (snd wv)) (bootp_numbers b))
  ++ str_field 16 (chaddr b) ++ str_field 64 (sname b) ++ str_field 128 (bootfile b).

Lemma bootp_pack_ok b : bootp_ok b -> bootp_pack b = Ok (bootp_bytes b).
Proof. intros Hb. unfold bootp_pack. by rewrite net_fields_ok. Qed.

Lemma bootp_bytes_zlen b : zlen (bootp_bytes b) = 236.
Proof. unfold bootp_bytes. rewrite !zlen_app, !str_field_zlen by lia. reflexivity. Qed.

Lemma slice_mid {A} (pre mid rest : list A) a c : a = zlen pre -> c = zlen pre + zlen mid -> slice (pre ++ mid ++ rest) a c = mid.
Proof.
  intros -> ->. unfold slice. rewrite zdrop_app_length by done. by apply ztake_app_length; lia.
Qed.

Lemma bootp_unpack_bytes b rest : bootp_ok b ->
  bootp_unpack (bootp_bytes b ++ rest) =
  Bootp (op b) (htype b) (hlen b) (hops b) (xid b) (secs b) (flags b) (ciaddr b) (yiaddr b) (siaddr b) (giaddr b)
        (str_field 16 (chaddr b)) (str_field 64 (sname b)) (str_field 128 (bootfile b)).
Proof.
  intros Hb. unfold bootp_ok, bootp_numbers in Hb. repeat setoid_rewrite Forall_cons in Hb.
  destruct Hb as (H1 & H2 & H3 & H4 & H5 & H6 & H7 & H8 & H9 & H10 & H11 & _). cbn [fst snd] in *.
  unfold bootp_unpack, bootp_bytes. set (N := concat _). assert (HN : zlen N = 28) by reflexivity.
  rewrite <- !app_assoc. f_equal.
  1-11: match goal with
    | |- be_int (slice _ ?a _) = ?v =>
        etrans; [|exact (Z.mod_small v _ ltac:(eassumption))]; rewrite <- be_int_be_bytes; reflexivity
    end.
  - apply slice_mid; rewrite ?str_field_zlen, HN by lia; done.
  - rewrite (app_assoc N). apply slice_mid; rewrite ?zlen_app, ?str_field_zlen, HN by lia; done.
  - rewrite (app_assoc N), (app_assoc (N ++ _)). apply slice_mid; rewrite ?zlen_app, ?str_field_zlen, HN by lia; done.
Qed.

(** ** Options read back *)

(** An option as it is written *)
Definition tlv (o : Z * bytes) : bytes := fst o :: zlen (snd o) :: snd o.
Definition option_ok (o : Z * bytes) : Prop := 0 < fst o < 255.

Lemma znth_mid pre x rest i : i = zlen pre -> znth (pre ++ x :: rest) i = x.
Proof.
  intros ->. rewrite znth_app by apply zlen_nonneg. rewrite Z.ltb_irrefl, Z.sub_diag. done.
Qed.

Lemma parse_options_tlvs os pre rest o fuel : Forall option_ok os -> (length os < fuel)%nat ->
  parse_options fuel (pre ++ concat (map tlv os) ++ 255 :: rest) (zlen pre) o = Ok (foldl (fun o tv => aset (fst tv) (snd tv) o) o os).
Proof.
  intros Hos. revert pre o fuel. induction Hos as [|[t v] os Ht _ IH]; intros pre o fuel Hf; (destruct fuel as [|fuel]; [cbn in Hf; lia|]);
    cbn [parse_options concat map foldl app].
  - rewrite (proj2 (Z.leb_gt _ _)) by (rewrite zlen_app, zlen_cons; pose proof (zlen_nonneg rest); lia).
    by rewrite znth_mid.
  - unfold option_ok in Ht. cbn [fst snd tlv] in *. set (d := pre ++ _).
    assert (E1 : d = pre ++ t :: (zlen v :: v ++ concat (map tlv os) ++ 255 :: rest)) by (unfold d; cbn; by rewrite <- app_assoc).
    assert (E2 : d = (pre ++ [t]) ++ zlen v :: (v ++ concat (map tlv os) ++ 255 :: rest)) by (rewrite E1, <- app_assoc; done).
    assert (E3 : d = (pre ++ [t; zlen v]) ++ v ++ (concat (map tlv os) ++ 255 :: rest)) by (rewrite E1, <- app_assoc; done).
    assert (E4 : d = (pre ++ t :: zlen v :: v) ++ concat (map tlv os) ++ 255 :: rest) by (rewrite E1, <- app_assoc; done).
    assert (Hd : zlen pre + 2 + zlen v <= zlen d).
    { rewrite E3, !zlen_app, !zlen_cons, zlen_nil. pose proof (zlen_nonneg (concat (map tlv os))). pose proof (zlen_nonneg rest). lia. }
    pose proof (zlen_nonneg v).
    assert (N1 : znth d (zlen pre) = t) by (rewrite E1; by apply znth_mid).
    assert (N2 : znth d (zlen pre + 1) = zlen v) by (rewrite E2; apply znth_mid; by rewrite zlen_app).
    assert (N3 : slice d (zlen pre + 2) (zlen pre + 2 + zlen v) = v) by (rewrite E3; apply slice_mid; by rewrite zlen_app).
    rewrite (proj2 (Z.leb_gt _ _)), N1, N2, N3, (proj2 (Z.leb_gt _ _)) by lia.
    rewrite (proj2 (Z.eqb_neq t 0)), (proj2 (Z.eqb_neq t 255)) by lia. cbn [orb].
    replace (zlen pre + 2 + zlen v) with (zlen (pre ++ t :: zlen v :: v)) by (rewrite zlen_app, !zlen_cons; lia).
    rewrite E4. apply IH. cbn in Hf. lia.
Qed.

(** A packet of this module: header, cookie, options, padding *)
Lemma message_parts b os rest : Forall option_ok os -> (length os < 100)%nat ->
  let d := bootp_bytes b ++ MAGIC_COOKIE ++ concat (map tlv os) ++ 255 :: rest in
  has_cookie d = true /\ slice d 0 236 = bootp_bytes b /\
  parse_options (options_fuel d) d 240 [] = Ok (foldl (fun o tv => aset (fst tv) (snd tv) o) [] os).
Proof.
  intros Hos Hlen d. pose proof (bootp_bytes_zlen b) as Hz.
  assert (E : d = (bootp_bytes b ++ MAGIC_COOKIE) ++ concat (map tlv os) ++ 255 :: rest) by (unfold d; by rewrite <- app_assoc).
  assert (Hd : 241 <= zlen d).
  { rewrite E, !zlen_app, Hz, zlen_cons. pose proof (zlen_nonneg rest). pose proof (zlen_nonneg (concat (map tlv os))).
    change (zlen MAGIC_COOKIE) with 4. lia. }
  split_and!.
  - unfold has_cookie. rewrite (proj2 (Z.leb_le _ _)) by lia. unfold d. rewrite slice_mid by (by rewrite Hz).
    unfold str_eqb. by rewrite bool_decide_true.
  - unfold d, slice. rewrite zdrop_0. apply ztake_app_length. by rewrite Hz.
  - replace 240 with (zlen (bootp_bytes b ++ MAGIC_COOKIE)) by (by rewrite zlen_app, Hz).
    rewrite E at 2. apply parse_options_tlvs; [done|]. unfold options_fuel, zlen in *. lia.
Qed.

(** ** Requests and replies *)

(** What the fields of a request may hold *)
Definition packet_ok (p : packet) : Prop :=
  0 <= pk_htype p < 256 /\ 0 <= pk_hlen p < 256 /\ is_ip (pk_xid p) /\ 0 <= pk_flags p < 65536 /\
  is_ip (pk_ciaddr p) /\ is_ip (pk_giaddr p) /\ zlen (pk_chaddr p) = 16 /\ is_bytes (pk_mac p).

Lemma be_int_slice d a n k : is_bytes d -> zlen d = 236 -> 0 <= a -> 0 <= n -> a + n <= 236 -> k = 256 ^ n ->
  0 <= be_int (slice d a (a + n)) < k.
Proof.
  intros Hb Hz Ha Hn Hk ->. pose proof (be_int_bound _ (is_bytes_slice d a (a + n) Hb)) as H.
  rewrite zlen_slice in H by done. by replace (Z.max 0 (Z.min (a + n - a) (zlen d - a))) with n in H by lia.
Qed.

Lemma parse_packet_ok data p : is_bytes data -> parse_packet data = Ok (Some p) ->
  packet_ok p /\ has_cookie data = true /\ op (bootp_unpack (slice data 0 236)) = 1.
Proof.
  intros Hb. unfold parse_packet. destruct (has_cookie data) eqn:Hc; cbn [negb]; [|done].
  destruct (Z.eqb_spec (op (bootp_unpack (slice data 0 236))) 1) as [Ho|]; cbn [negb]; [|done].
  intros Hp. bind_inv Hp. injection Hp as <-. split; [|done].
  assert (Hz : zlen (slice data 0 236) = 236).
  { unfold has_cookie in Hc. apply andb_true_iff in Hc as [Hc _]. rewrite zlen_slice by lia. lia. }
  assert (Hd : is_bytes (slice data 0 236)) by (by apply is_bytes_slice).
  generalize dependent (slice data 0 236). intros d _ Hz Hd. unfold packet_ok, is_ip. cbn.
  split_and!; try (eapply be_int_slice; [done|done|lia|lia|lia|done]).
  - rewrite zlen_slice by lia. lia.
  - apply Forall_take. by apply is_bytes_slice.
Qed.

(** The options of an OFFER or ACK *)
Definition lease_options (mt server mask lease : Z) : list (Z * bytes) :=
  [(53, [mt]); (54, be_bytes 4 server); (51, be_bytes 4 lease); (1, be_bytes 4 mask); (3, be_bytes 4 server)].

Definition reply_header (pkt : packet) (mt server client : Z) : bootp :=
  Bootp 2 (pk_htype pkt) (pk_hlen pkt) 0 (pk_xid pkt) 0 (pk_flags pkt) (if mt =? MSG_ACK then pk_ciaddr pkt else 0)
        client server (pk_giaddr pkt) (pk_chaddr pkt) [] [].

Lemma reply_header_ok pkt mt server client : packet_ok pkt -> is_ip server -> is_ip client -> bootp_ok (reply_header pkt mt server client).
Proof.
  intros (H1 & H2 & H3 & H4 & H5 & H6 & _) Hs Hc. unfold is_ip in *. unfold bootp_ok, bootp_numbers, reply_header. cbn [op htype hlen hops xid secs flags ciaddr yiaddr siaddr giaddr].
  repeat (apply Forall_cons; split; [cbn [fst snd]; try (change (256 ^ Z.of_nat 1) with 256); try (change (256 ^ Z.of_nat 2) with 65536);
    try (change (256 ^ Z.of_nat 4) with 4294967296); first [lia|case_match; lia]|]). apply Forall_nil_2.
Qed.

Definition mask_value (p : Z) : Z := Z.land (Z.shiftl U32 (32 - p)) U32.

Lemma mask_value_bound p : is_ip (mask_value p).
Proof.
  unfold mask_value, is_ip. change U32 with (Z.ones 32). rewrite Z.land_ones by lia. apply Z.mod_pos_bound. lia.
Qed.

Lemma build_reply_eq pkt mt s c p lease : packet_ok pkt -> is_ip s -> is_ip c -> p <= 32 -> is_lease mt = true -> is_ip lease ->
  build_reply pkt mt (dotted s) (dotted c) p lease =
    Ok (bootp_bytes (reply_header pkt mt s c) ++ MAGIC_COOKIE
        ++ concat (map tlv (lease_options mt s (mask_value p) lease)) ++ 255 :: zeros 32).
Proof.
  intros Hp Hs Hc Hpl Hm Hl. pose proof (mask_value_bound p) as Hmask.
  assert (Hmt : 0 <= mt < 256 /\ mt <> 6) by (unfold is_lease, MSG_OFFER, MSG_ACK in Hm; lia).
  unfold build_reply. rewrite !ip_to_int_dotted, Hm by done. cbn [mbind result_bind].
  rewrite (proj2 (Z.ltb_ge _ _)) by lia. cbn [mbind result_bind]. fold (mask_value p).
  unfold reply_options, byte_of. rewrite (proj2 (Z.leb_le _ _)), (proj2 (Z.ltb_lt _ _)) by lia. cbn [andb mbind result_bind].
  unfold MSG_NAK. rewrite (proj2 (Z.eqb_neq mt 6)) by lia.
  rewrite !(net_field_ok 4) by done. cbn [mbind result_bind].
  rewrite bootp_pack_ok by (by apply reply_header_ok). cbn [mbind result_bind]. f_equal. unfold ljust.
  rewrite !zlen_app, bootp_bytes_zlen. fold (reply_header pkt mt s c). rewrite <- !app_assoc. do 2 f_equal.
Qed.

(** What a client finds in a reply to its request *)
Record offer := Offer {
  o_type : Z;
  o_xid : Z;
  o_chaddr : bytes;
  o_address : Z;
  o_server : Z;
  o_mask : Z;
  o_router : Z;
  o_seconds : Z
}.

Definition option_int (n : Z) (os : list (Z * bytes)) : option Z :=
  v ← alookup n os; if zlen v =? 4 then Some (be_int v) else None.

(** A client reads a BOOTREPLY by the format. *)
Definition read_offer (data : bytes) : option offer :=
  let b := bootp_unpack (slice data 0 236) in
  if has_cookie data && (op b =? 2) && (300 <=? zlen data) then
    match parse_options (options_fuel data) data 240 [] with
    | Ok os =>
        t ← alookup 53 os; t ← head t;
        server ← option_int 54 os; mask ← option_int 1 os; router ← option_int 3 os; seconds ← option_int 51 os;
        Some (Offer t (xid b) (chaddr b) (yiaddr b) server mask router seconds)
    | Err _ => None
    end
  else None.

Lemma lease_options_ok mt s m l : Forall option_ok (lease_options mt s m l).
Proof. unfold lease_options, option_ok. repeat (apply Forall_cons; split; [cbn; lia|]). apply Forall_nil_2. Qed.

(** The reply a request gets, and what its parts are *)
Lemma reply_parts pkt mt s c p lease : packet_ok pkt -> is_ip s -> is_ip c -> p <= 32 -> is_lease mt = true -> is_ip lease ->
  exists reply,
    build_reply pkt mt (dotted s) (dotted c) p lease = Ok reply /\ zlen reply = 300 /\ has_cookie reply = true /\
    znth reply 0 = 2 /\ be_int (slice reply 4 8) = pk_xid pkt /\
    bootp_unpack (slice reply 0 236) =
      (let h := reply_header pkt mt s c in
       Bootp 2 (htype h) (hlen h) 0 (xid h) 0 (flags h) (ciaddr h) c s (giaddr h) (pk_chaddr pkt) (zeros 64) (zeros 128)) /\
    parse_options (options_fuel reply) reply 240 [] = Ok (lease_options mt s (mask_value p) lease).
Proof.
  intros Hp Hs Hc Hpl Hm Hl. eexists. split; [by apply build_reply_eq|].
  set (h := reply_header pkt mt s c). set (os := lease_options _ _ _ _).
  assert (Hh : bootp_ok h) by (by apply reply_header_ok).
  destruct (message_parts h os (zeros 32) (lease_options_ok _ _ _ _) ltac:(cbn; lia)) as (H1 & H2 & H3).
  pose proof (bootp_unpack_bytes h [] Hh) as Hu. rewrite app_nil_r in Hu.
  destruct Hp as (_ & _ & Hx & _ & _ & _ & Hch & _).
  split_and!; [|exact H1|reflexivity| |rewrite H2, Hu; cbn; by rewrite str_field_exact|exact H3].
  - rewrite !zlen_app, bootp_bytes_zlen. reflexivity.
  - etrans; [|exact (Z.mod_small (pk_xid pkt) 4294967296 Hx)]. change 4294967296 with (256 ^ Z.of_nat 4).
    rewrite <- be_int_be_bytes. reflexivity.
Qed.

Lemma zlen_be_bytes n v : zlen (be_bytes n v) = Z.of_nat n.
Proof. unfold zlen, be_bytes. by rewrite length_rev, length_le_bytes. Qed.

Lemma option_int_be t v os : is_ip v -> alookup t os = Some (be_bytes 4 v) -> option_int t os = Some v.
Proof.
  intros Hv E. unfold option_int. rewrite E. cbn [mbind option_bind].
  rewrite zlen_be_bytes, be_int_be_bytes. f_equal. by apply Z.mod_small.
Qed.

Lemma reply_read pkt mt s c p lease reply : packet_ok pkt -> is_ip s -> is_ip c -> p <= 32 -> is_lease mt = true -> is_ip lease ->
  build_reply pkt mt (dotted s) (dotted c) p lease = Ok reply ->
  read_offer reply = Some (Offer mt (pk_xid pkt) (pk_chaddr pkt) c s (mask_value p) s lease).
Proof.
  intros Hp Hs Hc Hpl Hm Hl Hr. destruct (reply_parts pkt mt s c p lease) as (r & Hr' & Hz & Hk & _ & _ & Hu & Ho); [done..|].
  rewrite Hr in Hr'. injection Hr' as <-. unfold read_offer. rewrite Hk, Hu, Hz, Ho. cbn [andb op Z.eqb Pos.eqb Z.leb Z.compare Pos.compare Pos.compare_cont].
  pose proof (mask_value_bound p).
  rewrite (option_int_be 54 s), (option_int_be 1 (mask_value p)), (option_int_be 3 s), (option_int_be 51 lease) by (done || reflexivity).
  reflexivity.
Qed.

(** A reply of another server to our probe is recognised, whatever address it claims. *)
Lemma reply_detected pkt mt s c p lease reply : packet_ok pkt -> is_ip s -> is_ip c -> p <= 32 -> is_lease mt = true -> is_ip lease ->
  build_reply pkt mt (dotted s) (dotted c) p lease = Ok reply ->
  foreign_offer_server_id reply (pk_xid pkt) = Ok (Some (dotted s)).
Proof.
  intros Hp Hs Hc Hpl Hm Hl Hr. destruct (reply_parts pkt mt s c p lease) as (r & Hr' & Hz & Hk & H0 & Hx & Hu & Ho); [done..|].
  rewrite Hr in Hr'. injection Hr' as <-. unfold foreign_offer_server_id, parse_packet. rewrite Hk, Hu. cbn [negb op Z.eqb Pos.eqb mbind result_bind].
  rewrite H0, Hx, !Z.eqb_refl. cbn [negb]. rewrite Ho. cbn [mbind result_bind].
  change (alookup 53 _) with (Some [mt]). cbn [default id from_option]. 
  replace (existsb (Z.eqb mt) [MSG_OFFER; MSG_ACK; MSG_NAK]) with true
    by (symmetry; unfold is_lease in Hm; cbn [existsb]; rewrite orb_true_iff in *; rewrite orb_true_iff; tauto).
  cbn [negb]. change (alookup 54 _) with (Some (be_bytes 4 s)). cbn [default id from_option]. rewrite zlen_be_bytes.
  change (Z.of_nat 4 =? 4) with true. cbv iota. rewrite be_int_be_bytes. do 3 f_equal. by apply Z.mod_small.
Qed.

(** ** The probe read by a server *)

Definition discover_header (x : Z) (mac : bytes) : bootp := Bootp 1 1 (zlen mac) 0 x 0 0x8000 0 0 0 0 (ljust mac 16) [] [].
Definition discover_options : list (Z * bytes) := [(53, [MSG_DISCOVER]); (55, [1])].

Lemma discover_read x mac : is_ip x -> zlen mac = 6 ->
  exists d, build_discover x mac = Ok d /\
    parse_packet d = Ok (Some (Packet 1 6 x 0x8000 0 0 mac (ljust mac 16) discover_options)).
Proof.
  intros Hx Hm.
  assert (Hh : bootp_ok (discover_header x mac)).
  { unfold bootp_ok, bootp_numbers, discover_header. cbn [op htype hlen hops xid secs flags ciaddr yiaddr siaddr giaddr]. rewrite Hm.
    repeat (apply Forall_cons; split; [cbn [fst snd]; first [done|lia]|]). apply Forall_nil_2. }
  assert (Hos : Forall option_ok discover_options).
  { repeat (apply Forall_cons; split; [unfold option_ok; cbn; lia|]). apply Forall_nil_2. }
  eexists. split.
  { unfold build_discover. fold (discover_header x mac). rewrite bootp_pack_ok by done. reflexivity. }
  destruct (message_parts (discover_header x mac) discover_options [] Hos ltac:(cbn; lia)) as (H1 & H2 & H3).
  pose proof (bootp_unpack_bytes _ [] Hh) as Hu. rewrite app_nil_r in Hu.
  unfold parse_packet. change ([53; 1; MSG_DISCOVER; 55; 1; 1] ++ [255]) with (concat (map tlv discover_options) ++ [255]).
  rewrite H1, H2, Hu, H3. cbn [negb op htype hlen xid flags ciaddr giaddr chaddr discover_header Z.eqb Pos.eqb mbind result_bind].
  rewrite Hm. cbn [Z.leb Z.compare Pos.compare Pos.compare_cont andb]. rewrite str_field_exact by (rewrite zlen_ljust; lia).
  do 3 f_equal. unfold ljust. by apply ztake_app_length.
Qed.

Lemma net_field_bytes w v bs : net_field w v = Ok bs -> is_bytes bs.
Proof. unfold net_field. destruct (fits _ _); [|done]. intros [= <-]. apply is_bytes_be_bytes. Qed.

Lemma net_fields_bytes fs bs : net_fields fs = Ok bs -> is_bytes bs.
Proof.
  revert bs. induction fs as [|[w v] fs IH]; intros bs; cbn [net_fields]; [intros [= <-]; constructor|].
  intros H. bind_inv H. bind_inv H. injection H as <-. apply Forall_app. split; [by eapply net_field_bytes|by apply IH].
Qed.

Lemma is_bytes_app a b : is_bytes a -> is_bytes b -> is_bytes (a ++ b).
Proof. intros. by apply Forall_app. Qed.

Lemma is_bytes_ljust s n : is_bytes s -> is_bytes (ljust s n).
Proof. intros Hs. apply Forall_app. split; [done|]. apply Forall_replicate. unfold is_byte. lia. Qed.

Lemma build_discover_bytes x mac d : is_bytes mac -> build_discover x mac = Ok d -> is_bytes d.
Proof.
  intros Hm. unfold build_discover, bootp_pack. intros H. bind_inv H. bind_inv E. apply Ok_inj in E as <-. apply Ok_inj in H as <-.
  assert (Hstr : forall n s, is_bytes s -> is_bytes (str_field n s)) by (intros; by apply is_bytes_ljust, Forall_take).
  apply is_bytes_app; [apply is_bytes_app; [by eapply net_fields_bytes|]|].
  - refine (is_bytes_app _ _ (Hstr _ _ _) (is_bytes_app _ _ (Hstr _ _ _) (Hstr _ _ _))); [by apply is_bytes_ljust|constructor..].
  - cbn [app MAGIC_COOKIE]. repeat (apply Forall_cons; split; [unfold is_byte, MSG_DISCOVER; lia|]). apply Forall_nil_2.
Qed.
