(* ===== verification/DirectLink.v ===== *)
(** * Direct link: adapters, addresses and the plan

    Models the parts of [launcher/directlink.py] that decide: what the network ports of the host
    are ([_parse_linux_adapters], the parsers of the macOS tools, [_enumerate_windows] behind its
    JSON), which of them can be a direct link, which addresses a link may take, the setting for a
    console without DHCP, and the move when somebody else is on the wire.

    What a tool prints is a text of ASCII; where it prints JSON, the model begins with what
    [json.loads] returned, [Err ValueError] if it raised.  A value of another type than the code
    expects raises [TypeError] or [AttributeError].  Descriptions of adapters are left out. *)

From S2P Require Import Prelude PyStr PyText ChdCue Catalogue Http Ipv4 Dhcp.

(** ** JSON *)

Inductive json :=
  | JNull
  | JBool (b : bool)
  | JNum (n : Z)
  | JStr (s : text)
  | JList (l : list json)
  | JDict (kvs : list (text * json)).

(** [not not v] *)
Definition truthy (v : json) : bool :=
  match v with
  | JNull => false
  | JBool b => b
  | JNum n => negb (n =? 0)
  | JStr s => nonempty s
  | JList l => negb (zlen l =? 0)
  | JDict kvs => negb (zlen kvs =? 0)
  end.

(** [v.get(key)]; of keys that are repeated the last counts. *)
Definition get (key : text) (v : json) : result json :=
  match v with
  | JDict kvs => Ok (default JNull (snd <$> List.find (fun kv => str_eqb (fst kv) key) (rev kvs)))
  | _ => Err AttributeError
  end.
Definition get_lit (key : string) (v : json) : result json := get (lit key) v.

(** [for x in v] *)
Definition iterate (v : json) : result (list json) :=
  match v with
  | JList l => Ok l
  | JDict kvs => Ok (map (fun kv => JStr (fst kv)) kvs)
  | JStr s => Ok (map (fun c => JStr [c]) s)
  | _ => Err TypeError
  end.

(** [v or ""] where a text is expected, [v or []], and [int(v or 0)] *)
Definition text_or (v : json) : result text :=
  match v with JStr s => Ok s | _ => if truthy v then Err TypeError else Ok [] end.
Definition list_or (v : json) : json := if truthy v then v else JList [].
Definition int_or (v : json) : result Z :=
  match v with
  | JNum n => Ok n
  | JBool b => Ok (if b then 1 else 0)
  | JStr s => if nonempty s then match py_int10 (strip is_space s) with Some n => Ok n | None => Err ValueError end else Ok 0
  | _ => if truthy v then Err TypeError else Ok 0
  end.

Fixpoint mapm {A B} (f : A -> result B) (l : list A) : result (list B) :=
  match l with
  | [] => Ok []
  | x :: l => y ← f x; ys ← mapm f l; Ok (y :: ys)
  end.

(** ** Adapters and routes *)

(** The OS-native identifier of a port: an index on Windows, a name elsewhere *)
Inductive ident := Id_index (n : Z) | Id_name (s : text).

#[export] Instance ident_eq_dec : EqDecision ident.
Proof. solve_decision. Defined.

Record address := Address { ip : text; prefix : Z; origin : text }.

Record adapter := Adapter {
  name : text;
  if_index : Z;
  ad_id : ident;
  status : text;
  media : text;
  physical : bool;
  has_gateway : bool;
  ipv4 : list address
}.

Record route := Route { dest : text; route_if : option ident }.

Record enumeration := Enumeration { adapters : list adapter; routes : list route }.

(** *** Windows *)

Definition windows_address (v : json) : result address :=
  i ← get_lit "ip" v; i ← text_or i;
  p ← get_lit "prefix" v; p ← int_or p;
  o ← get_lit "origin" v; o ← text_or o;
  Ok (Address i p o).

(** [ConvertTo-Json] writes an array of one element as the element. *)
Definition uncollapse (v : json) : json := match list_or v with JDict kvs => JList [JDict kvs] | v => v end.

Definition windows_adapter (a : json) : result adapter :=
  ipv4 ← get_lit "ipv4" a; ipv4 ← iterate (uncollapse ipv4);
  i ← get_lit "ifIndex" a; i ← int_or i;
  n ← get_lit "name" a; n ← text_or n;
  s ← get_lit "status" a; s ← text_or s;
  m ← get_lit "media" a; m ← text_or m;
  p ← get_lit "physical" a; g ← get_lit "gateway" a;
  addresses ← mapm windows_address ipv4;
  Ok (Adapter n i (Id_index i) s m (truthy p) (truthy g) addresses).

Definition windows_route (r : json) : result route :=
  p ← get_lit "prefix" r; p ← text_or p;
  i ← get_lit "ifIndex" r;
  Ok (Route p (match i with JNum n => Some (Id_index n) | _ => None end)).

(** [_enumerate_windows]: [ran] tells that the script ended well, [loaded] is its output. *)
Definition enumerate_windows (ran : bool) (loaded : result json) : result enumeration :=
  if negb ran then Err WindowsSetupError
  else
    match loaded with
    | Err _ => Err WindowsSetupError
    | Ok data =>
        a ← get_lit "adapters" data; r ← get_lit "routes" data;
        a ← iterate (uncollapse a);
        out ← mapm windows_adapter a;
        r ← iterate (uncollapse r); r ← mapm windows_route r;
        Ok (Enumeration out r)
    end.

(** *** Linux *)

(** [s in flags] *)
Definition has_flag (s : string) (flags : json) : result bool :=
  match flags with
  | JList l => Ok (existsb (fun v => match v with JStr t => str_eqb t (lit s) | _ => false end) l)
  | JStr t => Ok (contains (lit s) t)
  | JDict kvs => Ok (existsb (fun kv => str_eqb (fst kv) (lit s)) kvs)
  | _ => Err TypeError
  end.

(** [_linux_status] *)
Definition linux_status (flags : json) : result text :=
  u ← has_flag "UP" flags;
  l ← (if u : bool then has_flag "LOWER_UP" flags else Ok false);
  Ok (if l : bool then lit "up" else lit "down").

(** [v == text] *)
Definition is_text (s : string) (v : json) : bool := match v with JStr t => str_eqb t (lit s) | _ => false end.

(** The devices of the default routes *)
Definition gateway_device (r : json) : result (option text) :=
  d ← get_lit "dst" r;
  if is_text "default" d then dev ← get_lit "dev" r; dev ← text_or dev; Ok (if nonempty dev then Some dev else None)
  else Ok None.

Definition linux_address (ai : json) : result (option address) :=
  f ← get_lit "family" ai;
  if negb (is_text "inet" f) then Ok None
  else
    l ← get_lit "local" ai; l ← text_or l;
    if negb (nonempty l) then Ok None
    else
      p ← get_lit "prefixlen" ai; p ← int_or p;
      d ← get_lit "dynamic" ai;
      Ok (Some (Address l p (if truthy d then lit "dhcp" else lit "manual"))).

Section linux.
Context (is_wireless is_physical : text -> bool) (gw_ifaces : list text).

Definition linux_adapter (a : json) : result (option adapter) :=
  n ← get_lit "ifname" a; n ← text_or n;
  flags ← get_lit "flags" a;
  let flags := list_or flags in
  if negb (nonempty n) || str_eqb n (lit "lo") then Ok None
  else
    loopback ← has_flag "LOOPBACK" flags;
    if (loopback : bool) then Ok None
    else
      info ← get_lit "addr_info" a; info ← iterate (list_or info);
      ipv4 ← mapm linux_address info;
      i ← get_lit "ifindex" a; i ← int_or i;
      s ← linux_status flags;
      Ok (Some (Adapter n i (Id_name n) s (if is_wireless n then lit "802.11" else lit "802.3") (is_physical n)
                        (existsb (str_eqb n) gw_ifaces) (omap id ipv4))).
End linux.

Definition linux_route (r : json) : result (option route) :=
  d ← get_lit "dst" r; d ← text_or d;
  if negb (nonempty d) || str_eqb d (lit "default") then Ok None
  else
    dev ← get_lit "dev" r; dev ← text_or dev;
    Ok (Some (Route (if existsb (Z.eqb SLASH) d then d else d ++ lit "/32") (Some (Id_name dev)))).

(** [_parse_linux_adapters] *)
Definition parse_linux_adapters (addr_json route_json : result json) (is_wireless is_physical : text -> bool) : result enumeration :=
  let addrs := match addr_json with Ok v => v | Err _ => JList [] end in
  match route_json with
  | Ok (JList routes) =>
      gw ← mapm gateway_device routes;
      addrs ← iterate addrs;
      out ← mapm (linux_adapter is_wireless is_physical (omap id gw)) addrs;
      r ← mapm linux_route routes;
      Ok (Enumeration (omap id out) (omap id r))
  | _ => Err WindowsSetupError
  end.

(** *** macOS *)

(** [str.splitlines()] of ASCII *)
Definition line_break (c : Z) : bool := ((10 <=? c) && (c <=? 13)) || ((28 <=? c) && (c <=? 30)).
Fixpoint splitlines_from (line : text) (s : text) : list text :=
  match s with
  | [] => if nonempty line then [line] else []
  | 13 :: ((10 :: t) as _) => line :: splitlines_from [] t
  | c :: t => if line_break c then line :: splitlines_from [] t else splitlines_from (line ++ [c]) t
  end.
Definition splitlines : text -> list text := splitlines_from [].

Definition COLON : Z := 58.

(** The bits of [bin(n).count("1")] *)
Fixpoint ones_of (p : positive) : Z :=
  match p with xH => 1 | xO p => ones_of p | xI p => 1 + ones_of p end.
Definition popcount (n : Z) : Z := match n with Z0 => 0 | Zpos p | Zneg p => ones_of p end.

(** [int(value, 16)] behind its [0x] *)
Fixpoint hex_digits (s : text) (acc : Z) (after_digit : bool) : option Z :=
  match s with
  | [] => if after_digit then Some acc else None
  | c :: s =>
      match hex_value c with
      | Some d => hex_digits s (acc * 16 + d) true
      | None => if (c =? 95) && after_digit then hex_digits s acc false else None
      end
  end.
Definition int_hex (s : text) : option Z :=
  match s with 95 :: t => hex_digits t 0 false | _ => hex_digits s 0 false end.

Fixpoint sum_bits (l : list text) : option Z :=
  match l with
  | [] => Some 0
  | o :: l => n ← py_int10 (strip is_space o); r ← sum_bits l; Some (popcount n + r)
  end.

(** [_macos_hex_mask_to_prefix] *)
Definition macos_hex_mask_to_prefix (value : text) : Z :=
  default 24 (if startswith value (lit "0x") then popcount <$> int_hex (zdrop 2 value) else sum_bits (split_on DOT value)).

(** What follows the word [netmask] *)
Fixpoint after_netmask (parts : list text) : option (option text) :=
  match parts with
  | [] => None
  | w :: ws => if str_eqb w (lit "netmask") then Some (head ws) else after_netmask ws
  end.

(** One line of the output of ifconfig *)
Definition ifconfig_line (acc : text * list address) (line : text) : result (text * list address) :=
  let line := strip is_space line in
  if startswith line (lit "status:") then Ok (if contains (lit "active") line then lit "up" else lit "down", snd acc)
  else if startswith line (lit "inet ") then
    let parts := split_space line [] in
    i ← index_result parts 1;
    p ← (match after_netmask parts with
         | None => Ok 24
         | Some None => Err IndexError
         | Some (Some m) => Ok (macos_hex_mask_to_prefix m)
         end);
    Ok (fst acc, snd acc ++ [Address i p (lit "manual")])
  else Ok acc.

Fixpoint ifconfig_lines (acc : text * list address) (lines : list text) : result (text * list address) :=
  match lines with
  | [] => Ok acc
  | l :: lines => acc ← ifconfig_line acc l; ifconfig_lines acc lines
  end.

(** [_parse_macos_ifconfig] *)
Definition parse_macos_ifconfig (s : text) : result (text * list address) := ifconfig_lines (lit "down", []) (splitlines s).

(** [_macos_service_is_dhcp] *)
Definition macos_service_is_dhcp (getinfo_text : text) : bool :=
  startswith (lower (strip_leading is_space getinfo_text)) (lit "dhcp configuration").

(** [line.split(":", 1)[1].strip()] of a line with a colon *)
Definition after_colon (line : text) : text := strip is_space (snd (partition_on COLON line)).

Fixpoint hardware_ports (lines : list text) (port : option text) : list (text * text) :=
  match lines with
  | [] => []
  | l :: lines =>
      let line := strip is_space l in
      if startswith line (lit "Hardware Port:") then hardware_ports lines (Some (after_colon line))
      else if startswith line (lit "Device:") then
        match port with
        | Some n => (n, after_colon line) :: hardware_ports lines None
        | None => hardware_ports lines None
        end
      else hardware_ports lines port
  end.

(** [_parse_macos_hardware_ports] *)
Definition parse_macos_hardware_ports (s : text) : list (text * text) := hardware_ports (splitlines s) None.

(** [_is_full_ipv4] *)
Definition is_full_ipv4 (s : text) : bool :=
  let parts := split_on DOT s in
  (zlen parts =? 4) && forallb (fun p => isdigit p && (0 <=? digits_value p) && (digits_value p <=? 255)) parts.

(** [s.partition("/")], of which the middle is left out *)
Definition partition_slash (s : text) : text * text := partition_on SLASH s.
Definition has_slash (s : text) : bool := existsb (Z.eqb SLASH) s.

(** [_parse_macos_routes] *)
Definition macos_route (line : text) : option route :=
  let dst := default [] (head (split_space line [])) in
  if has_slash dst then
    let '(a, plen) := partition_slash dst in
    if is_full_ipv4 a && isdigit plen then Some (Route dst (Some (Id_name []))) else None
  else if is_full_ipv4 dst then Some (Route (dst ++ lit "/32") (Some (Id_name []))) else None.
Definition parse_macos_routes (netstat_text : text) : list route := omap macos_route (splitlines netstat_text).

Definition in_any (words : list string) (s : text) : bool := existsb (fun w => contains (lit w) s) words.

(** The adapter of a hardware port *)
Definition macos_adapter (ifconfig_by_dev : text -> text) (default_dev : text) (dhcp_by_dev : text -> bool) (port : text * text) : result adapter :=
  let '(port_name, dev) := port in
  '(s, ipv4) ← parse_macos_ifconfig (ifconfig_by_dev dev);
  let ipv4 := if dhcp_by_dev dev then map (fun a => Address (ip a) (prefix a) (lit "dhcp")) ipv4 else ipv4 in
  let low := lower port_name in
  Ok (Adapter port_name 0 (Id_name dev) s (if in_any ["wi-fi"%string; "airport"%string] low then lit "802.11" else lit "802.3")
              (negb (in_any ["bridge"%string; "vlan"%string; "vpn"%string; "bluetooth"%string; "thunderbolt bridge"%string] low))
              (str_eqb dev default_dev) ipv4).

(** [_parse_macos_adapters] *)
Definition parse_macos_adapters (hardware_ports_text : text) (ifconfig_by_dev : text -> text) (default_dev : text)
    (dhcp_by_dev : text -> bool) (rs : list route) : result enumeration :=
  out ← mapm (macos_adapter ifconfig_by_dev default_dev dhcp_by_dev) (parse_macos_hardware_ports hardware_ports_text);
  Ok (Enumeration out rs).

(** ** Topology *)

(** [_canonical_ipv4] *)
Definition canonical_ipv4 (value : text) : result text :=
  match IPv4Address value with Ok a => Ok a | Err _ => Err WindowsSetupError end.

(** [_validate_topology] *)
Definition validate_topology (server_ip client_ip : text) (prefixlen : Z) : result (text * text * Z) :=
  server_ip ← canonical_ipv4 server_ip;
  client_ip ← canonical_ipv4 client_ip;
  if negb ((1 <=? prefixlen) && (prefixlen <=? 30)) then Err WindowsSetupError
  else
    server ← ipv4_value server_ip;
    client ← ipv4_value client_ip;
    let network := network_address server prefixlen in
    let broadcast := broadcast_address server prefixlen in
    if (server =? network) || (server =? broadcast) then Err WindowsSetupError
    else if negb (in_network client server prefixlen) || existsb (Z.eqb client) [network; broadcast; server] then Err WindowsSetupError
    else Ok (server_ip, client_ip, prefixlen).

(** [for host in range(lo, hi): if host not in avoid: return host]; each turn meets another
    element of [avoid], so that one more turn than these is enough. *)
Fixpoint first_free (fuel : nat) (lo hi : Z) (avoid : list Z) : result (option Z) :=
  match fuel with
  | O => Err Hang
  | S fuel =>
      if hi <=? lo then Ok None
      else if existsb (Z.eqb lo) avoid then first_free fuel (lo + 1) hi avoid
      else Ok (Some lo)
  end.
Definition free_fuel (avoid : list Z) : nat := S (length avoid).

(** The three turns of the loop of [static_client_settings] *)
Fixpoint after_lease (turns : nat) (candidate server prefixlen : Z) (avoided : list Z) : option Z :=
  match turns with
  | O => None
  | S turns =>
      if broadcast_address server prefixlen <? candidate then None
      else if in_network candidate server prefixlen && negb (existsb (Z.eqb candidate) avoided) then Some candidate
      else after_lease turns (candidate + 1) server prefixlen avoided
  end.

(** [static_client_settings] *)
Definition static_client_settings (server_ip dhcp_client_ip : text) (prefixlen : Z) : result (option (text * text * text)) :=
  t ← validate_topology server_ip dhcp_client_ip prefixlen;
  let '(server_ip, dhcp_client_ip, prefixlen) := t in
  server ← ipv4_value server_ip;
  dhcp_client ← ipv4_value dhcp_client_ip;
  let network := network_address server prefixlen in
  let broadcast := broadcast_address server prefixlen in
  let avoided := [network; broadcast; server; dhcp_client] in
  netmask ← prefix_to_netmask prefixlen;
  found ← (match after_lease 3 (dhcp_client + 1) server prefixlen avoided with
           | Some a => Ok (Some a)
           | None => first_free (free_fuel avoided) (network + 1) broadcast avoided
           end);
  Ok (match found with Some a => Some (dotted a, netmask, server_ip) | None => None end).

(** ** Which ports can be a direct link *)

(** The reasons of [classify_adapter] *)
Inductive refusal := Virtual_adapter | Wireless | No_link | Reaches_router | Holds_lease.

Definition is_up (a : adapter) : bool := str_eqb (lower (status a)) (lit "up").
Definition is_wireless_media (a : adapter) : bool :=
  in_any ["802.11"%string; "wireless"%string; "bluetooth"%string] (lower (media a)).
Definition holds_lease (a : adapter) : bool := existsb (fun i => str_eqb (lower (origin i)) (lit "dhcp")) (ipv4 a).

(** [classify_adapter]; [None] is a candidate. *)
Definition classify_adapter (a : adapter) (allow_down : bool) : option refusal :=
  if negb (physical a) then Some Virtual_adapter
  else if is_wireless_media a then Some Wireless
  else if negb allow_down && negb (is_up a) then Some No_link
  else if has_gateway a then Some Reaches_router
  else if holds_lease a then Some Holds_lease
  else None.

(** The three lists of [find_candidates] *)
Fixpoint sort_adapters (l : list adapter) (allow_down : bool) : list adapter * list adapter * list (adapter * refusal) :=
  match l with
  | [] => ([], [], [])
  | a :: l =>
      let '(up, down, rejected) := sort_adapters l allow_down in
      match classify_adapter a false with
      | None => (a :: up, down, rejected)
      | Some reason_up =>
          if allow_down then
            match classify_adapter a true with
            | None => (up, a :: down, rejected)
            | Some reason_down => (up, down, (a, reason_down) :: rejected)
            end
          else (up, down, (a, reason_up) :: rejected)
      end
  end.

(** [find_candidates] *)
Definition find_candidates (e : enumeration) (allow_down : bool) : list adapter * list (adapter * refusal) :=
  match sort_adapters (adapters e) allow_down with
  | ([], down, rejected) => (down, rejected)
  | (up, down, rejected) => (up, rejected ++ map (fun a => (a, No_link)) down)
  end.

(** ** Which networks are taken *)

Definition is_local (i : text) : bool := startswith i (lit "127.") || startswith i (lit "169.254.").

(** The networks of one adapter *)
Fixpoint taken_addresses (l : list address) : result (list (Z * Z)) :=
  match l with
  | [] => Ok []
  | entry :: l =>
      if negb (nonempty (ip entry)) || is_local (ip entry) then taken_addresses l
      else
        let plen := if prefix entry =? 0 then 32 else prefix entry in
        net ← network_of (ip entry) plen;
        rest ← taken_addresses l; Ok ((net, plen) :: rest)
  end.

Definition excluded (exclude_id : option ident) (i : option ident) : bool :=
  bool_decide (is_Some exclude_id) && bool_decide (i = exclude_id).

Fixpoint taken_adapters (exclude_id : option ident) (l : list adapter) : result (list (Z * Z)) :=
  match l with
  | [] => Ok []
  | a :: l =>
      if excluded exclude_id (Some (ad_id a)) then taken_adapters exclude_id l
      else here ← taken_addresses (ipv4 a); rest ← taken_adapters exclude_id l; Ok (here ++ rest)
  end.

(** What an entry of the routing table takes *)
Definition taken_route (r : route) : result (option (Z * Z)) :=
  if negb (has_slash (dest r)) then Ok None
  else
    let '(i, plen_s) := partition_slash (dest r) in
    match py_int10 (strip is_space plen_s) with
    | None => Ok None
    | Some plen =>
        match network_of i plen with
        | Err ValueError | Err (OSError _) => Ok None
        | Err e => Err e
        | Ok net =>
            first_octet ← (if plen =? 0 then Ok 0 else n ← ip_to_int i; Ok (Z.shiftr n 24));
            if (plen =? 0) || (first_octet =? 127) || (224 <=? first_octet) then Ok None
            else if startswith i (lit "169.254.") || str_eqb (dest r) (lit "255.255.255.255/32") then Ok None
            else Ok (Some (net, plen))
        end
    end.

Fixpoint taken_routes (exclude_id : option ident) (l : list route) : result (list (Z * Z)) :=
  match l with
  | [] => Ok []
  | r :: l =>
      if excluded exclude_id (route_if r) then taken_routes exclude_id l
      else t ← taken_route r; rest ← taken_routes exclude_id l; Ok (match t with Some t => t :: rest | None => rest end)
  end.

(** [taken_networks] *)
Definition taken_networks (e : enumeration) (exclude_id : option ident) : result (list (Z * Z)) :=
  a ← taken_adapters exclude_id (adapters e); r ← taken_routes exclude_id (routes e); Ok (a ++ r).

Definition CANDIDATE_SUBNETS : list text :=
  [lit "192.168.137"; lit "192.168.183"; lit "192.168.73"; lit "10.213.77"; lit "172.31.213"].

(** [any(networks_overlap(net, plen, tn, tp) for tn, tp in taken)] *)
Fixpoint any_overlap (net plen : Z) (taken : list (Z * Z)) : result bool :=
  match taken with
  | [] => Ok false
  | (tn, tp) :: taken => b ← networks_overlap net plen tn tp; if b : bool then Ok true else any_overlap net plen taken
  end.

Fixpoint choose_from (bases : list text) (taken : list (Z * Z)) : result (option (text * text)) :=
  match bases with
  | [] => Ok None
  | base :: bases =>
      net ← ip_to_int (base ++ lit ".0");
      b ← any_overlap net PREFIX_LENGTH taken;
      if b : bool then choose_from bases taken
      else Ok (Some (base ++ DOT :: decimal SERVER_HOST_NUM, base ++ DOT :: decimal CLIENT_HOST_NUM))
  end.

(** [choose_subnet]; [(None, None)] is [None]. *)
Definition choose_subnet (taken : list (Z * Z)) : result (option (text * text)) := choose_from CANDIDATE_SUBNETS taken.

(** ** The address of the port on Unix *)

(** [platform.system()] *)
Inductive system := Linux | Darwin | OtherSystem.

(** [local_ip_commands] *)
Definition local_ip_commands (adapter_id server_ip : text) (prefixlen : Z) (teardown : bool) (os_name : system) : result (list (list text)) :=
  server_ip ← canonical_ipv4 server_ip;
  let cidr := server_ip ++ SLASH :: decimal prefixlen in
  match os_name with
  | Linux =>
      if teardown then Ok [[lit "ip"; lit "addr"; lit "del"; cidr; lit "dev"; adapter_id]]
      else Ok [[lit "ip"; lit "link"; lit "set"; lit "dev"; adapter_id; lit "up"];
               [lit "ip"; lit "addr"; lit "add"; cidr; lit "dev"; adapter_id]]
  | Darwin =>
      if teardown then Ok [[lit "ifconfig"; adapter_id; lit "inet"; server_ip; lit "-alias"]]
      else mask ← prefix_to_netmask prefixlen;
           Ok [[lit "ifconfig"; adapter_id; lit "inet"; server_ip; lit "netmask"; mask; lit "alias"]]
  | OtherSystem => Err WindowsSetupError
  end.

(** [line.find("inet ")] and the fields behind each place it is found at *)
Fixpoint inet_fields (line : text) : list text :=
  match line with
  | [] => []
  | _ :: t => (if startswith line (lit "inet ") then [strip_leading is_space (zdrop 5 line)] else []) ++ inet_fields t
  end.

(** [_text_has_inet] *)
Definition text_has_inet (s address : text) : bool :=
  match canonical_ipv4 address with
  | Err _ => false
  | Ok a =>
      existsb (fun line =>
        existsb (fun rest => str_eqb rest a || startswith rest (a ++ lit "/") || startswith rest (a ++ lit " "))
          (inet_fields line))
        (splitlines s)
  end.

(** ** Sharing the wire *)

(** [_free_host] *)
Definition free_host (network_int prefixlen : Z) (avoid : list Z) : result (option Z) :=
  network ← network_of_int network_int prefixlen;
  if prefixlen <? 0 then Err ValueError
  else
    let broadcast := Z.lor network (Z.shiftr U32 prefixlen) in
    first_free (free_fuel avoid) (network + 1) broadcast avoid.

(** The addresses of the neighbours that can be read *)
Fixpoint neighbor_ints (l : list text) : result (list Z) :=
  match l with
  | [] => Ok []
  | n :: l =>
      match ip_to_int n with
      | Ok v => rest ← neighbor_ints l; Ok (v :: rest)
      | Err (OSError _) => neighbor_ints l
      | Err e => Err e
      end
  end.

Fixpoint in_other_net (l : list Z) (prefixlen our_net : Z) : result (list Z) :=
  match l with
  | [] => Ok []
  | n :: l => net ← network_of_int n prefixlen; rest ← in_other_net l prefixlen our_net; Ok (if net =? our_net then rest else n :: rest)
  end.

(** The plan for a server and a client that may have been found *)
Definition as_plan (new_server prefixlen : Z) (client : option Z) : option (text * text * Z) :=
  match client with Some new_client => Some (int_to_ip new_server, int_to_ip new_client, prefixlen) | None => None end.

(** A server and a client in a network *)
Definition free_pair (net prefixlen : Z) (avoid : list Z) : result (option (text * text * Z)) :=
  s ← free_host net prefixlen avoid;
  match s with
  | None => Ok None
  | Some new_server =>
      c ← free_host net prefixlen (new_server :: avoid);
      Ok (as_plan new_server prefixlen c)
  end.

(** Case B of [plan_rehome] *)
Definition step_aside (server_int : Z) (client_ip : text) (our_net prefixlen : Z) (avoid : list Z) : result (option (text * text * Z)) :=
  s ← free_host our_net prefixlen (server_int :: avoid);
  match s with
  | None => Ok None
  | Some new_server =>
      client_int ← ip_to_int client_ip;
      c ← (if existsb (Z.eqb client_int) avoid || (client_int =? new_server)
           then free_host our_net prefixlen (new_server :: server_int :: avoid) else Ok (Some client_int));
      Ok (as_plan new_server prefixlen c)
  end.

(** [plan_rehome] *)
Definition plan_rehome (server_ip client_ip : text) (prefixlen : Z) (neighbors : list text) (our_ip_present : bool)
    : result (option (text * text * Z)) :=
  server_int ← ip_to_int server_ip;
  our_net ← network_of_int server_int prefixlen;
  avoid ← neighbor_ints neighbors;
  off_subnet ← in_other_net avoid prefixlen our_net;
  adopted ← (match off_subnet with
             | [] => Ok None
             | n :: _ => target_net ← network_of_int n 24; free_pair target_net 24 avoid
             end);
  match adopted with
  | Some p => Ok (Some p)
  | None =>
      let same_subnet := negb (zlen off_subnet =? zlen avoid) in
      let contested := negb our_ip_present || existsb (Z.eqb server_int) avoid in
      if same_subnet && contested then step_aside server_int client_ip our_net prefixlen avoid else Ok None
  end.

(** What [_parse_neighbors] keeps of a value *)
Definition neighbor (our : list text) (v : json) : option text :=
  match v with
  | JStr i =>
      if existsb (str_eqb i) our || is_local i || startswith i (lit "0.") then None
      else
        match mapM (fun o => py_int10 (strip is_space o)) (split_on DOT i) with
        | Some [o0; _; _; o3] => if (224 <=? o0) || (o3 =? 0) || (o3 =? 255) then None else Some i
        | _ => None
        end
  | _ => None
  end.

(** [_parse_neighbors] *)
Definition parse_neighbors (loaded : result json) (our_ips : list text) : result (list text) :=
  match loaded with
  | Err _ => Ok []
  | Ok data =>
      l ← iterate (match data with JStr s => JList [JStr s] | v => v end);
      Ok (omap (M:=list) (neighbor our_ips) l)
  end.

(** [interface_neighbors]: [None] where the script did not run *)
Definition interface_neighbors (seen : option (result json)) (our_ips : list text) : result (list text) :=
  match seen with Some loaded => parse_neighbors loaded our_ips | None => Ok [] end.

(** ** Finding the port again *)

(** [adapter_state] of what was enumerated *)
Fixpoint adapter_by (is_name is_id : adapter -> bool) (l : list adapter) (by_id : option adapter) : option adapter :=
  match l with
  | [] => by_id
  | a :: l => if is_name a then Some a else adapter_by is_name is_id l (if is_id a then Some a else by_id)
  end.

Definition named (n : text) (a : adapter) : bool := nonempty n && str_eqb (name a) n.

Definition adapter_state (e : enumeration) (index : Z) (n : text) : option adapter :=
  adapter_by (named n) (fun a => if_index a =? index) (adapters e) None.

(** [_adapter_by_id_or_name] *)
Definition adapter_by_id_or_name (e : enumeration) (adapter_id : text) (n : text) : option adapter :=
  adapter_by (named n) (fun a => nonempty adapter_id && bool_decide (ad_id a = Id_name adapter_id)) (adapters e) None.

(** [_startup_adapter_check] *)
Definition startup_adapter_check (e : enumeration) (n : text) (index : Z) (server_ip : text) : result unit :=
  match adapter_state e index n with
  | None => Err DirectLinkRefused
  | Some a =>
      match classify_adapter a true with
      | Some _ => Err DirectLinkRefused
      | None => if existsb (fun i => str_eqb (ip i) server_ip) (ipv4 a) then Ok tt else Err DirectLinkRefused
      end
  end.

(** [_verify_unix_adapter] *)
Definition verify_unix_adapter (e : enumeration) (adapter_id n : text) : result adapter :=
  match adapter_by_id_or_name e adapter_id n with
  | None => Err DirectLinkRefused
  | Some a => match classify_adapter a true with Some _ => Err DirectLinkRefused | None => Ok a end
  end.
