(* ===== verification/DirectLinkFacts.v ===== *)
(** * Direct link: what is chosen is free

    The subnet chosen overlaps no network the host reaches; the setting for a console without
    DHCP is a host of the link that nobody has; a move keeps server and client apart and off the
    addresses of the neighbours; and only wired ports without a router or a lease are offered. *)

From S2P Require Import Prelude PyStr PyText ChdCue Catalogue Http Ipv4 Dhcp DirectLink.

(** ** Searching a free host *)

Lemma existsb_eqb_spec v l : existsb (Z.eqb v) l = true <-> v ∈ l.
Proof.
  rewrite existsb_exists. setoid_rewrite <- list_elem_of_In. split.
  - intros (x & Hx & ->%Z.eqb_eq). done.
  - intros Hv. exists v. by rewrite Z.eqb_refl.
Qed.

(** The elements from [lo] on *)
Definition from (lo : Z) (l : list Z) : list Z := List.filter (Z.leb lo) l.

Lemma from_step lo l : lo ∈ l -> (length (from (lo + 1) l) < length (from lo l))%nat.
Proof.
  induction l as [|x l IH]; [by intros ?%elem_of_nil|]. intros [->|Hin]%elem_of_cons; cbn [from List.filter].
  - rewrite (proj2 (Z.leb_le x x)), (proj2 (Z.leb_gt (x + 1) x)) by lia. cbn. fold (from (x + 1) l) (from x l).
    assert (length (from (x + 1) l) <= length (from x l))%nat; [|lia].
    clear IH. induction l as [|y l IH]; [done|]. cbn [from List.filter]. fold (from (x + 1) l) (from x l).
    destruct (Z.leb_spec (x + 1) y), (Z.leb_spec x y); cbn; lia.
  - specialize (IH Hin). fold (from (lo + 1) l) (from lo l) in *.
    destruct (Z.leb_spec (lo + 1) x), (Z.leb_spec lo x); cbn; lia.
Qed.

Lemma from_length lo l : (length (from lo l) <= length l)%nat.
Proof. apply List.filter_length_le. Qed.

(** What the search for a host finds *)
Definition least_free (lo hi : Z) (avoid : list Z) (o : option Z) : Prop :=
  match o with
  | Some a => lo <= a < hi /\ a ∉ avoid /\ forall b, lo <= b < a -> b ∈ avoid
  | None => forall b, lo <= b < hi -> b ∈ avoid
  end.

Lemma first_free_from fuel lo hi avoid : (length (from lo avoid) < fuel)%nat ->
  exists o, first_free fuel lo hi avoid = Ok o /\ least_free lo hi avoid o.
Proof.
  revert lo. induction fuel as [|fuel IH]; intros lo Hf; [lia|]. cbn [first_free].
  destruct (Z.leb_spec hi lo); [exists None; split; [done|]; intros b Hb; lia|].
  destruct (existsb (Z.eqb lo) avoid) eqn:E.
  - apply existsb_eqb_spec in E. pose proof (from_step lo avoid E). destruct (IH (lo + 1) ltac:(lia)) as (o & -> & Ho).
    exists o. split; [done|]. destruct o as [a|]; cbn in *.
    + destruct Ho as (? & ? & Hb). split_and!; [lia|lia|done|]. intros b ?. destruct (Z.eq_dec b lo) as [->|]; [done|apply Hb; lia].
    + intros b ?. destruct (Z.eq_dec b lo) as [->|]; [done|apply Ho; lia].
  - exists (Some lo). split; [done|]. split_and!; [lia|lia| |intros; lia].
    intros Hin%existsb_eqb_spec. congruence.
Qed.

(** One turn more than there are addresses to avoid is enough. *)
Lemma first_free_spec lo hi avoid :
  exists o, first_free (free_fuel avoid) lo hi avoid = Ok o /\ least_free lo hi avoid o.
Proof. apply first_free_from. unfold free_fuel. pose proof (from_length lo avoid). lia. Qed.

(** ** Topology *)

(** A host of the network of [n]: neither its first address nor its last *)
Definition usable (a n p : Z) : Prop := network_address n p < a < broadcast_address n p.

Lemma usable_in a n p : usable a n p -> in_network a n p = true.
Proof. unfold usable, in_network. intros [??]. by rewrite (proj2 (Z.leb_le _ _)), (proj2 (Z.leb_le _ _)) by lia. Qed.

Lemma usable_is_ip a n p : is_ip n -> 0 <= p <= 32 -> usable a n p -> is_ip a.
Proof.
  intros Hn Hp [??]. destruct (network_address_is_ip n p Hn Hp) as [[??] _]. destruct (broadcast_is_ip n p Hn Hp). unfold is_ip in *. lia.
Qed.

(** A network is that of each of its hosts. *)
Lemma same_network a n p : 0 <= p <= 32 -> in_network a n p = true -> network_address a p = network_address n p.
Proof. intros Hp H%in_network_spec; [|done]. unfold network_address. by rewrite H. Qed.

Lemma usable_same a b n p : 0 <= p <= 32 -> in_network b n p = true -> usable a b p <-> usable a n p.
Proof. intros Hp Hb. unfold usable, broadcast_address. by rewrite (same_network b n p). Qed.

(** Two hosts of one network of 1 to 30 bits *)
Definition topology (s c p : Z) : Prop := is_ip s /\ is_ip c /\ 1 <= p <= 30 /\ usable s s p /\ usable c s p /\ c <> s.

Lemma canonical_ipv4_inv t a : canonical_ipv4 t = Ok a -> exists v, is_ip v /\ t = dotted v /\ a = dotted v.
Proof.
  unfold canonical_ipv4. rewrite IPv4Address_value. destruct (ipv4_value t) as [v|] eqn:E; cbn; [|done]. intros [= <-].
  apply ipv4_value_canonical in E as [? ->]. eauto.
Qed.

Lemma canonical_ipv4_dotted v : is_ip v -> canonical_ipv4 (dotted v) = Ok (dotted v).
Proof. intros Hv. unfold canonical_ipv4. by rewrite IPv4Address_value, ipv4_value_dotted. Qed.

Lemma validate_topology_ok s c p : topology s c p -> validate_topology (dotted s) (dotted c) p = Ok (dotted s, dotted c, p).
Proof.
  intros (Hs & Hc & Hp & Hus & Huc & Hne). unfold validate_topology. rewrite !canonical_ipv4_dotted by done. cbn [mbind result_bind].
  rewrite (proj2 (Z.leb_le 1 p)), (proj2 (Z.leb_le p 30)) by lia. cbn [andb negb].
  rewrite !ipv4_value_dotted by done. cbn [mbind result_bind]. unfold usable in *.
  rewrite (proj2 (Z.eqb_neq s _)), (proj2 (Z.eqb_neq s (broadcast_address s p))) by lia. cbn [orb].
  rewrite usable_in by done. cbn [negb orb existsb].
  by rewrite !(proj2 (Z.eqb_neq c _)) by lia.
Qed.

Lemma validate_topology_inv ts tc p r : validate_topology ts tc p = Ok r ->
  exists s c, ts = dotted s /\ tc = dotted c /\ topology s c p /\ r = (ts, tc, p).
Proof.
  unfold validate_topology. destruct (canonical_ipv4 ts) as [a|] eqn:Ea; cbn [mbind result_bind]; [|done].
  destruct (canonical_ipv4 tc) as [b|] eqn:Eb; cbn [mbind result_bind]; [|done].
  apply canonical_ipv4_inv in Ea as (s & Hs & -> & ->), Eb as (c & Hc & -> & ->).
  destruct (_ && _) eqn:Hp; cbn [negb]; [|done]. rewrite !ipv4_value_dotted by done. cbn [mbind result_bind].
  destruct (_ || _) eqn:E1; [done|]. destruct (negb (in_network _ _ _) || _) eqn:E2; [done|]. intros [= <-].
  exists s, c. split_and!; [done..| |done].
  apply andb_true_iff in Hp as [Hp1 Hp2]. assert (Hp : 1 <= p <= 30) by lia.
  apply orb_false_iff in E1 as [N1 N2]. apply orb_false_iff in E2 as [N3 N4]. cbn [existsb] in N4.
  destruct (network_address_is_ip s p Hs ltac:(lia)) as [_ [??]].
  apply negb_false_iff in N3. unfold in_network in N3. apply andb_true_iff in N3 as [??].
  split; [done|]. split; [done|]. unfold usable. lia.
Qed.

Lemma int_to_ip_dotted v : is_ip v -> int_to_ip v = dotted v.
Proof. intros Hv. unfold int_to_ip. change U32 with (Z.ones 32). rewrite Z.land_ones, Z.mod_small by (done || lia). done. Qed.

Lemma prefix_mask_value p : 1 <= p <= 32 -> prefix_mask p = Ok (mask_value p).
Proof. intros Hp. unfold prefix_mask. by rewrite (proj2 (Z.eqb_neq p 0)), (proj2 (Z.ltb_ge 32 p)) by lia. Qed.

(** ** The setting for a console without DHCP *)

Lemma after_lease_spec turns candidate s p avoided a : after_lease turns candidate s p avoided = Some a ->
  in_network a s p = true /\ a ∉ avoided /\ candidate <= a.
Proof.
  revert candidate. induction turns as [|turns IH]; intros candidate; cbn [after_lease]; [done|].
  destruct (_ <? _); [done|]. destruct (_ && _) eqn:E.
  - intros [= <-]. apply andb_true_iff in E as [E1 E2%negb_true_iff]. split_and!; [done| |lia].
    intros H%existsb_eqb_spec. congruence.
  - intros (? & ? & ?)%IH. split_and!; [done..|lia].
Qed.

(** Being none of the two ends, the server and the leased address *)
Lemma not_avoided a s c p : a ∉ [network_address s p; broadcast_address s p; s; c] -> in_network a s p = true ->
  usable a s p /\ a <> s /\ a <> c.
Proof.
  unfold in_network, usable. intros Hn [??]%andb_true_iff. rewrite !not_elem_of_cons in Hn. lia.
Qed.

Lemma after_lease_next turns c s p : 1 <= p <= 30 -> usable (c + 1) s p -> c + 1 <> s -> is_ip s ->
  after_lease (S turns) (c + 1) s p [network_address s p; broadcast_address s p; s; c] = Some (c + 1).
Proof.
  intros Hp Hu Hne Hs. cbn [after_lease]. destruct Hu as [??]. rewrite (proj2 (Z.ltb_ge _ _)) by lia.
  rewrite usable_in by done. cbn [andb existsb]. by rewrite !(proj2 (Z.eqb_neq (c + 1) _)) by lia.
Qed.

(** The address given to a client without DHCP is a host of the link that is neither the
    server's nor the leased one, the one after the lease if that is free; there is none only if
    the link has no third host. *)
Theorem static_settings_spec s c p : topology s c p ->
  exists o, static_client_settings (dotted s) (dotted c) p = Ok o /\
    match o with
    | Some (a, mask, gateway) =>
        gateway = dotted s /\ mask = dotted (mask_value p) /\
        exists v, a = dotted v /\ usable v s p /\ v <> s /\ v <> c /\ (usable (c + 1) s p -> c + 1 <> s -> v = c + 1)
    | None => forall v, usable v s p -> v = s \/ v = c
    end.
Proof.
  intros Ht. pose proof Ht as (Hs & Hc & Hp & Hus & Huc & Hne). unfold static_client_settings.
  rewrite validate_topology_ok by done. cbn [mbind result_bind]. rewrite !ipv4_value_dotted by done. cbn [mbind result_bind].
  unfold prefix_to_netmask. rewrite prefix_mask_value by lia. cbn [mbind result_bind]. rewrite int_to_ip_dotted by apply mask_value_bound.
  set (avoided := [_; _; _; _]). destruct (after_lease 3 _ _ _ _) as [a|] eqn:E; cbn [mbind result_bind].
  - exists (Some (dotted a, dotted (mask_value p), dotted s)). split; [done|]. split_and!; [done..|]. exists a.
    pose proof (after_lease_spec _ _ _ _ _ _ E) as (Hin & Hav & _). destruct (not_avoided a s c p Hav Hin) as (? & ? & ?). split_and!; [done..|].
    intros Hn Hn'. unfold avoided in E. rewrite after_lease_next in E by (done || lia). by injection E as <-.
  - destruct (first_free_spec (network_address s p + 1) (broadcast_address s p) avoided) as (o & -> & Ho). cbn [mbind result_bind].
    eexists. split; [done|]. destruct o as [a|]; cbn in Ho |- *.
    + destruct Ho as (Ha & Hav & _). assert (Hin : in_network a s p = true) by (apply usable_in; unfold usable; lia).
      destruct (not_avoided a s c p Hav Hin) as (? & ? & ?). split_and!; [done..|]. exists a. split_and!; [done..|].
      intros Hn Hn'. unfold avoided in E. by rewrite after_lease_next in E by (done || lia).
    + intros v [??]. specialize (Ho v ltac:(lia)). unfold avoided in Ho. rewrite !elem_of_cons, elem_of_nil in Ho. lia.
Qed.

(** ** The ports that are offered *)

(** What a direct link may be made of *)
Definition wired_island (a : adapter) : Prop :=
  physical a = true /\ is_wireless_media a = false /\ has_gateway a = false /\ holds_lease a = false.

Lemma classify_none a allow : classify_adapter a allow = None <-> wired_island a /\ (allow = true \/ is_up a = true).
Proof.
  unfold classify_adapter, wired_island. destruct (physical a), (is_wireless_media a), allow, (is_up a), (has_gateway a), (holds_lease a); cbn; intuition congruence.
Qed.

Lemma sort_adapters_spec l allow up down rejected : sort_adapters l allow = (up, down, rejected) ->
  up ++ down ++ map fst rejected ≡ₚ l /\ Forall (fun a => classify_adapter a false = None) up /\
  Forall (fun a => classify_adapter a false <> None /\ classify_adapter a true = None /\ allow = true) down /\
  Forall (fun ar => classify_adapter (fst ar) allow = Some (snd ar)) rejected.
Proof.
  revert up down rejected. induction l as [|a l IH]; intros up down rejected; cbn [sort_adapters]; [by intros [= <- <- <-]|].
  destruct (sort_adapters l allow) as [[u d] r]. destruct (IH _ _ _ eq_refl) as (Hp & Hu & Hd & Hr).
  destruct (classify_adapter a false) as [x|] eqn:E1.
  - destruct allow; [destruct (classify_adapter a true) as [y|] eqn:E2|]; intros [= <- <- <-]; split_and!;
      try done; try (by constructor).
    + rewrite <- Hp. cbn. by rewrite <- !Permutation_middle.
    + rewrite <- Hp. cbn. by rewrite <- !Permutation_middle.
    + constructor; [by rewrite E1|done].
    + rewrite <- Hp. cbn. by rewrite <- !Permutation_middle.
  - intros [= <- <- <-]. split_and!; [by cbn; rewrite Hp|by constructor|done..].
Qed.

(** Every port is offered or refused, once; what is offered is a wired port with no router
    behind it and no lease; ports without a link are offered only if no other is. *)
Theorem candidates_are_islands e allow cs rejected : find_candidates e allow = (cs, rejected) ->
  cs ++ map fst rejected ≡ₚ adapters e /\ Forall wired_island cs /\
  (Forall (fun a => is_up a = true) cs \/ (allow = true /\ Forall (fun a => ~ (wired_island a /\ is_up a = true)) (adapters e))).
Proof.
  unfold find_candidates. destruct (sort_adapters _ _) as [[up down] r] eqn:E. destruct (sort_adapters_spec _ _ _ _ _ E) as (Hp & Hu & Hd & Hr).
  destruct up as [|u up]; intros [= <- <-].
  - split_and!; [done| |].
    + eapply Forall_impl; [exact Hd|]. intros a (_ & H & _). by apply classify_none in H as [? _].
    + destruct down as [|d down]; [by left|]. right. assert (allow = true) as -> by (by inversion Hd as [|?? (_ & _ & ?)]). split; [done|].
      rewrite <- Hp, app_nil_l. apply Forall_app. split.
      * eapply Forall_impl; [exact Hd|]. intros a (Hn & _ & _) [Hw Hup]. apply Hn, classify_none. by split; [|right].
      * apply Forall_map. eapply Forall_impl; [exact Hr|]. intros [a x] Ha [Hw Hup]. cbn in *.
        assert (classify_adapter a true = None); [|congruence]. apply classify_none. by split; [|left].
  - split_and!.
    + rewrite <- Hp, map_app, map_map. cbn. rewrite map_id. by rewrite (Permutation_app_comm down).
    + eapply Forall_impl; [exact Hu|]. intros a H. by apply classify_none in H as [? _].
    + left. eapply Forall_impl; [exact Hu|]. intros a H. by apply classify_none in H as [_ [?|?]].
Qed.

(** ** The subnet *)

Lemma hex_value_nonneg c : 0 <= default 0 (hex_value c).
Proof.
  unfold hex_value. repeat (case_match; cbn; [lia|]). cbn. lia.
Qed.

Lemma c_digits_nonneg base ok acc s : 0 <= base -> 0 <= acc -> 0 <= fst (c_digits base ok acc s).
Proof.
  intros Hb. revert acc. induction s as [|c s IH]; intros acc Hacc; cbn [c_digits]; [done|].
  destruct (ok c); [|done]. apply IH. pose proof (hex_value_nonneg c). nia.
Qed.

Lemma c_number_nonneg s : 0 <= fst (c_number s).
Proof. unfold c_number. repeat case_match; apply c_digits_nonneg; lia. Qed.

Lemma aton_bound dots high s n : (dots <= 3)%nat -> 0 <= high < 256 ^ (3 - Z.of_nat dots) -> aton dots high s = Some n -> is_ip n.
Proof.
  revert high s. induction dots as [|dots IH]; intros high s Hd Hh; (destruct s as [|x s]; [done|]); cbn [aton];
    (destruct (is_digit x); cbn [negb]; [|done]); pose proof (c_number_nonneg (x :: s)) as Hv;
    destruct (c_number (x :: s)) as [v rest]; cbn [fst] in Hv; (destruct (_ <? v); [done|]).
  - assert (Hfin : (if aton_end rest && (v <? 256) then Some (high * 256 + v) else None) = Some n -> is_ip n).
    { destruct (_ && _) eqn:E; [|done]. apply andb_true_iff in E as [_ E]. intros [= <-]. unfold is_ip. change (256 ^ (3 - Z.of_nat 0)) with 16777216 in Hh. lia. }
    destruct rest as [|[|y|y] rest]; [exact Hfin|exact Hfin| |exact Hfin].
    repeat first [exact Hfin|done|destruct y as [y|y|]].
  - assert (E3 : 256 ^ (3 - Z.of_nat (S dots)) * 256 ^ (Z.of_nat (S dots) + 1) = 4294967296) by (rewrite <- Z.pow_add_r by lia; by replace (_ + _) with 4 by lia).
    assert (Hfin : (if aton_end rest && (v <? 256 ^ (Z.of_nat (S dots) + 1)) then Some (high * 256 ^ (Z.of_nat (S dots) + 1) + v) else None) = Some n -> is_ip n).
    { destruct (_ && _) eqn:E; [|done]. apply andb_true_iff in E as [_ E]. intros [= <-]. unfold is_ip.
      generalize dependent (256 ^ (Z.of_nat (S dots) + 1)). intros m. generalize dependent (256 ^ (3 - Z.of_nat (S dots))). intros k. nia. }
    assert (Hdot : (if 255 <? v then None else aton dots (high * 256 + v) (tail rest)) = Some n -> is_ip n).
    { destruct (Z.ltb_spec 255 v); [done|]. apply IH; [lia|]. replace (3 - Z.of_nat dots) with (1 + (3 - Z.of_nat (S dots))) by lia.
      rewrite Z.pow_add_r by lia. lia. }
    destruct rest as [|[|y|y] rest]; [exact Hfin|exact Hfin| |exact Hfin].
    repeat first [exact Hfin|exact Hdot|destruct y as [y|y|]].
Qed.

Lemma ip_to_int_is_ip t v : ip_to_int t = Ok v -> is_ip v.
Proof.
  unfold ip_to_int. destruct (existsb _ _); [done|]. destruct (aton 3 0 t) as [n|] eqn:E; [|done]. intros [= <-].
  by eapply aton_bound; [|split|exact E].
Qed.

Lemma network_of_inv t p net : 0 <= p -> network_of t p = Ok net -> exists v, ip_to_int t = Ok v /\ p <= 32 /\ net = network_address v p.
Proof.
  intros Hp H. assert (Hm : p <= 32).
  { unfold network_of, prefix_mask in H. destruct (p =? 0) eqn:E; [lia|]. destruct (Z.ltb_spec 32 p); [done|lia]. }
  unfold network_of in H. destruct (ip_to_int t) as [v|] eqn:Ev; [|by destruct (prefix_mask p)].
  exists v. split_and!; [done..|]. pose proof (network_of_int_eq v p (ip_to_int_is_ip _ _ Ev) ltac:(lia)) as E. unfold network_of_int in E.
  destruct (prefix_mask p); cbn in *; congruence.
Qed.

(** A network that was counted overlaps the chosen one if an address is in both. *)
Definition apart (n1 p1 n2 p2 : Z) : Prop := forall x, ~ (in_network x n1 p1 = true /\ in_network x n2 p2 = true).

Lemma in_network_is_ip x n p : is_ip n -> 0 <= p <= 32 -> in_network x n p = true -> is_ip x.
Proof.
  intros Hn Hp. unfold in_network. intros [??]%andb_true_iff.
  destruct (network_address_is_ip n p Hn Hp) as [[??] _], (broadcast_is_ip n p Hn Hp). unfold is_ip in *. lia.
Qed.

Lemma any_overlap_total net taken : exists b, any_overlap net PREFIX_LENGTH taken = Ok b.
Proof.
  induction taken as [|[tn tp] taken [b IH]]; [eauto|]. cbn [any_overlap]. unfold networks_overlap, PREFIX_LENGTH in *.
  destruct (_ <=? 0); cbn [mbind result_bind]; [eauto|]. rewrite (proj2 (Z.ltb_ge _ _)) by lia. cbn [mbind result_bind].
  destruct (_ =? _); eauto.
Qed.

Lemma any_overlap_false net taken tn tp : is_ip net -> any_overlap net PREFIX_LENGTH taken = Ok false ->
  (tn, tp) ∈ taken -> is_ip tn -> 0 <= tp <= 32 -> apart net PREFIX_LENGTH tn tp.
Proof.
  intros Hn Ho Hin Htn Htp. revert Ho. induction taken as [|[n p] taken IH]; [by apply elem_of_nil in Hin|]. cbn [any_overlap].
  destruct (networks_overlap net PREFIX_LENGTH n p) as [b|] eqn:E; cbn [mbind result_bind]; [|done]. destruct b; [done|].
  apply elem_of_cons in Hin as [[= -> ->]|Hin]; [|by apply IH]. intros _ x [H1 H2].
  destruct (networks_overlap_spec net PREFIX_LENGTH n p) as (b & E' & Hb); [done|done|unfold PREFIX_LENGTH; lia|lia|].
  rewrite E in E'. injection E' as <-. assert (false = true); [|done]. apply Hb. exists x. split; [|done].
  by apply (in_network_is_ip x net PREFIX_LENGTH); [|unfold PREFIX_LENGTH; lia|].
Qed.

(** The addresses of a candidate *)
Definition base_value (base : text) : Z := match ip_to_int (base ++ lit ".0") with Ok n => n | Err _ => 0 end.

Lemma candidate_topology base : base ∈ CANDIDATE_SUBNETS ->
  ip_to_int (base ++ lit ".0") = Ok (base_value base) /\ base ++ DOT :: decimal SERVER_HOST_NUM = dotted (base_value base + 1) /\
  base ++ DOT :: decimal CLIENT_HOST_NUM = dotted (base_value base + 10) /\
  topology (base_value base + 1) (base_value base + 10) PREFIX_LENGTH /\ network_address (base_value base + 1) PREFIX_LENGTH = base_value base.
Proof.
  unfold CANDIDATE_SUBNETS. rewrite !elem_of_cons, elem_of_nil. intros [->|[->|[->|[->|[->|[]]]]]]; vm_compute; done.
Qed.

Lemma choose_from_spec bases taken : (forall base, base ∈ bases -> base ∈ CANDIDATE_SUBNETS) ->
  exists o, choose_from bases taken = Ok o /\
    match o with
    | Some (s, c) => exists base, base ∈ bases /\ s = dotted (base_value base + 1) /\ c = dotted (base_value base + 10) /\
        any_overlap (base_value base) PREFIX_LENGTH taken = Ok false
    | None => forall base, base ∈ bases -> any_overlap (base_value base) PREFIX_LENGTH taken = Ok true
    end.
Proof.
  induction bases as [|base bases IH]; intros Hb; cbn [choose_from]; [exists None; split; [done|]; by intros ? ?%elem_of_nil|].
  destruct (candidate_topology base ltac:(apply Hb; by left)) as (-> & -> & -> & _). cbn [mbind result_bind].
  destruct (any_overlap_total (base_value base) taken) as [b Eb]. rewrite Eb. cbn [mbind result_bind]. destruct b.
  - destruct IH as (o & -> & Ho); [intros ??; apply Hb; by right|]. exists o. split; [done|]. destruct o as [[s c]|].
    + destruct Ho as (x & Hx & Hrest). exists x. split; [by right|done].
    + intros x [->|Hx]%elem_of_cons; [done|by apply Ho].
  - eexists. split; [done|]. cbn. exists base. split_and!; [by left|done..].
Qed.

(** ** What was counted *)

Lemma taken_addresses_in l taken i v : taken_addresses l = Ok taken -> i ∈ l -> nonempty (ip i) = true -> is_local (ip i) = false ->
  0 <= prefix i -> ip_to_int (ip i) = Ok v ->
  exists p, p = (if prefix i =? 0 then 32 else prefix i) /\ p <= 32 /\ (network_address v p, p) ∈ taken.
Proof.
  intros Ht Hin Hne Hl Hp Hv. revert taken Ht. induction l as [|e l IH]; intros taken Ht; [by apply elem_of_nil in Hin|].
  cbn [taken_addresses] in Ht. apply elem_of_cons in Hin as [->|Hin].
  - rewrite Hne, Hl in Ht. cbn [negb orb] in Ht. bind_inv Ht. bind_inv Ht. injection Ht as <-.
    apply network_of_inv in E as (v' & Ev & Hp32 & ->); [|case_match; lia]. rewrite Hv in Ev. injection Ev as <-.
    eexists. split_and!; [done|done|by left].
  - destruct (_ || _); [by apply IH|]. bind_inv Ht. bind_inv Ht. injection Ht as <-.
    destruct (IH Hin _ eq_refl) as (p & ? & ? & ?). exists p. split_and!; [done..|by right].
Qed.

Lemma taken_adapters_in l taken a : taken_adapters None l = Ok taken -> a ∈ l -> exists here, taken_addresses (ipv4 a) = Ok here /\ here ⊆ taken.
Proof.
  intros Ht Hin. revert taken Ht. induction l as [|b l IH]; intros taken Ht; [by apply elem_of_nil in Hin|].
  cbn [taken_adapters excluded] in Ht. bind_inv Ht. bind_inv Ht. injection Ht as <-. apply elem_of_cons in Hin as [->|Hin].
  - eexists. split; [exact E|]. intros x ?. apply elem_of_app. by left.
  - destruct (IH Hin _ eq_refl) as (here & ? & ?). exists here. split; [done|]. intros x ?. apply elem_of_app. right. auto.
Qed.

Lemma taken_routes_in l taken r net p : taken_routes None l = Ok taken -> r ∈ l -> taken_route r = Ok (Some (net, p)) -> (net, p) ∈ taken.
Proof.
  intros Ht Hin Hr. revert taken Ht. induction l as [|b l IH]; intros taken Ht; [by apply elem_of_nil in Hin|].
  cbn [taken_routes excluded] in Ht. bind_inv Ht. bind_inv Ht. injection Ht as <-. apply elem_of_cons in Hin as [->|Hin].
  - rewrite Hr in E. injection E as <-. by left.
  - destruct a as [t|]; [right|]; by apply IH.
Qed.

Lemma dotted_chars v c : is_ip v -> c ∈ dotted v -> is_digit c = true \/ c = DOT.
Proof.
  intros Hv Hin. destruct (quad_octets v Hv) as (_ & Ha & Hb & Hc & Hd).
  assert (Ho : forall x, 0 <= x < 256 -> c ∈ decimal x -> is_digit c = true).
  { intros x Hx Hcx. destruct (octet_reads_of x Hx) as (_ & _ & _ & Hok & _). unfold octet_ok, isdigit in Hok.
    rewrite !andb_true_iff in Hok. destruct Hok as [[[[_ Hok] _] _] _]. rewrite forallb_forall in Hok. by apply Hok, list_elem_of_In. }
  unfold dotted in Hin. cbn [join_with] in Hin. rewrite !elem_of_app, !elem_of_cons, !elem_of_app, !elem_of_cons, !elem_of_app, !elem_of_cons in Hin.
  naive_solver.
Qed.

Lemma slash_not_dotted v : is_ip v -> SLASH ∉ dotted v.
Proof. intros Hv Hin. by destruct (dotted_chars v SLASH Hv Hin). Qed.

Lemma partition_on_app sep a b : sep ∉ a -> partition_on sep (a ++ sep :: b) = (a, b).
Proof.
  induction a as [|c a IH]; cbn [app partition_on]; [by rewrite Z.eqb_refl|].
  intros [Hc Ha]%not_elem_of_cons. destruct (Z.eqb_spec c sep) as [->|]; [done|]. by rewrite IH.
Qed.

Lemma prefix_texts : forallb (fun p => bool_decide (py_int10 (strip is_space (decimal p)) = Some p)) (seqZ 1 32) = true.
Proof. by vm_compute. Qed.

Lemma prefix_text_reads p : 1 <= p <= 32 -> py_int10 (strip is_space (decimal p)) = Some p.
Proof.
  intros Hp. assert (Hin : In p (seqZ 1 32)) by (apply list_elem_of_In, elem_of_seqZ; lia).
  exact (bool_decide_eq_true_1 _ (proj1 (forallb_forall _ _) prefix_texts p Hin)).
Qed.

(** An entry of the routing table for addresses of hosts, which is counted *)
Definition host_route (r : route) (v p : Z) : Prop :=
  dest r = dotted v ++ SLASH :: decimal p /\ is_ip v /\ 1 <= p <= 32 /\ v / 16777216 <> 127 /\ v / 16777216 < 224 /\
  startswith (dotted v) (lit "169.254.") = false.

Lemma taken_host_route r v p : host_route r v p -> taken_route r = Ok (Some (network_address v p, p)).
Proof.
  intros (Hd & Hv & Hp & H1 & H2 & H3). unfold taken_route, partition_slash, has_slash. rewrite Hd.
  rewrite existsb_app. cbn [existsb]. rewrite Z.eqb_refl, orb_true_r. cbn [negb].
  rewrite partition_on_app by (by apply slash_not_dotted). rewrite prefix_text_reads by done.
  rewrite network_of_dotted, ip_to_int_dotted by (done || lia). rewrite (proj2 (Z.eqb_neq p 0)) by lia. cbn [mbind result_bind].
  rewrite Z.shiftr_div_pow2 by lia. change (2 ^ 24) with 16777216.
  rewrite (proj2 (Z.eqb_neq _ 127)), (proj2 (Z.leb_gt 224 _)), H3 by lia. cbn [orb].
  unfold str_eqb. rewrite bool_decide_false; [done|]. intros E.
  assert (E' : dotted v = dotted 4294967295).
  { assert (P : (dotted v, decimal p) = (dotted 4294967295, lit "32")); [|by injection P].
    rewrite <- (partition_on_app SLASH (dotted v) (decimal p)), E by (by apply slash_not_dotted). by vm_compute. }
  assert (Hip : ip_to_int (dotted v) = ip_to_int (dotted 4294967295)) by (by rewrite E').
  rewrite !ip_to_int_dotted in Hip by (done || unfold is_ip; lia). injection Hip as ->. vm_compute in H2. done.
Qed.

(** C21. The addresses chosen for a link are two hosts of a subnet that overlaps no network of the
    host's adapters and none of its routes; no subnet is chosen only if each candidate overlaps
    one that was counted. *)
Theorem subnet_is_free e taken : taken_networks e None = Ok taken ->
  exists o, choose_subnet taken = Ok o /\
    match o with
    | Some (server, client) =>
        exists s c, server = dotted s /\ client = dotted c /\ topology s c PREFIX_LENGTH /\
          (forall a i v, a ∈ adapters e -> i ∈ ipv4 a -> nonempty (ip i) = true -> is_local (ip i) = false ->
             0 <= prefix i -> ip_to_int (ip i) = Ok v -> apart s PREFIX_LENGTH v (if prefix i =? 0 then 32 else prefix i)) /\
          (forall r v p, r ∈ routes e -> host_route r v p -> apart s PREFIX_LENGTH v p)
    | None => forall base, base ∈ CANDIDATE_SUBNETS -> any_overlap (base_value base) PREFIX_LENGTH taken = Ok true
    end.
Proof.
  intros Ht. unfold taken_networks in Ht. bind_inv Ht. bind_inv Ht. injection Ht as <-.
  destruct (choose_from_spec CANDIDATE_SUBNETS (a ++ a0) ltac:(done)) as (o & Ho & Hspec). exists o. split; [exact Ho|].
  destruct o as [[s c]|]; [|exact Hspec]. destruct Hspec as (base & Hb & -> & -> & Hfree).
  destruct (candidate_topology base Hb) as (Hbv & _ & _ & Htop & Hnet). set (n := base_value base) in *.
  assert (Hn : is_ip n) by (by eapply ip_to_int_is_ip).
  assert (Hmine : forall tn tp, (network_address tn tp, tp) ∈ a ++ a0 -> is_ip tn -> 0 <= tp <= 32 -> apart (n + 1) PREFIX_LENGTH tn tp).
  { intros tn tp Hin Htn Htp x [H1 H2]. apply (any_overlap_false n _ _ _ Hn Hfree Hin) with (x := x); [by apply network_address_is_ip|done|].
    rewrite in_network_address by done. split; [|done]. rewrite <- Hnet. by rewrite in_network_address by (unfold PREFIX_LENGTH; lia). }
  exists (n + 1), (n + 10). split_and!; [done..| |].
  - intros ad i v Ha Hi Hne Hl Hp Hv. destruct (taken_adapters_in _ _ _ E Ha) as (here & Eh & Hsub).
    destruct (taken_addresses_in _ _ _ _ Eh Hi Hne Hl Hp Hv) as (p & -> & Hp32 & Hin).
    apply Hmine; [apply elem_of_app; left; by apply Hsub|by eapply ip_to_int_is_ip|case_match; lia].
  - intros r v p Hr Hh. pose proof Hh as (_ & Hv & Hp & _). apply Hmine; [|done|lia]. apply elem_of_app. right.
    eapply taken_routes_in; [done|exact Hr|by apply taken_host_route].
Qed.

(** ** Moving aside *)

Lemma ones_shift p : 0 <= p <= 32 -> Z.shiftr U32 p = 2 ^ (32 - p) - 1.
Proof.
  intros Hp. assert (H : forallb (fun p => Z.shiftr U32 p =? 2 ^ (32 - p) - 1) (seqZ 0 33) = true) by (by vm_compute).
  apply Z.eqb_eq. apply (proj1 (forallb_forall _ _) H p), list_elem_of_In, elem_of_seqZ. lia.
Qed.

Lemma network_or_hosts n p : 0 <= p <= 32 -> Z.lor (network_address n p) (Z.shiftr U32 p) = broadcast_address n p.
Proof.
  intros Hp. rewrite ones_shift by done. unfold broadcast_address, network_address. pose proof (pow_pos (32 - p) ltac:(lia)).
  rewrite Z.lor_comm, <- Z.shiftl_mul_pow2, lor_shiftl_add, Z.shiftl_mul_pow2 by lia. lia.
Qed.

Lemma free_host_spec n p avoid : is_ip n -> 0 <= p <= 32 ->
  exists o, free_host n p avoid = Ok o /\ least_free (network_address n p + 1) (broadcast_address n p) avoid o.
Proof.
  intros Hn Hp. unfold free_host. rewrite network_of_int_eq by done. cbn [mbind result_bind].
  rewrite (proj2 (Z.ltb_ge _ _)), network_or_hosts by lia. apply first_free_spec.
Qed.

Lemma free_host_usable n p avoid a : is_ip n -> 0 <= p <= 32 -> free_host n p avoid = Ok (Some a) -> usable a n p /\ a ∉ avoid.
Proof.
  intros Hn Hp H. destruct (free_host_spec n p avoid Hn Hp) as (o & Ho & Hf). rewrite H in Ho. injection Ho as <-.
  destruct Hf as (? & ? & _). split; [unfold usable; lia|done].
Qed.

(** Two free hosts of the network of [n] make a link. *)
Lemma hosts_topology n p a b : is_ip n -> 1 <= p <= 30 -> usable a n p -> usable b n p -> b <> a -> topology a b p.
Proof.
  intros Hn Hp Ha Hb Hne. assert (0 <= p <= 32) by lia.
  unfold topology. rewrite !(usable_same _ a n p) by (done || by apply usable_in).
  split_and!; try done; try lia; by eapply usable_is_ip.
Qed.

(** A move to the network of [n]: two free hosts of it *)
Definition good_plan (n : Z) (avoid : list Z) (pl : text * text * Z) : Prop :=
  exists s c p, pl = (dotted s, dotted c, p) /\ topology s c p /\ in_network n s p = true /\ s ∉ avoid /\ c ∉ avoid.

Lemma usable_network a n p : 0 <= p <= 32 -> usable a (network_address n p) p <-> usable a n p.
Proof. intros Hp. unfold usable, broadcast_address. by rewrite network_address_idem. Qed.

Lemma in_network_sym a b p : 0 <= p <= 32 -> in_network a b p = true -> in_network b a p = true.
Proof. intros Hp. rewrite !in_network_spec by done. done. Qed.

Lemma free_pair_spec n avoid : is_ip n ->
  exists o, free_pair (network_address n 24) 24 avoid = Ok o /\ forall pl, o = Some pl -> good_plan n avoid pl.
Proof.
  intros Hn. assert (Hp : 0 <= 24 <= 32) by lia. destruct (network_address_is_ip n 24 Hn Hp) as [Hm _]. unfold free_pair.
  destruct (free_host_spec _ 24 avoid Hm Hp) as (o & Eo & _). rewrite Eo. cbn [mbind result_bind].
  destruct o as [a|]; [|exists None; by split]. destruct (free_host_usable _ _ _ _ Hm Hp Eo) as [Ha Hav].
  destruct (free_host_spec _ 24 (a :: avoid) Hm Hp) as (o & Eo' & _). rewrite Eo'. cbn [mbind result_bind]. eexists. split; [done|].
  intros pl Hpl. destruct o as [b|]; [|done]. injection Hpl as <-. destruct (free_host_usable _ _ _ _ Hm Hp Eo') as [Hb Hbv].
  apply not_elem_of_cons in Hbv as [Hne Hbv]. rewrite usable_network in Ha, Hb by done.
  pose proof (hosts_topology n 24 a b Hn ltac:(lia) Ha Hb Hne) as Ht. exists a, b, 24. rewrite !int_to_ip_dotted by apply Ht.
  split_and!; [done..| |done|done]. by apply in_network_sym, usable_in.
Qed.

Lemma step_aside_spec s c p avoid : topology s c p ->
  exists o, step_aside s (dotted c) (network_address s p) p avoid = Ok o /\
    forall pl, o = Some pl -> good_plan s avoid pl /\ exists a b, pl = (dotted a, b, p) /\ is_ip a /\ a <> s.
Proof.
  intros (Hs & Hc & Hp & Hus & Huc & Hne). unfold step_aside. assert (Hp' : 0 <= p <= 32) by lia.
  destruct (network_address_is_ip s p Hs Hp') as [Hn _].
  destruct (free_host_spec (network_address s p) p (s :: avoid) Hn Hp') as (o & Eo & _). rewrite Eo. cbn [mbind result_bind].
  destruct o as [a|]; [|exists None; by split]. destruct (free_host_usable _ _ _ _ Hn Hp' Eo) as [Ha Hav].
  apply not_elem_of_cons in Hav as [Has Hav]. rewrite ip_to_int_dotted by done. cbn [mbind result_bind].
  assert (Hua : usable a s p) by (by rewrite usable_network in Ha).
  assert (Hin : in_network s a p = true) by (by apply in_network_sym, usable_in).
  assert (Hgood : forall b, usable b s p -> b <> a -> b ∉ avoid -> good_plan s avoid (int_to_ip a, int_to_ip b, p) /\
    exists x y, (int_to_ip a, int_to_ip b, p) = (dotted x, y, p) /\ is_ip x /\ x <> s).
  { intros b Hb Hba Hbv. pose proof (hosts_topology s p a b Hs Hp Hua Hb Hba) as Ht. rewrite !int_to_ip_dotted by apply Ht.
    split; [exists a, b, p; by split_and!|exists a, (dotted b); split_and!; try done; apply Ht]. }
  destruct (existsb (Z.eqb c) avoid || (c =? a)) eqn:Ec.
  - destruct (free_host_spec (network_address s p) p (a :: s :: avoid) Hn Hp') as (o & Eo' & _). rewrite Eo'. cbn [mbind result_bind].
    eexists. split; [done|]. intros pl Hpl. destruct o as [b|]; [|done]. injection Hpl as <-.
    destruct (free_host_usable _ _ _ _ Hn Hp' Eo') as [Hb Hbv]. rewrite !not_elem_of_cons in Hbv. destruct Hbv as (? & ? & ?).
    apply Hgood; [by rewrite usable_network in Hb|done|done].
  - cbn [mbind result_bind]. eexists. split; [done|]. intros pl [= <-]. apply orb_false_iff in Ec as [Ec1 Ec2].
    apply Hgood; [done|lia|]. intros ?%existsb_eqb_spec. congruence.
Qed.

(** ** The neighbours *)

(** A text without NUL, which [inet_aton] takes or refuses *)
Definition readable (t : text) : Prop := existsb (Z.eqb 0) t = false.

Lemma neighbor_ints_spec l : Forall readable l -> exists vs, neighbor_ints l = Ok vs /\
  forall v, v ∈ vs <-> exists t, t ∈ l /\ ip_to_int t = Ok v.
Proof.
  induction 1 as [|t l Ht _ (vs & IH & Hvs)]; cbn [neighbor_ints].
  { exists []. split; [done|]. intros v. split; [by intros ?%elem_of_nil|]. by intros (? & ?%elem_of_nil & _). }
  unfold ip_to_int at 1. rewrite Ht. destruct (aton 3 0 t) as [n|] eqn:En.
  - rewrite IH. cbn. eexists. split; [done|]. intros v. rewrite elem_of_cons, Hvs. split.
    + intros [->|(u & ? & ?)]; [exists t; split; [by left|]|exists u; split; [by right|done]]. unfold ip_to_int. by rewrite Ht, En.
    + intros (u & [->|Hu]%elem_of_cons & Hv); [left|right; eauto]. unfold ip_to_int in Hv. rewrite Ht, En in Hv. by injection Hv.
  - exists vs. split; [done|]. intros v. rewrite Hvs. split.
    + intros (u & ? & ?). exists u. split; [by right|done].
    + intros (u & [->|Hu]%elem_of_cons & Hv); [|eauto]. unfold ip_to_int in Hv. by rewrite Ht, En in Hv.
Qed.

Lemma in_other_net_spec l p net : Forall is_ip l -> 0 <= p <= 32 -> exists o, in_other_net l p net = Ok o /\ o ⊆ l.
Proof.
  intros Hl Hp. induction Hl as [|n l Hn _ (o & IH & Ho)]; cbn [in_other_net]; [by exists []|].
  rewrite network_of_int_eq, IH by done. cbn [mbind result_bind]. eexists. split; [done|].
  destruct (_ =? _); intros x; [intros ?%Ho; by right|]. intros [->|?%Ho]%elem_of_cons; [by left|by right].
Qed.

(** C29. A move ends, and its plan is a link of two hosts that no neighbour has, in a network with
    our own address or with a neighbour, so that the launcher accepts it. *)
Theorem rehome_sound s c p neighbors present : topology s c p -> Forall readable neighbors ->
  exists o, plan_rehome (dotted s) (dotted c) p neighbors present = Ok o /\
    forall pl, o = Some pl ->
      exists s' c' p', pl = (dotted s', dotted c', p') /\ validate_topology (dotted s') (dotted c') p' = Ok pl /\
        (forall t v, t ∈ neighbors -> ip_to_int t = Ok v -> v <> s' /\ v <> c') /\
        ((exists t v, t ∈ neighbors /\ ip_to_int t = Ok v /\ in_network v s' p' = true) \/ (in_network s s' p' = true /\ s' <> s)).
Proof.
  intros Ht Hr. pose proof Ht as (Hs & Hc & Hp & _). assert (Hp' : 0 <= p <= 32) by lia. unfold plan_rehome.
  rewrite ip_to_int_dotted by done. cbn [mbind result_bind]. rewrite network_of_int_eq by done. cbn [mbind result_bind].
  destruct (neighbor_ints_spec neighbors Hr) as (avoid & -> & Hav). cbn [mbind result_bind].
  assert (Hips : Forall is_ip avoid).
  { apply Forall_forall. intros v (t & _ & E)%Hav. by eapply ip_to_int_is_ip. }
  destruct (in_other_net_spec avoid p (network_address s p) Hips Hp') as (off & -> & Hoff). cbn [mbind result_bind].
  assert (Hfin : forall n pl, good_plan n avoid pl -> (n ∈ avoid \/ (n = s /\ exists a b, pl = (dotted a, b, p) /\ is_ip a /\ a <> s)) ->
    exists s' c' p', pl = (dotted s', dotted c', p') /\ validate_topology (dotted s') (dotted c') p' = Ok pl /\
      (forall t v, t ∈ neighbors -> ip_to_int t = Ok v -> v <> s' /\ v <> c') /\
      ((exists t v, t ∈ neighbors /\ ip_to_int t = Ok v /\ in_network v s' p' = true) \/ (in_network s s' p' = true /\ s' <> s))).
  { intros n pl (s' & c' & p' & -> & Ht' & Hin & Hsv & Hcv) Hn. exists s', c', p'. split_and!; [done|by apply validate_topology_ok| |].
    - intros t v Hti Hv. assert (v ∈ avoid) by (apply Hav; eauto). split; by intros ->.
    - destruct Hn as [(t & Hti & Hv)%Hav|(-> & a & b & [= E _ _] & Hia & Hne)]; [left; eauto|right]. split; [done|].
      assert (Hds : ip_to_int (dotted s') = ip_to_int (dotted a)) by (by rewrite E). rewrite !ip_to_int_dotted in Hds by (done || apply Ht').
      congruence. }
  set (adopted := match off with [] => _ | _ => _ end).
  assert (Had : exists o, adopted = Ok o /\ forall pl, o = Some pl -> exists n, n ∈ avoid /\ good_plan n avoid pl).
  { unfold adopted. destruct off as [|n off]; [exists None; by split|]. assert (Hn : n ∈ avoid) by (apply Hoff; by left).
    assert (Hni : is_ip n) by (by apply (proj1 (Forall_forall _ _) Hips)).
    rewrite network_of_int_eq by (done || lia). cbn [mbind result_bind].
    destruct (free_pair_spec n avoid Hni) as (o & Eo & Hgood). exists o. split; [exact Eo|]. eauto. }
  destruct Had as (o & -> & Ho). cbn [mbind result_bind]. destruct o as [pl|].
  { exists (Some pl). split; [done|]. intros ? [= <-]. destruct (Ho pl eq_refl) as (n & Hn & Hgood). eapply Hfin; [exact Hgood|by left]. }
  destruct (_ && _); [|exists None; by split].
  destruct (step_aside_spec s c p avoid Ht) as (o & Eo & Hgood). exists o. split; [exact Eo|].
  intros pl Hpl. destruct (Hgood pl Hpl) as [Hg (a & b & E & Ha & Hne)]. eapply Hfin; [exact Hg|right]. split; [done|].
  exists a, b. split_and!; [|done|done]. exact E.
Qed.
