(* ===== verification/DhcpResponder.v ===== *)
(** * Direct link: the responder

    Models [DhcpResponder] of [launcher/directlink.py], its start on Windows and Unix, and its
    end: [handle_packet] with the bucket of tokens and the one address of hardware that is
    answered, [open_socket], the turns of [serve_forever], and [run_responder], which removes on
    Unix the address it added.

    A time is a number of microseconds of [time.monotonic()]; a token has a million parts, so that
    the bucket refills by [REPLY_RATE] parts in a microsecond.  What the responder asks the host
    for ([bind], the adapters, the neighbours, the probe, [recvfrom]) is part of the turn. *)

From S2P Require Import Prelude Tables PyStr PyText Ipv4 Dhcp DirectLink.

Definition SECOND : Z := 1000000.
Definition MAX_DISTINCT_MACS : Z := 1.
Definition REPLY_BURST : Z := 8.
Definition REPLY_RATE : Z := 4.
Definition IP_RECHECK_SECONDS : Z := 5.
Definition REPROBE_SECONDS : Z := 300.
Definition REHOME_CHECK_SECONDS : Z := 15.

Inductive receive_mode := Specific | Wildcard.

(** [DhcpResponder] *)
Record responder := Responder {
  server_ip : text;
  client_ip : text;
  prefixlen : Z;
  probe_mac : bytes;
  mode : option receive_mode;
  macs_seen : gset bytes;
  lease_mac : option bytes;
  tokens : Z;
  token_stamp : Z;
  server_ip_bytes : bytes;
  client_ip_bytes : bytes
}.

#[export] Instance eta_responder : Eta responder := fun r =>
  Responder (server_ip r) (client_ip r) (prefixlen r) (probe_mac r) (mode r) (macs_seen r) (lease_mac r) (tokens r)
            (token_stamp r) (server_ip_bytes r) (client_ip_bytes r).

Abbreviation R := responder.

(** [DhcpResponder.__init__] *)
Definition new_responder (server client : text) (p : Z) (probe : bytes) (now : Z) : result responder :=
  s ← ip_to_int server;
  c ← ip_to_int client;
  Ok (Responder server client p probe None ∅ None (REPLY_BURST * SECOND) now (be_bytes 4 s) (be_bytes 4 c)).

(** [_take_token] *)
Definition take_token (now : Z) : M R bool := fun r =>
  let t := Z.min (REPLY_BURST * SECOND) (tokens r + (now - token_stamp r) * REPLY_RATE) in
  if SECOND <=? t then (Ok true, r <| tokens := t - SECOND |> <| token_stamp := now |>)
  else (Ok false, r <| tokens := t |> <| token_stamp := now |>).

(** [_track_mac] *)
Definition track_mac (mac : bytes) : M R unit := fun r =>
  if bool_decide (mac ∈ macs_seen r) then (Ok tt, r)
  else
    let r := r <| macs_seen ::= fun s => {[mac]} ∪ s |> in
    if MAX_DISTINCT_MACS <? Z.of_nat (size (macs_seen r)) then (Err DirectLinkRefused, r) else (Ok tt, r).

Abbreviation endpoint := (text * Z)%type.

(** [_reply_dest] *)
Definition reply_dest (pkt : packet) (src : option endpoint) (r : R) : result endpoint :=
  let renewing :=
    match src with
    | Some (host, _) =>
        if negb (pk_ciaddr pkt =? 0) && negb (str_eqb host (lit "0.0.0.0")) && nonempty host then Some host else None
    | None => None
    end in
  match renewing with
  | Some host => Ok (host, DHCP_CLIENT_PORT)
  | None =>
      match mode r with
      | Some Wildcard =>
          net ← network_of (server_ip r) (prefixlen r);
          if prefixlen r <? 0 then Err ValueError
          else Ok (int_to_ip (Z.lor net (Z.shiftr U32 (prefixlen r))), DHCP_CLIENT_PORT)
      | _ => Ok (lit "255.255.255.255", DHCP_CLIENT_PORT)
      end
  end.

Abbreviation reply := (bytes * endpoint)%type.

(** The reply of the given type, for which the lease is noted *)
Definition grant (pkt : packet) (msg_type : Z) (src : option endpoint) : M R (option reply) :=
  _ ← mmod (fun r => r <| lease_mac := Some (pk_mac pkt) |>);
  r ← mget (fun r => r);
  bs ← lift (build_reply pkt msg_type (server_ip r) (client_ip r) (prefixlen r) LEASE_SECONDS);
  dest ← lift (reply_dest pkt src r);
  mret (Some (bs, dest)).

(** The address a REQUEST asks for *)
Definition requested_address (pkt : packet) : option bytes :=
  match alookup 50 (pk_options pkt) with
  | Some a => Some a
  | None => if pk_ciaddr pkt =? 0 then None else Some (be_bytes 4 (pk_ciaddr pkt))
  end.

Definition answer_request (pkt : packet) (src : option endpoint) : M R (option reply) :=
  ours ← mget server_ip_bytes;
  client ← mget client_ip_bytes;
  let server_id := default [] (alookup 54 (pk_options pkt)) in
  if nonempty server_id && negb (str_eqb server_id ours) then mret None
  else if bool_decide (requested_address pkt = Some client) then grant pkt MSG_ACK src
  else mret None.

(** The answer to a message of a console *)
Definition answer (now : Z) (pkt : packet) (mtype : Z) (src : option endpoint) : M R (option reply) :=
  if mtype =? MSG_DECLINE then _ ← mmod (fun r => r <| lease_mac := None |>); mret None
  else if mtype =? MSG_RELEASE then
    l ← mget lease_mac;
    _ ← mwhen (bool_decide (l = Some (pk_mac pkt))) (mmod (fun r => r <| lease_mac := None |>));
    mret None
  else if mtype =? MSG_INFORM then mret None
  else
    t ← take_token now;
    if negb t then mret None
    else if mtype =? MSG_DISCOVER then grant pkt MSG_OFFER src
    else answer_request pkt src.

Definition client_messages : list Z := [MSG_DISCOVER; MSG_REQUEST; MSG_DECLINE; MSG_RELEASE; MSG_INFORM].

(** The type of a message, [None] where there is none *)
Definition message_type (pkt : packet) : option Z := head (default [] (alookup 53 (pk_options pkt))).

(** [handle_packet] *)
Definition handle_packet (now : Z) (data : bytes) (src : option endpoint) : M R (option reply) :=
  pkt ← lift (parse_packet data);
  match pkt with
  | None => mret None
  | Some pkt =>
      match message_type pkt with
      | None => mret None
      | Some mtype =>
          if negb (existsb (Z.eqb mtype) client_messages) then mret None
          else
            probe ← mget probe_mac;
            if str_eqb (pk_mac pkt) probe then mret None
            else _ ← track_mac (pk_mac pkt); answer now pkt mtype src
      end
  end.

(** [check_for_foreign_dhcp_server]: what the probe found *)
Definition check_for_foreign (found : result (option text)) : result unit :=
  s ← found;
  match s with Some s => if nonempty s then Err DirectLinkRefused else Ok tt | None => Ok tt end.

(** ** Looking at the wire *)

(** What [adapter_state] and the script for the neighbours find *)
Record sight := Sight { seen_adapter : result (option adapter); seen_neighbors : option (result json) }.

(** [_Rehome] *)
Abbreviation plan := (text * text * Z)%type.

(** [_plan_rehome_now] *)
Definition plan_rehome_now (s : sight) (server_ip_present : bool) (r : R) : result (option plan) :=
  a ← seen_adapter s;
  match a with
  | None => Ok None
  | Some a =>
      if negb (str_eqb (status a) (lit "Up")) then Ok None
      else
        neighbors ← interface_neighbors (seen_neighbors s) (if server_ip_present then [server_ip r] else []);
        match neighbors with
        | [] => Ok None
        | _ => plan_rehome (server_ip r) (client_ip r) (prefixlen r) neighbors server_ip_present
        end
  end.

(** ** The socket *)

(** How the responder ends: [_StopResponder], [_Rehome], another exception *)
Inductive ending := Stopped | Rehomed (p : plan) | Raised (e : exn).

Inductive bound := Bound | Not_ready | Bind_failed.

(** An attempt to bind, and what is asked after one that failed *)
Record attempt := Attempt { at_bind : bound; at_sight : sight; at_stop : bool }.

(** The loop of [open_socket]; [None] where it still waits *)
Fixpoint wait_for_link (l : list attempt) (waits : Z) (r : R) : option (ending + unit) :=
  match l with
  | [] => None
  | a :: l =>
      match at_bind a with
      | Bound => Some (inr tt)
      | Bind_failed => Some (inl (Raised DirectLinkRefused))
      | Not_ready =>
          let waits := waits + 1 in
          match (if 2 <=? waits then plan_rehome_now (at_sight a) false r else Ok None) with
          | Err e => Some (inl (Raised e))
          | Ok (Some p) => Some (inl (Rehomed p))
          | Ok None => if at_stop a then Some (inl Stopped) else wait_for_link l waits r
          end
      end
  end.

(** The attempts, whether a broadcast is delivered, and whether the wildcard can be bound *)
Record opening := Opening { attempts : list attempt; delivers : bool; wildcard_binds : bool }.

(** [open_socket] *)
Definition open_socket (o : opening) (r : R) : option (ending + R) :=
  match wait_for_link (attempts o) 0 r with
  | None => None
  | Some (inl e) => Some (inl e)
  | Some (inr _) =>
      if delivers o then Some (inr (r <| mode := Some Specific |>))
      else if wildcard_binds o then Some (inr (r <| mode := Some Wildcard |>))
      else Some (inl (Raised DirectLinkRefused))
  end.

(** ** Serving *)

(** [recvfrom] *)
Inductive hearing := Heard (data : bytes) (src : option endpoint) | Timed_out | Reset_by_peer | Socket_failed.

(** What a turn of [serve_forever] meets: the clock, whether a stop is requested, whether the
    address of the port is still there, what is on the wire, the adapter at the second look, what
    the probe finds, what is received, and the clock when it is handled *)
Record turn := Turn {
  now : Z;
  stop : bool;
  still_present : bool;
  wire : sight;
  again : result (option adapter);
  found : result (option text);
  hears : hearing;
  handled_at : Z
}.

(** The locals of [serve_forever] *)
Record serving := Serving { resp : responder; last_check : Z; last_neigh : Z; last_probe : Z }.

#[export] Instance eta_serving : Eta serving := fun s => Serving (resp s) (last_check s) (last_neigh s) (last_probe s).

Definition DOWN_STATES : list text :=
  [lit "disconnected"; lit "down"; lit "not present"; lit "disabled"; lit "not operational"; lit "inactive"; lit "lowerlayerdown"].

(** Whether the adapter is known to be down at the second look *)
Definition known_down (a : result (option adapter)) : bool :=
  match a with Ok (Some a) => existsb (str_eqb (lower (status a))) DOWN_STATES | _ => false end.

Inductive outcome := Goes_on (sent : option reply) | Moves (p : plan) | Stops.

Definition on_responder {A} (m : M R A) : M serving A := fun s => let '(x, r) := m (resp s) in (x, s <| resp := r |>).

(** The address is looked at every [IP_RECHECK_SECONDS]. *)
Definition check_present (t : turn) : M serving bool :=
  last ← mget last_check;
  if IP_RECHECK_SECONDS * SECOND <? now t - last then _ ← mmod (fun s => s <| last_check := now t |>); mret (still_present t)
  else mret true.

(** The look at the wire; [Some] ends the turn. *)
Definition look_around (t : turn) (present : bool) : M serving (option outcome) :=
  last ← mget last_neigh;
  if negb present || (REHOME_CHECK_SECONDS * SECOND <? now t - last) then
    _ ← mmod (fun s => s <| last_neigh := now t |>);
    r ← mget resp;
    p ← lift (plan_rehome_now (wire t) present r);
    match p with
    | Some p => mret (Some (Moves p))
    | None =>
        if present then mret None
        else if known_down (again t) then mret (Some (Goes_on None))
        else raise DirectLinkRefused
    end
  else mret None.

(** The probe every [REPROBE_SECONDS] *)
Definition probe_again (t : turn) : M serving unit :=
  last ← mget last_probe;
  mwhen (REPROBE_SECONDS * SECOND <? now t - last)
    (_ ← mmod (fun s => s <| last_probe := now t |>); lift (check_for_foreign (found t))).

(** A turn of [serve_forever] *)
Definition serve_turn (t : turn) : M serving outcome :=
  if stop t then mret Stops
  else
    present ← check_present t;
    ended ← look_around t present;
    match ended with
    | Some o => mret o
    | None =>
        _ ← probe_again t;
        match hears t with
        | Heard data src => r ← on_responder (handle_packet (handled_at t) data src); mret (Goes_on r)
        | Timed_out | Reset_by_peer => mret (Goes_on None)
        | Socket_failed => raise DirectLinkRefused
        end
    end.

(** [serve_forever]: the replies sent, and the end, [None] where it still serves *)
Fixpoint serve_forever (ts : list turn) (s : serving) : list reply * option ending :=
  match ts with
  | [] => ([], None)
  | t :: ts =>
      match serve_turn t s with
      | (Ok (Goes_on sent), s) => let '(replies, e) := serve_forever ts s in (option_list sent ++ replies, e)
      | (Ok (Moves p), _) => ([], Some (Rehomed p))
      | (Ok Stops, _) => ([], Some Stopped)
      | (Err e, _) => ([], Some (Raised e))
      end
  end.

(** ** The process *)

(** What the process does: a command that was run, the address of the port set, a probe nobody
    answered (or that could not be made, which counts the same), a reply sent *)
Inductive act := Ran (argv : list text) | Configured | Probed | Replied (r : reply).

(** What the responder meets from its socket on *)
Record course := Course { opens : opening; start_found : result (option text); start : Z; turns : list turn }.

(** From [open_socket] to the end *)
Definition respond (c : course) (r : R) : list act * option ending :=
  match open_socket (opens c) r with
  | None => ([], None)
  | Some (inl e) => ([], Some e)
  | Some (inr r) =>
      match check_for_foreign (start_found c) with
      | Err e => ([], Some (Raised e))
      | Ok _ =>
          let '(replies, e) := serve_forever (turns c) (Serving r (start c) (start c) (start c)) in
          (Probed :: map Replied replies, e)
      end
  end.

(** [_run_responder_windows] *)
Definition run_windows (e : result enumeration) (n : text) (index : Z) (server client : text) (p : Z) (mac : bytes) (created : Z) (c : course)
    : list act * option ending :=
  match (e ← e; _ ← startup_adapter_check e n index server; new_responder server client p mac created) with
  | Err e => ([], Some (Raised e))
  | Ok r => respond c r
  end.

(** [apply_local_ip]: the answers to the commands, [None] where a tool is missing and otherwise
    whether it succeeded *)
Fixpoint apply_commands (commands : list (list text)) (answers : list (option bool)) : list act * result unit :=
  match commands with
  | [] => ([], Ok tt)
  | argv :: commands =>
      match answers with
      | Some true :: answers => let '(acts, r) := apply_commands commands answers in (Ran argv :: acts, r)
      | Some false :: _ => ([Ran argv], Err DirectLinkRefused)
      | _ => ([], Err DirectLinkRefused)
      end
  end.

Definition apply_local_ip (adapter_id server : text) (p : Z) (os_name : system) (answers : list (option bool)) : list act * result unit :=
  match local_ip_commands adapter_id server p false os_name with
  | Err e => ([], Err e)
  | Ok commands => let '(acts, r) := apply_commands commands answers in (match r with Ok _ => acts ++ [Configured] | Err _ => acts end, r)
  end.

(** [restore_local_ip] *)
Definition restore_local_ip (adapter_id server : text) (p : Z) (os_name : system) : list act * option exn :=
  match local_ip_commands adapter_id server p true os_name with
  | Err e => ([], Some e)
  | Ok commands => (map Ran commands, None)
  end.

(** The arguments of the Unix process and what it meets *)
Record unix_run := UnixRun {
  root : bool;
  os_name : system;
  enumerated : result enumeration;
  arg_id : text;
  arg_adapter : text;
  configure_ip : bool;
  applied : list (option bool);
  unix_mac : bytes;
  unix_created : Z;
  unix_course : course
}.

(** The body of the [try] of [_run_responder_unix]: what was done, whether the address is set,
    and the end *)
Definition unix_body (u : unix_run) (adapter_id server client : text) (p : Z) : list act * bool * option ending :=
  let '(acts, r) := if configure_ip u then apply_local_ip adapter_id server p (os_name u) (applied u) else ([], Ok tt) in
  match r with
  | Err e => (acts, false, Some (Raised e))
  | Ok _ =>
      match new_responder server client p (unix_mac u) (unix_created u) with
      | Err e => (acts, configure_ip u, Some (Raised e))
      | Ok r => let '(more, e) := respond (unix_course u) r in (acts ++ more, configure_ip u, e)
      end
  end.

(** [_run_responder_unix]; the [finally] runs when the body has ended. *)
Definition run_unix (u : unix_run) (server client : text) (p : Z) : list act * option ending :=
  if negb (root u) then ([], Some (Raised DirectLinkRefused))
  else
    let adapter_id := if nonempty (arg_id u) then arg_id u else arg_adapter u in
    match (e ← enumerated u; verify_unix_adapter e adapter_id (arg_adapter u)) with
    | Err e => ([], Some (Raised e))
    | Ok verified =>
        match ad_id verified with
        | Id_index _ => ([], Some (Raised TypeError))
        | Id_name i =>
            let '(acts, configured, e) := unix_body u i server client p in
            match e with
            | None => (acts, None)
            | Some e =>
                if configured then
                  let '(more, x) := restore_local_ip i server p (os_name u) in
                  (acts ++ more, Some (match x with Some x => Raised x | None => e end))
                else (acts, Some e)
            end
        end
    end.

(** The process ends with a code or with an exception nobody catches. *)
Definition exit_code (e : ending) : option Z :=
  match e with
  | Rehomed _ => Some 5
  | Raised DirectLinkRefused => Some 3
  | Raised WindowsSetupError => Some 2
  | Stopped => Some 0
  | Raised _ => None
  end.

(** [run_responder] on the system whose run is given *)
Definition run_responder (server client : text) (p : Z) (run : text -> text -> Z -> list act * option ending) : list act * option (option Z) :=
  match validate_topology server client p with
  | Err e => ([], Some (exit_code (Raised e)))
  | Ok (server, client, p) => let '(acts, e) := run server client p in (acts, exit_code <$> e)
  end.
