(* ===== verification/DhcpResponderFacts.v ===== *)
(** * Direct link: what the responder may do

    Every reply is an offer or an acknowledgement of the one address to the one console; replies
    are as rare as the bucket of tokens promises; another responder on the wire is found by the
    probe; a console is served; and the Unix process removes the address it added. *)

From S2P Require Import Prelude Tables PyStr PyText Ipv4 Dhcp DirectLink DirectLinkFacts DhcpResponder.

(** ** One message *)

Section responder.
Context (s c p : Z) (probe : bytes).

(** The configuration of a responder, which no message changes *)
Definition configured (r : R) : Prop :=
  server_ip r = dotted s /\ client_ip r = dotted c /\ prefixlen r = p /\ probe_mac r = probe /\
  server_ip_bytes r = be_bytes 4 s /\ client_ip_bytes r = be_bytes 4 c.

(** At most one console has been seen, and it is not our probe. *)
Definition one_console (r : R) : Prop := exists k, k <> probe /\ macs_seen r ⊆ {[k]}.

Context (Ht : topology s c p).

Lemma take_token_spec now r : exists b r', take_token now r = (Ok b, r') /\ r' = r <| tokens := tokens r' |> <| token_stamp := now |> /\
  tokens r' + (if b then SECOND else 0) <= tokens r + (now - token_stamp r) * REPLY_RATE /\
  (0 <= tokens r -> token_stamp r <= now -> 0 <= tokens r').
Proof.
  unfold take_token. set (t := Z.min _ _). assert (t <= tokens r + (now - token_stamp r) * REPLY_RATE) by (unfold t; lia).
  assert (Hpos : 0 <= tokens r -> token_stamp r <= now -> 0 <= t) by (unfold t, REPLY_BURST, SECOND, REPLY_RATE; lia).
  destruct (Z.leb_spec SECOND t).
  - exists true, (r <| tokens := t - SECOND |> <| token_stamp := now |>). split_and!; [done|done|cbn; lia|cbn; lia].
  - exists false, (r <| tokens := t |> <| token_stamp := now |>). split_and!; [done|done|cbn; lia|cbn; auto].
Qed.

Lemma track_mac_spec mac r : exists x, track_mac mac r = (x, r <| macs_seen := {[mac]} ∪ macs_seen r |>) /\
  (x = Ok tt \/ (x = Err DirectLinkRefused /\ mac ∉ macs_seen r /\ 1 < Z.of_nat (size ({[mac]} ∪ macs_seen r)))) /\
  (one_console r -> mac <> probe -> x = Ok tt -> one_console (r <| macs_seen := {[mac]} ∪ macs_seen r |>)).
Proof.
  unfold track_mac. destruct (decide (mac ∈ macs_seen r)) as [Hin|Hin]; [rewrite bool_decide_true by done|rewrite bool_decide_false by done].
  - exists (Ok tt). assert (E : {[mac]} ∪ macs_seen r = macs_seen r) by set_solver. rewrite E. split_and!; [by destruct r|by left|].
    intros (k & Hk & Hsub) _ _. exists k. by split.
  - set (m := {[mac]} ∪ macs_seen r). unfold MAX_DISTINCT_MACS.
    change (macs_seen (r <| macs_seen ::= fun s => {[mac]} ∪ s |>)) with m. change (r <| macs_seen ::= fun s => {[mac]} ∪ s |>) with (r <| macs_seen := m |>).
    destruct (Z.ltb_spec 1 (Z.of_nat (size m))) as [Hs|Hs].
    + exists (Err DirectLinkRefused). split_and!; [done|by right|done].
    + exists (Ok tt). split_and!; [done|by left|]. intros _ Hne _. exists mac. split; [done|]. cbn. intros k Hk.
      assert (Hsz : (size m <= 1)%nat) by lia. apply elem_of_singleton. destruct (decide (k = mac)); [done|].
      assert (Hsub : {[mac; k]} ⊆ m) by (unfold m in *; set_solver). apply subseteq_size in Hsub. rewrite size_union, !size_singleton in Hsub by set_solver. lia.
Qed.

(** Where replies go: to everybody, to the subnet, or back to where the request came from *)
Definition near (src : option endpoint) (dest : endpoint) : Prop :=
  snd dest = DHCP_CLIENT_PORT /\
  (fst dest = lit "255.255.255.255" \/ fst dest = dotted (broadcast_address s p) \/ exists port, src = Some (fst dest, port)).

Lemma reply_dest_near pkt src r : configured r -> exists dest, reply_dest pkt src r = Ok dest /\ near src dest.
Proof.
  intros (Hs & _ & Hp & _). destruct Ht as (Hip & _ & Hpl & _). unfold reply_dest. rewrite Hs, Hp.
  assert (Hrest : exists dest,
    match mode r with
    | Some Wildcard =>
        net ← network_of (dotted s) p;
        if p <? 0 then Err ValueError else Ok (int_to_ip (Z.lor net (Z.shiftr U32 p)), DHCP_CLIENT_PORT)
    | _ => Ok (lit "255.255.255.255", DHCP_CLIENT_PORT)
    end = Ok dest /\ near src dest).
  { destruct (mode r) as [[]|].
    2: { rewrite network_of_dotted by (done || lia). cbn [mbind result_bind]. rewrite (proj2 (Z.ltb_ge _ _)), network_or_hosts by lia.
         eexists. split; [done|]. split; [done|]. right; left. rewrite int_to_ip_dotted; [done|]. apply broadcast_is_ip; [done|lia]. }
    all: eexists; split; [done|]; split; [done|by left]. }
  destruct src as [[h port]|]; [|exact Hrest]. destruct (_ && _); [|exact Hrest].
  exists (h, DHCP_CLIENT_PORT). split; [done|]. split; [done|]. right; right. by exists port.
Qed.

Lemma grant_spec pkt mt src r : configured r -> packet_ok pkt -> is_lease mt = true ->
  exists bs dest, grant pkt mt src r = (Ok (Some (bs, dest)), r <| lease_mac := Some (pk_mac pkt) |>) /\
    build_reply pkt mt (dotted s) (dotted c) p LEASE_SECONDS = Ok bs /\ near src dest.
Proof.
  intros Hr Hp Hm. destruct Ht as (Hs & Hc & Hpl & _). unfold grant. set (r' := r <| lease_mac := Some (pk_mac pkt) |>).
  assert (Hr' : configured r') by exact Hr. destruct (reply_dest_near pkt src r' Hr') as (dest & Hd & Hnear).
  destruct (reply_parts pkt mt s c p LEASE_SECONDS) as (bs & Hb & _); [done|done|done|lia|done|done|].
  exists bs, dest. split_and!; [|done|done]. cbv [mbind M_bind mmod mget lift mret M_ret]. fold r'.
  destruct Hr' as (-> & -> & -> & _). by rewrite Hb, Hd.
Qed.

(** What a message may do: [Some] where it is answered *)
Definition step_ok (data : bytes) (src : option endpoint) (now : Z) (r : R) (x : result (option reply)) (r' : R) : Prop :=
  configured r' /\ macs_seen r ⊆ macs_seen r' /\
  (token_stamp r' = token_stamp r /\ tokens r' = tokens r \/ token_stamp r' = now) /\
  tokens r' + (match x with Ok (Some _) => SECOND | _ => 0 end) <= tokens r + (token_stamp r' - token_stamp r) * REPLY_RATE /\
  (0 <= tokens r -> token_stamp r <= now -> 0 <= tokens r') /\
  match x with
  | Ok (Some (bs, dest)) =>
      exists pkt mt, parse_packet data = Ok (Some pkt) /\ packet_ok pkt /\ pk_mac pkt <> probe /\ pk_mac pkt ∈ macs_seen r' /\
        is_lease mt = true /\ build_reply pkt mt (dotted s) (dotted c) p LEASE_SECONDS = Ok bs /\ near src dest
  | Ok None => True
  | Err e => e = DirectLinkRefused
  end /\
  (one_console r -> (exists o, x = Ok o) -> one_console r').

Lemma step_ok_silent data src now r r' : configured r' -> macs_seen r' = macs_seen r -> tokens r' = tokens r ->
  token_stamp r' = token_stamp r -> step_ok data src now r (Ok None) r'.
Proof. intros Hr' Em Et Es. unfold step_ok, one_console. rewrite Em, Et, Es. split_and!; try done; lia. Qed.

Lemma answer_spec now data pkt mtype src r x r' : configured r -> parse_packet data = Ok (Some pkt) -> packet_ok pkt -> pk_mac pkt <> probe ->
  pk_mac pkt ∈ macs_seen r -> answer now pkt mtype src r = (x, r') -> step_ok data src now r x r'.
Proof.
  intros Hr Hpar Hpkt Hne Hin. unfold answer.
  destruct (mtype =? MSG_DECLINE); [intros [= <- <-]; by apply step_ok_silent|].
  destruct (mtype =? MSG_RELEASE).
  { cbv [mbind M_bind mmod mget mret M_ret mwhen]. destruct (bool_decide _); intros [= <- <-]; by apply step_ok_silent. }
  destruct (mtype =? MSG_INFORM); [intros [= <- <-]; by apply step_ok_silent|].
  destruct (take_token_spec now r) as (b & r1 & E & Er1 & Htok & Hpos).
  assert (Hr1 : configured r1) by (rewrite Er1; exact Hr).
  assert (Hm1 : macs_seen r1 = macs_seen r) by (rewrite Er1; done). assert (Hs1 : token_stamp r1 = now) by (rewrite Er1; done).
  unfold mbind at 1, M_bind. rewrite E. clear E Er1.
  assert (Hquiet : step_ok data src now r (Ok None) r1).
  { unfold step_ok, one_console. rewrite Hm1, Hs1. split_and!; try done; [by right|]. destruct b; unfold SECOND in *; lia. }
  destruct b; cbn [negb]; [|intros [= <- <-]; exact Hquiet].
  assert (Hgrant : forall mt, is_lease mt = true -> grant pkt mt src r1 = (x, r') -> step_ok data src now r x r').
  { intros mt Hmt. destruct (grant_spec pkt mt src r1 Hr1 Hpkt Hmt) as (bs & dest & -> & Hb & Hnear). intros [= <- <-].
    unfold step_ok. change (configured (r1 <| lease_mac := Some (pk_mac pkt) |>)) with (configured r1). unfold one_console. cbn.
    rewrite Hm1, Hs1. split_and!; try done; [by right|]. by exists pkt, mt. }
  destruct (mtype =? MSG_DISCOVER); [by apply Hgrant|]. unfold answer_request. cbv [mbind M_bind mget mret M_ret].
  destruct (_ && _); [intros [= <- <-]; exact Hquiet|]. destruct (bool_decide _); [by apply Hgrant|intros [= <- <-]; exact Hquiet].
Qed.

(** [handle_packet], whatever arrives *)
Lemma handle_packet_spec now data src r x r' : is_bytes data -> configured r -> handle_packet now data src r = (x, r') ->
  step_ok data src now r x r'.
Proof.
  intros Hb Hr. unfold handle_packet. destruct (parse_packet_ends data Hb) as [o Eo]. unfold mbind at 1, M_bind, lift. rewrite Eo.
  destruct o as [pkt|]; [|intros [= <- <-]; by apply step_ok_silent].
  destruct (message_type pkt) as [mtype|]; [|intros [= <- <-]; by apply step_ok_silent].
  destruct (existsb _ _); cbn [negb]; [|intros [= <- <-]; by apply step_ok_silent].
  unfold mbind at 1, mget. destruct Hr as (H1 & H2 & H3 & H4 & H5). rewrite H4.
  destruct (str_eqb (pk_mac pkt) probe) eqn:Ep; [intros [= <- <-]; by apply step_ok_silent|].
  assert (Hne : pk_mac pkt <> probe) by (by apply bool_decide_eq_false in Ep). assert (Hr : configured r) by done. clear H1 H2 H3 H4 H5.
  destruct (track_mac_spec (pk_mac pkt) r) as (y & Ey & Hy & Hone). unfold mbind at 1. rewrite Ey.
  set (r1 := r <| macs_seen := {[pk_mac pkt]} ∪ macs_seen r |>) in *. assert (Hr1 : configured r1) by exact Hr.
  assert (Hm1 : macs_seen r1 = {[pk_mac pkt]} ∪ macs_seen r) by done.
  assert (Ht1 : tokens r1 = tokens r /\ token_stamp r1 = token_stamp r) by done. clearbody r1.
  destruct Hy as [->|(-> & _ & _)].
  - intros Hx. apply (answer_spec now data pkt) in Hx; [|done|done|by eapply parse_packet_ok|done|rewrite Hm1; set_solver].
    destruct Hx as (A1 & A2 & A3 & A4 & A5 & A6 & A7). destruct Ht1 as [E1 E2]. unfold step_ok. rewrite <- E1, <- E2. split_and!; try done; [set_solver|].
    intros Ho Hx. apply A7; [|done]. by apply Hone.
  - intros [= <- <-]. destruct Ht1 as [Ht1 Hs1]. unfold step_ok. rewrite Ht1, Hs1. split_and!; try done; [set_solver|by left|lia|].
    by intros _ [].
Qed.
End responder.

(** ** One turn *)

(** What held when a turn listened *)
Definition guarded (t : turn) (s s' : serving) : Prop :=
  stop t = false /\ now t - last_probe s' <= REPROBE_SECONDS * SECOND /\
  (last_probe s' = last_probe s \/ (last_probe s' = now t /\ check_for_foreign (found t) = Ok tt)).

Lemma check_present_spec t s : exists b s1, check_present t s = (Ok b, s1) /\ resp s1 = resp s /\ last_probe s1 = last_probe s.
Proof.
  unfold check_present. cbv [mbind M_bind mget mmod mret M_ret]. destruct (_ <? _); (eexists _, _; split; [done|]; by split).
Qed.

Lemma look_around_spec t b s x s1 : look_around t b s = (x, s1) ->
  resp s1 = resp s /\ last_probe s1 = last_probe s /\ forall r, x <> Ok (Some (Goes_on (Some r))).
Proof.
  unfold look_around. cbv [mbind M_bind mget mmod mret M_ret lift raise]. destruct (_ || _); [|by intros [= <- <-]].
  cbn [resp]. destruct (plan_rehome_now _ _ _) as [[pl|]|e]; [by intros [= <- <-]| |by intros [= <- <-]].
  destruct b; [by intros [= <- <-]|]. destruct (known_down _); by intros [= <- <-].
Qed.

Lemma probe_again_spec t s x s1 : probe_again t s = (x, s1) -> resp s1 = resp s /\
  (x = Ok tt -> now t - last_probe s1 <= REPROBE_SECONDS * SECOND /\
    (last_probe s1 = last_probe s \/ (last_probe s1 = now t /\ check_for_foreign (found t) = Ok tt))).
Proof.
  unfold probe_again. cbv [mbind M_bind mget mmod mret M_ret lift mwhen]. destruct (Z.ltb_spec (REPROBE_SECONDS * SECOND) (now t - last_probe s)).
  - intros [= <- <-]. split; [done|]. intros Hx. cbn. split; [unfold REPROBE_SECONDS, SECOND; lia|]. by right.
  - intros [= <- <-]. split; [done|]. intros _. split; [lia|by left].
Qed.

Lemma serve_turn_spec t s x s' : serve_turn t s = (x, s') ->
  (resp s' = resp s /\ forall r, x <> Ok (Goes_on (Some r))) \/
  exists data src y, hears t = Heard data src /\ handle_packet (handled_at t) data src (resp s) = (y, resp s') /\
    x = (o ← y; Ok (Goes_on o)) /\ guarded t s s'.
Proof.
  unfold serve_turn. destruct (stop t) eqn:Estop; [intros [= <- <-]; by left|].
  destruct (check_present_spec t s) as (b & s1 & E1 & R1 & P1). unfold mbind at 1, M_bind. rewrite E1.
  destruct (look_around t b s1) as [y s2] eqn:E2. destruct (look_around_spec _ _ _ _ _ E2) as (R2 & P2 & N2).
  unfold mbind at 1. rewrite E2. destruct y as [[o|]|e].
  - intros [= <- <-]. left. split; [congruence|]. intros r [= ->]. by apply (N2 r).
  - destruct (probe_again t s2) as [z s3] eqn:E3. destruct (probe_again_spec _ _ _ _ E3) as (R3 & P3).
    unfold mbind at 1. rewrite E3. destruct z as [[]|e]; [|intros [= <- <-]; left; split; [congruence|done]].
    destruct (P3 eq_refl) as [Hp1 Hp2]. rewrite P2, P1 in Hp2.
    destruct (hears t) as [data src| | |]; [|intros [= <- <-]; left; split; [congruence|done]..].
    unfold mbind, on_responder. destruct (handle_packet (handled_at t) data src (resp s3)) as [y r] eqn:Eh.
    replace (resp s3) with (resp s) in Eh by congruence. intros Hx. right. exists data, src, y. split; [done|].
    destruct y as [o|e]; injection Hx as <- <-; cbn; (split; [done|]); (split; [done|]); by split_and!.
  - intros [= <- <-]. left. split; [congruence|done].
Qed.

(** ** Whole runs *)

Lemma serve_forever_cons t ts s : serve_forever (t :: ts) s =
  match serve_turn t s with
  | (Ok (Goes_on sent), s) => let '(replies, e) := serve_forever ts s in (option_list sent ++ replies, e)
  | (Ok (Moves p), _) => ([], Some (Rehomed p))
  | (Ok Stops, _) => ([], Some Stopped)
  | (Err e, _) => ([], Some (Raised e))
  end.
Proof. done. Qed.

(** What is received is bytes. *)
Definition hears_bytes (t : turn) : Prop := forall data src, hears t = Heard data src -> is_bytes data.

Lemma ztake_own_length {A} n (l : list A) : ztake n l = ztake (zlen (ztake n l)) l.
Proof.
  unfold zlen, ztake. rewrite Nat2Z.id, length_take.
  destruct (Nat.min_spec (Z.to_nat n) (length l)) as [[_ ->]|[? ->]]; [done|]. by rewrite !take_ge by lia.
Qed.

Lemma parse_packet_mac data pkt : parse_packet data = Ok (Some pkt) -> pk_mac pkt = ztake (zlen (pk_mac pkt)) (pk_chaddr pkt).
Proof.
  unfold parse_packet. destruct (has_cookie data); cbn [negb]; [|done]. destruct (_ =? 1); cbn [negb]; [|done].
  intros H. bind_inv H. injection H as <-. apply ztake_own_length.
Qed.

(** A new responder's state *)
Lemma new_responder_spec s c p probe created r : is_ip s -> is_ip c -> new_responder (dotted s) (dotted c) p probe created = Ok r ->
  configured s c p probe r /\ macs_seen r = ∅ /\ tokens r = REPLY_BURST * SECOND /\ token_stamp r = created.
Proof. intros Hs Hc. unfold new_responder. rewrite !ip_to_int_dotted by done. cbn. by intros [= <-]. Qed.

(** A reply to console [k] in answer to one of the turns: the one address, by us, to port 68 *)
Definition lawful (s c p : Z) (k : bytes) (ts : list turn) (rp : reply) : Prop :=
  (exists o, read_offer (fst rp) = Some o /\ (o_type o = MSG_OFFER \/ o_type o = MSG_ACK) /\ o_address o = c /\ o_server o = s /\
     o_router o = s /\ o_mask o = mask_value p /\ k = ztake (zlen k) (o_chaddr o)) /\
  exists t data src, t ∈ ts /\ hears t = Heard data src /\ near s p src (snd rp).

Lemma lawful_later s c p k t ts rp : lawful s c p k ts rp -> lawful s c p k (t :: ts) rp.
Proof. intros [H (u & data & src & Hu & Hrest)]. split; [done|]. exists u, data, src. split; [by right|done]. Qed.

Lemma serve_lawful s c p probe ts sv replies e : topology s c p -> Forall hears_bytes ts -> configured s c p probe (resp sv) ->
  one_console probe (resp sv) -> serve_forever ts sv = (replies, e) ->
  exists k, k <> probe /\ macs_seen (resp sv) ⊆ {[k]} /\ Forall (lawful s c p k ts) replies.
Proof.
  intros Ht Hts. revert sv replies. induction Hts as [|t ts Hb Hts IH]; intros sv replies Hc Hone.
  { intros [= <- <-]. destruct Hone as (k & ? & ?). exists k. by split_and!. }
  assert (Hnone : exists k, k <> probe /\ macs_seen (resp sv) ⊆ {[k]} /\ Forall (lawful s c p k (t :: ts)) []).
  { destruct Hone as (k & ? & ?). exists k. by split_and!. }
  rewrite serve_forever_cons. destruct (serve_turn t sv) as [x s1] eqn:E.
  apply serve_turn_spec in E as [[Er Hx]|(data & src & y & Eh & E & -> & _)].
  - destruct x as [[sent|pl|]|e']; [|by intros [= <- <-]..]. destruct (serve_forever ts s1) as [rs e'] eqn:Es. intros [= <- <-].
    destruct sent as [rp|]; [by destruct (Hx rp)|]. rewrite <- Er in *. destruct (IH s1 rs Hc Hone Es) as (k & ? & ? & Hl).
    exists k. split_and!; [done..|]. eapply Forall_impl; [exact Hl|]. apply lawful_later.
  - destruct (handle_packet_spec s c p probe Ht _ _ _ _ _ _ (Hb _ _ Eh) Hc E) as (Hc1 & Hsub & _ & _ & _ & Hy & Hone1).
    destruct y as [sent|e']; cbn [mbind result_bind]; [|by intros [= <- <-]].
    destruct (serve_forever ts s1) as [rs e'] eqn:Es. intros [= <- <-].
    destruct (IH s1 rs Hc1 (Hone1 Hone ltac:(eauto)) Es) as (k & Hk & Hm & Hl). exists k. split_and!; [done|set_solver|].
    apply Forall_app. split; [|eapply Forall_impl; [exact Hl|apply lawful_later]].
    destruct sent as [[bs dest]|]; [|done]. destruct Hy as (pkt & mt & Hpar & Hpkt & Hne & Hin & Hmt & Hbuild & Hnear).
    apply Forall_cons. split; [|done]. assert (Ek : pk_mac pkt = k) by set_solver. split; [|exists t, data, src; split_and!; [by left|done..]].
    destruct Ht as (Hs & Hcl & Hp & _). eexists. split; [apply (reply_read pkt mt s c p LEASE_SECONDS); try done; lia|]. cbn.
    split_and!; try done; [unfold is_lease in Hmt; lia|]. rewrite <- Ek. by eapply parse_packet_mac.
Qed.

(** C20. However the network behaves, every reply of a run reads as an offer or acknowledgement of
    the one address by this server, for one and the same console, never for the probe, and is sent
    to the client port by broadcast or back to where the request came from. *)
Theorem replies_are_lawful s c p probe created r m ts a b d replies e : topology s c p ->
  new_responder (dotted s) (dotted c) p probe created = Ok r -> Forall hears_bytes ts ->
  serve_forever ts (Serving (r <| mode := m |>) a b d) = (replies, e) ->
  exists k, k <> probe /\ Forall (lawful s c p k ts) replies.
Proof.
  intros Ht Hr Hts Hs. destruct (new_responder_spec s c p probe created r) as (Hc & Hm & _); [apply Ht..|done|].
  destruct (serve_lawful s c p probe ts (Serving (r <| mode := m |>) a b d) replies e) as (k & Hk & _ & Hl); [done|done|exact Hc| |exact Hs|by exists k].
  exists (0 :: probe). split; [|cbn; rewrite Hm; set_solver]. intros E. apply (f_equal length) in E. cbn in E. lia.
Qed.

(** The clock when messages are handled does not go back. *)
Fixpoint clock_runs (from : Z) (ts : list turn) : Prop :=
  match ts with [] => True | t :: ts => from <= handled_at t /\ clock_runs (handled_at t) ts end.
Definition clock_end (from : Z) (ts : list turn) : Z := foldl (fun _ t => handled_at t) from ts.

Lemma clock_end_le from ts : clock_runs from ts -> from <= clock_end from ts.
Proof.
  revert from. induction ts as [|t ts IH]; intros from; [done|]. cbn. intros [Hf Hts]. specialize (IH _ Hts). unfold clock_end in *. cbn. lia.
Qed.

Lemma serve_rate s c p probe ts sv replies e from : topology s c p -> Forall hears_bytes ts -> configured s c p probe (resp sv) ->
  clock_runs from ts -> token_stamp (resp sv) <= from -> 0 <= tokens (resp sv) -> serve_forever ts sv = (replies, e) ->
  zlen replies * SECOND <= tokens (resp sv) + (clock_end from ts - token_stamp (resp sv)) * REPLY_RATE.
Proof.
  intros Ht Hts. revert sv replies from. induction Hts as [|t ts Hb Hts IH]; intros sv replies from Hc Hclock Hst Htok.
  { intros [= <- <-]. unfold clock_end, REPLY_RATE. cbn [foldl]. rewrite (@zlen_nil reply). lia. }
  destruct Hclock as [Hfrom Hclock]. change (clock_end from (t :: ts)) with (clock_end (handled_at t) ts).
  pose proof (clock_end_le _ _ Hclock) as Hend.
  assert (Hnil : zlen (@nil reply) * SECOND <= tokens (resp sv) + (clock_end (handled_at t) ts - token_stamp (resp sv)) * REPLY_RATE).
  { unfold REPLY_RATE. rewrite (@zlen_nil reply). lia. }
  rewrite serve_forever_cons. destruct (serve_turn t sv) as [x s1] eqn:E.
  apply serve_turn_spec in E as [[Er Hx]|(data & src & y & Eh & E & -> & _)].
  - destruct x as [[sent|pl|]|e']; [|by intros [= <- <-]..]. destruct (serve_forever ts s1) as [rs e'] eqn:Es. intros [= <- <-].
    destruct sent as [rp|]; [by destruct (Hx rp)|]. rewrite <- Er in *. apply (IH s1 rs); [done|done|lia|done|exact Es].
  - destruct (handle_packet_spec s c p probe Ht _ _ _ _ _ _ (Hb _ _ Eh) Hc E) as (Hc1 & _ & Hstamp & Hacc & Hpos & _ & _).
    destruct y as [sent|e']; cbn [mbind result_bind]; [|by intros [= <- <-]].
    destruct (serve_forever ts s1) as [rs e'] eqn:Es. intros [= <- <-].
    assert (H1 : token_stamp (resp s1) <= handled_at t) by (destruct Hstamp as [[-> _]| ->]; lia).
    pose proof (IH s1 rs (handled_at t) Hc1 Hclock H1 (Hpos Htok ltac:(lia)) Es) as Hrest. unfold REPLY_RATE in *. rewrite zlen_app.
    assert (El : zlen (option_list sent) = match sent with Some _ => 1 | None => 0 end) by by destruct sent.
    rewrite El. destruct sent; unfold SECOND in *; lia.
Qed.

(** C30. From its creation on, a responder sends at most [REPLY_BURST] replies and [REPLY_RATE] more
    per second. *)
Theorem replies_are_rare s c p probe created r m ts a b d replies e : topology s c p ->
  new_responder (dotted s) (dotted c) p probe created = Ok r -> Forall hears_bytes ts -> clock_runs created ts ->
  serve_forever ts (Serving (r <| mode := m |>) a b d) = (replies, e) ->
  zlen replies * SECOND <= REPLY_BURST * SECOND + (clock_end created ts - created) * REPLY_RATE.
Proof.
  intros Ht Hr Hts Hclock Hs. destruct (new_responder_spec s c p probe created r) as (Hc & _ & Htok & Hstamp); [apply Ht..|done|].
  set (sv := Serving (r <| mode := m |>) a b d) in Hs.
  assert (Et : tokens (resp sv) = REPLY_BURST * SECOND) by exact Htok. assert (Es : token_stamp (resp sv) = created) by exact Hstamp.
  assert (H : zlen replies * SECOND <= tokens (resp sv) + (clock_end created ts - token_stamp (resp sv)) * REPLY_RATE);
    [|by rewrite Et, Es in H].
  apply (serve_rate s c p probe ts sv replies e created); [done|done|exact Hc|done|lia| |exact Hs].
  rewrite Et. unfold REPLY_BURST, SECOND. lia.
Qed.

(** ** Never without a probe *)

(** The last probe is that of the start or that of a turn, which nobody answered. *)
Definition probed_at (start : Z) (ts : list turn) (at_ : Z) : Prop :=
  at_ = start \/ exists u, u ∈ ts /\ at_ = now u /\ check_for_foreign (found u) = Ok tt.

Lemma probed_at_app start ts us at_ : probed_at start ts at_ -> probed_at start (ts ++ us) at_.
Proof. intros [->|(u & ? & ?)]; [by left|right]. exists u. split; [apply elem_of_app; by left|done]. Qed.

Lemma look_around_keeps_probe t s x s' : serve_turn t s = (x, s') -> forall sent, x = Ok (Goes_on sent) ->
  last_probe s' = last_probe s \/ (last_probe s' = now t /\ check_for_foreign (found t) = Ok tt).
Proof.
  unfold serve_turn. destruct (stop t); [by intros [= <- <-]|].
  destruct (check_present_spec t s) as (b & s1 & E1 & R1 & P1). unfold mbind at 1, M_bind. rewrite E1.
  destruct (look_around t b s1) as [y s2] eqn:E2. destruct (look_around_spec _ _ _ _ _ E2) as (R2 & P2 & _). unfold mbind at 1. rewrite E2.
  destruct y as [[o|]|e]; [intros [= <- <-] sent _; left; congruence| |by intros [= <- <-]].
  destruct (probe_again t s2) as [z s3] eqn:E3. destruct (probe_again_spec _ _ _ _ E3) as (_ & P3).
  unfold mbind at 1. rewrite E3. destruct z as [[]|e]; [|by intros [= <- <-]]. destruct (P3 eq_refl) as [_ Hp]. rewrite P2, P1 in Hp.
  destruct (hears t) as [data src| | |]; [|by intros [= <- <-]..].
  unfold mbind, on_responder. destruct (handle_packet _ _ _ _) as [[o|e] r]; intros [= <- <-]; done.
Qed.

Lemma serve_probed start ts t past sv : probed_at start past (last_probe sv) ->
  fst (serve_forever (ts ++ [t]) sv) <> fst (serve_forever ts sv) ->
  exists at_, probed_at start (past ++ ts ++ [t]) at_ /\ now t - at_ <= REPROBE_SECONDS * SECOND.
Proof.
  revert past sv. induction ts as [|u ts IH]; intros past sv Hp; cbn [app].
  - rewrite serve_forever_cons. destruct (serve_turn t sv) as [x s1] eqn:E. intros Hne.
    pose proof (look_around_keeps_probe _ _ _ _ E) as Hk.
    apply serve_turn_spec in E as [[_ Hx]|(data & src & y & _ & _ & -> & (_ & Hrec & Hor))].
    { exfalso. destruct x as [[[rp|]|pl|]|e]; cbn in Hne; try done. by apply (Hx rp). }
    exists (last_probe s1). split; [|done]. destruct Hor as [->|[-> Hf]]; [by apply probed_at_app|].
    right. exists t. split; [apply elem_of_app; right; by left|done].
  - rewrite !serve_forever_cons. destruct (serve_turn u sv) as [x s1] eqn:E. pose proof (look_around_keeps_probe _ _ _ _ E) as Hk.
    destruct x as [[sent|pl|]|e]; [|done..]. specialize (Hk sent eq_refl).
    destruct (serve_forever (ts ++ [t]) s1) as [r1 e1] eqn:E1, (serve_forever ts s1) as [r2 e2] eqn:E2. cbn [fst]. intros Hne.
    destruct (IH (past ++ [u]) s1) as (at_ & Hat & Hrec).
    + destruct Hk as [->|[-> Hf]]; [by apply probed_at_app|]. right. exists u. split; [apply elem_of_app; right; by left|done].
    + rewrite E1, E2. cbn. intros ->. by apply Hne.
    + exists at_. split; [|done]. by rewrite <- app_assoc in Hat.
Qed.

(** C22. A process replies only after a probe that no other server answered, or that could not be
    made, and a turn that sends a reply does so within [REPROBE_SECONDS] of the last one. *)
Theorem replies_follow_probes o found0 start ts t r acts e :
  respond (Course o found0 start (ts ++ [t])) r = (acts, e) ->
  (forall rp, Replied rp ∈ acts -> check_for_foreign found0 = Ok tt /\ exists later, acts = Probed :: later) /\
  (acts <> fst (respond (Course o found0 start ts) r) ->
     exists at_, probed_at start (ts ++ [t]) at_ /\ now t - at_ <= REPROBE_SECONDS * SECOND).
Proof.
  unfold respond. cbn [opens start_found DhcpResponder.start turns].
  destruct (open_socket o r) as [[x|r']|]; [|destruct (check_for_foreign found0) as [[]|x]|];
    [intros [= <- <-]; split; [by intros ? ?%elem_of_nil|done]| |intros [= <- <-]; split; [by intros ? ?%elem_of_nil|done]..].
  destruct (serve_forever (ts ++ [t]) _) as [r1 e1] eqn:E1, (serve_forever ts _) as [r2 e2] eqn:E2. intros [= <- <-].
  split; [by eauto|]. cbn [fst]. intros Hne.
  destruct (serve_probed start ts t [] (Serving r' start start start)) as (at_ & ? & ?); [by left| |by exists at_].
  rewrite E1, E2. cbn. intros ->. by apply Hne.
Qed.

(** ** Messages that are answered *)

(** A DISCOVER, or a REQUEST for our address that names no other server *)
Definition answerable (c s : Z) (pkt : packet) (mt : Z) : Prop :=
  (message_type pkt = Some MSG_DISCOVER /\ mt = MSG_OFFER) \/
  (message_type pkt = Some MSG_REQUEST /\ mt = MSG_ACK /\ requested_address pkt = Some (be_bytes 4 c) /\
   (default [] (alookup 54 (pk_options pkt)) = [] \/ default [] (alookup 54 (pk_options pkt)) = be_bytes 4 s)).

Lemma track_mac_known mac r : macs_seen r ⊆ {[mac]} -> exists r', track_mac mac r = (Ok tt, r') /\ macs_seen r' = {[mac]} /\
  tokens r' = tokens r /\ token_stamp r' = token_stamp r /\
  (forall s c p probe, configured s c p probe r -> configured s c p probe r').
Proof.
  intros Hsub. unfold track_mac. destruct (decide (mac ∈ macs_seen r)) as [Hin|Hin].
  - rewrite bool_decide_true by done. exists r. split_and!; [done|set_solver|done..].
  - rewrite bool_decide_false by done. set (r1 := r <| macs_seen ::= _ |>).
    assert (Hm : macs_seen r1 = {[mac]}) by (change (macs_seen r1) with ({[mac]} ∪ macs_seen r); set_solver).
    rewrite Hm, size_singleton. exists r1. split_and!; [done..|]. by intros.
Qed.

Lemma message_answered s c p probe now data pkt mt src r : topology s c p -> configured s c p probe r -> is_bytes data ->
  parse_packet data = Ok (Some pkt) -> pk_mac pkt <> probe -> macs_seen r ⊆ {[pk_mac pkt]} -> answerable c s pkt mt ->
  SECOND <= tokens r + (now - token_stamp r) * REPLY_RATE ->
  exists bs dest r', handle_packet now data src r = (Ok (Some (bs, dest)), r') /\
    build_reply pkt mt (dotted s) (dotted c) p LEASE_SECONDS = Ok bs /\ near s p src dest /\ configured s c p probe r' /\
    macs_seen r' = {[pk_mac pkt]} /\ lease_mac r' = Some (pk_mac pkt) /\ token_stamp r' = now /\
    tokens r' = Z.min (REPLY_BURST * SECOND) (tokens r + (now - token_stamp r) * REPLY_RATE) - SECOND.
Proof.
  intros Ht Hcf Hb Hpar Hne Hmacs Hans Htok. destruct (parse_packet_ok data pkt Hb Hpar) as [Hpkt _].
  destruct (track_mac_known _ r Hmacs) as (r1 & Etrack & M1 & T1 & S1 & C1). specialize (C1 _ _ _ _ Hcf).
  unfold handle_packet. cbv [mbind M_bind mget lift mret M_ret]. rewrite Hpar.
  assert (Hmt : is_lease mt = true) by (destruct Hans as [(_ & ->)|(_ & -> & _)]; done).
  assert (Hfin : exists mtype, message_type pkt = Some mtype /\ existsb (Z.eqb mtype) client_messages = true /\
    exists r2, answer now pkt mtype src r1 = grant pkt mt src r2 /\ configured s c p probe r2 /\ macs_seen r2 = {[pk_mac pkt]} /\
      token_stamp r2 = now /\ tokens r2 = Z.min (REPLY_BURST * SECOND) (tokens r + (now - token_stamp r) * REPLY_RATE) - SECOND).
  { assert (Htake : exists r2, take_token now r1 = (Ok true, r2) /\ configured s c p probe r2 /\ macs_seen r2 = {[pk_mac pkt]} /\
      token_stamp r2 = now /\ tokens r2 = Z.min (REPLY_BURST * SECOND) (tokens r + (now - token_stamp r) * REPLY_RATE) - SECOND).
    { unfold take_token. cbv zeta. rewrite T1, S1. rewrite (proj2 (Z.leb_le _ _)) by (unfold REPLY_BURST, SECOND in *; lia).
      eexists. by split_and!. }
    destruct Htake as (r2 & Etake & C2 & M2 & Hs2 & Ht2). unfold answer. cbv [mbind M_bind mget].
    destruct Hans as [(E & ->)|(E & -> & Hreq & Hsid)]; rewrite E; eexists; (split; [done|]); (split; [done|]); exists r2;
      (split; [|by split_and!]).
    - change (MSG_DISCOVER =? MSG_DECLINE) with false. change (MSG_DISCOVER =? MSG_RELEASE) with false.
      change (MSG_DISCOVER =? MSG_INFORM) with false. cbv beta iota. by rewrite Etake.
    - change (MSG_REQUEST =? MSG_DECLINE) with false. change (MSG_REQUEST =? MSG_RELEASE) with false.
      change (MSG_REQUEST =? MSG_INFORM) with false. cbv beta iota. rewrite Etake. change (MSG_REQUEST =? MSG_DISCOVER) with false.
      cbv beta iota delta [negb]. unfold answer_request. cbv [mbind M_bind mget]. destruct C2 as (_ & _ & _ & _ & -> & ->).
      rewrite Hreq, bool_decide_true by done. destruct Hsid as [-> | ->]; [done|]. unfold str_eqb. rewrite (bool_decide_true (_ = _)) by done.
      by rewrite andb_false_r. }
  destruct Hfin as (mtype & -> & -> & r2 & Eans & C2 & M2 & Hs2 & Ht2). cbv beta iota delta [negb].
  pose proof Hcf as (_ & _ & _ & -> & _). unfold str_eqb. rewrite bool_decide_false by done. rewrite Etrack, Eans.
  destruct (grant_spec s c p probe Ht pkt mt src r2 C2 Hpkt Hmt) as (bs & dest & -> & Hbuild & Hnear).
  exists bs, dest. eexists. by split_and!.
Qed.

(** ** Another responder is found *)

Lemma foreign_offer_named data x t : foreign_offer_server_id data x = Ok (Some t) -> nonempty t = true.
Proof.
  assert (Hd : forall n, nonempty (dotted n) = true).
  { intros n. unfold dotted. cbn [join_with]. destruct (decimal _); done. }
  unfold foreign_offer_server_id. intros H. bind_inv H. destruct a; [done|]. do 3 (destruct (negb _); [done|]). bind_inv H.
  destruct (default [] _); [done|]. destruct (negb _); [done|]. destruct (_ =? 4); [injection H as <-; apply Hd|].
  destruct (negb _); injection H as <-; [apply Hd|done].
Qed.

Lemma first_server_finds before d after x t : Forall is_bytes before -> foreign_offer_server_id d x = Ok (Some t) ->
  exists u, first_server (before ++ d :: after) x = Ok (Some u) /\ nonempty u = true.
Proof.
  intros Hb Hd. induction Hb as [|y before Hy _ IH]; cbn [app first_server].
  - rewrite Hd. cbn. exists t. split; [done|]. by eapply foreign_offer_named.
  - destruct (foreign_offer_ends y x Hy) as [o E]. rewrite E. cbn [mbind result_bind]. destruct o as [u|]; [|exact IH].
    exists u. split; [done|]. by eapply foreign_offer_named.
Qed.

(** C23. A second responder of this program on the wire that has just started, so that it has
    served no console yet, answers the probe of the first, and the first then refuses to
    serve, whatever else it received, even if both use one address.  (One that has served a
    console answers no other address of a network card, the probe's included.) *)
Theorem another_responder_is_found s c p probe created r t src x mac d before after : topology s c p ->
  new_responder (dotted s) (dotted c) p probe created = Ok r -> created <= t ->
  is_ip x -> zlen mac = 6 -> is_bytes mac -> mac <> probe -> build_discover x mac = Ok d -> Forall is_bytes before ->
  exists bs dest r', handle_packet t d src r = (Ok (Some (bs, dest)), r') /\
    check_for_foreign (probe_for_foreign_dhcp_server true true (before ++ bs :: after) x) = Err DirectLinkRefused.
Proof.
  intros Ht Hr Hcr Hx Hm Hmb Hne Hd Hbef. pose proof Ht as (Hs & Hc & Hp & _).
  destruct (new_responder_spec s c p probe created r Hs Hc Hr) as (Hcf & Hmacs & Htok & Hstamp).
  destruct (discover_read x mac Hx Hm) as (d' & Hd' & Hpar). rewrite Hd in Hd'. injection Hd' as <-.
  set (pkt := Packet 1 6 x 0x8000 0 0 mac (ljust mac 16) discover_options) in *.
  assert (Hdb : is_bytes d) by (by eapply build_discover_bytes).
  destruct (message_answered s c p probe t d pkt MSG_OFFER src r) as (bs & dest & r' & Eh & Hb & _);
    [done..|change (pk_mac pkt) with mac; rewrite Hmacs; set_solver|by left|rewrite Htok, Hstamp; unfold REPLY_BURST, SECOND, REPLY_RATE; lia|].
  exists bs, dest, r'. split; [done|]. destruct (parse_packet_ok d pkt Hdb Hpar) as [Hpkt _].
  pose proof (reply_detected pkt MSG_OFFER s c p LEASE_SECONDS bs Hpkt Hs Hc ltac:(lia) eq_refl ltac:(done) Hb) as Hdet.
  destruct (first_server_finds before bs after x _ Hbef Hdet) as (u & Hu & Hn).
  unfold probe_for_foreign_dhcp_server, check_for_foreign. cbn [negb orb]. rewrite Hu. cbn [mbind result_bind]. by rewrite Hn.
Qed.

(** A console that asks a new responder, and then for the address offered, gets an OFFER and an
    ACK that it can read, of that address. *)
Theorem console_is_served s c p probe created r t1 t2 data1 data2 src1 src2 pkt1 pkt2 : topology s c p ->
  new_responder (dotted s) (dotted c) p probe created = Ok r -> created <= t1 <= t2 -> is_bytes data1 -> is_bytes data2 ->
  parse_packet data1 = Ok (Some pkt1) -> parse_packet data2 = Ok (Some pkt2) -> pk_mac pkt1 = pk_mac pkt2 -> pk_mac pkt1 <> probe ->
  answerable c s pkt1 MSG_OFFER -> answerable c s pkt2 MSG_ACK ->
  exists bs1 dest1 r1 bs2 dest2 r2,
    handle_packet t1 data1 src1 r = (Ok (Some (bs1, dest1)), r1) /\ handle_packet t2 data2 src2 r1 = (Ok (Some (bs2, dest2)), r2) /\
    read_offer bs1 = Some (Offer MSG_OFFER (pk_xid pkt1) (pk_chaddr pkt1) c s (mask_value p) s LEASE_SECONDS) /\
    read_offer bs2 = Some (Offer MSG_ACK (pk_xid pkt2) (pk_chaddr pkt2) c s (mask_value p) s LEASE_SECONDS) /\
    lease_mac r2 = Some (pk_mac pkt2).
Proof.
  intros Ht Hr Htime Hb1 Hb2 Hp1 Hp2 Hmac Hne Ha1 Ha2. pose proof Ht as (Hs & Hc & Hp & _).
  destruct (new_responder_spec s c p probe created r Hs Hc Hr) as (Hcf & Hmacs & Htok & Hstamp).
  destruct (message_answered s c p probe t1 data1 pkt1 MSG_OFFER src1 r) as (bs1 & dest1 & r1 & E1 & Hbd1 & _ & C1 & M1 & _ & S1 & T1);
    [done..|rewrite Hmacs; set_solver|done|rewrite Htok, Hstamp; unfold REPLY_BURST, SECOND, REPLY_RATE; lia|].
  destruct (message_answered s c p probe t2 data2 pkt2 MSG_ACK src2 r1) as (bs2 & dest2 & r2 & E2 & Hbd2 & _ & _ & _ & L2 & _);
    [done|done|done|done|congruence|rewrite M1, Hmac; set_solver|done|rewrite T1, S1, Htok, Hstamp; unfold REPLY_BURST, SECOND, REPLY_RATE; lia|].
  exists bs1, dest1, r1, bs2, dest2, r2. destruct (parse_packet_ok _ _ Hb1 Hp1) as [O1 _], (parse_packet_ok _ _ Hb2 Hp2) as [O2 _].
  split_and!; [done|done| | |done].
  - by apply (reply_read pkt1 MSG_OFFER s c p LEASE_SECONDS); [done..|lia|done|done|].
  - by apply (reply_read pkt2 MSG_ACK s c p LEASE_SECONDS); [done..|lia|done|done|].
Qed.

(** ** The address of the port *)

Lemma adapter_by_in f g l o a : adapter_by f g l o = Some a -> a ∈ l \/ o = Some a.
Proof.
  revert o. induction l as [|b l IH]; intros o; cbn [adapter_by]; [by right|]. destruct (f b); [intros [= ->]; left; by left|].
  intros [H|H]%IH; [left; by right|]. destruct (g b); [injection H as ->; left; by left|by right].
Qed.

Lemma verify_unix_adapter_ok e i n a : verify_unix_adapter e i n = Ok a -> a ∈ adapters e /\ wired_island a.
Proof.
  unfold verify_unix_adapter, adapter_by_id_or_name. destruct (adapter_by _ _ _ _) as [b|] eqn:E; [|done].
  destruct (classify_adapter b true) eqn:Ec; [done|]. intros [= <-]. apply adapter_by_in in E as [?|?]; [|done].
  split; [done|]. by apply classify_none in Ec as [? _].
Qed.

Lemma apply_commands_ok commands answers acts : apply_commands commands answers = (acts, Ok tt) -> acts = map Ran commands.
Proof.
  revert answers acts. induction commands as [|argv commands IH]; intros answers acts; cbn [apply_commands]; [by intros [= <-]|].
  destruct answers as [|[[]|] answers]; try done. destruct (apply_commands commands answers) as [more r] eqn:E. intros [= <- ->].
  cbn. f_equal. by eapply IH.
Qed.

Lemma apply_commands_unset commands answers acts r : apply_commands commands answers = (acts, r) -> Configured ∉ acts.
Proof.
  revert answers acts r. induction commands as [|argv commands IH]; intros answers acts r; cbn [apply_commands]; [intros [= <- <-]; set_solver|].
  destruct answers as [|[[]|] answers]; try (intros [= <- <-]; set_solver).
  destruct (apply_commands commands answers) as [more x] eqn:E. intros [= <- <-]. specialize (IH _ _ _ E). set_solver.
Qed.

Lemma respond_unset c r acts e : respond c r = (acts, e) -> Configured ∉ acts.
Proof.
  unfold respond. destruct (open_socket _ _) as [[x|r']|]; [intros [= <- <-]; set_solver| |intros [= <- <-]; set_solver].
  destruct (check_for_foreign _); [|intros [= <- <-]; set_solver]. destruct (serve_forever _ _) as [rs x]. intros [= <- <-].
  intros [?|(? & ? & _)%list_elem_of_fmap]%elem_of_cons; done.
Qed.

(** The commands that add the address and those that remove it *)
Lemma unix_commands i ts tc p os_name r : validate_topology ts tc p = Ok r -> os_name <> OtherSystem ->
  exists up down, local_ip_commands i ts p false os_name = Ok up /\ local_ip_commands i ts p true os_name = Ok down.
Proof.
  intros (s & c & -> & -> & (Hs & _ & Hp & _) & _)%validate_topology_inv Hos. unfold local_ip_commands. rewrite canonical_ipv4_dotted by done.
  cbn [mbind result_bind]. destruct os_name; [by eexists _, _| |done]. unfold prefix_to_netmask. rewrite prefix_mask_value by lia.
  by eexists _, _.
Qed.

(** C28. If the Unix process added the address to a port, then this was a wired port without router
    and lease, and however the process ends, the last thing it does is to remove the address. *)
Theorem unix_address_removed ts tc p u acts code : os_name u <> OtherSystem ->
  run_responder ts tc p (run_unix u) = (acts, Some code) -> Configured ∈ acts ->
  exists e a i up more down, enumerated u = Ok e /\ a ∈ adapters e /\ ad_id a = Id_name i /\ wired_island a /\
    local_ip_commands i ts p false (os_name u) = Ok up /\ local_ip_commands i ts p true (os_name u) = Ok down /\
    acts = map Ran up ++ Configured :: more ++ map Ran down.
Proof.
  intros Hos. unfold run_responder. destruct (validate_topology ts tc p) as [[[s c] q]|x] eqn:Ev; [|by intros [= <- _] ?%elem_of_nil].
  pose proof Ev as (s0 & c0 & _ & _ & _ & [= -> -> ->])%validate_topology_inv.
  destruct (run_unix u ts tc p) as [acts' e] eqn:Er. intros [= -> He] Hin. revert Er. unfold run_unix.
  destruct (root u); cbn [negb]; [|by intros [= <- <-]; apply elem_of_nil in Hin].
  destruct (enumerated u) as [en|x] eqn:Ee; cbn [mbind result_bind]; [|by intros [= <- <-]; apply elem_of_nil in Hin].
  destruct (verify_unix_adapter en _ _) as [a|x] eqn:Ea; [|by intros [= <- <-]; apply elem_of_nil in Hin].
  apply verify_unix_adapter_ok in Ea as [Hain Hisl]. destruct (ad_id a) as [n|i] eqn:Eid; [by intros [= <- <-]; apply elem_of_nil in Hin|].
  destruct (unix_commands i ts tc p (os_name u) _ Ev Hos) as (up & down & Eup & Edown).
  destruct (unix_body u i ts tc p) as [[body configured] x] eqn:Eb.
  assert (Hbody : Configured ∈ body -> configured = true /\ exists more, body = map Ran up ++ Configured :: more).
  { revert Eb. unfold unix_body, apply_local_ip. rewrite Eup. destruct (configure_ip u).
    - destruct (apply_commands up (applied u)) as [done_ r] eqn:Eap. pose proof (apply_commands_unset _ _ _ _ Eap).
      destruct r as [[]|e']; [|intros [= <- <- <-]; done]. apply apply_commands_ok in Eap as ->.
      destruct (new_responder _ _ _ _ _) as [r|e']; [destruct (respond _ r) as [more y]|]; intros [= <- <- <-] _; (split; [done|]).
      + exists more. by rewrite <- app_assoc.
      + by exists [].
    - destruct (new_responder _ _ _ _ _) as [r|e']; [|intros [= <- <- <-] ?%elem_of_nil; done].
      destruct (respond _ r) as [more y] eqn:Eres. intros [= <- <- <-] Hc. by apply respond_unset in Eres. }
  destruct x as [x|]; [|intros [= <- <-]; done]. unfold restore_local_ip. rewrite Edown.
  assert (Hdown : Configured ∉ map Ran down) by (by intros (? & ? & _)%list_elem_of_fmap).
  destruct configured; intros [= <- <-].
  - apply elem_of_app in Hin as [Hin|?]; [|done]. destruct (Hbody Hin) as [_ [more ->]].
    exists en, a, i, up, more, down. by rewrite <- app_assoc.
  - by destruct (Hbody Hin).
Qed.
