(* ===== verification/DirectLinkWitnesses.v ===== *)
(** * Direct link: a console on the cable

    A host with wireless LAN and a spare port, a console that boots, and a neighbour with a
    leftover address, on which the hypotheses of the theorems hold; and the defects found. *)

From S2P Require Import Prelude Tables PyStr PyText Ipv4 Dhcp DirectLink DirectLinkFacts DhcpResponder DhcpResponderFacts.

(** ** The host *)

Definition wlan : adapter :=
  Adapter (lit "wlan0") 2 (Id_name (lit "wlan0")) (lit "up") (lit "802.11") true true [Address (lit "192.168.1.20") 24 (lit "dhcp")].
Definition spare : adapter := Adapter (lit "eth1") 3 (Id_name (lit "eth1")) (lit "up") (lit "802.3") true false [].
Definition home : enumeration :=
  Enumeration [wlan; spare] [Route (lit "192.168.137.0/24") (Some (Id_name (lit "wlan0"))); Route (lit "0.0.0.0/0") None].
Definition home_taken : list (Z * Z) := [(3232235776, 24); (3232270592, 24)].

Example home_candidates : find_candidates home true = ([spare], [(wlan, Wireless)]).
Proof. reflexivity. Qed.

Definition SERVER : Z := Eval vm_compute in quad 192 168 137 1.
Definition CLIENT : Z := Eval vm_compute in quad 192 168 137 10.

Lemma link_topology : topology SERVER CLIENT 24.
Proof. unfold topology, usable, is_ip. vm_compute. repeat split; discriminate. Qed.

Lemma subnet_is_free_witness : taken_networks home None = Ok home_taken /\
  choose_subnet home_taken = Ok (Some (lit "192.168.183.1", lit "192.168.183.10")) /\
  apart (quad 192 168 183 1) 24 (quad 192 168 1 20) 24.
Proof.
  destruct (subnet_is_free home home_taken eq_refl) as (o & Ho & Hspec).
  assert (E : choose_subnet home_taken = Ok (Some (lit "192.168.183.1", lit "192.168.183.10"))) by (vm_compute; reflexivity).
  rewrite E in Ho. apply Ok_inj in Ho as <-. destruct Hspec as (s & c & Hs & _ & (Hip & _) & Hfree & _).
  assert (Es : s = quad 192 168 183 1).
  { apply Ok_inj. rewrite <- (ip_to_int_dotted s) by done. rewrite <- Hs. vm_compute. reflexivity. }
  split_and!; [vm_compute; reflexivity|done|]. rewrite <- Es.
  apply (Hfree wlan (Address (lit "192.168.1.20") 24 (lit "dhcp")) (quad 192 168 1 20));
    [by left|by left|reflexivity|reflexivity|cbn; lia|vm_compute; reflexivity].
Defined.

Lemma static_settings_spec_witness : topology SERVER CLIENT 24 /\
  static_client_settings (dotted SERVER) (dotted CLIENT) 24 = Ok (Some (lit "192.168.137.11", lit "255.255.255.0", lit "192.168.137.1")).
Proof.
  split; [exact link_topology|]. destruct (static_settings_spec SERVER CLIENT 24 link_topology) as (o & Ho & _).
  rewrite Ho. f_equal. apply Ok_inj. rewrite <- Ho. vm_compute. reflexivity.
Defined.

(** A console that already has the address of the server *)
Lemma rehome_sound_witness :
  plan_rehome (dotted SERVER) (dotted CLIENT) 24 [lit "192.168.137.1"] false = Ok (Some (lit "192.168.137.2", lit "192.168.137.10", 24)) /\
  validate_topology (lit "192.168.137.2") (lit "192.168.137.10") 24 = Ok (lit "192.168.137.2", lit "192.168.137.10", 24).
Proof.
  destruct (rehome_sound SERVER CLIENT 24 [lit "192.168.137.1"] false link_topology) as (o & Ho & Hspec).
  { apply Forall_cons. split; [reflexivity|apply Forall_nil_2]. }
  assert (E : o = Some (lit "192.168.137.2", lit "192.168.137.10", 24)) by (apply Ok_inj; rewrite <- Ho; vm_compute; reflexivity).
  split; [by rewrite Ho, E|]. destruct (Hspec _ E) as (s & c & p & [= Es Ec Ep] & Hv & _). rewrite <- Es, <- Ec, <- Ep in Hv. exact Hv.
Defined.

(** ** A console boots *)

Definition CONSOLE_MAC : bytes := [0; 4; 31; 130; 7; 9].
Definition PROBE_MAC : bytes := [2; 17; 34; 51; 68; 85].

(** A request of the console, with the bytes of its options *)
Definition console_message (x : Z) (options : bytes) : bytes :=
  [1; 1; 6; 0] ++ be_bytes 4 x ++ [0; 0; 128; 0] ++ zeros 16 ++ CONSOLE_MAC ++ zeros 202 ++ MAGIC_COOKIE ++ options ++ [255].
Definition discover : bytes := Eval vm_compute in console_message 7 [53; 1; 1].
Definition request : bytes := Eval vm_compute in console_message 7 [53; 1; 3; 50; 4; 192; 168; 137; 10; 54; 4; 192; 168; 137; 1].

Definition byte_listb (l : bytes) : bool := forallb (fun b => (0 <=? b) && (b <? 256)) l.
Lemma byte_list_ok l : byte_listb l = true -> is_bytes l.
Proof. intros H. apply Forall_forall. intros b Hb. unfold byte_listb in H. rewrite forallb_forall in H. specialize (H b (proj1 (list_elem_of_In _ _) Hb)). unfold is_byte. lia. Qed.

Definition fresh : responder :=
  Responder (dotted SERVER) (dotted CLIENT) 24 PROBE_MAC None ∅ None (REPLY_BURST * SECOND) 0 (be_bytes 4 SERVER) (be_bytes 4 CLIENT).

Definition quiet_wire : sight := Sight (Ok None) (Some (Ok (JList []))).
Definition hearing_turn (t : Z) (h : hearing) : turn := Turn t false true quiet_wire (Ok None) (Ok None) h t.
Definition boot : list turn :=
  [hearing_turn 1000 (Heard discover (Some (lit "0.0.0.0", 68))); hearing_turn 2000 (Heard request (Some (lit "0.0.0.0", 68)))].

Lemma boot_bytes : Forall hears_bytes boot.
Proof.
  repeat (apply Forall_cons; split; [intros data src [= <- <-]; apply byte_list_ok; by vm_compute|]). apply Forall_nil_2.
Qed.

(** The two replies and that the responder still serves *)
Definition boot_run : list reply * option ending := serve_forever boot (Serving (fresh <| mode := Some Specific |>) 0 0 0).

Example boot_replies : length (fst boot_run) = 2%nat /\ snd boot_run = None /\ option_map o_type (head (fst boot_run) ≫= fun rp => read_offer (fst rp)) = Some MSG_OFFER.
Proof. vm_compute. done. Qed.

Lemma replies_are_lawful_witness : exists k, k <> PROBE_MAC /\ Forall (lawful SERVER CLIENT 24 k boot) (fst boot_run) /\ fst boot_run <> [].
Proof.
  destruct (replies_are_lawful SERVER CLIENT 24 PROBE_MAC 0 fresh (Some Specific) boot 0 0 0 (fst boot_run) (snd boot_run) link_topology)
    as (k & Hk & Hl); [vm_compute; reflexivity|exact boot_bytes|by rewrite <- surjective_pairing|].
  exists k. split_and!; [done..|]. by vm_compute.
Defined.

Lemma replies_are_rare_witness : zlen (fst boot_run) * SECOND <= REPLY_BURST * SECOND + (clock_end 0 boot - 0) * REPLY_RATE.
Proof.
  apply (replies_are_rare SERVER CLIENT 24 PROBE_MAC 0 fresh (Some Specific) boot 0 0 0 (fst boot_run) (snd boot_run) link_topology);
    [vm_compute; reflexivity|exact boot_bytes|cbn; lia|by rewrite <- surjective_pairing].
Defined.

Lemma console_is_served_witness : exists bs1 dest1 r1 bs2 dest2 r2,
  handle_packet 1000 discover None fresh = (Ok (Some (bs1, dest1)), r1) /\ handle_packet 2000 request None r1 = (Ok (Some (bs2, dest2)), r2) /\
  lease_mac r2 = Some CONSOLE_MAC.
Proof.
  destruct (parse_packet discover) as [[pkt1|]|] eqn:E1; [|by vm_compute in E1..].
  destruct (parse_packet request) as [[pkt2|]|] eqn:E2; [|by vm_compute in E2..].
  assert (M1 : pk_mac pkt1 = CONSOLE_MAC) by (vm_compute in E1; by injection E1 as <-).
  assert (M2 : pk_mac pkt2 = CONSOLE_MAC) by (vm_compute in E2; by injection E2 as <-).
  destruct (console_is_served SERVER CLIENT 24 PROBE_MAC 0 fresh 1000 2000 discover request None None pkt1 pkt2 link_topology)
    as (bs1 & dest1 & r1 & bs2 & dest2 & r2 & H1 & H2 & _ & _ & Hl).
  - vm_compute. reflexivity.
  - lia.
  - apply byte_list_ok. by vm_compute.
  - apply byte_list_ok. by vm_compute.
  - done.
  - done.
  - congruence.
  - rewrite M1. done.
  - left. split; [|done]. vm_compute in E1. injection E1 as <-. reflexivity.
  - right. vm_compute in E2. injection E2 as <-. split_and!; [reflexivity|done|by vm_compute|by right; vm_compute].
  - exists bs1, dest1, r1, bs2, dest2, r2. rewrite M2 in Hl. by split_and!.
Defined.

(** Two computers with this program on one cable *)
Definition OTHER_MAC : bytes := [2; 1; 2; 3; 4; 5].
Definition probe_message : bytes := Eval vm_compute in match build_discover 99 OTHER_MAC with Ok d => d | Err _ => [] end.

Lemma another_responder_is_found_witness : exists bs dest r', handle_packet 1000 probe_message None fresh = (Ok (Some (bs, dest)), r') /\
  check_for_foreign (probe_for_foreign_dhcp_server true true ([discover] ++ [bs]) 99) = Err DirectLinkRefused.
Proof.
  apply (another_responder_is_found SERVER CLIENT 24 PROBE_MAC 0 fresh 1000 None 99 OTHER_MAC probe_message [discover] [] link_topology).
  - vm_compute. reflexivity.
  - lia.
  - by vm_compute.
  - reflexivity.
  - apply byte_list_ok. by vm_compute.
  - done.
  - vm_compute. reflexivity.
  - apply Forall_cons. split; [apply byte_list_ok; by vm_compute|apply Forall_nil_2].
Defined.

(** ** The process *)

Definition at_once : opening := Opening [Attempt Bound quiet_wire false] true false.
Definition stop_turn : turn := Turn 3000 true true quiet_wire (Ok None) (Ok None) Timed_out 3000.
Definition boot_course : course := Course at_once (Ok None) 0 (boot ++ [stop_turn]).

Lemma replies_follow_probes_witness : exists at_, probed_at 0 boot at_ /\ 2000 - at_ <= REPROBE_SECONDS * SECOND.
Proof.
  destruct (replies_follow_probes at_once (Ok None) 0 [hearing_turn 1000 (Heard discover (Some (lit "0.0.0.0", 68)))]
              (hearing_turn 2000 (Heard request (Some (lit "0.0.0.0", 68)))) fresh
              (fst (respond (Course at_once (Ok None) 0 boot) fresh)) (snd (respond (Course at_once (Ok None) 0 boot) fresh))) as [_ H];
    [by rewrite <- surjective_pairing|]. apply H. vm_compute. discriminate.
Defined.

Definition linux_run : unix_run :=
  UnixRun true Linux (Ok home) (lit "eth1") (lit "eth1") true [Some true; Some true] PROBE_MAC 0 boot_course.

Lemma wlan_wireless : is_wireless_media wlan = true.
Proof. by vm_compute. Qed.

Lemma unix_address_removed_witness : exists up more down,
  local_ip_commands (lit "eth1") (lit "192.168.137.1") 24 false Linux = Ok up /\
  local_ip_commands (lit "eth1") (lit "192.168.137.1") 24 true Linux = Ok down /\
  fst (run_responder (lit "192.168.137.1") (lit "192.168.137.10") 24 (run_unix linux_run)) = map Ran up ++ Configured :: more ++ map Ran down.
Proof.
  set (run := run_responder _ _ _ _). assert (Hend : snd run = Some (Some 0)) by (vm_compute; reflexivity).
  destruct (unix_address_removed (lit "192.168.137.1") (lit "192.168.137.10") 24 linux_run (fst run) (Some 0))
    as (e & a & i & up & more & down & He & Ha & Hi & Hw & Hup & Hdown & Hacts).
  - discriminate.
  - rewrite <- Hend. by rewrite <- surjective_pairing.
  - vm_compute. right. right. left.
  - assert (Ei : i = lit "eth1").
    { change (Ok home = Ok e) in He. apply Ok_inj in He as <-. change (a ∈ [wlan; spare]) in Ha.
      apply elem_of_cons in Ha as [->|Ha]; [pose proof wlan_wireless; destruct Hw; intuition congruence|].
      apply list_elem_of_singleton in Ha as ->. change (Id_name (lit "eth1") = Id_name i) in Hi. by injection Hi as <-. }
    rewrite Ei in Hup, Hdown. exists up, more, down. split; [exact Hup|]. split; [exact Hdown|exact Hacts].
Defined.

(** ** What the model shows *)

(** [ifconfig] says [status: inactive] of a port without a cable, which contains [active]: the
    port is taken for one that is up. *)
Example inactive_port_is_up :
  parse_macos_ifconfig (lit "en5: flags=8863<UP,BROADCAST,SMART,RUNNING> mtu 1500" ++ [10; 9] ++ lit "status: inactive" ++ [10])
  = Ok (lit "up", []).
Proof. vm_compute. reflexivity. Qed.

(** A console with an address of the home network left over moves the port into the network that
    the wireless adapter is in, to the address its router usually has. *)
Example rehome_into_home :
  plan_rehome (dotted SERVER) (dotted CLIENT) 24 [lit "192.168.1.50"] true = Ok (Some (lit "192.168.1.1", lit "192.168.1.2", 24)) /\
  networks_overlap (quad 192 168 1 0) 24 (quad 192 168 1 0) 24 = Ok true /\ (quad 192 168 1 0, 24) ∈ home_taken.
Proof. split_and!; [vm_compute; reflexivity..|by left]. Qed.
