(* ===== verification/Smb1Witnesses.v ===== *)
(** * The SMB1 server: a concrete folder

    On the folder of [Smb2Witnesses] the hypotheses of the theorems hold together, whole
    connections evaluate, and so do the behaviours reported as findings. *)

From stdpp Require Import relations.
From S2P Require Import Prelude Triples Tables PyStr PyText PathNames SessionStats Compressed HostOs HttpServeFacts Smb2Wire Smb2Auth Smb2Paths Smb1Wire Smb1Server Smb1Facts Smb1AnswerFacts Smb1FileFacts Toy.
From S2P Require HttpWitnesses Smb2Witnesses.

#[local] Existing Instance Smb2Witnesses.ascii_case.
#[local] Existing Instance Smb2Witnesses.whole_seconds.
#[local] Existing Instance HttpWitnesses.toy_stream.

#[export] Instance toy_exclusive : ExclusiveOs toy := {
  os_create p t := match node_at p (t_nodes t) with Some _ => (oserror EEXIST, t) | None => toy_open p m_wb t end
}.

Definition serves (ro : bool) (users : list (text * text)) : server :=
  new_server [(lit "games", Share (lit "games") (lit "/g"))] ro 1 users.

Definition open_server : server := serves false [].
Definition safe_server : server := serves true [].
Definition locked_server : server := serves false [(lit "ada", lit "secret")].

(** ** Messages of a client *)

Definition packing (l : list (fmt * Z)) : bytes := default [] (pack l).
Definition ask_ (c t mid : Z) (ps d : bytes) : bytes := message c 0 t 7 0 mid ps d.

Definition negotiate : bytes := ask_ SMB_COM_NEGOTIATE 0 1 [] (2 :: lit "NT LM 0.12" ++ [0]).
Definition setup (account password : string) : bytes :=
  ask_ SMB_COM_SESSION_SETUP_ANDX 0 2
    (packing [(fB, 255); (fB, 0); (fH, 0); (fH, 8192); (fH, 1); (fH, 1); (fI, 0); (fH, zlen (lit password)); (fH, 0); (fI, 0); (fI, 0)])
    (lit password ++ lit account ++ [0]).
Definition connect (s : string) : bytes :=
  ask_ SMB_COM_TREE_CONNECT_ANDX 0 3 (packing [(fB, 255); (fB, 0); (fH, 0); (fH, 0); (fH, 1)]) (0 :: lit s ++ [0]).
Definition open_ (mid t : Z) (s : string) : bytes := ask_ SMB_COM_OPEN_ANDX t mid (zeros 30) (lit s ++ [0]).
Definition create (mid t disposition : Z) (s : string) : bytes :=
  ask_ SMB_COM_NT_CREATE_ANDX t mid (zeros 5 ++ le_bytes 2 (zlen (lit s)) ++ zeros 28 ++ le_bytes 4 disposition ++ zeros 9) (lit s).
Definition read (mid t fid off n : Z) : bytes := ask_ SMB_COM_READ_ANDX t mid (read_request fid off n) [].
Definition write (mid t fid off : Z) (d : bytes) : bytes :=
  ask_ SMB_COM_WRITE_ANDX t mid
    ([255; 0; 0; 0] ++ le_bytes 2 fid ++ le_bytes 4 off ++ zeros 8 ++ le_bytes 2 0 ++ le_bytes 2 (zlen d) ++ le_bytes 2 63 ++ le_bytes 4 0) d.
Definition find_params (s : string) : bytes := zeros 12 ++ lit s ++ [0].
Definition trans2 (mid t sub : Z) (ps : bytes) : bytes :=
  ask_ SMB_COM_TRANS2 t mid
    (zeros 18 ++ le_bytes 2 (zlen ps) ++ le_bytes 2 65 ++ le_bytes 2 0 ++ le_bytes 2 65 ++ [1; 0] ++ le_bytes 2 sub) ps.
Definition echo : bytes := ask_ SMB_COM_ECHO 0 9 (le_bytes 2 1) (lit "hello").

(** A connection on which these messages arrive *)
Definition client (c : conn) (ms : list bytes) : smb1 toy :=
  {| host := Smb2Witnesses.disk; cn := c; incoming := map (fun m => Chunk (framed m)) ms; out := []; send_faults := [];
     clock := 0; summary := None; peer := 1 |}.

Definition replies (w : smb1 toy) : list bytes := Smb2Witnesses.unframed (length (out w)) (out w).
Definition statuses (w : smb1 toy) : list Z := map status_of (replies w).
Definition content (p : string) (w : smb1 toy) : option node := node_at (lit p) (t_nodes (host w)).

(** ** Whole connections *)

Definition login : list bytes := [negotiate; setup "guest" ""; connect "\\PC\games"].

Definition playing : list bytes :=
  login ++ [open_ 4 2 "\a.iso"; read 5 2 4097 3 4; create 6 2 FILE_OVERWRITE_IF "\new.cfg"; write 7 2 4098 2 (lit "ok"); echo;
            trans2 8 2 TRANS2_FIND_FIRST2 (find_params "\*"); trans2 9 2 TRANS2_FIND_NEXT2 (le_bytes 2 2);
            trans2 10 2 TRANS2_FIND_NEXT2 (le_bytes 2 2); trans2 11 2 TRANS2_FIND_NEXT2 (le_bytes 2 2)].

Example playing_works : let '(r, w) := serve_conn open_server (client new_conn playing) in
  r = Ok tt /\ statuses w = replicate 12 STATUS_SUCCESS /\
  map read_data (take 1 (drop 4 (replies w))) = [lit "3456"] /\ content "/g/new.cfg" w = Some (N_file (zeros 2 ++ lit "ok")) /\
  map (fun m => zdrop 94 (trans_data m)) (drop 8 (replies w)) = [lit "."; lit ".."; lit "a.iso"; lit "d"].
Proof. vm_compute. split_and!; reflexivity. Qed.

Example read_only_refuses : let '(r, w) := serve_conn safe_server (client new_conn playing) in
  r = Ok tt /\ take 8 (statuses w) = [0; 0; 0; 0; 0; STATUS_ACCESS_DENIED; STATUS_ACCESS_DENIED; 0] /\ content "/g/new.cfg" w = None.
Proof. vm_compute. split_and!; reflexivity. Qed.

(** ** Behaviours reported as findings *)

(** With an account configured a wrong password is refused, and whoever does not log on at all
    is served as before. *)
Example logon_not_needed :
  statuses (snd (serve_conn locked_server (client new_conn [negotiate; setup "ada" "guess"; connect "\\PC\games"]))) =
    [0; STATUS_LOGON_FAILURE; 0] /\
  let w := snd (serve_conn locked_server (client new_conn [negotiate; connect "\\PC\games"; open_ 4 2 "\a.iso"; read 5 2 4097 3 4])) in
  statuses w = [0; 0; 0; 0] /\ map read_data (drop 3 (replies w)) = [lit "3456"].
Proof. vm_compute. split_and!; reflexivity. Qed.

(** A password beyond ASCII ends the connection instead of being compared. *)
Example password_beyond_ascii :
  fst (serve_conn (serves false [(lit "ada", [233])]) (client new_conn [negotiate; setup "ada" "guess"; connect "\\PC\games"])) = Err TypeError.
Proof. by vm_compute. Qed.

(** After 61440 files the numbers start again, whether the first ones are still open or not. *)
Example fid_given_twice :
  let c := Conn 0 65535 2 1 [(2, Disk (Share (lit "games") (lit "/g")))] [(4096, Smb1Server.OpenFile (lit "/g/a.iso") false 10 None)] [] in
  let w := snd (serve_conn open_server (client c [open_ 4 2 "\d\x"; read 5 2 4096 0 10])) in
  map read_data (drop 1 (replies w)) = [lit "abc"].
Proof. by vm_compute. Qed.

(** A request that is too short ends the connection. *)
Example short_request_ends : fst (serve_conn open_server (client new_conn [ask_ SMB_COM_READ_ANDX 0 1 [] []])) = Err StructError.
Proof. by vm_compute. Qed.

(** The SMB2 mode cannot answer TREE_CONNECT or CLOSE. *)
Example smb2_mode_packs_wrong : h2_tree_connect = Err StructError /\ h2_close = Err StructError.
Proof. done. Qed.

(** A dialect as clients write it is not the one the SMB2 mode looks for. *)
Example smb2_dialect_not_found :
  let d := 2 :: lit "NT LM 0.12" ++ [0] ++ 2 :: lit "SMB 2.???" ++ [0] in
  match h_negotiate (new_server [] false 2 []) (parse_req (ask_ SMB_COM_NEGOTIATE 0 1 [] d)) (client new_conn []) with
  | (Ok rep, _) => take 3 (default [] (r_params rep)) = [0; 0; 0]
  | _ => False
  end.
Proof. by vm_compute. Qed.

(** A name beyond ASCII is listed without those characters. *)
Example name_listed_short :
  let srv := new_server [(lit "odd", Share (lit "odd") (lit "/o"))] false 1 [] in
  let w := snd (serve_conn srv (client new_conn (login ++ [trans2 8 2 TRANS2_FIND_FIRST2 (find_params "\*")]
    ++ map (fun i => trans2 (9 + i) 2 TRANS2_FIND_NEXT2 (le_bytes 2 2)) [1; 2; 3]))) in
  map (fun m => zdrop 94 (trans_data m)) (drop 3 (replies w)) = [lit "."; lit ".."; lit "a[1].iso"; []].
Proof. by vm_compute. Qed.

(** ** Witnesses *)

Lemma toy_rooted1 ro users s : shared (serves ro users) s -> exists rs, rooted s rs.
Proof.
  intros [n Hin]. cbn in Hin. apply list_elem_of_singleton in Hin as [= -> ->].
  exists [lit "g"]. split; [|done]. apply Forall_singleton. split_and!; try done. apply (bool_decide_unpack _). done.
Qed.

Lemma smb1_confined_witness :
  let w' := snd (serve_conn open_server (client new_conn playing)) in
  conn_ok open_server (cn w') /\ rtc (touch open_server) Smb2Witnesses.disk (host w') /\
  forall p, served_path (Os := toy) open_server p ->
    exists s rs rest, shared open_server s /\ rooted s rs /\ Smb2Paths.names_path p (rs ++ rest).
Proof.
  apply (smb1_confined open_server (client new_conn playing)); [intros o; reflexivity|intros s; apply toy_rooted1|reflexivity].
Defined.

Lemma smb1_read_only_witness :
  rtc (look safe_server) Smb2Witnesses.disk (host (snd (serve_conn safe_server (client new_conn playing)))).
Proof. apply (smb1_read_only safe_server (client new_conn playing)); reflexivity. Defined.

(** A connection with /g/a.iso open *)
Definition opened : smb1 toy :=
  snd ((_ ← serve_request open_server (parse_req (connect "\\PC\games"));
        serve_request open_server (parse_req (open_ 4 2 "\a.iso"))) (client new_conn [])).

Lemma client_reads_file_witness : exists m w',
  serve_request open_server (parse_req (read 5 2 4097 3 4)) opened = (Ok tt, w') /\ out w' = out opened ++ framed m /\
  status_of m = STATUS_SUCCESS /\ read_data m = lit "3456" /\ cn w' = cn opened /\ same_files (host opened) (host w') /\
  exists j, sh_at (host w') 3 (lit "/g/a.iso") j.
Proof.
  destruct (client_reads_file open_server (parse_req (read 5 2 4097 3 4)) 4097 3 4 opened
    (Smb1Server.OpenFile (lit "/g/a.iso") false 10 (Some 3)) 3 (lit "/g/a.iso") (lit "0123456789") 0) as (m & w' & K);
    [reflexivity|reflexivity|lia|lia|lia|reflexivity|reflexivity| |reflexivity|exact I|].
  - eexists _, _. split_and!; reflexivity.
  - exists m, w'. exact K.
Defined.

Definition listed : smb1 toy := snd (serve_request open_server (parse_req (connect "\\PC\games")) (client new_conn [])).
Definition entry_bytes (e : entry) : bytes := match dir_entry_104 e listed with (Ok b, _) => b | _ => [] end.
Definition found_bytes : list bytes := map entry_bytes (entries_of (lit "/g") [lit "a.iso"; lit "d"]).

Lemma search_lists_once_witness :
  map (zdrop 94) found_bytes = [lit "."; lit ".."; lit "a.iso"; lit "d"] /\
  exists w', find_entries 4 (parse_req (trans2 8 2 TRANS2_FIND_FIRST2 (find_params "\*"))) (find_params "\*") listed
    = (Ok found_bytes, w') /\ host w' = host listed.
Proof.
  split; [by vm_compute|].
  apply (search_lists_once 4 (parse_req (trans2 8 2 TRANS2_FIND_FIRST2 (find_params "\*"))) (find_params "\*")
    (Share (lit "games") (lit "/g")) (lit "/g") [lit "a.iso"; lit "d"] found_bytes listed).
  - by vm_compute.
  - by vm_compute.
  - by vm_compute.
  - by vm_compute.
  - unfold found_bytes. cbn [map entries_of]. repeat (apply Forall2_cons; split); try apply Forall2_nil_2.
    all: intros [h cn inc o sf ck su pe] Hw; cbn in Hw; subst h; vm_compute; reflexivity.
  - repeat (apply Forall_cons; split); try apply Forall_nil_2; by vm_compute.
  - by vm_compute.
Defined.

Lemma one_answer_witness : exists w', serve_request open_server (parse_req echo) (client new_conn []) = (Ok tt, w') /\
  answered (parse_req echo) [] w'.
Proof.
  eexists. split; [reflexivity|]. apply (one_answer open_server (parse_req echo) (client new_conn [])). reflexivity.
Defined.

Lemma connection_ends_witness : let w := client new_conn login in
  serve_loop open_server (arrivals (incoming w) + 5) w = serve_loop open_server (S (arrivals (incoming w))) w.
Proof. apply (connection_ends open_server (arrivals (incoming (client new_conn login)) + 5) (client new_conn login)). lia. Defined.
