(* ===== verification/ExfatWitnesses.v ===== *)
(** * The virtual exFAT disk: a concrete folder

    The laws of [FileHost] hold of the small host of [Toy]; on a folder of it with a
    directory and two files, the hypotheses of the theorems hold together. *)

From S2P Require Import Prelude PyStr HostOs Toy Udpbd UdpbdFacts RawStorage Exfat ExfatFacts ExfatDirFacts ExfatReadFacts ExfatDiskFacts.

(** ** The host *)

Definition toy_file (t : toy) (p : str) : option (stat_result * bytes) :=
  match node_at p (t_nodes t) with Some (N_file c) => Some (stat_of (N_file c), c) | _ => None end.

Definition toy_opened (t : toy) (h : Z) (p : str) : Prop :=
  h < t_next t /\ exists o, file_at h (t_files t) = Some o /\ of_path o = p.

Lemma file_at_filter h g l : h <> g -> file_at h (List.filter (fun go => negb (fst go =? g)) l) = file_at h l.
Proof.
  intros Hne. induction l as [|[k o] l IH]; [done|]. cbn. destruct (Z.eqb_spec k g) as [->|]; cbn.
  - by rewrite (proj2 (Z.eqb_neq g h)) by done.
  - destruct (k =? h); [done|exact IH].
Qed.

Lemma file_at_set h g o l : file_at h (set_file g o l) = if g =? h then Some o else file_at h l.
Proof.
  unfold set_file. cbn. destruct (Z.eqb_spec g h); [done|]. apply file_at_filter. by intros ->.
Qed.

Lemma toy_file_inv t p st c : toy_file t p = Some (st, c) -> node_at p (t_nodes t) = Some (N_file c) /\ st = stat_of (N_file c).
Proof. unfold toy_file. destruct (node_at p (t_nodes t)) as [[]|]; try done. by intros [= <- <-]. Qed.

#[export] Program Instance toy_files : FileHost toy := {| fh_file := toy_file; fh_opened := toy_opened |}.
Next Obligation. by intros t p st c [_ ->]%toy_file_inv. Qed.
Next Obligation.
  intros t p st c [Hp ->]%toy_file_inv. cbn. unfold toy_open. cbn [follow]. rewrite Hp.
  eexists _, _. split; [reflexivity|]. split_and!; [split; [cbn; lia|]|..|done].
  - cbn. rewrite Z.eqb_refl. by eexists.
  - intros h' p' [Hlt (o & Ho & <-)]. split; [lia|]. split; [cbn; lia|]. exists o. split; [|done].
    change (file_at h' (set_file (t_next t) (OpenFile p 0 m_rb) (t_files t)) = Some o). rewrite file_at_set.
    by rewrite (proj2 (Z.eqb_neq _ _)) by lia.
Qed.
Next Obligation.
  intros t h p st c [_ (o & Ho & <-)] [Hp ->]%toy_file_inv. cbn. by rewrite Ho, Hp.
Qed.
Next Obligation.
  intros t h p st c off n [Hlt (o & Ho & <-)] [Hp ->]%toy_file_inv Hoff Hn Hle. cbn. unfold with_file.
  rewrite Ho, Hp. rewrite bool_decide_eq_true_2 by done. eexists _, _, _. split; [reflexivity|]. cbn [t_files t_nodes].
  change (t_files (t <| t_files := _ |> <| t_nodes := _ |>)) with (set_file h (at_pos o off) (t_files t)).
  rewrite file_at_set, Z.eqb_refl.
  change (t_nodes (t <| t_files := _ |> <| t_nodes := _ |>)) with (t_nodes t). cbn [of_path at_pos]. rewrite Hp.
  rewrite bool_decide_eq_true_2 by done. split; [reflexivity|]. split; [|done].
  intros h' p' [Hlt' (o' & Ho' & <-)]. split; [done|]. cbn [t_files].
  change (t_files (_ <| t_files := ?f |> <| t_nodes := _ |>)) with f. rewrite !file_at_set.
  destruct (Z.eqb_spec h h') as [->|]; [|by exists o']. rewrite Ho in Ho'. injection Ho' as ->. by eexists.
Qed.
Next Obligation.
  intros t h p [Hlt (o & Ho & <-)]. cbn. eexists. split; [reflexivity|]. split; [|done].
  intros h' p' [Hlt' (o' & Ho' & <-)] Hne. split; [done|]. exists o'. split; [|done].
  change (file_at h' (List.filter (fun go => negb (fst go =? h)) (t_files t)) = Some o').
  by rewrite file_at_filter.
Qed.

Lemma toy_readable (t : toy) : readable t.
Proof.
  intros p st. cbn. unfold toy_file. destruct (node_at p (t_nodes t)) as [[c| |q]|]; cbn; try done.
  - intros [= <-] _. by exists c.
  - by intros [= <-].
  - by intros [= <-].
Qed.

Lemma toy_answers (t : toy) : host_answers t.
Proof.
  split_and!; intros p; cbn; try done; by destruct (node_at p (t_nodes t)) as [[]|].
Qed.

(** ** The folder *)

(** Upper case of the ASCII letters *)
Definition sample_upper (c : Z) : list Z := if (97 <=? c) && (c <=? 122) then [c - 32] else [c].

Lemma sample_upper_last : upper sample_upper 65535 = 65535.
Proof. done. Qed.

Lemma sample_upper_other c : 0 <= c < 65535 -> upper sample_upper c <> 65535.
Proof.
  intros Hc. unfold upper, sample_upper. destruct (Z.leb_spec 97 c), (Z.leb_spec c 122); cbn [andb];
    match goal with |- context [?a <=? 65535] => rewrite (proj2 (Z.leb_le a 65535)) by lia end; lia.
Qed.

Definition sample_file : bytes := map (fun i => i mod 251) (seqZ 0 1000).

Definition sample_folder : toy :=
  {| t_nodes := [(lit "/g", N_dir); (lit "/g/DVD", N_dir); (lit "/g/DVD/a.iso", N_file sample_file);
                 (lit "/g/e.txt", N_file [])]; t_files := []; t_next := 3 |}.

Definition sample_disk : device toy :=
  Eval vm_compute in
  match init sample_upper (lit "/g") sample_folder with
  | Ok d => d
  | Err _ => mount sample_folder (Volume (Layout [] 0 0 0 0 0 0 0 0 0 0 0) [] [] [] [])
  end.

Lemma sample_init : init sample_upper (lit "/g") sample_folder = Ok sample_disk.
Proof. vm_compute. reflexivity. Qed.

Definition sample_node (i : nat) : node :=
  default (Node [] false (0, 0, 0, 0) [] 0 0 0 []) (nodes (lay (vol sample_disk)) !! i).

Lemma mounted_file_reads_witness : exists d',
  (_ ← seek (heap_offset (lay (vol sample_disk)) (cluster (sample_node 2)) / SECTOR) (Some 1); read 512) sample_disk
    = (Ok (ztake 512 sample_file), d').
Proof.
  destruct (mounted_file_reads (lit "/g") sample_folder sample_disk 2 (sample_node 2) 1
    (toy_readable _) sample_init eq_refl eq_refl ltac:(reflexivity) ltac:(split; discriminate))
    as (st & c & d' & Hf & _ & _ & E).
  exists d'. change (1 * SECTOR) with 512 in E. injection Hf as <- <-. exact E.
Defined.

Lemma mounted_directory_witness : exists es d',
  (g ← read_geometry; read_folder 1 7 g (g_root g)) sample_disk = (Ok (Some es), d') /\
  map de_name es = [lit "DVD"; lit "e.txt"] /\ map de_cluster es = [5; 0].
Proof.
  destruct (mounted_directory (lit "/g") sample_folder sample_disk 0 (sample_node 0)
    (toy_readable _) sample_init eq_refl eq_refl) as (es & d' & He & Hr).
  exists es, d'. split; [exact Hr|]. injection He as <-. by split.
Defined.

Lemma bitmap_marks_owned_witness :
  exists o, owns (lay (vol sample_disk)) o 6.
Proof.
  apply (bitmap_marks_owned (lit "/g") sample_folder sample_disk 6 (toy_readable _) sample_init).
  - split; [discriminate|reflexivity].
  - vm_compute. reflexivity.
Defined.

Lemma fat_exact_witness : read_fat sample_disk 6 = 0.
Proof.
  destruct (fat_exact (lit "/g") sample_folder sample_disk 6 (toy_readable _) sample_init
    ltac:(split; [discriminate|reflexivity])) as (_ & H & _).
  apply H. intros s n Hin. change (chains (vol sample_disk)) with [(2, 1); (3, 1); (4, 1); (5, 1)] in Hin.
  rewrite !elem_of_cons in Hin. destruct Hin as [E|[E|[E|[E|E]]]]; try (injection E as -> ->; lia).
  by apply not_elem_of_nil in E.
Defined.

Lemma upcase_roundtrip_witness : exists us, encoded_upcase sample_upper = Ok us /\ expand us 0 = upcase_table sample_upper.
Proof. apply (upcase_roundtrip sample_upper); [exact sample_upper_last|exact sample_upper_other]. Defined.

Lemma init_ends_witness : ends (init sample_upper (lit "/g") sample_folder).
Proof. exact (init_ends sample_upper sample_upper_last sample_upper_other sample_folder (lit "/g") (toy_answers _) (toy_readable _)). Defined.

Lemma changed_file_refused_witness : exists h (o : toy) st,
  os_fstat h o = Ok st /\ identity_of st = identity (sample_node 2) /\ zlen (ztake 10 sample_file) = 10.
Proof.
  apply (changed_file_refused (sample_node 2) 0 10 sample_disk (snd (file_bytes (sample_node 2) 0 10 sample_disk))).
  vm_compute. reflexivity.
Defined.

Lemma clusters_owned_once_witness : exists l,
  lay_out [new_node (lit "/g") true (stat_of N_dir)] 100 = Ok l /\ cluster_count l <= 8 * bitmap_length l.
Proof.
  destruct (lay_out [new_node (lit "/g") true (stat_of N_dir)] 100) as [l|e] eqn:E; [|vm_compute in E; discriminate].
  exists l. split; [reflexivity|].
  destruct (clusters_owned_once _ _ _ E ltac:(lia) ltac:(repeat constructor; cbn; lia)) as (_ & _ & _ & [H _] & _). exact H.
Defined.
