(* ===== verification/Witnesses.v ===== *)
(** * The theorems at concrete worlds

    For each property of the transport and of the handlers that has hypotheses, a world of
    [Toy] where they hold, and the property there. *)

From S2P Require Import Prelude PyStr PathNames SessionStats Compressed HostOs ChdCue Wire Session Transport TransportFacts TransferFacts ReplyFacts Paths Handlers Server HandlersFacts Toy PathsFacts WriteFacts Core CoreFacts LoopFacts ChdCueFacts.

(** ** The transport *)

(** Packets 4094 to 4097 sent, the last acknowledged 4095: the ring wraps. *)
Definition wrapped_session : session :=
  (toy_session [] 1) <| tx_seq_nr := 2 |> <| tx_seq_nr_acked := 4095 |>
    <| tx_buffer := [(4095, [1]); (0, [2]); (1, [3])] |>.

Lemma acknowledge_refines_witness :
  acknowledge_tx (seq12 4096) wrapped_session =
    (true, wrapped_session <| tx_seq_nr_acked := 0 |> <| tx_buffer := [(1, [3])] |>) /\
  acknowledge_tx (seq12 4094) wrapped_session = (false, wrapped_session).
Proof.
  split.
  - rewrite (acknowledge_refines wrapped_session 4098 4095 4096 [(4095, [1]); (4096, [2]); (4097, [3])]);
      [reflexivity|lia|lia|lia|reflexivity|reflexivity|reflexivity|].
    repeat constructor; cbn; lia.
  - rewrite (acknowledge_refines wrapped_session 4098 4095 4094 [(4095, [1]); (4096, [2]); (4097, [3])]);
      [reflexivity|lia|lia|lia|reflexivity|reflexivity|reflexivity|].
    repeat constructor; cbn; lia.
Defined.

Lemma optimal_chunk_size_spec_witness : optimal_chunk_size 2048 = 1024 /\ In (optimal_chunk_size 5000) [1024; 1280; 1408].
Proof. split; [reflexivity|]. exact (proj1 (optimal_chunk_size_spec 5000 ltac:(lia))). Defined.

(** The client's acknowledgement of packet [n], as a datagram *)
Definition ack_datagram (n : Z) : datagram :=
  (data_packet 0 {| DataHeader.seq_nr_ack := n; DataHeader.flags := ACK; DataHeader.hdr_word_count := 0;
                    DataHeader.data_byte_count := 0 |} [], (1, 2), None).

(** A client that asked, and whose acknowledgement of packet 5 arrives a second later *)
Definition reading_world : world toy :=
  (toy_world (Toy [] [] 1) ((toy_session [] 1) <| tx_seq_nr := 5 |> <| tx_seq_nr_acked := 4 |>))
    <| inbox := [(50000, Some (ack_datagram 5))] |>.

Definition to_data (s : session) : socket := sock_data.

Lemma transfer_returns_witness :
  fst (send_raw_data_with_header to_data 0 (1, 2) (zeros 8) [1; 2; 3; 4; 5] reading_world) <> Err Hang.
Proof. apply (transfer_returns to_data 0 (1, 2) (zeros 8) [1; 2; 3; 4; 5] reading_world); [cbn; lia|done]. Defined.

Lemma read_reply_reassembles_witness :
  let '(r, w') := send_raw_data_with_header to_data 0 (1, 2) (zeros 8) [1; 2; 3; 4; 5] reading_world in
  r = Ok true /\ snd (reassemble 5 (sent w')) = zeros 8 ++ [1; 2; 3; 4; 5; 0; 0; 0].
Proof.
  destruct (send_raw_data_with_header to_data 0 (1, 2) (zeros 8) [1; 2; 3; 4; 5] reading_world) as [r w'] eqn:E.
  assert (Hr : r = Ok true) by (vm_compute in E; by injection E as <- _). split; [done|].
  destruct (read_reply_reassembles to_data 0 (1, 2) (zeros 8) [1; 2; 3; 4; 5] reading_world r w'
              ltac:(done) ltac:(cbn; lia) ltac:(cbn; lia) E) as [_ Hok].
  destruct (Hok Hr) as [Hgot _]. exact Hgot.
Defined.

(** ** Handlers *)

(** A share with one folder and a file open as handle 1 *)
Definition share : toy := {|
  t_nodes := [(lit "/s", N_dir); (lit "/s/d", N_dir); (lit "/s/d/a.bin", N_file [7; 8; 9])];
  t_files := [(3, OpenFile (lit "/s/d/a.bin") 0 m_rpb)]; t_next := 4
|}.

Definition share_world : world toy := toy_world share (toy_session [(1, F_file 3)] 2).

Definition remove_payload (path : str) : bytes := [REMOVE_REQ; 0; 0; 0] ++ path ++ [0].

(** The file is there. *)
Definition file_there (o : toy) : Prop := node_at (lit "/s/d/a.bin") (t_nodes o) <> None.

Lemma node_at_set p q n l : node_at p l <> None -> node_at p (set_node q n l) <> None.
Proof.
  intros Hn. unfold set_node. cbn [node_at]. destruct (str_eqb_spec q p) as [|Hqp]; [done|].
  induction l as [|[r m] l IH]; [done|]. cbn [node_at] in Hn. cbn [List.filter fst].
  destruct (str_eqb_spec r p) as [->|].
  - destruct (str_eqb_spec p q) as [->|]; [done|]. cbn [negb node_at]. destruct (str_eqb_spec p p); done.
  - destruct (str_eqb_spec r q); cbn [negb node_at]; [by apply IH|]. destruct (str_eqb_spec r p); [done|]. by apply IH.
Qed.

Lemma node_at_with_file {A} p f (k : open_file -> bytes -> result A * open_file * bytes) o :
  node_at p (t_nodes o) <> None -> node_at p (t_nodes (snd (with_file f k o))) <> None.
Proof.
  intros Hn. unfold with_file. destruct (file_at _ _) as [g|]; [|done]. destruct (node_at (of_path g) _) as [[c| |]|]; try done.
  destruct (k g c) as [[r g'] c']. cbn. destruct (bool_decide _); [done|]. by apply node_at_set.
Qed.

Lemma reads_there o o' : reads o o' -> file_there o -> file_there o'.
Proof.
  unfold file_there. intros [f n o1|f off wh o1|f o1|f n off o1|p o1]; cbn; try apply node_at_with_file; [done|].
  unfold toy_open. destruct (follow 8 p o1) as [[]|]; done.
Qed.

(** A read-only server does not delete, write or truncate the file. *)
Lemma read_only_respects_witness :
  let '(_, w') := handle_data (toy_config true) to_data (1, 2) (request 0 (remove_payload (lit "d/a.bin"))) share_world in
  file_there (host w') /\ write_handle (sess w') < 0.
Proof.
  destruct (handle_data _ _ _ _ _) as [r w'] eqn:E.
  refine (read_only_respects (toy_config true) to_data file_there (1, 2) _ share_world r w' eq_refl reads_there _ _ _ E).
  - intros p o _. apply node_at_set.
  - cbn. lia.
  - done.
Defined.

Lemma handle_table_kept_witness :
  let '(_, w') := handle_data (toy_config false) to_data (1, 2)
                    (request 0 ([OPEN_REQ; 0; 1; 0] ++ zeros 4 ++ lit "d/a.bin" ++ [0])) share_world in
  table_ok (sess w') /\ 2 <= next_handle (sess w').
Proof.
  destruct (handle_data _ _ _ _ _) as [r w'] eqn:E.
  assert (Ht : table_ok (sess share_world)).
  { split; [by apply NoDup_singleton|done|by repeat constructor|done]. }
  destruct (handle_table_kept (toy_config false) to_data (1, 2) _ share_world r w' Ht E) as (Ht' & Hn & _).
  split; [exact Ht'|exact Hn].
Defined.

(** A REMOVE resent with the number of the last request changes nothing. *)
Lemma replay_not_executed_witness :
  let '(_, w') := handle_data (toy_config false) to_data (1, 2) (request 4095 (remove_payload (lit "d/a.bin"))) share_world in
  transport_eq share_world w'.
Proof.
  destruct (handle_data _ _ _ _ _) as [r w'] eqn:E.
  refine (replay_not_executed (toy_config false) to_data (1, 2) (request 4095 (remove_payload (lit "d/a.bin")))
            (Header.Header DATA 4095) (DataHeader.DataHeader 0 0 0 12) share_world r w' _ _ _ E).
  - vm_compute. reflexivity.
  - vm_compute. reflexivity.
  - right. split; [done|]. by left.
Defined.

(** A write refused because the file is open for reading only: its chunk is dropped. *)
Definition reader_world : world toy :=
  toy_world {| t_nodes := t_nodes share; t_files := [(3, OpenFile (lit "/s/d/a.bin") 0 m_rb)]; t_next := 4 |}
            (toy_session [(1, F_file 3)] 2).

Lemma refused_write_dropped_witness :
  let '(_, w1) := handle_write_req (toy_config false) to_data (1, 2) (write_request 1 3) reader_world in
  let '(_, w2) := feed (toy_config false) to_data (1, 2) [chunk_payload 0 1 [1; 2; 3]] w1 in
  host w2 = host reader_world /\ write_handle (sess w2) = -1.
Proof.
  destruct (handle_write_req _ _ _ _ _) as [r1 w1] eqn:E1. destruct (feed _ _ _ _ _) as [r2 w2] eqn:E2.
  destruct (refused_write_dropped (toy_config false) to_data (1, 2) (write_request 1 3) [WRITE_REQ; 0; 0; 0; 1; 3]
              [chunk_payload 0 1 [1; 2; 3]] reader_world r1 w1 r2 w2) as (Hh & Hw & _); try done.
  right; right. by intros f [= <-].
Defined.

(** Five bytes written in two chunks, the first in the request *)
Lemma write_assembles_witness :
  exists w', write_exchange (toy_config false) to_data (1, 2) 1 5 true
               (chunk_payloads 0 2 [[1; 2; 3]; [4; 5]]) share_world = (Ok tt, w') /\
    node_at (lit "/s/d/a.bin") (t_nodes (host w')) = Some (N_file [1; 2; 3; 4; 5]) /\ write_handle (sess w') = -1.
Proof.
  set (after := snd (f_write 3 [1; 2; 3; 4; 5] share)).
  destruct (write_assembles (toy_config false) to_data (1, 2) 1 5 true [[1; 2; 3]; [4; 5]] 3 5 after after share_world)
    as (w' & E & Hh & _ & Hw & _); try done.
  - repeat constructor; done.
  - exists w'. split; [exact E|]. split; [|exact Hw]. rewrite Hh. reflexivity.
Defined.

(** ** Paths *)

Lemma paths_confined_witness :
  resolve_entry (toy_config false) (lit "d/../d/./a.bin") share = Ok (Some (lit "/s/d/a.bin")) /\
  (lit "/s/d/a.bin" = lit "/s" \/
   ((exists rest, lit "/s/d/a.bin" = root_prefix (lit "/s") ++ rest) /\ (DOTDOT ∉ split_on SLASH (lit "/s/d/a.bin")))).
Proof.
  assert (E : resolve_entry (toy_config false) (lit "d/../d/./a.bin") share = Ok (Some (lit "/s/d/a.bin")))
    by (vm_compute; reflexivity).
  split; [exact E|].
  apply (paths_confined (toy_config false) share (lit "/s") (lit "d/../d/./a.bin")); [reflexivity|reflexivity|done|].
  right. exact E.
Defined.

(** The small host, looking paths up as Windows does: [..] takes the name before it away. *)
Definition collapsing_host : HostOs toy := {|
  os_getcwd := os_getcwd; os_stat p := os_stat (normpath p); os_lstat p := os_lstat (normpath p);
  os_readlink p := os_readlink (normpath p); os_listdir p := os_listdir (normpath p); os_localtime := os_localtime;
  os_open_image p := os_open_image (normpath p); os_makedirs p := os_makedirs (normpath p); os_mkdir p := os_mkdir (normpath p);
  os_unlink p := os_unlink (normpath p); os_rmdir p := os_rmdir (normpath p); os_open p := os_open (normpath p);
  os_fstat := os_fstat; f_read := f_read; f_write := f_write; f_seek := f_seek; f_flush := f_flush; f_close := f_close;
  f_writable := f_writable; os_pread := os_pread; os_pwrite := os_pwrite
|}.

Lemma collapsing_goes_up o : @dotdot_goes_up toy collapsing_host o.
Proof.
  assert (Hparts : forall ns, Forall part_ok ns -> Forall (fun n => n <> [] /\ SLASH ∉ n) ns).
  { intros ns Hp. eapply Forall_impl; [exact Hp|]. by intros n (? & _ & ? & _). }
  assert (Hgood : forall ns, Forall good_name ns -> Forall (fun n => n <> [] /\ SLASH ∉ n) ns).
  { intros ns Hp. eapply Forall_impl; [exact Hp|]. by intros n (? & _ & _ & ?). }
  assert (Hup : DOTDOT <> [] /\ SLASH ∉ DOTDOT) by (split; [done|by apply (bool_decide_unpack _)]).
  split.
  - intros pre d post st Hg _ Hne Hp. apply Forall_app in Hg as [Hg [Hd _]%Forall_cons]. pose proof Hd as (D1 & D2 & D3 & D4).
    apply Hgood in Hg. apply Hparts in Hp. cbn [os_lstat collapsing_host].
    rewrite !normpath_parts; [by rewrite norm_comps_up|by destruct pre, post|by apply Forall_app|by destruct pre|].
    apply Forall_app. split; [done|]. apply Forall_cons. split; [done|]. by apply Forall_cons.
  - intros post st Hne Hp. apply Hparts in Hp. cbn [os_lstat collapsing_host].
    rewrite !normpath_parts by (done || by apply Forall_cons). done.
Qed.

(** REMOVE of [d/../d//a.bin], whose folders are all there *)
Lemma deletion_exact_witness :
  let '(_, w') := @handle_remove toy collapsing_host (toy_config false) to_data (1, 2) (remove_payload (lit "d/../d//a.bin")) share_world in
  host w' = share \/ (read_only (toy_config false) = false /\ host w' = snd (os_unlink (lit "/s/d/a.bin") share)).
Proof.
  destruct (@handle_remove _ _ _ _ _ _ _) as [r w'] eqn:E.
  assert (Hp : entry_parts (client_path (zdrop 4 (remove_payload (lit "d/../d//a.bin")))) = [lit "d"; DOTDOT; lit "d"; lit "a.bin"])
    by (vm_compute; reflexivity).
  assert (Hr : @root_ok toy collapsing_host (toy_config false) share [lit "s"]).
  { split; [reflexivity|]. split; [done|]. split; [|split; [reflexivity|done]].
    apply Forall_singleton. split_and!; [done|done|done|]. by apply (bool_decide_unpack _). }
  destruct (@deletion_exact toy collapsing_host (toy_config false) to_data [lit "s"] (1, 2) (remove_payload (lit "d/../d//a.bin")) share_world r w'
              Hr (collapsing_goes_up share)) as [Hd _].
  destruct (Hd E) as [|[(Hro & _) Ho]]; [by left|right]. split; [exact Hro|]. rewrite Hp in Ho. exact Ho.
Defined.

Example removed_through_dotdot :
  node_at (lit "/s/d/a.bin") (t_nodes (host (snd (@handle_remove toy collapsing_host (toy_config false) to_data (1, 2)
    (remove_payload (lit "d/../d//a.bin")) share_world)))) = None.
Proof. vm_compute. reflexivity. Qed.

(** ** The server *)

Definition toy_settings (m : mode) (cap : Z) : settings :=
  {| verbose := true; modulo_compat := false; single_port := false; protocol_mode := m; data_port := 62967;
     max_sessions := cap; session_timeout := 600000000; fallback_interval := 300000; start_time := 0;
     server_name := lit "nas"; share_names := [lit "s"] |}.

(** A discovery probe *)
Definition probe (seq : Z) : bytes :=
  Header.pack {| Header.packet_type := DISCOVERY; Header.seq_nr := seq |} ++ [0xF5; 0xF5; 0; 0].

(** Two clients that were heard of at 5 and 3 seconds *)
Definition two_peers : list (addr * peer) :=
  [((1, 1), Peer (new_session (1, 1) None PENDING 5000000) [] []);
   ((2, 2), Peer (new_session (2, 2) None PENDING 3000000) [] [(1000, 0)])].

Definition two_clients : @server toy :=
  (boot share None 6000000) <| v_peers := two_peers |>.

(** Three clients with room for two *)
Lemma sessions_sound_witness :
  let v := step (toy_config false) (toy_settings Mode_auto 2) (E_datagram sock_discovery (3, 3) (probe 0))
          (step (toy_config false) (toy_settings Mode_auto 2) (E_datagram sock_discovery (2, 2) (probe 0))
          (step (toy_config false) (toy_settings Mode_auto 2) (E_datagram sock_discovery (1, 1) (probe 0))
             (boot share None 0))) in
  zlen (v_peers v) = 2 /\ NoDup (map fst (v_peers v)).
Proof.
  intros v. split; [vm_compute; reflexivity|].
  apply (sessions_sound (toy_config false) (toy_settings Mode_auto 2) share None 0 v); [done|].
  repeat constructor.
Defined.

(** The second client was heard of least recently. *)
Lemma eviction_least_recent_witness :
  exists victim v', get_or_create (toy_config false) (toy_settings Mode_auto 2) (3, 3) two_clients = (Ok tt, v') /\
    v_closing v' = [shut victim] /\ zlen (v_peers v') = 2.
Proof.
  destruct (eviction_least_recent (toy_config false) (toy_settings Mode_auto 2) (3, 3) two_clients)
    as (victim & v' & E & _ & _ & Hc & _ & Hl); [done|by apply (bool_decide_unpack _)|done|done|].
  exists victim, v'. split; [exact E|]. split; [exact Hc|]. exact Hl.
Defined.

Lemma sweep_exact_witness :
  v_closing (snd (sweep (toy_settings Mode_auto 2) (two_clients <| v_clock := 604000000 |>))) = map shut (drop 1 two_peers).
Proof.
  destruct (sweep_exact (toy_settings Mode_auto 2) (two_clients <| v_clock := 604000000 |>)) as [_ Hd].
  destruct (Hd ltac:(done)) as [Hc _]. exact Hc.
Defined.

(** A session in the middle of a stream, at number 9 *)
Definition streaming_session : session :=
  (toy_session [(1, F_file 3)] 2) <| rx_streaming := true |> <| rx_seq_nr_expected := 9 |> <| tx_seq_nr := 4 |>.

Lemma stray_discovery_harmless_witness :
  let '(r1, w1) := answer_discovery (toy_config false) (toy_settings Mode_auto 2) (1, 2) 0
                     ((toy_world share streaming_session) <| net := [Some 101] |>) in
  let '(_, w2) := negotiate (toy_config false) (toy_settings Mode_auto 2) 9 12 w1 in
  r1 = Err (OSError (Some 101)) /\ sess w2 = streaming_session.
Proof.
  destruct (answer_discovery _ _ _ _ _) as [r1 w1] eqn:E1. destruct (negotiate _ _ _ _ _) as [r2 w2] eqn:E2.
  split; [vm_compute in E1; by injection E1 as <- _|].
  destruct (stray_discovery_harmless (toy_config false) (toy_settings Mode_auto 2) (1, 2) 0 12
              ((toy_world share streaming_session) <| net := [Some 101] |>) r1 w1 r2 w2) as (_ & _ & Hs & _); try done.
Defined.

Lemma turns_isolated_witness :
  peer_find (1, 1) (v_peers (step (toy_config false) (toy_settings Mode_auto 2) (E_timer (2, 2)) two_clients))
  = Some (Peer (new_session (1, 1) None PENDING 5000000) [] []).
Proof.
  rewrite (turns_isolated (toy_config false) (toy_settings Mode_auto 2) (E_timer (2, 2)) (2, 2) (1, 1) two_clients);
    [reflexivity|reflexivity|done].
Defined.

(** The timer of an earlier handshake *)
Lemma stale_timer_inert_witness :
  let v := two_clients <| v_peers ::= peer_update (2, 2) (fun p => p <| p_session ::= fun s => s <| handshake_generation := 1 |> |>) |> in
  v_sent (step (toy_config false) (toy_settings Mode_auto 2) (E_timer (2, 2)) v) = [].
Proof.
  intros v.
  destruct (stale_timer_inert (toy_config false) (toy_settings Mode_auto 2) (2, 2) v
              (Peer ((new_session (2, 2) None PENDING 3000000) <| handshake_generation := 1 |>) [] [(1000, 0)]) 1000 0 [])
    as [_ Hs]; [reflexivity|reflexivity|].
  apply Hs; [done|]. by intros (Hg & _).
Defined.

(** A loader that answers its discovery at number 5 with a payload numbered 6 *)
Lemma first_payload_fixes_profile_witness :
  let s := (new_session (1, 2) None PENDING 0) <| discovery_sequence := 5 |> <| ingress := Some sock_discovery |> in
  let '(_, w') := negotiate (toy_config false) (toy_settings Mode_auto 2) 6 12 (toy_world share s) in
  protocol_profile (sess w') = MODULO /\ rx_seq_nr_expected (sess w') = 6 /\ response_socket (sess w') = sock_discovery.
Proof.
  intros s. destruct (negotiate _ _ _ _ _) as [r w'] eqn:E.
  destruct (first_payload_fixes_profile (toy_config false) (toy_settings Mode_auto 2) 6 12 sock_discovery
              (toy_world share s) r w') as (Hp & Hr & _ & Hx & _); try done.
Defined.

Lemma receive_survives_witness :
  fst (receive (toy_config false) (toy_settings Mode_auto 2) sock_discovery (9, 9) (probe 0)
         (two_clients <| v_net := [Some 101] |>)) = Ok tt.
Proof.
  apply (receive_survives (toy_config false) (toy_settings Mode_auto 2)); [done|cbn; lia|].
  intros p o. change (os_stat p o) with (found_node (follow 8 p o)). by destruct (follow 8 p o).
Defined.

(** The same datagram and the same failing send end the Core's loop. *)
Example core_loop_dies :
  fst (core_receive (toy_config false) (toy_settings Mode_auto 2) sock_discovery (9, 9) (probe 0)
         (two_clients <| v_net := [Some 101] |>)) = Err (OSError (Some 101)).
Proof. vm_compute. reflexivity. Qed.

(** ** A CD image *)

(** A file with a frame in each hunk *)
#[local] Instance frame_hunks : Codecs := {
  lz4_available := false; libchdr_available := true; lz4_decompress _ _ := None; inflate_raw _ := None;
  inflate_zlib _ := None; inflate_max _ _ _ := None; chd_open _ := 0;
  chd_read _ i := Some (stream (fun j => (j + 7 * i) mod 256) 0 2448)
}.

(** A data track of two frames, then two frames of audio after a silent frame *)
Definition two_tracks : track_table := {|
  hunk_bytes := 2448; logical_bytes := 19584;
  tracks := [Track 1 (lit "MODE2_RAW") 2 0 [] 0; Track 2 AUDIO 2 1 (lit "A") 0]
|}.

Definition two_track_layout : layout := {|
  spans := [Span 0 2 0 false; Span 2 1 (-1) true; Span 3 2 4 true];
  indexes := [TrackIndex (Track 1 (lit "MODE2_RAW") 2 0 [] 0) (-1) 0; TrackIndex (Track 2 AUDIO 2 1 (lit "A") 0) 2 3];
  total_frames := 5
|}.

Lemma layout_tiles_witness :
  layout_of two_tracks = Ok two_track_layout /\ tiles 0 (spans two_track_layout) 5.
Proof.
  assert (E : layout_of two_tracks = Ok two_track_layout) by (vm_compute; reflexivity).
  split; [exact E|]. exact (proj1 (layout_tiles _ _ E)).
Defined.

(** Two bytes of silence and the first two samples of the audio track *)
Lemma bin_read_correct_witness :
  let b := BinFile (lit "/s/cd.chd") two_tracks two_track_layout 1 [] 0 7054 in
  fst (bin_read 6 b) = Ok [0; 0; 29; 28; 31; 30].
Proof.
  intros b.
  assert (Hr : readable b).
  { split; [done|vm_compute; reflexivity|]. intros i _. eexists. split; [reflexivity|]. by rewrite zlen_stream. }
  assert (Hc : cache_ok b) by (split; [constructor|apply NoDup_nil_2|done|done|done]).
  destruct (bin_read_correct b 6 Hr Hc ltac:(done)) as (b' & E & _). rewrite E. vm_compute. reflexivity.
Defined.
